(* ===== verification/_CoqProject ===== *)
-Q . S2P
Prelude.v
Sorting.v
Rank.v
Packet.v
Wire.v
Mailbox.v
InMemory.v
Tcp.v
Connect.v
World.v
Tensor.v
Float.v
FloatExact.v
Collective.v
CollectiveWorld.v
Ring.v
CollectiveExamples.v
Registry.v
Memory.v
Partition.v
Shard.v
Protocol.v
Cache.v
Kernels.v
Llama.v
LlamaStage.v
Report.v
Artifacts.v
Generation.v
GenerationProofs.v
ModelExamples.v
Shapes.v
Pipeline.v
PipelineWorld.v
PipelineProofs.v
PipelineExamples.v
Parallel.v
TensorLlama.v
TensorShapes.v
TensorWorld.v
TensorRun.v
TensorProofs.v
TensorExamples.v
Text.v
Launch.v
RingExchange.v
CollectiveCheck.v
CheckProofs.v
Benchmark.v
BenchmarkProofs.v
Docker.v
LaunchRun.v
LaunchExamples.v
BenchmarkLaunch.v
BenchmarkLaunchProofs.v
Collect.v
CollectProofs.v
Dashboard.v
DashboardProofs.v
Observe.v
PipelineEvents.v
PipelineEventsProofs.v
Transcript.v
DashboardRun.v
PipelineEventsExamples.v
TensorEvents.v
TensorEventsProofs.v
TensorTranscript.v
TensorEventsExamples.v
PipelineLaunch.v
PipelineLaunchProofs.v
PipelineLaunchExamples.v
TensorLaunch.v
TensorLaunchProofs.v
TensorLaunchExamples.v
Format.v
CommandLine.v
Cli.v
CliProofs.v
Progress.v
