(* ===== verification/Prelude.v ===== *)
(** * Verification of dlir, a distributed LLM inference runtime

    The program runs a Llama model on one CPU or on several ranks that exchange
    messages.  The development follows it bottom up, one file per component;
    a file's first comment names the sources it models, paths below
    [crates/] of the repository.

    ** The parts

    - Foundations.  [Prelude]: the [result] monad, machine integers, byte lists
      and list lemmas; [Sorting].  [Rank] ([collectives/src/rank.rs], [error.rs]) and
      [Packet] ([tensor.rs], [control.rs], [transport.rs]): identities, errors
      and owned packets.
    - Transports.  [Mailbox] is the contract of the transport traits;
      [InMemory] ([in_memory.rs], [runner.rs]) and [Wire] with [Tcp] ([tcp.rs])
      are two implementations, byte format, barrier, rendezvous and mesh
      included.  [Connect] is how an endpoint joins its world: listeners, polling
      with deadlines and retries, rendezvous, mesh.
    - Worlds.  [World] runs one process per rank over mailboxes and interleaves
      their calls.  A process is a tree of transport calls; [Tensor]
      ([communicator.rs], [tensor.rs]) builds tensor calls on it.
    - Collectives.  [Collective] ([collective.rs]) has the six operations as
      processes; [CollectiveWorld], [Ring] and [CollectiveExamples] their
      behaviour across a world; [Float] is one concrete addition, exact on
      integers ([FloatExact]).  [CollectiveCheck] ([check.rs]) and [Benchmark]
      ([benchmark.rs]) run them on known tensors; [CheckProofs] and
      [BenchmarkProofs] show what comes out.
    - Planning.  [Registry] ([runtime/src/registry.rs], [prompt.rs],
      [error.rs]), [Memory] ([memory.rs]), [Partition]
      ([pipeline/src/partition.rs]), [Shard] ([runtime/src/parallel.rs],
      [tensor/src/plan.rs]) and [Protocol] ([pipeline/src/protocol.rs]).
    - The model.  [Cache] ([runtime/src/model/cache.rs]), [Kernels] (the Candle
      operations), [Llama] ([model/llama.rs]: the whole model and a pipeline
      stage), [LlamaStage] and [Shapes] (its properties).
    - Runs.  [Report] ([runtime/src/report.rs]), [Artifacts] ([artifacts.rs],
      [inspect.rs]), [Generation] and [GenerationProofs] ([generation.rs]),
      [Pipeline], [PipelineWorld] and [PipelineProofs]
      ([pipeline/src/runner.rs], [report.rs]).  [ModelExamples] and
      [PipelineExamples] run them on concrete inputs.
    - Tensor parallelism.  [Parallel] ([runtime/src/parallel.rs], the layers),
      [TensorLlama] ([runtime/src/model/tensor_parallel.rs]) and [TensorRun]
      ([tensor/src/runner.rs], [report.rs]): what a rank does between
      collectives is a function, the rest a process over [Collective];
      [TensorShapes], [TensorWorld] and [TensorProofs] prove it,
      [TensorExamples] runs it.
    - The launcher.  [Text] (what it uses of strings), [Launch]
      ([cli/src/launch.rs]: amounts, resource plans, cgroup limits),
      [RingExchange] ([launch.rs], [collectives/src/report.rs]: what launched
      ranks exchange), [Docker] (commands, the guard of a run, the wait) and
      [LaunchRun] (the launch command); [Collect] and [CollectProofs]
      ([pipeline/src/event.rs] and the collectors of rank streams);
      [PipelineLaunch] ([cli/src/pipeline.rs]) and [TensorLaunch]
      ([cli/src/tensor.rs]) with their proofs and examples: the two commands end
      to end, over [Pipeline] and [TensorRun].  [BenchmarkLaunch]
      ([cli/src/benchmark.rs]) is the benchmark command over [Benchmark].
    - Events.  [Observe] is the theory of processes that keep a record;
      [PipelineEvents] ([pipeline/src/runner.rs], [model/llama.rs]) and
      [TensorEvents] ([tensor/src/runner.rs], [collectives/src/collective.rs],
      [model/tensor_parallel.rs]) are the ranks again with every notification at its
      place; [PipelineEventsProofs] and [TensorEventsProofs] relate them to
      [Pipeline] and [TensorRun], [Transcript] and [TensorTranscript] say what they
      emit, [PipelineEventsExamples] and [TensorEventsExamples] run them.
    - The dashboard.  [Dashboard] ([tui/src/lib.rs]: reducer, loop, terminal
      guard), over the events of [Collect]; [DashboardProofs] what it shows and
      [DashboardRun] what it shows of a pipeline.
    - The command line.  [CommandLine] ([cli/src/main.rs]: the commands, what
      [main] makes of them, the arguments of a rank), [Format] (numbers as text)
      and [Cli] (the commands without containers and all they print);
      [CliProofs] what reaches the terminal.  [Progress] is what launches print:
      their progress without a dashboard and their reports.

    ** How code becomes definitions

    A function is the definition of its name, or of its type's and its name
    where the name alone is taken ([KvCache::new] is [cache_new]).  [Result] is
    [result] and [?] its bind; a state a function mutates is an argument and a
    part of its result, on the error path too where a caller can observe it.
    Integers are [N] with the wrap-around ([add64], [mul64]) or the checked form
    ([checked_mul]) written out; indices and lengths of vectors are [nat]; [usize]
    has 64 bits and unchecked arithmetic wraps, as in the release profile.  An
    [f32] is its bit pattern, an [f64] of the registry its decimal text.  A
    tensor is its dimensions, dtype, device and row-major elements: contiguity
    and shared storage are not represented.  Loops that are not structural take
    fuel, and a theorem says how much is enough: the tokens of a request and one
    more for [decode_loop], the tokens for [rank_loop], the messages present for
    the receive loops; the tensor rank's loop counts its steps as the code does.  The
    launcher is a state monad over the commands it issued, the interrupt flag
    and its guard ([Docker.docking]); the Docker daemon is a function of those
    commands, and what its threads see - lines, ends, exits, silences, Ctrl-C - a
    list in any order; the list may end early, which is [Blocked].  In [World]
    the calls of a rank are atomic, transport failures and time-outs are not
    steps; [InMemory] and [Tcp] treat them.  A launched rank's transport refuses to
    write a frame over [Wire.DEFAULT_MAX_TENSOR_BYTES]: the messages of a registered
    model fit ([ModelExamples.registered_frames_fit]), and of the benchmark, whose
    payloads the user chooses, it is a condition ([BenchmarkProofs.transportable]).

    What the program only calls is a class: [FloatOps] (addition of [f32], with
    the law [ExactIntegers] where the data are integers),
    [Kernels] (the numeric kernels of Candle, which give the elements of a result
    whose shape the model fixes; [KernelLaws] is their element count),
    [HostSystem] (hub, file system, JSON and safetensors readers, [Debug] texts),
    [Runtime] (tokenizer, mapped weights), [ShardedRuntime] (the mapped file the
    sharded reader of [TensorLlama] cuts its parts from), [JsonCodec] with its
    round-trip law, and [Clap] (the argument parser, with the law of separate long
    options).  Every theorem that uses a law has a witness with an instance of it.

    ** What is shown

    - A pipeline generates what one process generates
      ([PipelineProofs.pipeline_generates]): every schedule terminates without
      deadlock, all ranks stop for the same reason and rank 0 has the tokens of
      the single-process run.  The specification between the two is
      [greedy_run]; the step from one pass to its stages is
      [LlamaStage.stages_compose].
    - Tensor ranks generate together ([TensorProofs.tensor_ranks_generate]): every
      schedule terminates, and all ranks report the tokens and the reason of one
      greedy run whose passes are in lock step - partial results summed for all
      ranks, vocabulary parts laid side by side ([TensorWorld]).
    - The commands do what the ranks do
      ([PipelineLaunchProofs.pipeline_launch_generates],
      [TensorLaunchProofs.tensor_launch_generates],
      [LaunchRun.docker_launch_succeeds],
      [BenchmarkLaunchProofs.benchmark_command_measures]): from a request to the report, through
      manifest, containers and interleaved streams; a pipeline that ends without
      a decode pass ends in the panic of its report's mean
      ([PipelineLaunchExamples.single_token_panics]).  Whatever happens, no container
      and no network of a run remains but where the daemon did not confirm a creation or
      a removal, or started a container without an identifier
      ([launch_leaves_nothing] and its companions, with [Docker.lost]); with a daemon
      that confirms everything nothing remains ([Docker.released_serves]).  A
      collection without complaint is a correct run ([CollectProofs]).
    - Generation returns, its report agrees with its events and its stop reason,
      and no pass runs out of the planned cache ([GenerationProofs]); greedy
      selection takes the first largest logit.
    - The model is well typed ([Shapes]), the cache of a layer is a log
      ([Cache]), the mask is causal ([Llama]), and a checkpoint that passes
      validation is the registered one and loads ([Artifacts]).
    - Collectives: on every schedule each operation terminates and returns its
      value on every rank; the ring algorithm agrees bit for bit across ranks, and
      on integers small enough to be exact with the centralized one; tags
      never collide.  The check of the collectives passes and benchmarks measure
      correct sums, with the bytes both algorithms must send.
    - Transports: both receives implement the mailbox; both barriers
      synchronise; ranks that connect agree
      ([Connect.connected_ranks_agree]) and no wait of a startup outlasts its
      deadline; the byte format round-trips and is canonical.
    - Planning: plans are exact or fail, conserve parameters and bytes, and
      partitions tile the model.
    - A container's arguments are read back as the request the launcher meant
      ([CommandLine.launched_ranks_read_their_request]); a generation prints its
      completion, or what it streamed when the completion does not begin with that
      ([CliProofs.generate_prints_completion]), and the check command
      passes ([CliProofs.check_command_passes]).
    - The events of a rank are true ([Transcript.pipeline_events_true],
      [TensorTranscript.tensor_events_true]): they are the transcript of its run and
      add up to its report; observing a world of ranks changes nothing of what it
      does ([observed_pipeline_generates], [observed_tensor_generates]).
    - The dashboard shows the same whatever the interleaving of the ranks
      ([DashboardProofs.dashboard_interleaving]), its totals are exact, and of a
      pipeline they are those of the reports ([DashboardRun.dashboard_shows_reports]).
      Without a dashboard the lines printed are what the ranks did ([Progress]).

    ** Not modelled

    Clock readings and everything derived from them, the benchmark's latencies
    apart, which are an argument; the events of a run that fails (those of a run
    that succeeds are [Transcript] and [TensorTranscript]); the numeric kernels, so
    that the lock-step logits of tensor ranks are not compared with those of the undivided model;
    lock poisoning and thread starts; the panic of a [print!] to a closed terminal;
    the JSON form of reports.  A launched rank's connection is [Connect.connect]; the
    processes of [PipelineLaunch], [TensorLaunch] and [RingExchange]
    start once it stands.  The parsing of a user's command is [clap]'s:
    [CommandLine.main_call] starts from the parsed command, and only a rank's
    arguments are read.  The frames the dashboard draws ([render] of
    [tui/src/lib.rs]) and the notices of the launchers while they build images and
    start containers are left out, and so are JSON texts, the decimals of an [f32] that is no integer
    ([Cli.display_f32]), and the vendored Candle beyond the operations named in
    [Tensor], [Cache] and [Kernels]. *)
From Stdlib Require Export NArith Lia.
From Stdlib Require Import Strings.Byte.
From stdpp Require Export base tactics list gmap strings pretty option numbers.

(** ** Results

    Rust's [Result<T, E>], with [?] as the monadic bind. *)
Inductive result (E A : Type) : Type :=
| Ok (a : A)
| Err (e : E).
Arguments Ok {E A} a.
Arguments Err {E A} e.

#[global] Instance result_ret {E} : MRet (result E) := fun A a => Ok a.
#[global] Instance result_bind {E} : MBind (result E) := fun A B f m =>
  match m with Ok a => f a | Err e => Err e end.
#[global] Instance result_fmap {E} : FMap (result E) := fun A B f m =>
  match m with Ok a => Ok (f a) | Err e => Err e end.

#[global] Instance result_eq_dec {E A} `{EqDecision E, EqDecision A} :
  EqDecision (result E A).
Proof. solve_decision. Defined.

Definition is_ok {E A} (m : result E A) : bool :=
  match m with Ok _ => true | Err _ => false end.

Definition is_err {E A} (m : result E A) : bool := negb (is_ok m).

(** [Option::ok_or]. *)
Definition ok_or {E A} (o : option A) (e : E) : result E A :=
  match o with Some a => Ok a | None => Err e end.

(** [Result::map_err]. *)
Definition map_err {E F A} (f : E -> F) (m : result E A) : result F A :=
  match m with Ok a => Ok a | Err e => Err (f e) end.

(** [if c { return Err(e) }]. *)
Definition reject_if {E} (c : bool) (e : E) : result E unit :=
  if c then Err e else Ok tt.

(** ** Fixed-width integers

    [u64] and [usize] are [N]; the targets of the program are 64-bit, so both
    have 64 bits.  Checked operations return [None] on overflow, plain
    operations wrap around (release profile), conversions are explicit. *)
Definition U64 : N := 2 ^ 64.
Definition U32 : N := 2 ^ 32.
Definition U64_MAX : N := U64 - 1.

Definition checked_add (a b : N) : option N :=
  if (a + b <? U64)%N then Some (a + b)%N else None.
Definition checked_mul (a b : N) : option N :=
  if (a * b <? U64)%N then Some (a * b)%N else None.
Definition checked_sub (a b : N) : option N :=
  if (b <=? a)%N then Some (a - b)%N else None.
Definition wrap64 (a : N) : N := (a mod U64)%N.
Definition add64 (a b : N) : N := wrap64 (a + b).
Definition mul64 (a b : N) : N := wrap64 (a * b).
(** [u64] subtraction with wrap-around. *)
Definition sub64 (a b : N) : N := wrap64 (a + U64 - wrap64 b).

(** Lengths of lists as [usize]. *)
Definition lenN {A} (l : list A) : N := N.of_nat (length l).

Lemma lenN_nil {A} : lenN (@nil A) = 0%N.
Proof. reflexivity. Qed.
Lemma lenN_cons {A} (x : A) l : lenN (x :: l) = (1 + lenN l)%N.
Proof. unfold lenN; simpl; lia. Qed.
Lemma lenN_app {A} (l k : list A) : lenN (l ++ k) = (lenN l + lenN k)%N.
Proof. unfold lenN; rewrite length_app; lia. Qed.

Lemma to_nat_lenN {A} (l : list A) : N.to_nat (lenN l) = length l.
Proof. apply Nat2N.id. Qed.

Lemma checked_add_Some a b c :
  checked_add a b = Some c <-> c = (a + b)%N /\ (a + b < U64)%N.
Proof. unfold checked_add; destruct (N.ltb_spec (a + b) U64); naive_solver lia. Qed.
Lemma checked_mul_Some a b c :
  checked_mul a b = Some c <-> c = (a * b)%N /\ (a * b < U64)%N.
Proof. unfold checked_mul; destruct (N.ltb_spec (a * b) U64); naive_solver lia. Qed.
Lemma checked_add_None a b : checked_add a b = None <-> (U64 <= a + b)%N.
Proof. unfold checked_add; destruct (N.ltb_spec (a + b) U64); naive_solver lia. Qed.
Lemma checked_mul_None a b : checked_mul a b = None <-> (U64 <= a * b)%N.
Proof. unfold checked_mul; destruct (N.ltb_spec (a * b) U64); naive_solver lia. Qed.

Lemma wrap64_small a : (a < U64)%N -> wrap64 a = a.
Proof. intros; unfold wrap64; by apply N.mod_small. Qed.
Lemma add64_small a b : (a + b < U64)%N -> add64 a b = (a + b)%N.
Proof. apply wrap64_small. Qed.
Lemma mul64_small a b : (a * b < U64)%N -> mul64 a b = (a * b)%N.
Proof. apply wrap64_small. Qed.
(** Wrapped operands: an expression of plain operations is the wrapped
    exact value. *)
Lemma wrap64_add_l a b : wrap64 (wrap64 a + b) = wrap64 (a + b).
Proof. apply N.Div0.add_mod_idemp_l. Qed.
Lemma wrap64_add_r a b : wrap64 (a + wrap64 b) = wrap64 (a + b).
Proof. apply N.Div0.add_mod_idemp_r. Qed.
Lemma wrap64_mul_l a b : wrap64 (wrap64 a * b) = wrap64 (a * b).
Proof. apply N.Div0.mul_mod_idemp_l. Qed.
Lemma wrap64_mul_r a b : wrap64 (a * wrap64 b) = wrap64 (a * b).
Proof. apply N.Div0.mul_mod_idemp_r. Qed.
Lemma sub64_small a b : (b <= a)%N -> (a < U64)%N -> sub64 a b = (a - b)%N.
Proof.
  intros H1 H2. unfold sub64. rewrite (wrap64_small b) by lia. unfold wrap64.
  replace (a + U64 - b)%N with (a - b + 1 * U64)%N by lia.
  rewrite N.Div0.mod_add. apply N.mod_small. lia.
Qed.
Lemma wrap64_lt a : (wrap64 a < U64)%N.
Proof. apply N.mod_lt; discriminate. Qed.

Create HintDb dlir discriminated.
Create Rewrite HintDb dlir.
#[export] Hint Rewrite @lenN_nil @lenN_cons @lenN_app : dlir.
#[export] Hint Resolve wrap64_lt : dlir.

Lemma checked_add4 a b c d : (a + b + c + d < U64)%N ->
  (v ← checked_add a b; v ← checked_add v c; checked_add v d) = Some (a + b + c + d)%N.
Proof.
  intros H. apply bind_Some. exists (a + b)%N. split; [apply checked_add_Some; lia|].
  apply bind_Some. exists (a + b + c)%N. split; apply checked_add_Some; lia.
Qed.

(** [wrap_out]: collects the wrap-arounds of a plain expression outside. *)
Ltac wrap_out :=
  unfold add64, mul64;
  repeat match goal with
  | |- context [wrap64 ?a] =>
      lazymatch a with context [wrap64 _] => fail | _ => idtac end;
      first [ rewrite (wrap64_add_l a) | rewrite (fun b => wrap64_add_r b a)
            | rewrite (wrap64_mul_l a) | rewrite (fun b => wrap64_mul_r b a) ]
  end.

(** Sums. *)
Fixpoint sumN (l : list N) : N :=
  match l with [] => 0%N | n :: l => (n + sumN l)%N end.

Lemma sumN_map_Forall2 {A B} (R : A -> B -> Prop) (f : A -> N) (g : B -> N) l k :
  Forall2 R l k -> (forall a b, R a b -> f a = g b) -> sumN (map f l) = sumN (map g k).
Proof. intros H HR. induction H; [done|]. cbn. f_equal; auto. Qed.

Lemma sumN_map_linear {A} (f g : A -> N) (c : N) l :
  sumN (map (fun a => c * f a + g a)%N l) = (c * sumN (map f l) + sumN (map g l))%N.
Proof. induction l as [|a l IH]; cbn; [lia|]. rewrite IH. lia. Qed.

Lemma sumN_map_scale {A} (f : A -> N) (c : N) l :
  sumN (map (fun a => c * f a)%N l) = (c * sumN (map f l))%N.
Proof. induction l as [|a l IH]; cbn; [lia|]. rewrite IH. lia. Qed.

Lemma sumN_map_le {A} (f : A -> N) l a : a ∈ l -> (f a <= sumN (map f l))%N.
Proof. intros H. induction H; cbn; lia. Qed.

Lemma sumN_map_ext {A} (f g : A -> N) l : (forall a, f a = g a) -> sumN (map f l) = sumN (map g l).
Proof. intros H. f_equal. by apply map_ext. Qed.

Lemma sumN_replicate n x : sumN (replicate n x) = (N.of_nat n * x)%N.
Proof. induction n as [|n IH]; cbn [replicate sumN]; [done|]. rewrite IH. lia. Qed.

Lemma sumN_const {A} (f : A -> N) c l :
  (forall a, a ∈ l -> f a = c) -> sumN (map f l) = (c * lenN l)%N.
Proof.
  induction l as [|a l IH]; intros H; [by rewrite N.mul_0_r|].
  cbn [map sumN]. rewrite lenN_cons, IH, (H a) by set_solver. lia.
Qed.

(** [iter().sum()] on [u64], wrapping. *)
Definition sum64 (l : list N) : N := foldl add64 0%N l.

Lemma sum64_wrap l a : foldl add64 (wrap64 a) l = wrap64 (a + sumN l).
Proof.
  revert a. induction l as [|n l IH]; intros a; cbn [foldl sumN]; [by rewrite N.add_0_r|].
  unfold add64 at 2. rewrite wrap64_add_l, IH. f_equal. lia.
Qed.

Lemma foldl_add64 {A} (f : A -> N) l : foldl (fun s x => add64 s (f x)) 0%N l = sum64 (map f l).
Proof. unfold sum64. generalize 0%N. induction l as [|x l IH]; intros a; [done|]. cbn. apply IH. Qed.
Lemma sum64_wraps l : sum64 l = wrap64 (sumN l).
Proof. apply (sum64_wrap l 0). Qed.
Lemma sum64_wrapped l : sum64 (map wrap64 l) = wrap64 (sumN l).
Proof.
  rewrite sum64_wraps. induction l as [|x l IH]; [done|]. cbn [map sumN].
  by rewrite <- wrap64_add_r, IH, wrap64_add_l, wrap64_add_r.
Qed.

(** ** Bytes *)
Abbreviation byte := Byte.byte.

Definition byte_of_N (n : N) : byte :=
  match Byte.of_N (n mod 256) with Some b => b | None => Byte.x00 end.

Lemma byte_to_of_N n : Byte.to_N (byte_of_N n) = (n mod 256)%N.
Proof.
  unfold byte_of_N. destruct (Byte.of_N (n mod 256)) as [b|] eqn:E.
  - by apply Byte.to_of_N.
  - apply Byte.of_N_None_iff in E.
    assert (n mod 256 < 256)%N by (apply N.mod_lt; discriminate). lia.
Qed.

Lemma byte_of_to_N b : byte_of_N (Byte.to_N b) = b.
Proof.
  unfold byte_of_N. rewrite N.mod_small.
  - by rewrite Byte.of_to_N.
  - pose proof (Byte.to_N_bounded b). lia.
Qed.

#[global] Instance byte_eq_dec : EqDecision byte := Byte.byte_eq_dec.

(** [n.to_le_bytes()] for an integer of [w] bytes. *)
Fixpoint to_le (w : nat) (n : N) : list byte :=
  match w with
  | O => []
  | S w => byte_of_N n :: to_le w (n / 256)
  end.

(** [from_le_bytes]. *)
Fixpoint of_le (l : list byte) : N :=
  match l with
  | [] => 0
  | b :: l => Byte.to_N b + 256 * of_le l
  end.

Lemma length_to_le w n : length (to_le w n) = w.
Proof. revert n; induction w; intros; simpl; auto. Qed.

Lemma of_to_le w n : of_le (to_le w n) = (n mod (256 ^ N.of_nat w))%N.
Proof.
  revert n. induction w as [|w IH]; intros n; cbn [to_le of_le].
  - by rewrite N.mod_1_r.
  - rewrite byte_to_of_N, IH, Nat2N.inj_succ, N.pow_succ_r', N.Div0.mod_mul_r. lia.
Qed.

Lemma of_to_le_small w n : (n < 256 ^ N.of_nat w)%N -> of_le (to_le w n) = n.
Proof. intros. rewrite of_to_le. by apply N.mod_small. Qed.

Lemma of_le_bound l : (of_le l < 256 ^ N.of_nat (length l))%N.
Proof.
  induction l as [|b l IH]; cbn [of_le length]; [done|].
  rewrite Nat2N.inj_succ, N.pow_succ_r'.
  pose proof (Byte.to_N_bounded b). lia.
Qed.

Lemma to_of_le l : to_le (length l) (of_le l) = l.
Proof.
  induction l as [|b l IH]; cbn [of_le to_le length]; [done|].
  pose proof (Byte.to_N_bounded b).
  assert ((Byte.to_N b + 256 * of_le l) / 256 = of_le l)%N as ->.
  { symmetry. apply (N.div_unique _ _ _ (Byte.to_N b)); lia. }
  rewrite IH. f_equal. rewrite <- (byte_of_to_N b) at 2.
  unfold byte_of_N.
  assert ((Byte.to_N b + 256 * of_le l) mod 256 = Byte.to_N b mod 256)%N as ->; [|done].
  rewrite N.mul_comm, N.Div0.mod_add. done.
Qed.

(** ** Reasoning about [?] *)

Lemma Ok_inj {E A} (a b : A) : @Ok E A a = Ok b -> a = b.
Proof. by intros [=]. Qed.

Lemma bind_Ok {E A B} (m : result E A) (f : A -> result E B) b :
  (m ≫= f) = Ok b <-> exists a, m = Ok a /\ f a = Ok b.
Proof. destruct m; cbn; naive_solver. Qed.

Lemma bind_Err {E A B} (m : result E A) (f : A -> result E B) e :
  (m ≫= f) = Err e <-> m = Err e \/ exists a, m = Ok a /\ f a = Err e.
Proof. destruct m; cbn; naive_solver. Qed.

Lemma ok_or_Ok {E A} (o : option A) (e : E) a : ok_or o e = Ok a <-> o = Some a.
Proof. destruct o; cbn; naive_solver. Qed.

Lemma map_err_Ok {E F A} (f : E -> F) (m : result E A) a : map_err f m = Ok a <-> m = Ok a.
Proof. destruct m; cbn; naive_solver. Qed.

Lemma reject_if_Ok {E} c (e : E) u : reject_if c e = Ok u <-> c = false.
Proof. destruct u, c; by cbn. Qed.

Lemma reject_if_Err {E} c (e e' : E) : reject_if c e = Err e' <-> c = true /\ e' = e.
Proof. destruct c; cbn; naive_solver. Qed.

Lemma ok_or_Err {E A} (o : option A) (e e' : E) : ok_or o e = Err e' <-> o = None /\ e' = e.
Proof. destruct o; cbn; naive_solver. Qed.

(** [inv_ok H]: unfolds the successful run [H : _ = Ok _] of a computation in
    the result monad into the successes of its steps; guards become boolean
    equations. *)
Ltac inv_ok H :=
  repeat (first
    [ discriminate H
    | match type of H with
      | mbind _ _ = Ok _ => apply bind_Ok in H as (? & ? & H)
      | (let (_, _) := ?p in _) = Ok _ => destruct p; cbn beta iota in H
      | (if ?c then _ else _) = Ok _ => destruct c eqn:?
      | match ?o with Some _ => _ | None => _ end = Ok _ => destruct o eqn:?
      end ]);
  try (apply Ok_inj in H);
  repeat match type of H with
  | (_, _) = (_, _) => apply pair_equal_spec in H as [H ?]
  end.

(** [inv_oks]: the same for every hypothesis in sight. *)
Ltac inv_oks :=
  repeat match goal with
  | H : mbind _ _ = Ok _ |- _ => inv_ok H
  | H : (if _ then _ else _) = Ok _ |- _ => inv_ok H
  | H : ok_or _ _ = Ok _ |- _ => apply ok_or_Ok in H
  | H : map_err _ _ = Ok _ |- _ => apply map_err_Ok in H
  end.

(** [bool_prop]: boolean comparisons on [nat] and [N] to propositions. *)
Ltac bool_prop :=
  repeat match goal with
  | H : negb _ = true |- _ => apply negb_true_iff in H
  | H : negb _ = false |- _ => apply negb_false_iff in H
  | H : (_ <? _)%N = true |- _ => apply N.ltb_lt in H
  | H : (_ <? _)%N = false |- _ => apply N.ltb_ge in H
  | H : (_ <=? _)%N = true |- _ => apply N.leb_le in H
  | H : (_ <=? _)%N = false |- _ => apply N.leb_gt in H
  | H : (_ =? _)%N = true |- _ => apply N.eqb_eq in H
  | H : (_ =? _)%N = false |- _ => apply N.eqb_neq in H
  | H : Nat.ltb _ _ = true |- _ => apply Nat.ltb_lt in H
  | H : Nat.ltb _ _ = false |- _ => apply Nat.ltb_ge in H
  | H : Nat.leb _ _ = true |- _ => apply Nat.leb_le in H
  | H : Nat.leb _ _ = false |- _ => apply Nat.leb_gt in H
  | H : Nat.eqb _ _ = true |- _ => apply Nat.eqb_eq in H
  | H : Nat.eqb _ _ = false |- _ => apply Nat.eqb_neq in H
  | H : bool_decide _ = true |- _ => apply bool_decide_eq_true in H
  | H : bool_decide _ = false |- _ => apply bool_decide_eq_false in H
  | H : (_ || _)%bool = false |- _ => apply orb_false_iff in H as [? ?]
  | H : (_ && _)%bool = true |- _ => apply andb_true_iff in H as [? ?]
  end.

(** [collect::<Result<Vec<_>>>()]. *)
Lemma mapM_Forall2 {E A B} (f : A -> result E B) l k :
  mapM f l = Ok k -> Forall2 (fun a b => f a = Ok b) l k.
Proof.
  revert k. induction l as [|a l IH]; intros k H; cbn in H.
  - injection H as <-. constructor.
  - inv_ok H. subst. constructor; auto.
Qed.

Lemma mapM_Ok {E A B} (f : A -> result E B) g l :
  (forall a, a ∈ l -> f a = Ok (g a)) -> mapM f l = Ok (map g l).
Proof.
  induction l as [|a l IH]; intros H; cbn; [done|].
  rewrite (H a) by set_solver; cbn. rewrite IH by set_solver. done.
Qed.

Lemma mapM_total {E A B} (f : A -> result E B) (P : A -> B -> Prop) l :
  (forall a, a ∈ l -> exists b, f a = Ok b /\ P a b) ->
  exists k, mapM f l = Ok k /\ Forall2 P l k.
Proof.
  induction l as [|a l IH]; intros H; [exists []; by split|].
  destruct (H a) as (b & Hb & HP); [set_solver|].
  destruct IH as (k & Hk & HF); [set_solver|].
  exists (b :: k). cbn. rewrite Hb; cbn. rewrite Hk; cbn. split; [done|by constructor].
Qed.

(** A list of [n] distinct numbers below [n] is a permutation of them. *)
Lemma distinct_below_perm l n :
  NoDup l -> Forall (fun x => x < n) l -> length l = n -> l ≡ₚ seq 0 n.
Proof.
  intros Hnd Hb Hl. apply submseteq_length_Permutation; [|rewrite length_seq; lia].
  apply NoDup_submseteq; [done|]. intros x Hx.
  rewrite List.Forall_forall in Hb. specialize (Hb x ltac:(by apply list_elem_of_In)).
  apply elem_of_seq. lia.
Qed.

Lemma filter_nothing {A} (P : A -> Prop) `{!forall x, Decision (P x)} (l : list A) :
  (forall x, x ∈ l -> ~ P x) -> filter P l = [].
Proof.
  induction l as [|x l IH]; intros Hl; [done|]. rewrite filter_cons_False by (apply Hl; left).
  apply IH. intros y Hy. apply Hl. by right.
Qed.

Lemma filter_everything {A} (P : A -> Prop) `{!forall x, Decision (P x)} (l : list A) :
  (forall x, x ∈ l -> P x) -> filter P l = l.
Proof.
  induction l as [|x l IH]; intros Hl; [done|]. rewrite filter_cons_True by (apply Hl; left).
  f_equal. apply IH. intros y Hy. apply Hl. by right.
Qed.

(** ** Choice *)
Lemma finite_choice {A} (d : A) n (P : nat -> A -> Prop) :
  (forall i, i < n -> exists a, P i a) -> exists f, forall i, i < n -> P i (f i).
Proof.
  induction n as [|n IH]; intros H; [exists (fun _ => d); lia|].
  destruct IH as [f Hf]; [auto|]. destruct (H n ltac:(lia)) as [a Ha].
  exists (fun i => if decide (i = n) then a else f i). intros i Hi.
  case_decide as E; [by subst|]. apply Hf. lia.
Qed.

(** ** Text *)
Definition byte_between (lo hi : N) (c : Ascii.ascii) : bool :=
  (lo <=? Ascii.N_of_ascii c)%N && (Ascii.N_of_ascii c <=? hi)%N.

(** [str::trim_start]: drops leading Unicode white space (UTF-8). *)
Fixpoint trim_start (s : string) : string :=
  match s with
  | EmptyString => EmptyString
  | String a t =>
      if byte_between 9 13 a || byte_between 32 32 a then trim_start t else
      match t with
      | EmptyString => s
      | String b t =>
          if byte_between 194 194 a && (byte_between 133 133 b || byte_between 160 160 b)
          then trim_start t else
          match t with
          | EmptyString => s
          | String c t =>
              if (byte_between 225 225 a && byte_between 154 154 b && byte_between 128 128 c)
                 || (byte_between 226 226 a && byte_between 128 128 b
                     && (byte_between 128 138 c || byte_between 168 169 c || byte_between 175 175 c))
                 || (byte_between 226 226 a && byte_between 129 129 b && byte_between 159 159 c)
                 || (byte_between 227 227 a && byte_between 128 128 b && byte_between 128 128 c)
              then trim_start t else s
          end
      end
  end.

(** [str::trim().is_empty()]. *)
Definition blank (s : string) : bool :=
  match trim_start s with EmptyString => true | _ => false end.

(** [str::trim]: a white-space suffix starts at a character boundary, because
    no continuation byte starts a white-space character. *)
Fixpoint trim_end (s : string) : string :=
  match s with
  | EmptyString => EmptyString
  | String c t => if blank s then EmptyString else String c (trim_end t)
  end.
Definition trim (s : string) : string := trim_end (trim_start s).

(** [str::to_ascii_lowercase]. *)
Definition ascii_lower (c : Ascii.ascii) : Ascii.ascii :=
  let n := Ascii.N_of_ascii c in
  if ((65 <=? n) && (n <=? 90))%N then Ascii.ascii_of_N (n + 32) else c.
Fixpoint to_ascii_lowercase (s : string) : string :=
  match s with
  | EmptyString => EmptyString
  | String c s => String (ascii_lower c) (to_ascii_lowercase s)
  end.

(** ASCII digits: the longest prefix of digits, and its decimal value
    ([str::parse] before the range check). *)
Definition is_digit (c : Ascii.ascii) : bool := byte_between 48 57 c.
Fixpoint all_digits (s : string) : bool :=
  match s with EmptyString => true | String c s => is_digit c && all_digits s end.
Fixpoint split_digits (s : string) : string * string :=
  match s with
  | EmptyString => (EmptyString, EmptyString)
  | String c t =>
      if is_digit c then let (d, r) := split_digits t in (String c d, r) else (EmptyString, s)
  end.
Fixpoint decimal_from (acc : N) (s : string) : N :=
  match s with
  | EmptyString => acc
  | String c s => decimal_from (10 * acc + (Ascii.N_of_ascii c - 48)) s
  end.
Definition decimal : string -> N := decimal_from 0.

(** stdpp keeps [String.append] folded. *)
Lemma str_nil_app b : "" +:+ b = b.
Proof. reflexivity. Qed.
Lemma str_cons_app c a b : String c a +:+ b = String c (a +:+ b).
Proof. reflexivity. Qed.
Lemma str_app_nil a : a +:+ "" = a.
Proof. induction a as [|c a IH]; [done|]. by rewrite str_cons_app, IH. Qed.
Lemma str_app_assoc a b c : (a +:+ b) +:+ c = a +:+ (b +:+ c).
Proof. induction a as [|x a IH]; [done|]. by rewrite !str_cons_app, IH. Qed.
#[export] Hint Rewrite str_nil_app str_cons_app str_app_nil str_app_assoc : dlir.

Lemma all_digits_app a b : all_digits (a +:+ b) = all_digits a && all_digits b.
Proof.
  induction a as [|c a IH]; [done|]. rewrite str_cons_app. cbn [all_digits].
  by rewrite IH, andb_assoc.
Qed.

Lemma split_digits_spec s d r :
  split_digits s = (d, r) <->
  s = d +:+ r /\ all_digits d = true /\
  match r with EmptyString => True | String c _ => is_digit c = false end.
Proof.
  revert d r. induction s as [|c s IH]; intros d r; cbn [split_digits].
  - split; [by intros [= <- <-]|]. intros (Hs & _). by destruct d, r.
  - destruct (is_digit c) eqn:Hc.
    + destruct (split_digits s) as [d' r'] eqn:E. specialize (IH d' r') as IH'.
      destruct IH' as [IH' _], (IH' eq_refl) as (-> & Hd & Hr). split.
      * intros [= <- <-]. rewrite str_cons_app. cbn. by rewrite Hc.
      * intros (Hs & Hd' & Hr'). destruct d as [|c' d].
        { rewrite str_nil_app in Hs. subst r. cbn in Hr'. congruence. }
        rewrite str_cons_app in Hs. injection Hs as <- Hs. cbn in Hd'. rewrite Hc in Hd'.
        destruct (IH d r) as [_ IH2]. specialize (IH2 (conj Hs (conj Hd' Hr'))). congruence.
    + split; [by intros [= <- <-]|]. intros (Hs & Hd & Hr). destruct d as [|c' d].
      * rewrite str_nil_app in Hs. by subst.
      * rewrite str_cons_app in Hs. injection Hs as <- Hs. cbn in Hd. by rewrite Hc in Hd.
Qed.

Lemma decimal_from_app acc a b : decimal_from acc (a +:+ b) = decimal_from (decimal_from acc a) b.
Proof.
  revert acc. induction a as [|c a IH]; intros acc; [done|]. rewrite str_cons_app. apply IH.
Qed.

(** [pretty] prints a natural number in decimal. *)
Lemma digit_char n : (n < 10)%N ->
  is_digit (pretty_N_char n) = true /\ (Ascii.N_of_ascii (pretty_N_char n) - 48 = n)%N.
Proof.
  intros H. assert (n ∈ [0;1;2;3;4;5;6;7;8;9]%N) as Hn by (rewrite !elem_of_cons; lia).
  clear H. repeat (apply elem_of_cons in Hn as [->|Hn]; [by vm_compute|]). by apply elem_of_nil in Hn.
Qed.

Lemma pretty_N_go_digits x s :
  exists d, pretty_N_go x s = d +:+ s /\ all_digits d = true /\ decimal d = x.
Proof.
  revert s. induction (N.lt_wf_0 x) as [x _ IH]; intros s.
  destruct (decide (0 < x)%N) as [Hx|Hx].
  - rewrite pretty_N_go_step by done.
    destruct (IH (x `div` 10)%N ltac:(by apply N.div_lt) (String (pretty_N_char (x `mod` 10)) s))
      as (d & -> & Hd & Hv).
    destruct (digit_char (x `mod` 10)%N) as [Hc Hn]; [by apply N.mod_lt|].
    exists (d +:+ String (pretty_N_char (x `mod` 10)) ""). split_and!.
    + by rewrite str_app_assoc.
    + rewrite all_digits_app, Hd. cbn. by rewrite Hc.
    + unfold decimal in *. rewrite decimal_from_app, Hv. cbn [decimal_from]. rewrite Hn.
      pose proof (N.div_mod x 10). lia.
  - assert (x = 0%N) as -> by lia. exists "". by rewrite pretty_N_go_0.
Qed.

Lemma pretty_digits (n : N) :
  all_digits (pretty n) = true /\ decimal (pretty n) = n /\ pretty n <> "".
Proof.
  unfold pretty, pretty_N. case_decide as H; [by subst|].
  destruct (pretty_N_go_digits n "") as (d & -> & Hd & Hv).
  rewrite str_app_nil.
  split_and!; [done..|]. intros ->. by cbn in Hv; subst n.
Qed.

(** Sums over lists. *)
Lemma lenN_filter_le {A} (p : A -> bool) (l : list A) : (lenN (filter p l) <= lenN l)%N.
Proof. unfold lenN. induction l as [|x l IH]; [done|]. rewrite filter_cons. destruct (decide _); cbn [length]; lia. Qed.
Lemma sum_filter {A} (p : A -> bool) (l : list A) : lenN (filter p l) = sumN (map (fun x => if p x then 1%N else 0%N) l).
Proof.
  induction l as [|x l IH]; [done|]. rewrite filter_cons. cbn [map sumN]. rewrite <- IH.
  destruct (decide (p x)) as [E|E]; destruct (p x); try done. by rewrite lenN_cons.
Qed.
Lemma sum_omap {A} (f : A -> option N) l : sumN (omap f l) = sumN (map (fun x => default 0%N (f x)) l).
Proof. induction l as [|x l IH]; [done|]. cbn. destruct (f x); cbn; by rewrite IH. Qed.
Lemma sum_le {A} (f : A -> N) (l : list A) x : x ∈ l -> (f x <= sumN (map f l))%N.
Proof.
  induction l as [|y l IH]; [by intros ?%not_elem_of_nil|]. intros [->|H]%elem_of_cons; cbn [map sumN]; [lia|].
  specialize (IH H). lia.
Qed.
Lemma sum_ext (f g : nat -> N) n : (forall i, i < n -> f i = g i) -> sumN (map f (seq 0 n)) = sumN (map g (seq 0 n)).
Proof. intros H. f_equal. apply map_ext_in. intros i [_ Hi]%in_seq. by apply H. Qed.

Lemma sum_ones {A} (l : list A) : sumN (map (fun _ => 1%N) l) = lenN l.
Proof. induction l as [|x l IH]; [done|]. cbn [map sumN]. by rewrite IH, lenN_cons. Qed.
Lemma sum_head (x : N) n : 0 < n -> sumN (map (fun i => if Nat.eqb i 0 then x else 0%N) (seq 0 n)) = x.
Proof.
  intros Hn. destruct n as [|n]; [lia|]. cbn [seq map sumN Nat.eqb].
  assert (forall a k, sumN (map (fun i => if Nat.eqb i 0 then x else 0%N) (seq (S a) k)) = 0%N) as ->; [|lia].
  intros a k. revert a. induction k as [|k IH]; intros a; [done|]. apply (IH (S a)).
Qed.
