(* ===== verification/Sorting.v ===== *)
(** * Sorting

    [sort_by_key] and [sort_unstable] of the standard library as insertion sort:
    both are stable, or cannot be told from a stable sort. *)
From stdpp Require Import sorting.
From S2P Require Import Prelude.

Section Sort.
Context {A : Type} (le : A -> A -> bool).

Fixpoint insert_by (x : A) (l : list A) : list A :=
  match l with
  | [] => [x]
  | y :: l => if le x y then x :: y :: l else y :: insert_by x l
  end.
Definition sort_by : list A -> list A := foldr insert_by [].

Lemma insert_by_perm x l : insert_by x l ≡ₚ x :: l.
Proof.
  induction l as [|y l IH]; cbn; [done|]. destruct (le x y); [done|]. rewrite IH. apply perm_swap.
Qed.
Lemma sort_by_perm l : sort_by l ≡ₚ l.
Proof. induction l as [|x l IH]; [done|]. cbn. fold sort_by. by rewrite insert_by_perm, IH. Qed.

(** What is in order stays as it is. *)
Lemma sort_by_ordered l : (forall i x y, l !! i = Some x -> l !! S i = Some y -> le x y = true) -> sort_by l = l.
Proof.
  induction l as [|x l IH]; intros Hl; [done|]. cbn. fold sort_by. rewrite IH by (intros i; apply (Hl (S i))).
  destruct l as [|y l]; [done|]. cbn. by rewrite (Hl 0 x y).
Qed.

Hypothesis le_total : forall x y, le x y = false -> le y x = true.
Lemma insert_by_sorted x l : Sorted le l -> Sorted le (insert_by x l).
Proof.
  induction 1 as [|y l Hs IH Hr]; cbn; [by repeat constructor|]. destruct (le x y) eqn:E.
  - by repeat constructor; try apply Is_true_true_2.
  - apply le_total in E. constructor; [done|]. destruct l as [|z l]; cbn.
    + constructor. by apply Is_true_true_2.
    + destruct (le x z); constructor; [by apply Is_true_true_2|by inv Hr].
Qed.
Lemma sort_by_sorted l : Sorted le (sort_by l).
Proof. induction l as [|x l IH]; [constructor|]. by apply insert_by_sorted. Qed.
End Sort.

(** ** Keys *)

(** [sort_by_key]. *)
Definition sort_by_key {A} (key : A -> nat) : list A -> list A := sort_by (fun x y => key x <=? key y).
Lemma sort_by_key_perm {A} (key : A -> nat) l : sort_by_key key l ≡ₚ l.
Proof. apply sort_by_perm. Qed.

Lemma map_insert_key {A} (key : A -> nat) x l :
  map key (insert_by (fun x y => key x <=? key y) x l) = insert_by Nat.leb (key x) (map key l).
Proof. induction l as [|y l IH]; [done|]. cbn. destruct (key x <=? key y); [done|]. cbn. by rewrite IH. Qed.
Lemma map_sort_key {A} (key : A -> nat) l : map key (sort_by_key key l) = sort_by Nat.leb (map key l).
Proof.
  induction l as [|x l IH]; [done|]. unfold sort_by_key in *. cbn. fold (sort_by (fun x y => key x <=? key y)).
  by rewrite map_insert_key, IH.
Qed.

Lemma sort_nat_sorted l : StronglySorted Nat.le (sort_by Nat.leb l).
Proof.
  apply Sorted_StronglySorted; [intros ? ? ?; lia|].
  pose proof (sort_by_sorted Nat.leb) as H. specialize (H ltac:(intros x y; rewrite Nat.leb_gt, Nat.leb_le; lia) l).
  eapply Sorted_ind with (l := sort_by Nat.leb l) (R := fun x y => Nat.leb x y); [constructor| |exact H].
  intros a l' _ Hs Hr. constructor; [done|]. inv Hr; constructor. by apply Nat.leb_le, Is_true_true_1.
Qed.

Lemma sort_by_key_seq {A} (key : A -> nat) l n : map key l ≡ₚ seq 0 n -> map key (sort_by_key key l) = seq 0 n.
Proof.
  intros H. rewrite map_sort_key. apply (StronglySorted_unique Nat.le); [apply sort_nat_sorted| |].
  - clear. generalize 0. induction n as [|n IH]; intros k; cbn; constructor; [done|].
    apply List.Forall_forall. intros x Hx%in_seq. lia.
  - by rewrite sort_by_perm.
Qed.

(** Ranks in order stay in order. *)
Lemma sort_by_key_ordered {A} (key : A -> nat) l k : map key l = seq k (length l) -> sort_by_key key l = l.
Proof.
  intros H. apply sort_by_ordered. intros i x y Hx Hy. apply Nat.leb_le.
  assert (map key l !! i = Some (key x) /\ map key l !! S i = Some (key y)) as [E1 E2].
  { by rewrite !list_lookup_fmap, Hx, Hy. }
  rewrite H in E1, E2. apply lookup_seq in E1 as [-> _]. apply lookup_seq in E2 as [-> _]. lia.
Qed.

(** The order in which elements with distinct keys come does not matter. *)
Lemma sort_by_key_unique {A} (key : A -> nat) l l' :
  l ≡ₚ l' -> NoDup (map key l) -> sort_by_key key l = sort_by_key key l'.
Proof.
  intros Hp Hk.
  assert (map key (sort_by_key key l) = map key (sort_by_key key l')) as E.
  { rewrite !map_sort_key. apply (StronglySorted_unique Nat.le); [apply sort_nat_sorted..|].
    rewrite !sort_by_perm. by rewrite Hp. }
  apply list_eq_same_length with (length l); [|by rewrite sort_by_key_perm|].
  { by rewrite sort_by_key_perm, Hp. }
  intros i x y _ Hx Hy.
  assert (key x = key y) as Ekey.
  { apply (f_equal (lookup i)) in E. rewrite !list_lookup_fmap, Hx, Hy in E. by injection E. }
  apply list_elem_of_lookup_2 in Hx, Hy. rewrite sort_by_key_perm in Hx. rewrite sort_by_key_perm, <- Hp in Hy.
  apply list_elem_of_lookup in Hx as [a Ha], Hy as [b Hb].
  assert (a = b) as ->; [|congruence].
  eapply NoDup_lookup; [exact Hk|..]; rewrite list_lookup_fmap; [by rewrite Ha|by rewrite Hb, Ekey].
Qed.

(** ** Numbers *)
Lemma sort_N_sorted l : StronglySorted N.le (sort_by N.leb l).
Proof.
  apply Sorted_StronglySorted; [intros ? ? ?; lia|].
  pose proof (sort_by_sorted N.leb ltac:(intros x y; rewrite N.leb_gt, N.leb_le; lia) l) as H.
  induction H as [|x k _ IH Hr]; constructor; [done|]. inv Hr; constructor. by apply N.leb_le, Is_true_true_1.
Qed.

(** How many numbers of an ascending list are on each side of the one at [i]. *)
Lemma sorted_around l i v : StronglySorted N.le l -> l !! i = Some v ->
  i < length (filter (fun x => (x <= v)%N) l) /\ length l - i <= length (filter (fun x => (v <= x)%N) l).
Proof.
  intros Hs Hv. pose proof (lookup_lt_Some _ _ _ Hv) as Hi. pose proof (take_drop_middle l i v Hv) as E.
  rewrite <- E in Hs |- *.
  assert (forall x, x ∈ take i l -> (x <= v)%N) as Hbefore.
  { intros x Hx. eapply StronglySorted_app_1_elem_of; [exact Hs|done|by left]. }
  assert (forall x, x ∈ drop (S i) l -> (v <= x)%N) as Hafter.
  { intros x Hx. apply StronglySorted_app_1_r in Hs. inv Hs. rewrite List.Forall_forall in *.
    match goal with H : forall _, _ |- _ => by apply H, list_elem_of_In end. }
  rewrite !list.filter_app, !filter_cons_True by lia.
  rewrite (filter_everything (fun x => (x <= v)%N) (take i l)) by done.
  rewrite (filter_everything (fun x => (v <= x)%N) (drop (S i) l)) by done.
  rewrite !length_app. cbn [length]. rewrite length_take, length_drop. lia.
Qed.
