(* ===== verification/Rank.v ===== *)
(** * Ranks, message tags and communication errors

    Models [crates/collectives/src/rank.rs] and [error.rs]: the validated
    identity of one participant, the tag that matches point-to-point messages
    and the error type every communication operation returns. *)
From S2P Require Import Prelude.

(** Ranks, world sizes and list positions are [nat]: each counts elements of a
    list held in memory.  Tags, generations, byte counts and durations
    (nanoseconds) are [N]. *)
Definition MessageTag : Type := N.
Definition Duration : Type := N.
Bind Scope N_scope with MessageTag.
Bind Scope N_scope with Duration.

(** The [std::io::ErrorKind]s the transports distinguish. *)
Inductive ErrorKind : Type :=
| TimedOut | WouldBlock | UnexpectedEof | ConnectionReset | BrokenPipe
| NotConnected | ConnectionRefused | NotFound | AddrNotAvailable | OtherKind.

#[global] Instance ErrorKind_eq_dec : EqDecision ErrorKind.
Proof. solve_decision. Defined.

(** [error.rs], [CollectivesError]. The payload of an I/O error is its kind;
    JSON and tensor errors carry their message. *)
Inductive CollectivesError : Type :=
| InvalidWorldSize
| InvalidRank (rank world_size : nat)
| InvalidPeer (rank peer world_size : nat)
| SelfSend (rank : nat)
| P2pWorldTooSmall (world_size : nat)
| UnsupportedTensorDevice (device : string)
| UnsupportedTensorDType (dtype : string)
| ShapeOverflow (shape : list N)
| ElementCountMismatch (shape : list N) (expected actual : N)
| SendDisconnected (rank destination : nat) (tag : MessageTag)
| ReceiveDisconnected (rank source_rank : nat) (tag : MessageTag)
| ReceiveTimeout (rank source_rank : nat) (tag : MessageTag) (timeout : Duration)
| BarrierTimeout (rank : nat) (generation : N) (timeout : Duration)
| BarrierBroken (rank : nat) (generation : N)
| Io (context : string) (source : ErrorKind)
| Protocol (message : string)
| Rendezvous (message : string)
| Collective (message : string)
| ControlJson (message : string)
| Synchronization (rank : nat)
| WorkerFailed (rank : nat) (source : CollectivesError)
| WorkerPanicked (rank : nat) (message : string)
| TensorError (message : string).

Abbreviation cresult := (result CollectivesError).

(** [struct Rank]. *)
Record Rank : Type := mkRank { global_rank : nat; world_size : nat }.

#[global] Instance Rank_eq_dec : EqDecision Rank.
Proof. solve_decision. Defined.

Module Ranks.

(** [Rank::new]. *)
Definition new (global_rank world_size : nat) : cresult Rank :=
  if Nat.eqb world_size 0 then Err InvalidWorldSize
  else if Nat.leb world_size global_rank then Err (InvalidRank global_rank world_size)
  else Ok (mkRank global_rank world_size).

(** [Rank::validate_peer]. *)
Definition validate_peer (self : Rank) (peer : nat) : cresult unit :=
  if Nat.leb (world_size self) peer
  then Err (InvalidPeer (global_rank self) peer (world_size self))
  else if Nat.eqb peer (global_rank self) then Err (SelfSend (global_rank self))
  else Ok tt.

(** The invariant every constructed rank satisfies. *)
Definition valid (r : Rank) : Prop := global_rank r < world_size r.

Lemma rank_new_ok g w : g < w -> new g w = Ok (mkRank g w).
Proof.
  intros. unfold new. destruct (Nat.eqb_spec w 0); [lia|].
  destruct (Nat.leb_spec w g); [lia|done].
Qed.

Lemma rank_new_valid g w r : new g w = Ok r -> valid r /\ global_rank r = g /\ world_size r = w.
Proof.
  unfold new, valid. destruct (Nat.eqb_spec w 0); [done|].
  destruct (Nat.leb_spec w g); [done|]. intros [= <-]. done.
Qed.

Lemma validate_peer_ok r p :
  validate_peer r p = Ok tt <-> p < world_size r /\ p <> global_rank r.
Proof.
  unfold validate_peer. destruct (Nat.leb_spec (world_size r) p); [naive_solver lia|].
  destruct (Nat.eqb_spec p (global_rank r)); naive_solver.
Qed.

Lemma validate_peer_ne g w p : p < w -> p <> g -> validate_peer (mkRank g w) p = Ok tt.
Proof. intros. by apply validate_peer_ok. Qed.

End Ranks.

#[export] Hint Resolve Ranks.validate_peer_ne : dlir.
#[export] Hint Rewrite Ranks.rank_new_ok using lia : dlir.
