(* ===== verification/Packet.v ===== *)
(** * Owned packets exchanged between ranks

    Models [crates/collectives/src/tensor.rs], [control.rs] and
    [transport.rs]: tensor packets, bounded control packets and the frames the
    in-memory transport queues.  An [f32] is its 32-bit pattern, so copying a
    value is exact (NaN payloads included). *)
From S2P Require Import Prelude Rank.

(** The bit pattern of an [f32]. *)
Definition f32 : Type := N.

(** [struct TensorPacket]. *)
Record TensorPacket : Type := mkTensorPacket { shape : list N; values : list f32 }.

#[global] Instance TensorPacket_eq_dec : EqDecision TensorPacket.
Proof. solve_decision. Defined.

(** [element_count]: the checked product of the dimensions. *)
Fixpoint try_fold_mul (count : N) (dims : list N) : option N :=
  match dims with
  | [] => Some count
  | d :: dims => c ← checked_mul count d; try_fold_mul c dims
  end.

Definition element_count (shape : list N) : cresult N :=
  ok_or (try_fold_mul 1 shape) (ShapeOverflow shape).

Module Packets.

(** [TensorPacket::new]. *)
Definition new (shape : list N) (values : list f32) : cresult TensorPacket :=
  expected ← element_count shape;
  if negb (N.eqb expected (lenN values))
  then Err (ElementCountMismatch shape expected (lenN values))
  else Ok (mkTensorPacket shape values).

(** The invariant of packets built by [new]. *)
Definition wf (p : TensorPacket) : Prop :=
  element_count (shape p) = Ok (lenN (values p)).

End Packets.

(** [control.rs]: [MAX_CONTROL_BYTES]. *)
Definition MAX_CONTROL_BYTES : N := 64 * 1024.

(** [struct ControlPacket]. *)
Record ControlPacket : Type := mkControlPacket { control_bytes : list byte }.

#[global] Instance ControlPacket_eq_dec : EqDecision ControlPacket.
Proof. solve_decision. Defined.

Module Control.

(** [ControlPacket::new]. *)
Definition new (bytes : list byte) : cresult ControlPacket :=
  if N.ltb MAX_CONTROL_BYTES (lenN bytes)
  then Err (Protocol ("control payload is " +:+ pretty (lenN bytes)
                      +:+ " bytes, maximum is " +:+ pretty MAX_CONTROL_BYTES))
  else Ok (mkControlPacket bytes).

Definition wf (p : ControlPacket) : Prop := (lenN (control_bytes p) <= MAX_CONTROL_BYTES)%N.

Lemma control_new_ok bytes : (lenN bytes <= MAX_CONTROL_BYTES)%N -> new bytes = Ok (mkControlPacket bytes).
Proof. intros. unfold new. destruct (N.ltb_spec MAX_CONTROL_BYTES (lenN bytes)); [lia|done]. Qed.

Lemma control_new_wf bytes p : new bytes = Ok p -> wf p /\ control_bytes p = bytes.
Proof.
  unfold new, wf. destruct (N.ltb_spec MAX_CONTROL_BYTES (lenN bytes)); [done|].
  by intros [= <-].
Qed.

End Control.

(** [transport.rs]: [MessagePayload] and [MessageFrame]. *)
Inductive MessagePayload : Type :=
| TensorPayload (p : TensorPacket)
| ControlPayload (p : ControlPacket).

Record MessageFrame : Type := mkFrame
  { f_source : nat; f_destination : nat; f_tag : MessageTag; f_payload : MessagePayload }.

#[global] Instance MessagePayload_eq_dec : EqDecision MessagePayload.
Proof. solve_decision. Defined.
#[global] Instance MessageFrame_eq_dec : EqDecision MessageFrame.
Proof. unfold EqDecision; intros; unfold Decision; decide equality; solve_decision. Defined.

(** ** Lemmas on element counts *)

Definition product (dims : list N) : N := foldr N.mul 1%N dims.

Lemma try_fold_mul_product c dims n :
  try_fold_mul c dims = Some n -> n = (c * product dims)%N.
Proof.
  revert c. induction dims as [|d dims IH]; intros c; cbn [try_fold_mul product foldr].
  - intros [= <-]. lia.
  - destruct (checked_mul c d) as [m|] eqn:E; cbn; [|done].
    apply checked_mul_Some in E as [-> _]. intros ->%IH. unfold product. lia.
Qed.

Lemma try_fold_mul_small c dims :
  (0 < c)%N -> Forall (fun d => (0 < d)%N) dims -> (c * product dims < U64)%N ->
  try_fold_mul c dims = Some (c * product dims)%N.
Proof.
  revert c. induction dims as [|d dims IH]; intros c Hc Hd Hlt; cbn [try_fold_mul product foldr] in *.
  - f_equal. lia.
  - apply Forall_cons_1 in Hd as [Hd Hds].
    assert (0 < product dims)%N.
    { clear -Hds. induction Hds; cbn; [lia|]. unfold product in *. lia. }
    assert (c * d < U64)%N by (unfold product in *; nia).
    unfold checked_mul. destruct (N.ltb_spec (c * d) U64); [|lia]. cbn.
    rewrite IH; [f_equal; unfold product; lia|lia|done|unfold product in *; lia].
Qed.

Lemma Packets_new_ok s v :
  element_count s = Ok (lenN v) -> Packets.new s v = Ok (mkTensorPacket s v).
Proof. intros H. unfold Packets.new. rewrite H; cbn. by rewrite N.eqb_refl. Qed.

Lemma Packets_new_inv s v p :
  Packets.new s v = Ok p -> p = mkTensorPacket s v /\ Packets.wf p.
Proof.
  unfold Packets.new, Packets.wf. destruct (element_count s) as [n|] eqn:E; cbn; [|done].
  destruct (N.eqb_spec n (lenN v)); cbn; [|done]. intros [= <-]. subst. done.
Qed.

#[export] Hint Resolve Packets_new_ok Control.control_new_ok : dlir.
