(* ===== verification/Wire.v ===== *)
(** * TCP wire format

    Models the framing half of [crates/collectives/src/tcp.rs]: [WireFrame],
    [encode_wire]/[decode_wire] byte by byte, the length-prefixed
    [write_wire]/[read_wire] over a byte stream, and the JSON control frames of
    the rendezvous ([write_json]/[read_json]). *)
From S2P Require Import Prelude Rank Packet.

Definition PROTOCOL_VERSION : N := 2.
Definition DEFAULT_MAX_TENSOR_BYTES : N := 256 * 1024 * 1024.
Definition CONTROL_FRAME_LIMIT : N := 64 * 1024.
Definition WIRE_MAGIC : list byte := [Byte.x44; Byte.x4c; Byte.x49; Byte.x52].
Definition TENSOR_KIND : N := 1.
Definition BARRIER_ARRIVE_KIND : N := 2.
Definition BARRIER_RELEASE_KIND : N := 3.
Definition APPLICATION_CONTROL_KIND : N := 4.

(** [enum WireFrame]. *)
Inductive WireFrame : Type :=
| WTensor (source destination : nat) (tag : MessageTag) (packet : TensorPacket)
| WControl (source destination : nat) (tag : MessageTag) (packet : ControlPacket)
| WBarrierArrive (source destination : nat) (generation : N)
| WBarrierRelease (source destination : nat) (generation : N).

#[global] Instance WireFrame_eq_dec : EqDecision WireFrame.
Proof. unfold EqDecision; intros; unfold Decision; decide equality; solve_decision. Defined.

(** [WireFrame::source], [WireFrame::destination]. *)
Definition frame_source (f : WireFrame) : nat :=
  match f with
  | WTensor s _ _ _ | WControl s _ _ _ | WBarrierArrive s _ _ | WBarrierRelease s _ _ => s
  end.
Definition frame_destination (f : WireFrame) : nat :=
  match f with
  | WTensor _ d _ _ | WControl _ d _ _ | WBarrierArrive _ d _ | WBarrierRelease _ d _ => d
  end.

(** ** Encoding *)

(** [to_u32]. *)
Definition to_u32 (value : N) (name : string) : cresult N :=
  if N.ltb value U32 then Ok value else Err (Protocol (name +:+ " does not fit u32")).

(** [u64::try_from] of a [usize]. *)
Definition to_u64 (value : N) (message : string) : cresult N :=
  if N.ltb value U64 then Ok value else Err (Protocol message).

Definition frame_kind (f : WireFrame) : N :=
  match f with
  | WTensor _ _ _ _ => TENSOR_KIND
  | WControl _ _ _ _ => APPLICATION_CONTROL_KIND
  | WBarrierArrive _ _ _ => BARRIER_ARRIVE_KIND
  | WBarrierRelease _ _ _ => BARRIER_RELEASE_KIND
  end.

Fixpoint encode_shape (dims : list N) : cresult (list byte) :=
  match dims with
  | [] => Ok []
  | d :: dims =>
      d ← to_u64 d "tensor dimension overflow";
      rest ← encode_shape dims;
      Ok (to_le 8 d ++ rest)
  end.

Definition encode_values (values : list f32) : list byte :=
  concat (map (to_le 4) values).

Definition encode_payload (f : WireFrame) : cresult (list byte) :=
  match f with
  | WTensor _ _ tag packet =>
      dimensions ← to_u32 (lenN (shape packet)) "dimension count";
      elements ← to_u64 (lenN (values packet)) "element count overflow";
      dims ← encode_shape (shape packet);
      Ok (to_le 8 tag ++ to_le 4 dimensions ++ to_le 8 elements ++ dims
          ++ encode_values (values packet))
  | WControl _ _ tag packet =>
      length ← (if N.ltb (lenN (control_bytes packet)) U32
                then Ok (lenN (control_bytes packet))
                else Err (Protocol "control payload length overflow"));
      Ok (to_le 8 tag ++ to_le 4 length ++ control_bytes packet)
  | WBarrierArrive _ _ generation | WBarrierRelease _ _ generation =>
      Ok (to_le 8 generation)
  end.

(** [encode_wire]. *)
Definition encode_wire (f : WireFrame) (maximum : N) : cresult (list byte) :=
  source ← to_u32 (N.of_nat (frame_source f)) "source rank";
  destination ← to_u32 (N.of_nat (frame_destination f)) "destination rank";
  payload ← encode_payload f;
  let body := WIRE_MAGIC ++ to_le 2 PROTOCOL_VERSION ++ [byte_of_N (frame_kind f); Byte.x00]
                ++ to_le 4 source ++ to_le 4 destination ++ payload in
  if N.ltb maximum (lenN body)
  then Err (Protocol ("encoded frame is " +:+ pretty (lenN body)
                      +:+ " bytes, maximum is " +:+ pretty maximum))
  else Ok body.

(** ** Decoding: a cursor is the list of bytes not read yet *)

(** [cursor.read_exact]. *)
Definition read_exact (context : string) (w : nat) (c : list byte)
  : cresult (list byte * list byte) :=
  if Nat.ltb (length c) w then Err (Io context UnexpectedEof)
  else Ok (take w c, drop w c).

(** [read_u8], [read_u16], [read_u32], [read_u64]. *)
Definition read_uint (context : string) (w : nat) (c : list byte) : cresult (N * list byte) :=
  '(b, c) ← read_exact context w c; Ok (of_le b, c).
Definition read_u8 := read_uint "decode u8" 1.
Definition read_u16 := read_uint "decode u16" 2.
Definition read_u32 := read_uint "decode u32" 4.
Definition read_u64 := read_uint "decode u64" 8.

Fixpoint read_many (read : list byte -> cresult (N * list byte)) (n : nat) (c : list byte)
  : cresult (list N * list byte) :=
  match n with
  | O => Ok ([], c)
  | S n =>
      '(x, c) ← read c;
      '(xs, c) ← read_many read n c;
      Ok (x :: xs, c)
  end.

Definition decode_tensor (source destination : nat) (c : list byte)
  : cresult (WireFrame * list byte) :=
  '(tag, c) ← read_u64 c;
  '(dimensions, c) ← read_u32 c;
  if N.ltb 64 dimensions
  then Err (Protocol ("tensor has " +:+ pretty dimensions +:+ " dimensions; maximum is 64")) else
  '(elements, c) ← read_u64 c;
  '(shape, c) ← read_many read_u64 (N.to_nat dimensions) c;
  expected_bytes ← ok_or (checked_mul elements 4) (Protocol "tensor payload byte count overflow");
  if negb (N.eqb (lenN c) expected_bytes)
  then Err (Protocol ("tensor declares " +:+ pretty elements +:+ " values but carries "
                      +:+ pretty (lenN c) +:+ " payload bytes")) else
  '(values, c) ← read_many read_u32 (N.to_nat elements) c;
  packet ← Packets.new shape values;
  Ok (WTensor source destination tag packet, c).

Definition decode_control (source destination : nat) (c : list byte)
  : cresult (WireFrame * list byte) :=
  '(tag, c) ← read_u64 c;
  '(length, c) ← read_u32 c;
  if negb (N.eqb (lenN c) length)
  then Err (Protocol ("control frame declares " +:+ pretty length +:+ " bytes but carries "
                      +:+ pretty (lenN c))) else
  '(bytes, c) ← read_exact "decode control payload" (N.to_nat length) c;
  packet ← Control.new bytes;
  Ok (WControl source destination tag packet, c).

(** [decode_wire]. *)
Definition decode_wire (body : list byte) : cresult WireFrame :=
  '(magic, c) ← read_exact "read frame magic" 4 body;
  if negb (bool_decide (magic = WIRE_MAGIC)) then Err (Protocol "invalid frame magic") else
  '(version, c) ← read_u16 c;
  if negb (N.eqb version PROTOCOL_VERSION)
  then Err (Protocol ("frame protocol " +:+ pretty version +:+ ", expected "
                      +:+ pretty PROTOCOL_VERSION)) else
  '(kind, c) ← read_u8 c;
  '(_, c) ← read_u8 c;
  '(source, c) ← read_u32 c;
  '(destination, c) ← read_u32 c;
  let source := N.to_nat source in
  let destination := N.to_nat destination in
  '(frame, c) ←
    (if N.eqb kind TENSOR_KIND then decode_tensor source destination c
     else if N.eqb kind APPLICATION_CONTROL_KIND then decode_control source destination c
     else if N.eqb kind BARRIER_ARRIVE_KIND then
       '(g, c) ← read_u64 c; Ok (WBarrierArrive source destination g, c)
     else if N.eqb kind BARRIER_RELEASE_KIND then
       '(g, c) ← read_u64 c; Ok (WBarrierRelease source destination g, c)
     else Err (Protocol ("unknown frame kind " +:+ pretty kind)));
  if negb (Nat.eqb (length c) 0) then Err (Protocol "frame contains trailing bytes")
  else Ok frame.

(** ** Frames on a stream

    A stream is the bytes that arrive before the operation's deadline, followed
    by the error [at_end] the socket reports when they run out ([UnexpectedEof]
    when the peer closed, [TimedOut] or [WouldBlock] at the deadline).
    [expired] says whether the deadline had already passed when the socket
    timeout was armed for the length and for the body. *)
Record Stream : Type := mkStream { incoming : list byte; at_end : ErrorKind }.

(** [write_wire]: the bytes appended to the peer's stream. *)
Definition write_wire (f : WireFrame) (maximum : N) (expired : bool) : cresult (list byte) :=
  body ← encode_wire f maximum;
  if expired then Err (Protocol "TCP write deadline expired")
  else Ok (to_le 8 (lenN body) ++ body).

(** [read_exact] on the socket: on failure the available bytes are consumed. *)
Definition stream_read (context : string) (w : N) (s : Stream)
  : cresult (list byte) * Stream :=
  if N.ltb (lenN (incoming s)) w then (Err (Io context (at_end s)), mkStream [] (at_end s))
  else (Ok (take (N.to_nat w) (incoming s)),
        mkStream (drop (N.to_nat w) (incoming s)) (at_end s)).

(** [read_wire]. *)
Definition read_wire (maximum : N) (expired : bool * bool) (s : Stream)
  : cresult WireFrame * Stream :=
  if expired.1 then (Err (Protocol "TCP read deadline expired"), s) else
  match stream_read "read TCP frame length" 8 s with
  | (Err e, s) => (Err e, s)
  | (Ok length, s) =>
      let length := of_le length in
      if N.ltb maximum length
      then (Err (Protocol ("incoming frame is " +:+ pretty length +:+ " bytes, maximum is "
                           +:+ pretty maximum)), s)
      else if expired.2 then (Err (Protocol "TCP read deadline expired"), s)
      else match stream_read "read TCP frame body" length s with
           | (Err e, s) => (Err e, s)
           | (Ok body, s) => (decode_wire body, s)
           end
  end.

(** ** JSON control frames

    [serde_json] is a dependency: its encoder and decoder for a message type
    are parameters. *)
Section Json.
Context {T : Type} (to_vec : T -> result string (list byte))
          (from_slice : list byte -> result string T).

(** [write_json]: a 4-byte big-endian length and the JSON text. *)
Definition write_json (value : T) (expired : bool) : cresult (list byte) :=
    body ← map_err ControlJson (to_vec value);
    if N.ltb CONTROL_FRAME_LIMIT (lenN body)
    then Err (Protocol ("control frame is " +:+ pretty (lenN body) +:+ " bytes, maximum is "
                        +:+ pretty CONTROL_FRAME_LIMIT))
    else if expired then Err (Protocol "TCP write deadline expired")
    else Ok (rev (to_le 4 (lenN body)) ++ body).

(** [read_json]. *)
Definition read_json (expired : bool * bool) (s : Stream) : cresult T * Stream :=
    if expired.1 then (Err (Protocol "TCP read deadline expired"), s) else
    match stream_read "read control frame length" 4 s with
    | (Err e, s) => (Err e, s)
    | (Ok length, s) =>
        let length := of_le (rev length) in
        if N.ltb CONTROL_FRAME_LIMIT length
        then (Err (Protocol ("control frame is " +:+ pretty length +:+ " bytes, maximum is "
                             +:+ pretty CONTROL_FRAME_LIMIT)), s)
        else if expired.2 then (Err (Protocol "TCP read deadline expired"), s)
        else match stream_read "read control frame body" length s with
             | (Err e, s) => (Err e, s)
             | (Ok body, s) => (map_err ControlJson (from_slice body), s)
             end
    end.
End Json.

(** [is_timeout_error], [is_disconnect_error]. [message.contains] on the
    protocol messages is a substring test. *)
Fixpoint contains (needle hay : string) : bool :=
  String.prefix needle hay ||
  match hay with EmptyString => false | String _ hay => contains needle hay end.

Definition is_timeout_error (e : CollectivesError) : bool :=
  match e with
  | Io _ TimedOut | Io _ WouldBlock => true
  | Protocol message => contains "deadline expired" message
  | _ => false
  end.

Definition is_disconnect_error (e : CollectivesError) : bool :=
  match e with
  | Io _ (UnexpectedEof | ConnectionReset | BrokenPipe | NotConnected) => true
  | _ => false
  end.

(** ** Reading back what was written *)

Lemma read_exact_app ctx (b r : list byte) : read_exact ctx (length b) (b ++ r) = Ok (b, r).
Proof.
  unfold read_exact. rewrite length_app.
  destruct (Nat.ltb_spec (length b + length r) (length b)); [lia|].
  by rewrite take_app_length, drop_app_length.
Qed.

Lemma read_uint_app ctx w n r :
  (n < 256 ^ N.of_nat w)%N -> read_uint ctx w (to_le w n ++ r) = Ok (n, r).
Proof.
  intros Hn. unfold read_uint.
  rewrite <- (length_to_le w n) at 1. rewrite read_exact_app; cbn.
  by rewrite of_to_le_small.
Qed.

Lemma read_many_app ctx w xs r :
  Forall (fun x => (x < 256 ^ N.of_nat w)%N) xs ->
  read_many (read_uint ctx w) (length xs) (concat (map (to_le w) xs) ++ r) = Ok (xs, r).
Proof.
  induction 1 as [|x xs Hx _ IH]; [done|].
  cbn [length read_many map concat]. rewrite <- app_assoc, read_uint_app by done; cbn.
  rewrite IH. done.
Qed.

Lemma read_exact_inv ctx w c b r :
  read_exact ctx w c = Ok (b, r) -> c = b ++ r /\ length b = w.
Proof.
  unfold read_exact. destruct (Nat.ltb_spec (length c) w); [done|].
  intros [= <- <-]. rewrite take_drop, length_take. split; [done|lia].
Qed.

Lemma read_uint_inv ctx w c n r :
  read_uint ctx w c = Ok (n, r) -> c = to_le w n ++ r /\ (n < 256 ^ N.of_nat w)%N.
Proof.
  unfold read_uint. intros H. inv_ok H. subst.
  apply read_exact_inv in H0 as [-> Hl]. subst w.
  split; [by rewrite to_of_le|apply of_le_bound].
Qed.

Lemma read_many_inv ctx w n c xs r :
  read_many (read_uint ctx w) n c = Ok (xs, r) ->
  c = concat (map (to_le w) xs) ++ r /\ length xs = n /\
  Forall (fun x => (x < 256 ^ N.of_nat w)%N) xs.
Proof.
  revert c xs r. induction n as [|n IH]; intros c xs r; cbn [read_many].
  - intros [= <- <-]. done.
  - intros H. inv_ok H. subst.
    apply read_uint_inv in H0 as [-> Hn]. apply IH in H1 as (-> & <- & Hf).
    cbn. rewrite <- app_assoc. auto.
Qed.

Lemma encode_shape_eq dims :
  Forall (fun d => (d < U64)%N) dims -> encode_shape dims = Ok (concat (map (to_le 8) dims)).
Proof.
  induction 1 as [|d dims Hd _ IH]; [done|]. cbn [encode_shape map concat].
  unfold to_u64. destruct (N.ltb_spec d U64); [|lia]. cbn. by rewrite IH.
Qed.

(** ** Values a Rust frame can hold *)

Definition frame_ok (f : WireFrame) : Prop :=
  match f with
  | WTensor _ _ tag p =>
      (tag < U64)%N /\ Forall (fun d => (d < U64)%N) (shape p) /\
      Forall (fun v => (v < U32)%N) (values p) /\ (lenN (values p) * 4 < U64)%N /\ Packets.wf p
  | WControl _ _ tag p => (tag < U64)%N /\ Control.wf p
  | WBarrierArrive _ _ g | WBarrierRelease _ _ g => (g < U64)%N
  end.

Definition frame_rank (f : WireFrame) : N :=
  match f with WTensor _ _ _ p => lenN (shape p) | _ => 0 end.

(** The bytes [encode_wire] produces for a frame whose ranks fit 32 bits, with
    [reserved] as the eighth byte. *)
Definition wire_bytes (reserved : byte) (f : WireFrame) : list byte :=
  WIRE_MAGIC ++ to_le 2 PROTOCOL_VERSION ++ [byte_of_N (frame_kind f); reserved]
  ++ to_le 4 (N.of_nat (frame_source f)) ++ to_le 4 (N.of_nat (frame_destination f))
  ++ match f with
     | WTensor _ _ tag p =>
         to_le 8 tag ++ to_le 4 (lenN (shape p)) ++ to_le 8 (lenN (values p))
         ++ concat (map (to_le 8) (shape p)) ++ encode_values (values p)
     | WControl _ _ tag p => to_le 8 tag ++ to_le 4 (lenN (control_bytes p)) ++ control_bytes p
     | WBarrierArrive _ _ g | WBarrierRelease _ _ g => to_le 8 g
     end.

Definition ranks_fit (f : WireFrame) : Prop :=
  (N.of_nat (frame_source f) < U32)%N /\ (N.of_nat (frame_destination f) < U32)%N /\
  (frame_rank f < U32)%N.

Lemma to_u32_Ok v name w : to_u32 v name = Ok w <-> w = v /\ (v < U32)%N.
Proof. unfold to_u32. destruct (N.ltb_spec v U32); naive_solver lia. Qed.

Lemma encode_payload_eq f p :
  frame_ok f -> encode_payload f = Ok p ->
  (frame_rank f < U32)%N /\
  forall r, wire_bytes r f =
    WIRE_MAGIC ++ to_le 2 PROTOCOL_VERSION ++ [byte_of_N (frame_kind f); r]
    ++ to_le 4 (N.of_nat (frame_source f)) ++ to_le 4 (N.of_nat (frame_destination f)) ++ p.
Proof.
  destruct f as [s d tag pk|s d tag pk|s d g|s d g]; cbn [encode_payload frame_ok frame_rank].
  - intros (Ht & Hs & Hv & Hl & Hwf) H. inv_ok H. subst.
    apply to_u32_Ok in H0 as [-> Hlt].
    unfold to_u64 in H1. inv_oks. subst.
    rewrite encode_shape_eq in H2 by done. injection H2 as <-. done.
  - intros [Ht Hwf] H. inv_ok H. inv_oks. subst. done.
  - intros ? [= <-]. done.
  - intros ? [= <-]. done.
Qed.

Arguments to_le : simpl never.
Arguments of_le : simpl never.

Lemma encode_wire_spec f maximum b :
  frame_ok f ->
  encode_wire f maximum = Ok b <->
  ranks_fit f /\ b = wire_bytes Byte.x00 f /\ (lenN b <= maximum)%N.
Proof.
  intros Hf. unfold encode_wire. split.
  - intros H. inv_ok H. apply to_u32_Ok in H0 as [-> ?]. apply to_u32_Ok in H1 as [-> ?].
    destruct (encode_payload_eq f _ Hf H2) as [Hr Hb]. bool_prop. subst.
    rewrite Hb. done.
  - intros ((Hs & Hd & Hr) & -> & Hl).
    rewrite (proj2 (to_u32_Ok _ "source rank" _) (conj eq_refl Hs)); cbn [mbind result_bind].
    rewrite (proj2 (to_u32_Ok _ "destination rank" _) (conj eq_refl Hd)); cbn [mbind result_bind].
    assert (exists p, encode_payload f = Ok p) as [p Hp].
    { destruct f as [s d tag pk|s d tag pk|s d g|s d g]; cbn in *; eauto.
      - destruct Hf as (_ & Hsh & _ & Hv & _).
        rewrite (proj2 (to_u32_Ok _ _ _) (conj eq_refl Hr)); cbn. unfold to_u64.
        destruct (N.ltb_spec (lenN (values pk)) U64); [|lia]. cbn.
        rewrite encode_shape_eq by done. eauto.
      - destruct Hf as [_ Hw]. unfold Control.wf in Hw.
        destruct (N.ltb_spec (lenN (control_bytes pk)) U32); [eauto|].
        unfold MAX_CONTROL_BYTES, U32 in *; lia. }
    destruct (encode_payload_eq f p Hf Hp) as [_ Hb]. rewrite Hp; cbn [mbind result_bind].
    cbv zeta. rewrite <- Hb.
    destruct (N.ltb_spec maximum (lenN (wire_bytes Byte.x00 f))); [lia|done].
Qed.

Lemma read_magic_app ctx r : read_exact ctx 4 (WIRE_MAGIC ++ r) = Ok (WIRE_MAGIC, r).
Proof. apply (read_exact_app ctx WIRE_MAGIC). Qed.
Lemma read_u8_app b r : read_u8 (b :: r) = Ok (Byte.to_N b, r).
Proof. unfold read_u8, read_uint, read_exact. cbn. unfold of_le. by rewrite N.mul_0_r, N.add_0_r. Qed.
Lemma read_u16_app n r : (n < 65536)%N -> read_u16 (to_le 2 n ++ r) = Ok (n, r).
Proof. intros. by apply (read_uint_app _ _ n r). Qed.
Lemma read_u32_app n r : (n < U32)%N -> read_u32 (to_le 4 n ++ r) = Ok (n, r).
Proof. intros. by apply (read_uint_app _ _ n r). Qed.
Lemma read_u64_app n r : (n < U64)%N -> read_u64 (to_le 8 n ++ r) = Ok (n, r).
Proof. intros. by apply (read_uint_app _ _ n r). Qed.

(** Advances the decoder over one field of the input. *)
Ltac read_step :=
  first [rewrite read_u64_app by (unfold U64, U32 in *; lia)
        |rewrite read_u32_app by (unfold U64, U32, MAX_CONTROL_BYTES in *; lia)
        |rewrite read_u16_app by (unfold PROTOCOL_VERSION; lia)
        |rewrite read_exact_app]; cbn [mbind result_bind].

Lemma decode_control_bytes s d tag pk :
  frame_ok (WControl s d tag pk) ->
  decode_control s d (to_le 8 tag ++ to_le 4 (lenN (control_bytes pk)) ++ control_bytes pk)
  = Ok (WControl s d tag pk, []).
Proof.
  intros [Ht Hw]. unfold Control.wf, MAX_CONTROL_BYTES in Hw.
  unfold decode_control. do 2 read_step.
  rewrite N.eqb_refl, to_nat_lenN; cbn [negb].
  rewrite <- (app_nil_r (control_bytes pk)) at 2. read_step.
  rewrite Control.control_new_ok by done. by destruct pk.
Qed.

Lemma read_values_app vs :
  Forall (fun v => (v < U32)%N) vs ->
  read_many read_u32 (length vs) (encode_values vs) = Ok (vs, []).
Proof.
  intros H. unfold encode_values, read_u32.
  rewrite <- (app_nil_r (concat _)). by apply read_many_app.
Qed.

Lemma lenN_encode_values vs : lenN (encode_values vs) = (lenN vs * 4)%N.
Proof.
  unfold encode_values. induction vs as [|v vs IH]; [done|].
  cbn [map concat]. rewrite lenN_app, IH, lenN_cons. unfold lenN.
  rewrite length_to_le. lia.
Qed.

Lemma decode_tensor_bytes s d tag pk :
  frame_ok (WTensor s d tag pk) -> (lenN (shape pk) < U32)%N ->
  decode_tensor s d (to_le 8 tag ++ to_le 4 (lenN (shape pk)) ++ to_le 8 (lenN (values pk))
         ++ concat (map (to_le 8) (shape pk)) ++ encode_values (values pk))
  = if N.ltb 64 (lenN (shape pk))
    then Err (Protocol ("tensor has " +:+ pretty (lenN (shape pk))
                        +:+ " dimensions; maximum is 64"))
    else Ok (WTensor s d tag pk, []).
Proof.
  intros (Ht & Hs & Hv & Hl & Hwf) Hr. unfold decode_tensor.
  do 2 read_step. destruct (N.ltb 64 (lenN (shape pk))); [done|]. read_step.
  rewrite !to_nat_lenN. unfold read_u64. rewrite read_many_app by done.
  cbn [mbind result_bind].
  rewrite (proj2 (checked_mul_Some _ _ _) (conj eq_refl Hl)); cbn [ok_or mbind result_bind].
  rewrite lenN_encode_values, N.eqb_refl; cbn [negb].
  rewrite read_values_app by done. cbn [mbind result_bind].
  rewrite Packets_new_ok by done. by destruct pk.
Qed.

Lemma decode_wire_bytes reserved f :
  frame_ok f -> ranks_fit f ->
  decode_wire (wire_bytes reserved f) =
  if N.ltb 64 (frame_rank f)
  then Err (Protocol ("tensor has " +:+ pretty (frame_rank f) +:+ " dimensions; maximum is 64"))
  else Ok f.
Proof.
  intros Hf (Hs & Hd & Hr). unfold decode_wire, wire_bytes.
  rewrite read_magic_app; cbn [mbind result_bind].
  rewrite bool_decide_eq_true_2 by done; cbn [negb].
  read_step. rewrite N.eqb_refl; cbn [negb app]. do 2 (rewrite read_u8_app; cbn [mbind result_bind]).
  assert (Byte.to_N (byte_of_N (frame_kind f)) = frame_kind f) as ->.
  { rewrite byte_to_of_N. by destruct f. }
  do 2 read_step. rewrite !Nat2N.id.
  destruct f as [s d tag pk|s d tag pk|s d g|s d g]; cbn [frame_kind frame_source frame_destination];
    cbn [N.eqb Pos.eqb TENSOR_KIND APPLICATION_CONTROL_KIND BARRIER_ARRIVE_KIND BARRIER_RELEASE_KIND].
  - rewrite decode_tensor_bytes by done. cbn [frame_rank].
    destruct (N.ltb 64 (lenN (shape pk))); done.
  - by rewrite decode_control_bytes.
  - rewrite <- (app_nil_r (to_le 8 g)). cbn in Hf. by read_step.
  - rewrite <- (app_nil_r (to_le 8 g)). cbn in Hf. by read_step.
Qed.

(** ** Every accepted byte sequence is an encoding *)

Lemma decode_control_inv s d c f r :
  decode_control s d c = Ok (f, r) -> r = [] ->
  exists tag pk, f = WControl s d tag pk /\ frame_ok f /\
    c = to_le 8 tag ++ to_le 4 (lenN (control_bytes pk)) ++ control_bytes pk.
Proof.
  unfold decode_control. intros H ->. inv_ok H. subst. bool_prop. subst.
  repeat match goal with
  | H : read_u64 _ = Ok _ |- _ => apply read_uint_inv in H as [-> ?]
  | H : read_u32 _ = Ok _ |- _ => apply read_uint_inv in H as [-> ?]
  | H : read_exact _ _ _ = Ok _ |- _ => apply read_exact_inv in H as [-> ?]
  | H : Control.new _ = Ok _ |- _ => apply Control.control_new_wf in H as [? <-]
  end.
  rewrite app_nil_r in *. eexists _, _. split; [done|]. split; [by split|done].
Qed.

Lemma decode_tensor_inv s d c f r :
  decode_tensor s d c = Ok (f, r) -> r = [] ->
  exists tag pk, f = WTensor s d tag pk /\ frame_ok f /\ (lenN (shape pk) <= 64)%N /\
    c = to_le 8 tag ++ to_le 4 (lenN (shape pk)) ++ to_le 8 (lenN (values pk))
        ++ concat (map (to_le 8) (shape pk)) ++ encode_values (values pk).
Proof.
  unfold decode_tensor. intros H ->. inv_ok H. subst. bool_prop. inv_oks.
  repeat match goal with
  | H : read_u64 _ = Ok _ |- _ => apply read_uint_inv in H as [-> ?]
  | H : read_u32 _ = Ok _ |- _ => apply read_uint_inv in H as [-> ?]
  | H : read_many _ _ _ = Ok _ |- _ => apply read_many_inv in H as (-> & ? & ?)
  | H : Packets.new _ _ = Ok _ |- _ => apply Packets_new_inv in H as [-> ?]
  | H : checked_mul _ _ = Some _ |- _ => apply checked_mul_Some in H as [-> ?]
  end.
  rewrite app_nil_r in *.
  assert (forall (l : list N) n, length l = N.to_nat n -> n = lenN l) as Hlen
    by (unfold lenN; lia).
  repeat match goal with H : length _ = N.to_nat _ |- _ => apply Hlen in H; subst end.
  eexists _, _. split; [done|]. cbn [shape values] in *. repeat split; try done.
Qed.

Lemma decode_wire_inv b f :
  decode_wire b = Ok f ->
  frame_ok f /\ ranks_fit f /\ (frame_rank f <= 64)%N /\
  exists reserved, b = wire_bytes reserved f.
Proof.
  unfold decode_wire. intros H. inv_ok H. bool_prop. subst.
  repeat match goal with
  | H : read_u16 _ = Ok _ |- _ => apply read_uint_inv in H as [-> ?]
  | H : read_u8 _ = Ok _ |- _ => apply read_uint_inv in H as [-> ?]
  | H : read_u32 _ = Ok _ |- _ => apply read_uint_inv in H as [-> ?]
  | H : read_exact _ _ _ = Ok _ |- _ => apply read_exact_inv in H as [-> ?]
  end.
  match goal with H : length ?l = 0 |- _ => apply nil_length_inv in H; subst l end.
  assert (forall n, (n < 256 ^ N.of_nat 4)%N -> (N.of_nat (N.to_nat n) < U32)%N) as Hfit
    by (intros n; rewrite N2Nat.id; done).
  match goal with H : (if _ then _ else _) = Ok _ |- _ => inv_ok H end; bool_prop; subst;
    try match goal with
    | H : decode_tensor _ _ _ = _ |- _ =>
        apply decode_tensor_inv in H as (tag & pk & -> & Hf & Hr & ->); [|done]
    | H : decode_control _ _ _ = _ |- _ =>
        apply decode_control_inv in H as (tag & pk & -> & Hf & ->); [|done]
    | H : read_u64 _ = Ok _ |- _ => apply read_uint_inv in H as [-> ?]
    end.
  all: split; [done|].
  all: split; [repeat split; cbn [frame_source frame_destination frame_rank] in *;
               (by apply Hfit) || (unfold U32; lia)|].
  all: split; [cbn; lia|].
  all: unfold wire_bytes; cbn [frame_source frame_destination frame_kind].
  all: rewrite !N2Nat.id, ?app_nil_r; eexists (byte_of_N _); reflexivity.
Qed.

Lemma insert_reserved r f : <[7%nat := Byte.x00]> (wire_bytes r f) = wire_bytes Byte.x00 f.
Proof. by destruct f. Qed.

Lemma lenN_wire_bytes r r' f : lenN (wire_bytes r f) = lenN (wire_bytes r' f).
Proof. by destruct f. Qed.

(** ** Properties *)

(** C29: what a rank encodes, its peer decodes: for every frame a Rust value can
    hold, [decode_wire] of the bytes of [encode_wire] returns the same frame,
    bit for bit, except that the decoder refuses the tensors of more than 64
    dimensions the encoder still emits. *)
Theorem wire_round_trip f maximum b :
  frame_ok f -> encode_wire f maximum = Ok b ->
  decode_wire b =
  if N.ltb 64 (frame_rank f)
  then Err (Protocol ("tensor has " +:+ pretty (frame_rank f) +:+ " dimensions; maximum is 64"))
  else Ok f.
Proof.
  intros Hf (Hr & -> & _)%(encode_wire_spec f maximum b Hf). by apply decode_wire_bytes.
Qed.

(** [decode_wire] accepts nothing but encodings: an accepted body carries
    values in range, at most 64 dimensions and a consistent packet, and
    re-encoding the frame gives the body back with the reserved byte zeroed. *)
Theorem decode_wire_canonical b f :
  decode_wire b = Ok f ->
  frame_ok f /\ (frame_rank f <= 64)%N /\
  encode_wire f (lenN b) = Ok (<[7%nat := Byte.x00]> b).
Proof.
  intros (Hf & Hr & Hk & reserved & ->)%decode_wire_inv. split; [done|]. split; [done|].
  apply encode_wire_spec; [done|]. rewrite insert_reserved. split; [done|]. split; [done|].
  rewrite (lenN_wire_bytes _ reserved). lia.
Qed.

(** [read_wire] called [n] times with time left before every deadline. *)
Fixpoint read_frames (n : nat) (maximum : N) (s : Stream) : cresult (list WireFrame) * Stream :=
  match n with
  | O => (Ok [], s)
  | S n =>
      match read_wire maximum (false, false) s with
      | (Err e, s) => (Err e, s)
      | (Ok f, s) =>
          match read_frames n maximum s with
          | (Err e, s) => (Err e, s)
          | (Ok fs, s) => (Ok (f :: fs), s)
          end
      end
  end.

Lemma stream_read_app ctx (b r : list byte) k :
  stream_read ctx (lenN b) (mkStream (b ++ r) k) = (Ok b, mkStream r k).
Proof.
  unfold stream_read; cbn [incoming at_end]. rewrite lenN_app.
  destruct (N.ltb_spec (lenN b + lenN r) (lenN b)); [lia|].
  by rewrite to_nat_lenN, take_app_length, drop_app_length.
Qed.

Lemma read_wire_app maximum f b r k :
  (maximum < U64)%N -> frame_ok f -> (frame_rank f <= 64)%N ->
  write_wire f maximum false = Ok b ->
  read_wire maximum (false, false) (mkStream (b ++ r) k) = (Ok f, mkStream r k).
Proof.
  intros Hm Hf Hr H. unfold write_wire in H. inv_ok H. subst.
  pose proof (proj1 (encode_wire_spec f maximum _ Hf) H0) as (_ & _ & Hl).
  pose proof (wire_round_trip f maximum _ Hf H0) as Hd. rename x into body.
  unfold read_wire; cbn [fst snd].
  rewrite <- app_assoc. replace 8%N with (lenN (to_le 8 (lenN body)))
    by (unfold lenN; rewrite length_to_le; done).
  rewrite stream_read_app. rewrite of_to_le_small by (cbn; unfold U64 in *; lia).
  destruct (N.ltb_spec maximum (lenN body)); [lia|]. rewrite stream_read_app, Hd.
  destruct (N.ltb_spec 64 (frame_rank f)); [lia|done].
Qed.

(** Framing on a connection: frames written one after the other to a
    stream come out of as many [read_wire] calls unchanged and in order, each
    call leaving exactly the bytes after its frame. *)
Theorem stream_preserves_frames maximum fs bs r k :
  (maximum < U64)%N ->
  Forall (fun f => frame_ok f /\ (frame_rank f <= 64)%N) fs ->
  mapM (fun f => write_wire f maximum false) fs = Ok bs ->
  read_frames (length fs) maximum (mkStream (concat bs ++ r) k) = (Ok fs, mkStream r k).
Proof.
  intros Hm Hfs. revert bs. induction Hfs as [|f fs [Hf Hr] _ IH]; intros bs H; cbn in H.
  - by injection H as <-.
  - inv_ok H. subst. rename x into b, x0 into bs. cbn [read_frames length concat].
    rewrite <- app_assoc, (read_wire_app maximum f) by done. by rewrite (IH bs).
Qed.

Definition sample_frame : WireFrame :=
  WTensor 1 0 42%N (mkTensorPacket [2; 2]%N [1065353216; 1073741824; 1; 4286578687]%N).

Lemma sample_frame_ok : frame_ok sample_frame.
Proof.
  cbn [sample_frame frame_ok]. split; [reflexivity|].
  split; [repeat (apply List.Forall_cons; [reflexivity|]); apply List.Forall_nil|].
  split; [repeat (apply List.Forall_cons; [reflexivity|]); apply List.Forall_nil|].
  split; reflexivity.
Qed.

Lemma wire_round_trip_witness :
  exists b, encode_wire sample_frame 1024 = Ok b /\ decode_wire b = Ok sample_frame.
Proof.
  eexists. split; [vm_compute; reflexivity|].
  exact (wire_round_trip sample_frame 1024 _ sample_frame_ok eq_refl).
Defined.

Definition sample_body : list byte :=
  match encode_wire (WBarrierArrive 3 0 7) 64 with Ok b => b | Err _ => [] end.

Lemma decode_wire_canonical_witness :
  frame_ok (WBarrierArrive 3 0 7) /\
  encode_wire (WBarrierArrive 3 0 7) (lenN sample_body)
  = Ok (<[7%nat := Byte.x00]> sample_body).
Proof.
  destruct (decode_wire_canonical sample_body (WBarrierArrive 3 0 7))
    as (H & _ & H'); [vm_compute; reflexivity|]. split; assumption.
Defined.

Lemma stream_preserves_frames_witness :
  exists bs, mapM (fun f => write_wire f 1024 false) [sample_frame; WBarrierRelease 0 1 9] = Ok bs /\
  read_frames 2 1024 (mkStream (concat bs ++ [Byte.x01]) WouldBlock)
  = (Ok [sample_frame; WBarrierRelease 0 1 9], mkStream [Byte.x01] WouldBlock).
Proof.
  eexists. split; [vm_compute; reflexivity|].
  apply (stream_preserves_frames 1024 [sample_frame; WBarrierRelease 0 1 9]);
    [reflexivity| |vm_compute; reflexivity].
  constructor; [split; [apply sample_frame_ok|discriminate]|].
  constructor; [split; [reflexivity|discriminate]|constructor].
Defined.
