(* ===== verification/Mailbox.v ===== *)
(** * Mailboxes: what a point-to-point transport promises

    The contract of the traits of [crates/collectives/src/transport.rs]: "a
    receive matches one explicit source and [MessageTag]".  For each source a
    rank has a queue of undelivered messages in the order they were sent; a
    receive takes the first message with the requested tag and payload kind,
    and leaves the others where they are.  [InMemory.v] and [Tcp.v] show that
    both transports implement it. *)
From S2P Require Import Prelude Rank Packet.

Record Message : Type := mkMessage { m_tag : MessageTag; m_payload : MessagePayload }.

#[global] Instance Message_eq_dec : EqDecision Message.
Proof. unfold EqDecision; intros; unfold Decision; decide equality; solve_decision. Defined.

Abbreviation queue := (list Message).

(** Removes the first element [sel] accepts. *)
Fixpoint take_first {A B} (sel : A -> option B) (q : list A) : option (B * list A) :=
  match q with
  | [] => None
  | a :: q =>
      match sel a with
      | Some b => Some (b, q)
      | None => '(b, q) ← take_first sel q; Some (b, a :: q)
      end
  end.

(** The messages [recv] and [recv_control] accept. *)
Definition tensor_with (tag : MessageTag) (m : Message) : option TensorPacket :=
  match m_payload m with
  | TensorPayload p => if N.eqb (m_tag m) tag then Some p else None
  | ControlPayload _ => None
  end.

Definition control_with (tag : MessageTag) (m : Message) : option ControlPacket :=
  match m_payload m with
  | ControlPayload p => if N.eqb (m_tag m) tag then Some p else None
  | TensorPayload _ => None
  end.

Section TakeFirst.
Context {A B : Type} (sel : A -> option B).

Lemma take_first_None q : take_first sel q = None <-> Forall (fun a => sel a = None) q.
Proof.
  induction q as [|a q IH]; cbn; [by split|].
  rewrite List.Forall_cons_iff. destruct (sel a); [naive_solver|].
  destruct (take_first sel q) as [[]|]; cbn; naive_solver.
Qed.

Lemma take_first_Some q b q' :
  take_first sel q = Some (b, q') <->
  exists l a r, q = l ++ a :: r /\ q' = l ++ r /\ sel a = Some b /\
    Forall (fun a => sel a = None) l.
Proof.
  revert q'. induction q as [|a q IH]; intros q'; cbn.
  - split; [done|]. by intros ([] & ? & ? & ? & _).
  - destruct (sel a) as [b'|] eqn:E.
    + split.
      * intros [= <- <-]. by exists [], a, q.
      * intros ([|x l] & a' & r & H & -> & Ha & Hl); cbn in H; simplify_eq; [done|].
        apply List.Forall_cons_iff in Hl as [? _]. congruence.
    + destruct (take_first sel q) as [[b' q'']|] eqn:F; cbn.
      * split.
        -- intros [= <- <-]. destruct (proj1 (IH _) eq_refl) as (l & a' & r & -> & -> & ? & ?).
           exists (a :: l), a', r. repeat split; auto.
        -- intros ([|x l] & a' & r & H & -> & Ha & Hl); cbn in H; simplify_eq.
           apply List.Forall_cons_iff in Hl as [_ Hl].
           assert (Some (b', q'') = Some (b, l ++ r)) as [= -> ->]
             by (apply IH; by exists l, a', r). done.
      * split; [done|]. intros ([|x l] & a' & r & H & -> & Ha & Hl); cbn in H; simplify_eq.
        apply List.Forall_cons_iff in Hl as [_ Hl].
        assert (None = Some (b, l ++ r)); [|done]. apply IH. by exists l, a', r.
Qed.

Lemma take_first_app_Some q k b q' :
  take_first sel q = Some (b, q') -> take_first sel (q ++ k) = Some (b, q' ++ k).
Proof.
  intros (l & a & r & -> & -> & Ha & Hl)%take_first_Some. apply take_first_Some.
  exists l, a, (r ++ k). rewrite <- !app_assoc. done.
Qed.

Lemma take_first_app_None q k :
  take_first sel q = None ->
  take_first sel (q ++ k) = '(b, k') ← take_first sel k; Some (b, q ++ k').
Proof.
  rewrite take_first_None. induction 1 as [|a q Ha Hq IH]; cbn.
  - by destruct (take_first sel k) as [[]|].
  - rewrite Ha, IH. by destruct (take_first sel k) as [[]|].
Qed.

End TakeFirst.

#[export] Hint Resolve take_first_app_Some : dlir.

(** Selecting among the images of a partial function. *)
Lemma take_first_omap {A B C} (g : A -> option B) (sel : B -> option C) q :
  take_first sel (omap g q) =
  match take_first (fun a => g a ≫= sel) q with
  | Some (c, rest) => Some (c, omap g rest)
  | None => None
  end.
Proof.
  induction q as [|a q IH]; [done|]. cbn. destruct (g a) as [b|] eqn:E; cbn.
  - destruct (sel b); [done|]. rewrite IH.
    destruct (take_first _ q) as [[c rest]|]; cbn; [|done]. by rewrite E.
  - rewrite IH. destruct (take_first _ q) as [[c rest]|]; cbn; [|done]. by rewrite E.
Qed.

(** ** The interface

    An endpoint keeps, for every source, the messages it holds but has not
    delivered ([held]); each receive consumes part of the arrivals of its
    source.  An outcome of [None] means the call is still blocked when the
    arrivals are exhausted. *)
Inductive Arrival (E : Type) : Type :=
| Arrived (m : Message)
| Failed (e : E).
Arguments Arrived {E} m.
Arguments Failed {E} e.

Fixpoint arrived {E} (evs : list (Arrival E)) : queue :=
  match evs with
  | [] => []
  | Arrived m :: evs => m :: arrived evs
  | Failed _ :: evs => arrived evs
  end.

Lemma arrived_app {E} (a b : list (Arrival E)) : arrived (a ++ b) = arrived a ++ arrived b.
Proof. induction a as [|[] a IH]; cbn; congruence. Qed.

(** What one receive call on [source] may do to the messages of an endpoint:
    [before] and [after] give the held messages, [evs] the arrivals offered and
    [evs'] those not consumed.  A packet returned is the first match of the
    mailbox; a failure or a blocked call loses no message; a call blocks only
    when the mailbox holds no match; other sources are not disturbed. *)
Definition mailbox_receive {E A} (sel : Message -> option A) (source : nat)
  (before after : nat -> queue) (evs evs' : list (Arrival E))
  (out : option (cresult A)) : Prop :=
  (forall s, s <> source -> after s = before s) /\
  exists consumed, evs = consumed ++ evs' /\
  match out with
  | Some (Ok p) =>
      take_first sel (before source ++ arrived consumed) = Some (p, after source) /\
      Forall (fun ev => exists m, ev = Arrived m) consumed
  | Some (Err _) => after source = before source ++ arrived consumed
  | None => evs' = [] /\ after source = before source ++ arrived consumed /\
            take_first sel (after source) = None
  end.
