(* ===== verification/InMemory.v ===== *)
(** * In-memory transport

    Models [crates/collectives/src/in_memory.rs] and [runner.rs]: the channel
    matrix of a world, [send]/[recv]/[send_control]/[recv_control] of one
    endpoint with its queue of pending frames, the shared barrier as a state
    machine over its critical sections, and the thread runner that collects the
    ranks' results.  A panic ([expect] on a missing channel) is the
    [WorkerPanicked] error the runner reports for it. *)
From S2P Require Import Prelude Rank Packet Mailbox.

(** An [mpsc::channel] is named by the loop indices that create it: the source
    that holds its sender and the destination that holds its receiver. *)
Definition channel : Type := nat * nat.

(** [struct InMemoryTransport]; the barrier is shared and modelled below. *)
Record InMemoryTransport : Type := mkInMemory
  { rank : Rank;
    senders : list (option channel);
    receivers : list (option channel);
    pending : list MessageFrame;
    receive_timeout : Duration }.

Definition set_pending (self : InMemoryTransport) (p : list MessageFrame) : InMemoryTransport :=
  mkInMemory (rank self) (senders self) (receivers self) p (receive_timeout self).

(** [create_in_memory_world]. *)
Definition sender_row (world_size source : nat) : list (option channel) :=
  (fun destination => if Nat.eqb source destination then None else Some (source, destination))
  <$> seq 0 world_size.
Definition receiver_row (world_size destination : nat) : list (option channel) :=
  (fun source => if Nat.eqb source destination then None else Some (source, destination))
  <$> seq 0 world_size.

Definition create_in_memory_world (world_size : nat) (receive_timeout : Duration)
  : cresult (list InMemoryTransport) :=
  if Nat.eqb world_size 0 then Err InvalidWorldSize
  else mapM (fun global_rank =>
         rank ← Ranks.new global_rank world_size;
         Ok (mkInMemory rank (sender_row world_size global_rank)
               (receiver_row world_size global_rank) [] receive_timeout))
       (seq 0 world_size).

Definition expect_channel (self : InMemoryTransport) (row : list (option channel)) (peer : nat)
  (message : string) : cresult channel :=
  match row !! peer with
  | Some (Some c) => Ok c
  | _ => Err (WorkerPanicked (global_rank (rank self)) message)
  end.

(** [Transport::send] and [ControlTransport::send_control]: the channel and the
    frame queued on it.  [alive] tells whether the destination endpoint still
    holds the receiver. *)
Definition send_payload (self : InMemoryTransport) (alive : channel -> bool)
  (destination : nat) (tag : MessageTag) (payload : MessagePayload)
  : cresult (channel * MessageFrame) :=
  _ ← Ranks.validate_peer (rank self) destination;
  sender ← expect_channel self (senders self) destination
             "validated distinct peers always have a sender";
  if alive sender
  then Ok (sender, mkFrame (global_rank (rank self)) destination tag payload)
  else Err (SendDisconnected (global_rank (rank self)) destination tag).

Definition send self alive destination tag (packet : TensorPacket) :=
  send_payload self alive destination tag (TensorPayload packet).
Definition send_control self alive destination tag (packet : ControlPacket) :=
  send_payload self alive destination tag (ControlPayload packet).

(** ** Receiving

    The arrivals of a call are what successive [recv_timeout]s observe: a frame,
    a timeout, a dropped sender, or the total deadline found expired before the
    next wait. *)
Inductive ChannelFailure : Type := RecvTimeout | RecvDisconnected | DeadlineExpired.

Definition message_of (f : MessageFrame) : Message := mkMessage (f_tag f) (f_payload f).

(** What [recv_timeout] hands to the receiver of channel [source -> self]. *)
Definition frame_of (self : InMemoryTransport) (source : nat) (m : Message) : MessageFrame :=
  mkFrame source (global_rank (rank self)) (m_tag m) (m_payload m).

Definition receive_error (self : InMemoryTransport) (source : nat) (tag : MessageTag)
  (e : ChannelFailure) : CollectivesError :=
  match e with
  | RecvTimeout | DeadlineExpired =>
      ReceiveTimeout (global_rank (rank self)) source tag (receive_timeout self)
  | RecvDisconnected => ReceiveDisconnected (global_rank (rank self)) source tag
  end.

(** [take_pending] and [take_pending_control]: [position] then [remove]. *)
Definition take_pending {A} (sel : Message -> option A) (self : InMemoryTransport) (source : nat)
  : option A * InMemoryTransport :=
  match take_first (fun f => if Nat.eqb (f_source f) source then sel (message_of f) else None)
          (pending self) with
  | Some (packet, rest) => (Some packet, set_pending self rest)
  | None => (None, self)
  end.

(** The receive loop: a matching frame is returned, any other is kept. *)
Fixpoint recv_loop {A} (sel : Message -> option A) (self : InMemoryTransport) (source : nat)
  (tag : MessageTag) (evs : list (Arrival ChannelFailure))
  : option (cresult A) * InMemoryTransport * list (Arrival ChannelFailure) :=
  match evs with
  | [] => (None, self, [])
  | Failed e :: evs => (Some (Err (receive_error self source tag e)), self, evs)
  | Arrived m :: evs =>
      match sel m with
      | Some packet => (Some (Ok packet), self, evs)
      | None => recv_loop sel (set_pending self (pending self ++ [frame_of self source m]))
                  source tag evs
      end
  end.

Definition recv_payload {A} (sel : Message -> option A) (self : InMemoryTransport)
  (source : nat) (tag : MessageTag) (evs : list (Arrival ChannelFailure))
  : option (cresult A) * InMemoryTransport * list (Arrival ChannelFailure) :=
  match Ranks.validate_peer (rank self) source with
  | Err e => (Some (Err e), self, evs)
  | Ok _ =>
      match take_pending sel self source with
      | (Some packet, self) => (Some (Ok packet), self, evs)
      | (None, self) =>
          match expect_channel self (receivers self) source
                  "validated distinct peers always have a receiver" with
          | Err e => (Some (Err e), self, evs)
          | Ok _ => recv_loop sel self source tag evs
          end
      end
  end.

(** [Transport::recv], [ControlTransport::recv_control]. *)
Definition recv self source tag evs := recv_payload (tensor_with tag) self source tag evs.
Definition recv_control self source tag evs := recv_payload (control_with tag) self source tag evs.

(** ** The endpoint implements the mailbox *)

(** The messages of [source] held in [pending], oldest first. *)
Definition from_source (source : nat) (fs : list MessageFrame) : queue :=
  map message_of (filter (fun f => f_source f = source) fs).
Definition held (self : InMemoryTransport) (source : nat) : queue :=
  from_source source (pending self).

Lemma from_source_app s fs gs : from_source s (fs ++ gs) = from_source s fs ++ from_source s gs.
Proof. unfold from_source. by rewrite list.filter_app, map_app. Qed.
Lemma from_source_cons s f fs :
  from_source s (f :: fs) =
  if decide (f_source f = s) then message_of f :: from_source s fs else from_source s fs.
Proof. unfold from_source. rewrite filter_cons. by case_decide. Qed.

Arguments from_source : simpl never.

Lemma take_first_from_source {A} (sel : Message -> option A) s fs :
  take_first sel (from_source s fs) =
  match take_first (fun f => if Nat.eqb (f_source f) s then sel (message_of f) else None) fs with
  | Some (b, rest) => Some (b, from_source s rest)
  | None => None
  end.
Proof.
  induction fs as [|f fs IH]; [done|]. rewrite from_source_cons. cbn [take_first].
  destruct (Nat.eqb_spec (f_source f) s) as [E|E].
  - rewrite decide_True by done. cbn. destruct (sel (message_of f)); [done|]. rewrite IH.
    destruct (take_first _ fs) as [[b r]|]; cbn; [|done]. by rewrite from_source_cons, decide_True.
  - rewrite decide_False by done. rewrite IH.
    destruct (take_first _ fs) as [[b r]|]; cbn; [|done]. by rewrite from_source_cons, decide_False.
Qed.

Lemma take_first_other_source {A} (sel : Message -> option A) s s' fs b rest :
  s' <> s ->
  take_first (fun f => if Nat.eqb (f_source f) s then sel (message_of f) else None) fs
    = Some (b, rest) ->
  from_source s' rest = from_source s' fs.
Proof.
  intros Hs (l & f & r & -> & -> & Hf & _)%take_first_Some.
  destruct (Nat.eqb_spec (f_source f) s); [|done].
  by rewrite !from_source_app, from_source_cons, decide_False by congruence.
Qed.

Lemma held_push self source m s :
  held (set_pending self (pending self ++ [frame_of self source m])) s =
  if decide (s = source) then held self s ++ [m] else held self s.
Proof.
  unfold held; cbn [pending set_pending].
  rewrite from_source_app, from_source_cons. cbn [frame_of f_source].
  repeat case_decide; try congruence; [by destruct m|by rewrite app_nil_r].
Qed.

Lemma recv_loop_mailbox {A} (sel : Message -> option A) self source tag evs :
  take_first sel (held self source) = None ->
  let '(out, self', evs') := recv_loop sel self source tag evs in
  mailbox_receive sel source (held self) (held self') evs evs' out.
Proof.
  revert self. induction evs as [|[m|e] evs IH]; intros self Hnone; cbn.
  - split; [done|]. exists []. rewrite !app_nil_r. done.
  - destruct (sel m) as [p|] eqn:E.
    + split; [done|]. exists [Arrived m]. cbn. split; [done|].
      rewrite (take_first_app_None _ _ _ Hnone). cbn. rewrite E. cbn.
      rewrite app_nil_r. split; [done|]. repeat constructor. eauto.
    + specialize (IH (set_pending self (pending self ++ [frame_of self source m]))).
      rewrite held_push, decide_True in IH by done.
      destruct (recv_loop _ _ _ _ _) as [[out self'] evs'].
      destruct IH as (Hoth & c & -> & Hout).
      { rewrite (take_first_app_None _ _ _ Hnone). cbn. by rewrite E. }
      split.
      { intros s Hs. rewrite Hoth, held_push, decide_False by done. done. }
      exists (Arrived m :: c). cbn. split; [done|].
      rewrite held_push, decide_True, <- app_assoc in Hout by done. destruct out as [[p|err]|]; [|done..].
      destruct Hout as [? Hc]. split; [done|]. constructor; eauto.
  - split; [done|]. exists [Failed e]. cbn. by rewrite app_nil_r.
Qed.

(** ** Properties of the endpoint *)

(** C26: the in-memory endpoint is a mailbox.  Whatever frames, timeouts or
    disconnections a receive observes, it returns the first frame from that
    source with that tag and payload kind, in sending order; frames it skips
    stay available in order; a failed or blocked call loses nothing; and the
    frames of the other sources are untouched. *)
Theorem recv_payload_mailbox {A} (sel : Message -> option A) self source tag evs :
  Ranks.validate_peer (rank self) source = Ok tt ->
  is_ok (expect_channel self (receivers self) source
           "validated distinct peers always have a receiver") = true ->
  let '(out, self', evs') := recv_payload sel self source tag evs in
  mailbox_receive sel source (held self) (held self') evs evs' out.
Proof.
  intros Hp Hc. unfold recv_payload. rewrite Hp. unfold take_pending.
  pose proof (take_first_from_source sel source (pending self)) as Hf.
  destruct (take_first _ (pending self)) as [[p rest]|] eqn:E.
  - split.
    + intros s Hs. apply (take_first_other_source sel source s _ p); auto.
    + exists []. cbn. rewrite app_nil_r. split; [done|]. by split.
  - destruct (expect_channel _ _ _ _); [|done]. by apply recv_loop_mailbox.
Qed.

Definition endpoint (w : nat) (t : Duration) (g : nat) : InMemoryTransport :=
  mkInMemory (mkRank g w) (sender_row w g) (receiver_row w g) [] t.

Lemma create_ok w t :
  0 < w -> create_in_memory_world w t = Ok (map (endpoint w t) (seq 0 w)).
Proof.
  intros Hw. unfold create_in_memory_world. destruct (Nat.eqb_spec w 0); [lia|].
  apply mapM_Ok. intros g Hg. apply elem_of_seq in Hg.
  rewrite Ranks.rank_new_ok by lia. done.
Qed.

Lemma row_lookup (f : nat -> option channel) w i :
  i < w -> (f <$> seq 0 w) !! i = Some (f i).
Proof. intros. by rewrite list_lookup_fmap, lookup_seq_lt. Qed.

(** A world of [n] ranks has one endpoint per rank, in rank order, and for
    each ordered pair of distinct ranks one private channel: its sender is
    found by the source and its receiver by the destination, so the [expect]s
    of [send] and [recv] cannot fail after [validate_peer]. *)
Theorem create_in_memory_world_complete n timeout :
  0 < n ->
  exists world, create_in_memory_world n timeout = Ok world /\ length world = n /\
  forall i self, world !! i = Some self ->
    rank self = mkRank i n /\ pending self = [] /\
    forall j peer, Ranks.validate_peer (rank self) j = Ok tt -> world !! j = Some peer ->
      expect_channel self (senders self) j "validated distinct peers always have a sender"
        = Ok (i, j) /\
      expect_channel peer (receivers peer) i "validated distinct peers always have a receiver"
        = Ok (i, j).
Proof.
  intros Hn. exists (map (endpoint n timeout) (seq 0 n)). split; [by apply create_ok|].
  split; [by rewrite length_map, length_seq|]. intros i self Hi.
  apply list_lookup_fmap_Some_1 in Hi as (i' & -> & [-> Hi]%lookup_seq). cbn.
  split; [done|]. split; [done|]. intros j peer [Hj Hne]%Ranks.validate_peer_ok Hp. cbn in *.
  apply list_lookup_fmap_Some_1 in Hp as (j' & -> & [-> _]%lookup_seq). cbn.
  unfold expect_channel, sender_row, receiver_row.
  rewrite !row_lookup by done.
  destruct (Nat.eqb_spec i j); [by subst|]. done.
Qed.

(** ** The runner *)

(** What joining a worker thread gives. *)
Inductive Join (T : Type) : Type :=
| JoinOk (value : T)
| JoinErr (source : CollectivesError)
| JoinPanic (message : string).
Arguments JoinOk {T} value.
Arguments JoinErr {T} source.
Arguments JoinPanic {T} message.

(** The collection loop of [run_in_memory]: [results] and [first_error]. *)
Fixpoint join_all {T} (handles : list (nat * Join T)) (results : list (option T))
  (first_error : option CollectivesError) : list (option T) * option CollectivesError :=
  match handles with
  | [] => (results, first_error)
  | (rank, JoinOk value) :: handles =>
      join_all handles (<[rank := Some value]> results) first_error
  | (rank, JoinErr source) :: handles =>
      join_all handles results
        (match first_error with None => Some (WorkerFailed rank source) | e => e end)
  | (rank, JoinPanic message) :: handles =>
      join_all handles results
        (match first_error with None => Some (WorkerPanicked rank message) | e => e end)
  end.

(** [run_in_memory], given the outcome of each worker thread. *)
Definition run_in_memory {T} (world_size : nat) (receive_timeout : Duration)
  (worker : InMemoryTransport -> Join T) : cresult (list T) :=
  endpoints ← create_in_memory_world world_size receive_timeout;
  let handles := map (fun e => (global_rank (rank e), worker e)) endpoints in
  match join_all handles (replicate world_size None) None with
  | (_, Some error) => Err error
  | (results, None) =>
      mapM (fun r => ok_or r (WorkerPanicked 0 "every successful rank produced a result")) results
  end.

Definition join_error {T} (rank : nat) (j : Join T) : option CollectivesError :=
  match j with
  | JoinOk _ => None
  | JoinErr source => Some (WorkerFailed rank source)
  | JoinPanic message => Some (WorkerPanicked rank message)
  end.

(** The first error in rank order. *)
Fixpoint first_failure {T} (handles : list (nat * Join T)) : option CollectivesError :=
  match handles with
  | [] => None
  | (rank, j) :: handles =>
      match join_error rank j with Some e => Some e | None => first_failure handles end
  end.

Lemma join_all_error {T} (handles : list (nat * Join T)) results e :
  (join_all handles results e).2 = match e with None => first_failure handles | _ => e end.
Proof.
  revert results e. induction handles as [|[r [v|s|m]] hs IH]; intros results e; cbn;
    rewrite ?IH; by destruct e.
Qed.

Lemma join_all_values {T} (vs : list T) k pre :
  join_all (zip (seq k (length vs)) (map JoinOk vs)) (pre ++ replicate (length vs) None) None
  = (pre ++ map Some vs, None) \/ length pre <> k.
Proof.
  destruct (decide (length pre = k)) as [<-|]; [left|by right].
  revert pre. induction vs as [|v vs IH]; intros pre; cbn; [by rewrite app_nil_r|].
  rewrite insert_app_r_alt, Nat.sub_diag by done. cbn.
  specialize (IH (pre ++ [Some v])). rewrite length_app in IH; cbn in IH.
  rewrite <- app_assoc, Nat.add_1_r in IH. cbn in IH. rewrite IH.
  by rewrite <- app_assoc.
Qed.

Lemma first_failure_None {T} (f : nat -> Join T) l :
  first_failure (map (fun g => (g, f g)) l) = None ->
  exists vs, map f l = map JoinOk vs.
Proof.
  induction l as [|g l IH]; cbn; [by exists []|].
  destruct (f g) eqn:E; cbn; try done. intros [vs ->]%IH. by exists (value :: vs).
Qed.

Lemma map_pair_zip {A B} (f : A -> B) l : map (fun g => (g, f g)) l = zip l (map f l).
Proof. induction l; cbn; congruence. Qed.

Lemma mapM_values {T} (vs : list T) e :
  mapM (fun r => ok_or r e) (map Some vs) = (Ok vs : cresult _).
Proof. induction vs as [|v vs IH]; cbn; [done|]. by rewrite IH. Qed.

Lemma run_in_memory_outcomes {T} n timeout (worker : InMemoryTransport -> Join T) :
  0 < n ->
  run_in_memory n timeout worker =
  match first_failure (map (fun g => (g, worker (endpoint n timeout g))) (seq 0 n)) with
  | Some e => Err e
  | None => Ok (omap (fun g => match worker (endpoint n timeout g) with
                               | JoinOk v => Some v | _ => None end) (seq 0 n))
  end.
Proof.
  intros Hn. unfold run_in_memory. rewrite create_ok by done. cbn [mbind result_bind].
  rewrite map_map. cbn [rank endpoint global_rank].
  pose proof (join_all_error (map (fun g => (g, worker (endpoint n timeout g))) (seq 0 n))
                (replicate n None) None) as He.
  destruct (first_failure _) as [e|] eqn:F.
  - destruct (join_all _ _ _) as [results e']; cbn in He. by subst.
  - apply first_failure_None in F as [vs Hvs].
    assert (length vs = n) as Hl.
    { apply (f_equal length) in Hvs. by rewrite !length_map, length_seq in Hvs. }
    rewrite map_pair_zip, Hvs, <- Hl. destruct (join_all_values vs 0 []) as [Hj|]; [|done].
    cbn [app] in Hj. rewrite Hj. rewrite mapM_values. f_equal. rewrite Hl.
    revert Hvs. clear. generalize (seq 0 n). intros l. revert vs.
    induction l as [|g l IH]; intros [|v vs] H; try done.
    cbn [map] in H. injection H as Hg H. cbn. rewrite Hg, <- (IH vs H). done.
Qed.

(** [run_in_memory] joins every worker: it returns the values in rank order
    when all workers succeed, and otherwise the failure of the lowest failing
    rank, named with that rank. *)
Theorem run_in_memory_result {T} n timeout (worker : InMemoryTransport -> Join T) :
  0 < n ->
  run_in_memory n timeout worker =
  match first_failure (map (fun g => (g, worker (endpoint n timeout g))) (seq 0 n)) with
  | Some e => Err e
  | None => Ok (omap (fun g => match worker (endpoint n timeout g) with
                               | JoinOk v => Some v | _ => None end) (seq 0 n))
  end.
Proof. apply run_in_memory_outcomes. Qed.

(** ** The shared barrier

    [struct BarrierState] behind its mutex; [wait] is its critical sections.
    Each rank is outside the barrier or waiting for the generation it arrived
    in. *)

Record BarrierState : Type := mkBarrierState
  { generation : N; arrived_count : nat; broken : bool }.

Definition initial_barrier : BarrierState := mkBarrierState 0 0 false.

Definition set_broken (st : BarrierState) : BarrierState :=
  mkBarrierState (generation st) (arrived_count st) true.

(** Where one critical section leaves the caller: back with a result, or
    waiting on the condition variable. *)
Inductive WaitOutcome : Type :=
| Returned (r : cresult unit)
| WaitingFor (generation : N).

(** [InMemoryBarrier::wait] up to the condition variable. *)
Definition barrier_enter (world_size rank : nat) (st : BarrierState)
  : BarrierState * WaitOutcome :=
  if broken st then (st, Returned (Err (BarrierBroken rank (generation st)))) else
  let arrived := S (arrived_count st) in
  if Nat.eqb arrived world_size then
    match checked_add (generation st) 1 with
    | Some next => (mkBarrierState next 0 false, Returned (Ok tt))
    | None => (mkBarrierState (generation st) 0 false,
               Returned (Err (Protocol "barrier generation overflow")))
    end
  else (mkBarrierState (generation st) arrived false, WaitingFor (generation st)).

(** One return of [wait_timeout]; [timed_out] is its verdict and [expired]
    whether the total deadline has passed when the loop starts over. *)
Definition barrier_wake (rank : nat) (timeout : Duration) (entered : N) (timed_out expired : bool)
  (st : BarrierState) : BarrierState * WaitOutcome :=
  if negb (N.eqb (generation st) entered) then (st, Returned (Ok tt))
  else if broken st then (st, Returned (Err (BarrierBroken rank entered)))
  else if timed_out || expired
  then (set_broken st, Returned (Err (BarrierTimeout rank entered timeout)))
  else (st, WaitingFor entered).

(** A rank as the barrier sees it: how often it has arrived, how often [wait]
    returned [Ok] to it, and the generation it is waiting for, if any. *)
Record Phase : Type := mkPhase { entries : N; passes : N; waiting : option N }.

Definition settle (p : Phase) (o : WaitOutcome) : Phase :=
  match o with
  | Returned (Ok _) => mkPhase (entries p) (passes p + 1) None
  | Returned (Err _) => mkPhase (entries p) (passes p) None
  | WaitingFor g => mkPhase (entries p) (passes p) (Some g)
  end.

Definition arrive (broken : bool) (p : Phase) : Phase :=
  if broken then p else mkPhase (entries p + 1) (passes p) (waiting p).

(** The threads of a world of ranks interleave whole critical sections. *)
Inductive barrier_step (timeout : Duration) :
  BarrierState * list Phase -> BarrierState * list Phase -> Prop :=
| step_enter st ps i p st' o :
    ps !! i = Some p -> waiting p = None ->
    barrier_enter (length ps) i st = (st', o) ->
    barrier_step timeout (st, ps) (st', <[i := settle (arrive (broken st) p) o]> ps)
| step_wake st ps i p g timed_out expired st' o :
    ps !! i = Some p -> waiting p = Some g ->
    barrier_wake i timeout g timed_out expired st = (st', o) ->
    barrier_step timeout (st, ps) (st', <[i := settle p o]> ps).

Definition initial_phases (n : nat) : list Phase := replicate n (mkPhase 0 0 None).

Definition waiting_now (g : N) (p : Phase) : Prop := waiting p = Some g.
#[global] Instance waiting_now_dec g p : Decision (waiting_now g p).
Proof. unfold waiting_now. apply _. Defined.

(** The invariant of the barrier: no rank has passed more generations than are
    complete, every rank has arrived in all complete generations, and, while
    the barrier works, the arrival count counts the ranks waiting for the
    current generation. *)
Definition barrier_inv (s : BarrierState * list Phase) : Prop :=
  let '(st, ps) := s in
  Forall (fun p => (generation st <= entries p)%N /\ (passes p <= generation st)%N /\
    forall g, waiting p = Some g ->
      (g <= generation st)%N /\ (passes p <= g)%N /\ (g < entries p)%N) ps /\
  (broken st = true \/ (U64 <= generation st + 1)%N \/
   length (filter (waiting_now (generation st)) ps) = arrived_count st).

Lemma filter_insert_length {A} (P : A -> Prop) `{!forall x, Decision (P x)} (l : list A) i x y :
  l !! i = Some x -> ~ P x -> P y ->
  length (filter P (<[i := y]> l)) = S (length (filter P l)).
Proof.
  intros Hi Hx Hy. pose proof (lookup_lt_Some _ _ _ Hi).
  rewrite insert_take_drop by done. rewrite <- (take_drop_middle l i x Hi) at 3.
  rewrite !list.filter_app, !length_app, !list.filter_cons.
  rewrite decide_True, decide_False by done. cbn. lia.
Qed.

Lemma filter_insert_same {A} (P : A -> Prop) `{!forall x, Decision (P x)} (l : list A) i x y :
  l !! i = Some x -> ~ P x -> ~ P y -> length (filter P (<[i := y]> l)) = length (filter P l).
Proof.
  intros Hi Hx Hy. pose proof (lookup_lt_Some _ _ _ Hi).
  rewrite insert_take_drop by done. rewrite <- (take_drop_middle l i x Hi) at 3.
  rewrite !list.filter_app, !length_app, !list.filter_cons.
  rewrite !decide_False by done. cbn. lia.
Qed.

Lemma filter_full {A} (P : A -> Prop) `{!forall x, Decision (P x)} (l : list A) :
  length (filter P l) = length l -> Forall P l.
Proof.
  induction l as [|x l IH]; [constructor|]. rewrite list.filter_cons.
  pose proof (length_filter P l). case_decide; cbn; intros; [constructor; auto|lia].
Qed.

(** What [barrier_inv] says of one rank. *)
Definition phase_inv (gen : N) (p : Phase) : Prop :=
  (gen <= entries p)%N /\ (passes p <= gen)%N /\
  forall g, waiting p = Some g -> (g <= gen)%N /\ (passes p <= g)%N /\ (g < entries p)%N.

Lemma barrier_inv_split st ps :
  barrier_inv (st, ps) <->
  Forall (phase_inv (generation st)) ps /\
  (broken st = true \/ (U64 <= generation st + 1)%N \/
   length (filter (waiting_now (generation st)) ps) = arrived_count st).
Proof. done. Qed.

Lemma phases_insert gen ps i p :
  Forall (phase_inv gen) ps -> phase_inv gen p -> Forall (phase_inv gen) (<[i := p]> ps).
Proof. intros H Hp. by apply Forall_insert. Qed.

Lemma phase_idle gen e q : (gen <= e)%N -> (q <= gen)%N -> phase_inv gen (mkPhase e q None).
Proof. intros. split; [done|]. split; [done|]. by intros g [=]. Qed.

Lemma phase_waits gen e q g :
  (g <= gen)%N -> (q <= g)%N -> (gen < e)%N -> phase_inv gen (mkPhase e q (Some g)).
Proof. intros. split; [cbn; lia|]. split; [cbn; lia|]. intros g' [= <-]. cbn. lia. Qed.

(** After the last arrival every rank is counted in the next generation. *)
Lemma phases_complete gen ps :
  Forall (phase_inv gen) ps -> Forall (fun p => waiting_now gen p \/
    ((gen < entries p)%N /\ waiting p = None)) ps ->
  Forall (phase_inv (gen + 1)) ps /\ filter (waiting_now (gen + 1)) ps = [].
Proof.
  intros H Hw. induction ps as [|p ps IH]; [by split; constructor|].
  apply List.Forall_cons_iff in H as [(H1 & H2 & H3) H].
  apply List.Forall_cons_iff in Hw as [Hw Hws]. destruct (IH H Hws) as [IH1 IH2]. split.
  - constructor; [|done]. unfold phase_inv, waiting_now in *.
    destruct Hw as [Hw|[Hw Hn]]; [destruct (H3 _ Hw)|]; repeat split; try lia;
      destruct (H3 _ ltac:(eassumption)); lia || congruence.
  - rewrite list.filter_cons, decide_False, IH2; [done|]. unfold waiting_now in *.
    intros E. destruct (H3 _ E). lia.
Qed.

Lemma barrier_enter_inv st ps i p st' o :
  barrier_inv (st, ps) -> ps !! i = Some p -> waiting p = None ->
  barrier_enter (length ps) i st = (st', o) ->
  barrier_inv (st', <[i := settle (arrive (broken st) p) o]> ps).
Proof.
  rewrite !barrier_inv_split. intros [Hps Hc] Hi Hw. unfold barrier_enter.
  pose proof (Forall_lookup_1 _ _ _ _ Hps Hi) as (P1 & P2 & _).
  assert (Hnw : forall g, ~ waiting_now g p) by (intros g; unfold waiting_now; congruence).
  destruct (broken st) eqn:Hb.
  { intros [= <- <-]. rewrite Hb. split; [|by left]. apply phases_insert; [done|].
    by repeat split. }
  destruct (Nat.eqb_spec (S (arrived_count st)) (length ps)) as [Hlast|Hlast].
  - destruct (checked_add (generation st) 1) as [next|] eqn:Hn; intros [= <- <-]; cbn.
    + apply checked_add_Some in Hn as [-> Hn].
      destruct Hc as [?|[?|Hc]]; [done|lia|].
      set (q := mkPhase (entries p + 1) (passes p) (Some (generation st))).
      assert (Hall : Forall (waiting_now (generation st)) (<[i := q]> ps)).
      { apply (filter_full (waiting_now _)). rewrite (filter_insert_length (waiting_now _) ps i p q) by done. rewrite length_insert. lia. }
      assert (Hq : phase_inv (generation st) q) by (apply phase_waits; lia).
      destruct (phases_complete (generation st) (<[i := q]> ps)) as [HA HB].
      { by apply phases_insert. }
      { revert Hall. apply Forall_impl. by left. }
      set (r := mkPhase (entries p + 1) (passes p + 1) None).
      assert (Hr : <[i := r]> ps = <[i := r]> (<[i := q]> ps))
        by (by rewrite list_insert_insert_eq).
      split.
      * rewrite Hr. apply phases_insert; [done|]. apply phase_idle; lia.
      * right; right. cbn. rewrite Hr. pose proof (lookup_lt_Some _ _ _ Hi).
        rewrite (filter_insert_same (waiting_now _) _ _ q r);
          [by rewrite HB|by rewrite list_lookup_insert_eq| |done].
        unfold waiting_now; cbn. intros [=]. lia.
    + apply checked_add_None in Hn. split; [|by right; left].
      apply phases_insert; [done|]. apply phase_idle; lia.
  - intros [= <- <-]; cbn. split.
    + apply phases_insert; [done|]. apply phase_waits; lia.
    + destruct Hc as [?|[?|Hc]]; [done|by right; left|right; right].
      rewrite (filter_insert_length (waiting_now _) ps i p); [by rewrite Hc|done..].
Qed.

Lemma barrier_wake_inv timeout st ps i p g timed_out expired st' o :
  barrier_inv (st, ps) -> ps !! i = Some p -> waiting p = Some g ->
  barrier_wake i timeout g timed_out expired st = (st', o) ->
  barrier_inv (st', <[i := settle p o]> ps).
Proof.
  rewrite !barrier_inv_split. intros [Hps Hc] Hi Hw. unfold barrier_wake.
  pose proof (Forall_lookup_1 _ _ _ _ Hps Hi) as (P1 & P2 & P3).
  destruct (P3 g Hw) as (G1 & G2 & G3).
  destruct (N.eqb_spec (generation st) g) as [E|E]; cbn [negb].
  - assert (Hidle : phase_inv (generation st) (mkPhase (entries p) (passes p) None))
      by (by apply phase_idle).
    destruct (broken st) eqn:Hb; [|destruct (timed_out || expired)]; intros [= <- <-]; cbn.
    + rewrite Hb. split; [|by left]. by apply phases_insert.
    + split; [|by left]. by apply phases_insert.
    + rewrite Hb, list_insert_id; [done|]. rewrite Hi, <- Hw. by destruct p.
  - intros [= <- <-]; cbn. split.
    + apply phases_insert; [done|]. apply phase_idle; lia.
    + destruct Hc as [?|[?|Hc]]; [by left|by right; left|right; right].
      rewrite (filter_insert_same (waiting_now _) ps i p); [done..| |done]. unfold waiting_now. congruence.
Qed.

Lemma barrier_step_inv timeout s s' : barrier_step timeout s s' -> barrier_inv s -> barrier_inv s'.
Proof. destruct 1; intros; eauto using barrier_enter_inv, barrier_wake_inv. Qed.

Lemma initial_barrier_inv n : barrier_inv (initial_barrier, initial_phases n).
Proof.
  apply barrier_inv_split. split.
  - apply Forall_replicate. repeat split; cbn; done.
  - right; right. cbn. induction n as [|n IH]; [done|]. cbn [initial_phases replicate].
    rewrite list.filter_cons, decide_False; [done|]. by intros [=].
Qed.

(** C31: the barrier synchronises.  However the ranks' critical sections,
    time-outs and wake-ups interleave, a rank that [wait] has let through [k]
    times (with [Ok]) implies that every rank of the world has arrived at least
    [k] times: no rank leaves generation [k] before all have entered it. *)
Theorem barrier_synchronises n timeout st ps :
  rtc (barrier_step timeout) (initial_barrier, initial_phases n) (st, ps) ->
  forall i j p q, ps !! i = Some p -> ps !! j = Some q -> (passes p <= entries q)%N.
Proof.
  intros H i j p q Hi Hj.
  assert (barrier_inv (st, ps)) as [HF _].
  { pose proof (initial_barrier_inv n) as H0. revert H0.
    remember (initial_barrier, initial_phases n) as s0. remember (st, ps) as s1.
    clear -H. induction H; eauto using barrier_step_inv. }
  pose proof (Forall_lookup_1 _ _ _ _ HF Hi) as (_ & ? & _).
  pose proof (Forall_lookup_1 _ _ _ _ HF Hj) as (? & _). lia.
Qed.

(** ** Witnesses *)

Definition control_of (n : N) : ControlPacket := mkControlPacket [byte_of_N n].
Definition arrival (tag n : N) : Arrival ChannelFailure :=
  Arrived (mkMessage tag (ControlPayload (control_of n))).

Example recv_payload_mailbox_witness :
  let self := endpoint 3 5%N 0 in
  let '(out, self', evs') :=
    recv_control self 2 7%N [arrival 9%N 1%N; arrival 7%N 2%N; Failed RecvTimeout] in
  out = Some (Ok (control_of 2%N)) /\
  mailbox_receive (control_with 7%N) 2 (held self) (held self')
    [arrival 9%N 1%N; arrival 7%N 2%N; Failed RecvTimeout] evs' out.
Proof.
  split; [vm_compute; reflexivity|].
  exact (recv_payload_mailbox (control_with 7%N) (endpoint 3 5%N 0) 2 7%N
    [arrival 9%N 1%N; arrival 7%N 2%N; Failed RecvTimeout] eq_refl eq_refl).
Defined.

Example create_in_memory_world_complete_witness :
  exists world, create_in_memory_world 3 5%N = Ok world /\ length world = 3.
Proof.
  destruct (create_in_memory_world_complete 3 5%N) as (world & H1 & H2 & _); [lia|].
  exists world. split; assumption.
Defined.

Example run_in_memory_result_witness :
  run_in_memory 3 5%N (fun e => if Nat.eqb (global_rank (rank e)) 1 then JoinErr InvalidWorldSize
                              else JoinOk (global_rank (rank e)))
  = Err (WorkerFailed 1 InvalidWorldSize).
Proof. rewrite (run_in_memory_result 3 5%N); [reflexivity|lia]. Defined.

(** Rank 1 arrives first and waits, rank 0 completes the generation. *)
Example barrier_synchronises_witness :
  let st := mkBarrierState 1 0 false in
  let ps := [mkPhase 1 1 None; mkPhase 1 0 (Some 0%N)] in
  rtc (barrier_step 9%N) (initial_barrier, initial_phases 2) (st, ps) /\ (1 <= 1)%N.
Proof.
  assert (H : rtc (barrier_step 9%N) (initial_barrier, initial_phases 2)
    (mkBarrierState 1 0 false, [mkPhase 1 1 None; mkPhase 1 0 (Some 0%N)])).
  { eapply rtc_l; [apply (step_enter 9%N _ _ 1 (mkPhase 0 0 None)); reflexivity|].
    eapply rtc_l; [apply (step_enter 9%N _ _ 0 (mkPhase 0 0 None)); reflexivity|].
    apply rtc_refl. }
  split; [exact H|].
  apply (barrier_synchronises 2 9%N _ _ H 0 1 (mkPhase 1 1 None) (mkPhase 1 0 (Some 0%N)));
    reflexivity.
Defined.
