(* ===== verification/Tcp.v ===== *)
(** * TCP transport: endpoint, barrier, rendezvous and mesh

    Models the stateful part of [crates/collectives/src/tcp.rs] above the wire
    format of [Wire.v].  The read side of a peer stream is the sequence of the
    results [read_wire] gives on it; a write is the frame and the result of
    [write_wire].  A receive is blocked ([None]) when the results offered are
    exhausted.  JSON texts are the values they encode; [Debug] output of a frame
    is a parameter. *)
From stdpp Require Import sorting.
From S2P Require Import Prelude Rank Packet Wire Mailbox.

(** [struct PeerInfo]. *)
Record PeerInfo : Type := mkPeerInfo { peer_rank : nat; peer_address : string }.

#[global] Instance PeerInfo_eq_dec : EqDecision PeerInfo.
Proof. solve_decision. Defined.

(** ** Configuration *)

(** [struct TcpTransportConfig]. *)
Record TcpTransportConfig : Type := mkTcpConfig
  { cfg_rank : Rank;
    cfg_run_id : string;
    cfg_rendezvous_addr : string;
    cfg_rendezvous_bind_addr : option string;
    cfg_listen_addr : string;
    cfg_advertise_addr : string;
    cfg_startup_timeout : Duration;
    cfg_operation_timeout : Duration;
    cfg_max_tensor_bytes : N }.

(** [byte.is_ascii_alphanumeric() || matches!(byte, b'-' | b'_')]. *)
Definition run_id_byte (c : Ascii.ascii) : bool :=
  byte_between 48 57 c || byte_between 65 90 c || byte_between 97 122 c
  || byte_between 45 45 c || byte_between 95 95 c.

Fixpoint all_bytes (p : Ascii.ascii -> bool) (s : string) : bool :=
  match s with EmptyString => true | String c s => p c && all_bytes p s end.

(** [TcpTransportConfig::validate]. *)
Fixpoint validate_addresses (l : list (string * string)) : cresult unit :=
  match l with
  | [] => Ok tt
  | (name, value) :: l =>
      if blank value then Err (Rendezvous (name +:+ " address cannot be empty"))
      else validate_addresses l
  end.

Definition validate (self : TcpTransportConfig) : cresult unit :=
  _ ← reject_if (Nat.eqb (String.length (cfg_run_id self)) 0
                 || Nat.ltb 64 (String.length (cfg_run_id self))
                 || negb (all_bytes run_id_byte (cfg_run_id self)))
        (Rendezvous "run ID must contain 1-64 ASCII letters, digits, '-' or '_'");
  _ ← validate_addresses [("rendezvous", cfg_rendezvous_addr self);
                          ("listen", cfg_listen_addr self);
                          ("advertise", cfg_advertise_addr self)];
  _ ← reject_if (Nat.eqb (global_rank (cfg_rank self)) 0
                 && bool_decide (cfg_rendezvous_bind_addr self = None))
        (Rendezvous "rank 0 requires a rendezvous bind address");
  _ ← reject_if (N.eqb (cfg_startup_timeout self) 0 || N.eqb (cfg_operation_timeout self) 0)
        (Rendezvous "startup and operation timeouts must be positive");
  reject_if (cfg_max_tensor_bytes self <? 64)%N
    (Protocol "maximum tensor frame must be at least 64 bytes").

(** ** The endpoint *)

(** [struct TcpTransport]; a peer slot is [true] when it holds a stream. *)
Record TcpTransport : Type := mkTcp
  { rank : Rank;
    peers : list PeerInfo;
    readers : list bool;
    writers : list bool;
    pending : list (list WireFrame);
    operation_timeout : Duration;
    max_tensor_bytes : N;
    barrier_generation : N }.

Definition set_pending (self : TcpTransport) (p : list (list WireFrame)) : TcpTransport :=
  mkTcp (rank self) (peers self) (readers self) (writers self) p (operation_timeout self)
    (max_tensor_bytes self) (barrier_generation self).
Definition set_generation (self : TcpTransport) (g : N) : TcpTransport :=
  mkTcp (rank self) (peers self) (readers self) (writers self) (pending self)
    (operation_timeout self) (max_tensor_bytes self) g.

(** The last step of [connect]: the streams of the mesh fill their slots. *)
Definition assemble (config : TcpTransportConfig) (peers : list PeerInfo) (streams : list nat)
  : TcpTransport :=
  let world_size := world_size (cfg_rank config) in
  let slots := foldl (fun slots peer => <[peer := true]> slots)
                 (replicate world_size false) streams in
  mkTcp (cfg_rank config) peers slots slots (replicate world_size [])
    (cfg_operation_timeout config) (cfg_max_tensor_bytes config) 0.

(** [expect] on a peer slot; the panic is reported by whoever joins the thread. *)
Definition expect_stream (self : TcpTransport) (slots : list bool) (peer : nat) (message : string)
  : cresult unit :=
  match slots !! peer with
  | Some true => Ok tt
  | _ => Err (WorkerPanicked (global_rank (rank self)) message)
  end.

(** Results of successive [read_wire]s on one stream. *)
Abbreviation reads := (list (cresult WireFrame)).

Definition claim_error (self : TcpTransport) (source : nat) (frame : WireFrame) : CollectivesError :=
  Protocol ("rank " +:+ pretty (global_rank (rank self)) +:+ " received frame claiming "
            +:+ pretty (frame_source frame) +:+ " -> " +:+ pretty (frame_destination frame)
            +:+ " on peer " +:+ pretty source).

(** [TcpTransport::send_frame]; [written] is the result of [write_wire]. *)
Definition send_frame (self : TcpTransport) (written : WireFrame -> cresult unit)
  (destination : nat) (frame : WireFrame) : cresult unit :=
  _ ← Ranks.validate_peer (rank self) destination;
  _ ← expect_stream self (writers self) destination "connected distinct peer has writer";
  written frame.

(** [TcpTransport::read_from]. *)
Definition read_from (self : TcpTransport) (source : nat) (read : cresult WireFrame)
  : cresult WireFrame :=
  _ ← Ranks.validate_peer (rank self) source;
  _ ← expect_stream self (readers self) source "connected distinct peer has reader";
  frame ← read;
  if negb (Nat.eqb (frame_source frame) source)
     || negb (Nat.eqb (frame_destination frame) (global_rank (rank self)))
  then Err (claim_error self source frame)
  else Ok frame.

Definition pending_of (self : TcpTransport) (source : nat) : list WireFrame :=
  default [] (pending self !! source).
Definition push_pending (self : TcpTransport) (source : nat) (frame : WireFrame) : TcpTransport :=
  set_pending self (<[source := pending_of self source ++ [frame]]> (pending self)).

Definition message_of (frame : WireFrame) : option Message :=
  match frame with
  | WTensor _ _ tag packet => Some (mkMessage tag (TensorPayload packet))
  | WControl _ _ tag packet => Some (mkMessage tag (ControlPayload packet))
  | WBarrierArrive _ _ _ | WBarrierRelease _ _ _ => None
  end.

(** [take_pending_tensor], [take_pending_control]. *)
Definition take_pending {A} (sel : Message -> option A) (self : TcpTransport) (source : nat)
  : option A * TcpTransport :=
  match take_first (fun f => message_of f ≫= sel) (pending_of self source) with
  | Some (packet, rest) => (Some packet, set_pending self (<[source := rest]> (pending self)))
  | None => (None, self)
  end.

Definition receive_error (self : TcpTransport) (source : nat) (tag : MessageTag)
  (error : CollectivesError) : CollectivesError :=
  if is_timeout_error error
  then ReceiveTimeout (global_rank (rank self)) source tag (operation_timeout self)
  else if is_disconnect_error error
  then ReceiveDisconnected (global_rank (rank self)) source tag
  else error.

(** The loops of [recv] and [recv_control]. *)
Fixpoint recv_loop {A} (sel : Message -> option A) (self : TcpTransport) (source : nat)
  (tag : MessageTag) (evs : reads) : option (cresult A) * TcpTransport * reads :=
  match evs with
  | [] => (None, self, [])
  | read :: evs =>
      match map_err (receive_error self source tag) (read_from self source read) with
      | Err e => (Some (Err e), self, evs)
      | Ok frame =>
          match message_of frame ≫= sel with
          | Some packet => (Some (Ok packet), self, evs)
          | None => recv_loop sel (push_pending self source frame) source tag evs
          end
      end
  end.

Definition recv_payload {A} (sel : Message -> option A) (self : TcpTransport) (source : nat)
  (tag : MessageTag) (evs : reads) : option (cresult A) * TcpTransport * reads :=
  match Ranks.validate_peer (rank self) source with
  | Err e => (Some (Err e), self, evs)
  | Ok _ =>
      match take_pending sel self source with
      | (Some packet, self) => (Some (Ok packet), self, evs)
      | (None, self) => recv_loop sel self source tag evs
      end
  end.

(** [Transport::send], [ControlTransport::send_control], [recv], [recv_control]. *)
Definition send self written destination tag packet : cresult unit :=
  send_frame self written destination
    (WTensor (global_rank (rank self)) destination tag packet).
Definition send_control self written destination tag packet : cresult unit :=
  send_frame self written destination
    (WControl (global_rank (rank self)) destination tag packet).
Definition recv self source tag evs := recv_payload (tensor_with tag) self source tag evs.
Definition recv_control self source tag evs := recv_payload (control_with tag) self source tag evs.

(** ** The barrier *)
Section Barrier.
Context (debug_frame : WireFrame -> string).

Definition is_barrier (frame : WireFrame) : option WireFrame :=
  match frame with
  | WBarrierArrive _ _ _ | WBarrierRelease _ _ _ => Some frame
  | _ => None
  end.

(** The final [match] of [recv_barrier] on a frame that is not a tensor. *)
Definition judge (expected_arrive : bool) (generation : N) (frame : WireFrame) : cresult unit :=
  let unexpected := Err (Protocol ("unexpected barrier frame " +:+ debug_frame frame
                                   +:+ ", expected generation " +:+ pretty generation)) in
  match frame with
  | WBarrierArrive _ _ actual =>
      if expected_arrive && N.eqb actual generation then Ok tt else unexpected
  | WBarrierRelease _ _ actual =>
      if negb expected_arrive && N.eqb actual generation then Ok tt else unexpected
  | _ => unexpected
  end.

Definition barrier_error (self : TcpTransport) (generation : N) (error : CollectivesError)
  : CollectivesError :=
  if is_timeout_error error
  then BarrierTimeout (global_rank (rank self)) generation (operation_timeout self)
  else error.

(** What an endpoint does with its peers during a barrier, in the order of time:
    the barrier frame it takes from a peer, a frame it writes to one. *)
Inductive Exchange : Type :=
  | Took (source : nat) (frame : WireFrame)
  | Wrote (destination : nat) (frame : WireFrame).

(** [TcpTransport::recv_barrier], with the frame it takes. *)
Fixpoint recv_barrier (self : TcpTransport) (source : nat) (expected_arrive : bool)
  (generation : N) (evs : reads) : option (cresult unit) * TcpTransport * reads * list Exchange :=
  match take_first is_barrier (pending_of self source) with
  | Some (frame, rest) =>
      (Some (judge expected_arrive generation frame),
       set_pending self (<[source := rest]> (pending self)), evs, [Took source frame])
  | None =>
      match evs with
      | [] => (None, self, [], [])
      | read :: evs =>
          match map_err (barrier_error self generation) (read_from self source read) with
          | Err e => (Some (Err e), self, evs, [])
          | Ok (WTensor _ _ _ _ as frame) =>
              recv_barrier (push_pending self source frame) source expected_arrive generation evs
          | Ok frame => (Some (judge expected_arrive generation frame), self, evs, [Took source frame])
          end
      end
  end.

(** The streams of an endpoint during one barrier: what each peer's stream still
    delivers, and the log of what was taken and written so far. *)
Record Streams : Type := mkStreams
  { incoming : nat -> reads; log : list Exchange }.

Definition after_read (io : Streams) (source : nat) (evs : reads) (done : list Exchange) : Streams :=
  mkStreams (fun s => if Nat.eqb s source then evs else incoming io s) (log io ++ done).

(** [recv_barrier] for each source in turn. *)
Fixpoint collect_arrivals (self : TcpTransport) (io : Streams) (current : N) (sources : list nat)
  : option (cresult unit) * TcpTransport * Streams :=
  match sources with
  | [] => (Some (Ok tt), self, io)
  | source :: sources =>
      match recv_barrier self source true current (incoming io source) with
      | (Some (Ok _), self, evs, done) =>
          collect_arrivals self (after_read io source evs done) current sources
      | (out, self, evs, done) => (out, self, after_read io source evs done)
      end
  end.

Definition send_logged (self : TcpTransport) (written : WireFrame -> cresult unit)
  (destination : nat) (frame : WireFrame) (io : Streams) : cresult unit * Streams :=
  match send_frame self written destination frame with
  | Ok _ => (Ok tt, mkStreams (incoming io) (log io ++ [Wrote destination frame]))
  | Err e => (Err e, io)
  end.

Fixpoint send_releases (self : TcpTransport) (written : WireFrame -> cresult unit) (io : Streams)
  (current : N) (destinations : list nat) : cresult unit * Streams :=
  match destinations with
  | [] => (Ok tt, io)
  | destination :: destinations =>
      match send_logged self written destination (WBarrierRelease 0 destination current) io with
      | (Ok _, io) => send_releases self written io current destinations
      | failed => failed
      end
  end.

(** The end of [barrier]: the generation advances only after success. *)
Definition advance (self : TcpTransport) : cresult unit * TcpTransport :=
  match checked_add (barrier_generation self) 1 with
  | Some next => (Ok tt, set_generation self next)
  | None => (Err (Protocol "barrier generation overflow"), self)
  end.

(** [BarrierTransport::barrier]. *)
Definition barrier (self : TcpTransport) (written : WireFrame -> cresult unit) (io : Streams)
  : option (cresult unit) * TcpTransport * Streams :=
  let current := barrier_generation self in
  let rank_id := global_rank (rank self) in
  let others := seq 1 (world_size (rank self) - 1) in
  if Nat.eqb rank_id 0 then
    match collect_arrivals self io current others with
    | (Some (Ok _), self, io) =>
        match send_releases self written io current others with
        | (Ok _, io) => let '(out, self) := advance self in (Some out, self, io)
        | (Err e, io) => (Some (Err e), self, io)
        end
    | failed => failed
    end
  else
    match send_logged self written 0 (WBarrierArrive rank_id 0 current) io with
    | (Err e, io) => (Some (Err e), self, io)
    | (Ok _, io) =>
        match recv_barrier self 0 false current (incoming io 0) with
        | (Some (Ok _), self, evs, done) =>
            let '(out, self) := advance self in (Some out, self, after_read io 0 evs done)
        | (out, self, evs, done) => (out, self, after_read io 0 evs done)
        end
    end.

End Barrier.

(** ** The endpoint implements the mailbox *)

Definition wf (self : TcpTransport) : Prop :=
  length (pending self) = world_size (rank self) /\
  forall peer, Ranks.validate_peer (rank self) peer = Ok tt ->
    readers self !! peer = Some true /\ writers self !! peer = Some true.

Definition held (self : TcpTransport) (source : nat) : queue :=
  omap message_of (pending_of self source).

(** A read as the mailbox sees it; barrier frames are not messages. *)
Definition classify (self : TcpTransport) (source : nat) (read : cresult WireFrame)
  : option (Arrival CollectivesError) :=
  match read_from self source read with
  | Ok frame => Arrived <$> message_of frame
  | Err e => Some (Failed e)
  end.

Lemma pending_of_insert_eq self source q :
  source < length (pending self) ->
  pending_of (set_pending self (<[source := q]> (pending self))) source = q.
Proof. intros. unfold pending_of; cbn. by rewrite list_lookup_insert_eq. Qed.

Lemma pending_of_insert_ne self source s q :
  s <> source ->
  pending_of (set_pending self (<[source := q]> (pending self))) s = pending_of self s.
Proof. intros. unfold pending_of; cbn. by rewrite list_lookup_insert_ne. Qed.

Lemma wf_set_pending self source q :
  wf self -> wf (set_pending self (<[source := q]> (pending self))).
Proof. intros [H1 H2]. split; [cbn; by rewrite length_insert|exact H2]. Qed.

Lemma wf_peer_bound self source :
  wf self -> Ranks.validate_peer (rank self) source = Ok tt -> source < length (pending self).
Proof. intros [-> _] [H _]%Ranks.validate_peer_ok. done. Qed.

#[export] Hint Resolve wf_set_pending wf_peer_bound : dlir.

Lemma tcp_held_push self source f s :
  source < length (pending self) ->
  held (push_pending self source f) s =
  if decide (s = source) then held self s ++ omap message_of [f] else held self s.
Proof.
  intros. unfold held, push_pending. case_decide as E; subst.
  - by rewrite pending_of_insert_eq, omap_app.
  - by rewrite pending_of_insert_ne.
Qed.

Lemma tcp_recv_loop_mailbox {A} (sel : Message -> option A) self source tag evs :
  wf self -> Ranks.validate_peer (rank self) source = Ok tt ->
  take_first sel (held self source) = None ->
  let '(out, self', evs') := recv_loop sel self source tag evs in
  mailbox_receive sel source (held self) (held self')
    (omap (classify self source) evs) (omap (classify self source) evs') out.
Proof.
  revert self. induction evs as [|read evs IH]; intros self Hwf Hp Hnone; cbn.
  - split; [done|]. exists []. cbn. rewrite !app_nil_r. done.
  - assert (Hb := wf_peer_bound _ _ Hwf Hp). unfold classify at 1.
    destruct (read_from self source read) as [f|e] eqn:Hread; cbn.
    + specialize (IH (push_pending self source f) (wf_set_pending _ _ _ Hwf) Hp).
      assert (Hheld := tcp_held_push self source f source Hb).
      rewrite decide_True in Hheld by done. rewrite Hheld in IH. cbn in IH, Hheld.
      assert (Hoth : forall s, s <> source -> held (push_pending self source f) s = held self s)
        by (intros; by rewrite tcp_held_push, decide_False).
      destruct (message_of f) as [m|] eqn:Hm; cbn.
      * rewrite (take_first_app_None _ _ _ Hnone) in IH. cbn in IH.
        destruct (sel m) as [p|] eqn:E.
        -- split; [done|]. exists [Arrived m]. cbn. split; [done|].
           rewrite (take_first_app_None _ _ _ Hnone). cbn. rewrite E. cbn.
           rewrite app_nil_r. split; [done|]. repeat constructor. eauto.
        -- destruct (recv_loop sel (push_pending self source f) source tag evs)
             as [[out self'] evs'] eqn:Hr.
           destruct (IH eq_refl) as (Hs & c & Hc & Hout). split.
           { intros s ?. rewrite Hs, Hoth; done. }
           exists (Arrived m :: c). cbn. split; [exact (f_equal (cons _) Hc)|].
           cbn [arrived]. destruct out as [[p|err]|]; rewrite Hheld, <- app_assoc in Hout; [|done..].
           destruct Hout as [? ?]. split; [done|]. constructor; eauto.
      * rewrite app_nil_r in IH, Hheld.
        destruct (recv_loop sel (push_pending self source f) source tag evs)
          as [[out self'] evs'] eqn:Hr.
        destruct (IH Hnone) as (Hs & c & Hc & Hout). split.
        { intros s ?. rewrite Hs, Hoth; done. }
        exists c. split; [exact Hc|].
        destruct out as [[p|err]|]; rewrite Hheld in Hout; exact Hout.
    + split; [done|]. exists [Failed e]. cbn. by rewrite app_nil_r.
Qed.

(** C27: the TCP endpoint implements the same mailbox as the in-memory one: for
    every sequence of frames and failures its stream delivers, a receive
    returns the first message from that source with that tag and kind, in
    sending order; skipped messages stay available in order; errors lose
    nothing and other sources are untouched. *)
Theorem tcp_recv_mailbox {A} (sel : Message -> option A) self source tag evs :
  wf self -> Ranks.validate_peer (rank self) source = Ok tt ->
  let '(out, self', evs') := recv_payload sel self source tag evs in
  mailbox_receive sel source (held self) (held self')
    (omap (classify self source) evs) (omap (classify self source) evs') out.
Proof.
  intros Hwf Hp. unfold recv_payload, take_pending. rewrite Hp.
  pose proof (take_first_omap message_of sel (pending_of self source)) as Ht.
  destruct (take_first _ (pending_of self source)) as [[p rest]|].
  - split.
    + intros s ?. unfold held. by rewrite pending_of_insert_ne.
    + exists []. cbn. rewrite app_nil_r. split; [done|]. split; [|done].
      unfold held. rewrite pending_of_insert_eq by auto with dlir. exact Ht.
  - by apply tcp_recv_loop_mailbox.
Qed.

(** ** The barrier *)

Definition frame_read (read : cresult WireFrame) : option WireFrame :=
  match read with Ok f => Some f | Err _ => None end.

(** The frames of [source] an endpoint still has: those it keeps, then those
    its stream still delivers. *)
Definition queued (self : TcpTransport) (io : Streams) (source : nat) : list WireFrame :=
  pending_of self source ++ omap frame_read (incoming io source).

(** The frame [f] leaves a queue; the rest keep their order. *)
Definition took (f : WireFrame) (q q' : list WireFrame) : Prop :=
  exists l r, q = l ++ f :: r /\ q' = l ++ r.

Definition is_arrive (generation : N) (f : WireFrame) : Prop :=
  exists s d, f = WBarrierArrive s d generation.
Definition is_release (generation : N) (f : WireFrame) : Prop :=
  exists s d, f = WBarrierRelease s d generation.
Definition expected_frame (expected_arrive : bool) (generation : N) : WireFrame -> Prop :=
  if expected_arrive then is_arrive generation else is_release generation.

(** Everything but the pending frames is as before. *)
Definition same_but_pending (self self' : TcpTransport) : Prop :=
  self' = set_pending self (pending self').

Lemma same_but_pending_refl a : same_but_pending a a.
Proof. by destruct a. Qed.

Lemma same_but_pending_trans a b c :
  same_but_pending a b -> same_but_pending b c -> same_but_pending a c.
Proof. unfold same_but_pending. intros -> ->. done. Qed.

Lemma judge_Ok debug_frame e g f : judge debug_frame e g f = Ok tt -> expected_frame e g f.
Proof.
  unfold judge, expected_frame, is_arrive, is_release.
  destruct f as [| |s d a|s d a], e; cbn; try done; destruct (N.eqb_spec a g); try done;
    intros _; subst; eauto.
Qed.

Lemma read_from_Ok self source read f : read_from self source read = Ok f -> read = Ok f.
Proof. unfold read_from. intros H. inv_ok H. by subst. Qed.

Lemma recv_barrier_Ok debug_frame self source e g evs self' evs' done :
  wf self -> Ranks.validate_peer (rank self) source = Ok tt ->
  recv_barrier debug_frame self source e g evs = (Some (Ok tt), self', evs', done) ->
  same_but_pending self self' /\ wf self' /\
  (forall s, s <> source -> pending_of self' s = pending_of self s) /\
  exists f, expected_frame e g f /\ done = [Took source f] /\
    took f (pending_of self source ++ omap frame_read evs)
      (pending_of self' source ++ omap frame_read evs').
Proof.
  revert self. induction evs as [|read evs IH]; intros self Hwf Hp; cbn [recv_barrier];
    assert (Hb := wf_peer_bound _ _ Hwf Hp);
    destruct (take_first is_barrier (pending_of self source)) as [[f rest]|] eqn:Ht;
    try discriminate.
  1, 2: intros H; injection H as Hj <- <- <-;
    (split; [done|]); (split; [by apply wf_set_pending|]);
    (split; [intros; by apply pending_of_insert_ne|]);
    rewrite pending_of_insert_eq by done;
    apply take_first_Some in Ht as (l & a & r & Hq & -> & Ha & _);
    assert (a = f) as -> by (destruct a; cbn in Ha; congruence);
    rewrite Hq; exists f; (split; [by eapply judge_Ok|]); (split; [done|]);
    eexists l, (r ++ _); rewrite <- !app_assoc; done.
  destruct (read_from self source read) as [f|err] eqn:Hr; [|done].
  apply read_from_Ok in Hr as ->.
  destruct f; cbn [map_err];
    [|destruct (judge _ _ _ _) as [[]|] eqn:Hj; [|discriminate]; intros H; injection H as <- <- <-;
      apply judge_Ok in Hj; split; [apply same_but_pending_refl|]; split; [done|]; split; [done|];
      eexists; (split; [exact Hj|]); (split; [done|]); by eexists (pending_of self source), _..].
  intros H. apply IH in H as (H1 & H2 & H3 & H4); [|by apply wf_set_pending|exact Hp].
  split; [exact (same_but_pending_trans self _ self' eq_refl H1)|]. split; [done|]. split.
  - intros s Hs. rewrite H3 by done. by apply pending_of_insert_ne.
  - unfold push_pending in H4. rewrite pending_of_insert_eq, <- app_assoc in H4 by done. exact H4.
Qed.

(** [frames] are the barrier frames taken from [sources], one each. *)
Definition took_each (e : bool) (g : N) (self self' : TcpTransport) (io io' : Streams) (sources : list nat)
  (frames : list WireFrame) : Prop :=
  Forall2 (fun s f => expected_frame e g f /\ took f (queued self io s) (queued self' io' s)) sources frames /\
  forall s, s ∉ sources -> queued self' io' s = queued self io s.

Lemma recv_barrier_takes debug_frame self io source e g self' evs done :
  wf self -> Ranks.validate_peer (rank self) source = Ok tt ->
  recv_barrier debug_frame self source e g (incoming io source) = (Some (Ok tt), self', evs, done) ->
  same_but_pending self self' /\ wf self' /\
  exists f, done = [Took source f] /\
    took_each e g self self' io (after_read io source evs done) [source] [f].
Proof.
  intros Hwf Hp H. apply recv_barrier_Ok in H as (H1 & H2 & H3 & f & H4 & H5 & H6); [|done..].
  split; [done|]. split; [done|]. exists f. split; [done|]. split.
  - constructor; [|constructor]. split; [done|]. unfold queued; cbn. by rewrite Nat.eqb_refl.
  - intros s Hs%not_elem_of_cons. unfold queued; cbn. destruct (Nat.eqb_spec s source); [tauto|].
    by rewrite H3.
Qed.

Lemma took_each_cons e g self self1 self' io io1 io' s f sources frames :
  s ∉ sources -> took_each e g self self1 io io1 [s] [f] -> took_each e g self1 self' io1 io' sources frames ->
  took_each e g self self' io io' (s :: sources) (f :: frames).
Proof.
  intros Hs [Hf Hother] [Hframes Hrest]. apply List.Forall2_cons_iff in Hf as [[He Ht] _]. split.
  - constructor; [split; [done|by rewrite Hrest]|].
    apply Forall2_same_length_lookup_2; [by eapply Forall2_length|]. intros i s' f' Hs' Hf'.
    destruct (Forall2_lookup_lr _ _ _ _ _ _ Hframes Hs' Hf') as [He' Ht']. split; [done|].
    rewrite Hother in Ht'; [done|]. apply list_elem_of_lookup_2 in Hs'. set_solver.
  - intros s' Hs'. rewrite Hrest, Hother; set_solver.
Qed.

Lemma collect_arrivals_Ok debug_frame g sources self io self' io' :
  wf self -> NoDup sources ->
  Forall (fun s => Ranks.validate_peer (rank self) s = Ok tt) sources ->
  collect_arrivals debug_frame self io g sources = (Some (Ok tt), self', io') ->
  same_but_pending self self' /\ wf self' /\
  exists frames, took_each true g self self' io io' sources frames /\
    log io' = log io ++ zip_with Took sources frames.
Proof.
  revert self io. induction sources as [|s sources IH]; intros self io Hwf Hnd Hv; cbn.
  - intros H; injection H as <- <-. split; [apply same_but_pending_refl|]. split; [done|].
    exists []. cbn. rewrite app_nil_r. by repeat split.
  - apply list.NoDup_cons in Hnd as [Hs Hnd]. apply List.Forall_cons_iff in Hv as [Hp Hv].
    destruct (recv_barrier _ _ _ _ _ _) as [[[[[[]|]|] self1] evs] taken] eqn:Hr; try done.
    apply recv_barrier_takes in Hr as (E1 & W1 & f & -> & T1); [|done..].
    intros H. apply IH in H as (E2 & W2 & frames & T2 & L2); [|done|done|by rewrite E1].
    split; [by eapply same_but_pending_trans|]. split; [done|]. exists (f :: frames). split.
    + by eapply took_each_cons.
    + rewrite L2. cbn. by rewrite <- app_assoc.
Qed.

Lemma send_releases_Ok self written io g ds io' :
  send_releases self written io g ds = (Ok tt, io') ->
  incoming io' = incoming io /\
  log io' = log io ++ map (fun d => Wrote d (WBarrierRelease 0 d g)) ds.
Proof.
  revert io. induction ds as [|d ds IH]; intros io; cbn.
  - intros [= <-]. by rewrite app_nil_r.
  - unfold send_logged. destruct (send_frame _ _ _ _) as [[]|]; [|done].
    intros [H1 H2]%IH. cbn in *. by rewrite H2, <- app_assoc.
Qed.

Lemma took_each_incoming e g self self' io io1 io' sources frames :
  incoming io1 = incoming io' -> took_each e g self self' io io1 sources frames ->
  took_each e g self self' io io' sources frames.
Proof. unfold took_each, queued. by intros ->. Qed.

(** C35: a TCP barrier that returns [Ok] has synchronised its rank.  Rank 0 takes
    an arrival of the current generation from every other rank, and only then
    writes one release to each; another rank first writes its arrival to rank 0
    and then takes a release of the current generation: the log gives what was
    taken and written in the order of time.  All other frames stay queued in
    order, and the generation advances by exactly one. *)
Theorem tcp_barrier_passes debug_frame self written io self' io' :
  wf self -> Ranks.valid (rank self) ->
  barrier debug_frame self written io = (Some (Ok tt), self', io') ->
  let g := barrier_generation self in
  let w := world_size (rank self) in
  let r := global_rank (rank self) in
  let sources := if Nat.eqb r 0 then seq 1 (w - 1) else [0] in
  barrier_generation self' = (g + 1)%N /\ (g + 1 < U64)%N /\
  exists frames,
    took_each (Nat.eqb r 0) g self self' io io' sources frames /\
    log io' = log io ++
      (if Nat.eqb r 0
       then zip_with Took sources frames ++ map (fun d => Wrote d (WBarrierRelease 0 d g)) sources
       else Wrote 0 (WBarrierArrive r 0 g) :: zip_with Took sources frames).
Proof.
  intros Hwf Hvalid. unfold barrier, advance. destruct (Nat.eqb_spec (global_rank (rank self)) 0) as [H0|H0].
  - destruct (collect_arrivals _ _ _ _ _) as [[[[[]|]|] self1] io1] eqn:Hc; try done.
    destruct (send_releases _ _ _ _ _) as [[[]|] io2] eqn:Hs; [|done].
    apply collect_arrivals_Ok in Hc as (E1 & W1 & frames & T1 & L1); [|done|apply NoDup_seq|].
    + apply send_releases_Ok in Hs as [I2 L2].
      destruct (checked_add _ _) eqn:Ha; [|done]. apply checked_add_Some in Ha as [-> Ha].
      rewrite E1 in Ha |- *. cbn in Ha. intros H. injection H as <- <-. cbn.
      split; [done|]. split; [done|]. exists frames. split; [|by rewrite L2, L1, <- app_assoc].
      rewrite E1 in T1. by eapply took_each_incoming.
    + apply List.Forall_forall. intros s Hin%list_elem_of_In%elem_of_seq.
      apply Ranks.validate_peer_ok. lia.
  - unfold send_logged. destruct (send_frame _ _ _ _) as [[]|]; [|done]. cbn [incoming].
    destruct (recv_barrier _ _ _ _ _ _) as [[[[[[]|]|] self1] evs] taken] eqn:Hr; try done.
    apply recv_barrier_takes in Hr as (E1 & W1 & f & -> & T1); [|done|].
    + destruct (checked_add _ _) eqn:Ha; [|done]. apply checked_add_Some in Ha as [-> Ha].
      intros H. injection H as <- <-. cbn. rewrite E1 in Ha |- *. cbn in Ha |- *.
      split; [done|]. split; [done|]. exists [f]. rewrite E1 in T1. split; [exact T1|].
      cbn. by rewrite <- app_assoc.
    + apply Ranks.validate_peer_ok. unfold Ranks.valid in *. lia.
Qed.

(** A control frame still undelivered when a barrier starts is a protocol error
    here and is discarded, while the shared-memory barrier of [InMemory.v] does
    not look at messages: the two transports differ on this schedule. *)
Lemma tcp_barrier_rejects_control debug_frame self source g tag pk evs :
  wf self -> Ranks.validate_peer (rank self) source = Ok tt ->
  take_first is_barrier (pending_of self source) = None ->
  let frame := WControl source (global_rank (rank self)) tag pk in
  recv_barrier debug_frame self source true g (Ok frame :: evs) =
  (Some (Err (Protocol ("unexpected barrier frame " +:+ debug_frame frame
                        +:+ ", expected generation " +:+ pretty g))), self, evs, [Took source frame]).
Proof.
  intros Hwf Hp Hn frame. assert (Hr : readers self !! source = Some true) by (by apply Hwf).
  cbn [recv_barrier]. rewrite Hn. unfold read_from, expect_stream. rewrite Hp, Hr.
  cbn [mbind result_bind frame frame_source frame_destination].
  by rewrite !Nat.eqb_refl.
Qed.

(** ** Rendezvous *)

(** [struct Registration], [enum RendezvousResponse]. *)
Record Registration : Type := mkRegistration
  { reg_protocol_version : N; reg_run_id : string; reg_rank : nat; reg_world_size : nat;
    reg_advertise_addr : string }.
Inductive RendezvousResponse : Type :=
| RendezvousReady (peers : list PeerInfo)
| RendezvousError (message : string).

(** The validation chain of [run_rendezvous_server]. *)
Definition registration_error (registrations : list (option Registration)) (run_id : string)
  (world_size : nat) (r : Registration) : option string :=
  let name := "rank " +:+ pretty (reg_rank r) in
  if negb (N.eqb (reg_protocol_version r) PROTOCOL_VERSION) then
    Some (name +:+ " uses protocol " +:+ pretty (reg_protocol_version r) +:+ ", expected "
          +:+ pretty PROTOCOL_VERSION)
  else if negb (String.eqb (reg_run_id r) run_id) then
    Some (name +:+ " supplied a different run ID")
  else if negb (Nat.eqb (reg_world_size r) world_size) then
    Some (name +:+ " supplied world size " +:+ pretty (reg_world_size r) +:+ ", expected "
          +:+ pretty world_size)
  else if Nat.leb world_size (reg_rank r) then
    Some (name +:+ " is outside world size " +:+ pretty world_size)
  else if bool_decide (is_Some (mjoin (registrations !! reg_rank r))) then
    Some (name +:+ " registered more than once")
  else if blank (reg_advertise_addr r) then
    Some (name +:+ " advertised an empty address")
  else if existsb (fun e => String.eqb (reg_advertise_addr e) (reg_advertise_addr r))
            (omap id registrations) then
    Some (name +:+ " advertised duplicate address " +:+ reg_advertise_addr r)
  else None.

(** The accept loop: [accepted] are the results of accepting a connection and
    reading its registration; connections are numbered as they arrive.  The
    responses written are listed with their connection; the failures of the
    writes on the error path are ignored, as the code does. *)
Fixpoint registration_loop (run_id : string) (world_size : nat)
  (registrations : list (option Registration)) (clients : list (option nat))
  (connection : nat) (accepted : list (cresult Registration))
  : option (cresult (list (option Registration) * list (option nat)))
    * list (nat * RendezvousResponse) :=
  if bool_decide (Exists (fun r => r = None) registrations) then
    match accepted with
    | [] => (None, [])
    | Err e :: _ => (Some (Err e), [])
    | Ok r :: accepted =>
        match registration_error registrations run_id world_size r with
        | Some message =>
            (Some (Err (Rendezvous message)),
             map (fun c => (c, RendezvousError message)) (connection :: omap id clients))
        | None =>
            registration_loop run_id world_size (<[reg_rank r := Some r]> registrations)
              (<[reg_rank r := Some connection]> clients) (S connection) accepted
        end
    end
  else (Some (Ok (registrations, clients)), []).

Definition peer_table (registrations : list (option Registration)) : cresult (list PeerInfo) :=
  mapM (fun '(rank, r) =>
          r ← ok_or r (WorkerPanicked 0 "all ranks registered");
          Ok (mkPeerInfo rank (reg_advertise_addr r)))
    (imap pair registrations).

Fixpoint send_tables (written : nat -> cresult unit) (peers : list PeerInfo) (clients : list nat)
  : cresult unit * list (nat * RendezvousResponse) :=
  match clients with
  | [] => (Ok tt, [])
  | c :: clients =>
      match written c with
      | Err e => (Err e, [])
      | Ok _ =>
          let '(out, responses) := send_tables written peers clients in
          (out, (c, RendezvousReady peers) :: responses)
      end
  end.

(** [run_rendezvous_server]. *)
Definition run_rendezvous_server (written : nat -> cresult unit) (run_id : string)
  (world_size : nat) (accepted : list (cresult Registration))
  : option (cresult unit) * list (nat * RendezvousResponse) :=
  match registration_loop run_id world_size (replicate world_size None)
          (replicate world_size None) 0 accepted with
  | (None, responses) => (None, responses)
  | (Some (Err e), responses) => (Some (Err e), responses)
  | (Some (Ok (registrations, clients)), _) =>
      match peer_table registrations with
      | Err e => (Some (Err e), [])
      | Ok peers =>
          let '(out, responses) := send_tables written peers (omap id clients) in
          (Some out, responses)
      end
  end.

(** [register_with_rendezvous]: what a rank sends, and what it makes of the
    answer. *)
Definition registration_of (config : TcpTransportConfig) : Registration :=
  mkRegistration PROTOCOL_VERSION (cfg_run_id config) (global_rank (cfg_rank config))
    (world_size (cfg_rank config)) (cfg_advertise_addr config).

Definition accept_peer_table (config : TcpTransportConfig) (response : cresult RendezvousResponse)
  : cresult (list PeerInfo) :=
  response ← response;
  match response with
  | RendezvousReady peers =>
      if negb (Nat.eqb (length peers) (world_size (cfg_rank config)))
         || existsb id (imap (fun rank peer => negb (Nat.eqb (peer_rank peer) rank)) peers)
      then Err (Rendezvous "coordinator returned a malformed peer table")
      else Ok peers
  | RendezvousError message => Err (Rendezvous message)
  end.

(** ** Mesh *)

(** [struct PeerHandshake], [enum HandshakeResponse]. *)
Record PeerHandshake : Type := mkHandshake
  { hs_protocol_version : N; hs_run_id : string; hs_world_size : nat; hs_source : nat;
    hs_destination : nat }.
Inductive HandshakeResponse : Type :=
| HandshakeReady
| HandshakeError (message : string).

(** [validate_handshake]. *)
Definition validate_handshake (h : PeerHandshake) (run_id : string) (world_size destination : nat)
  : option string :=
  if negb (N.eqb (hs_protocol_version h) PROTOCOL_VERSION) then
    Some ("peer uses protocol " +:+ pretty (hs_protocol_version h) +:+ ", expected "
          +:+ pretty PROTOCOL_VERSION)
  else if negb (String.eqb (hs_run_id h) run_id) then Some "peer supplied a different run ID"
  else if negb (Nat.eqb (hs_world_size h) world_size) then
    Some "peer supplied a different world size"
  else if negb (Nat.eqb (hs_destination h) destination) then
    Some ("peer targeted rank " +:+ pretty (hs_destination h) +:+ ", accepted by rank "
          +:+ pretty destination)
  else if Nat.leb world_size (hs_source h) || Nat.eqb (hs_source h) destination then
    Some ("invalid peer source rank " +:+ pretty (hs_source h))
  else None.

Definition or_else {A} (a b : option A) : option A :=
  match a with Some x => Some x | None => b end.

Definition handshake_error (run_id : string) (world_size rank : nat) (incoming : list nat)
  (h : PeerHandshake) : option string :=
  or_else (or_else (validate_handshake h run_id world_size rank)
    (if Nat.leb rank (hs_source h)
     then Some ("rank " +:+ pretty rank +:+ " accepts only lower-ranked dialers") else None))
    (if existsb (Nat.eqb (hs_source h)) incoming
     then Some ("rank " +:+ pretty (hs_source h) +:+ " connected more than once") else None).

(** The accept thread: results of accepting and reading a handshake, each with
    the result of writing the [Ready] answer. *)
Fixpoint accept_loop (run_id : string) (world_size rank : nat) (incoming : list nat)
  (accepted : list (cresult PeerHandshake * cresult unit)) : option (cresult (list nat)) :=
  if Nat.ltb (length incoming) rank then
    match accepted with
    | [] => None
    | (h, written) :: accepted =>
        match h with
        | Err e => Some (Err e)
        | Ok h =>
            match handshake_error run_id world_size rank incoming h, written with
            | Some message, _ => Some (Err (Protocol message))
            | None, Err e => Some (Err e)
            | None, Ok _ =>
                accept_loop run_id world_size rank (incoming ++ [hs_source h]) accepted
            end
        end
    end
  else Some (Ok incoming).

(** The dialing loop; [answer] is what the peer replies to the handshake. *)
Definition handshake_for (config : TcpTransportConfig) (peer : PeerInfo) : PeerHandshake :=
  mkHandshake PROTOCOL_VERSION (cfg_run_id config) (world_size (cfg_rank config))
    (global_rank (cfg_rank config)) (peer_rank peer).

Definition dial (config : TcpTransportConfig)
  (answer : string -> PeerHandshake -> cresult HandshakeResponse) (peer : PeerInfo)
  : cresult nat :=
  response ← answer (peer_address peer) (handshake_for config peer);
  match response with
  | HandshakeReady => Ok (peer_rank peer)
  | HandshakeError message => Err (Protocol message)
  end.

(** [establish_full_mesh]; [None] is the accept thread still waiting. *)
Definition establish_full_mesh (config : TcpTransportConfig) (peers : list PeerInfo)
  (answer : string -> PeerHandshake -> cresult HandshakeResponse)
  (accepted : list (cresult PeerHandshake * cresult unit)) : option (cresult (list nat)) :=
  let rank := global_rank (cfg_rank config) in
  let world_size := world_size (cfg_rank config) in
  match mapM (dial config answer) (drop (rank + 1) peers) with
  | Err e => Some (Err e)
  | Ok streams =>
      match accept_loop (cfg_run_id config) world_size rank [] accepted with
      | None => None
      | Some (Err e) => Some (Err e)
      | Some (Ok incoming) =>
          let streams := merge_sort le (streams ++ incoming) in
          if negb (Nat.eqb (length streams) (world_size - 1)) then
            Some (Err (Protocol ("rank " +:+ pretty rank +:+ " established "
                    +:+ pretty (length streams) +:+ " of " +:+ pretty (world_size - 1)
                    +:+ " peer connections")))
          else Some (Ok streams)
      end
  end.

(** ** Startup is complete *)

Lemma seq_sorted a n : Sorted le (seq a n).
Proof.
  apply StronglySorted_Sorted. revert a. induction n as [|n IH]; intros a; cbn; constructor; [done|].
  apply List.Forall_forall. intros x Hx%list_elem_of_In%elem_of_seq. lia.
Qed.

Lemma sort_unique l k : Sorted le k -> l ≡ₚ k -> merge_sort le l = k.
Proof.
  intros Hk Hp. apply (Sorted_unique le).
  - apply Sorted_merge_sort. intros x y; lia.
  - done.
  - by rewrite merge_sort_Permutation.
Qed.

Lemma accept_peer_table_Ok config peers peers' :
  accept_peer_table config (Ok (RendezvousReady peers)) = Ok peers' ->
  peers' = peers /\ map peer_rank peers = seq 0 (world_size (cfg_rank config)).
Proof.
  cbn. destruct (_ || _) eqn:E; [done|]. intros [= <-]. split; [done|].
  apply orb_false_iff in E as [Hl%negb_false_iff%Nat.eqb_eq Hr]. rewrite <- Hl. clear -Hr.
  enough (forall k, existsb id (imap (fun i p => negb (Nat.eqb (peer_rank p) (k + i))) peers) = false ->
          map peer_rank peers = seq k (length peers)) as H by (by apply (H 0)).
  clear. induction peers as [|p ps IH]; intros k; cbn; [done|].
  intros [Hp%negb_false_iff%Nat.eqb_eq H]%orb_false_iff. rewrite Nat.add_0_r in Hp. rewrite Hp.
  f_equal. apply (IH (S k)). rewrite <- H. f_equal. apply imap_ext. intros. cbn.
  by rewrite Nat.add_succ_r.
Qed.

Lemma dial_Ok config answer p s : dial config answer p = Ok s -> s = peer_rank p.
Proof. unfold dial. intros H. inv_ok H. destruct x; cbn in *; [|done]. congruence. Qed.

Lemma dial_all_Ok config answer peers streams :
  mapM (dial config answer) peers = Ok streams -> streams = map peer_rank peers.
Proof.
  intros H%mapM_Forall2. induction H as [|p s ps ss Hs _ IH]; [done|].
  cbn. f_equal; [|done]. by eapply dial_Ok.
Qed.

Lemma existsb_eqb_not_elem (l : list nat) x : existsb (Nat.eqb x) l = false -> x ∉ l.
Proof.
  induction l as [|y l IH]; cbn; [set_solver|]. intros [?%Nat.eqb_neq ?]%orb_false_iff. set_solver.
Qed.

Lemma handshake_error_None run_id w r incoming h :
  handshake_error run_id w r incoming h = None -> hs_source h < r /\ hs_source h ∉ incoming.
Proof.
  unfold handshake_error. destruct (validate_handshake _ _ _ _); [done|]. cbn.
  destruct (Nat.leb_spec r (hs_source h)); [done|]. cbn.
  destruct (existsb _ _) eqn:E; [done|]. auto using existsb_eqb_not_elem.
Qed.

Lemma accept_loop_Ok run_id w r incoming accepted l :
  NoDup incoming -> Forall (fun x => x < r) incoming -> length incoming <= r ->
  accept_loop run_id w r incoming accepted = Some (Ok l) ->
  NoDup l /\ Forall (fun x => x < r) l /\ length l = r.
Proof.
  revert incoming. induction accepted as [|[h written] accepted IH]; intros incoming Hn Hb Hl;
    cbn [accept_loop];
    destruct (Nat.ltb_spec (length incoming) r); try done;
    try (intros [= <-]; split_and!; [done|done|lia]).
  destruct h as [h|]; [|done].
  destruct (handshake_error _ _ _ _ _) eqn:E; [done|]. apply handshake_error_None in E as [E1 E2].
  destruct written; [|done]. apply IH.
  - apply list.NoDup_app. split; [done|]. split; [set_solver|apply NoDup_singleton].
  - apply List.Forall_app. split; [done|]. constructor; [done|constructor].
  - rewrite length_app. cbn. lia.
Qed.

Lemma fill_slots_lookup (streams : list nat) slots p :
  p < length slots -> (p ∈ streams \/ slots !! p = Some true) ->
  foldl (fun slots peer => <[peer := true]> slots) slots streams !! p = Some true.
Proof.
  revert slots. induction streams as [|s streams IH]; intros slots Hp Hin; cbn; [set_solver|].
  apply IH; [by rewrite length_insert|]. destruct (decide (s = p)) as [->|].
  - right. by apply list_lookup_insert_eq.
  - rewrite list_lookup_insert_ne by done. set_solver.
Qed.

(** When [establish_full_mesh] succeeds a rank is connected to every other
    rank of the world exactly once, whatever the order in which lower ranks
    dialed in, and the endpoint [connect] builds has a reader and a writer for
    every valid peer, so no [expect] on a peer slot can fail. *)
Theorem full_mesh_complete config peers answer accepted streams :
  Ranks.valid (cfg_rank config) ->
  accept_peer_table config (Ok (RendezvousReady peers)) = Ok peers ->
  establish_full_mesh config peers answer accepted = Some (Ok streams) ->
  let r := global_rank (cfg_rank config) in
  streams = seq 0 r ++ seq (S r) (world_size (cfg_rank config) - S r) /\
  wf (assemble config peers streams).
Proof.
  intros Hv [_ Ht]%accept_peer_table_Ok. unfold establish_full_mesh, Ranks.valid in *.
  set (r := global_rank (cfg_rank config)) in *. set (w := world_size (cfg_rank config)) in *.
  destruct (mapM _ _) as [dialed|] eqn:Hd; [|done].
  apply dial_all_Ok in Hd. rewrite <- skipn_map, Ht in Hd.
  destruct (accept_loop _ _ _ _ _) as [[incoming|]|] eqn:Ha; [|done..].
  apply accept_loop_Ok in Ha as (H1 & H2 & H3); [|constructor|constructor|cbn; lia].
  destruct (negb _); [done|]. intros [= <-].
  assert (E : merge_sort le (dialed ++ incoming) = seq 0 r ++ seq (S r) (w - S r)).
  { apply sort_unique.
    - apply StronglySorted_Sorted, StronglySorted_app. split_and!.
      + intros x y [_ ?]%elem_of_seq [? _]%elem_of_seq. lia.
      + apply Sorted_StronglySorted, seq_sorted. apply _.
      + apply Sorted_StronglySorted, seq_sorted. apply _.
    - rewrite (distinct_below_perm _ _ H1 H2 H3), Hd, skipn_seq, Permutation_app_comm.
      by rewrite Nat.add_1_r. }
  rewrite E. split; [done|]. split; cbn; [by rewrite length_replicate|].
  intros p [Hp Hne]%Ranks.validate_peer_ok.
  rewrite fill_slots_lookup; [done|by rewrite length_replicate|left].
  apply elem_of_app. rewrite !elem_of_seq. fold r w in Hne, Hp |- *. lia.
Qed.

(** What the accept loop maintains: every registration kept is valid for its
    slot, came on the connection kept for that slot, and has its own address. *)
Record registered (run_id : string) (w : nat) (all : list (cresult Registration))
  (registrations : list (option Registration)) (clients : list (option nat)) : Prop := mkRegistered
  { reg_length : length registrations = w;
    reg_clients_length : length clients = w;
    reg_slots : forall i r, registrations !! i = Some (Some r) ->
      r = mkRegistration PROTOCOL_VERSION run_id i w (reg_advertise_addr r) /\
      blank (reg_advertise_addr r) = false /\
      exists n, clients !! i = Some (Some n) /\ all !! n = Some (Ok r);
    reg_distinct : forall i j r r', registrations !! i = Some (Some r) ->
      registrations !! j = Some (Some r') -> reg_advertise_addr r = reg_advertise_addr r' -> i = j }.

Lemma registration_error_None registrations run_id w r :
  registration_error registrations run_id w r = None ->
  r = mkRegistration PROTOCOL_VERSION run_id (reg_rank r) w (reg_advertise_addr r) /\
  reg_rank r < w /\ blank (reg_advertise_addr r) = false /\
  forall i r', registrations !! i = Some (Some r') ->
    reg_advertise_addr r' <> reg_advertise_addr r.
Proof.
  unfold registration_error.
  destruct (N.eqb_spec (reg_protocol_version r) PROTOCOL_VERSION) as [E1|]; [|done].
  destruct (String.eqb_spec (reg_run_id r) run_id) as [E2|]; [|done].
  destruct (Nat.eqb_spec (reg_world_size r) w) as [E3|]; [|done].
  destruct (Nat.leb_spec w (reg_rank r)); [done|]. cbn [negb].
  destruct (bool_decide _); [done|]. destruct (blank _) eqn:E4; [done|].
  destruct (existsb _ _) eqn:E5; [done|]. intros _. destruct r; cbn in *. subst.
  split_and!; [done..|]. intros i r' Hi Ha.
  assert (existsb (fun e => String.eqb (reg_advertise_addr e) reg_advertise_addr0)
            (omap id registrations) = true); [|congruence].
  apply existsb_exists. exists r'. split; [|by apply String.eqb_eq].
  apply list_elem_of_In, list_elem_of_omap. exists (Some r'). split; [|done].
  by apply list_elem_of_lookup_2 in Hi.
Qed.

Lemma registered_insert run_id w all registrations clients r n :
  registered run_id w all registrations clients ->
  registration_error registrations run_id w r = None -> all !! n = Some (Ok r) ->
  registered run_id w all (<[reg_rank r := Some r]> registrations)
    (<[reg_rank r := Some n]> clients).
Proof.
  intros [L1 L2 S D] (Hr & Hlt & Hb & Hnew)%registration_error_None Hn.
  split; [by rewrite length_insert..| |].
  - intros i r' Hi. destruct (decide (i = reg_rank r)) as [->|Hne].
    + rewrite list_lookup_insert_eq in Hi by lia. injection Hi as <-. split_and!; [done..|].
      exists n. split; [|done]. rewrite list_lookup_insert_eq; [done|lia].
    + rewrite list_lookup_insert_ne in Hi by done. rewrite list_lookup_insert_ne by done.
      by apply S.
  - intros i j a b Hi Hj Hab.
    destruct (decide (i = reg_rank r)) as [->|Hi'], (decide (j = reg_rank r)) as [->|Hj'];
      repeat first [rewrite list_lookup_insert_eq in Hi by lia
        | rewrite list_lookup_insert_eq in Hj by lia
        | rewrite list_lookup_insert_ne in Hi by done
        | rewrite list_lookup_insert_ne in Hj by done]; simplify_eq; try done.
    + by apply Hnew in Hj.
    + by apply Hnew in Hi.
    + by eapply D.
Qed.

Lemma registration_loop_Ok run_id w all registrations clients accepted rs cs :
  registered run_id w all registrations clients -> accepted = drop (length all - length accepted) all ->
  length accepted <= length all ->
  (registration_loop run_id w registrations clients (length all - length accepted) accepted).1
    = Some (Ok (rs, cs)) ->
  registered run_id w all rs cs /\ Forall (fun r => r <> None) rs.
Proof.
  revert registrations clients.
  induction accepted as [|[r|e] accepted IH]; intros registrations clients Hreg Hsuf Hle;
    cbn [registration_loop]; destruct (bool_decide _) eqn:Hex; try done.
  1, 3, 4: intros [= <- <-]; split; [done|];
    apply bool_decide_eq_false in Hex; by apply not_Exists_Forall in Hex; [|apply _].
  destruct (registration_error _ _ _ _) eqn:He; [done|].
  assert (Hn : all !! (length all - S (length accepted)) = Some (Ok r)).
  { rewrite <- (Nat.add_0_r (length all - _)), <- lookup_drop. by cbn in Hsuf; rewrite <- Hsuf. }
  cbn [length] in *.
  assert (Hs : S (length all - S (length accepted)) = length all - length accepted) by lia.
  rewrite Hs. apply IH; [by apply registered_insert| |lia].
  rewrite <- Hs, <- Nat.add_1_r, <- drop_drop, <- Hsuf. done.
Qed.

Lemma registered_initial run_id w all :
  registered run_id w all (replicate w None) (replicate w None).
Proof.
  split; [apply length_replicate..| |].
  - intros i r [? _]%lookup_replicate. done.
  - intros i j r r' [? _]%lookup_replicate. done.
Qed.

Lemma send_tables_Ok written peers clients responses :
  send_tables written peers clients = (Ok tt, responses) ->
  responses = map (fun c => (c, RendezvousReady peers)) clients.
Proof.
  revert responses. induction clients as [|c clients IH]; intros responses; cbn; [by intros [= <-]|].
  destruct (written c); [|done]. destruct (send_tables _ _ _) as [out rs] eqn:E.
  intros [= -> <-]. by rewrite (IH _ eq_refl).
Qed.

Lemma imap_pair_lookup {A} (l : list A) i : imap pair l !! i = pair i <$> l !! i.
Proof. by rewrite list_lookup_imap. Qed.

Lemma all_some_values {A} (l : list (option A)) :
  Forall (fun x => x <> None) l -> exists k, l = Some <$> k /\ omap id l = k.
Proof.
  induction 1 as [|[x|] l Hx Hl (k & -> & Hk)]; [by exists []| |done].
  exists (x :: k). cbn. split; [done|]. cbn in Hk |- *. by rewrite Hk.
Qed.

Lemma peer_table_some rs :
  peer_table (Some <$> rs) = Ok (imap mkPeerInfo (map reg_advertise_addr rs)).
Proof.
  unfold peer_table. rewrite imap_fmap, imap_fmap.
  enough (forall k, mapM (fun '(rank, r) => r ← ok_or r (WorkerPanicked 0 "all ranks registered");
            Ok (mkPeerInfo rank (reg_advertise_addr r)))
            (imap (fun i r => (k + i, Some r)) rs)
          = Ok (imap (fun i r => mkPeerInfo (k + i) (reg_advertise_addr r)) rs)) as H
    by (exact (H 0)).
  induction rs as [|r rs IH]; intros k; cbn; [done|].
  specialize (IH (S k)). erewrite imap_ext; [rewrite IH|]; cbn.
  - f_equal. f_equal. apply imap_ext. intros; cbn. by rewrite Nat.add_succ_r.
  - intros i r' _. cbn. by rewrite Nat.add_succ_r.
Qed.

Lemma table_ranks addresses :
  existsb id (imap (fun rank peer => negb (Nat.eqb (peer_rank peer) rank))
                (imap mkPeerInfo addresses)) = false.
Proof.
  apply not_true_iff_false. intros (b & Hin & Hb)%existsb_exists.
  apply list_elem_of_In, list_elem_of_lookup in Hin as [i Hi].
  rewrite !list_lookup_imap in Hi. destruct (addresses !! i); [|done].
  cbn in Hi. rewrite Nat.eqb_refl in Hi. cbn in Hi. by simplify_eq.
Qed.

(** Rendezvous agreement.  When the server returns [Ok] every rank has
    registered exactly once, with this protocol version, run identifier and
    world size and with a non-blank address of its own, in whatever order the
    connections arrived; the answers, in rank order, carry one and the same
    table, rank [i]'s answer going to the connection that registered rank [i];
    and a rank of that world accepts the table. *)
Theorem rendezvous_agrees written run_id w accepted responses :
  run_rendezvous_server written run_id w accepted = (Some (Ok tt), responses) ->
  exists addresses,
    let table := imap mkPeerInfo addresses in
    length addresses = w /\ NoDup addresses /\ Forall (fun a => blank a = false) addresses /\
    length responses = w /\
    (forall i a, addresses !! i = Some a -> exists n,
       accepted !! n = Some (Ok (mkRegistration PROTOCOL_VERSION run_id i w a)) /\
       responses !! i = Some (n, RendezvousReady table)) /\
    (forall config, world_size (cfg_rank config) = w ->
       accept_peer_table config (Ok (RendezvousReady table)) = Ok table).
Proof.
  unfold run_rendezvous_server.
  destruct (registration_loop _ _ _ _ _ _) as [[[[regs clients]|e]|] log] eqn:Hl; [|done..].
  pose proof (registration_loop_Ok run_id w accepted (replicate w None) (replicate w None) accepted
    regs clients (registered_initial _ _ _)) as Hloop.
  rewrite Nat.sub_diag, Hl in Hloop.
  destruct (Hloop eq_refl (Nat.le_refl _) eq_refl) as [[L1 L2 S D] Hall]. clear Hloop.
  destruct (all_some_values regs Hall) as (rs & -> & _). rewrite peer_table_some.
  destruct (send_tables _ _ _) as [out answers] eqn:Hst. intros [= -> <-].
  apply send_tables_Ok in Hst as ->. rewrite length_fmap in L1.
  assert (Hc : Forall (fun x => x <> None) clients).
  { apply Forall_lookup_2. intros i x Hi. apply lookup_lt_Some in Hi as Hlt.
    rewrite L2, <- L1 in Hlt. apply lookup_lt_is_Some in Hlt as [r Hr].
    destruct (S i r) as (_ & _ & n & Hn & _); [by rewrite list_lookup_fmap, Hr|]. congruence. }
  destruct (all_some_values clients Hc) as (cs & -> & Hcs). rewrite length_fmap in L2.
  rewrite Hcs.
  assert (Hlook : forall i a, map reg_advertise_addr rs !! i = Some a -> exists n,
    blank a = false /\ cs !! i = Some n /\
    accepted !! n = Some (Ok (mkRegistration PROTOCOL_VERSION run_id i w a))).
  { intros i a (r & -> & Hr)%list_lookup_fmap_Some_1.
    destruct (S i r) as (-> & Hb & n & Hn & Ha); [by rewrite list_lookup_fmap, Hr|].
    cbn. exists n. apply list_lookup_fmap_Some_1 in Hn as (n' & [= ->] & Hn). done. }
  exists (map reg_advertise_addr rs). cbn zeta. split_and!.
  - by rewrite length_map.
  - apply NoDup_alt. intros i j a (r & -> & Hr)%list_lookup_fmap_Some_1
      (r' & Ha & Hr')%list_lookup_fmap_Some_1.
    apply (D i j r r'); [by rewrite list_lookup_fmap, Hr|by rewrite list_lookup_fmap, Hr'|done].
  - apply Forall_lookup_2. intros i a Hi. by destruct (Hlook i a Hi) as (n & ? & _).
  - by rewrite length_map.
  - intros i a Hi. destruct (Hlook i a Hi) as (n & _ & Hn & Ha). exists n. split; [done|].
    rewrite (list_lookup_fmap (fun c => (c, _)) cs), Hn. done.
  - intros config Hw. cbn. rewrite length_imap, length_map, L1, Hw, Nat.eqb_refl. cbn.
    by rewrite table_ranks.
Qed.

(** ** Witnesses *)

Definition sample_tcp (r : nat) : TcpTransport :=
  mkTcp (mkRank r 3) [] (map (fun p => negb (Nat.eqb p r)) (seq 0 3))
    (map (fun p => negb (Nat.eqb p r)) (seq 0 3)) [[]; []; []] 5 1024 4.

Lemma sample_tcp_wf r : wf (sample_tcp r).
Proof.
  split; [done|]. intros p [Hp Hne]%Ranks.validate_peer_ok. cbn in Hp, Hne.
  cbn. do 3 (destruct p as [|p]; [by destruct r as [|[|[]]]|]). lia.
Qed.

Definition sample_control (n : N) : ControlPacket := mkControlPacket [byte_of_N n].

Example tcp_recv_mailbox_witness :
  let evs := [Ok (WControl 2 0 9 (sample_control 1)); Ok (WBarrierArrive 2 0 4);
              Ok (WControl 2 0 7 (sample_control 2)); Err (Io "read frame length" TimedOut)] in
  let '(out, self', evs') := recv_control (sample_tcp 0) 2 7%N evs in
  out = Some (Ok (sample_control 2)) /\
  mailbox_receive (control_with 7%N) 2 (held (sample_tcp 0)) (held self')
    (omap (classify (sample_tcp 0) 2) evs) (omap (classify (sample_tcp 0) 2) evs') out.
Proof.
  split; [vm_compute; reflexivity|].
  exact (tcp_recv_mailbox (control_with 7%N) (sample_tcp 0) 2 7%N
    [Ok (WControl 2 0 9 (sample_control 1)); Ok (WBarrierArrive 2 0 4);
     Ok (WControl 2 0 7 (sample_control 2)); Err (Io "read frame length" TimedOut)]
    (sample_tcp_wf 0) eq_refl).
Defined.

Definition sample_streams : Streams :=
  mkStreams (fun s => match s with
    | 1 => [Ok (WTensor 1 0 3 (mkTensorPacket [0%N] [])); Ok (WBarrierArrive 1 0 4)]
    | _ => [Ok (WBarrierArrive 2 0 4)] end) [].

Example tcp_barrier_passes_witness :
  let '(out, self', io') := barrier (fun _ => "") (sample_tcp 0) (fun _ => Ok tt) sample_streams in
  out = Some (Ok tt) /\ barrier_generation self' = 5%N /\
  log io' = [Took 1 (WBarrierArrive 1 0 4); Took 2 (WBarrierArrive 2 0 4);
             Wrote 1 (WBarrierRelease 0 1 4); Wrote 2 (WBarrierRelease 0 2 4)] /\
  exists frames,
    took_each true 4 (sample_tcp 0) self' sample_streams io' [1; 2] frames /\
    log io' = zip_with Took [1; 2] frames ++ map (fun d => Wrote d (WBarrierRelease 0 d 4)) [1; 2].
Proof.
  destruct (barrier (fun _ => "") (sample_tcp 0) (fun _ => Ok tt) sample_streams)
    as [[out self'] io'] eqn:E.
  assert (Ho : out = Some (Ok tt)) by (vm_compute in E; congruence). subst out.
  destruct (tcp_barrier_passes (fun _ => "") (sample_tcp 0) (fun _ => Ok tt) sample_streams
    self' io' (sample_tcp_wf 0) ltac:(cbv; lia) E) as (H1 & _ & H2).
  split; [reflexivity|]. split; [exact H1|]. split; [|exact H2].
  apply (f_equal (fun result => log result.2)) in E. cbn [snd] in E. rewrite <- E. vm_compute. reflexivity.
Defined.

Definition sample_config (r : nat) : TcpTransportConfig :=
  mkTcpConfig (mkRank r 3) "run" "h:1" None "h:2" "h:3" 9 5 1024.
Definition sample_peers : list PeerInfo := imap mkPeerInfo ["a:1"; "b:1"; "c:1"].
Definition sample_handshake (s d : nat) : PeerHandshake := mkHandshake 2 "run" 3 s d.

Example full_mesh_complete_witness :
  let result := establish_full_mesh (sample_config 2) sample_peers (fun _ _ => Ok HandshakeReady)
    [(Ok (sample_handshake 1 2), Ok tt); (Ok (sample_handshake 0 2), Ok tt)] in
  result = Some (Ok [0; 1]) /\ wf (assemble (sample_config 2) sample_peers [0; 1]).
Proof.
  assert (E : establish_full_mesh (sample_config 2) sample_peers (fun _ _ => Ok HandshakeReady)
    [(Ok (sample_handshake 1 2), Ok tt); (Ok (sample_handshake 0 2), Ok tt)] = Some (Ok [0; 1]))
    by (vm_compute; reflexivity).
  split; [exact E|].
  apply (full_mesh_complete (sample_config 2) sample_peers (fun _ _ => Ok HandshakeReady)
    [(Ok (sample_handshake 1 2), Ok tt); (Ok (sample_handshake 0 2), Ok tt)] [0; 1]);
    [cbv; lia|vm_compute; reflexivity|exact E].
Defined.

Definition sample_registration (r : nat) (a : string) : Registration :=
  mkRegistration 2 "run" r 2 a.

Example rendezvous_agrees_witness :
  let accepted := [Ok (sample_registration 1 "b:1"); Ok (sample_registration 0 "a:1")] in
  exists responses (addresses : list string),
    run_rendezvous_server (fun _ => Ok tt) "run" 2 accepted = (Some (Ok tt), responses) /\
    length addresses = 2 /\ length responses = 2.
Proof.
  pose (accepted := [Ok (sample_registration 1 "b:1"); Ok (sample_registration 0 "a:1")]
    : list (cresult Registration)).
  pose (responses := (run_rendezvous_server (fun _ => Ok tt) "run" 2 accepted).2).
  assert (E : run_rendezvous_server (fun _ => Ok tt) "run" 2 accepted = (Some (Ok tt), responses))
    by (vm_compute; reflexivity).
  destruct (rendezvous_agrees _ _ _ _ _ E) as (addresses & H1 & _ & _ & H2 & _).
  exists responses, addresses. split; [exact E|]. split; assumption.
Defined.
