(* ===== verification/Connect.v ===== *)
(** * Joining a TCP world

    Models the rest of [TcpTransport::connect] of [crates/collectives/src/tcp.rs]:
    the polling loops with their deadline, and how connect puts the parts of
    [Tcp.v] together.  An [Instant] is a number of nanoseconds; what the sockets and
    the clock answer is a list of polls.  The theorem follows all ranks of a world
    through their connects. *)
From S2P Require Import Prelude Rank Packet Wire Mailbox Tcp.

(** ** Deadlines *)

(** [set_read_deadline], [set_write_deadline]; [set_timeout] is the call on the socket. *)
Definition set_deadline (direction : string) (deadline now : N) (set_timeout : N -> result ErrorKind unit) : cresult unit :=
  let remaining := (deadline - now)%N in
  if (remaining =? 0)%N then Err (Protocol ("TCP " +:+ direction +:+ " deadline expired"))
  else map_err (Io ("set TCP " +:+ direction +:+ " timeout")) (set_timeout remaining).
Definition set_read_deadline := set_deadline "read".
Definition set_write_deadline := set_deadline "write".

(** ** Polling *)

(** What [accept] gives, with the result of making the stream blocking or the
    clock's reading; what [connect] gives, with the text of its error. *)
Inductive accept_poll : Type :=
| Accepted (blocking : result ErrorKind unit) | NotYet (now : N) | AcceptFailed (kind : ErrorKind).
Inductive connect_poll : Type :=
| Connected | ConnectFailed (kind : ErrorKind) (text : string) (now : N).

(** [accept_until], with the polls that remain; [None] while it waits. *)
Fixpoint accept_until (deadline : N) (context : string) (polls : list accept_poll)
  : option (cresult unit) * list accept_poll :=
  match polls with
  | [] => (None, [])
  | Accepted blocking :: polls => (Some (map_err (Io "configure accepted TCP stream") blocking), polls)
  | NotYet now :: polls =>
      if (deadline <=? now)%N then (Some (Err (Rendezvous (context +:+ " timed out"))), polls)
      else accept_until deadline context polls
  | AcceptFailed kind :: polls => (Some (Err (Io context kind)), polls)
  end.

(** [connect_until]; the kinds after which it tries again. *)
Definition retried (kind : ErrorKind) : bool :=
  match kind with ConnectionRefused | TimedOut | NotFound | AddrNotAvailable => true | _ => false end.
Fixpoint connect_until (address : string) (deadline : N) (context : string) (polls : list connect_poll)
  : option (cresult unit) :=
  match polls with
  | [] => None
  | Connected :: _ => Some (Ok tt)
  | ConnectFailed kind text now :: polls =>
      if retried kind
      then if (deadline <=? now)%N
           then Some (Err (Rendezvous (context +:+ " to " +:+ address +:+ " timed out: " +:+ text)))
           else connect_until address deadline context polls
      else Some (Err (Io (context +:+ " to " +:+ address) kind))
  end.

(** The loops of the servers accept and read in turn: what [Tcp.v] takes as what
    was accepted. *)
Fixpoint accept_each {A} (failed : CollectivesError -> A) (deadline : N) (context : string)
  (polls : list accept_poll) (reads : list A) : list A :=
  match accept_until deadline context polls with
  | (None, _) => []
  | (Some (Err e), _) => [failed e]
  | (Some (Ok _), polls) =>
      match reads with
      | [] => []
      | read :: reads => read :: accept_each failed deadline context polls reads
      end
  end.

(** [run_rendezvous_server] with its listener. *)
Definition serve_rendezvous (deadline : N) (polls : list accept_poll) (reads : list (cresult Registration))
  (written : nat -> cresult unit) (run_id : string) (world_size : nat) :=
  run_rendezvous_server written run_id world_size
    (accept_each Err deadline "accept rendezvous registration" polls reads).

(** [register_with_rendezvous]: connect, send the registration, read the answer. *)
Definition register_with_rendezvous (config : TcpTransportConfig) (deadline : N) (polls : list connect_poll)
  (written : Registration -> cresult unit) (response : cresult RendezvousResponse) : option (cresult (list PeerInfo)) :=
  match connect_until (cfg_rendezvous_addr config) deadline "connect rendezvous" polls with
  | None => None
  | Some (Err e) => Some (Err e)
  | Some (Ok _) => Some (_ ← written (registration_of config); accept_peer_table config response)
  end.

(** ** Connect *)

(** What the system answers one connect; [None] of the server is a panic of its
    thread. *)
Record Answers : Type := mkAnswers
  { bind_listener : string -> result ErrorKind unit; set_nonblocking : string -> result ErrorKind unit;
    startup_deadline : N; server_result : option (cresult unit); rendezvous_polls : list connect_poll;
    registration_written : Registration -> cresult unit; table_read : cresult RendezvousResponse;
    dial_polls : string -> list connect_poll;
    handshake_answer : string -> PeerHandshake -> cresult HandshakeResponse;
    mesh_polls : list accept_poll; mesh_read : list (cresult PeerHandshake * cresult unit);
    set_nodelay : nat -> result ErrorKind unit; try_clone : nat -> result ErrorKind unit }.

(** The listener of a role: bound, and not blocking. *)
Definition open_listener (answers : Answers) (address bind_context nonblocking_context : string) : cresult unit :=
  _ ← map_err (Io bind_context) (bind_listener answers address);
  map_err (Io nonblocking_context) (set_nonblocking answers address).

Fixpoint open_streams (answers : Answers) (streams : list nat) : cresult unit :=
  match streams with
  | [] => Ok tt
  | peer :: streams =>
      _ ← map_err (Io "enable TCP_NODELAY") (set_nodelay answers peer);
      _ ← map_err (Io "clone peer stream") (try_clone answers peer);
      open_streams answers streams
  end.

(** Before the rendezvous, and after the mesh. *)
Definition open_listeners (config : TcpTransportConfig) (answers : Answers) : cresult unit :=
  _ ← validate config;
  _ ← open_listener answers (cfg_listen_addr config) "bind peer listener" "configure peer listener";
  if Nat.eqb (global_rank (cfg_rank config)) 0
  then
    bind ← ok_or (cfg_rendezvous_bind_addr config) (WorkerPanicked 0 "validated rank 0 bind address");
    open_listener answers bind "bind rendezvous listener" "configure rendezvous listener"
  else Ok tt.
Definition join_server (config : TcpTransportConfig) (answers : Answers) : cresult unit :=
  if Nat.eqb (global_rank (cfg_rank config)) 0
  then match server_result answers with
       | Some result => result
       | None => Err (Rendezvous "rank-0 rendezvous thread panicked")
       end
  else Ok tt.

(** The dialing loop's connects; the answer of a peer never reached is not asked
    for, as [dial_waits] is tested first. *)
Definition mesh_answer (answers : Answers) (address : string) (handshake : PeerHandshake) : cresult HandshakeResponse :=
  match connect_until address (startup_deadline answers) "connect peer" (dial_polls answers address) with
  | Some connected => _ ← connected; handshake_answer answers address handshake
  | None => Err (Rendezvous "connect peer")
  end.
Fixpoint dial_waits (config : TcpTransportConfig) (answers : Answers) (peers : list PeerInfo) : bool :=
  match peers with
  | [] => false
  | peer :: peers =>
      match connect_until (peer_address peer) (startup_deadline answers) "connect peer"
              (dial_polls answers (peer_address peer)) with
      | None => true
      | Some _ =>
          match dial config (mesh_answer answers) peer with
          | Ok _ => dial_waits config answers peers
          | Err _ => false
          end
      end
  end.

(** [TcpTransport::connect]; [None] while it waits. *)
Definition connect (config : TcpTransportConfig) (answers : Answers) : option (cresult TcpTransport) :=
  match open_listeners config answers with
  | Err e => Some (Err e)
  | Ok _ =>
      match register_with_rendezvous config (startup_deadline answers) (rendezvous_polls answers)
              (registration_written answers) (table_read answers) with
      | None => None
      | Some (Err e) => Some (Err e)
      | Some (Ok peers) =>
          match join_server config answers with
          | Err e => Some (Err e)
          | Ok _ =>
              if dial_waits config answers (drop (global_rank (cfg_rank config) + 1) peers) then None else
              match establish_full_mesh config peers (mesh_answer answers)
                      (accept_each (fun e => (Err e, Ok tt)) (startup_deadline answers) "accept peer handshake"
                         (mesh_polls answers) (mesh_read answers)) with
              | None => None
              | Some (Err e) => Some (Err e)
              | Some (Ok streams) => Some (_ ← open_streams answers streams; Ok (assemble config peers streams))
              end
          end
      end
  end.

(** ** Waiting ends *)

(** The polls that end a wait, and with what. *)
Definition accept_verdict (deadline : N) (context : string) (poll : accept_poll) : option (cresult unit) :=
  match poll with
  | Accepted blocking => Some (map_err (Io "configure accepted TCP stream") blocking)
  | NotYet now => if (deadline <=? now)%N then Some (Err (Rendezvous (context +:+ " timed out"))) else None
  | AcceptFailed kind => Some (Err (Io context kind))
  end.
Definition connect_verdict (address : string) (deadline : N) (context : string) (poll : connect_poll)
  : option (cresult unit) :=
  match poll with
  | Connected => Some (Ok tt)
  | ConnectFailed kind text now =>
      if retried kind
      then if (deadline <=? now)%N
           then Some (Err (Rendezvous (context +:+ " to " +:+ address +:+ " timed out: " +:+ text))) else None
      else Some (Err (Io (context +:+ " to " +:+ address) kind))
  end.

(** The first poll that ends the wait decides. *)
Lemma accept_until_first deadline context before poll after verdict :
  Forall (fun p => accept_verdict deadline context p = None) before ->
  accept_verdict deadline context poll = Some verdict ->
  accept_until deadline context (before ++ poll :: after) = (Some verdict, after).
Proof.
  intros Hb Hp. induction Hb as [|p before Hn _ IH]; cbn [app accept_until].
  - destruct poll as [b|now|k]; cbn in *; [congruence| |congruence]. destruct (deadline <=? now)%N; congruence.
  - destruct p as [b|now|k]; cbn in *; try done. by destruct (deadline <=? now)%N.
Qed.
Lemma connect_until_first address deadline context before poll after verdict :
  Forall (fun p => connect_verdict address deadline context p = None) before ->
  connect_verdict address deadline context poll = Some verdict ->
  connect_until address deadline context (before ++ poll :: after) = Some verdict.
Proof.
  intros Hb Hp. induction Hb as [|p before Hn _ IH]; cbn [app connect_until].
  - destruct poll as [|k text now]; cbn in *; [done|]. destruct (retried k); [|done]. by destruct (deadline <=? now)%N.
  - destruct p as [|k text now]; cbn in *; [done|]. destruct (retried k); [|done]. by destruct (deadline <=? now)%N.
Qed.

Lemma first_verdict {A B} (verdict : A -> option B) l x : x ∈ l -> verdict x <> None ->
  exists before y after v, l = before ++ y :: after /\ Forall (fun p => verdict p = None) before /\ verdict y = Some v.
Proof.
  induction l as [|y l IH]; [by intros ?%not_elem_of_nil|]. intros Hx Hv. destruct (verdict y) as [v|] eqn:Hy.
  - exists [], y, l, v. by split_and!.
  - apply elem_of_cons in Hx as [->|Hx]; [done|].
    destruct (IH Hx Hv) as (before & z & after & v & -> & Hb & Hz). exists (y :: before), z, after, v.
    split_and!; [done|by constructor|done].
Qed.

(** No wait of the startup outlasts its deadline.  A poll that reads the
    clock at the deadline or later ends the wait: accepting and connecting have
    returned by then, whatever the polls before; and they report a time-out only
    if a poll read such a clock.  A read or write is given the time that is left,
    and none once the deadline has passed. *)
Theorem startup_waits_end deadline context address accepts connects :
  (forall direction now set_timeout, set_deadline direction deadline now set_timeout = Ok tt <->
     (now < deadline)%N /\ set_timeout (deadline - now)%N = Ok tt) /\
  (forall now, NotYet now ∈ accepts -> (deadline <= now)%N -> (accept_until deadline context accepts).1 <> None) /\
  ((accept_until deadline context accepts).1 = Some (Err (Rendezvous (context +:+ " timed out"))) ->
     exists now, NotYet now ∈ accepts /\ (deadline <= now)%N) /\
  (forall kind text now, ConnectFailed kind text now ∈ connects -> (deadline <= now)%N ->
     connect_until address deadline context connects <> None) /\
  (forall text, connect_until address deadline context connects
     = Some (Err (Rendezvous (context +:+ " to " +:+ address +:+ " timed out: " +:+ text))) ->
     exists kind text' now, ConnectFailed kind text' now ∈ connects /\ retried kind = true /\ (deadline <= now)%N).
Proof.
  split_and!.
  - intros direction now set_timeout. unfold set_deadline. destruct (N.eqb_spec (deadline - now) 0) as [H0|H0].
    + split; [done|lia].
    + destruct (set_timeout (deadline - now)%N) as [[]|]; cbn; split; [intros _; split; [lia|done]|done|done|intros [_ ?]; done].
  - intros now Hin Hd. destruct (first_verdict (accept_verdict deadline context) accepts (NotYet now) Hin) as
      (before & y & after & v & -> & Hb & Hy).
    { cbn. by rewrite (proj2 (N.leb_le _ _) Hd). }
    by rewrite (accept_until_first _ _ _ _ _ _ Hb Hy).
  - induction accepts as [|p l IH]; [done|]. cbn [accept_until]. destruct p as [b|now|k]; [by destruct b| |done].
    destruct (N.leb_spec deadline now) as [Hd|Hd].
    + intros _. exists now. split; [by left|done].
    + intros H. destruct (IH H) as (now' & Hin & Hd'). exists now'. split; [by right|done].
  - intros kind text now Hin Hd.
    destruct (first_verdict (connect_verdict address deadline context) connects (ConnectFailed kind text now) Hin) as
      (before & y & after & v & -> & Hb & Hy).
    { cbn. rewrite (proj2 (N.leb_le _ _) Hd). by destruct (retried kind). }
    by rewrite (connect_until_first _ _ _ _ _ _ _ Hb Hy).
  - intros text. induction connects as [|p l IH]; [done|]. cbn [connect_until]. destruct p as [|k text' now]; [done|].
    destruct (retried k) eqn:Hk; [|done]. destruct (N.leb_spec deadline now) as [Hd|Hd].
    + intros _. exists k, text', now. split_and!; [by left|done|done].
    + intros H. destruct (IH H) as (k' & t & now' & Hin & Hk' & Hd'). exists k', t, now'. split_and!; [by right|done|done].
Qed.

(** ** All ranks of a world *)

(** What a connect that succeeds went through. *)
Lemma connect_Ok config answers endpoint : connect config answers = Some (Ok endpoint) ->
  exists response peers streams, validate config = Ok tt /\ table_read answers = Ok response /\
    accept_peer_table config (Ok response) = Ok peers /\
    establish_full_mesh config peers (mesh_answer answers)
      (accept_each (fun e => (Err e, Ok tt)) (startup_deadline answers) "accept peer handshake"
         (mesh_polls answers) (mesh_read answers)) = Some (Ok streams) /\
    endpoint = assemble config peers streams.
Proof.
  unfold connect. destruct (open_listeners config answers) as [[]|] eqn:Hl; [|done].
  apply bind_Ok in Hl as ([] & Hv & _). unfold register_with_rendezvous.
  destruct (connect_until _ _ _ _) as [[[]|]|]; [|done..].
  destruct (_ ← registration_written _ _; _) as [peers|] eqn:Hp; [|done].
  apply bind_Ok in Hp as (? & _ & Hp). destruct (join_server config answers); [|done].
  destruct (dial_waits _ _ _); [done|].
  destruct (establish_full_mesh _ _ _ _) as [[streams|]|] eqn:Hm; [|done..].
  destruct (open_streams answers streams); [|done]. cbn. intros [= <-].
  destruct (table_read answers) as [response|] eqn:Hr; [|done]. by exists response, peers, streams.
Qed.

Lemma accepted_table config response peers : accept_peer_table config (Ok response) = Ok peers ->
  response = RendezvousReady peers.
Proof.
  destruct response as [table|]; [|done]. intros H. destruct (accept_peer_table_Ok _ _ _ H) as [-> _]. done.
Qed.

(** C28: ranks that connect agree.  Let the rendezvous server of a world of [w]
    ranks succeed, let every rank read what the server wrote to the connection on
    which it registered, and let every connect succeed.  Then all endpoints hold one
    and the same table, in rank order, of the addresses the ranks advertised, all
    different; each is connected to every other rank, once, and starts empty. *)
Theorem connected_ranks_agree w config answers endpoint deadline polls reads written run_id responses :
  (forall i, i < w -> cfg_rank (config i) = mkRank i w) ->
  serve_rendezvous deadline polls reads written run_id w = (Some (Ok tt), responses) ->
  (forall i, i < w -> exists n,
     accept_each Err deadline "accept rendezvous registration" polls reads !! n
     = Some (Ok (registration_of (config i))) /\
     forall response, table_read (answers i) = Ok response -> (n, response) ∈ responses) ->
  (forall i, i < w -> connect (config i) (answers i) = Some (Ok (endpoint i))) ->
  exists addresses, length addresses = w /\ NoDup addresses /\ forall i, i < w ->
    addresses !! i = Some (cfg_advertise_addr (config i)) /\
    Tcp.peers (endpoint i) = imap mkPeerInfo addresses /\ Tcp.rank (endpoint i) = mkRank i w /\
    wf (endpoint i) /\ pending (endpoint i) = replicate w [] /\ barrier_generation (endpoint i) = 0%N.
Proof.
  intros Hrank Hserve Hread Hconnect. unfold serve_rendezvous in Hserve.
  destruct (rendezvous_agrees _ _ _ _ _ Hserve) as (addresses & Hl & Hnd & _ & Hlr & Hresp & _).
  exists addresses. split; [done|]. split; [done|]. intros i Hi.
  destruct (connect_Ok _ _ _ (Hconnect i Hi)) as (response & peers & streams & _ & Ht & Hp & Hm & ->).
  destruct (Hread i Hi) as (n & Hn & Hin). specialize (Hin _ Ht). apply list_elem_of_lookup in Hin as [j Hj].
  pose proof (lookup_lt_Some _ _ _ Hj) as Hjw. rewrite Hlr, <- Hl in Hjw.
  destruct (lookup_lt_is_Some_2 _ _ Hjw) as [a Ha]. destruct (Hresp j a Ha) as (n' & Hn' & Hj').
  rewrite Hj in Hj'. injection Hj' as -> ->. rewrite Hn in Hn'. unfold registration_of in Hn'.
  injection Hn' as _ Hji _ Haa. rewrite (Hrank i Hi) in Hji. cbn in Hji. subst j a.
  apply accepted_table in Hp as Hpeers. injection Hpeers as <-.
  assert (Ranks.valid (cfg_rank (config i))) as Hvalid by (rewrite Hrank by done; cbv; lia).
  destruct (full_mesh_complete _ _ _ _ _ Hvalid Hp Hm) as [_ Hwf].
  split_and!; [done|done|by cbn; rewrite Hrank|exact Hwf|cbn; by rewrite Hrank|done].
Qed.

(** ** A world of two ranks *)

(** Rank 1 registers first, after a poll without a connection; rank 0's first
    connect to the coordinator is refused. *)
Definition pair_tcp_config (i : nat) : TcpTransportConfig :=
  mkTcpConfig (mkRank i 2) "run" "coordinator:1" (if Nat.eqb i 0 then Some "0.0.0.0:1" else None) "0.0.0.0:2"
    (if Nat.eqb i 0 then "a:1" else "b:1") 9 5 1024.
Definition pair_table : list PeerInfo := [mkPeerInfo 0 "a:1"; mkPeerInfo 1 "b:1"].
Definition pair_registration_polls : list accept_poll := [NotYet 4; Accepted (Ok tt); Accepted (Ok tt)].
Definition pair_registrations : list (cresult Registration) :=
  [Ok (registration_of (pair_tcp_config 1)); Ok (registration_of (pair_tcp_config 0))].
Definition pair_answers (i : nat) : Answers :=
  mkAnswers (fun _ => Ok tt) (fun _ => Ok tt) 9 (Some (Ok tt))
    (if Nat.eqb i 0 then [ConnectFailed ConnectionRefused "refused" 3; Connected] else [Connected])
    (fun _ => Ok tt) (Ok (RendezvousReady pair_table)) (fun _ => [Connected]) (fun _ _ => Ok HandshakeReady)
    [Accepted (Ok tt)] [(Ok (mkHandshake PROTOCOL_VERSION "run" 2 0 1), Ok tt)] (fun _ => Ok tt) (fun _ => Ok tt).
Definition pair_endpoint (i : nat) : TcpTransport :=
  assemble (pair_tcp_config i) pair_table [1 - i].

Example connected_ranks_agree_witness :
  connect (pair_tcp_config 0) (pair_answers 0) = Some (Ok (pair_endpoint 0)) /\
  connect (pair_tcp_config 1) (pair_answers 1) = Some (Ok (pair_endpoint 1)) /\
  exists addresses, length addresses = 2 /\ forall i, i < 2 -> Tcp.peers (pair_endpoint i) = imap mkPeerInfo addresses.
Proof.
  assert (Hc : forall i, i < 2 -> connect (pair_tcp_config i) (pair_answers i) = Some (Ok (pair_endpoint i)))
    by (intros [|[|i]] Hi; [vm_compute; reflexivity..|lia]).
  split; [exact (Hc 0 ltac:(lia))|]. split; [exact (Hc 1 ltac:(lia))|].
  destruct (connected_ranks_agree 2 pair_tcp_config pair_answers pair_endpoint 9 pair_registration_polls
    pair_registrations (fun _ => Ok tt) "run" [(1, RendezvousReady pair_table); (0, RendezvousReady pair_table)])
    as (addresses & Hl & _ & H).
  - reflexivity.
  - vm_compute. reflexivity.
  - intros [|[|i]] Hi; [exists 1|exists 0|lia]; (split; [vm_compute; reflexivity|]);
      intros response [= <-]; rewrite elem_of_cons, list_elem_of_singleton; tauto.
  - exact Hc.
  - exists addresses. split; [exact Hl|]. intros i Hi. apply (H i Hi).
Defined.
