(* ===== verification/World.v ===== *)
(** * Worlds of communicating ranks

    The code that runs on one rank is a tree of calls to its transport ([proc]):
    the calls of [crates/collectives/src/transport.rs] and [barrier.rs], and the
    scoped thread with which a collective sends and receives at the same time.
    A world is one such process per rank with the messages in flight; its step
    relation interleaves the calls of all ranks, each receive behaving as a
    mailbox ([Mailbox.v]).  Transport failures are not steps of this relation -
    a connection lost, a time-out, a frame longer than the largest one the transport
    writes ([Wire.encode_wire]) - so that what is proved here is for messages that
    fit; a call on an invalid peer returns the error [validate_peer] gives.

    The world is confluent: one schedule that completes determines the result of
    every schedule, and no schedule can deadlock or diverge. *)
From S2P Require Import Prelude Rank Packet Mailbox.

(** ** Processes *)

Inductive proc (A : Type) : Type :=
| Ret (a : A)
| Send (destination : nat) (m : Message) (k : cresult unit -> proc A)
| Recv (source : nat) (tag : MessageTag) (k : cresult TensorPacket -> proc A)
| RecvControl (source : nat) (tag : MessageTag) (k : cresult ControlPacket -> proc A)
| Exchange (destination : nat) (m : Message) (source : nat) (tag : MessageTag)
    (k : cresult unit -> cresult TensorPacket -> proc A)
| Barrier (k : cresult unit -> proc A).
Arguments Ret {A} a.
Arguments Send {A} destination m k.
Arguments Recv {A} source tag k.
Arguments RecvControl {A} source tag k.
Arguments Exchange {A} destination m source tag k.
Arguments Barrier {A} k.

#[global] Instance proc_ret : MRet proc := @Ret.
#[global] Instance proc_bind : MBind proc := fun A B f =>
  fix bind (p : proc A) : proc B :=
    match p with
    | Ret a => f a
    | Send d m k => Send d m (fun r => bind (k r))
    | Recv s t k => Recv s t (fun r => bind (k r))
    | RecvControl s t k => RecvControl s t (fun r => bind (k r))
    | Exchange d m s t k => Exchange d m s t (fun a b => bind (k a b))
    | Barrier k => Barrier (fun r => bind (k r))
    end.

(** Processes that can fail: the [?] of code that communicates. *)
Definition cproc (A : Type) : Type := proc (cresult A).

Definition try_bind {E A B} (m : proc (result E A)) (f : A -> proc (result E B)) : proc (result E B) :=
  @mbind proc _ _ _ (fun r : result E A => match r with Ok a => f a | Err e => Ret (Err e) end) m.
Definition lift {E A} (r : result E A) : proc (result E A) := Ret r.

(** The conversion of the error by [?]. *)
Definition proc_err {E F A} (f : E -> F) (m : proc (result E A)) : proc (result F A) :=
  @mbind proc _ _ _ (fun r => Ret (map_err f r)) m.

Declare Scope proc_scope.
Delimit Scope proc_scope with proc.
Notation "x ⟵ m ; k" := (try_bind m (fun x => k))
  (at level 20, m at level 100, k at level 200, right associativity) : proc_scope.
Notation "' x ⟵ m ; k" := (try_bind m (fun x => k))
  (at level 20, x pattern, m at level 100, k at level 200, right associativity) : proc_scope.
#[global] Open Scope proc_scope.

(** ** Steps *)

(** The messages in flight from one rank to another. *)
Abbreviation network := (gmap (nat * nat) queue).
Definition in_flight (net : network) (source destination : nat) : queue :=
  default [] (net !! (source, destination)).

Inductive action : Type :=
| Tau
| Put (destination : nat) (m : Message)
| Take (source : nat) (sel : Message -> option MessagePayload) (payload : MessagePayload).

Definition tensor_payload (tag : MessageTag) (m : Message) : option MessagePayload :=
  TensorPayload <$> tensor_with tag m.
Definition control_payload (tag : MessageTag) (m : Message) : option MessagePayload :=
  ControlPayload <$> control_with tag m.

(** What a process may do next. *)
Inductive local {A} (r : Rank) : proc A -> action -> proc A -> Prop :=
| local_send d m k :
    Ranks.validate_peer r d = Ok tt -> local r (Send d m k) (Put d m) (k (Ok tt))
| local_send_error d m k e :
    Ranks.validate_peer r d = Err e -> local r (Send d m k) Tau (k (Err e))
| local_recv s tag k p :
    Ranks.validate_peer r s = Ok tt ->
    local r (Recv s tag k) (Take s (tensor_payload tag) (TensorPayload p)) (k (Ok p))
| local_recv_error s tag k e :
    Ranks.validate_peer r s = Err e -> local r (Recv s tag k) Tau (k (Err e))
| local_recv_control s tag k p :
    Ranks.validate_peer r s = Ok tt ->
    local r (RecvControl s tag k) (Take s (control_payload tag) (ControlPayload p)) (k (Ok p))
| local_recv_control_error s tag k e :
    Ranks.validate_peer r s = Err e -> local r (RecvControl s tag k) Tau (k (Err e))
| local_exchange_send d m s tag k :
    Ranks.validate_peer r d = Ok tt ->
    local r (Exchange d m s tag k) (Put d m) (Recv s tag (fun b => k (Ok tt) b))
| local_exchange_recv d m s tag k p :
    Ranks.validate_peer r s = Ok tt ->
    local r (Exchange d m s tag k) (Take s (tensor_payload tag) (TensorPayload p))
      (Send d m (fun a => k a (Ok p)))
| local_exchange_send_error d m s tag k e :
    Ranks.validate_peer r d = Err e ->
    local r (Exchange d m s tag k) Tau (Recv s tag (fun b => k (Err e) b))
| local_exchange_recv_error d m s tag k e :
    Ranks.validate_peer r s = Err e ->
    local r (Exchange d m s tag k) Tau (Send d m (fun a => k a (Err e))).

Definition act (i : nat) (a : action) (net : network) : option network :=
  match a with
  | Tau => Some net
  | Put d m => Some (<[(i, d) := in_flight net i d ++ [m]]> net)
  | Take s sel payload =>
      match take_first sel (in_flight net s i) with
      | Some (payload', q) =>
          if decide (payload' = payload) then Some (<[(s, i) := q]> net) else None
      | None => None
      end
  end.

Definition world (A : Type) : Type := list (proc A) * network.

Inductive step {A} : world A -> world A -> Prop :=
| step_rank ps net i p a p' net' :
    ps !! i = Some p -> local (mkRank i (length ps)) p a p' -> act i a net = Some net' ->
    step (ps, net) (<[i := p']> ps, net')
| step_barrier ps net ks :
    0 < length ps -> Forall2 (fun p k => p = Barrier k) ps ks ->
    step (ps, net) (map (fun k => k (Ok tt)) ks, net).

(** The ranks have all returned and every message has been delivered. *)
Definition finished {A} (w : world A) (results : list A) : Prop :=
  w.1 = map Ret results /\ forall s d, in_flight w.2 s d = [].

(** Every execution of [w], whatever the interleaving, ends after the same
    number of steps with these results; in particular no execution deadlocks. *)
Definition always_returns {A} (w : world A) (results : list A) : Prop :=
  exists n, forall m w', nsteps step m w w' ->
    m <= n /\ exists w'', nsteps step (n - m) w' w'' /\ finished w'' results.

Definition start {A} (ps : list (proc A)) : world A := (ps, ∅).

(** ** Confluence *)

Lemma in_flight_insert_eq net s d q : in_flight (<[(s, d) := q]> net) s d = q.
Proof. unfold in_flight. by rewrite lookup_insert_eq. Qed.

Lemma in_flight_insert_ne net s d s' d' q :
  (s, d) <> (s', d') -> in_flight (<[(s, d) := q]> net) s' d' = in_flight net s' d'.
Proof. intros. unfold in_flight. by rewrite lookup_insert_ne. Qed.

(** The channel an action touches. *)
Definition key (i : nat) (a : action) : option (nat * nat) :=
  match a with Tau => None | Put d _ => Some (i, d) | Take s _ _ => Some (s, i) end.

Definition act_queue (a : action) (q : queue) : option queue :=
  match a with
  | Tau => Some q
  | Put _ m => Some (q ++ [m])
  | Take _ sel payload =>
      match take_first sel q with
      | Some (payload', q) => if decide (payload' = payload) then Some q else None
      | None => None
      end
  end.

Lemma act_key i a net net' :
  act i a net = Some net' <->
  match key i a with
  | None => net' = net
  | Some (s, d) => exists q, act_queue a (in_flight net s d) = Some q /\ net' = <[(s, d) := q]> net
  end.
Proof.
  destruct a as [|d m|s sel payload]; cbn; [naive_solver..|].
  destruct (take_first sel (in_flight net s i)) as [[payload' q]|]; [|naive_solver].
  destruct (decide (payload' = payload)); naive_solver.
Qed.

(** Two actions are independent: they use different channels, or one appends
    to the channel the other takes from. *)
Lemma act_commute i j a b net n1 n2 :
  act i a net = Some n1 -> act j b net = Some n2 ->
  (key i a = None \/ key j b = None \/ key i a <> key j b \/
   match a, b with Put _ _, Take _ _ _ | Take _ _ _, Put _ _ => True | _, _ => False end) ->
  exists n, act j b n1 = Some n /\ act i a n2 = Some n.
Proof.
  intros H1 H2 Hk. apply act_key in H1, H2.
  destruct (key i a) as [[s d]|] eqn:Ka.
  2: { exists n2. subst. split; apply act_key; [done|]. by rewrite Ka. }
  destruct (key j b) as [[s' d']|] eqn:Kb.
  2: { exists n1. subst. split; apply act_key; [by rewrite Kb|by rewrite Ka]. }
  destruct H1 as (q1 & Q1 & ->), H2 as (q2 & Q2 & ->).
  destruct (decide ((s, d) = (s', d'))) as [[= <- <-]|Hne].
  - destruct Hk as [?|[?|[?|Hk]]]; [done..|].
    assert (exists q, act_queue b q1 = Some q /\ act_queue a q2 = Some q) as (q & E1 & E2).
    { destruct a, b; try done; cbn in *; simplify_eq.
      - destruct (take_first sel _) as [[p' q]|] eqn:T; [|done]. destruct (decide _); [|done].
        simplify_eq. rewrite (take_first_app_Some _ _ _ _ _ T). rewrite decide_True by done. eauto.
      - destruct (take_first sel _) as [[p' q]|] eqn:T; [|done]. destruct (decide _); [|done].
        simplify_eq. rewrite (take_first_app_Some _ _ _ _ _ T). rewrite decide_True by done. eauto. }
    exists (<[(s, d) := q]> net).
    split; apply act_key; [rewrite Kb|rewrite Ka]; exists q;
      (split; [by rewrite in_flight_insert_eq|by rewrite insert_insert_eq]).
  - exists (<[(s, d) := q1]> (<[(s', d') := q2]> net)).
    split; apply act_key; [rewrite Kb|rewrite Ka].
    + exists q2. split; [by rewrite in_flight_insert_ne|]. by rewrite insert_insert_ne.
    + exists q1. split; [by rewrite in_flight_insert_ne|done].
Qed.

Definition independent (a b : action) : Prop :=
  match a, b with
  | Tau, _ | _, Tau | Put _ _, Take _ _ _ | Take _ _ _, Put _ _ => True
  | _, _ => False
  end.

Ltac local_move :=
  match goal with
  | |- local ?r (Send ?d ?m ?k) _ _ =>
      first [ refine (local_send r d m k _); eassumption
            | refine (local_send_error r d m k _ _); eassumption ]
  | |- local ?r (Recv ?s ?t ?k) _ _ =>
      first [ refine (local_recv r s t k _ _); eassumption
            | refine (local_recv_error r s t k _ _); eassumption ]
  end.

Lemma local_diamond {A} r (p p1 p2 : proc A) a b :
  local r p a p1 -> local r p b p2 ->
  (a = b /\ p1 = p2) \/
  (exists s sel x y, a = Take s sel x /\ b = Take s sel y /\ (x = y -> p1 = p2)) \/
  (independent a b /\ exists p', local r p1 b p' /\ local r p2 a p').
Proof.
  intros H1 H2. destruct H1; inversion H2; subst; try congruence;
    repeat match goal with
    | H : ?x = Err ?a, H' : ?x = Err ?b |- _ => assert (a = b) as -> by congruence; clear H'
    end;
    first
    [ left; split; reflexivity
    | right; left; do 4 eexists; split; [reflexivity|]; split; [reflexivity|];
      let E := fresh in intros E; injection E as ->; reflexivity
    | right; right; split; [exact I|]; eexists; split;
      local_move ].
Qed.

Lemma act_take_inj i s sel x y net n1 n2 :
  act i (Take s sel x) net = Some n1 -> act i (Take s sel y) net = Some n2 -> x = y /\ n1 = n2.
Proof.
  cbn. destruct (take_first sel _) as [[z q]|]; [|done].
  destruct (decide (z = x)), (decide (z = y)); try done. intros; simplify_eq. done.
Qed.

Lemma independent_commute i j a b net n1 n2 :
  act i a net = Some n1 -> act j b net = Some n2 -> (i <> j \/ independent a b) ->
  exists n, act j b n1 = Some n /\ act i a n2 = Some n.
Proof.
  intros H1 H2 Hi. eapply act_commute; [done..|].
  destruct a, b; cbn in *; auto; right; right; left; destruct Hi; congruence.
Qed.

Lemma step_diamond {A} (w w1 w2 : world A) :
  step w w1 -> step w w2 -> w1 = w2 \/ exists w', step w1 w' /\ step w2 w'.
Proof.
  destruct 1 as [ps net i p a p1 n1 Hi Hp Ha|ps net ks Hl Hks]; intros H2;
    inversion H2 as [? ? j q b p2 n2 Hj Hq Hb|? ? ks' Hl' Hks']; subst.
  - destruct (decide (i = j)) as [<-|Hne].
    + rewrite Hi in Hj. injection Hj as <-. pose proof (lookup_lt_Some _ _ _ Hi) as Hlt.
      destruct (local_diamond _ _ _ _ _ _ Hp Hq) as
        [[-> ->]|[(s & sel & x & y & -> & -> & Hxy)|(Hind & p3 & L1 & L2)]].
      * left. congruence.
      * left. destruct (act_take_inj _ _ _ _ _ _ _ _ Ha Hb) as [-> ->]. by rewrite Hxy.
      * right. destruct (independent_commute i i a b net n1 n2) as (n & E1 & E2); auto.
        exists (<[i := p3]> ps, n). split.
        -- rewrite <- (list_insert_insert_eq ps i p3 p1).
           apply (step_rank _ _ i p1 b p3); [by apply list_lookup_insert_eq|
             by rewrite length_insert|done].
        -- rewrite <- (list_insert_insert_eq ps i p3 p2).
           apply (step_rank _ _ i p2 a p3); [by apply list_lookup_insert_eq|
             by rewrite length_insert|done].
    + right. destruct (independent_commute i j a b net n1 n2) as (n & E1 & E2); auto.
      exists (<[j := p2]> (<[i := p1]> ps), n). split.
      * apply (step_rank _ _ j q b); [by rewrite list_lookup_insert_ne|
          by rewrite length_insert|done].
      * rewrite list_insert_insert_ne by done.
        apply (step_rank _ _ i p a); [by rewrite list_lookup_insert_ne|
          by rewrite length_insert|done].
  - exfalso. destruct (Forall2_lookup_l _ _ _ _ _ Hks' Hi) as (k & _ & ->). inversion Hp.
  - exfalso. destruct (Forall2_lookup_l _ _ _ _ _ Hks Hj) as (k & _ & ->). inversion Hq.
  - left. f_equal. f_equal. clear -Hks Hks'. revert ks' Hks'.
    induction Hks as [|p k ps ks -> _ IH]; intros ks' H; inversion H; subst; [done|].
    f_equal; [congruence|auto].
Qed.

Lemma finished_stuck {A} (w w' : world A) rs : finished w rs -> ~ step w w'.
Proof.
  intros [H _] Hs. destruct Hs as [ps net i p a p' net' Hi Hp Ha|ps net ks Hl Hks]; cbn in H; subst.
  - apply list_lookup_fmap_Some_1 in Hi as (r & -> & _). inversion Hp.
  - destruct rs; [cbn in Hl; lia|]. inversion Hks; subst. done.
Qed.

Lemma nsteps_strip {A} n (w u wf : world A) rs :
  finished wf rs -> nsteps step (S n) w wf -> step w u -> nsteps step n u wf.
Proof.
  intros Hf. revert w u. induction n as [|n IH]; intros w u Hn Hu; inversion Hn; subst;
    destruct (step_diamond _ _ _ H0 Hu) as [->|(x & Hx1 & Hx2)]; try done.
  - inversion H1; subst. by apply finished_stuck with (1 := Hf) in Hx1.
  - econstructor; [exact Hx2|]. by eapply IH.
Qed.

(** One complete schedule fixes every schedule. *)
Lemma always_returns_intro {A} (w wf : world A) rs :
  rtc step w wf -> finished wf rs -> always_returns w rs.
Proof.
  intros [n Hn]%rtc_nsteps Hf. exists n. intros m. revert w n Hn.
  induction m as [|m IH]; intros w n Hn w' Hm; inversion Hm; subst.
  - split; [lia|]. exists wf. by rewrite Nat.sub_0_r.
  - destruct n as [|n]; [inversion Hn; subst; by apply finished_stuck with (1 := Hf) in H0|].
    destruct (IH y n) with (w' := w') as [Hle Hex]; [by eapply nsteps_strip|done|].
    split; [lia|]. by rewrite Nat.sub_succ.
Qed.

(** ** Local traces

    What one rank does between its start and its result, independently of the
    others; barriers are events of their own. *)
Inductive event : Type := Act (a : action) | Sync.

Inductive exec {A} (r : Rank) : proc A -> list event -> proc A -> Prop :=
| exec_nil p : exec r p [] p
| exec_act p a p' tr p'' : local r p a p' -> exec r p' tr p'' -> exec r p (Act a :: tr) p''
| exec_sync k tr p' : exec r (k (Ok tt)) tr p' -> exec r (Barrier k) (Sync :: tr) p'.

Lemma exec_app {A} r (p p' p'' : proc A) t t' :
  exec r p t p' -> exec r p' t' p'' -> exec r p (t ++ t') p''.
Proof. induction 1; cbn; eauto using exec. Qed.

Lemma local_bind {A B} r (p p' : proc A) a (f : A -> proc B) :
  local r p a p' -> local r (p ≫= f) a (p' ≫= f).
Proof.
  destruct 1; cbn [mbind proc_bind];
    first [ refine (local_send r d m _ _); eassumption
          | refine (local_send_error r d m _ _ _); eassumption
          | refine (local_recv r s tag _ _ _); eassumption
          | refine (local_recv_error r s tag _ _ _); eassumption
          | refine (local_recv_control r s tag _ _ _); eassumption
          | refine (local_recv_control_error r s tag _ _ _); eassumption
          | refine (local_exchange_send r d m s tag _ _); eassumption
          | refine (local_exchange_recv r d m s tag _ _ _); eassumption
          | refine (local_exchange_send_error r d m s tag _ _ _); eassumption
          | refine (local_exchange_recv_error r d m s tag _ _ _); eassumption ].
Qed.

Lemma exec_bind {A B} r (p p' : proc A) t (f : A -> proc B) :
  exec r p t p' -> exec r (p ≫= f) t (p' ≫= f).
Proof.
  induction 1; [constructor|econstructor; eauto using local_bind|].
  cbn [mbind proc_bind]. by constructor.
Qed.

(** The rule for [?]. *)
Lemma exec_try {E A B} r (p : proc (result E A)) t a (f : A -> proc (result E B)) t' b :
  exec r p t (Ret (Ok a)) -> exec r (f a) t' b -> exec r (try_bind p f) (t ++ t') b.
Proof. intros H1 H2. eapply exec_app; [|exact H2]. exact (exec_bind r p _ t _ H1). Qed.

Lemma exec_try_ret {E A B} r (p : proc (result E A)) t a (f : A -> proc (result E B)) b :
  exec r p t (Ret (Ok a)) -> f a = Ret b -> exec r (try_bind p f) t (Ret b).
Proof.
  intros H1 H2. rewrite <- (app_nil_r t). eapply exec_try; [done|]. rewrite H2. constructor.
Qed.

Lemma exec_lift {E A B} r (x : result E A) a (f : A -> proc (result E B)) tr b :
  x = Ok a -> exec r (f a) tr b -> exec r (try_bind (lift x) f) tr b.
Proof. intros ->. done. Qed.

Lemma exec_ret {E A} r (x : result E A) y : x = y -> exec r (lift x) [] (Ret y).
Proof. intros ->. constructor. Qed.

Lemma exec_proc_err {E F A} r (g : E -> F) (m : proc (result E A)) t a :
  exec r m t (Ret (Ok a)) -> exec r (proc_err g m) t (Ret (Ok a)).
Proof.
  intros H. rewrite <- (app_nil_r t). eapply exec_app; [exact (exec_bind r m _ t _ H)|]. constructor.
Qed.

(** ** Schedules of traces *)
Definition set_fn {B} (i : nat) (x : B) (f : nat -> B) : nat -> B :=
  fun j => if decide (j = i) then x else f j.
Definition set_queue (s d : nat) (x : queue) (q : nat -> nat -> queue) : nat -> nat -> queue :=
  fun s' d' => if decide (s' = s /\ d' = d) then x else q s' d'.

(** [drains n tr q]: the traces [tr] of [n] ranks can be interleaved to their
    ends from the queues [q], leaving all queues empty. *)
Inductive drains (n : nat) : (nat -> list event) -> (nat -> nat -> queue) -> Prop :=
| drains_done tr q :
    (forall i, i < n -> tr i = []) -> (forall s d, q s d = []) -> drains n tr q
| drains_put tr q i d m rest :
    i < n -> tr i = Act (Put d m) :: rest ->
    drains n (set_fn i rest tr) (set_queue i d (q i d ++ [m]) q) -> drains n tr q
| drains_take tr q i s sel payload rest q' :
    i < n -> tr i = Act (Take s sel payload) :: rest ->
    take_first sel (q s i) = Some (payload, q') ->
    drains n (set_fn i rest tr) (set_queue s i q' q) -> drains n tr q
| drains_sync tr q rest :
    0 < n -> (forall i, i < n -> tr i = Sync :: rest i) -> drains n rest q -> drains n tr q.

Lemma exec_act_inv {A} r (p p'' : proc A) a tr :
  exec r p (Act a :: tr) p'' -> exists p', local r p a p' /\ exec r p' tr p''.
Proof. intros H. inversion H; subst. eauto. Qed.

Lemma exec_sync_inv {A} r (p p' : proc A) tr :
  exec r p (Sync :: tr) p' -> exists k, p = Barrier k /\ exec r (k (Ok tt)) tr p'.
Proof. intros H. inversion H; subst. eauto. Qed.

Lemma drains_step {A} n tr q i a rest net (ps : list (proc A)) rs net' :
  length ps = n -> i < n -> tr i = Act a :: rest ->
  (forall j p r, ps !! j = Some p -> rs !! j = Some r -> exec (mkRank j n) p (tr j) (Ret r)) ->
  length rs = n -> act i a net = Some net' ->
  (forall ps', length ps' = n ->
     (forall j p r, ps' !! j = Some p -> rs !! j = Some r ->
        exec (mkRank j n) p (set_fn i rest tr j) (Ret r)) ->
     exists wf, rtc step (ps', net') wf /\ finished wf rs) ->
  (forall s d, in_flight net s d = q s d) ->
  exists wf, rtc step (ps, net) wf /\ finished wf rs.
Proof.
  intros Hl Hi Htr Hex Hrs Ha Hnext Hq.
  destruct (lookup_lt_is_Some_2 ps i) as [p Hp]; [lia|].
  destruct (lookup_lt_is_Some_2 rs i) as [r Hr]; [lia|].
  pose proof (Hex i p r Hp Hr) as He. rewrite Htr in He.
  apply exec_act_inv in He as (p' & Hloc & He).
  destruct (Hnext (<[i := p']> ps)) as (wf & H1 & H2).
  - by rewrite length_insert.
  - intros j x y Hx Hy. unfold set_fn. destruct (decide (j = i)) as [->|Hne].
    + rewrite list_lookup_insert_eq in Hx by lia. congruence.
    + rewrite list_lookup_insert_ne in Hx by done. by apply Hex.
  - exists wf. split; [|done]. eapply rtc_l; [|exact H1].
    eapply step_rank; [done|by rewrite Hl|done].
Qed.

Definition continuation {A} (p : proc A) : cresult unit -> proc A :=
  match p with Barrier k => k | _ => fun _ => p end.

Lemma drains_sound {A} n tr q :
  drains n tr q -> forall (ps : list (proc A)) rs net,
  length ps = n -> length rs = n ->
  (forall j p r, ps !! j = Some p -> rs !! j = Some r -> exec (mkRank j n) p (tr j) (Ret r)) ->
  (forall s d, in_flight net s d = q s d) ->
  exists wf, rtc step (ps, net) wf /\ finished wf rs.
Proof.
  induction 1 as [tr q Htr Hq|tr q i d m rest Hi Htr _ IH|tr q i s sel y rest q' Hi Htr Ht _ IH
    |tr q rest Hn Htr _ IH]; intros ps rs net Hl Hrs Hex Hnet.
  - exists (ps, net). split; [done|]. split; cbn; [|intros; by rewrite Hnet].
    apply list_eq_same_length with n; [by rewrite length_map|done|].
    intros j p p' Hj Hp Hp'. apply list_lookup_fmap_Some_1 in Hp' as (r & -> & Hr).
    specialize (Hex j p r Hp Hr). rewrite Htr in Hex by done. by inversion Hex.
  - eapply (drains_step n tr q i (Put d m)); [done..| |done].
    intros ps' Hl' Hex'. apply IH; [done..|]. intros s' d'. unfold set_queue.
    destruct (decide _) as [[-> ->]|Hne]; [by rewrite in_flight_insert_eq, Hnet|].
    rewrite in_flight_insert_ne; [done|]. intros [= -> ->]. by apply Hne.
  - eapply (drains_step n tr q i (Take s sel y)); [done..| | |done].
    { cbn. rewrite Hnet, Ht. by rewrite decide_True. }
    intros ps' Hl' Hex'. apply IH; [done..|]. intros s' d'. unfold set_queue.
    destruct (decide _) as [[-> ->]|Hne]; [by rewrite in_flight_insert_eq|].
    rewrite in_flight_insert_ne; [done|]. intros [= -> ->]. by apply Hne.
  - assert (Hall : forall j p r, ps !! j = Some p -> rs !! j = Some r ->
      p = Barrier (continuation p) /\
      exec (mkRank j n) (continuation p (Ok tt)) (rest j) (Ret r)).
    { intros j p r Hp Hr. pose proof (Hex j p r Hp Hr) as He.
      rewrite Htr in He by (apply lookup_lt_Some in Hp; lia).
      by apply exec_sync_inv in He as (k & -> & He). }
    destruct (IH (map (fun k => k (Ok tt)) (map continuation ps)) rs net)
      as (wf & H1 & H2); [by rewrite !length_map|done| |done|].
    { intros j p r Hp Hr. rewrite map_map in Hp.
      apply list_lookup_fmap_Some_1 in Hp as (p0 & -> & Hp). by eapply Hall. }
    exists wf. split; [|done]. eapply rtc_l; [|exact H1]. constructor; [lia|].
    apply Forall2_same_length_lookup. split; [by rewrite length_map|].
    intros j p k Hp Hk. rewrite list_lookup_fmap, Hp in Hk. injection Hk as <-.
    destruct (lookup_lt_is_Some_2 rs j) as [r Hr]; [apply lookup_lt_Some in Hp; lia|].
    by destruct (Hall j p r Hp Hr).
Qed.

(** The local executions of all ranks and one interleaving of their traces
    settle the world. *)
Lemma world_returns {A} n tr (ps : list (proc A)) rs :
  length ps = n -> length rs = n ->
  (forall j p r, ps !! j = Some p -> rs !! j = Some r -> exec (mkRank j n) p (tr j) (Ret r)) ->
  drains n tr (fun _ _ => []) -> always_returns (start ps) rs.
Proof.
  intros Hl Hrs Hex Hd.
  destruct (drains_sound n tr _ Hd ps rs ∅) as (wf & H1 & H2); [done..| |].
  - intros s d. unfold in_flight. by rewrite lookup_empty.
  - by eapply always_returns_intro.
Qed.

(** ** Rounds *)

Lemma drains_ext n tr q tr' q' :
  drains n tr q -> (forall i, i < n -> tr' i = tr i) -> (forall s d, q' s d = q s d) ->
  drains n tr' q'.
Proof.
  intros H. revert tr' q'.
  induction H as [tr q Htr Hq|tr q i d m rest Hi Htr _ IH|tr q i s sel y rest q1 Hi Htr Ht _ IH
    |tr q rest Hn Htr _ IH]; intros tr' q' Et Eq.
  - apply drains_done; intros; by rewrite ?Et, ?Eq; auto.
  - eapply drains_put; [done|by rewrite Et|]. apply IH.
    + intros j Hj. unfold set_fn. destruct (decide _); auto.
    + intros s' d'. unfold set_queue. destruct (decide _); [by rewrite Eq|auto].
  - eapply drains_take; [done|by rewrite Et|by rewrite Eq|]. apply IH.
    + intros j Hj. unfold set_fn. destruct (decide _); auto.
    + intros s' d'. unfold set_queue. destruct (decide _); auto.
  - eapply drains_sync; [done|intros i Hi; by rewrite Et, Htr|]. by apply IH.
Qed.

Definition quiet : nat -> nat -> queue := fun _ _ => [].

(** Schedules in sequence. *)
Lemma drains_app n tr q tr' :
  drains n tr q -> drains n tr' quiet -> drains n (fun i => tr i ++ tr' i) q.
Proof.
  intros H H'. induction H as [tr q Htr Hq|tr q i d m rest Hi Htr _ IH|tr q i s sel y rest q1 Hi Htr Ht _ IH
    |tr q rest Hn Htr _ IH].
  - eapply drains_ext; [exact H'| |]; [intros i Hi; by rewrite Htr|intros s d; apply Hq].
  - eapply drains_put; [done|by rewrite Htr|]. eapply drains_ext; [exact IH| |done].
    intros j Hj. unfold set_fn. case_decide; [by subst|done].
  - eapply drains_take; [done|by rewrite Htr|done|]. eapply drains_ext; [exact IH| |done].
    intros j Hj. unfold set_fn. case_decide; [by subst|done].
  - eapply drains_sync; [done| |exact IH]. intros i Hi. cbn. by rewrite Htr.
Qed.

(** ** Worlds that run together

    [together n op res]: the ranks [0..n] run [op] from quiet queues to quiet
    queues, each to its result; such runs compose. *)
Definition together {A} (n : nat) (op : nat -> proc A) (res : nat -> A) : Prop :=
  exists tr, (forall i, i < n -> exec (mkRank i n) (op i) (tr i) (Ret (res i))) /\ drains n tr quiet.

Definition world_of {A} (n : nat) (op : nat -> proc A) : world A := start (map op (seq 0 n)).

Lemma together_returns {A} n (op : nat -> proc A) res :
  together n op res -> always_returns (world_of n op) (map res (seq 0 n)).
Proof.
  intros (tr & Hex & Hd). apply (world_returns n tr); [by rewrite length_map, length_seq..| |done].
  intros j p r Hp Hr.
  apply list_lookup_fmap_Some_1 in Hp as (j' & -> & [-> Hj]%lookup_seq).
  apply list_lookup_fmap_Some_1 in Hr as (j' & -> & [-> _]%lookup_seq). by apply Hex.
Qed.

Lemma together_ret {A} n (op : nat -> proc A) res :
  (forall i, i < n -> op i = Ret (res i)) -> together n op res.
Proof.
  intros H. exists (fun _ => []). split; [|by apply drains_done]. intros i Hi. rewrite H by done. constructor.
Qed.

Lemma together_ext {A} n (op op' : nat -> proc A) res :
  (forall i, i < n -> op' i = op i) -> together n op res -> together n op' res.
Proof. intros H (tr & Hex & Hd). exists tr. split; [|done]. intros i Hi. rewrite H by done. auto. Qed.

Lemma together_bind {A B} n (op : nat -> proc A) res (f : nat -> A -> proc B) res' :
  together n op res -> together n (fun i => f i (res i)) res' ->
  together n (fun i => op i ≫= f i) res'.
Proof.
  intros (tr & Hex & Hd) (tr' & Hex' & Hd'). exists (fun i => tr i ++ tr' i). split; [|by apply drains_app].
  intros i Hi. eapply exec_app; [exact (exec_bind _ _ _ _ (f i) (Hex i Hi))|]. cbn. auto.
Qed.

Lemma together_try {E A B} n (op : nat -> proc (result E A)) res (f : nat -> A -> proc (result E B)) res' :
  together n op (fun i => Ok (res i)) -> together n (fun i => f i (res i)) res' ->
  together n (fun i => try_bind (op i) (f i)) res'.
Proof. intros H H'. apply (together_bind n op (fun i => Ok (res i)) _ _ H H'). Qed.

Lemma together_lift {E A B} n (x : nat -> result E A) a (f : nat -> A -> proc (result E B)) res :
  (forall i, i < n -> x i = Ok (a i)) -> together n (fun i => f i (a i)) res ->
  together n (fun i => try_bind (lift (x i)) (f i)) res.
Proof.
  intros Hx H. eapply together_ext; [|exact H]. intros i Hi. by rewrite Hx.
Qed.

Lemma together_err {E F A} n (g : E -> F) (op : nat -> proc (result E A)) res :
  together n op (fun i => Ok (res i)) -> together n (fun i => proc_err g (op i)) (fun i => Ok (res i)).
Proof. intros (tr & Hex & Hd). exists tr. split; [|done]. intros i Hi. by apply exec_proc_err, Hex. Qed.

Lemma together_barrier {A} n (k : nat -> cresult unit -> proc A) res :
  0 < n -> together n (fun i => k i (Ok tt)) res -> together n (fun i => Barrier (k i)) res.
Proof.
  intros Hn (tr & Hex & Hd). exists (fun i => Sync :: tr i). split; [|by eapply drains_sync].
  intros i Hi. constructor. auto.
Qed.

Ltac fn_cases :=
  unfold set_fn, set_queue, quiet in *;
  repeat (case_decide || match goal with |- context [decide ?P] => destruct (decide P) end);
  try (naive_solver lia).

(** One message handed over at once: [x] puts what [r] takes. *)
Lemma drains_hand_over n tr x r sel m y tx rx :
  x < n -> r < n -> x <> r -> sel m = Some y ->
  tr x = Act (Put r m) :: tx -> tr r = Act (Take x sel y) :: rx ->
  drains n (set_fn r rx (set_fn x tx tr)) quiet -> drains n tr quiet.
Proof.
  intros Hx Hr Hne Hsel Tx Tr H.
  eapply drains_put; [exact Hx|exact Tx|].
  eapply (drains_take n _ _ r x sel y rx []); [done| | |].
  - unfold set_fn. rewrite decide_False by done. exact Tr.
  - unfold set_queue. rewrite decide_True by done. cbn. by rewrite Hsel.
  - eapply drains_ext; [exact H|done|]. intros s d. fn_cases.
Qed.

(** Rank [root] takes one message from each source, in this order. *)
Lemma drains_gather n root sources m sel y rest tr :
  root < n -> Forall (fun x => x < n /\ x <> root /\ sel x (m x) = Some (y x)) sources ->
  NoDup sources ->
  tr root = map (fun x => Act (Take x (sel x) (y x))) sources ++ rest root ->
  (forall i, i < n -> i <> root ->
     tr i = if decide (i ∈ sources) then Act (Put root (m i)) :: rest i else rest i) ->
  drains n rest quiet -> drains n tr quiet.
Proof.
  intros Hr Hs Hnd. revert tr. induction sources as [|x xs IH]; intros tr Troot Tr H.
  - eapply drains_ext; [exact H| |done]. intros i Hi.
    destruct (decide (i = root)) as [->|]; [exact Troot|]. rewrite Tr by done.
    by rewrite decide_False by set_solver.
  - apply List.Forall_cons_iff in Hs as [(Hx & Hxr & Hsel) Hs].
    apply list.NoDup_cons in Hnd as [Hxs Hnd].
    eapply (drains_hand_over n tr x root (sel x) (m x) (y x) (rest x)); [done..| |exact Troot|].
    { rewrite Tr by done. by rewrite decide_True by set_solver. }
    apply IH; [done..| | |done].
    + unfold set_fn. by rewrite decide_True.
    + intros i Hi Hir. unfold set_fn. rewrite decide_False by done.
      destruct (decide (i = x)) as [->|]; [by rewrite decide_False|].
      rewrite Tr by done. repeat case_decide; try done; set_solver.
Qed.

(** Rank [root] puts one message for each destination, in this order. *)
Lemma drains_scatter n root dests m sel y rest tr :
  root < n -> Forall (fun x => x < n /\ x <> root /\ sel x (m x) = Some (y x)) dests ->
  NoDup dests ->
  tr root = map (fun x => Act (Put x (m x))) dests ++ rest root ->
  (forall i, i < n -> i <> root ->
     tr i = if decide (i ∈ dests) then Act (Take root (sel i) (y i)) :: rest i else rest i) ->
  drains n rest quiet -> drains n tr quiet.
Proof.
  intros Hr Hs Hnd. revert tr. induction dests as [|x xs IH]; intros tr Troot Tr H.
  - eapply drains_ext; [exact H| |done]. intros i Hi.
    destruct (decide (i = root)) as [->|]; [exact Troot|]. rewrite Tr by done.
    by rewrite decide_False by set_solver.
  - apply List.Forall_cons_iff in Hs as [(Hx & Hxr & Hsel) Hs].
    apply list.NoDup_cons in Hnd as [Hxs Hnd].
    eapply (drains_hand_over n tr root x (sel x) (m x) (y x)); [done..|exact Troot| |].
    { rewrite Tr by done. by rewrite decide_True by set_solver. }
    apply IH; [done..| | |done].
    + unfold set_fn. rewrite decide_False by done. by rewrite decide_True.
    + intros i Hi Hir. unfold set_fn.
      destruct (decide (i = x)) as [->|]; [by rewrite decide_False|].
      rewrite decide_False by done.
      rewrite Tr by done. repeat case_decide; try done; set_solver.
Qed.

(** Every rank sends to [dst] and receives from [src], inverse maps. *)
Section ExchangeRound.
Context (n : nat) (dst src : nat -> nat) (m : nat -> Message)
  (sel : nat -> Message -> option MessagePayload) (y : nat -> MessagePayload)
  (rest : nat -> list event).
Hypothesis Hdst : forall i, i < n -> dst i < n /\ src (dst i) = i.
Hypothesis Hsrc : forall i, i < n -> src i < n /\ dst (src i) = i.
Hypothesis Hsel : forall i, i < n -> sel i (m (src i)) = Some (y i).

Definition taking (i : nat) : list event := Act (Take (src i) (sel i) (y i)) :: rest i.

Lemma drains_takes k :
  drains n rest quiet -> k <= n ->
  drains n (fun i => if decide (i < n - k) then rest i else taking i)
    (fun s d => if decide (s < n /\ d = dst s /\ n - k <= d) then [m s] else []).
Proof.
  intros H. induction k as [|k IH]; intros Hk.
  - eapply drains_ext; [exact H| |].
    + intros i Hi. rewrite decide_True by lia. done.
    + intros s d. rewrite decide_False; [done|]. intros (Hs & -> & Hd).
      destruct (Hdst s Hs). lia.
  - eapply (drains_take n _ _ (n - S k) (src (n - S k))); [lia| | |].
    + by rewrite decide_False by lia.
    + destruct (Hsrc (n - S k)) as [H1 H2]; [lia|]. rewrite decide_True by (rewrite H2; lia).
      cbn. by rewrite Hsel by lia.
    + eapply drains_ext; [apply IH; lia| |].
      * intros i Hi. unfold set_fn.
        destruct (decide (i = n - S k)) as [->|]; [by rewrite decide_True by lia|].
        repeat case_decide; done || lia.
      * intros s d. unfold set_queue. destruct (decide (s = _ /\ d = _)) as [[-> ->]|Hne].
        -- rewrite decide_False; [done|lia].
        -- repeat case_decide; try done; exfalso; [|lia].
           assert (d = n - S k) as Hd by lia. apply Hne. split; [|done].
           destruct (Hdst s) as [_ <-]; [lia|]. f_equal. lia.
Qed.

Lemma drains_exchange tr :
  (forall i, i < n -> tr i = Act (Put (dst i) (m i)) :: taking i) ->
  drains n rest quiet -> drains n tr quiet.
Proof.
  intros Htr H.
  enough (forall k, k <= n ->
    drains n (fun i => if decide (i < n - k) then taking i else tr i)
      (fun s d => if decide (s < n - k /\ d = dst s) then [m s] else [])) as E.
  { eapply drains_ext; [apply (E n); lia| |].
    - intros i Hi. cbv beta. by rewrite decide_False by lia.
    - intros s d. cbv beta. by rewrite decide_False by lia. }
  induction k as [|k IH]; intros Hk.
  - eapply drains_ext; [apply (drains_takes n H); lia| |].
    + intros i Hi. cbv beta. repeat case_decide; done || lia.
    + intros s d. repeat case_decide; done || lia.
  - eapply (drains_put n _ _ (n - S k)); [lia| |].
    + rewrite decide_False by lia. apply Htr. lia.
    + eapply drains_ext; [apply IH; lia| |].
      * intros i Hi. unfold set_fn.
        destruct (decide (i = n - S k)) as [->|]; [by rewrite decide_True by lia|].
        repeat case_decide; done || lia.
      * intros s d. unfold set_queue. destruct (decide (s = _ /\ d = _)) as [[-> ->]|Hne].
        -- rewrite decide_False by lia. rewrite decide_True by lia. done.
        -- repeat case_decide; try done; exfalso; [lia|].
           apply Hne. assert (s = n - S k) as -> by lia. naive_solver.
Qed.

End ExchangeRound.
