(* ===== verification/Tensor.v ===== *)
(** * Tensors and their packets

    The Candle tensors the communication code handles, by their logical
    contents: device, element type, dimensions and the elements in row-major
    order (an [f32] is its bit pattern).  The operations are those the code
    calls - [narrow], [cat], [+], [flatten_all], [reshape] - with the argument
    checks of the vendored [candle-core]; a Candle error is a [TensorError]
    naming the operation.  Addition of [f32] is a parameter ([FloatOps]).

    Models the conversions of [crates/collectives/src/tensor.rs] and the tensor
    calls of [communicator.rs] over the processes of [World.v]. *)
From S2P Require Import Prelude Rank Packet Mailbox World.

Inductive Device : Type := Cpu | OtherDevice (name : string).
Inductive DType : Type := F32 | OtherDType (name : string).

#[global] Instance Device_eq_dec : EqDecision Device.
Proof. solve_decision. Defined.
#[global] Instance DType_eq_dec : EqDecision DType.
Proof. solve_decision. Defined.

Record Tensor : Type := mkTensor
  { device : Device; dtype : DType; dims : list nat; elements : list f32 }.

#[global] Instance Tensor_eq_dec : EqDecision Tensor.
Proof. solve_decision. Defined.

(** Elementwise addition of 32-bit floats, as the processor does it. *)
Class FloatOps : Type := { fadd : f32 -> f32 -> f32 }.

Definition product (l : list nat) : nat := foldr Nat.mul 1 l.

Definition tensor_wf (t : Tensor) : Prop := length (elements t) = product (dims t).
Definition cpu_f32 (t : Tensor) : Prop := device t = Cpu /\ dtype t = F32.

Definition elem_count (t : Tensor) : nat := product (dims t).
Definition candle_error {A} (op : string) : cresult A := Err (TensorError op).

(** The [{:?}] of a shape. *)
Fixpoint debug_items (l : list nat) : string :=
  match l with
  | [] => ""
  | [d] => pretty d
  | d :: l => pretty d +:+ ", " +:+ debug_items l
  end.
Definition debug_dims (l : list nat) : string := "[" +:+ debug_items l +:+ "]".

Definition dim (t : Tensor) (axis : nat) : cresult nat := ok_or (dims t !! axis) (TensorError "dim").

(** Consecutive blocks of a list. *)
Fixpoint blocks {A} (k size : nat) (l : list A) : list (list A) :=
  match k with
  | O => []
  | S k => take size l :: blocks k size (drop size l)
  end.

Definition outer (axis : nat) (d : list nat) : nat := product (take axis d).
Definition inner (axis : nat) (d : list nat) : nat := product (drop (S axis) d).

Arguments product : simpl never.
Arguments outer : simpl never.
Arguments inner : simpl never.

(** The elements grouped by the indices before [axis]. *)
Definition axis_blocks (axis : nat) (t : Tensor) : list (list f32) :=
  blocks (outer axis (dims t)) (default 0 (dims t !! axis) * inner axis (dims t)) (elements t).

Definition slice {A} (start len : nat) (l : list A) : list A := take len (drop start l).

(** [Tensor::narrow]. *)
Definition narrow (t : Tensor) (axis start len : nat) : cresult Tensor :=
  match dims t !! axis with
  | None => candle_error "narrow"
  | Some d =>
      if Nat.ltb d start || Nat.ltb d (start + len) then candle_error "narrow"
      else
        let n := inner axis (dims t) in
        Ok (mkTensor (device t) (dtype t) (<[axis := len]> (dims t))
              (concat (map (slice (start * n) (len * n)) (axis_blocks axis t))))
  end.

Definition same_but_axis (axis : nat) (d e : list nat) : bool :=
  Nat.eqb (length d) (length e) && bool_decide (<[axis := 0]> d = <[axis := 0]> e).

Definition cat_blocks (axis : nat) (n : nat) (ts : list Tensor) : list (list f32) :=
  foldr (fun t acc => zip_with app (axis_blocks axis t) acc) (replicate n []) ts.

Definition axis_sum (axis : nat) (ts : list Tensor) : nat :=
  foldr (fun t acc => default 0 (dims t !! axis) + acc) 0 ts.

(** [Tensor::cat]. *)
Definition cat (ts : list Tensor) (axis : nat) : cresult Tensor :=
  match ts with
  | [] => candle_error "cat"
  | [t] => Ok t
  | t :: _ =>
      if negb (Nat.ltb axis (length (dims t)))
         || negb (forallb (fun u => same_but_axis axis (dims t) (dims u)) ts)
      then candle_error "cat"
      else Ok (mkTensor (device t) (dtype t) (<[axis := axis_sum axis ts]> (dims t))
                 (concat (cat_blocks axis (outer axis (dims t)) ts)))
  end.

(** [&a + &b]. *)
Definition add `{FloatOps} (t u : Tensor) : cresult Tensor :=
  if negb (bool_decide (dims t = dims u)) || negb (bool_decide (device t = device u))
     || negb (bool_decide (dtype t = dtype u))
  then candle_error "add"
  else Ok (mkTensor (device t) (dtype t) (dims t) (zip_with fadd (elements t) (elements u))).

(** [Tensor::flatten_all], [Tensor::reshape]. *)
Definition flatten_all (t : Tensor) : cresult Tensor :=
  Ok (mkTensor (device t) (dtype t) [elem_count t] (elements t)).
Definition reshape (t : Tensor) (shape : list nat) : cresult Tensor :=
  if Nat.eqb (product shape) (elem_count t)
  then Ok (mkTensor (device t) (dtype t) shape (elements t))
  else candle_error "reshape".

(** ** Packets *)

Definition shape_of (d : list nat) : list N := map N.of_nat d.

Definition device_name (d : Device) : string :=
  match d with Cpu => "Cpu" | OtherDevice n => n end.
Definition dtype_name (d : DType) : string :=
  match d with F32 => "F32" | OtherDType n => n end.

(** [TensorPacket::from_tensor]. *)
Definition from_tensor (t : Tensor) : cresult TensorPacket :=
  if negb (bool_decide (device t = Cpu)) then Err (UnsupportedTensorDevice (device_name (device t)))
  else if negb (bool_decide (dtype t = F32)) then Err (UnsupportedTensorDType (dtype_name (dtype t)))
  else Packets.new (shape_of (dims t)) (elements t).

(** [TensorPacket::to_tensor]. *)
Definition to_tensor (self : TensorPacket) : cresult Tensor :=
  expected ← element_count (shape self);
  if negb (N.eqb expected (lenN (values self)))
  then Err (ElementCountMismatch (shape self) expected (lenN (values self)))
  else Ok (mkTensor Cpu F32 (map N.to_nat (shape self)) (values self)).

(** Tensors the program can hold and send: contiguous storage in memory. *)
Definition sendable (t : Tensor) : Prop :=
  tensor_wf t /\ cpu_f32 t /\ element_count (shape_of (dims t)) = Ok (lenN (elements t)) /\
  (lenN (elements t) * 4 < U64)%N.

(** ** Communicator *)

(** [Communicator::send_tensor], [recv_tensor], [send_control], [recv_control]. *)
Definition send_tensor (destination : nat) (tag : MessageTag) (tensor : Tensor) : cproc unit :=
  packet ⟵ lift (from_tensor tensor);
  Send destination (mkMessage tag (TensorPayload packet)) Ret.

Definition recv_tensor (source : nat) (tag : MessageTag) : cproc Tensor :=
  packet ⟵ Recv source tag Ret;
  lift (to_tensor packet).

Definition send_control (destination : nat) (tag : MessageTag) (bytes : list byte) : cproc unit :=
  packet ⟵ lift (Control.new bytes);
  Send destination (mkMessage tag (ControlPayload packet)) Ret.

Definition recv_control (source : nat) (tag : MessageTag) : cproc (list byte) :=
  packet ⟵ RecvControl source tag Ret;
  lift (Ok (control_bytes packet)).

Definition barrier : cproc unit := Barrier Ret.

(** ** Laws *)

Lemma from_tensor_sendable t :
  sendable t -> from_tensor t = Ok (mkTensorPacket (shape_of (dims t)) (elements t)).
Proof.
  intros (_ & [Hd Ht] & Hc & _). unfold from_tensor, Packets.new. rewrite Hd, Ht, Hc. cbn.
  by rewrite N.eqb_refl.
Qed.

Lemma shape_of_back d : map N.to_nat (shape_of d) = d.
Proof. unfold shape_of. rewrite map_map. induction d; cbn; [done|]. rewrite Nat2N.id. congruence. Qed.

Lemma to_from_tensor t :
  sendable t -> to_tensor (mkTensorPacket (shape_of (dims t)) (elements t)) = Ok t.
Proof.
  intros (_ & [Hd Ht] & Hc & _). unfold to_tensor. cbn. rewrite Hc. cbn. rewrite N.eqb_refl. cbn.
  rewrite shape_of_back. destruct t; cbn in *; congruence.
Qed.

(** Copying a tensor into a packet and back is the identity, bit for bit. *)
Lemma packet_round_trip t p : sendable t -> from_tensor t = Ok p -> to_tensor p = Ok t.
Proof. intros H. rewrite from_tensor_sendable by done. intros [= <-]. by apply to_from_tensor. Qed.

Lemma length_blocks {A} k size (l : list A) : length (blocks k size l) = k.
Proof. revert l. induction k; intros; cbn; auto. Qed.

Lemma concat_blocks {A} k size (l : list A) : length l = k * size -> concat (blocks k size l) = l.
Proof.
  revert l. induction k as [|k IH]; intros l Hl; cbn in *; [by destruct l|].
  rewrite IH; [apply take_drop|]. rewrite length_drop. lia.
Qed.

Lemma blocks_lengths {A} k size (l : list A) :
  length l = k * size -> Forall (fun b => length b = size) (blocks k size l).
Proof.
  revert l. induction k as [|k IH]; intros l Hl; cbn in *; constructor.
  - rewrite length_take. lia.
  - apply IH. rewrite length_drop. lia.
Qed.

Lemma blocks_concat {A} size (bs : list (list A)) :
  Forall (fun b => length b = size) bs -> blocks (length bs) size (concat bs) = bs.
Proof.
  induction 1 as [|b bs Hb _ IH]; cbn; [done|].
  rewrite take_app_length', drop_app_length' by done. by rewrite IH.
Qed.

Lemma slices_blocks {A} w size (l : list A) :
  map (fun i => slice (i * size) size l) (seq 0 w) = blocks w size l.
Proof.
  revert l. induction w as [|w IH]; intros l; cbn; [done|]. f_equal.
  rewrite <- seq_shift, map_map, <- IH. apply map_ext. intros i. unfold slice; cbn.
  by rewrite drop_drop.
Qed.

Lemma product_split axis d n :
  d !! axis = Some n -> product d = outer axis d * (n * inner axis d).
Proof.
  unfold outer, inner. revert axis. induction d as [|x d IH]; intros [|axis] H; cbn in *; try done.
  - injection H as ->. unfold product; cbn. by rewrite drop_0, Nat.add_0_r.
  - unfold product in *. cbn. rewrite (IH axis H). lia.
Qed.

Lemma outer_insert axis d n : outer axis (<[axis := n]> d) = outer axis d.
Proof. unfold outer. by rewrite take_insert_ge by lia. Qed.
Lemma inner_insert axis d n : inner axis (<[axis := n]> d) = inner axis d.
Proof. unfold inner. by rewrite drop_insert_lt by lia. Qed.

Lemma axis_blocks_length axis t : length (axis_blocks axis t) = outer axis (dims t).
Proof. apply length_blocks. Qed.

Lemma axis_blocks_lengths axis t n :
  tensor_wf t -> dims t !! axis = Some n ->
  Forall (fun b => length b = n * inner axis (dims t)) (axis_blocks axis t).
Proof.
  intros Hwf Ha. unfold axis_blocks. rewrite Ha. cbn. apply blocks_lengths.
  rewrite Hwf. by apply product_split.
Qed.

Lemma concat_axis_blocks axis t n :
  tensor_wf t -> dims t !! axis = Some n -> concat (axis_blocks axis t) = elements t.
Proof.
  intros Hwf Ha. unfold axis_blocks. rewrite Ha. apply concat_blocks.
  rewrite Hwf. by apply product_split.
Qed.

Lemma length_concat_const {A} k (bs : list (list A)) :
  Forall (fun b => length b = k) bs -> length (concat bs) = length bs * k.
Proof. induction 1 as [|b bs Hb _ IH]; cbn; [done|]. rewrite length_app. lia. Qed.

(** A tensor given by its blocks along an axis. *)
Definition of_blocks (t : Tensor) (axis n : nat) (bs : list (list f32)) : Tensor :=
  mkTensor (device t) (dtype t) (<[axis := n]> (dims t)) (concat bs).

Lemma of_blocks_spec t axis n bs :
  axis < length (dims t) -> length bs = outer axis (dims t) ->
  Forall (fun b => length b = n * inner axis (dims t)) bs ->
  let u := of_blocks t axis n bs in
  tensor_wf u /\ dims u !! axis = Some n /\ axis_blocks axis u = bs.
Proof.
  intros Ha Hl Hb. cbn. assert (Hn : <[axis := n]> (dims t) !! axis = Some n)
    by (by apply list_lookup_insert_eq).
  split; [|split; [done|]].
  - unfold tensor_wf; cbn. rewrite (product_split axis _ n) by done.
    rewrite outer_insert, inner_insert, <- Hl. by apply length_concat_const.
  - unfold axis_blocks, of_blocks; cbn. rewrite Hn, outer_insert, inner_insert, <- Hl.
    by apply blocks_concat.
Qed.

Definition shard (t : Tensor) (axis c i : nat) : Tensor :=
  let n := inner axis (dims t) in
  of_blocks t axis c (map (slice (i * c * n) (c * n)) (axis_blocks axis t)).

Lemma slice_length {A} start len (l : list A) : start + len <= length l -> length (slice start len l) = len.
Proof. intros. unfold slice. rewrite length_take, length_drop. lia. Qed.

Section Shards.
Context (t : Tensor) (axis w c : nat).
Hypothesis Hwf : tensor_wf t.
Hypothesis Hdim : dims t !! axis = Some (w * c).

Lemma narrow_shard i : i < w -> narrow t axis (i * c) c = Ok (shard t axis c i).
Proof.
  intros Hi. unfold narrow. rewrite Hdim.
  assert (i * c + c <= w * c) by (rewrite <- Nat.mul_succ_l; apply Nat.mul_le_mono_r; lia).
  destruct (Nat.ltb_spec (w * c) (i * c)); [lia|].
  destruct (Nat.ltb_spec (w * c) (i * c + c)); [lia|]. done.
Qed.

Lemma shard_spec i :
  i < w -> tensor_wf (shard t axis c i) /\ dims (shard t axis c i) !! axis = Some c /\
  axis_blocks axis (shard t axis c i) =
    map (slice (i * (c * inner axis (dims t))) (c * inner axis (dims t))) (axis_blocks axis t).
Proof.
  intros Hi. unfold shard. rewrite <- Nat.mul_assoc. apply of_blocks_spec.
  - by eapply lookup_lt_Some.
  - by rewrite length_map, axis_blocks_length.
  - apply Forall_map. generalize (axis_blocks_lengths axis t _ Hwf Hdim).
    apply Forall_impl. intros b Hb. cbn in Hb |- *. apply slice_length. rewrite Hb, <- Nat.mul_succ_l, <- Nat.mul_assoc.
    rewrite !(Nat.mul_comm _ (c * _)). apply Nat.mul_le_mono_l. lia.
Qed.

Lemma shard_dims i : dims (shard t axis c i) = <[axis := c]> (dims t).
Proof. done. Qed.

Lemma shard_cpu i : cpu_f32 t -> cpu_f32 (shard t axis c i).
Proof. done. Qed.

Lemma narrow_all l :
  Forall (fun i => i < w) l ->
  mapM (fun i => narrow t axis (i * c) c) l = Ok (map (shard t axis c) l).
Proof.
  intros Hl. apply mapM_Ok. intros i Hi. apply narrow_shard.
  rewrite List.Forall_forall in Hl. apply Hl. by apply list_elem_of_In.
Qed.

End Shards.

Lemma zip_app_nil (bs : list (list f32)) n : length bs = n -> zip_with app bs (replicate n []) = bs.
Proof. intros <-. induction bs as [|b bs IH]; cbn; [done|]. by rewrite app_nil_r, IH. Qed.

(** [cat] of one or more tensors that agree outside [axis]. *)
Lemma cat_ok axis t ts :
  tensor_wf t -> axis < length (dims t) ->
  Forall (fun u => same_but_axis axis (dims t) (dims u) = true) ts ->
  cat (t :: ts) axis = Ok (of_blocks t axis (axis_sum axis (t :: ts))
                             (cat_blocks axis (outer axis (dims t)) (t :: ts))).
Proof.
  intros Hwf Ha Hs. destruct ts as [|u ts].
  - cbn. f_equal. apply lookup_lt_is_Some_2 in Ha as [n Hn].
    rewrite zip_app_nil by apply axis_blocks_length. unfold of_blocks.
    rewrite Hn, (concat_axis_blocks axis t n) by done. cbn.
    rewrite Nat.add_0_r, list_insert_id by done. by destruct t.
  - cbn [cat]. destruct (Nat.ltb_spec axis (length (dims t))); [|lia]. cbn [negb orb].
    rewrite (proj2 (forallb_forall _ _)); [done|].
    intros v [<-|Hv].
    + unfold same_but_axis. rewrite Nat.eqb_refl. by rewrite bool_decide_eq_true_2.
    + rewrite List.Forall_forall in Hs. by apply Hs.
Qed.

Lemma same_but_axis_insert axis d e n m :
  same_but_axis axis (<[axis := n]> d) (<[axis := m]> e) = same_but_axis axis d e.
Proof. unfold same_but_axis. by rewrite !length_insert, !list_insert_insert_eq. Qed.

Lemma same_but_axis_refl axis d : same_but_axis axis d d = true.
Proof. unfold same_but_axis. by rewrite Nat.eqb_refl, bool_decide_eq_true_2. Qed.

(** Concatenating the shards of a tensor, in order, gives the tensor back. *)
Lemma cat_shards t axis w c :
  tensor_wf t -> dims t !! axis = Some (w * c) -> 0 < w ->
  cat (map (shard t axis c) (seq 0 w)) axis = Ok t.
Proof.
  intros Hwf Hd Hw. assert (Ha : axis < length (dims t)) by (by eapply lookup_lt_Some).
  pose proof (shard_spec t axis w c Hwf Hd) as Hsh.
  assert (Hblocks : forall l, Forall (fun i => i < w) l ->
    cat_blocks axis (outer axis (dims t)) (map (shard t axis c) l) =
    map (fun b => concat (map (fun i => slice (i * (c * inner axis (dims t)))
                                          (c * inner axis (dims t)) b) l)) (axis_blocks axis t)).
  { unfold cat_blocks. induction 1 as [|i l Hi _ IH]; cbn [map foldr].
    - rewrite <- (axis_blocks_length axis t). generalize (axis_blocks axis t). clear.
      intros bs. induction bs as [|b bs IH]; [done|]. cbn. f_equal. exact IH.
    - destruct (Hsh i Hi) as (_ & _ & ->). rewrite IH.
      generalize (axis_blocks axis t). clear. intros bs.
      induction bs as [|b bs IH]; [done|]. cbn. f_equal. exact IH. }
  assert (Hsum : forall l, Forall (fun i => i < w) l ->
    axis_sum axis (map (shard t axis c) l) = length l * c).
  { unfold axis_sum. induction 1 as [|i l Hi _ IH]; cbn [map foldr length]; [done|].
    destruct (Hsh i Hi) as (_ & -> & _). cbn [default]. rewrite IH. cbn. lia. }
  assert (Hseq : Forall (fun i => i < w) (seq 0 w)).
  { apply List.Forall_forall. intros i Hi%list_elem_of_In%elem_of_seq. lia. }
  destruct w as [|w']; [lia|]. cbn [seq map] in *.
  rewrite cat_ok.
  - pose proof (Hsum _ Hseq) as HS. pose proof (Hblocks _ Hseq) as HB. cbn [map] in HS, HB.
    rewrite HS. cbn [dims shard of_blocks]. rewrite outer_insert, HB. cbn [length].
    rewrite length_seq. unfold of_blocks. cbn [device dtype dims shard of_blocks].
    rewrite list_insert_insert_eq, list_insert_id by done.
    rewrite (map_ext_in _ id).
    + rewrite map_id, (concat_axis_blocks axis t _ Hwf Hd). by destruct t.
    + intros b Hb.       match goal with |- ?x = _ =>
        change x with (concat (map (fun i => slice (i * (c * inner axis (dims t)))
          (c * inner axis (dims t)) b) (seq 0 (S w')))) end.
      rewrite slices_blocks. apply concat_blocks.
      pose proof (axis_blocks_lengths axis t _ Hwf Hd) as Hl. rewrite List.Forall_forall in Hl.
      etransitivity; [exact (Hl b Hb)|lia].
  - by apply Hsh; lia.
  - by rewrite shard_dims, length_insert.
  - apply Forall_map, List.Forall_forall. intros i _. cbn [shard of_blocks dims].
    by rewrite same_but_axis_insert, same_but_axis_refl.
Qed.

Lemma add_ok `{FloatOps} t u :
  cpu_f32 t -> cpu_f32 u -> dims t = dims u ->
  add t u = Ok (mkTensor Cpu F32 (dims t) (zip_with fadd (elements t) (elements u))).
Proof.
  intros [E1 E2] [E3 E4] Hd. unfold add. rewrite E1, E2, E3, E4, Hd.
  by rewrite !bool_decide_eq_true_2.
Qed.

(** ** Shards can be sent *)

Lemma try_fold_mul_mono c c' d d' x' :
  (c <= c')%N -> Forall2 N.le d d' -> try_fold_mul c' d' = Some x' ->
  exists x, try_fold_mul c d = Some x /\ (x <= x')%N.
Proof.
  intros Hc Hd. revert c c' Hc. induction Hd as [|a b d d' Hab _ IH]; intros c c' Hc; cbn.
  - intros [= <-]. eauto.
  - destruct (checked_mul c' b) as [m|] eqn:E; cbn; [|done].
    apply checked_mul_Some in E as [-> Hlt].
    assert (c * a <= c' * b)%N by (by apply N.mul_le_mono).
    unfold checked_mul. destruct (N.ltb_spec (c * a) U64); [|lia]. cbn. by apply IH.
Qed.

Lemma shape_of_product d : Packet.product (shape_of d) = N.of_nat (product d).
Proof.
  unfold shape_of, product, Packet.product. induction d as [|x d IH]; cbn; [done|].
  rewrite IH. lia.
Qed.

Lemma element_count_le d d' :
  Forall2 le d d' -> is_ok (element_count (shape_of d')) = true ->
  element_count (shape_of d) = Ok (N.of_nat (product d)).
Proof.
  intros Hd. unfold element_count.
  destruct (try_fold_mul 1 (shape_of d')) as [x'|] eqn:E; [|done]. intros _.
  destruct (try_fold_mul_mono 1 1 (shape_of d) (shape_of d') x') as (x & Hx & _);
    [done| |done|].
  - clear E. unfold shape_of. induction Hd; cbn; [constructor|]. constructor; [lia|done].
  - rewrite Hx. cbn. apply try_fold_mul_product in Hx. rewrite shape_of_product in Hx.
    f_equal. lia.
Qed.

Lemma sendable_le t u :
  sendable t -> tensor_wf u -> cpu_f32 u -> Forall2 le (dims u) (dims t) ->
  length (elements u) <= length (elements t) -> sendable u.
Proof.
  intros (_ & _ & Hc & Hb) Hwf Hcpu Hd Hl. split; [done|]. split; [done|]. split.
  - rewrite (element_count_le _ (dims t)); [by rewrite <- Hwf|done|by rewrite Hc].
  - unfold lenN in *. lia.
Qed.

Lemma Forall2_le_refl l : Forall2 le l l.
Proof. induction l; by constructor. Qed.

Lemma sendable_shard t axis w c i :
  sendable t -> dims t !! axis = Some (w * c) -> i < w -> sendable (shard t axis c i).
Proof.
  intros Ht Hd Hi. destruct (shard_spec t axis w c (proj1 Ht) Hd i Hi) as (Hwf & Hc & _).
  assert (Hle : c <= w * c) by (destruct w; [lia|]; cbn; lia).
  assert (Hprod : product (dims (shard t axis c i)) <= product (dims t)).
  { rewrite shard_dims. rewrite (product_split axis (<[axis:=c]> (dims t)) c), (product_split axis _ _ Hd).
    - rewrite outer_insert, inner_insert. apply Nat.mul_le_mono_l, Nat.mul_le_mono_r. done.
    - apply list_lookup_insert_eq. by eapply lookup_lt_Some. }
  apply (sendable_le t); [done..|by apply shard_cpu, Ht| |].
  - rewrite shard_dims. apply Forall2_same_length_lookup. split; [by rewrite length_insert|].
    intros j x y Hx Hy. destruct (decide (j = axis)) as [->|Hne].
    + rewrite list_lookup_insert_eq in Hx by (by eapply lookup_lt_Some). simplify_eq. done.
    + rewrite list_lookup_insert_ne in Hx by done. simplify_eq. done.
  - rewrite Hwf. rewrite (proj1 Ht). done.
Qed.
