(* ===== verification/Float.v ===== *)
(** * IEEE 754 binary32 addition

    A concrete instance of [Tensor.FloatOps]: addition of [f32] bit patterns
    rounded to nearest even ([SpecFloat]), with one canonical NaN.  The theorems
    hold for any addition; this one serves to run the model. *)
From Stdlib Require Import ZArith.
From Stdlib Require Import SpecFloat.
From S2P Require Import Prelude Rank Packet Mailbox World Tensor.

Definition decode_f32 (n : f32) : spec_float :=
  let s := N.testbit n 31 in
  let e := ((n / 8388608) mod 256)%N in
  let m := (n mod 8388608)%N in
  if (e =? 255)%N then (if (m =? 0)%N then S754_infinity s else S754_nan)
  else if (e =? 0)%N then
    match m with N0 => S754_zero s | Npos p => S754_finite s p (-149) end
  else match (m + 8388608)%N with
       | N0 => S754_zero s
       | Npos p => S754_finite s p (Z.of_N e - 150)
       end.

Definition encode_f32 (x : spec_float) : f32 :=
  let sign (s : bool) : N := if s then 2147483648%N else 0%N in
  match x with
  | S754_nan => 2143289344%N
  | S754_infinity s => (sign s + 2139095040)%N
  | S754_zero s => sign s
  | S754_finite s m e =>
      if (Npos m <? 8388608)%N then (sign s + Npos m)%N
      else (sign s + Z.to_N (e + 150) * 8388608 + (Npos m - 8388608))%N
  end.

#[local] Instance binary32 : FloatOps :=
  {| fadd a b := encode_f32 (SFadd 24 128 (decode_f32 a) (decode_f32 b)) |}.

(** 1.0 + 2.0 = 3.0, 0.1 + 0.2 = 0.3 (rounded), 1.0 + infinity = infinity. *)
Example fadd_one_two : fadd 1065353216%N 1073741824%N = 1077936128%N.
Proof. vm_compute. reflexivity. Qed.
Example fadd_tenths : fadd 1036831949%N 1045220557%N = 1050253722%N.
Proof. vm_compute. reflexivity. Qed.
Example fadd_infinity : fadd 1065353216%N 2139095040%N = 2139095040%N.
Proof. vm_compute. reflexivity. Qed.

(** ** Conversions and comparison *)

(** [n as f32], rounded to nearest even: the [24] leading bits of the number,
    and the exponent; a carry out of the fraction moves into the exponent. *)
Definition as_f32 (n : N) : f32 :=
  (if n =? 0 then 0 else
   let e := N.log2 n in
   let significand :=
     if e <=? 23 then n * 2 ^ (23 - e) else
     let unit := 2 ^ (e - 23) in
     let q := n / unit in
     let twice := 2 * (n mod unit) in
     if (unit <? twice) || ((unit =? twice) && N.odd q) then q + 1 else q in
   (e + 127) * 8388608 + (significand - 8388608))%N.

(** [==] of [f32]: no NaN equals anything, the zeros are equal. *)
Definition is_nan (a : f32) : bool := (255 * 8388608 <? a mod 2147483648)%N.
Definition f32_eqb (a b : f32) : bool :=
  (negb (is_nan a) && negb (is_nan b) &&
   ((a =? b) || ((a mod 2147483648 =? 0) && (b mod 2147483648 =? 0))))%N.

(** The conversion agrees with rounding in [SpecFloat]. *)
Example as_f32_rounds :
  map as_f32 [0; 1; 3; 16777217; 16777219; 33554431; 18446744073709551615]%N =
  map (fun z => encode_f32 (binary_normalize 24 128 z 0 false))
    [0; 1; 3; 16777217; 16777219; 33554431; 18446744073709551615]%Z.
Proof. vm_compute. reflexivity. Qed.

Lemma as_f32_significand n : (0 < n)%N ->
  exists s, (s <= 16777216)%N /\ (as_f32 n = (N.log2 n + 127) * 8388608 + (s - 8388608))%N.
Proof.
  intros Hn. unfold as_f32. destruct (N.eqb_spec n 0); [lia|]. eexists. split; [|reflexivity].
  pose proof (N.log2_spec n Hn) as [_ Hl].
  destruct (N.leb_spec (N.log2 n) 23) as [He|He].
  - apply N.le_trans with (2 ^ N.succ (N.log2 n) * 2 ^ (23 - N.log2 n))%N.
    + apply N.mul_le_mono_r. lia.
    + rewrite <- N.pow_add_r. change 16777216%N with (2 ^ 24)%N. apply N.pow_le_mono_r; lia.
  - assert (n / 2 ^ (N.log2 n - 23) < 16777216)%N as Hq.
    { apply N.Div0.div_lt_upper_bound. rewrite N.mul_comm. change 16777216%N with (2 ^ 24)%N.
      rewrite <- N.pow_add_r. replace (24 + (N.log2 n - 23))%N with (N.succ (N.log2 n)) by lia. done. }
    case_match; lia.
Qed.

Lemma as_f32_number n : (n < U64)%N -> is_nan (as_f32 n) = false.
Proof.
  intros Hn. unfold is_nan. apply N.ltb_ge. destruct (N.eqb_spec n 0) as [->|Hz]; [done|].
  destruct (as_f32_significand n ltac:(lia)) as (s & Hs & ->).
  assert (N.log2 n <= 63)%N as He by (apply N.lt_succ_r, N.log2_lt_pow2; [lia|exact Hn]).
  rewrite N.mod_small by lia. lia.
Qed.

Lemma f32_eqb_refl a : is_nan a = false -> f32_eqb a a = true.
Proof. intros H. unfold f32_eqb. by rewrite H, N.eqb_refl. Qed.
