(* ===== verification/FloatExact.v ===== *)
(** * Integers are added exactly

    Binary32 addition ([Float.v]) of integers whose sum is below [2^24] is their
    sum: the sum of two aligned significands needs no rounding.  The law is a
    class, which theorems about integer data ask for; [binary32] is an instance. *)
From Stdlib Require Import ZArith SpecFloat.
From S2P Require Import Prelude Rank Packet Mailbox World Tensor Float.

(** Addition is exact on integers below [2^24]. *)
Class ExactIntegers {FO : FloatOps} : Prop :=
  fadd_integers (a b : N) : (a + b < 16777216)%N -> fadd (as_f32 a) (as_f32 b) = as_f32 (a + b).

Local Open Scope Z_scope.

Lemma digits2_log2 p : Zpos (digits2_pos p) = Z.log2 (Zpos p) + 1.
Proof.
  induction p as [p IH|p IH|]; cbn [digits2_pos]; [| |done]; rewrite Pos2Z.inj_succ, IH.
  - change (Zpos p~1) with (2 * Zpos p + 1). rewrite Z.log2_succ_double by lia. lia.
  - change (Zpos p~0) with (2 * Zpos p). rewrite Z.log2_double by lia. lia.
Qed.

Lemma shl_align_left m e e' : e' <= e -> Zpos (fst (shl_align m e e')) = Zpos m * 2 ^ (e - e').
Proof.
  intros He. unfold shl_align. destruct (e' - e) as [|d|d] eqn:Ed; cbn [fst]; [|lia|].
  - replace (e - e') with 0 by lia. lia.
  - replace (e - e') with (Zpos d) by lia.
    transitivity (Z.shiftl (Zpos m) (Zpos d)); [|by apply Z.shiftl_mul_pow2].
    cbn. by apply (Pos.iter_swap_gen _ _ Zpos xO (Z.mul 2)).
Qed.

Lemma scaled_pos m k : 0 < m -> 0 <= k -> 0 < m * 2 ^ k.
Proof. intros. apply Z.mul_pos_pos; [done|]. by apply Z.pow_pos_nonneg. Qed.

Lemma shr_1_even m : 0 < m -> shr_1 {| shr_m := 2 * m; shr_r := false; shr_s := false |} =
  {| shr_m := m; shr_r := false; shr_s := false |}.
Proof. destruct m; [done| |done]. intros _. by destruct p. Qed.

Lemma shr_exact m e d : 0 < m -> 0 <= d ->
  shr {| shr_m := m * 2 ^ d; shr_r := false; shr_s := false |} e d =
  ({| shr_m := m; shr_r := false; shr_s := false |}, e + d).
Proof.
  intros Hm Hd. destruct d as [|p|]; [| |lia].
  { rewrite Z.add_0_r, Z.pow_0_r, Z.mul_1_r. done. }
  unfold shr. f_equal. revert m Hm. clear Hd.
  induction p as [p0 IH|p0 IH|]; intros m Hm; cbn [SpecFloat.iter_pos].
  - replace (m * 2 ^ Zpos p0~1) with (2 * (m * 2 ^ Zpos p0 * 2 ^ Zpos p0)).
    + rewrite shr_1_even by auto using scaled_pos with zarith. rewrite IH by auto using scaled_pos with zarith. by apply IH.
    + replace (Zpos p0~1) with (1 + Zpos p0 + Zpos p0) by lia. rewrite !Z.pow_add_r by lia. lia.
  - replace (m * 2 ^ Zpos p0~0) with (m * 2 ^ Zpos p0 * 2 ^ Zpos p0).
    + rewrite IH by auto using scaled_pos with zarith. by apply IH.
    + replace (Zpos p0~0) with (Zpos p0 + Zpos p0) by lia. rewrite !Z.pow_add_r by lia. lia.
  - replace (m * 2 ^ 1) with (2 * m) by lia. by apply shr_1_even.
Qed.

(** The bits of [n]: a significand of 24 bits. *)
Lemma log2_significand n k : 0 < n -> 0 <= k -> Z.log2 n + k = 23 -> 0 < n * 2 ^ k /\ Zdigits2 (n * 2 ^ k) = 24.
Proof.
  intros Hn Hk Hl. assert (0 < n * 2 ^ k) as Hp by (by apply scaled_pos). split; [done|].
  destruct (n * 2 ^ k) as [|p|] eqn:E; [done| |done]. cbn [Zdigits2].
  rewrite digits2_log2, <- E, Z.log2_mul_pow2 by lia. lia.
Qed.

Lemma fexp_small e : -125 <= e -> fexp 24 128 e = e - 24.
Proof. unfold fexp, emin. lia. Qed.

(** A significand of 24 bits, shifted left, is rounded back exactly. *)
Lemma binary_round_aux_exact m e d : 0 < m -> Zdigits2 m = 24 -> 0 <= d -> -149 <= e <= 104 ->
  binary_round_aux 24 128 false (m * 2 ^ d) (e - d) loc_Exact = S754_finite false (Z.to_pos m) e.
Proof.
  intros Hm Hm24 Hd He.
  assert (Zdigits2 (m * 2 ^ d) = 24 + d) as Hdigits.
  { pose proof (scaled_pos m d Hm Hd) as Hp. destruct m as [|pm|]; [done| |done].
    destruct (Zpos pm * 2 ^ d) as [|p|] eqn:E; [done| |done]. cbn [Zdigits2] in *.
    rewrite digits2_log2, <- E, Z.log2_mul_pow2 by lia. rewrite digits2_log2 in Hm24. lia. }
  unfold binary_round_aux. unfold shr_fexp at 1. rewrite Hdigits, fexp_small by lia.
  replace (24 + d + (e - d) - 24 - (e - d)) with d by lia. cbn [shr_record_of_loc]. rewrite shr_exact by done.
  cbn [shr_m loc_of_shr_record round_nearest_even]. unfold shr_fexp. rewrite Hm24, fexp_small by lia.
  replace (24 + (e - d + d) - 24 - (e - d + d)) with 0 by lia. cbn [shr shr_record_of_loc shr_m].
  replace (e - d + d) with e by lia. destruct m as [|p|]; [done| |done].
  by destruct (Z.leb_spec e (128 - 24)); [|lia].
Qed.

(** Rounding an integer below [2^24], however it is scaled, is exact. *)
Lemma binary_round_exact n j : 0 < n < 2 ^ 24 -> 0 <= j <= 23 ->
  binary_normalize 24 128 (n * 2 ^ j) (- j) false =
  S754_finite false (Z.to_pos (n * 2 ^ (23 - Z.log2 n))) (Z.log2 n - 23).
Proof.
  intros Hn Hj.
  assert (0 <= Z.log2 n < 24) as Hl.
  { split; [apply Z.log2_nonneg|]. apply Z.log2_lt_pow2; [apply Hn|exact (proj2 Hn)]. }
  set (E := Z.log2 n - 23). destruct (log2_significand n (- E)) as [Hp Hd]; [lia..|].
  replace (23 - Z.log2 n) with (- E) by (unfold E; lia).
  assert (0 < n * 2 ^ j) as Hj0 by (apply scaled_pos; lia). fold E.
  unfold binary_normalize. destruct (n * 2 ^ j) as [|p|] eqn:Ep; [lia| |lia].
  unfold binary_round. rewrite digits2_log2, <- Ep, Z.log2_mul_pow2, fexp_small by lia.
  replace (j + Z.log2 n + 1 + - j - 24) with E by lia.
  destruct (Z.le_gt_cases E (- j)) as [Hle|Hgt].
  - pose proof (shl_align_left p (- j) E Hle) as Hs. unfold shl_align in *.
    assert (Z.pos p * 2 ^ (- j - E) = n * 2 ^ (- E)) as Hv.
    { rewrite <- Ep, <- Z.mul_assoc, <- Z.pow_add_r by lia. do 2 f_equal. lia. }
    rewrite Hv in Hs. pose proof (binary_round_aux_exact _ E 0 Hp Hd) as Ha.
    rewrite Z.pow_0_r, Z.mul_1_r, Z.sub_0_r in Ha.
    destruct (E - - j) as [|d|d] eqn:Ed; cbn [fst] in Hs; [|lia|]; rewrite Hs.
    + replace (- j) with E by lia. apply Ha; lia.
    + apply Ha; lia.
  - unfold shl_align. destruct (E - - j) as [|d|d] eqn:Ed; [lia| |lia].
    assert (Zpos p = n * 2 ^ (- E) * 2 ^ Zpos d) as ->.
    { rewrite <- Ep, <- Z.mul_assoc, <- Z.pow_add_r by lia. do 2 f_equal. lia. }
    replace (- j) with (E - Zpos d) by lia. apply binary_round_aux_exact; done || lia.
Qed.

(** The encoding of an integer below [2^24]. *)
Definition exact_float (n : Z) : spec_float :=
  S754_finite false (Z.to_pos (n * 2 ^ (23 - Z.log2 n))) (Z.log2 n - 23).

Lemma significand_range (n : N) : (0 < n < 16777216)%N ->
  (N.log2 n <= 23 /\ 8388608 <= n * 2 ^ (23 - N.log2 n) < 16777216)%N.
Proof.
  intros [Hn Hb]. pose proof (N.log2_spec n Hn) as [H1 H2].
  assert (N.log2 n <= 23)%N as He by (apply N.lt_succ_r, N.log2_lt_pow2; [done|exact Hb]).
  split; [done|]. change 8388608%N with (2 ^ 23)%N. change 16777216%N with (2 ^ 24)%N.
  replace 23%N with (N.log2 n + (23 - N.log2 n))%N at 1 by lia.
  replace 24%N with (N.succ (N.log2 n) + (23 - N.log2 n))%N by lia. rewrite !N.pow_add_r.
  assert (0 < 2 ^ (23 - N.log2 n))%N by (by apply N.neq_0_lt_0, N.pow_nonzero).
  split; [by apply N.mul_le_mono_r|by apply N.mul_lt_mono_pos_r].
Qed.

Lemma as_f32_small (n : N) : (0 < n < 16777216)%N ->
  as_f32 n = ((N.log2 n + 127) * 8388608 + (n * 2 ^ (23 - N.log2 n) - 8388608))%N.
Proof.
  intros Hn. destruct (significand_range n Hn) as [He _]. unfold as_f32.
  destruct (N.eqb_spec n 0); [lia|]. by destruct (N.leb_spec (N.log2 n) 23); [|lia].
Qed.

Lemma log2_of_N (n : N) : (0 < n)%N -> Z.log2 (Z.of_N n) = Z.of_N (N.log2 n).
Proof.
  intros Hn. apply Z.log2_unique; [lia|]. pose proof (N.log2_spec n Hn) as [H1 H2].
  rewrite <- N2Z.inj_succ. change 2 with (Z.of_N 2). rewrite <- !N2Z.inj_pow. lia.
Qed.

Lemma exact_float_N (n : N) : (0 < n < 16777216)%N ->
  exact_float (Z.of_N n) = S754_finite false (Z.to_pos (Z.of_N (n * 2 ^ (23 - N.log2 n)))) (Z.of_N (N.log2 n) - 23).
Proof.
  intros Hn. destruct (significand_range n Hn) as [He _]. unfold exact_float.
  rewrite log2_of_N by lia. rewrite N2Z.inj_mul, N2Z.inj_pow, N2Z.inj_sub by done. done.
Qed.

Lemma as_f32_encodes (n : N) : (0 < n < 16777216)%N -> encode_f32 (exact_float (Z.of_N n)) = as_f32 n.
Proof.
  intros Hn. destruct (significand_range n Hn) as [He Hs]. rewrite exact_float_N, as_f32_small by done.
  destruct (n * 2 ^ (23 - N.log2 n))%N as [|p]; [lia|]. cbn [Z.of_N Z.to_pos encode_f32].
  destruct (N.ltb_spec (Npos p) 8388608); [lia|].
  replace (Z.to_N (Z.of_N (N.log2 n) - 23 + 150)) with (N.log2 n + 127)%N by lia. lia.
Qed.

Lemma as_f32_decodes (n : N) : (0 < n < 16777216)%N -> decode_f32 (as_f32 n) = exact_float (Z.of_N n).
Proof.
  intros Hn. destruct (significand_range n Hn) as [He Hs]. rewrite exact_float_N, as_f32_small by done.
  set (e := N.log2 n) in *. destruct (n * 2 ^ (23 - e))%N as [|p]; [lia|]. unfold decode_f32.
  set (m := (Npos p - 8388608)%N). assert (m < 8388608)%N as Hm by lia.
  assert (((e + 127) * 8388608 + m) / 8388608 = e + 127)%N as Hq
    by (rewrite N.div_add_l, N.div_small by done; lia).
  assert (((e + 127) * 8388608 + m) mod 8388608 = m)%N as Hr
    by (rewrite N.add_comm, N.Div0.mod_add; by apply N.mod_small).
  assert (N.testbit ((e + 127) * 8388608 + m) 31 = false) as Hbit.
  { apply N.bits_above_log2, N.log2_lt_pow2; [lia|]. change (2 ^ 31)%N with 2147483648%N. lia. }
  rewrite Hq, Hr, Hbit, (N.mod_small (e + 127)) by lia.
  destruct (N.eqb_spec (e + 127) 255); [lia|]. destruct (N.eqb_spec (e + 127) 0); [lia|].
  replace (m + 8388608)%N with (Npos p) by lia. cbn [Z.of_N Z.to_pos]. f_equal. lia.
Qed.

Lemma aligned_sum a b : 0 < a < 2 ^ 24 -> 0 < b < 2 ^ 24 ->
  let e := Z.min (Z.log2 a - 23) (Z.log2 b - 23) in
  Zpos (fst (shl_align (Z.to_pos (a * 2 ^ (23 - Z.log2 a))) (Z.log2 a - 23) e)) = a * 2 ^ (- e).
Proof.
  intros Ha Hb e.
  assert (Z.log2 a < 24) by (apply Z.log2_lt_pow2; [apply Ha|exact (proj2 Ha)]).
  assert (0 <= Z.log2 a) by apply Z.log2_nonneg.
  rewrite shl_align_left by lia. rewrite Z2Pos.id by (apply scaled_pos; lia).
  rewrite <- Z.mul_assoc, <- Z.pow_add_r by lia. do 2 f_equal. lia.
Qed.

(** Integers below [2^24] are added exactly. *)
#[local] Existing Instance binary32.
Lemma fadd_exact (a b : N) : (a + b < 16777216)%N -> fadd (as_f32 a) (as_f32 b) = as_f32 (a + b).
Proof.
  intros Hab. cbn [fadd binary32]. destruct (N.eqb_spec a 0) as [->|Ha], (N.eqb_spec b 0) as [->|Hb]; [done|..].
  - change (decode_f32 (as_f32 0)) with (S754_zero false). rewrite as_f32_decodes by lia.
    cbn [SFadd exact_float]. apply as_f32_encodes; lia.
  - change (decode_f32 (as_f32 0)) with (S754_zero false). rewrite as_f32_decodes by lia.
    rewrite N.add_0_r in *. cbn [SFadd exact_float]. apply as_f32_encodes; lia.
  - rewrite !as_f32_decodes by lia. unfold exact_float. cbn [SFadd cond_Zopp].
    rewrite <- as_f32_encodes by lia. f_equal.
    set (x := Z.of_N a). set (y := Z.of_N b).
    rewrite (aligned_sum x y) by lia. rewrite (Z.min_comm (Z.log2 x - 23)), (aligned_sum y x) by lia.
    set (e := Z.min _ _). rewrite <- Z.mul_add_distr_r.
    assert (0 <= Z.log2 x < 24) by (split; [apply Z.log2_nonneg|apply Z.log2_lt_pow2; lia]).
    assert (0 <= Z.log2 y < 24) by (split; [apply Z.log2_nonneg|apply Z.log2_lt_pow2; lia]).
    pose proof (binary_round_exact (x + y) (- e) ltac:(lia) ltac:(lia)) as Hr.
    rewrite Z.opp_involutive in Hr. rewrite Hr. unfold x, y. by rewrite N2Z.inj_add.
Qed.

#[global] Instance binary32_exact : @ExactIntegers binary32 := fadd_exact.
