(* ===== verification/Collective.v ===== *)
(** * Native collectives

    Models [crates/collectives/src/collective.rs]: the collective operations one
    rank runs over its point-to-point communicator, with their message tags,
    traces and byte accounting.  [&mut self] is state passing; the clock is the
    field [elapsed], what [started.elapsed()] gives for each sequence number;
    the observer is the list of notifications it received.  The [u64] byte
    counters are added without overflow checks, as in a release build. *)
From S2P Require Import Prelude Rank Packet Mailbox World Tensor.

Definition COLLECTIVE_TAG_BASE : N := 0x4000000000000000.
Definition COLLECTIVE_TAG_LIMIT : N := 0x5000000000000000.
Definition TAG_SEQUENCE_STRIDE : N := N.shiftl 1 16.

Inductive ReduceOp : Type := Sum.
Inductive AllReduceAlgorithm : Type := CentralizedAllReduce | RingAllReduce.
Inductive CollectiveKind : Type :=
| Broadcast | AllGather | Reduce | AllReduce | ReduceScatter | AllToAll.
Inductive CollectiveAlgorithm : Type := Direct | Centralized | Pairwise | Ring.

#[global] Instance AllReduceAlgorithm_eq_dec : EqDecision AllReduceAlgorithm.
Proof. solve_decision. Defined.
#[global] Instance CollectiveKind_eq_dec : EqDecision CollectiveKind.
Proof. solve_decision. Defined.

(** [CollectiveKind::tag_id]. *)
Definition tag_id (k : CollectiveKind) : N :=
  match k with
  | Broadcast => 1 | AllGather => 2 | Reduce => 3 | AllReduce => 4 | ReduceScatter => 5
  | AllToAll => 6
  end.

(** [{kind:?}] and [{dims:?}]. *)
Definition kind_debug (k : CollectiveKind) : string :=
  match k with
  | Broadcast => "Broadcast" | AllGather => "AllGather" | Reduce => "Reduce"
  | AllReduce => "AllReduce" | ReduceScatter => "ReduceScatter" | AllToAll => "AllToAll"
  end.

(** [struct CollectiveDescriptor], [struct CollectiveTrace]. *)
Record CollectiveDescriptor : Type := mkDescriptor
  { sequence : N;
    kind : CollectiveKind;
    algorithm : CollectiveAlgorithm;
    root : option nat;
    axis : option nat;
    input_shape : list nat;
    input_bytes : N }.
Record CollectiveTrace : Type := mkTrace
  { descriptor : CollectiveDescriptor;
    output_shape : option (list nat);
    sent_bytes : N;
    received_bytes : N;
    duration_ns : N }.

(** Calls of [CollectiveObserver]. *)
Inductive Notification : Type :=
| CollectiveStarted (d : CollectiveDescriptor)
| CollectiveCompleted (t : CollectiveTrace).

(** [struct NativeCollectives]. *)
Record NativeCollectives : Type := mkNative
  { rank : Rank;
    next_sequence : N;
    observer : list Notification;
    traces : list CollectiveTrace;
    elapsed : N -> Duration }.

(** [with_observer], [take_traces]. *)
Definition with_observer (rank : Rank) (elapsed : N -> Duration) : NativeCollectives :=
  mkNative rank 0 [] [] elapsed.
Definition take_traces (self : NativeCollectives) : list CollectiveTrace * NativeCollectives :=
  (traces self, mkNative (rank self) (next_sequence self) (observer self) [] (elapsed self)).

(** [collective_tag]. *)
Definition collective_tag (sequence : N) (kind : CollectiveKind) (phase step : nat)
  : cresult MessageTag :=
  if Nat.ltb 15 phase || Nat.ltb 255 step
  then Err (Collective "collective phase or step exceeds tag capacity")
  else
    ok_or (v ← checked_mul sequence TAG_SEQUENCE_STRIDE;
           v ← checked_add v (N.shiftl (tag_id kind) 12);
           v ← checked_add v (N.shiftl (N.of_nat phase) 8);
           v ← checked_add v (N.of_nat step);
           v ← checked_add v COLLECTIVE_TAG_BASE;
           if (v <? COLLECTIVE_TAG_LIMIT)%N then Some v else None)
      (Collective "collective message-tag overflow").

(** [validate_root], [validate_axis], [ensure_f32_cpu], [tensor_bytes]. *)
Definition validate_root (r : Rank) (root : nat) : cresult unit :=
  reject_if (Nat.leb (world_size r) root)
    (Collective ("root rank " +:+ pretty root +:+ " is outside world size "
                 +:+ pretty (world_size r))).
Definition validate_axis (tensor : Tensor) (axis : nat) : cresult unit :=
  reject_if (Nat.leb (length (dims tensor)) axis)
    (Collective ("axis " +:+ pretty axis +:+ " is outside tensor rank "
                 +:+ pretty (length (dims tensor)))).
Definition ensure_f32_cpu (tensor : Tensor) : cresult unit :=
  _ ← from_tensor tensor; Ok tt.
Definition tensor_bytes (tensor : Tensor) : cresult N :=
  ok_or (checked_mul (N.of_nat (elem_count tensor)) 4) (Collective "tensor byte count overflow").

(** [require_same_shape], [require_gather_shape]. *)
Definition require_same_shape (expected actual : Tensor) (kind : CollectiveKind) : cresult unit :=
  reject_if (negb (bool_decide (dims expected = dims actual)))
    (Collective (kind_debug kind +:+ " expected shape " +:+ debug_dims (dims expected)
                 +:+ ", received " +:+ debug_dims (dims actual))).
Definition require_gather_shape (expected actual : Tensor) (axis : nat) : cresult unit :=
  reject_if
    (negb (Nat.eqb (length (dims expected)) (length (dims actual)))
     || existsb id (imap (fun index '(l, r) =>
                       negb (Nat.eqb index axis) && negb (Nat.eqb l r))
                      (zip (dims expected) (dims actual))))
    (Collective ("gather axis " +:+ pretty axis +:+ " cannot combine shapes "
                 +:+ debug_dims (dims expected) +:+ " and " +:+ debug_dims (dims actual))).

(** [ns]. *)
Definition ns (d : Duration) : N := N.min d U64_MAX.

Definition notify (self : NativeCollectives) (n : Notification) : NativeCollectives :=
  mkNative (rank self) (next_sequence self) (observer self ++ [n]) (traces self) (elapsed self).

(** [NativeCollectives::begin]. *)
Definition begin (self : NativeCollectives) (kind : CollectiveKind)
  (algorithm : CollectiveAlgorithm) (root axis : option nat) (tensor : Tensor)
  : cresult CollectiveDescriptor * NativeCollectives :=
  match (_ ← ensure_f32_cpu tensor;
         ok_or (checked_add (next_sequence self) 1) (Collective "collective sequence overflow")) with
  | Err e => (Err e, self)
  | Ok next =>
      let sequence := next_sequence self in
      let self := mkNative (rank self) next (observer self) (traces self) (elapsed self) in
      match (_ ← collective_tag sequence kind 0 0;
             _ ← match root with Some root => validate_root (rank self) root | None => Ok tt end;
             _ ← match axis with Some axis => validate_axis tensor axis | None => Ok tt end;
             bytes ← tensor_bytes tensor;
             Ok (mkDescriptor sequence kind algorithm root axis (dims tensor) bytes)) with
      | Err e => (Err e, self)
      | Ok d => (Ok d, notify self (CollectiveStarted d))
      end
  end.

(** [NativeCollectives::finish]. *)
Definition finish (self : NativeCollectives) (d : CollectiveDescriptor) (output : option Tensor)
  (sent received : N) : NativeCollectives :=
  let trace := mkTrace d (dims <$> output) sent received (ns (elapsed self (sequence d))) in
  let self := notify self (CollectiveCompleted trace) in
  mkNative (rank self) (next_sequence self) (observer self) (traces self ++ [trace]) (elapsed self).

(** [NativeCollectives::send], [recv], [exchange]. *)
Definition send (destination : nat) (tag : MessageTag) (tensor : Tensor) : cproc N :=
  _ ⟵ send_tensor destination tag tensor;
  lift (tensor_bytes tensor).
Definition recv (source : nat) (tag : MessageTag) : cproc (Tensor * N) :=
  tensor ⟵ recv_tensor source tag;
  lift (bytes ← tensor_bytes tensor; Ok (tensor, bytes)).
Definition exchange (destination source : nat) (send_tag recv_tag : MessageTag) (tensor : Tensor)
  : cproc (Tensor * N * N) :=
  send_bytes ⟵ lift (tensor_bytes tensor);
  match from_tensor tensor with
  | Err e => Recv source recv_tag (fun _ => Ret (Err e))
  | Ok packet =>
      Exchange destination (mkMessage send_tag (TensorPayload packet)) source recv_tag
        (fun sent received =>
           lift (_ ← sent;
                 packet ← received;
                 result ← to_tensor packet;
                 received_bytes ← tensor_bytes result;
                 Ok (result, send_bytes, received_bytes)))
  end.

(** A [for] loop with early return. *)
Fixpoint for_each {S I} (l : list I) (s : S) (body : S -> I -> cproc S) : cproc S :=
  match l with
  | [] => lift (Ok s)
  | i :: l => s ⟵ body s i; for_each l s body
  end.

Section Operations.
Context `{FloatOps}.

(** ** The bodies of the operations

    Each takes the sequence number of its descriptor and returns the local
    result with the bytes sent and received. *)

Definition peers_of (r : Rank) : list nat := seq 1 (world_size r - 1).

(** The gathering loop of the reductions: receive, check, add. *)
Definition reduce_from (tag : MessageTag) (kind : CollectiveKind) (tensor : Tensor)
  (sources : list nat) : cproc (Tensor * N) :=
  for_each sources (tensor, 0%N) (fun '(reduced, received) source =>
    '(incoming, bytes) ⟵ recv source tag;
    lift (_ ← require_same_shape tensor incoming kind;
          reduced ← add reduced incoming;
          Ok (reduced, add64 received bytes))).

(** A loop of sends of one tensor per destination. *)
Definition send_each (tag : MessageTag) (dests : list nat) (tensor : nat -> cresult Tensor)
  : cproc N :=
  for_each dests 0%N (fun sent destination =>
    t ⟵ lift (tensor destination);
    bytes ⟵ send destination tag t;
    lift (Ok (add64 sent bytes))).

Definition broadcast_body (r : Rank) (tensor : Tensor) (root : nat) (sequence : N)
  : cproc (Tensor * N * N) :=
  tag ⟵ lift (collective_tag sequence Broadcast 0 0);
  if Nat.eqb (global_rank r) root then
    sent ⟵ send_each tag (filter (fun d => d <> root) (seq 0 (world_size r))) (fun _ => Ok tensor);
    lift (Ok (tensor, sent, 0%N))
  else
    '(result, bytes) ⟵ recv root tag;
    lift (Ok (result, 0%N, add64 0 bytes)).

Definition reduce_body (r : Rank) (tensor : Tensor) (root : nat) (sequence : N)
  : cproc (option Tensor * N * N) :=
  tag ⟵ lift (collective_tag sequence Reduce 0 0);
  if Nat.eqb (global_rank r) root then
    '(reduced, received) ⟵ reduce_from tag Reduce tensor
                             (filter (fun s => s <> root) (seq 0 (world_size r)));
    lift (Ok (Some reduced, 0%N, received))
  else
    bytes ⟵ send root tag tensor;
    lift (Ok (None, add64 0 bytes, 0%N)).

Definition all_gather_body (r : Rank) (tensor : Tensor) (axis : nat) (sequence : N)
  : cproc (Tensor * N * N) :=
  gather_tag ⟵ lift (collective_tag sequence AllGather 1 0);
  broadcast_tag ⟵ lift (collective_tag sequence AllGather 2 0);
  if Nat.eqb (global_rank r) 0 then
    '(shards, received) ⟵ for_each (peers_of r) ([tensor], 0%N) (fun '(shards, received) source =>
      '(incoming, bytes) ⟵ recv source gather_tag;
      lift (_ ← require_gather_shape tensor incoming axis;
            Ok (shards ++ [incoming], add64 received bytes)));
    gathered ⟵ lift (cat shards axis);
    sent ⟵ send_each broadcast_tag (peers_of r) (fun _ => Ok gathered);
    lift (Ok (gathered, sent, received))
  else
    sent ⟵ send 0 gather_tag tensor;
    '(gathered, bytes) ⟵ recv 0 broadcast_tag;
    lift (Ok (gathered, add64 0 sent, add64 0 bytes)).

(** [centralized_all_reduce]. *)
Definition centralized_all_reduce (r : Rank) (tensor : Tensor) (sequence : N)
  : cproc (Tensor * N * N) :=
  gather_tag ⟵ lift (collective_tag sequence AllReduce 1 0);
  broadcast_tag ⟵ lift (collective_tag sequence AllReduce 2 0);
  if Nat.eqb (global_rank r) 0 then
    '(reduced, received) ⟵ reduce_from gather_tag AllReduce tensor (peers_of r);
    sent ⟵ send_each broadcast_tag (peers_of r) (fun _ => Ok reduced);
    lift (Ok (reduced, sent, received))
  else
    sent ⟵ send 0 gather_tag tensor;
    '(result, bytes) ⟵ recv 0 broadcast_tag;
    lift (_ ← require_same_shape tensor result AllReduce;
          Ok (result, add64 0 sent, add64 0 bytes)).

(** [chunks[index]]; out of range panics. *)
Definition chunk_at (chunks : list Tensor) (index : nat) : cresult Tensor :=
  ok_or (chunks !! index) (WorkerPanicked 0 "index out of bounds").

(** One round of the ring: send one chunk to the next rank, combine the one
    received from the previous rank. *)
Definition ring_round (r : Rank) (sequence : N) (phase : nat) (send_index receive_index : nat -> nat)
  (combine : Tensor -> Tensor -> cresult Tensor) (state : list Tensor * N * N) (step : nat)
  : cproc (list Tensor * N * N) :=
  let '(chunks, sent, received) := state in
  let world := world_size r in
  let next := (global_rank r + 1) mod world in
  let previous := (global_rank r + world - 1) mod world in
  tag ⟵ lift (collective_tag sequence AllReduce phase step);
  outgoing ⟵ lift (chunk_at chunks (send_index step));
  '(incoming, sent_bytes, received_bytes) ⟵ exchange next previous tag tag outgoing;
  lift (own ← chunk_at chunks (receive_index step);
        _ ← require_same_shape own incoming AllReduce;
        combined ← combine own incoming;
        Ok (<[receive_index step := combined]> chunks, add64 sent sent_bytes,
            add64 received received_bytes)).

(** [ring_all_reduce]. *)
Definition ring_all_reduce (r : Rank) (tensor : Tensor) (sequence : N) : cproc (Tensor * N * N) :=
  let world := world_size r in
  let me := global_rank r in
  if Nat.eqb world 1 then lift (Ok (tensor, 0%N, 0%N)) else
  flattened ⟵ lift (flatten_all tensor);
  let elements := elem_count flattened in
  if negb (Nat.eqb (elements mod world) 0)
  then lift (Err (Collective ("ring all-reduce requires " +:+ pretty elements
                   +:+ " elements to divide evenly across " +:+ pretty world +:+ " ranks")))
  else
  let chunk_elements := elements / world in
  chunks ⟵ lift (mapM (fun index => narrow flattened 0 (index * chunk_elements) chunk_elements)
                   (seq 0 world));
  state ⟵ for_each (seq 0 (world - 1)) (chunks, 0%N, 0%N)
    (ring_round r sequence 1 (fun step => (me + world - step) mod world)
       (fun step => (me + world - step - 1) mod world) add);
  '(chunks, sent, received) ⟵ for_each (seq 0 (world - 1)) state
    (ring_round r sequence 2 (fun step => (me + 1 + world - step) mod world)
       (fun step => (me + world - step) mod world) (fun _ incoming => Ok incoming));
  lift (result ← cat chunks 0;
        result ← reshape result (dims tensor);
        Ok (result, sent, received)).

Definition reduce_scatter_body (r : Rank) (tensor : Tensor) (axis : nat) (sequence : N)
  : cproc (Tensor * N * N) :=
  let world := world_size r in
  length ⟵ lift (dim tensor axis);
  if negb (Nat.eqb (length mod world) 0)
  then lift (Err (Collective ("reduce-scatter axis " +:+ pretty axis +:+ " length "
                   +:+ pretty length +:+ " is not divisible by " +:+ pretty world)))
  else
  gather_tag ⟵ lift (collective_tag sequence ReduceScatter 1 0);
  scatter_tag ⟵ lift (collective_tag sequence ReduceScatter 2 0);
  if Nat.eqb (global_rank r) 0 then
    '(reduced, received) ⟵ reduce_from gather_tag ReduceScatter tensor (peers_of r);
    extent ⟵ lift (dim reduced axis);
    let chunk := extent / world in
    local ⟵ lift (narrow reduced axis 0 chunk);
    sent ⟵ send_each scatter_tag (peers_of r)
              (fun destination => narrow reduced axis (destination * chunk) chunk);
    lift (Ok (local, sent, received))
  else
    sent ⟵ send 0 gather_tag tensor;
    '(shard, bytes) ⟵ recv 0 scatter_tag;
    lift (Ok (shard, add64 0 sent, add64 0 bytes)).

Definition all_to_all_body (r : Rank) (tensor : Tensor) (axis : nat) (sequence : N)
  : cproc (Tensor * N * N) :=
  let world := world_size r in
  let me := global_rank r in
  length ⟵ lift (dim tensor axis);
  if negb (Nat.eqb (length mod world) 0)
  then lift (Err (Collective ("all-to-all axis " +:+ pretty axis +:+ " length "
                   +:+ pretty length +:+ " is not divisible by " +:+ pretty world)))
  else
  let chunk := length / world in
  shards ⟵ lift (mapM (fun destination => narrow tensor axis (destination * chunk) chunk)
                   (seq 0 world));
  own ⟵ lift (chunk_at shards me);
  '(received_shards, sent, received) ⟵
    for_each (seq 1 (world - 1)) (<[me := Some own]> (replicate world None), 0%N, 0%N)
      (fun '(received_shards, sent, received) step =>
         let destination := (me + step) mod world in
         let source := (me + world - step) mod world in
         tag ⟵ lift (collective_tag sequence AllToAll 0 (step - 1));
         outgoing ⟵ lift (chunk_at shards destination);
         '(incoming, sent_bytes, received_bytes) ⟵ exchange destination source tag tag outgoing;
         lift (_ ← require_gather_shape outgoing incoming axis;
               Ok (<[source := Some incoming]> received_shards, add64 sent sent_bytes,
                   add64 received received_bytes)));
  lift (received_shards ← mapM (fun s => ok_or s (WorkerPanicked me
                            "every source contributes one all-to-all shard")) received_shards;
        result ← cat received_shards axis;
        Ok (result, sent, received)).

(** ** The operations *)

(** The frame of every operation: [begin], the body, [finish]. *)
Definition run_collective {A} (self : NativeCollectives) (kind : CollectiveKind)
  (algorithm : CollectiveAlgorithm) (root axis : option nat) (tensor : Tensor)
  (body : N -> cproc (A * N * N)) (output : A -> option Tensor)
  : proc (cresult A * NativeCollectives) :=
  match begin self kind algorithm root axis tensor with
  | (Err e, self) => Ret (Err e, self)
  | (Ok d, self) =>
      r ← body (sequence d);
      Ret (match r with
           | Ok (result, sent, received) =>
               (Ok result, finish self d (output result) sent received)
           | Err e => (Err e, self)
           end)
  end.

Definition broadcast (self : NativeCollectives) (tensor : Tensor) (root : nat) :=
  run_collective self Broadcast Direct (Some root) None tensor
    (broadcast_body (rank self) tensor root) Some.
Definition reduce (self : NativeCollectives) (tensor : Tensor) (root : nat) (_op : ReduceOp) :=
  run_collective self Reduce Centralized (Some root) None tensor
    (reduce_body (rank self) tensor root) (fun o => o).
Definition all_gather (self : NativeCollectives) (tensor : Tensor) (axis : nat) :=
  run_collective self AllGather Centralized (Some 0) (Some axis) tensor
    (all_gather_body (rank self) tensor axis) Some.
Definition all_reduce (self : NativeCollectives) (tensor : Tensor) (_op : ReduceOp)
  (algorithm : AllReduceAlgorithm) :=
  run_collective self AllReduce
    (match algorithm with CentralizedAllReduce => Centralized | RingAllReduce => Ring end)
    (if bool_decide (algorithm = CentralizedAllReduce) then Some 0 else None) None tensor
    (match algorithm with
     | CentralizedAllReduce => centralized_all_reduce (rank self) tensor
     | RingAllReduce => ring_all_reduce (rank self) tensor
     end) Some.
Definition reduce_scatter (self : NativeCollectives) (tensor : Tensor) (axis : nat)
  (_op : ReduceOp) :=
  run_collective self ReduceScatter Centralized (Some 0) (Some axis) tensor
    (reduce_scatter_body (rank self) tensor axis) Some.
Definition all_to_all (self : NativeCollectives) (tensor : Tensor) (axis : nat) :=
  run_collective self AllToAll Pairwise None (Some axis) tensor
    (all_to_all_body (rank self) tensor axis) Some.

End Operations.

(** ** Tags *)

Lemma collective_tag_spec s k p st t :
  collective_tag s k p st = Ok t <->
  p <= 15 /\ st <= 255 /\ (s < 2 ^ 44)%N /\
  t = (COLLECTIVE_TAG_BASE + s * 65536 + tag_id k * 4096 + N.of_nat p * 256 + N.of_nat st)%N.
Proof.
  unfold collective_tag. change TAG_SEQUENCE_STRIDE with 65536%N.
  rewrite !N.shiftl_mul_pow2. change (2 ^ 12)%N with 4096%N. change (2 ^ 8)%N with 256%N.
  assert (Hk : (tag_id k <= 6)%N) by (destruct k; discriminate).
  change COLLECTIVE_TAG_BASE with 4611686018427387904%N.
  change COLLECTIVE_TAG_LIMIT with 5764607523034234880%N.
  change (2 ^ 44)%N with 17592186044416%N.
  destruct (Nat.ltb_spec 15 p); cbn [orb]; [split; [done|lia]|].
  destruct (Nat.ltb_spec 255 st); [split; [done|lia]|].
  unfold checked_mul, checked_add. change U64 with 18446744073709551616%N.
  destruct (N.ltb_spec (s * 65536) 18446744073709551616); cbn; [|split; [done|lia]].
  repeat (match goal with |- context [(?a <? ?b)%N] => destruct (N.ltb_spec a b) end;
    cbn; [|split; [done|lia]]).
  split; [intros E; apply Ok_inj in E; subst t|intros (_ & _ & _ & ->); f_equal]; lia.
Qed.

(** C36: the message tags of collectives identify the call: two tags are equal
    only for the same sequence number, operation, phase and step, and every tag
    lies in the namespace reserved for collectives; tags exist for all of the
    first 2^44 calls, 16 phases and 256 steps. *)
Theorem collective_tag_unique s k p st :
  (forall t, collective_tag s k p st = Ok t ->
     (COLLECTIVE_TAG_BASE <= t < COLLECTIVE_TAG_LIMIT)%N /\
     forall s' k' p' st', collective_tag s' k' p' st' = Ok t ->
       s' = s /\ k' = k /\ p' = p /\ st' = st) /\
  (is_ok (collective_tag s k p st) = true <-> (s < 2 ^ 44)%N /\ p <= 15 /\ st <= 255).
Proof.
  split.
  - intros t (Hp & Hst & Hs & ->)%collective_tag_spec.
    change COLLECTIVE_TAG_LIMIT with (COLLECTIVE_TAG_BASE + 2 ^ 44 * 65536)%N.
    assert (Hid : forall k k', tag_id k = tag_id k' -> k = k') by (intros [] []; done).
    assert (Hk : forall k, (1 <= tag_id k <= 6)%N) by (intros []; cbn; lia).
    split; [pose proof (Hk k); lia|].
    intros s' k' p' st' (Hp' & Hst' & Hs' & E)%collective_tag_spec.
    pose proof (Hk k). pose proof (Hk k'). assert (tag_id k' = tag_id k) by lia.
    split; [lia|]. split; [by apply Hid|]. lia.
  - split.
    + destruct (collective_tag s k p st) eqn:E; [|done]. apply collective_tag_spec in E. tauto.
    + intros (H1 & H2 & H3).
      assert (E : collective_tag s k p st = Ok (COLLECTIVE_TAG_BASE + s * 65536
        + tag_id k * 4096 + N.of_nat p * 256 + N.of_nat st)%N); [|by rewrite E].
      by apply collective_tag_spec.
Qed.

(** ** Local executions *)

Definition packet (t : Tensor) : TensorPacket := mkTensorPacket (shape_of (dims t)) (elements t).
Definition msg (tag : MessageTag) (t : Tensor) : Message := mkMessage tag (TensorPayload (packet t)).
Definition put (d : nat) (tag : MessageTag) (t : Tensor) : event := Act (Put d (msg tag t)).
Definition take (s : nat) (tag : MessageTag) (t : Tensor) : event :=
  Act (Take s (tensor_payload tag) (TensorPayload (packet t))).
Definition bytes_of (t : Tensor) : N := (lenN (elements t) * 4)%N.

Lemma tensor_payload_msg tag t : tensor_payload tag (msg tag t) = Some (TensorPayload (packet t)).
Proof. unfold tensor_payload, tensor_with; cbn. by rewrite N.eqb_refl. Qed.

Lemma tensor_bytes_ok t : sendable t -> tensor_bytes t = Ok (bytes_of t).
Proof.
  intros (Hwf & _ & _ & Hb). unfold tensor_bytes, elem_count, bytes_of in *. rewrite <- Hwf.
  unfold checked_mul. fold (lenN (elements t)).
  destruct (N.ltb_spec (lenN (elements t) * 4) U64); [done|lia].
Qed.

Lemma exec_send r d tag t :
  sendable t -> Ranks.validate_peer r d = Ok tt ->
  exec r (send d tag t) [put d tag t] (Ret (Ok (bytes_of t))).
Proof.
  intros Ht Hd. unfold send, send_tensor. rewrite from_tensor_sendable by done. cbn.
  eapply exec_act; [by refine (local_send r d _ _ _)|]. cbn.
  apply exec_ret. by apply tensor_bytes_ok.
Qed.

Lemma exec_recv r s tag t :
  sendable t -> Ranks.validate_peer r s = Ok tt ->
  exec r (recv s tag) [take s tag t] (Ret (Ok (t, bytes_of t))).
Proof.
  intros Ht Hs. unfold recv, recv_tensor. cbn.
  eapply exec_act; [by refine (local_recv r s tag _ (packet t) _)|]. cbn.
  unfold packet. rewrite to_from_tensor by done. cbn.
  apply exec_ret. by rewrite tensor_bytes_ok.
Qed.

Lemma exec_exchange r d s tag t u :
  sendable t -> sendable u -> Ranks.validate_peer r d = Ok tt -> Ranks.validate_peer r s = Ok tt ->
  exec r (exchange d s tag tag t) [put d tag t; take s tag u]
    (Ret (Ok (u, bytes_of t, bytes_of u))).
Proof.
  intros Ht Hu Hd Hs. unfold exchange.
  apply exec_lift with (bytes_of t); [by apply tensor_bytes_ok|].
  rewrite from_tensor_sendable by done.
  eapply exec_act; [by refine (local_exchange_send r d _ s tag _ _)|].
  eapply exec_act; [by refine (local_recv r s tag _ (packet u) _)|]. cbn.
  unfold packet. rewrite to_from_tensor by done. cbn.
  apply exec_ret. by rewrite tensor_bytes_ok.
Qed.

(** Loops whose events depend on the index alone. *)
Lemma exec_for_each {S I} r (l : list I) (body : S -> I -> cproc S) (ev : I -> list event)
  (next : S -> I -> S) (P : S -> Prop) s :
  P s ->
  (forall s i, i ∈ l -> P s ->
     P (next s i) /\ exec r (body s i) (ev i) (Ret (Ok (next s i)))) ->
  exec r (for_each l s body) (flat_map ev l) (Ret (Ok (foldl next s l))) /\ P (foldl next s l).
Proof.
  revert s. induction l as [|i l IH]; intros s Hs Hb; cbn; [split; [constructor|done]|].
  destruct (Hb s i) as [Hn He]; [set_solver|done|].
  destruct (IH (next s i)) as [H1 H2]; [done|intros; apply Hb; set_solver|].
  split; [|done]. by eapply exec_try.
Qed.

(** Loops over [seq] with the state after each iteration given. *)
Lemma exec_for_seq {S} r a k (body : S -> nat -> cproc S) (st : nat -> S)
  (ev : nat -> list event) :
  (forall j, j < k -> exec r (body (st j) (a + j)) (ev j) (Ret (Ok (st (j + 1))))) ->
  exec r (for_each (seq a k) (st 0) body) (flat_map ev (seq 0 k)) (Ret (Ok (st k))).
Proof.
  revert a st ev. induction k as [|k IH]; intros a st ev H; cbn; [constructor|].
  eapply exec_try; [specialize (H 0 ltac:(lia)); rewrite Nat.add_0_r in H; exact H|].
  rewrite <- (seq_shift k 0), flat_map_concat_map, map_map, <- flat_map_concat_map.
  apply (IH (Datatypes.S a) (fun j => st (Datatypes.S j)) (fun j => ev (Datatypes.S j))).
  intros j Hj. specialize (H (Datatypes.S j) ltac:(lia)). cbn in H.
  by rewrite Nat.add_succ_r in H.
Qed.
