(* ===== verification/CollectiveWorld.v ===== *)
(** * Collectives across a world

    Every rank of a world runs the same collective of [Collective.v]; the world
    is the interleaving semantics of [World.v].  For each operation: every
    schedule terminates, without deadlock and with all messages delivered, and
    every rank returns the value the operation promises. *)
From S2P Require Import Prelude Rank Packet Mailbox World Tensor Collective.

(** ** One call on one rank *)

Definition descriptor_of (self : NativeCollectives) kind algorithm root axis (t : Tensor)
  : CollectiveDescriptor :=
  mkDescriptor (next_sequence self) kind algorithm root axis (dims t) (bytes_of t).

Definition after_begin (self : NativeCollectives) (d : CollectiveDescriptor) : NativeCollectives :=
  notify (mkNative (rank self) (next_sequence self + 1) (observer self) (traces self)
            (elapsed self)) (CollectiveStarted d).

(** The state a completed call leaves: the next sequence number, the started
    and completed notifications, and one more trace. *)
Definition completed (self : NativeCollectives) (d : CollectiveDescriptor)
  (output : option Tensor) (self' : NativeCollectives) : Prop :=
  exists sent received,
    rank self' = rank self /\ next_sequence self' = (next_sequence self + 1)%N /\
    let trace := mkTrace d (dims <$> output) sent received (ns (elapsed self (sequence d))) in
    traces self' = traces self ++ [trace] /\
    observer self' = observer self ++ [CollectiveStarted d; CollectiveCompleted trace].

Lemma completed_finish self d output sent received :
  completed self d output (finish (after_begin self d) d output sent received).
Proof. exists sent, received. cbn. by rewrite <- app_assoc. Qed.

Definition root_ok (self : NativeCollectives) (root : option nat) : Prop :=
  match root with Some root => root < world_size (rank self) | None => True end.
Definition axis_ok (t : Tensor) (axis : option nat) : Prop :=
  match axis with Some axis => axis < length (dims t) | None => True end.

Lemma begin_ok self kind algorithm root axis t :
  sendable t -> (next_sequence self < 2 ^ 44)%N -> root_ok self root -> axis_ok t axis ->
  let d := descriptor_of self kind algorithm root axis t in
  begin self kind algorithm root axis t = (Ok d, after_begin self d).
Proof.
  intros Ht Hs Hr Ha. unfold begin, ensure_f32_cpu. rewrite from_tensor_sendable by done.
  cbn [mbind result_bind]. unfold checked_add.
  destruct (N.ltb_spec (next_sequence self + 1) U64) as [_|Hx];
    [|exfalso; revert Hx Hs; unfold U64; lia].
  cbn [ok_or].
  assert (E : is_ok (collective_tag (next_sequence self) kind 0 0) = true)
    by (apply collective_tag_unique; repeat split; done || lia).
  destruct (collective_tag _ _ _ _) as [tag|]; [|done]. cbn [mbind result_bind].
  assert (Er : match root with
               | Some root => validate_root (rank self) root | None => Ok tt end = Ok tt).
  { destruct root as [root|]; [|done]. unfold validate_root. cbn in Hr.
    destruct (Nat.leb_spec (world_size (rank self)) root); [lia|done]. }
  assert (Ea : match axis with Some axis => validate_axis t axis | None => Ok tt end = Ok tt).
  { destruct axis as [axis|]; [|done]. unfold validate_axis. cbn in Ha.
    destruct (Nat.leb_spec (length (dims t)) axis); [lia|done]. }
  cbn [rank]. rewrite Er, Ea, tensor_bytes_ok by done. done.
Qed.

Lemma exec_collective {A} r self kind algorithm root axis t (body : N -> cproc (A * N * N))
  output tr a sent received :
  sendable t -> (next_sequence self < 2 ^ 44)%N -> root_ok self root -> axis_ok t axis ->
  exec r (body (next_sequence self)) tr (Ret (Ok (a, sent, received))) ->
  let d := descriptor_of self kind algorithm root axis t in
  exec r (run_collective self kind algorithm root axis t body output) tr
    (Ret (Ok a, finish (after_begin self d) d (output a) sent received)).
Proof.
  intros Ht Hs Hr Ha Hb d. unfold run_collective. rewrite begin_ok by done. fold d.
  rewrite <- (app_nil_r tr). eapply exec_app; [exact (exec_bind r _ _ _ _ Hb)|]. constructor.
Qed.

(** ** A group of ranks about to run the same collective *)

Record group (n : nat) (nc : nat -> NativeCollectives) (ts : nat -> Tensor) (s : N) : Prop :=
  mkGroup
  { g_positive : 0 < n;
    g_rank : forall i, i < n -> rank (nc i) = mkRank i n;
    g_sequence : forall i, i < n -> next_sequence (nc i) = s;
    g_tags : (s < 2 ^ 44)%N;
    g_sendable : forall i, i < n -> sendable (ts i) }.

(** Ranks whose collectives are at sequence number [s], with a trace for each. *)
Definition aligned (n : nat) (s : N) (nc : nat -> NativeCollectives) : Prop :=
  forall i, i < n -> rank (nc i) = mkRank i n /\ next_sequence (nc i) = s /\ lenN (traces (nc i)) = s.

Lemma completed_aligned n s nc nc' d output :
  aligned n s nc -> (forall i, i < n -> completed (nc i) (d i) (output i) (nc' i)) -> aligned n (s + 1) nc'.
Proof.
  intros Ha Hc i Hi. destruct (Ha i Hi) as (H1 & H2 & H3), (Hc i Hi) as (? & ? & H4 & H5 & H6 & _).
  rewrite H4, H5, H6, H1, H2. split; [done|]. split; [done|].
  unfold lenN in *. rewrite length_app. cbn [length]. lia.
Qed.

(** Every schedule of the group terminates, each rank [i] with a result
    described by [value i] and a state described by [after i]. *)
Definition all_return {A} (n : nat) (op : nat -> proc (cresult A * NativeCollectives))
  (value : nat -> A) (after : nat -> NativeCollectives -> Prop) : Prop :=
  exists res, always_returns (world_of n op) (map res (seq 0 n)) /\
    forall i, i < n -> (res i).1 = Ok (value i) /\ after i (res i).2.

(** The ranks run the collective together, rank [i] to [value i] and a state
    described by [after i]. *)
Definition agree_on {A} (n : nat) (op : nat -> proc (cresult A * NativeCollectives))
  (value : nat -> A) (after : nat -> NativeCollectives -> Prop) : Prop :=
  exists state, together n op (fun i => (Ok (value i), state i)) /\ forall i, i < n -> after i (state i).

Lemma agree_all_return {A} n (op : nat -> proc (cresult A * NativeCollectives)) value after :
  agree_on n op value after -> all_return n op value after.
Proof.
  intros (state & H & Ha). exists (fun i => (Ok (value i), state i)). split; [by apply together_returns|auto].
Qed.

Lemma flat_map_single {A B} (f : A -> B) l : flat_map (fun x => [f x]) l = map f l.
Proof. induction l; cbn; congruence. Qed.

Lemma tag_ok s k p st : (s < 2 ^ 44)%N -> p <= 15 -> st <= 255 ->
  exists tag, collective_tag s k p st = Ok tag.
Proof.
  intros. assert (E : is_ok (collective_tag s k p st) = true)
    by (apply collective_tag_unique; done).
  destruct (collective_tag s k p st); [eauto|done].
Qed.

Lemma exec_send_each r tag dests tensor (tt' : nat -> Tensor) :
  (forall d, d ∈ dests ->
     tensor d = Ok (tt' d) /\ sendable (tt' d) /\ Ranks.validate_peer r d = Ok tt) ->
  exec r (send_each tag dests tensor) (map (fun d => put d tag (tt' d)) dests)
    (Ret (Ok (foldl (fun a d => add64 a (bytes_of (tt' d))) 0%N dests))).
Proof.
  intros Hd. rewrite <- flat_map_single. unfold send_each.
  apply (exec_for_each r dests _ (fun d => [put d tag (tt' d)])
    (fun a d => add64 a (bytes_of (tt' d))) (fun _ => True)); [done|].
  intros a d Hin _. split; [done|]. destruct (Hd d Hin) as (E1 & E2 & E3).
  apply exec_lift with (tt' d); [done|]. eapply exec_try_ret; [by apply exec_send|done].
Qed.

Section Sums.
Context `{FloatOps}.

Definition tsum (t u : Tensor) : Tensor :=
  mkTensor Cpu F32 (dims t) (zip_with fadd (elements t) (elements u)).
(** The sum the gathering loop computes: [base], then each source in order. *)
Definition sum_over (ts : nat -> Tensor) (base : Tensor) (sources : list nat) : Tensor :=
  foldl (fun acc i => tsum acc (ts i)) base sources.

Lemma tsum_ok t u :
  sendable t -> sendable u -> dims t = dims u -> add t u = Ok (tsum t u) /\ sendable (tsum t u).
Proof.
  intros (W1 & C1 & E1 & B1) (W2 & C2 & _ & _) Hd. split; [by apply add_ok|].
  assert (Hl : length (zip_with fadd (elements t) (elements u)) = length (elements t)).
  { rewrite length_zip_with. unfold tensor_wf in *. rewrite W1, W2, Hd. lia. }
  unfold sendable, tensor_wf, tsum, lenN in *; cbn. rewrite Hl. done.
Qed.

Lemma sum_over_ok ts base sources :
  sendable base -> (forall i, i ∈ sources -> sendable (ts i) /\ dims (ts i) = dims base) ->
  sendable (sum_over ts base sources) /\ dims (sum_over ts base sources) = dims base.
Proof.
  unfold sum_over. revert base. induction sources as [|i l IH]; intros base Hb Hs; cbn; [done|].
  destruct (Hs i) as [H1 H2]; [set_solver|].
  destruct (tsum_ok base (ts i)) as [_ H3]; [done..|].
  destruct (IH (tsum base (ts i))) as [H4 H5]; [done| |by split].
  intros j Hj. apply Hs. set_solver.
Qed.

Lemma exec_reduce_from r tag kind (ts : nat -> Tensor) base sources :
  sendable base ->
  (forall i, i ∈ sources -> sendable (ts i) /\ dims (ts i) = dims base /\
     Ranks.validate_peer r i = Ok tt) ->
  exists received,
  exec r (reduce_from tag kind base sources) (map (fun i => take i tag (ts i)) sources)
    (Ret (Ok (sum_over ts base sources, received))).
Proof.
  intros Hb Hs. unfold reduce_from.
  destruct (exec_for_each r sources
    (fun '(reduced, received) source =>
       '(incoming, bytes) ⟵ recv source tag;
       lift (_ ← require_same_shape base incoming kind;
             reduced ← add reduced incoming;
             Ok (reduced, add64 received bytes)))
    (fun i => [take i tag (ts i)])
    (fun '(acc, received) i => (tsum acc (ts i), add64 received (bytes_of (ts i))))
    (fun '(acc, _) => sendable acc /\ dims acc = dims base) (base, 0%N)) as [He _]; [done| |].
  - intros [acc received] i Hi [Ha Hd]. destruct (Hs i Hi) as (H1 & H2 & H3).
    destruct (tsum_ok acc (ts i)) as [E1 E2]; [done|done|congruence|].
    split; [done|]. eapply exec_try_ret; [by apply exec_recv|].
    unfold require_same_shape, reject_if. rewrite H2, bool_decide_eq_true_2 by done. cbn.
    by rewrite E1.
  - rewrite flat_map_single in He.
    assert (Hfold : forall l acc received, exists received',
      foldl (fun '(acc, received) i => (tsum acc (ts i), add64 received (bytes_of (ts i))))
        (acc, received) l = (sum_over ts acc l, received')).
    { clear. induction l as [|i l IH]; intros acc received; cbn; [by eexists|]. apply IH. }
    destruct (Hfold sources base 0%N) as [received' E]. exists received'. by rewrite <- E.
Qed.

End Sums.

(** ** Rooted operations *)

Lemma not_root_in n root i :
  i ∈ filter (fun d => d <> root) (seq 0 n) <-> i <> root /\ i < n.
Proof. rewrite list_elem_of_filter, elem_of_seq. naive_solver lia. Qed.

Lemma peers_in n i : i ∈ seq 1 (n - 1) <-> 0 < i < n.
Proof. rewrite elem_of_seq. lia. Qed.

(** A collective that ran with these byte counts. *)
Definition counted (self : NativeCollectives) (d : CollectiveDescriptor) (output : option Tensor)
  (sent : N) (self' : NativeCollectives) : Prop :=
  exists received, self' = finish (after_begin self d) d output sent received.

Lemma counted_completed self d output sent self' :
  counted self d output sent self' -> completed self d output self'.
Proof. intros [received ->]. apply completed_finish. Qed.

Lemma agree_weaken {A} n (op : nat -> proc (cresult A * NativeCollectives)) value
  (after after' : nat -> NativeCollectives -> Prop) :
  (forall i s, i < n -> after i s -> after' i s) -> agree_on n op value after -> agree_on n op value after'.
Proof. intros H (state & Ht & Ha). exists state. eauto. Qed.

(** The result of one collective from the execution of its body. *)
Lemma agree_counted {A} n nc ts s kind algorithm root axis
  (body : nat -> N -> cproc (A * N * N)) (output : A -> option Tensor) tr
  (value : nat -> A) sent received :
  group n nc ts s ->
  (forall i, i < n -> root_ok (nc i) root /\ axis_ok (ts i) axis) ->
  (forall i, i < n ->
     exec (mkRank i n) (body i s) (tr i) (Ret (Ok (value i, sent i, received i)))) ->
  drains n tr quiet ->
  agree_on n
    (fun i => run_collective (nc i) kind algorithm root axis (ts i) (body i) output)
    value
    (fun i => counted (nc i) (descriptor_of (nc i) kind algorithm root axis (ts i))
                (output (value i)) (sent i)).
Proof.
  intros Hg Hok Hex Hd.
  exists (fun i =>
    let d := descriptor_of (nc i) kind algorithm root axis (ts i) in
    finish (after_begin (nc i) d) d (output (value i)) (sent i) (received i)).
  split; [|by intros i _; exists (received i)]. exists tr. split; [|done].
  intros i Hi. destruct (Hok i Hi). apply exec_collective; [by apply Hg..| |done|done|].
  - rewrite (g_sequence _ _ _ _ Hg) by done. apply Hg.
  - rewrite (g_sequence _ _ _ _ Hg) by done. by apply Hex.
Qed.

Lemma agree_collective {A} n nc ts s kind algorithm root axis
  (body : nat -> N -> cproc (A * N * N)) (output : A -> option Tensor) tr
  (value : nat -> A) sent received :
  group n nc ts s ->
  (forall i, i < n -> root_ok (nc i) root /\ axis_ok (ts i) axis) ->
  (forall i, i < n ->
     exec (mkRank i n) (body i s) (tr i) (Ret (Ok (value i, sent i, received i)))) ->
  drains n tr quiet ->
  agree_on n
    (fun i => run_collective (nc i) kind algorithm root axis (ts i) (body i) output)
    value
    (fun i => completed (nc i) (descriptor_of (nc i) kind algorithm root axis (ts i))
                (output (value i))).
Proof.
  intros. eapply agree_weaken; [intros i st _; apply counted_completed|by eapply agree_counted].
Qed.

Lemma broadcast_agree n nc ts s root :
  group n nc ts s -> root < n ->
  agree_on n (fun i => broadcast (nc i) (ts i) root)
    (fun _ => ts root)
    (fun i => completed (nc i)
       (descriptor_of (nc i) Broadcast Direct (Some root) None (ts i)) (Some (ts root))).
Proof.
  intros Hg Hroot.
  destruct (tag_ok s Broadcast 0 0 (g_tags _ _ _ _ Hg)) as [tag Htag]; [lia..|].
  pose (dests := filter (fun d => d <> root) (seq 0 n)).
  assert (Hr := g_sendable _ _ _ _ Hg root Hroot).
  apply (agree_collective n nc ts s Broadcast Direct (Some root) None
    (fun i => broadcast_body (rank (nc i)) (ts i) root) Some
    (fun i => if decide (i = root) then map (fun d => put d tag (ts root)) dests
              else [take root tag (ts root)]) (fun _ => ts root)
    (fun i => if decide (i = root)
              then foldl (fun a d => add64 a (bytes_of (ts root))) 0%N dests else 0%N)
    (fun i => if decide (i = root) then 0%N else add64 0 (bytes_of (ts root)))); [done|..].
  - intros i Hi. cbn. by rewrite (g_rank _ _ _ _ Hg).
  - intros i Hi. rewrite (g_rank _ _ _ _ Hg) by done. unfold broadcast_body.
    apply exec_lift with tag; [done|]. cbn [global_rank world_size].
    destruct (Nat.eqb_spec i root) as [->|Hne]; case_decide; try done.
    + eapply exec_try_ret; [|done].
      apply (exec_send_each _ tag dests _ (fun _ => ts root)).
      intros d Hd%not_root_in. split_and!; [done..|]. apply Ranks.validate_peer_ok; cbn in *; lia.
    + eapply exec_try_ret; [apply exec_recv|]; [done|by apply Ranks.validate_peer_ok|done].
  - apply (drains_scatter n root dests (fun _ => msg tag (ts root)) (fun _ => tensor_payload tag)
      (fun _ => TensorPayload (packet (ts root))) (fun _ => [])); [done|..].
    + apply List.Forall_forall. intros d [Hd Hn]%list_elem_of_In%not_root_in.
      split_and!; [done..|]. apply tensor_payload_msg.
    + apply list.NoDup_filter, NoDup_seq.
    + rewrite decide_True by done. by rewrite app_nil_r.
    + intros i Hi Hne. rewrite decide_False by done. by rewrite decide_True by (by apply not_root_in).
    + by apply drains_done.
Qed.

(** Broadcast.  For every world size and root, every schedule of the ranks'
    [broadcast] calls terminates with all messages delivered and every rank
    returns the root's tensor, bit for bit, and records one trace. *)
Theorem broadcast_delivers n nc ts s root :
  group n nc ts s -> root < n ->
  all_return n (fun i => broadcast (nc i) (ts i) root)
    (fun _ => ts root)
    (fun i => completed (nc i)
       (descriptor_of (nc i) Broadcast Direct (Some root) None (ts i)) (Some (ts root))).
Proof. intros. by eapply agree_all_return, broadcast_agree. Qed.

Section Reductions.
Context `{FloatOps}.

Lemma reduce_agree n nc ts s root op :
  group n nc ts s -> root < n -> (forall i, i < n -> dims (ts i) = dims (ts root)) ->
  let total := sum_over ts (ts root) (filter (fun i => i <> root) (seq 0 n)) in
  agree_on n (fun i => reduce (nc i) (ts i) root op)
    (fun i => if decide (i = root) then Some total else None)
    (fun i => completed (nc i)
       (descriptor_of (nc i) Reduce Centralized (Some root) None (ts i))
       (if decide (i = root) then Some total else None)).
Proof.
  intros Hg Hroot Hdims total.
  destruct (tag_ok s Reduce 0 0 (g_tags _ _ _ _ Hg)) as [tag Htag]; [lia..|].
  pose (sources := filter (fun d => d <> root) (seq 0 n)).
  destruct (exec_reduce_from (mkRank root n) tag Reduce ts (ts root) sources)
    as [received Hred]; [by apply Hg| |].
  { intros i [Hi Hn]%not_root_in. split; [by apply Hg|]. split; [by apply Hdims|].
    apply Ranks.validate_peer_ok; cbn in *; lia. }
  apply (agree_collective n nc ts s Reduce Centralized (Some root) None
    (fun i => reduce_body (rank (nc i)) (ts i) root) (fun o => o)
    (fun i => if decide (i = root) then map (fun i => take i tag (ts i)) sources
              else [put root tag (ts i)])
    (fun i => if decide (i = root) then Some total else None)
    (fun i => if decide (i = root) then 0%N else add64 0 (bytes_of (ts i)))
    (fun i => if decide (i = root) then received else 0%N)); [done|..].
  - intros i Hi. cbn. by rewrite (g_rank _ _ _ _ Hg).
  - intros i Hi. rewrite (g_rank _ _ _ _ Hg) by done. unfold reduce_body.
    apply exec_lift with tag; [done|]. cbn [global_rank world_size].
    destruct (Nat.eqb_spec i root) as [->|Hne]; repeat case_decide; try done.
    + eapply exec_try_ret; [exact Hred|done].
    + eapply exec_try_ret; [apply exec_send|]; [by apply Hg|by apply Ranks.validate_peer_ok|done].
  - apply (drains_gather n root sources (fun i => msg tag (ts i)) (fun _ => tensor_payload tag)
      (fun i => TensorPayload (packet (ts i))) (fun _ => [])); [done|..].
    + apply List.Forall_forall. intros d [Hd Hn]%list_elem_of_In%not_root_in.
      split_and!; [done..|]. apply tensor_payload_msg.
    + apply list.NoDup_filter, NoDup_seq.
    + rewrite decide_True by done. by rewrite app_nil_r.
    + intros i Hi Hne. rewrite decide_False by done. by rewrite decide_True by (by apply not_root_in).
    + by apply drains_done.
Qed.

(** Reduce.  The root returns its own tensor with the tensors of the other
    ranks added in rank order, every other rank returns nothing, on every
    schedule. *)
Theorem reduce_sums n nc ts s root op :
  group n nc ts s -> root < n -> (forall i, i < n -> dims (ts i) = dims (ts root)) ->
  let total := sum_over ts (ts root) (filter (fun i => i <> root) (seq 0 n)) in
  all_return n (fun i => reduce (nc i) (ts i) root op)
    (fun i => if decide (i = root) then Some total else None)
    (fun i => completed (nc i)
       (descriptor_of (nc i) Reduce Centralized (Some root) None (ts i))
       (if decide (i = root) then Some total else None)).
Proof. intros. by eapply agree_all_return, reduce_agree. Qed.

(** The traffic of the centralized operations: rank 0 takes [up i] from every
    other rank, then puts [down i] to every other rank. *)
Definition star_trace (n : nat) (up_tag down_tag : MessageTag) (up down : nat -> Tensor) (i : nat)
  : list event :=
  if decide (i = 0)
  then map (fun x => take x up_tag (up x)) (seq 1 (n - 1))
       ++ map (fun d => put d down_tag (down d)) (seq 1 (n - 1))
  else [put 0 up_tag (up i); take 0 down_tag (down i)].

Lemma drains_star n up_tag down_tag up down :
  0 < n -> drains n (star_trace n up_tag down_tag up down) quiet.
Proof.
  intros Hn. unfold star_trace.
  assert (Hall : forall tag (f : nat -> Tensor), Forall (fun x => x < n /\ x <> 0 /\
    tensor_payload tag (msg tag (f x)) = Some (TensorPayload (packet (f x)))) (seq 1 (n - 1))).
  { intros tag f. apply List.Forall_forall. intros x Hx%list_elem_of_In%peers_in.
    split; [lia|]. split; [lia|]. apply tensor_payload_msg. }
  apply (drains_gather n 0 (seq 1 (n - 1)) (fun i => msg up_tag (up i))
    (fun _ => tensor_payload up_tag) (fun i => TensorPayload (packet (up i)))
    (fun i => if decide (i = 0) then map (fun d => put d down_tag (down d)) (seq 1 (n - 1))
              else [take 0 down_tag (down i)]));
    [done|apply Hall|apply NoDup_seq| | |].
  - by rewrite !decide_True.
  - intros i Hi Hne. rewrite decide_False by done.
    rewrite decide_True by (apply peers_in; lia). by rewrite decide_False.
  - apply (drains_scatter n 0 (seq 1 (n - 1)) (fun i => msg down_tag (down i))
      (fun _ => tensor_payload down_tag) (fun i => TensorPayload (packet (down i)))
      (fun _ => [])); [done|apply Hall|apply NoDup_seq| | |by apply drains_done].
    + rewrite decide_True by done. by rewrite app_nil_r.
    + intros i Hi Hne. rewrite !decide_False by done.
      by rewrite decide_True by (apply peers_in; lia).
Qed.

(** A non-root rank of a centralized operation: send, then receive. *)
Lemma exec_leaf {B} n i up_tag down_tag t u (f : N -> Tensor * N -> cproc B) b :
  0 < i < n -> sendable t -> sendable u -> f (bytes_of t) (u, bytes_of u) = Ret b ->
  exec (mkRank i n)
    (sent ⟵ send 0 up_tag t; received ⟵ recv 0 down_tag; f sent received)
    [put 0 up_tag t; take 0 down_tag u] (Ret b).
Proof.
  intros Hi Ht Hu Hf. eapply (exec_try _ _ [_]); [apply exec_send|]; [done| |].
  { apply Ranks.validate_peer_ok; cbn in *; lia. }
  eapply exec_try_ret; [apply exec_recv|]; [done| |exact Hf].
  apply Ranks.validate_peer_ok; cbn in *; lia.
Qed.

Lemma map_const_seq {A} (x : A) a n : map (fun _ => x) (seq a n) = replicate n x.
Proof. revert a. induction n as [|n IH]; intros a; [done|]. cbn. by rewrite IH. Qed.

Lemma counted_sent self d output sent sent' self' :
  sent = sent' -> counted self d output sent self' -> counted self d output sent' self'.
Proof. by intros ->. Qed.

Lemma bytes_of_dims t u : sendable t -> sendable u -> dims t = dims u -> bytes_of t = bytes_of u.
Proof.
  intros (Ht & _) (Hu & _) Hd. unfold tensor_wf, bytes_of, lenN in *. by rewrite Ht, Hu, Hd.
Qed.

Lemma centralized_counted n nc ts s op :
  group n nc ts s -> (forall i, i < n -> dims (ts i) = dims (ts 0)) ->
  let total := sum_over ts (ts 0) (seq 1 (n - 1)) in
  agree_on n (fun i => all_reduce (nc i) (ts i) op CentralizedAllReduce)
    (fun _ => total)
    (fun i => counted (nc i)
       (descriptor_of (nc i) AllReduce Centralized (Some 0) None (ts i)) (Some total)
       (wrap64 (if i =? 0 then N.of_nat (n - 1) * bytes_of (ts 0) else bytes_of (ts 0)))).
Proof.
  intros Hg Hdims total. pose proof (g_positive _ _ _ _ Hg) as Hn.
  destruct (tag_ok s AllReduce 1 0 (g_tags _ _ _ _ Hg)) as [gtag Hgtag]; [lia..|].
  destruct (tag_ok s AllReduce 2 0 (g_tags _ _ _ _ Hg)) as [btag Hbtag]; [lia..|].
  assert (Hsrc : forall i, i ∈ seq 1 (n - 1) -> sendable (ts i) /\ dims (ts i) = dims (ts 0) /\
    Ranks.validate_peer (mkRank 0 n) i = Ok tt).
  { intros i Hi%peers_in. split; [apply Hg; lia|]. split; [apply Hdims; lia|].
    apply Ranks.validate_peer_ok; cbn in *; lia. }
  destruct (exec_reduce_from (mkRank 0 n) gtag AllReduce ts (ts 0) (seq 1 (n - 1)))
    as [received Hred]; [by apply Hg|done|].
  destruct (sum_over_ok ts (ts 0) (seq 1 (n - 1))) as [Htot Hdt]; [by apply Hg|
    by intros i Hi; destruct (Hsrc i Hi) as (? & ? & _)|].
  fold total in Hred, Htot, Hdt.
  eapply agree_weaken; [|apply (agree_counted n nc ts s AllReduce Centralized (Some 0) None
    (fun i => centralized_all_reduce (rank (nc i)) (ts i)) Some
    (star_trace n gtag btag ts (fun _ => total)) (fun _ => total)
    (fun i => if decide (i = 0)
              then foldl (fun a d => add64 a (bytes_of total)) 0%N (seq 1 (n - 1))
              else add64 0 (bytes_of (ts i)))
    (fun i => if decide (i = 0) then received else add64 0 (bytes_of total))); [done|..]].
  - intros i st Hi. apply counted_sent. destruct (Nat.eqb_spec i 0), (decide (i = 0)); try done.
    + rewrite foldl_add64, sum64_wraps, map_const_seq, sumN_replicate. f_equal.
      by rewrite (bytes_of_dims total (ts 0)) by (done || by apply Hg).
    + unfold add64. f_equal. by rewrite (bytes_of_dims (ts i) (ts 0)) by (by apply Hg || by apply Hdims).
  - intros i Hi. cbn. by rewrite (g_rank _ _ _ _ Hg).
  - intros i Hi. rewrite (g_rank _ _ _ _ Hg) by done. unfold centralized_all_reduce, star_trace.
    apply exec_lift with gtag; [done|]. apply exec_lift with btag; [done|].
    cbn [global_rank world_size peers_of].
    destruct (Nat.eqb_spec i 0) as [->|Hne]; repeat case_decide; try done.
    + eapply exec_try; [exact Hred|]. eapply exec_try_ret; [|done].
      apply (exec_send_each _ btag _ _ (fun _ => total)).
      intros d Hd. by destruct (Hsrc d Hd) as (_ & _ & ?).
    + apply exec_leaf; [lia|by apply Hg|done|]. unfold require_same_shape, reject_if.
      rewrite Hdt, (Hdims i), bool_decide_eq_true_2 by done. done.
  - by apply drains_star.
Qed.

Lemma centralized_agree n nc ts s op :
  group n nc ts s -> (forall i, i < n -> dims (ts i) = dims (ts 0)) ->
  let total := sum_over ts (ts 0) (seq 1 (n - 1)) in
  agree_on n (fun i => all_reduce (nc i) (ts i) op CentralizedAllReduce)
    (fun _ => total)
    (fun i => completed (nc i)
       (descriptor_of (nc i) AllReduce Centralized (Some 0) None (ts i)) (Some total)).
Proof.
  intros Hg Hd total. eapply agree_weaken; [intros i st _; apply counted_completed|].
  by apply (centralized_counted n nc ts s op Hg Hd).
Qed.

(** Centralized all-reduce.  Every rank returns rank 0's tensor with the
    others added in rank order - the same bits on every rank, on every
    schedule. *)
Theorem centralized_all_reduce_sums n nc ts s op :
  group n nc ts s -> (forall i, i < n -> dims (ts i) = dims (ts 0)) ->
  let total := sum_over ts (ts 0) (seq 1 (n - 1)) in
  all_return n (fun i => all_reduce (nc i) (ts i) op CentralizedAllReduce)
    (fun _ => total)
    (fun i => completed (nc i)
       (descriptor_of (nc i) AllReduce Centralized (Some 0) None (ts i)) (Some total)).
Proof. intros. by eapply agree_all_return, centralized_agree. Qed.

End Reductions.

(** ** Gather and scatter *)

Lemma require_gather_shape_ok axis t u :
  same_but_axis axis (dims t) (dims u) = true -> require_gather_shape t u axis = Ok tt.
Proof.
  unfold same_but_axis, require_gather_shape. intros [Hl Hd]%andb_true_iff.
  apply bool_decide_eq_true in Hd. rewrite Hl. cbn [negb orb].
  replace (existsb _ _) with false; [done|]. symmetry. apply not_true_iff_false.
  intros (b & Hin & Hb)%existsb_exists.
  apply list_elem_of_In, list_elem_of_lookup in Hin as [i Hi].
  rewrite list_lookup_imap in Hi. destruct (zip (dims t) (dims u) !! i) as [[x y]|] eqn:Hz; [|done].
  cbn in Hi. injection Hi as <-. apply andb_true_iff in Hb as [Hne Hxy].
  apply negb_true_iff, Nat.eqb_neq in Hne. apply negb_true_iff, Nat.eqb_neq in Hxy.
  apply lookup_zip_Some in Hz as [Hx Hy].
  assert (E : <[axis:=0]> (dims t) !! i = <[axis:=0]> (dims u) !! i) by (by rewrite Hd).
  rewrite !list_lookup_insert_ne in E by done. congruence.
Qed.

Lemma cat_agree axis t ts g :
  cat (t :: ts) axis = Ok g -> Forall (fun u => same_but_axis axis (dims t) (dims u) = true) ts.
Proof.
  destruct ts as [|u ts]; [constructor|]. cbn [cat].
  destruct (Nat.ltb _ _); [|done]. cbn [negb orb].
  destruct (forallb _ _) eqn:E; [|done]. intros _.
  apply List.Forall_forall. intros v Hv. rewrite forallb_forall in E. apply E. by right.
Qed.

Lemma all_gather_agree n nc ts s axis gathered :
  group n nc ts s -> (forall i, i < n -> axis < length (dims (ts i))) ->
  cat (map ts (seq 0 n)) axis = Ok gathered -> sendable gathered ->
  agree_on n (fun i => all_gather (nc i) (ts i) axis)
    (fun _ => gathered)
    (fun i => completed (nc i)
       (descriptor_of (nc i) AllGather Centralized (Some 0) (Some axis) (ts i)) (Some gathered)).
Proof.
  intros Hg Haxis Hcat Hgs. pose proof (g_positive _ _ _ _ Hg) as Hn.
  destruct (tag_ok s AllGather 1 0 (g_tags _ _ _ _ Hg)) as [gtag Hgtag]; [lia..|].
  destruct (tag_ok s AllGather 2 0 (g_tags _ _ _ _ Hg)) as [btag Hbtag]; [lia..|].
  assert (Hseq : seq 0 n = 0 :: seq 1 (n - 1)) by (destruct n; [lia|]; cbn; by rewrite Nat.sub_0_r).
  rewrite Hseq in Hcat. cbn [map] in Hcat. pose proof (cat_agree _ _ _ _ Hcat) as Hagree.
  pose (body := fun '(shards, received) source =>
      '(incoming, bytes) ⟵ recv source gtag;
      lift (_ ← require_gather_shape (ts 0) incoming axis;
            Ok (shards ++ [incoming], add64 received bytes))
    : cproc (list Tensor * N)).
  destruct (exec_for_each (mkRank 0 n) (seq 1 (n - 1)) body (fun i => [take i gtag (ts i)])
    (fun '(shards, received) i => (shards ++ [ts i], add64 received (bytes_of (ts i))))
    (fun _ => True) ([ts 0], 0%N)) as [Hex _]; [done| |].
  { intros [shards received] i Hi _. split; [done|]. apply peers_in in Hi as Hi'. unfold body.
    eapply exec_try_ret; [apply exec_recv; [apply Hg; lia|apply Ranks.validate_peer_ok; cbn in *; lia]|].
    cbv beta iota. rewrite require_gather_shape_ok; [done|].
    rewrite List.Forall_forall in Hagree. apply Hagree, in_map. by apply list_elem_of_In. }
  assert (Hfold : forall l shards received, exists received',
    foldl (fun '(shards, received) i => (shards ++ [ts i], add64 received (bytes_of (ts i))))
      (shards, received) l = (shards ++ map ts l, received')).
  { induction l as [|i l IH]; intros shards received; cbn; [rewrite app_nil_r; by eexists|].
    destruct (IH (shards ++ [ts i]) (add64 received (bytes_of (ts i)))) as [r' ->].
    exists r'. by rewrite <- app_assoc. }
  destruct (Hfold (seq 1 (n - 1)) [ts 0] 0%N) as [received E]. rewrite E, flat_map_single in Hex.
  apply (agree_collective n nc ts s AllGather Centralized (Some 0) (Some axis)
    (fun i => all_gather_body (rank (nc i)) (ts i) axis) Some
    (star_trace n gtag btag ts (fun _ => gathered)) (fun _ => gathered)
    (fun i => if decide (i = 0)
              then foldl (fun a d => add64 a (bytes_of gathered)) 0%N (seq 1 (n - 1))
              else add64 0 (bytes_of (ts i)))
    (fun i => if decide (i = 0) then received else add64 0 (bytes_of gathered))); [done|..].
  - intros i Hi. cbn. rewrite (g_rank _ _ _ _ Hg) by done. split; [done|by apply Haxis].
  - intros i Hi. rewrite (g_rank _ _ _ _ Hg) by done. unfold all_gather_body, star_trace.
    apply exec_lift with gtag; [done|]. apply exec_lift with btag; [done|].
    cbn [global_rank world_size peers_of].
    destruct (Nat.eqb_spec i 0) as [->|Hne]; repeat case_decide; try done.
    + eapply exec_try; [exact Hex|]. apply exec_lift with gathered; [done|].
      eapply exec_try_ret; [|done]. apply (exec_send_each _ btag _ _ (fun _ => gathered)).
      intros d Hd%peers_in. split_and!; [done..|]. apply Ranks.validate_peer_ok; cbn in *; lia.
    + apply exec_leaf; [lia|by apply Hg|done|done].
  - by apply drains_star.
Qed.

(** All-gather.  Every rank returns the shards concatenated along [axis] in
    rank order, whenever the shards can be concatenated at all. *)
Theorem all_gather_concatenates n nc ts s axis gathered :
  group n nc ts s -> (forall i, i < n -> axis < length (dims (ts i))) ->
  cat (map ts (seq 0 n)) axis = Ok gathered -> sendable gathered ->
  all_return n (fun i => all_gather (nc i) (ts i) axis)
    (fun _ => gathered)
    (fun i => completed (nc i)
       (descriptor_of (nc i) AllGather Centralized (Some 0) (Some axis) (ts i)) (Some gathered)).
Proof. intros. by eapply agree_all_return, all_gather_agree. Qed.

Lemma reduce_scatter_agree `{FloatOps} n nc ts s axis c op :
  group n nc ts s -> (forall i, i < n -> dims (ts i) = dims (ts 0)) ->
  dims (ts 0) !! axis = Some (n * c) ->
  let total := sum_over ts (ts 0) (seq 1 (n - 1)) in
  agree_on n (fun i => reduce_scatter (nc i) (ts i) axis op)
    (shard total axis c)
    (fun i => completed (nc i)
       (descriptor_of (nc i) ReduceScatter Centralized (Some 0) (Some axis) (ts i))
       (Some (shard total axis c i))) /\
  cat (map (shard total axis c) (seq 0 n)) axis = Ok total.
Proof.
  intros Hg Hdims Hax total. pose proof (g_positive _ _ _ _ Hg) as Hn.
  destruct (tag_ok s ReduceScatter 1 0 (g_tags _ _ _ _ Hg)) as [gtag Hgtag]; [lia..|].
  destruct (tag_ok s ReduceScatter 2 0 (g_tags _ _ _ _ Hg)) as [stag Hstag]; [lia..|].
  assert (Hsrc : forall i, i ∈ seq 1 (n - 1) -> sendable (ts i) /\ dims (ts i) = dims (ts 0) /\
    Ranks.validate_peer (mkRank 0 n) i = Ok tt).
  { intros i Hi%peers_in. split; [apply Hg; lia|]. split; [apply Hdims; lia|].
    apply Ranks.validate_peer_ok; cbn in *; lia. }
  destruct (exec_reduce_from (mkRank 0 n) gtag ReduceScatter ts (ts 0) (seq 1 (n - 1)))
    as [received Hred]; [by apply Hg|done|].
  destruct (sum_over_ok ts (ts 0) (seq 1 (n - 1))) as [Htot Hdt]; [by apply Hg|
    by intros i Hi; destruct (Hsrc i Hi) as (? & ? & _)|].
  fold total in Hred, Htot, Hdt. rewrite <- Hdt in Hax.
  split; [|apply cat_shards; [apply Htot|done|done]].
  assert (Hdiv : n * c / n = c) by (rewrite Nat.mul_comm; apply Nat.div_mul; lia).
  apply (agree_collective n nc ts s ReduceScatter Centralized (Some 0) (Some axis)
    (fun i => reduce_scatter_body (rank (nc i)) (ts i) axis) Some
    (star_trace n gtag stag ts (shard total axis c)) (shard total axis c)
    (fun i => if decide (i = 0)
              then foldl (fun a d => add64 a (bytes_of (shard total axis c d))) 0%N (seq 1 (n - 1))
              else add64 0 (bytes_of (ts i)))
    (fun i => if decide (i = 0) then received
              else add64 0 (bytes_of (shard total axis c i)))); [done|..].
  - intros i Hi. cbn. rewrite (g_rank _ _ _ _ Hg) by done. split; [done|].
    rewrite Hdims, <- Hdt by done. by eapply lookup_lt_Some.
  - intros i Hi. rewrite (g_rank _ _ _ _ Hg) by done. unfold reduce_scatter_body, star_trace.
    cbn [global_rank world_size peers_of].
    apply exec_lift with (n * c); [unfold dim; by rewrite Hdims, <- Hdt, Hax by done|].
    replace ((n * c) mod n) with 0 by (by rewrite Nat.mul_comm, Nat.Div0.mod_mul).
    cbn [Nat.eqb negb].
    apply exec_lift with gtag; [done|]. apply exec_lift with stag; [done|].
    destruct (Nat.eqb_spec i 0) as [->|Hne]; repeat case_decide; try done.
    + eapply exec_try; [exact Hred|].
      apply exec_lift with (n * c); [unfold dim; by rewrite Hax|]. rewrite Hdiv.
      apply exec_lift with (shard total axis c 0).
      { rewrite <- (narrow_shard total axis n c Hax 0) by done. done. }
      eapply exec_try_ret; [|done]. apply (exec_send_each _ stag _ _ (shard total axis c)).
      intros d Hd%peers_in. cbn in Hd. split; [by apply (narrow_shard total axis n c); [|lia]|].
      split; [by apply (sendable_shard total axis n c); [..|lia]|].
      apply Ranks.validate_peer_ok; cbn in *; lia.
    + apply exec_leaf; [lia|by apply Hg|by apply (sendable_shard total axis n c)|done].
  - by apply drains_star.
Qed.
(** Reduce-scatter.  Rank [i] returns the [i]-th of [n] equal shards along
    [axis] of the sum in rank order, and the shards of all ranks concatenate to
    the reduced tensor. *)
Theorem reduce_scatter_shards `{FloatOps} n nc ts s axis c op :
  group n nc ts s -> (forall i, i < n -> dims (ts i) = dims (ts 0)) ->
  dims (ts 0) !! axis = Some (n * c) ->
  let total := sum_over ts (ts 0) (seq 1 (n - 1)) in
  all_return n (fun i => reduce_scatter (nc i) (ts i) axis op)
    (shard total axis c)
    (fun i => completed (nc i)
       (descriptor_of (nc i) ReduceScatter Centralized (Some 0) (Some axis) (ts i))
       (Some (shard total axis c i))) /\
  cat (map (shard total axis c) (seq 0 n)) axis = Ok total.
Proof.
  intros Hg Hdims Hax total. destruct (reduce_scatter_agree n nc ts s axis c op Hg Hdims Hax).
  split; [by apply agree_all_return|done].
Qed.
