(* ===== verification/Ring.v ===== *)
(** * Ring all-reduce and all-to-all across a world

    The two operations of [Collective.v] in which every rank sends and receives
    in each round.  The value of every chunk after every round is given in
    closed form ([ring_acc]); the rounds of all ranks interleave freely and the
    whole exchange drains ([World.drains_exchange]). *)
From S2P Require Import Prelude Rank Packet Mailbox World Tensor Float FloatExact Collective CollectiveWorld.

(** ** Arithmetic modulo the world size *)

Lemma mod_cases n a :
  0 < n -> a < 3 * n ->
  (a < n /\ a mod n = a) \/ (n <= a < 2 * n /\ a mod n = a - n) \/
  (2 * n <= a /\ a mod n = a - 2 * n).
Proof.
  intros Hn Ha. destruct (decide (a < n)); [left; by rewrite Nat.mod_small|].
  destruct (decide (a < 2 * n)).
  - right; left. split; [lia|]. replace a with (a - n + 1 * n) at 1 by lia.
    rewrite Nat.Div0.mod_add, Nat.mod_small; lia.
  - right; right. split; [lia|]. replace a with (a - 2 * n + 2 * n) at 1 by lia.
    rewrite Nat.Div0.mod_add, Nat.mod_small; lia.
Qed.

(** [mod_lia]: names every remainder, innermost first, and leaves the cases to
    [lia]. *)
Ltac mod_facts :=
  repeat match goal with
  | H : context [?a mod ?n] |- _ =>
      lazymatch a with context [_ mod _] => fail | _ => idtac end;
      pose proof (mod_cases n a ltac:(lia) ltac:(lia));
      generalize dependent (a mod n); intros
  | |- context [?a mod ?n] =>
      lazymatch a with context [_ mod _] => fail | _ => idtac end;
      pose proof (mod_cases n a ltac:(lia) ltac:(lia));
      generalize dependent (a mod n); intros
  end.
Ltac mod_lia := mod_facts; lia.

Lemma seq_positive n : 0 < n -> seq 0 n = 0 :: seq 1 (n - 1).
Proof. destruct n; [lia|]. intros _. cbn. by rewrite Nat.sub_0_r. Qed.

(** ** Rounds in which everybody sends and receives *)

Definition round_events (dst src : nat -> nat) (tag : MessageTag) (out : nat -> Tensor) (i : nat)
  : list event :=
  [put (dst i) tag (out i); take (src i) tag (out (src i))].

Lemma drains_rounds n (dst src : nat -> nat -> nat) (tag : nat -> MessageTag)
  (out : nat -> nat -> Tensor) a k rest tr :
  (forall j i, a <= j < a + k -> i < n -> dst j i < n /\ src j (dst j i) = i) ->
  (forall j i, a <= j < a + k -> i < n -> src j i < n /\ dst j (src j i) = i) ->
  (forall i, i < n ->
     tr i = flat_map (fun j => round_events (dst j) (src j) (tag j) (out j) i) (seq a k) ++ rest i) ->
  drains n rest quiet -> drains n tr quiet.
Proof.
  revert a tr. induction k as [|k IH]; intros a tr Hd Hs Htr H.
  - eapply drains_ext; [exact H|exact Htr|done].
  - apply (drains_exchange n (dst a) (src a) (fun i => msg (tag a) (out a i))
      (fun _ => tensor_payload (tag a)) (fun i => TensorPayload (packet (out a (src a i))))
      (fun i => flat_map (fun j => round_events (dst j) (src j) (tag j) (out j) i) (seq (S a) k)
                ++ rest i)).
    + intros i Hi. apply Hd; lia.
    + intros i Hi. apply Hs; lia.
    + intros i Hi. apply tensor_payload_msg.
    + intros i Hi. by rewrite Htr.
    + apply (IH (S a)); [intros; apply Hd; lia|intros; apply Hs; lia|done|done].
Qed.

(** ** Flat tensors *)

Definition flat (t : Tensor) : Tensor :=
  mkTensor (device t) (dtype t) [elem_count t] (elements t).

Lemma sendable_flat t : sendable t -> sendable (flat t).
Proof.
  intros (Hwf & Hc & _ & Hb). unfold tensor_wf in Hwf.
  assert (Hl : N.of_nat (elem_count t) = lenN (elements t)) by (unfold elem_count, lenN; congruence).
  split; [|split; [done|split; [|done]]].
  - unfold tensor_wf, flat, elem_count, product; cbn. rewrite Hwf. unfold product. lia.
  - unfold flat, element_count, shape_of; cbn [dims map try_fold_mul elements]. rewrite Hl.
    unfold checked_mul. destruct (N.ltb_spec (1 * lenN (elements t)) U64); [|lia]. cbn.
    f_equal. lia.
Qed.

(** A chunk: one-dimensional, [c] elements, on the CPU. *)
Definition chunk_wf (c : nat) (t : Tensor) : Prop := dims t = [c] /\ sendable t.

Lemma chunk_eq c t :
  chunk_wf c t -> t = mkTensor Cpu F32 [c] (elements t) /\ length (elements t) = c.
Proof.
  intros [Hd (Hwf & [Hc Ht] & _)]. unfold tensor_wf in Hwf. rewrite Hd in Hwf.
  unfold product in Hwf; cbn in Hwf. split; [destruct t; cbn in *; congruence|lia].
Qed.

Lemma cat_chunks c (f : nat -> Tensor) l :
  l <> [] -> (forall i, i ∈ l -> chunk_wf c (f i)) ->
  cat (map f l) 0 = Ok (mkTensor Cpu F32 [length l * c] (concat (map (fun i => elements (f i)) l))).
Proof.
  intros Hl Hf. assert (Hb : forall i, i ∈ l -> axis_blocks 0 (f i) = [elements (f i)]).
  { intros i Hi. destruct (chunk_eq c (f i) (Hf i Hi)) as [E Hlen].
    unfold axis_blocks, outer, inner, product. destruct (Hf i Hi) as [-> _]. cbn.
    rewrite Nat.mul_1_r, <- Hlen. by rewrite firstn_all. }
  assert (Hblocks : forall k, (forall i, i ∈ k -> i ∈ l) ->
    cat_blocks 0 1 (map f k) = [concat (map (fun i => elements (f i)) k)]).
  { unfold cat_blocks. induction k as [|i k IH]; intros Hk; cbn [map foldr]; [done|].
    rewrite Hb, IH by set_solver. done. }
  assert (Hsum : forall k, (forall i, i ∈ k -> i ∈ l) -> axis_sum 0 (map f k) = length k * c).
  { unfold axis_sum. induction k as [|i k IH]; intros Hk; cbn [map foldr]; [done|].
    destruct (Hf i) as [-> _]; [set_solver|]. rewrite IH by set_solver. cbn. lia. }
  destruct l as [|i l]; [done|]. cbn [map].
  destruct (Hf i) as [Hd Hs]; [set_solver|].
  rewrite cat_ok; [|apply Hs|rewrite Hd; cbn; lia|].
  - assert (Ho : outer 0 (dims (f i)) = 1) by done. rewrite Ho.
    specialize (Hblocks (i :: l) (fun _ H => H)). specialize (Hsum (i :: l) (fun _ H => H)).
    cbn [map] in Hblocks, Hsum. rewrite Hblocks, Hsum. unfold of_blocks. rewrite Hd.
    destruct Hs as (_ & [-> ->] & _). cbn [list_insert]. f_equal. f_equal. cbn. by rewrite app_nil_r.
  - apply Forall_map, List.Forall_forall. intros j Hj.
    destruct (Hf j) as [Hdj _]; [right; by apply list_elem_of_In|].
    rewrite Hd, Hdj. apply same_but_axis_refl.
Qed.

Lemma tsum_chunk `{FloatOps} c t u :
  chunk_wf c t -> chunk_wf c u -> chunk_wf c (tsum t u) /\ add t u = Ok (tsum t u).
Proof.
  intros [D1 S1] [D2 S2]. destruct (tsum_ok t u) as [E Hs]; [done|done|congruence|].
  split; [split; [exact D1|done]|done].
Qed.

(** ** Ring all-reduce *)

Section RingAllReduce.
Context `{FloatOps} (n : nat) (ts : nat -> Tensor) (s : N) (c : nat) (d : list nat).
Hypothesis Hn : 2 <= n <= 257.
Hypothesis Hs : (s < 2 ^ 44)%N.
Hypothesis Hts : forall i, i < n -> sendable (ts i) /\ dims (ts i) = d.
Hypothesis Hsize : product d = n * c.

(** Chunk [k] of rank [i] before the exchange. *)
Definition own_chunk (i k : nat) : Tensor := shard (flat (ts i)) 0 c k.

(** Chunk [k] after it has visited rank [k] and the [o] ranks after it. *)
Fixpoint ring_acc (k o : nat) : Tensor :=
  match o with
  | O => own_chunk k k
  | S o => tsum (own_chunk ((k + S o) mod n) k) (ring_acc k o)
  end.

(** The reduced tensor all ranks end with. *)
Definition ring_total : Tensor :=
  mkTensor Cpu F32 d (concat (map (fun k => elements (ring_acc k (n - 1))) (seq 0 n))).

(** How far rank [i] is behind the start of chunk [k]. *)
Definition offset (i k : nat) : nat := (i + n - k) mod n.

Definition after_reduce (j i k : nat) : Tensor :=
  if decide (offset i k <= j) then ring_acc k (offset i k) else own_chunk i k.
Definition after_gather (j i k : nat) : Tensor :=
  if decide (offset i k < j) then ring_acc k (n - 1) else after_reduce (n - 1) i k.

Lemma own_chunk_wf i k : i < n -> k < n -> chunk_wf c (own_chunk i k).
Proof.
  intros Hi Hk. destruct (Hts i Hi) as [Ht Hd]. pose proof (sendable_flat _ Ht) as Hf.
  assert (E : dims (flat (ts i)) !! 0 = Some (n * c))
    by (cbn; unfold elem_count; by rewrite Hd, Hsize).
  split; [done|]. by apply (sendable_shard _ 0 n c).
Qed.

Lemma ring_acc_wf k o : k < n -> chunk_wf c (ring_acc k o).
Proof.
  intros Hk. induction o as [|o IH]; cbn; [by apply own_chunk_wf|].
  apply tsum_chunk; [apply own_chunk_wf; [apply Nat.mod_upper_bound; lia|done]|done].
Qed.

Lemma ring_total_ok : sendable ring_total /\ dims ring_total = d.
Proof.
  split; [|done]. destruct (Hts 0 ltac:(lia)) as [(Hw & Hc & He & Hb) Hd].
  assert (length (elements ring_total) = product d) as Hl.
  { cbn [ring_total elements]. rewrite (length_concat_const c), length_map, length_seq; [lia|].
    apply Forall_map, List.Forall_forall. intros k Hk%in_seq.
    by destruct (chunk_eq c _ (ring_acc_wf k (n - 1) ltac:(lia))). }
  assert (lenN (elements ring_total) = lenN (elements (ts 0))) as E
    by (unfold lenN; unfold tensor_wf in Hw; rewrite Hl, Hw, Hd; done).
  split; [exact Hl|]. split; [done|]. rewrite E. split; [by rewrite <- He, Hd|done].
Qed.

Lemma after_reduce_wf j i k : i < n -> k < n -> chunk_wf c (after_reduce j i k).
Proof. intros. unfold after_reduce. case_decide; auto using own_chunk_wf, ring_acc_wf. Qed.
Lemma after_gather_wf j i k : i < n -> k < n -> chunk_wf c (after_gather j i k).
Proof. intros. unfold after_gather. case_decide; auto using after_reduce_wf, ring_acc_wf. Qed.

Definition next (i : nat) : nat := (i + 1) mod n.
Definition previous (i : nat) : nat := (i + n - 1) mod n.

Lemma next_peer i : i < n -> Ranks.validate_peer (mkRank i n) (next i) = Ok tt.
Proof. intros. unfold next. apply Ranks.validate_peer_ok; cbn. mod_lia. Qed.
Lemma previous_peer i : i < n -> Ranks.validate_peer (mkRank i n) (previous i) = Ok tt.
Proof. intros. unfold previous. apply Ranks.validate_peer_ok; cbn. mod_lia. Qed.

(** The state of one rank: chunk list and byte counters. *)
Definition ring_state (value : nat -> nat -> nat -> Tensor) (b : N) (i j : nat)
  : list Tensor * N * N :=
  let count := Nat.iter j (fun a => add64 a (N.of_nat c * 4)) b in
  (map (value j i) (seq 0 n), count, count).

Lemma bytes_of_chunk t : chunk_wf c t -> bytes_of t = (N.of_nat c * 4)%N.
Proof. intros Hc. destruct (chunk_eq c t Hc) as [_ Hl]. unfold bytes_of, lenN. by rewrite Hl. Qed.

Lemma chunk_at_map (f : nat -> Tensor) k : k < n -> chunk_at (map f (seq 0 n)) k = Ok (f k).
Proof. intros. unfold chunk_at. by rewrite list_lookup_fmap, lookup_seq_lt. Qed.

Lemma insert_map (f g : nat -> Tensor) k :
  k < n -> (forall x, x < n -> x <> k -> f x = g x) ->
  <[k := g k]> (map f (seq 0 n)) = map g (seq 0 n).
Proof.
  intros Hk Hfg. apply list_eq_same_length with n; rewrite ?length_insert, ?length_map, ?length_seq; [done..|].
  intros x a b Hx Ha Hb. rewrite list_lookup_fmap, lookup_seq_lt in Hb by done. cbn in Hb.
  destruct (decide (x = k)) as [->|Hne].
  - rewrite list_lookup_insert_eq in Ha by (by rewrite length_map, length_seq). congruence.
  - rewrite list_lookup_insert_ne, list_lookup_fmap, lookup_seq_lt in Ha by done. cbn in Ha.
    rewrite (Hfg x) in Ha by done. congruence.
Qed.

(** One round on one rank, from what it sends, receives and computes. *)
Lemma exec_ring_round i j phase sidx ridx combine (value : nat -> nat -> nat -> Tensor) tag
  outgoing b :
  i < n -> j <= 255 -> sidx j < n -> ridx j < n ->
  collective_tag s AllReduce phase j = Ok tag ->
  (forall k, k < n -> chunk_wf c (value j i k)) ->
  chunk_wf c (outgoing i) -> chunk_wf c (outgoing (previous i)) ->
  value j i (sidx j) = outgoing i ->
  combine (value j i (ridx j)) (outgoing (previous i)) = Ok (value (j + 1) i (ridx j)) ->
  (forall k, k < n -> k <> ridx j -> value j i k = value (j + 1) i k) ->
  exec (mkRank i n)
    (ring_round (mkRank i n) s phase sidx ridx combine (ring_state value b i j) j)
    (round_events next previous tag outgoing i) (Ret (Ok (ring_state value b i (j + 1)))).
Proof.
  intros Hi Hj Hsi Hri Htag Hwf Ho Hp Hv Hc Hkeep. unfold ring_round, ring_state.
  cbn [global_rank world_size].
  apply exec_lift with tag; [done|].
  apply exec_lift with (outgoing i); [by rewrite chunk_at_map, Hv|].
  eapply exec_try_ret; [apply exec_exchange; [apply Ho|apply Hp|by apply next_peer|
    by apply previous_peer]|].
  rewrite chunk_at_map by done. cbn [mbind result_bind].
  unfold require_same_shape, reject_if. destruct (Hwf (ridx j) Hri) as [-> _].
  destruct Hp as [Hpd Hps]. rewrite Hpd, bool_decide_eq_true_2 by done. cbn [negb mbind result_bind].
  rewrite Hc. cbn [mbind result_bind].
  rewrite (insert_map (value j i) (value (j + 1) i)) by done.
  rewrite (bytes_of_chunk (outgoing i)), (bytes_of_chunk (outgoing (previous i))) by done.
  by rewrite Nat.add_1_r.
Qed.

(** The chunk rank [i] sends in round [j] of each phase. *)
Definition reduce_out (j i : nat) : Tensor := ring_acc ((i + n - j) mod n) j.
Definition gather_out (j i : nat) : Tensor := ring_acc ((i + 1 + n - j) mod n) (n - 1).

Definition ring_tag (phase j : nat) : MessageTag :=
  (COLLECTIVE_TAG_BASE + s * 65536 + tag_id AllReduce * 4096 + N.of_nat phase * 256 + N.of_nat j)%N.

Lemma ring_tag_ok phase j :
  phase <= 15 -> j <= 255 -> collective_tag s AllReduce phase j = Ok (ring_tag phase j).
Proof. intros. by apply collective_tag_spec. Qed.

Lemma exec_reduce_round i j b :
  i < n -> j < n - 1 ->
  exec (mkRank i n)
    (ring_round (mkRank i n) s 1 (fun step => (i + n - step) mod n)
       (fun step => (i + n - step - 1) mod n) add (ring_state after_reduce b i j) j)
    (round_events next previous (ring_tag 1 j) (reduce_out j) i)
    (Ret (Ok (ring_state after_reduce b i (j + 1)))).
Proof.
  intros Hi Hj.
  assert (Hp : previous i < n) by (unfold previous; mod_lia).
  assert (Hout : forall x, x < n -> chunk_wf c (reduce_out j x))
    by (intros; apply ring_acc_wf, Nat.mod_upper_bound; lia).
  apply exec_ring_round; auto using ring_tag_ok, after_reduce_wf; try mod_lia.
  - apply ring_tag_ok; lia.
  - unfold after_reduce, reduce_out, offset.
    replace ((i + n - (i + n - j) mod n) mod n) with j by mod_lia. by rewrite decide_True.
  - set (k := (i + n - j - 1) mod n). assert (Hk : k < n) by (unfold k; mod_lia).
    assert (Ho : offset i k = j + 1) by (unfold offset, k; mod_lia).
    assert (Hpk : (previous i + n - j) mod n = k) by (unfold previous, k; mod_lia).
    unfold reduce_out. rewrite Hpk. unfold after_reduce. rewrite Ho.
    rewrite decide_False, decide_True by lia.
    rewrite Nat.add_1_r. cbn [ring_acc].
    replace ((k + S j) mod n) with i by (unfold k; mod_lia).
    by refine (proj2 (tsum_chunk c _ _ _ _)); [apply own_chunk_wf|apply ring_acc_wf].
  - intros k Hk Hne. unfold after_reduce.
    assert (offset i k <> j + 1) by (unfold offset in *; mod_lia).
    repeat case_decide; done || lia.
Qed.

Lemma exec_gather_round i j b :
  i < n -> j < n - 1 ->
  exec (mkRank i n)
    (ring_round (mkRank i n) s 2 (fun step => (i + 1 + n - step) mod n)
       (fun step => (i + n - step) mod n) (fun _ incoming => Ok incoming)
       (ring_state after_gather b i j) j)
    (round_events next previous (ring_tag 2 j) (gather_out j) i)
    (Ret (Ok (ring_state after_gather b i (j + 1)))).
Proof.
  intros Hi Hj.
  assert (Hp : previous i < n) by (unfold previous; mod_lia).
  assert (Hout : forall x, x < n -> chunk_wf c (gather_out j x))
    by (intros; apply ring_acc_wf, Nat.mod_upper_bound; lia).
  apply exec_ring_round; auto using after_gather_wf; try mod_lia.
  - apply ring_tag_ok; lia.
  - unfold gather_out. set (k := (i + 1 + n - j) mod n).
    assert (Ho : offset i k < j \/ offset i k = n - 1) by (unfold offset, k; mod_lia).
    unfold after_gather. case_decide; [done|]. unfold after_reduce.
    assert (offset i k = n - 1) as -> by lia. by rewrite decide_True.
  - set (k := (i + n - j) mod n). assert (Hk : k < n) by (unfold k; mod_lia).
    assert (Ho : offset i k = j) by (unfold offset, k; mod_lia).
    assert (Hpk : (previous i + 1 + n - j) mod n = k) by (unfold previous, k; mod_lia).
    unfold gather_out. rewrite Hpk. unfold after_gather. rewrite Ho.
    by rewrite decide_True by lia.
  - intros k Hk Hne. unfold after_gather.
    assert (offset i k <> j) by (unfold offset in *; mod_lia).
    repeat case_decide; done || lia.
Qed.

Lemma offset_bound i k : i < n -> k < n -> offset i k < n.
Proof. intros. unfold offset. mod_lia. Qed.

(** The local execution of [ring_all_reduce]. *)
Definition ring_trace (i : nat) : list event :=
  flat_map (fun j => round_events next previous (ring_tag 1 j) (reduce_out j) i) (seq 0 (n - 1))
  ++ flat_map (fun j => round_events next previous (ring_tag 2 j) (gather_out j) i)
       (seq 0 (n - 1)).

(** The bytes a rank counts, sent and received alike. *)
Definition ring_bytes : N :=
  Nat.iter (n - 1) (fun a => add64 a (N.of_nat c * 4))
    (Nat.iter (n - 1) (fun a => add64 a (N.of_nat c * 4)) 0%N).

Lemma exec_ring i :
  i < n ->
  exec (mkRank i n) (ring_all_reduce (mkRank i n) (ts i) s) (ring_trace i)
    (Ret (Ok (ring_total, ring_bytes, ring_bytes))).
Proof.
  intros Hi. destruct (Hts i Hi) as [Ht Hd].
  unfold ring_all_reduce. cbn [world_size global_rank].
  destruct (Nat.eqb_spec n 1); [lia|].
  apply exec_lift with (flat (ts i)); [done|].
  assert (He : elem_count (flat (ts i)) = n * c)
    by (unfold elem_count, flat; cbn; unfold elem_count; rewrite Hd, Hsize;
        unfold product; cbn; lia).
  rewrite He. replace ((n * c) mod n) with 0 by (by rewrite Nat.mul_comm, Nat.Div0.mod_mul).
  replace (n * c / n) with c by (rewrite Nat.mul_comm, Nat.div_mul; lia).
  cbn [Nat.eqb negb].
  assert (Hax : dims (flat (ts i)) !! 0 = Some (n * c))
    by (cbn; unfold elem_count; by rewrite Hd, Hsize).
  apply exec_lift with (map (own_chunk i) (seq 0 n)).
  { apply (narrow_all _ 0 n c Hax). apply List.Forall_forall.
    intros x Hx%list_elem_of_In%elem_of_seq. lia. }
  eapply exec_try.
  { replace (map (own_chunk i) (seq 0 n), 0%N, 0%N) with (ring_state after_reduce 0 i 0).
    - apply (exec_for_seq _ 0 (n - 1) _ (ring_state after_reduce 0 i)).
      intros j Hj. by apply exec_reduce_round.
    - unfold ring_state. cbn [Nat.iter]. f_equal. f_equal. apply map_ext_in.
      intros k Hk%list_elem_of_In%elem_of_seq. unfold after_reduce.
      case_decide as Ho; [|done]. assert (offset i k = 0) as E by lia. rewrite E. cbn.
      assert (i = k) as -> by (unfold offset in E; mod_lia). done. }
  cbv beta. set (b := Nat.iter (n - 1) (fun a => add64 a (N.of_nat c * 4)) 0%N).
  replace (ring_state after_reduce 0 i (n - 1)) with (ring_state after_gather b i 0).
  2: { unfold ring_state. cbn [Nat.iter]. by do 2 f_equal. }
  eapply exec_try_ret.
  { apply (exec_for_seq _ 0 (n - 1) _ (ring_state after_gather b i)).
    intros j Hj. by apply exec_gather_round. }
  unfold ring_state. cbv beta iota zeta.
  rewrite (map_ext_in _ (fun k => ring_acc k (n - 1))).
  2: { intros k Hk%list_elem_of_In%elem_of_seq. unfold after_gather, after_reduce.
       pose proof (offset_bound i k Hi ltac:(lia)).
       case_decide; [done|]. rewrite decide_True by lia. f_equal; lia. }
  rewrite (cat_chunks c); [|destruct n; [lia|done]|].
  2: { intros k Hk%elem_of_seq. apply ring_acc_wf. lia. }
  cbn [mbind result_bind]. unfold reshape, elem_count. cbn [dims device dtype elements].
  rewrite length_seq, Hd, Hsize. unfold product at 1. cbn [foldr].
  rewrite Nat.mul_1_r, Nat.eqb_refl. done.
Qed.

Lemma drains_ring : drains n ring_trace quiet.
Proof.
  assert (Hnext : forall i, i < n -> next i < n /\ previous (next i) = i)
    by (intros; unfold next, previous; mod_lia).
  assert (Hprev : forall i, i < n -> previous i < n /\ next (previous i) = i)
    by (intros; unfold next, previous; mod_lia).
  eapply (drains_rounds n (fun _ => next) (fun _ => previous) (ring_tag 1) reduce_out 0 (n - 1)
    (fun i => flat_map (fun j => round_events next previous (ring_tag 2 j) (gather_out j) i)
                (seq 0 (n - 1)))); [auto|auto|done|].
  eapply (drains_rounds n (fun _ => next) (fun _ => previous) (ring_tag 2) gather_out 0 (n - 1)
    (fun _ => [])); [auto|auto| |by apply drains_done].
  intros i Hi. by rewrite app_nil_r.
Qed.

End RingAllReduce.

Lemma ring_total_one `{FloatOps} ts c d :
  sendable (ts 0) -> dims (ts 0) = d -> product d = 1 * c -> ring_total 1 ts c d = ts 0.
Proof.
  intros Ht Hd Hc. pose proof (cat_shards (flat (ts 0)) 0 1 c) as Hcat.
  cbn [seq map cat] in Hcat. unfold ring_total. cbn [seq map Nat.sub ring_acc]. unfold own_chunk.
  assert (E : shard (flat (ts 0)) 0 c 0 = flat (ts 0)).
  { apply (f_equal (fun r => match r with Ok t => t | Err _ => flat (ts 0) end)) in Hcat; [done|..].
    - by apply sendable_flat.
    - cbn. unfold elem_count. by rewrite Hd, Hc.
    - lia. }
  rewrite E. cbn. rewrite app_nil_r. destruct Ht as (_ & [H1 H2] & _).
  destruct (ts 0); cbn in *; congruence.
Qed.

Lemma iter_add64 k a b : Nat.iter k (fun a => add64 a b) (wrap64 a) = wrap64 (a + N.of_nat k * b).
Proof.
  induction k as [|k IH]; [by rewrite N.add_0_r|]. cbn [Nat.iter nat_rect]. unfold Nat.iter in IH. rewrite IH.
  unfold add64. rewrite wrap64_add_l. f_equal. lia.
Qed.
Lemma ring_bytes_wraps n c : ring_bytes n c = wrap64 (N.of_nat (2 * (n - 1)) * (N.of_nat c * 4)).
Proof. unfold ring_bytes. change 0%N with (wrap64 0) at 1. rewrite !iter_add64. f_equal. lia. Qed.

Lemma ring_counted `{FloatOps} n nc ts s c op :
  group n nc ts s -> n <= 257 -> (forall i, i < n -> dims (ts i) = dims (ts 0)) ->
  product (dims (ts 0)) = n * c ->
  let total := ring_total n ts c (dims (ts 0)) in
  agree_on n (fun i => all_reduce (nc i) (ts i) op RingAllReduce)
    (fun _ => total)
    (fun i => counted (nc i)
       (descriptor_of (nc i) AllReduce Collective.Ring None None (ts i)) (Some total)
       (wrap64 (N.of_nat (2 * (n - 1)) * (N.of_nat c * 4)))).
Proof.
  intros Hg Hmax Hdims Hsize total. pose proof (g_positive _ _ _ _ Hg) as Hn.
  assert (Hts : forall i, i < n -> sendable (ts i) /\ dims (ts i) = dims (ts 0))
    by (intros i Hi; split; [by apply Hg|by apply Hdims]).
  assert (Htag := g_tags _ _ _ _ Hg).
  set (count := wrap64 (N.of_nat (2 * (n - 1)) * (N.of_nat c * 4))).
  assert (exists tr, (forall i, i < n ->
    exec (mkRank i n) (ring_all_reduce (mkRank i n) (ts i) s) (tr i)
      (Ret (Ok (total, count, count)))) /\ drains n tr quiet) as (tr & Hex & Hd).
  { destruct (decide (n = 1)) as [->|Hne].
    - exists (fun _ => []). split; [|by apply drains_done].
      intros i Hi. assert (i = 0) as -> by lia. unfold ring_all_reduce. cbn [world_size].
      cbn [Nat.eqb]. unfold total. rewrite ring_total_one by (done || by apply Hts). constructor.
    - exists (ring_trace n ts s c). unfold count. rewrite <- ring_bytes_wraps.
      split; [|by eapply (drains_ring n ts s c (dims (ts 0))); [lia|..]].
      intros i Hi. apply (exec_ring n ts s c (dims (ts 0))); [lia|done..]. }
  apply (agree_counted n nc ts s AllReduce Collective.Ring None None
    (fun i => ring_all_reduce (rank (nc i)) (ts i)) Some tr (fun _ => total) (fun _ => count) (fun _ => count));
    [done|done| |done].
  intros i Hi. rewrite (g_rank _ _ _ _ Hg) by done. by apply Hex.
Qed.

Lemma ring_agree `{FloatOps} n nc ts s c op :
  group n nc ts s -> n <= 257 -> (forall i, i < n -> dims (ts i) = dims (ts 0)) ->
  product (dims (ts 0)) = n * c ->
  let total := ring_total n ts c (dims (ts 0)) in
  agree_on n (fun i => all_reduce (nc i) (ts i) op RingAllReduce)
    (fun _ => total)
    (fun i => completed (nc i)
       (descriptor_of (nc i) AllReduce Collective.Ring None None (ts i)) (Some total)).
Proof.
  intros Hg Hn Hd Hp total. eapply agree_weaken; [intros i st _; apply counted_completed|].
  by apply (ring_counted n nc ts s c op Hg Hn Hd Hp).
Qed.

(** C12: ring all-reduce.  In a world of up to 257 ranks whose tensors have the
    same shape and a number of elements divisible by the world size, every
    schedule of the ring terminates and every rank returns the same tensor, bit
    for bit: chunk [k] is the sum that starts with rank [k] and adds ranks
    [k+1, k+2, ...] around the ring ([ring_acc]). *)
Theorem ring_all_reduce_agrees `{FloatOps} n nc ts s c op :
  group n nc ts s -> n <= 257 -> (forall i, i < n -> dims (ts i) = dims (ts 0)) ->
  product (dims (ts 0)) = n * c ->
  let total := ring_total n ts c (dims (ts 0)) in
  all_return n (fun i => all_reduce (nc i) (ts i) op RingAllReduce)
    (fun _ => total)
    (fun i => completed (nc i)
       (descriptor_of (nc i) AllReduce Collective.Ring None None (ts i)) (Some total)).
Proof. intros. by eapply agree_all_return, ring_agree. Qed.

(** ** All-to-all *)

Section AllToAll.
Context (n : nat) (ts : nat -> Tensor) (s : N) (axis c : nat) (d : list nat).
Hypothesis Hn : 0 < n <= 257.
Hypothesis Hs : (s < 2 ^ 44)%N.
Hypothesis Hts : forall i, i < n -> sendable (ts i) /\ dims (ts i) = d.
Hypothesis Hax : d !! axis = Some (n * c).

Definition ahead (step i : nat) : nat := (i + step) mod n.
Definition behind (step i : nat) : nat := (i + n - step) mod n.
(** What rank [i] sends in step [step]. *)
Definition a2a_out (step i : nat) : Tensor := shard (ts i) axis c (ahead step i).
Definition a2a_tag (step : nat) : MessageTag :=
  (COLLECTIVE_TAG_BASE + s * 65536 + tag_id AllToAll * 4096 + N.of_nat 0 * 256
   + N.of_nat (step - 1))%N.

(** The shards rank [i] holds after [j] steps, by source. *)
Definition a2a_slot (i j x : nat) : option Tensor :=
  if decide (offset n i x <= j) then Some (shard (ts x) axis c i) else None.
Definition a2a_state (i j : nat) : list (option Tensor) * N * N :=
  (map (a2a_slot i j) (seq 0 n),
   foldl (fun a step => add64 a (bytes_of (a2a_out step i))) 0%N (seq 1 j),
   foldl (fun a step => add64 a (bytes_of (a2a_out step (behind step i)))) 0%N (seq 1 j)).

Lemma a2a_shard i x : i < n -> x < n -> sendable (shard (ts i) axis c x) /\
  dims (shard (ts i) axis c x) = <[axis := c]> d.
Proof.
  intros Hi Hx. destruct (Hts i Hi) as [Ht Hd]. split; [|by rewrite shard_dims, Hd].
  apply (sendable_shard _ axis n c); [done|by rewrite Hd|done].
Qed.

Lemma slots_insert i j :
  i < n -> j < n - 1 ->
  <[behind (1 + j) i := Some (a2a_out (1 + j) (behind (1 + j) i))]> (map (a2a_slot i j) (seq 0 n))
  = map (a2a_slot i (j + 1)) (seq 0 n).
Proof.
  intros Hi Hj. assert (Hb : behind (1 + j) i < n) by (unfold behind; mod_lia).
  assert (Ha : ahead (1 + j) (behind (1 + j) i) = i) by (unfold ahead, behind; mod_lia).
  apply list_eq_same_length with n; rewrite ?length_insert, ?length_map, ?length_seq; [done..|].
  intros x a b Hx Hxa Hxb. rewrite list_lookup_fmap, lookup_seq_lt in Hxb by done.
  cbn in Hxb. injection Hxb as <-. unfold a2a_slot.
  destruct (decide (x = behind (1 + j) i)) as [->|Hne].
  - rewrite list_lookup_insert_eq in Hxa by (by rewrite length_map, length_seq).
    assert (a = Some (a2a_out (1 + j) (behind (1 + j) i))) as -> by congruence.
    unfold a2a_out. rewrite Ha.
    rewrite decide_True; [done|]. unfold offset, behind. mod_lia.
  - rewrite list_lookup_insert_ne, list_lookup_fmap, lookup_seq_lt in Hxa by done.
    cbn in Hxa. injection Hxa as <-. unfold a2a_slot.
    assert (offset n i x <> j + 1) by (unfold offset, behind in *; mod_lia).
    repeat case_decide; done || lia.
Qed.

Definition a2a_trace (i : nat) : list event :=
  flat_map (fun step => round_events (ahead step) (behind step) (a2a_tag step) (a2a_out step) i)
    (seq 1 (n - 1)).

Lemma cat_received i :
  i < n -> exists g, cat (map (fun j => shard (ts j) axis c i) (seq 0 n)) axis = Ok g.
Proof.
  intros Hi. rewrite (seq_positive n) by lia. cbn [map]. eexists. apply cat_ok.
  - apply (a2a_shard 0 i); lia.
  - rewrite shard_dims, length_insert. destruct (Hts 0) as [_ ->]; [lia|]. by eapply lookup_lt_Some.
  - apply Forall_map, List.Forall_forall. intros j Hj%list_elem_of_In%elem_of_seq.
    rewrite !shard_dims. destruct (Hts 0) as [_ ->]; [lia|]. destruct (Hts j) as [_ ->]; [lia|].
    apply same_but_axis_refl.
Qed.

Lemma exec_a2a_step i j shards :
  i < n -> j < n - 1 -> shards = map (shard (ts i) axis c) (seq 0 n) ->
  exec (mkRank i n)
    ((fun '(received_shards, sent, received) step =>
         let destination := (i + step) mod n in
         let source := (i + n - step) mod n in
         tag ⟵ lift (collective_tag s AllToAll 0 (step - 1));
         outgoing ⟵ lift (chunk_at shards destination);
         '(incoming, sent_bytes, received_bytes) ⟵ exchange destination source tag tag outgoing;
         lift (_ ← require_gather_shape outgoing incoming axis;
               Ok (<[source := Some incoming]> received_shards, add64 sent sent_bytes,
                   add64 received received_bytes))) (a2a_state i j) (1 + j))
    (round_events (ahead (1 + j)) (behind (1 + j)) (a2a_tag (1 + j)) (a2a_out (1 + j)) i)
    (Ret (Ok (a2a_state i (j + 1)))).
Proof.
  intros Hi Hj ->. unfold a2a_state at 1. cbv beta iota zeta.
  assert (Hb : behind (1 + j) i < n) by (unfold behind; mod_lia).
  assert (Ha : ahead (1 + j) i < n) by (unfold ahead; mod_lia).
  assert (Hab : ahead (1 + j) (behind (1 + j) i) = i) by (unfold ahead, behind; mod_lia).
  destruct (a2a_shard i (ahead (1 + j) i)) as [S1 D1]; [done..|].
  destruct (a2a_shard (behind (1 + j) i) i) as [S2 D2]; [done..|].
  apply exec_lift with (a2a_tag (1 + j)).
  { apply collective_tag_spec. split; [lia|]. split; [lia|]. done. }
  fold (ahead (1 + j) i). fold (behind (1 + j) i).
  apply exec_lift with (a2a_out (1 + j) i).
  { unfold chunk_at. by rewrite list_lookup_fmap, lookup_seq_lt. }
  eapply exec_try_ret.
  { apply (exec_exchange _ _ _ _ (a2a_out (1 + j) i) (a2a_out (1 + j) (behind (1 + j) i))).
    - done.
    - unfold a2a_out. by rewrite Hab.
    - apply Ranks.validate_peer_ok; cbn. unfold ahead in *. mod_lia.
    - apply Ranks.validate_peer_ok; cbn. unfold behind in *. mod_lia. }
  cbv beta iota. rewrite require_gather_shape_ok.
  2: { unfold a2a_out. rewrite Hab, D1, D2. apply same_but_axis_refl. }
  cbn [mbind result_bind]. rewrite slots_insert by done. unfold a2a_state, lift.
  rewrite Nat.add_1_r, seq_S, !foldl_app. done.
Qed.

Lemma exec_a2a i g :
  i < n -> cat (map (fun j => shard (ts j) axis c i) (seq 0 n)) axis = Ok g ->
  exec (mkRank i n) (all_to_all_body (mkRank i n) (ts i) axis s) (a2a_trace i)
    (Ret (Ok (g, (a2a_state i (n - 1)).1.2, (a2a_state i (n - 1)).2))).
Proof.
  intros Hi Hg. destruct (Hts i Hi) as [Ht Hd]. unfold all_to_all_body.
  cbn [world_size global_rank].
  apply exec_lift with (n * c); [unfold dim; by rewrite Hd, Hax|].
  replace ((n * c) mod n) with 0 by (by rewrite Nat.mul_comm, Nat.Div0.mod_mul).
  replace (n * c / n) with c by (rewrite Nat.mul_comm, Nat.div_mul; lia).
  cbn [Nat.eqb negb].
  apply exec_lift with (map (shard (ts i) axis c) (seq 0 n)).
  { apply (narrow_all _ axis n c); [by rewrite Hd|]. apply List.Forall_forall.
    intros x Hx%list_elem_of_In%elem_of_seq. lia. }
  apply exec_lift with (shard (ts i) axis c i).
  { unfold chunk_at. by rewrite list_lookup_fmap, lookup_seq_lt. }
  assert (Hinit : (<[i := Some (shard (ts i) axis c i)]> (replicate n None), 0%N, 0%N)
                  = a2a_state i 0).
  { unfold a2a_state. cbn [seq foldl]. do 2 f_equal.
    apply list_eq_same_length with n;
      rewrite ?length_insert, ?length_map, ?length_seq, ?length_replicate; [done..|].
    intros x a b Hx Ha Hb. rewrite list_lookup_fmap, lookup_seq_lt in Hb by done.
    cbn in Hb. injection Hb as <-. unfold a2a_slot. destruct (decide (x = i)) as [->|Hne].
    - rewrite list_lookup_insert_eq in Ha by (by rewrite length_replicate). injection Ha as <-.
      rewrite decide_True; [done|]. unfold offset. mod_lia.
    - rewrite list_lookup_insert_ne, lookup_replicate_2 in Ha by done. injection Ha as <-.
      rewrite decide_False; [done|]. unfold offset. mod_lia. }
  rewrite Hinit. unfold a2a_trace.
  assert (Hmap : forall A (f : nat -> list A) k,
    flat_map f (seq 1 k) = flat_map (fun j => f (1 + j)) (seq 0 k)).
  { intros A f k. rewrite <- seq_shift, flat_map_concat_map, map_map, <- flat_map_concat_map. done. }
  rewrite Hmap. eapply exec_try_ret.
  { apply (exec_for_seq _ 1 (n - 1) _ (a2a_state i)). intros j Hj. by apply exec_a2a_step. }
  unfold a2a_state. cbv beta iota zeta.
  rewrite (map_ext_in _ (fun x => Some (shard (ts x) axis c i))).
  2: { intros x Hx%list_elem_of_In%elem_of_seq. unfold a2a_slot.
       assert (offset n i x < n) by (unfold offset; mod_lia). by rewrite decide_True by lia. }
  rewrite <- (map_map (fun x => shard (ts x) axis c i) Some).
  rewrite (mapM_Ok (fun s => ok_or s _) (fun o => default (ts i) o)).
  - cbn [mbind result_bind]. 
    rewrite (map_map Some (fun o => default (ts i) o)).
    rewrite (map_ext (fun x => default (ts i) (Some x)) id) by done. by rewrite map_id, Hg.
  - intros o Ho. apply list_elem_of_fmap in Ho as (x & -> & _). done.
Qed.

Lemma drains_a2a : drains n a2a_trace quiet.
Proof.
  apply (drains_rounds n ahead behind a2a_tag a2a_out 1 (n - 1) (fun _ => [])).
  - intros j i Hj Hi. unfold ahead, behind. mod_lia.
  - intros j i Hj Hi. unfold ahead, behind. mod_lia.
  - intros i Hi. by rewrite app_nil_r.
  - by apply drains_done.
Qed.

End AllToAll.

Lemma all_to_all_agree n nc ts s axis c :
  group n nc ts s -> n <= 257 -> (forall i, i < n -> dims (ts i) = dims (ts 0)) ->
  dims (ts 0) !! axis = Some (n * c) ->
  exists value,
    (forall i, i < n ->
       cat (map (fun j => shard (ts j) axis c i) (seq 0 n)) axis = Ok (value i)) /\
    agree_on n (fun i => all_to_all (nc i) (ts i) axis) value
      (fun i => completed (nc i)
         (descriptor_of (nc i) AllToAll Pairwise None (Some axis) (ts i)) (Some (value i))).
Proof.
  intros Hg Hmax Hdims Hax. pose proof (g_positive _ _ _ _ Hg) as Hn.
  assert (Hts : forall i, i < n -> sendable (ts i) /\ dims (ts i) = dims (ts 0))
    by (intros i Hi; split; [by apply Hg|by apply Hdims]).
  set (value i := match cat (map (fun j => shard (ts j) axis c i) (seq 0 n)) axis with
                  | Ok g => g | Err _ => ts 0 end).
  assert (Hval : forall i, i < n ->
    cat (map (fun j => shard (ts j) axis c i) (seq 0 n)) axis = Ok (value i)).
  { intros i Hi. unfold value.
    by destruct (cat_received n ts s axis c (dims (ts 0)) ltac:(lia) (g_tags _ _ _ _ Hg) Hts Hax i Hi) as [g ->]. }
  exists value. split; [done|].
  apply (agree_collective n nc ts s AllToAll Pairwise None (Some axis)
    (fun i => all_to_all_body (rank (nc i)) (ts i) axis) Some (a2a_trace n ts s axis c) value
    (fun i => (a2a_state n ts axis c i (n - 1)).1.2) (fun i => (a2a_state n ts axis c i (n - 1)).2));
    [done| | |].
  - intros i Hi. cbn. split; [done|]. rewrite Hdims by done. by eapply lookup_lt_Some.
  - intros i Hi. rewrite (g_rank _ _ _ _ Hg) by done.
    apply (exec_a2a n ts s axis c (dims (ts 0))); [lia|apply Hg|done..|by apply Hval].
  - apply (drains_a2a n ts s axis c); [lia|apply Hg].
Qed.

(** All-to-all.  Rank [i] returns the concatenation along [axis], in rank
    order, of the [i]-th shard of every rank's tensor; the exchange of every
    world of up to 257 ranks terminates on every schedule. *)
Theorem all_to_all_transposes n nc ts s axis c :
  group n nc ts s -> n <= 257 -> (forall i, i < n -> dims (ts i) = dims (ts 0)) ->
  dims (ts 0) !! axis = Some (n * c) ->
  exists value,
    (forall i, i < n ->
       cat (map (fun j => shard (ts j) axis c i) (seq 0 n)) axis = Ok (value i)) /\
    all_return n (fun i => all_to_all (nc i) (ts i) axis) value
      (fun i => completed (nc i)
         (descriptor_of (nc i) AllToAll Pairwise None (Some axis) (ts i)) (Some (value i))).
Proof.
  intros Hg Hmax Hdims Hax. destruct (all_to_all_agree n nc ts s axis c Hg Hmax Hdims Hax) as (value & H & Ha).
  exists value. split; [done|]. by apply agree_all_return.
Qed.

(** ** Ring and centralized agree on integers

    Binary32 addition is not associative, and the two algorithms add in
    different orders.  On integers whose sums stay below [2^24] every partial
    sum is exact ([ExactIntegers]), so the orders agree. *)

Lemma nth_as_f32 p (l : list N) : nth p (map as_f32 l) 0%N = as_f32 (nth p l 0%N).
Proof. exact (map_nth as_f32 l 0%N p). Qed.

(** Rank [i] holds the integers [v i]; [sum_at] adds position [p] over ranks. *)
Definition sum_at (v : nat -> list N) (l : list nat) (p : nat) : N := sumN (map (fun i => nth p (v i) 0%N) l).
Definition rank_sums (n : nat) (v : nat -> list N) : list N :=
  map (sum_at v (seq 0 n)) (seq 0 (length (v 0))).

Lemma sumN_app l k : sumN (l ++ k) = (sumN l + sumN k)%N.
Proof. induction l as [|x l IH]; cbn [app sumN]; lia. Qed.

Lemma sum_at_perm v l k p : l ≡ₚ k -> sum_at v l p = sum_at v k p.
Proof. unfold sum_at. induction 1; cbn [map sumN]; lia. Qed.

Section ExactAddition.
Context `{FloatOps} {Exact : ExactIntegers}.

Lemma foldl_integers a l : (a + sumN l < 16777216)%N ->
  foldl fadd (as_f32 a) (map as_f32 l) = as_f32 (a + sumN l).
Proof.
  revert a. induction l as [|b l IH]; intros a Hl; cbn [map foldl sumN] in *; [by rewrite N.add_0_r|].
  rewrite fadd_integers by lia. rewrite IH by lia. f_equal. lia.
Qed.

Lemma nth_zip_with (f : f32 -> f32 -> f32) l k x :
  x < length l -> x < length k -> nth x (zip_with f l k) 0%N = f (nth x l 0%N) (nth x k 0%N).
Proof.
  revert k x. induction l as [|a l IH]; intros [|b k] [|x] H1 H2; cbn in *; try lia.
  apply IH; lia.
Qed.

Lemma nth_sum_over ts base l x :
  x < length (elements base) -> (forall i, i ∈ l -> length (elements (ts i)) = length (elements base)) ->
  nth x (elements (sum_over ts base l)) 0%N =
  foldl fadd (nth x (elements base) 0%N) (map (fun i => nth x (elements (ts i)) 0%N) l).
Proof.
  unfold sum_over. revert base. induction l as [|i l IH]; intros base Hx Hl; [done|].
  cbn [foldl map]. assert (E : length (elements (tsum base (ts i))) = length (elements base)).
  { cbn. rewrite length_zip_with, (Hl i) by set_solver. lia. }
  rewrite IH.
  - f_equal. apply nth_zip_with; [done|]. rewrite Hl; [done|set_solver].
  - by rewrite E.
  - intros j Hj. rewrite E. apply Hl. set_solver.
Qed.

Lemma length_sum_over ts base l :
  (forall i, i ∈ l -> length (elements (ts i)) = length (elements base)) ->
  length (elements (sum_over ts base l)) = length (elements base).
Proof.
  unfold sum_over. revert base. induction l as [|i l IH]; intros base Hl; [done|]. cbn [foldl].
  assert (E : length (elements (tsum base (ts i))) = length (elements base)).
  { cbn. rewrite length_zip_with, (Hl i) by set_solver. lia. }
  rewrite IH; [done|]. intros j Hj. rewrite E. apply Hl. set_solver.
Qed.

Section Chunk.
Context (n : nat) (ts : nat -> Tensor) (c : nat) (d : list nat) (v : nat -> list N).
Hypothesis Hn : 0 < n.
Hypothesis Hts : forall i, i < n -> sendable (ts i) /\ dims (ts i) = d.
Hypothesis Hsize : product d = n * c.
Hypothesis Hv : forall i, i < n -> elements (ts i) = map as_f32 (v i).
Hypothesis Hsmall : forall p, (sum_at v (seq 0 n) p < 16777216)%N.

Lemma own_chunk_elements i k :
  i < n -> elements (own_chunk ts c i k) = slice (k * c) c (elements (ts i)).
Proof.
  intros Hi. destruct (Hts i Hi) as [(Hwf & _) Hd]. unfold own_chunk, shard, of_blocks, flat.
  unfold axis_blocks, outer, inner, product, elem_count. cbn.
  rewrite !Nat.mul_1_r, app_nil_r. unfold tensor_wf in Hwf.
  change (foldr Nat.mul 1 (dims (ts i))) with (product (dims (ts i))).
  by rewrite <- Hwf, firstn_all.
Qed.

Lemma length_ts i : i < n -> length (elements (ts i)) = n * c.
Proof. intros Hi. destruct (Hts i Hi) as [(Hwf & _) Hd]. unfold tensor_wf in Hwf. by rewrite Hwf, Hd. Qed.

Lemma nth_own_chunk i k x :
  i < n -> k < n -> x < c ->
  nth x (elements (own_chunk ts c i k)) 0%N = nth (k * c + x) (elements (ts i)) 0%N.
Proof.
  intros Hi Hk Hx. rewrite own_chunk_elements by done. unfold slice.
  assert (k * c + c <= n * c) by (rewrite <- Nat.mul_succ_l; apply Nat.mul_le_mono_r; lia).
  pose proof (length_ts i Hi).
  rewrite <- (take_drop (k * c) (elements (ts i))) at 2.
  rewrite app_nth2; rewrite length_take, Nat.min_l by lia; [|lia].
  replace (k * c + x - k * c) with x by lia.
  rewrite <- (take_drop c (drop (k * c) (elements (ts i)))) at 2.
  rewrite app_nth1; [done|]. rewrite length_take, length_drop. lia.
Qed.

Lemma length_own_chunk i k : i < n -> k < n -> length (elements (own_chunk ts c i k)) = c.
Proof.
  intros Hi Hk. rewrite own_chunk_elements by done. apply slice_length. rewrite length_ts by done.
  rewrite <- Nat.mul_succ_l. apply Nat.mul_le_mono_r. lia.
Qed.

Lemma length_ring_acc k o : k < n -> length (elements (ring_acc n ts c k o)) = c.
Proof.
  intros Hk. induction o as [|o IH]; cbn [ring_acc tsum elements]; [by apply length_own_chunk|].
  rewrite length_zip_with, IH, length_own_chunk; [lia| |done]. apply Nat.mod_upper_bound. lia.
Qed.

Lemma nth_integers i p : i < n -> nth p (elements (ts i)) 0%N = as_f32 (nth p (v i) 0%N).
Proof. intros Hi. rewrite Hv by done. apply nth_as_f32. Qed.

Lemma ring_ranks_perm k :
  k < n -> k :: map (fun j => (k + j) mod n) (seq 1 (n - 1)) ≡ₚ 0 :: seq 1 (n - 1).
Proof.
  intros Hk. rewrite <- seq_positive by done.
  assert (E : k :: map (fun j => (k + j) mod n) (seq 1 (n - 1))
              = map (fun j => (k + j) mod n) (seq 0 n)).
  { rewrite (seq_positive n) by done. cbn [map]. by rewrite Nat.add_0_r, Nat.mod_small. }
  rewrite E. apply distinct_below_perm; [| |by rewrite length_map, length_seq].
  - apply NoDup_alt. intros i j x Hi Hj.
    apply list_lookup_fmap_Some_1 in Hi as (a & -> & [-> Ha]%lookup_seq).
    apply list_lookup_fmap_Some_1 in Hj as (b & Hb & [-> Hb']%lookup_seq). cbn in *. mod_lia.
  - apply Forall_map, List.Forall_forall. intros j Hj%list_elem_of_In%elem_of_seq. mod_lia.
Qed.

(** The ranks whose chunks have been added after [o] rounds. *)
Definition added (k o : nat) : list nat := k :: map (fun j => (k + j) mod n) (seq 1 o).

Lemma added_S k o p : sum_at v (added k (S o)) p = (sum_at v (added k o) p + nth p (v ((k + S o) mod n)) 0)%N.
Proof.
  unfold sum_at, added. rewrite (seq_S o), map_app, app_comm_cons, map_app, sumN_app. cbn [map sumN].
  change (1 + o) with (S o). lia.
Qed.

Lemma added_small k o p : k < n -> o < n -> (sum_at v (added k o) p < 16777216)%N.
Proof.
  intros Hk. remember (n - 1 - o) as gap eqn:Hgap. revert o Hgap. induction gap as [|gap IH]; intros o Hgap Ho.
  - replace o with (n - 1) by lia. unfold added. rewrite (sum_at_perm v _ _ p (ring_ranks_perm k Hk)), <- seq_positive by done.
    apply Hsmall.
  - specialize (IH (S o) ltac:(lia) ltac:(lia)). rewrite added_S in IH. lia.
Qed.

Lemma nth_ring_acc k o x :
  k < n -> o < n -> x < c ->
  nth x (elements (ring_acc n ts c k o)) 0%N = as_f32 (sum_at v (added k o) (k * c + x)).
Proof.
  intros Hk Ho Hx. induction o as [|o IH].
  { cbn [ring_acc]. rewrite nth_own_chunk, nth_integers by done. f_equal. unfold sum_at, added. cbn. lia. }
  assert (Hm : (k + S o) mod n < n) by (apply Nat.mod_upper_bound; lia).
  pose proof (added_small k (S o) (k * c + x) Hk Ho) as Hs. rewrite added_S in *.
  cbn [ring_acc tsum elements]. rewrite nth_zip_with.
  - rewrite IH, nth_own_chunk, nth_integers by (done || lia). rewrite fadd_integers by lia. f_equal. lia.
  - by rewrite length_own_chunk.
  - by rewrite length_ring_acc.
Qed.

Lemma concat_index {A} (f : nat -> list A) (k : nat) x y (dflt : A) :
  (forall i, i < k -> length (f i) = c) -> y < k -> x < c ->
  nth (y * c + x) (concat (map f (seq 0 k))) dflt = nth x (f y) dflt.
Proof.
  revert f y. induction k as [|k IH]; intros f y Hf Hy Hx; [lia|]. cbn [seq map concat].
  destruct y as [|y].
  - cbn. rewrite app_nth1; [done|]. rewrite Hf; lia.
  - rewrite app_nth2; rewrite Hf by lia; [|cbn; lia].
    replace (S y * c + x - c) with (y * c + x) by (cbn; lia).
    rewrite <- seq_shift, map_map. apply (IH (fun i => f (S i))); [|lia|done].
    intros i Hi. apply Hf. lia.
Qed.

Lemma nth_reference p : p < n * c ->
  nth p (elements (sum_over ts (ts 0) (seq 1 (n - 1)))) 0%N = as_f32 (sum_at v (seq 0 n) p).
Proof.
  intros Hp. rewrite nth_sum_over.
  - rewrite nth_integers by done.
    rewrite (map_ext_in _ (fun i => as_f32 (nth p (v i) 0%N)))
      by (intros i Hi%in_seq; apply nth_integers; lia).
    rewrite <- (map_map (fun i => nth p (v i) 0%N) as_f32).
    pose proof (Hsmall p) as Hs. unfold sum_at in *. rewrite seq_positive in * by done. cbn [map sumN] in *.
    by apply foldl_integers.
  - by rewrite length_ts.
  - intros i Hi%elem_of_seq. rewrite !length_ts; lia.
Qed.

Lemma reference_integers :
  elements (sum_over ts (ts 0) (seq 1 (n - 1))) = map as_f32 (rank_sums n v).
Proof.
  assert (Hl0 : length (v 0) = n * c) by (rewrite <- (length_ts 0), Hv, length_map by done; done).
  assert (Hl : length (elements (sum_over ts (ts 0) (seq 1 (n - 1)))) = n * c).
  { rewrite length_sum_over; [by apply length_ts|]. intros i Hi%elem_of_seq. rewrite !length_ts; lia. }
  apply (nth_ext _ _ 0%N 0%N).
  { exact (eq_trans Hl (eq_sym (eq_trans (length_map _ _) (eq_trans (length_map _ _) (eq_trans (length_seq _ _) Hl0))))). }
  intros p Hp'. assert (Hp : p < n * c) by (rewrite <- Hl; exact Hp'). rewrite nth_reference, nth_as_f32 by done. f_equal. unfold rank_sums.
  rewrite (nth_indep _ 0%N (sum_at v (seq 0 n) 0)) by (rewrite length_map, length_seq; lia).
  rewrite map_nth, seq_nth by lia. done.
Qed.

Lemma ring_is_sum : ring_total n ts c d = sum_over ts (ts 0) (seq 1 (n - 1)).
Proof.
  destruct (Hts 0 Hn) as [Ht0 Hd0].
  assert (Hsrc : forall i, i ∈ seq 1 (n - 1) -> length (elements (ts i)) = length (elements (ts 0)))
    by (intros i Hi%elem_of_seq; rewrite !length_ts; lia).
  destruct (sum_over_ok ts (ts 0) (seq 1 (n - 1))) as [(_ & [Hc Hf] & _) Hds].
  { done. }
  { intros i Hi%elem_of_seq. destruct (Hts i) as [? ->]; [lia|]. by rewrite Hd0. }
  assert (He : elements (ring_total n ts c d) = elements (sum_over ts (ts 0) (seq 1 (n - 1)))).
  { assert (Hlr : length (elements (ring_total n ts c d)) = n * c).
    { cbn. rewrite (length_concat_const c); [by rewrite length_map, length_seq|].
      apply Forall_map, List.Forall_forall. intros k Hk%list_elem_of_In%elem_of_seq.
      apply length_ring_acc. lia. }
    assert (Hls : length (elements (sum_over ts (ts 0) (seq 1 (n - 1)))) = n * c)
      by (rewrite length_sum_over by done; by apply length_ts).
    apply (nth_ext _ _ 0%N 0%N); [exact (eq_trans Hlr (eq_sym Hls))|].
    intros p Hp'. assert (Hp : p < n * c) by (rewrite <- Hlr; exact Hp'). clear Hp'.
    assert (Hc0 : c <> 0) by (intros ->; lia).
    pose (k := p / c). pose (x := p mod c).
    assert (Hpk : p = k * c + x) by (unfold k, x; rewrite Nat.mul_comm; by apply Nat.div_mod).
    assert (Hx : x < c) by (by apply Nat.mod_upper_bound).
    assert (Hk : k < n) by (apply Nat.Div0.div_lt_upper_bound; lia).
    rewrite Hpk. cbn [ring_total elements].
    rewrite (concat_index (fun k => elements (ring_acc n ts c k (n - 1))) n x k 0%N);
      [|intros; by apply length_ring_acc|done|done].
    rewrite nth_ring_acc by (done || lia). rewrite nth_reference by (rewrite <- Hpk; lia).
    f_equal. unfold added. rewrite (sum_at_perm v _ _ _ (ring_ranks_perm k Hk)). by rewrite <- seq_positive. }
  clear Hsrc. revert He Hc Hf Hds. generalize (sum_over ts (ts 0) (seq 1 (n - 1))).
  intros [sto ty sh e] He Hc Hf Hds. unfold ring_total. cbn in *. by rewrite He, Hc, Hf, Hds, Hd0.
Qed.

End Chunk.
End ExactAddition.

(** C13: the optimised algorithm computes what the reference does.  On tensors of
    integers whose sum over the ranks is below [2^24] at every position, the ring
    and the centralized all-reduce return, on every rank and every schedule, the
    same tensor: the sums. *)
Theorem ring_equals_centralized `{FloatOps} {Exact : ExactIntegers} n nc ts v s c op :
  group n nc ts s -> n <= 257 -> (forall i, i < n -> dims (ts i) = dims (ts 0)) ->
  product (dims (ts 0)) = n * c ->
  (forall i, i < n -> elements (ts i) = map as_f32 (v i)) ->
  (forall p, (sum_at v (seq 0 n) p < 16777216)%N) ->
  exists total : Tensor,
    dims total = dims (ts 0) /\ elements total = map as_f32 (rank_sums n v) /\
    all_return n (fun i => all_reduce (nc i) (ts i) op RingAllReduce) (fun _ => total)
      (fun _ _ => True) /\
    all_return n (fun i => all_reduce (nc i) (ts i) op CentralizedAllReduce) (fun _ => total)
      (fun _ _ => True).
Proof.
  intros Hg Hmax Hdims Hsize Hv Hsmall. pose proof Hg as [Hn _ _ _ Hts].
  assert (Hd : forall i, i < n -> sendable (ts i) /\ dims (ts i) = dims (ts 0)) by (intros; split; auto).
  exists (sum_over ts (ts 0) (seq 1 (n - 1))). split; [|split; [|split]].
  - apply sum_over_ok; [by apply Hd|]. intros i Hi%elem_of_seq. apply Hd. lia.
  - exact (reference_integers n ts c (dims (ts 0)) v Hn Hd Hsize Hv Hsmall).
  - rewrite <- (ring_is_sum n ts c (dims (ts 0)) v Hn Hd Hsize Hv Hsmall).
    destruct (agree_all_return _ _ _ _ (ring_agree n nc ts s c op Hg Hmax Hdims Hsize)) as (res & H1 & H2).
    exists res. split; [done|]. intros i Hi. by destruct (H2 i Hi).
  - destruct (agree_all_return _ _ _ _ (centralized_agree n nc ts s op Hg Hdims)) as (res & H1 & H2).
    exists res. split; [done|]. intros i Hi. by destruct (H2 i Hi).
Qed.
