(* ===== verification/CollectiveExamples.v ===== *)
(** * The collectives on concrete worlds

    Worlds of three ranks with tensors of three [f32]s on which the hypotheses
    of [CollectiveWorld.v] and [Ring.v] hold, with binary32 addition
    ([Float.v]). *)
From S2P Require Import Prelude Rank Packet Mailbox World Tensor Float FloatExact Collective CollectiveWorld Ring.

#[local] Existing Instance binary32.

(** 1.0, 2.0, 4.0 and 8.0 as bit patterns. *)
Definition one : f32 := 1065353216%N.
Definition two : f32 := 1073741824%N.
Definition four : f32 := 1082130432%N.
Definition eight : f32 := 1090519040%N.

Definition sample_tensor (i : nat) : Tensor :=
  mkTensor Cpu F32 [3]
    (match i with 0 => [one; two; four] | 1 => [two; four; eight] | _ => [four; one; one] end).

Definition sample_native (i : nat) : NativeCollectives := with_observer (mkRank i 3) (fun _ => 7%N).

Lemma sample_sendable i : sendable (sample_tensor i).
Proof. destruct i as [|[|i]]; repeat split. Qed.

Lemma sample_group : group 3 sample_native sample_tensor 0.
Proof.
  constructor; [lia|done|done|done|]. intros i _. apply sample_sendable.
Qed.

Lemma sample_dims i : i < 3 -> dims (sample_tensor i) = dims (sample_tensor 0).
Proof. done. Qed.

Example broadcast_delivers_witness :
  1 < 3 /\ exists res,
    always_returns (world_of 3 (fun i => broadcast (sample_native i) (sample_tensor i) 1))
      (map res (seq 0 3)) /\ (res 2).1 = Ok (sample_tensor 1).
Proof.
  split; [lia|].
  destruct (broadcast_delivers 3 sample_native sample_tensor 0 1 sample_group ltac:(lia))
    as (res & H1 & H2).
  exists res. split; [exact H1|]. exact (proj1 (H2 2 ltac:(lia))).
Defined.

Example reduce_sums_witness :
  exists res,
    always_returns (world_of 3 (fun i => reduce (sample_native i) (sample_tensor i) 1 Sum))
      (map res (seq 0 3)) /\
    (res 0).1 = Ok None /\
    (res 1).1 = Ok (Some (mkTensor Cpu F32 [3] [1088421888; 1088421888; 1095761920]%N)).
Proof.
  destruct (reduce_sums 3 sample_native sample_tensor 0 1 Sum sample_group ltac:(lia) sample_dims)
    as (res & H1 & H2).
  exists res. split; [exact H1|]. split; [exact (proj1 (H2 0 ltac:(lia)))|].
  rewrite (proj1 (H2 1 ltac:(lia))). vm_compute. reflexivity.
Defined.

Example centralized_all_reduce_sums_witness :
  exists res,
    always_returns
      (world_of 3 (fun i => all_reduce (sample_native i) (sample_tensor i) Sum CentralizedAllReduce))
      (map res (seq 0 3)) /\
    (res 2).1 = Ok (mkTensor Cpu F32 [3] [1088421888; 1088421888; 1095761920]%N).
Proof.
  destruct (centralized_all_reduce_sums 3 sample_native sample_tensor 0 Sum sample_group
    sample_dims) as (res & H1 & H2).
  exists res. split; [exact H1|].
  rewrite (proj1 (H2 2 ltac:(lia))). vm_compute. reflexivity.
Defined.

Lemma sample_axis i : i < 3 -> 0 < length (dims (sample_tensor i)).
Proof. cbn. lia. Qed.

Example all_gather_concatenates_witness :
  exists res,
    always_returns (world_of 3 (fun i => all_gather (sample_native i) (sample_tensor i) 0))
      (map res (seq 0 3)) /\
    (res 2).1 = Ok (mkTensor Cpu F32 [9] [one; two; four; two; four; eight; four; one; one]).
Proof.
  destruct (all_gather_concatenates 3 sample_native sample_tensor 0 0
    (mkTensor Cpu F32 [9] [one; two; four; two; four; eight; four; one; one])
    sample_group sample_axis ltac:(reflexivity) ltac:(repeat split)) as (res & H1 & H2).
  exists res. split; [exact H1|]. exact (proj1 (H2 2 ltac:(lia))).
Defined.

Example reduce_scatter_shards_witness :
  exists res,
    always_returns (world_of 3 (fun i => reduce_scatter (sample_native i) (sample_tensor i) 0 Sum))
      (map res (seq 0 3)) /\
    (res 2).1 = Ok (mkTensor Cpu F32 [1] [1095761920]%N).
Proof.
  destruct (reduce_scatter_shards 3 sample_native sample_tensor 0 0 1 Sum sample_group sample_dims
    eq_refl) as [(res & H1 & H2) _].
  exists res. split; [exact H1|].
  rewrite (proj1 (H2 2 ltac:(lia))). vm_compute. reflexivity.
Defined.

Example ring_all_reduce_agrees_witness :
  exists res,
    always_returns
      (world_of 3 (fun i => all_reduce (sample_native i) (sample_tensor i) Sum RingAllReduce))
      (map res (seq 0 3)) /\
    (res 2).1 = Ok (mkTensor Cpu F32 [3] [1088421888; 1088421888; 1095761920]%N).
Proof.
  destruct (ring_all_reduce_agrees 3 sample_native sample_tensor 0 1 Sum sample_group
    ltac:(lia) sample_dims eq_refl) as (res & H1 & H2).
  exists res. split; [exact H1|].
  rewrite (proj1 (H2 2 ltac:(lia))). vm_compute. reflexivity.
Defined.

Example all_to_all_transposes_witness :
  exists res,
    always_returns (world_of 3 (fun i => all_to_all (sample_native i) (sample_tensor i) 0))
      (map res (seq 0 3)) /\
    (res 2).1 = Ok (mkTensor Cpu F32 [3] [four; eight; one]).
Proof.
  destruct (all_to_all_transposes 3 sample_native sample_tensor 0 0 1 sample_group
    ltac:(lia) sample_dims eq_refl) as (value & H0 & res & H1 & H2).
  exists res. split; [exact H1|].
  rewrite (proj1 (H2 2 ltac:(lia))). specialize (H0 2 ltac:(lia)). rewrite <- H0.
  vm_compute. reflexivity.
Defined.

(** Rank [i] holds the integers 1 + i, 20 and 300 * i. *)
Definition integer_data (i : nat) : list N := [1 + N.of_nat i; 20; 300 * N.of_nat i]%N.
Definition integer_tensor (i : nat) : Tensor := mkTensor Cpu F32 [3] (map as_f32 (integer_data i)).

Lemma integer_group : group 3 sample_native integer_tensor 0.
Proof. constructor; [lia|done|done|done|]. intros i Hi. repeat split. Qed.

Lemma integer_small p : (sum_at integer_data (seq 0 3) p < 16777216)%N.
Proof. destruct p as [|[|[|[|p]]]]; vm_compute; reflexivity. Qed.

Example ring_equals_centralized_witness :
  exists total,
    elements total = map as_f32 [6; 60; 900]%N /\
    all_return 3 (fun i => all_reduce (sample_native i) (integer_tensor i) Sum RingAllReduce)
      (fun _ => total) (fun _ _ => True) /\
    all_return 3 (fun i => all_reduce (sample_native i) (integer_tensor i) Sum CentralizedAllReduce)
      (fun _ => total) (fun _ _ => True).
Proof.
  destruct (ring_equals_centralized 3 sample_native integer_tensor integer_data 0 1 Sum integer_group
    ltac:(lia) ltac:(done) eq_refl ltac:(done) integer_small) as (total & Hd & He & Hring & Hcentral).
  exists total. split; [exact He|]. split; [exact Hring|exact Hcentral].
Defined.
