(* ===== verification/Registry.v ===== *)
(** * Model registry and prompts

    Models [crates/runtime/src/registry.rs], [error.rs] and [prompt.rs]: the
    closed registry of models with their architecture, dtypes and prompt
    templates.  Sizes are [usize] as [N]; [f64] constants are their decimal
    text. *)
From S2P Require Import Prelude Rank.

(** [enum SupportedModelId]. *)
Inductive SupportedModelId : Type := SmolLm2_135MInstruct | TinyLlama1_1BChat.
#[global] Instance SupportedModelId_eq_dec : EqDecision SupportedModelId.
Proof. solve_decision. Defined.

Definition as_str (id : SupportedModelId) : string :=
  match id with
  | SmolLm2_135MInstruct => "smollm2-135m-instruct"
  | TinyLlama1_1BChat => "tinyllama-1.1b-chat"
  end.

(** [enum PlanDType]. *)
Inductive PlanDType : Type := PF16 | PBf16 | PF32.
#[global] Instance PlanDType_eq_dec : EqDecision PlanDType.
Proof. solve_decision. Defined.

Definition dtype_bytes (t : PlanDType) : N := match t with PF16 | PBf16 => 2 | PF32 => 4 end.
Definition dtype_display (t : PlanDType) : string :=
  match t with PF16 => "f16" | PBf16 => "bf16" | PF32 => "f32" end.

(** [enum DlirError]; Candle, I/O and JSON errors carry their text. *)
Inductive DlirError : Type :=
| UnsupportedModel (value : string)
| UnsupportedExecution (model : SupportedModelId) (dtype : PlanDType)
| InvalidMemorySize (value reason : string)
| InvalidConfig (message : string)
| CheckpointMismatch (message : string)
| EmptyPrompt
| PromptTooLong (prompt_tokens max_context : N)
| CacheCapacityExceeded (attempted capacity : N)
| DlirPlacementFailed (required_bytes budget_bytes : N)
| Artifact (message : string)
| PromptTemplateError (message : string)
| TokenizerError (message : string)
| DlirTensor (message : string)
| DlirIo (message : string)
| DlirJson (message : string)
| DlirCollective (source : CollectivesError).

Abbreviation dresult := (result DlirError).

(** [PlanDType::from_str]. *)
Definition dtype_from_str (value : string) : dresult PlanDType :=
  let lower := to_ascii_lowercase value in
  if String.eqb lower "f16" then Ok PF16
  else if String.eqb lower "bf16" then Ok PBf16
  else if String.eqb lower "f32" then Ok PF32
  else Err (InvalidConfig ("unsupported dtype '" +:+ value
              +:+ "'; expected f16, bf16, or f32")).

Inductive ExecutionSupport : Type := Validated | Unsupported.
Inductive CheckpointDType : Type := CF16 | CBf16.
Inductive TensorLayout : Type := HuggingFaceLlama.
#[global] Instance ExecutionSupport_eq_dec : EqDecision ExecutionSupport.
Proof. solve_decision. Defined.

(** ** Prompt templates *)
Inductive PromptTemplate : Type := SmolChatMl | TinyLlamaChat.

Definition newline : string := String (Ascii.ascii_of_nat 10) EmptyString.

Definition SMOL_CHAT_TEMPLATE : string :=
  "<|im_start|>system" +:+ newline
  +:+ "You are a helpful AI assistant named SmolLM, trained by Hugging Face<|im_end|>" +:+ newline
  +:+ "<|im_start|>user" +:+ newline +:+ "{prompt}<|im_end|>" +:+ newline
  +:+ "<|im_start|>assistant" +:+ newline.
Definition TINY_LLAMA_CHAT_TEMPLATE : string :=
  "<|user|>" +:+ newline +:+ "{prompt}</s>" +:+ newline +:+ "<|assistant|>" +:+ newline.

(** [PromptTemplate::source], [PromptTemplate::name]. *)
Definition template_source (t : PromptTemplate) : string :=
  match t with SmolChatMl => SMOL_CHAT_TEMPLATE | TinyLlamaChat => TINY_LLAMA_CHAT_TEMPLATE end.
Definition template_name (t : PromptTemplate) : string :=
  match t with SmolChatMl => "smollm2-chatml" | TinyLlamaChat => "tinyllama-chat" end.

(** [str::replace]: the occurrences of [needle] found from left to right,
    without overlap; [skip] characters belong to an occurrence already
    replaced. *)
Fixpoint replace (needle to : string) (skip : nat) (s : string) : string :=
  match s with
  | EmptyString => EmptyString
  | String c rest =>
      match skip with
      | S skip => replace needle to skip rest
      | O =>
          if String.prefix needle s
          then to +:+ replace needle to (String.length needle - 1) rest
          else String c (replace needle to 0 rest)
      end
  end.

(** [render_prompt]. *)
Definition render_prompt (template : PromptTemplate) (prompt : string) : dresult string :=
  if blank prompt then Err EmptyPrompt
  else Ok (replace "{prompt}" prompt 0 (template_source template)).

(** ** Architecture *)

(** [struct ModelConfig]. *)
Record ModelConfig : Type := mkConfig
  { vocab_size : N;
    hidden_size : N;
    intermediate_size : N;
    num_hidden_layers : N;
    num_attention_heads : N;
    num_key_value_heads : N;
    rms_norm_eps : string;
    rope_theta : string;
    max_position_embeddings : N;
    bos_token_id : N;
    eos_token_id : N;
    tie_word_embeddings : bool }.

(** [ModelConfig::head_dim]. *)
Definition head_dim (self : ModelConfig) : dresult N :=
  if (num_attention_heads self =? 0)%N
     || negb (hidden_size self mod num_attention_heads self =? 0)%N
  then Err (InvalidConfig ("hidden size " +:+ pretty (hidden_size self) +:+ " is not divisible by "
              +:+ pretty (num_attention_heads self) +:+ " attention heads"))
  else if (num_key_value_heads self =? 0)%N
     || negb (num_attention_heads self mod num_key_value_heads self =? 0)%N
  then Err (InvalidConfig (pretty (num_attention_heads self)
              +:+ " attention heads are not divisible by "
              +:+ pretty (num_key_value_heads self) +:+ " KV heads"))
  else Ok (hidden_size self / num_attention_heads self)%N.

(** [struct ModelSpec]. *)
Record ModelSpec : Type := mkSpec
  { id : SupportedModelId;
    repository : string;
    revision : string;
    weight_file : string;
    expected_parameters : N;
    expected_checkpoint_bytes : N;
    checkpoint_dtype : CheckpointDType;
    tensor_layout : TensorLayout;
    config : ModelConfig;
    prompt_template : PromptTemplate;
    cpu_support : ExecutionSupport;
    cuda_support : ExecutionSupport }.

(** [ModelSpec::validate_cpu_dtype]. *)
Definition validate_cpu_dtype (self : ModelSpec) (dtype : PlanDType) : dresult unit :=
  reject_if (negb (bool_decide (cpu_support self = Validated))
             || negb (bool_decide (dtype = PF32)))
    (UnsupportedExecution (id self) dtype).

(** The two entries of [SUPPORTED_MODELS]. *)
Definition SMOLLM2 : ModelSpec :=
  mkSpec SmolLm2_135MInstruct "HuggingFaceTB/SmolLM2-135M-Instruct"
    "12fd25f77366fa6b3b4b768ec3050bf629380bac" "model.safetensors" 134515008 269060552 CBf16
    HuggingFaceLlama
    (mkConfig 49152 576 1536 30 9 3 "1e-5" "100000.0" 8192 1 2 true)
    SmolChatMl Validated Unsupported.
Definition TINYLLAMA : ModelSpec :=
  mkSpec TinyLlama1_1BChat "TinyLlama/TinyLlama-1.1B-Chat-v1.0"
    "5243d158d6f4b356f1142ea8fd6a99cb5ac2c0e1" "model.safetensors" 1100048384 2200119864 CBf16
    HuggingFaceLlama
    (mkConfig 32000 2048 5632 22 32 4 "1e-5" "10000.0" 2048 1 2 false)
    TinyLlamaChat Validated Unsupported.
Definition SUPPORTED_MODELS : list ModelSpec := [SMOLLM2; TINYLLAMA].

Definition supported_models : list ModelSpec := SUPPORTED_MODELS.

(** [SupportedModelId::spec]; the [expect] fails only if no entry matches. *)
Definition spec_of (model : SupportedModelId) : option ModelSpec :=
  find (fun spec => bool_decide (id spec = model)) SUPPORTED_MODELS.

(** [SupportedModelId::from_str]. *)
Definition model_from_str (value : string) : dresult SupportedModelId :=
  ok_or (id <$> find (fun spec => String.eqb (as_str (id spec)) value) SUPPORTED_MODELS)
    (UnsupportedModel value).

(** ** Properties *)

Lemma spec_of_total model : exists spec, spec_of model = Some spec /\ id spec = model.
Proof. destruct model; eexists; by split. Qed.

Lemma head_dim_Ok cfg hd : head_dim cfg = Ok hd ->
  (0 < num_attention_heads cfg)%N /\ (0 < num_key_value_heads cfg)%N /\
  hidden_size cfg = (hd * num_attention_heads cfg)%N /\
  (num_attention_heads cfg mod num_key_value_heads cfg = 0)%N.
Proof.
  unfold head_dim. intros H. inv_ok H. subst hd. bool_prop.
  split_and!; [lia|lia| |done]. pose proof (N.div_mod (hidden_size cfg) (num_attention_heads cfg)). lia.
Qed.

(** A rendered prompt is the template's fixed text around the user's text,
    whatever that text contains (the placeholder included); only a blank prompt
    is refused. *)
Theorem render_prompt_exact template prompt :
  render_prompt template prompt =
  if blank prompt then Err EmptyPrompt else
  Ok (match template with
      | SmolChatMl =>
          "<|im_start|>system" +:+ newline
          +:+ "You are a helpful AI assistant named SmolLM, trained by Hugging Face<|im_end|>"
          +:+ newline +:+ "<|im_start|>user" +:+ newline
          +:+ prompt +:+ "<|im_end|>" +:+ newline +:+ "<|im_start|>assistant" +:+ newline
      | TinyLlamaChat =>
          "<|user|>" +:+ newline +:+ prompt +:+ "</s>" +:+ newline +:+ "<|assistant|>" +:+ newline
      end).
Proof. unfold render_prompt. destruct (blank prompt); [done|]. by destruct template. Qed.

(** The registry is closed and consistent: parsing accepts exactly the
    names it displays, each identifier has its own entry, every entry's heads
    divide evenly, and CPU execution is granted for F32 alone. *)
Theorem registry_consistent :
  (forall value model, model_from_str value = Ok model <-> value = as_str model) /\
  (forall model, exists spec d, spec_of model = Some spec /\ id spec = model /\
     head_dim (config spec) = Ok d /\ (d * num_attention_heads (config spec))%N
       = hidden_size (config spec) /\
     forall dtype, validate_cpu_dtype spec dtype = Ok tt <-> dtype = PF32).
Proof.
  split.
  - intros value model. unfold model_from_str, SUPPORTED_MODELS, SMOLLM2, TINYLLAMA. cbn [find id as_str].
    destruct (String.eqb_spec "smollm2-135m-instruct" value) as [<-|H1].
    { destruct model; by cbn. }
    destruct (String.eqb_spec "tinyllama-1.1b-chat" value) as [<-|H2].
    { destruct model; by cbn. }
    split; [done|]. destruct model; cbn; congruence.
  - intros model. destruct model; do 2 eexists; (split; [reflexivity|]); (split; [reflexivity|]);
      (split; [vm_compute; reflexivity|]); (split; [reflexivity|]);
      intros []; unfold validate_cpu_dtype; cbn; naive_solver.
Qed.
