(* ===== verification/Memory.v ===== *)
(** * Memory plans and byte sizes

    Models [crates/runtime/src/memory.rs]: the logical plan of one rank's
    persistent memory (weights and KV cache) and the IEC byte-size parser.
    Plain arithmetic wraps at 64 bits, as in the release profile; checked
    arithmetic reports an error. *)
From S2P Require Import Prelude Rank Registry.

(** ** Budgets *)
Inductive MemoryDomain : Type := Host.
Inductive BudgetSource : Type := UserDeclared.

(** [struct MemoryBudget]. *)
Record MemoryBudget : Type := mkBudget
  { budget_bytes : N; domain : MemoryDomain; budget_source : BudgetSource; os_enforced : bool }.

Definition user_declared (bytes : N) : MemoryBudget := mkBudget bytes Host UserDeclared false.

(** [invalid_size]. *)
Definition invalid_size (value reason : string) : DlirError := InvalidMemorySize value reason.

(** The multiplier of a lower-case suffix. *)
Definition unit_multiplier (suffix : string) : option N :=
  if String.eqb suffix "" || String.eqb suffix "b" then Some 1%N
  else if String.eqb suffix "kib" then Some (N.shiftl 1 10)
  else if String.eqb suffix "mib" then Some (N.shiftl 1 20)
  else if String.eqb suffix "gib" then Some (N.shiftl 1 30)
  else None.

(** [parse_byte_size]. *)
Definition parse_byte_size (value : string) : dresult N :=
  let value := trim value in
  _ ← reject_if (String.eqb value "") (invalid_size value "value is empty");
  let (digits, suffix) := split_digits value in
  _ ← reject_if (String.eqb digits "") (invalid_size value "expected an integer byte count");
  amount ← (if (decimal digits <? U64)%N then Ok (decimal digits)
             else Err (invalid_size value "integer is out of range"));
  multiplier ← ok_or (unit_multiplier (to_ascii_lowercase suffix))
    (invalid_size value "expected B, KiB, MiB, or GiB; decimal and ambiguous suffixes are rejected");
  ok_or (checked_mul amount multiplier) (invalid_size value "byte count overflow").

(** [MemoryBudget::from_str]. *)
Definition budget_from_str (value : string) : dresult MemoryBudget :=
  user_declared <$> parse_byte_size value.

(** ** Plans *)
Inductive PlacementVerdict : Type := FitsPersistentEstimate | DoesNotFit | NotEvaluated.
#[global] Instance PlacementVerdict_eq_dec : EqDecision PlacementVerdict.
Proof. solve_decision. Defined.

(** [struct MemoryComponentBreakdown]. *)
Record MemoryComponentBreakdown : Type := mkBreakdown
  { token_embedding_parameters : N;
    attention_parameters : N;
    mlp_parameters : N;
    layer_norm_parameters : N;
    final_norm_parameters : N;
    lm_head_parameters : N }.

(** [MemoryComponentBreakdown::total]. *)
Definition total (self : MemoryComponentBreakdown) : N :=
  add64 (add64 (add64 (add64 (add64 (token_embedding_parameters self) (attention_parameters self))
    (mlp_parameters self)) (layer_norm_parameters self)) (final_norm_parameters self))
    (lm_head_parameters self).

(** [struct RankMemoryPlan]. *)
Record RankMemoryPlan : Type := mkPlan
  { plan_rank : N;
    parameter_count : N;
    plan_dtype : PlanDType;
    context_length : N;
    weight_bytes : N;
    kv_cache_capacity_bytes : N;
    persistent_bytes : N;
    breakdown : MemoryComponentBreakdown;
    plan_budget : option MemoryBudget;
    placement : PlacementVerdict }.

(** [parameter_breakdown]. *)
Definition parameter_breakdown (spec : ModelSpec) : dresult MemoryComponentBreakdown :=
  let cfg := config spec in
  let h := hidden_size cfg in
  let i := intermediate_size cfg in
  let l := num_hidden_layers cfg in
  let v := vocab_size cfg in
  hd ← head_dim cfg;
  let kv := mul64 (num_key_value_heads cfg) hd in
  Ok {| token_embedding_parameters := mul64 v h;
        attention_parameters :=
          mul64 l (add64 (mul64 (mul64 2 h) h) (mul64 (mul64 2 h) kv));
        mlp_parameters := mul64 (mul64 (mul64 l 3) h) i;
        layer_norm_parameters := mul64 (mul64 l 2) h;
        final_norm_parameters := h;
        lm_head_parameters := if tie_word_embeddings cfg then 0%N else mul64 v h |}.

(** [2u64.checked_mul(layers).and_then(..)]: the KV-cache formula shared with
    the pipeline's stage plan. *)
Definition kv_cache_bytes (layers context kv_heads : N) (hd : option N) (dtype : PlanDType) : option N :=
  v ← checked_mul 2 layers;
  v ← checked_mul v context;
  v ← checked_mul v kv_heads;
  hd ← hd;
  v ← checked_mul v hd;
  checked_mul v (dtype_bytes dtype).

(** [RankMemoryPlan::for_model]. *)
Definition for_model (spec : ModelSpec) (dtype : PlanDType) (context_length : N)
    (budget : option MemoryBudget) : dresult RankMemoryPlan :=
  let max := max_position_embeddings (config spec) in
  _ ← reject_if ((context_length =? 0)%N || (max <? context_length)%N)
    (InvalidConfig ("context length must be between 1 and " +:+ pretty max +:+ " for "
                      +:+ as_str (id spec)));
  breakdown ← parameter_breakdown spec;
  _ ← reject_if (negb (total breakdown =? expected_parameters spec)%N)
    (InvalidConfig ("registry parameter formula produced " +:+ pretty (total breakdown) +:+ " for "
       +:+ as_str (id spec) +:+ " but expected " +:+ pretty (expected_parameters spec)));
  weight_bytes ← ok_or (checked_mul (expected_parameters spec) (dtype_bytes dtype))
    (InvalidConfig "weight byte count overflow");
  hd ← head_dim (config spec);
  kv_cache_capacity_bytes ← ok_or
    (kv_cache_bytes (num_hidden_layers (config spec)) context_length
       (num_key_value_heads (config spec)) (Some hd) dtype)
    (InvalidConfig "KV-cache byte count overflow");
  persistent_bytes ← ok_or (checked_add weight_bytes kv_cache_capacity_bytes)
    (InvalidConfig "persistent byte count overflow");
  let placement :=
    match budget with
    | None => NotEvaluated
    | Some budget =>
        if (persistent_bytes <=? budget_bytes budget)%N then FitsPersistentEstimate else DoesNotFit
    end in
  Ok {| plan_rank := 0;
        parameter_count := expected_parameters spec;
        plan_dtype := dtype;
        context_length := context_length;
        weight_bytes := weight_bytes;
        kv_cache_capacity_bytes := kv_cache_capacity_bytes;
        persistent_bytes := persistent_bytes;
        breakdown := breakdown;
        plan_budget := budget;
        placement := placement |}.

(** ** The byte-size parser *)

Lemma unit_multiplier_pos s m : unit_multiplier s = Some m -> (0 < m)%N.
Proof. unfold unit_multiplier. repeat case_match; intros [= <-]; by vm_compute. Qed.

(** The accepted values, in the grammar of the documentation. *)
Definition byte_size (value : string) (bytes : N) : Prop :=
  exists digits suffix multiplier,
    trim value = digits +:+ suffix /\ digits <> "" /\ all_digits digits = true /\
    unit_multiplier (to_ascii_lowercase suffix) = Some multiplier /\
    bytes = (decimal digits * multiplier)%N /\ (bytes < U64)%N.

Lemma unit_not_digit c s m :
  unit_multiplier (to_ascii_lowercase (String c s)) = Some m -> is_digit c = false.
Proof.
  destruct (is_digit c) eqn:Hc; [|done]. intros H. exfalso. revert H.
  assert (ascii_lower c = c) as Hl.
  { unfold ascii_lower, is_digit, byte_between in *. bool_prop.
    destruct (N.leb_spec 65 (Ascii.N_of_ascii c)); [lia|done]. }
  cbn [to_ascii_lowercase]. rewrite Hl. revert Hc. clear Hl.
  generalize (to_ascii_lowercase s). intros t.
  unfold unit_multiplier.
  repeat match goal with
  | |- context [String.eqb ?a ?b] =>
      let E := fresh in destruct (String.eqb_spec a b) as [E|_];
      [injection E; intros _ ->; by vm_compute|]
  end; by vm_compute.
Qed.

Lemma parse_byte_size_accepts value bytes : parse_byte_size value = Ok bytes <-> byte_size value bytes.
Proof.
  unfold parse_byte_size, byte_size.
  destruct (split_digits (trim value)) as [d r] eqn:Hs.
  pose proof (proj1 (split_digits_spec _ _ _) Hs) as (Ht & Hd & Hr).
  split.
  - intros H. apply bind_Ok in H as (u & _ & H). apply bind_Ok in H as (u' & H1 & H).
    apply reject_if_Ok, String.eqb_neq in H1.
    apply bind_Ok in H as (amount & Ha & H). apply bind_Ok in H as (m & Hm & H).
    apply ok_or_Ok in Hm, H. apply checked_mul_Some in H as [-> Hlt].
    destruct (_ <? _)%N; [|done]. injection Ha as <-. by exists d, r, m.
  - intros (d' & r' & m & Ht' & Hne & Hd' & Hm & -> & Hlt).
    assert (split_digits (trim value) = (d', r')) as Hs'.
    { apply split_digits_spec. split_and!; [done..|]. destruct r'; [done|].
      by eapply unit_not_digit. }
    rewrite Hs in Hs'. injection Hs' as <- <-. apply bind_Ok. exists tt. split.
    { apply reject_if_Ok, String.eqb_neq. rewrite Ht. by destruct d. }
    apply bind_Ok. exists tt. split; [by apply reject_if_Ok, String.eqb_neq|].
    pose proof (unit_multiplier_pos _ _ Hm).
    assert (decimal d < U64)%N as Hdl by nia.
    apply bind_Ok. exists (decimal d). split; [by apply N.ltb_lt in Hdl as ->|].
    apply bind_Ok. exists m. rewrite Hm. split; [done|].
    apply ok_or_Ok, checked_mul_Some. done.
Qed.

(** The byte-size parser accepts exactly the decimal integers with an
    optional IEC suffix in any case, inside white space, whose product fits in
    64 bits, and returns that product. *)
Theorem parse_byte_size_correct value :
  (forall bytes, parse_byte_size value = Ok bytes <-> byte_size value bytes) /\
  (forall e, parse_byte_size value = Err e -> exists v reason, e = InvalidMemorySize v reason).
Proof.
  split; [apply parse_byte_size_accepts|]. intros e. unfold parse_byte_size, invalid_size.
  destruct (split_digits _) as [d r]. intros H.
  apply bind_Err in H as [[_ ->]%reject_if_Err|(? & _ & H)]; [eauto|].
  apply bind_Err in H as [[_ ->]%reject_if_Err|(? & _ & H)]; [eauto|].
  apply bind_Err in H as [H|(? & _ & H)]; [destruct (_ <? _)%N; [done|injection H as <-; eauto]|].
  apply bind_Err in H as [[_ ->]%ok_or_Err|(? & _ & H)]; [eauto|].
  apply ok_or_Err in H as [_ ->]. eauto.
Qed.

(** ** The plans *)

(** The persistent state of a model, in unbounded arithmetic. *)
Section exact.
  Context (spec : ModelSpec) (dtype : PlanDType).

Definition exact_parameters (hd : N) : N :=
    let cfg := config spec in
    let h := hidden_size cfg in
    let kv := (num_key_value_heads cfg * hd)%N in
    (vocab_size cfg * h
     + num_hidden_layers cfg * (2 * h * h + 2 * h * kv)
     + num_hidden_layers cfg * 3 * h * intermediate_size cfg
     + num_hidden_layers cfg * 2 * h + h
     + if tie_word_embeddings cfg then 0 else vocab_size cfg * h)%N.

Definition exact_kv_bytes (layers context hd : N) : N :=
    (2 * layers * context * num_key_value_heads (config spec) * hd * dtype_bytes dtype)%N.
End exact.

Lemma kv_cache_bytes_Some layers context kv_heads hd dtype b :
  kv_cache_bytes layers context kv_heads (Some hd) dtype = Some b ->
  b = (2 * layers * context * kv_heads * hd * dtype_bytes dtype)%N /\ (b < U64)%N.
Proof.
  unfold kv_cache_bytes. intros H.
  repeat match goal with
  | H : mbind _ _ = Some _ |- _ => apply bind_Some in H as (? & ? & H)
  | H : Some _ = Some _ |- _ => injection H as <-
  | H : checked_mul _ _ = Some _ |- _ => apply checked_mul_Some in H as [-> ?]
  end. done.
Qed.

Lemma kv_cache_bytes_total layers context kv_heads hd dtype :
  (2 * layers * context * kv_heads * hd * dtype_bytes dtype < U64)%N ->
  (0 < context)%N -> (0 < kv_heads)%N -> (0 < hd)%N ->
  kv_cache_bytes layers context kv_heads (Some hd) dtype
    = Some (2 * layers * context * kv_heads * hd * dtype_bytes dtype)%N.
Proof.
  intros H5 H1 H2 H3. assert (0 < dtype_bytes dtype)%N as H4 by by destruct dtype.
  assert (forall a b, 0 < b -> a * b < U64 -> a < U64)%N as Hd by nia.
  pose proof (Hd _ _ H4 H5) as H6. pose proof (Hd _ _ H3 H6) as H7.
  pose proof (Hd _ _ H2 H7) as H8. pose proof (Hd _ _ H1 H8) as H9.
  unfold kv_cache_bytes.
  repeat first [ apply checked_mul_Some; done
               | apply bind_Some; eexists; split; [first [reflexivity | apply checked_mul_Some; done]|] ].
Qed.

(** What a successful plan says. *)
Record plan_exact (spec : ModelSpec) (dtype : PlanDType) (context : N)
    (budget : option MemoryBudget) (plan : RankMemoryPlan) : Prop := {
  pe_context : (0 < context <= max_position_embeddings (config spec))%N;
  pe_count : parameter_count plan = expected_parameters spec;
  pe_total : total (breakdown plan) = expected_parameters spec;
  pe_weight : weight_bytes plan = (expected_parameters spec * dtype_bytes dtype)%N;
  pe_kv : exists hd, head_dim (config spec) = Ok hd /\
    kv_cache_capacity_bytes plan
      = exact_kv_bytes spec dtype (num_hidden_layers (config spec)) context hd;
  pe_persistent : persistent_bytes plan = (weight_bytes plan + kv_cache_capacity_bytes plan)%N;
  pe_bound : (persistent_bytes plan < U64)%N;
  pe_placement : placement plan =
    match budget with
    | None => NotEvaluated
    | Some b => if (persistent_bytes plan <=? budget_bytes b)%N then FitsPersistentEstimate else DoesNotFit
    end;
  pe_inputs : plan_dtype plan = dtype /\ context_length plan = context /\ plan_budget plan = budget
}.

Lemma for_model_exact spec dtype context budget plan :
  for_model spec dtype context budget = Ok plan -> plan_exact spec dtype context budget plan.
Proof.
  unfold for_model. intros H.
  apply bind_Ok in H as (? & Hc%reject_if_Ok & H). apply bind_Ok in H as (b & Hb & H).
  apply bind_Ok in H as (? & Ht%reject_if_Ok & H). apply bind_Ok in H as (w & Hw%ok_or_Ok & H).
  apply bind_Ok in H as (hd & Hhd & H). apply bind_Ok in H as (kv & Hkv%ok_or_Ok & H).
  apply bind_Ok in H as (p & Hp%ok_or_Ok & H). apply Ok_inj in H. subst plan.
  apply checked_mul_Some in Hw as [-> _]. apply kv_cache_bytes_Some in Hkv as [-> _].
  apply checked_add_Some in Hp as [-> Hp]. bool_prop.
  split; cbn; [lia|done..| | |done| |done].
  - exists hd. done.
  - done.
  - by destruct budget.
Qed.

(** A memory plan is exact: for a context within the model's maximum the
    planner returns either an error or the true product and sum, none of them
    reduced modulo 2^64, and its verdict compares that sum with the budget;
    and no context outside the maximum is planned. *)
Theorem memory_plan_exact spec dtype context budget plan :
  for_model spec dtype context budget = Ok plan -> plan_exact spec dtype context budget plan.
Proof. apply for_model_exact. Qed.

Lemma registry_breakdown model spec hd :
  spec_of model = Some spec -> head_dim (config spec) = Ok hd ->
  exists b, parameter_breakdown spec = Ok b /\ total b = expected_parameters spec /\
    expected_parameters spec = exact_parameters spec hd.
Proof.
  destruct model; intros [= <-] [= <-]; eexists; (split; [vm_compute; reflexivity|]); by vm_compute.
Qed.

Lemma registry_heads model spec : spec_of model = Some spec ->
  exists hd, head_dim (config spec) = Ok hd /\ (0 < hd)%N /\
    (0 < num_key_value_heads (config spec))%N /\
    forall dtype context, (context <= max_position_embeddings (config spec))%N ->
      (expected_parameters spec * dtype_bytes dtype
       + 2 * num_hidden_layers (config spec) * context * num_key_value_heads (config spec) * hd
         * dtype_bytes dtype < U64)%N.
Proof.
  destruct model; intros [= <-]; eexists; (split; [vm_compute; reflexivity|]); (split; [done|]);
    (split; [done|]); intros dtype context; unfold U64; destruct dtype; cbn [config SMOLLM2 TINYLLAMA dtype_bytes
      max_position_embeddings num_hidden_layers num_key_value_heads expected_parameters]; lia.
Qed.

(** Each registered model can be planned at every dtype and every context
    it supports, and its plan counts exactly the parameters of its
    architecture. *)
Theorem registry_plans model dtype context budget :
  exists spec hd, spec_of model = Some spec /\ head_dim (config spec) = Ok hd /\
    ((0 < context <= max_position_embeddings (config spec))%N ->
     exists plan, for_model spec dtype context budget = Ok plan /\
     parameter_count plan = exact_parameters spec hd /\
     plan_exact spec dtype context budget plan) /\
    (~ (0 < context <= max_position_embeddings (config spec))%N ->
     is_err (for_model spec dtype context budget) = true).
Proof.
  destruct (spec_of_total model) as (spec & Hspec & _).
  destruct (registry_heads model spec Hspec) as (hd & Hhd & Hpos & Hkvh & Hbig).
  exists spec, hd. split_and!; [done..| |].
  - intros Hc. destruct (registry_breakdown model spec hd) as (b & Hb & Ht & He); [done..|].
    specialize (Hbig dtype context (proj2 Hc)).
    enough (exists plan, for_model spec dtype context budget = Ok plan) as [plan Hp].
    { exists plan. pose proof (for_model_exact _ _ _ _ _ Hp) as Hx.
      split_and!; [done| |done]. by rewrite (pe_count _ _ _ _ _ Hx). }
    unfold for_model. eexists.
    apply bind_Ok. exists tt. split.
    { apply reject_if_Ok, orb_false_iff. rewrite N.eqb_neq, N.ltb_ge. lia. }
    apply bind_Ok. exists b. split; [done|]. apply bind_Ok. exists tt. split.
    { apply reject_if_Ok. rewrite Ht, N.eqb_refl. done. }
    apply bind_Ok. eexists. split; [apply ok_or_Ok, checked_mul_Some; split; [done|lia]|].
    apply bind_Ok. exists hd. split; [done|].
    apply bind_Ok. eexists. split; [apply ok_or_Ok, kv_cache_bytes_total; lia|].
    apply bind_Ok. eexists. split; [apply ok_or_Ok, checked_add_Some; split; [done|lia]|].
    done.
  - intros Hc. unfold for_model.
    assert ((context =? 0)%N || (max_position_embeddings (config spec) <? context)%N = true) as ->.
    { apply orb_true_iff. rewrite N.eqb_eq, N.ltb_lt. lia. }
    done.
Qed.

Lemma memory_plan_exact_witness :
  exists plan, for_model SMOLLM2 PF32 512 (Some (user_declared (N.shiftl 500 20))) = Ok plan /\
    plan_exact SMOLLM2 PF32 512 (Some (user_declared (N.shiftl 500 20))) plan /\
    persistent_bytes plan = 561652992%N /\ placement plan = DoesNotFit.
Proof.
  eexists. split; [vm_compute; reflexivity|].
  split; [apply memory_plan_exact; vm_compute; reflexivity|]. split; reflexivity.
Defined.
