(* ===== verification/Partition.v ===== *)
(** * Pipeline stages

    Models [crates/pipeline/src/partition.rs] and [error.rs]: the balanced
    contiguous assignment of layers to pipeline ranks and the memory plan of one
    stage. *)
From S2P Require Import Prelude Rank Registry Memory.

(** [enum PipelineError]. *)
Inductive PipelineError : Type :=
| InvalidTopology (message : string)
| PipelineProtocol (message : string)
| StagePlacementFailed (rank required_bytes budget_bytes : N)
| PipelineRuntime (source : DlirError)
| PipelineCollectives (source : CollectivesError)
| PipelineTensor (message : string)
| PipelineJson (message : string)
| PipelineTokenizer (message : string).

Abbreviation presult := (result PipelineError).

(** [struct StageAssignment]. *)
Record StageAssignment : Type := mkStage
  { stage_rank : N;
    stage_world_size : N;
    layer_start : N;
    layer_end : N;
    owns_embeddings : bool;
    owns_lm_head : bool;
    duplicates_tied_embeddings : bool }.

(** [StageAssignment::layer_count]. *)
Definition layer_count (self : StageAssignment) : N := sub64 (layer_end self) (layer_start self).

(** [struct PipelinePartition]. *)
Record PipelinePartition : Type := mkPartition
  { total_layers : N; stages : list StageAssignment }.

(** The closure of [PipelinePartition::balanced], iterated over
    [rank..world_size] with its captured [next]. *)
Fixpoint stages_from (tied : bool) (world_size base remainder : N) (n : nat) (rank next : N)
  : list StageAssignment :=
  match n with
  | O => []
  | S n =>
      let count := (base + if (rank <? remainder)%N then 1 else 0)%N in
      let layer_start := next in
      let layer_end := (layer_start + count)%N in
      {| stage_rank := rank;
         stage_world_size := world_size;
         layer_start := layer_start;
         layer_end := layer_end;
         owns_embeddings := (rank =? 0)%N;
         owns_lm_head := (rank + 1 =? world_size)%N;
         duplicates_tied_embeddings := (rank + 1 =? world_size)%N && tied |}
      :: stages_from tied world_size base remainder n (rank + 1) layer_end
  end.

(** [PipelinePartition::balanced]. *)
Definition balanced (spec : ModelSpec) (world_size : N) : presult PipelinePartition :=
  _ ← reject_if (negb ((2 <=? world_size)%N && (world_size <=? 64)%N))
    (InvalidTopology ("world size must be between 2 and 64, got " +:+ pretty world_size));
  let layers := num_hidden_layers (config spec) in
  _ ← reject_if (layers <? world_size)%N
    (InvalidTopology ("world size " +:+ pretty world_size +:+ " exceeds " +:+ pretty layers
                        +:+ " transformer layers"));
  let base := (layers / world_size)%N in
  let remainder := (layers mod world_size)%N in
  Ok {| total_layers := layers;
        stages := stages_from (tie_word_embeddings (config spec)) world_size base remainder
                    (N.to_nat world_size) 0 0 |}.

(** [PipelinePartition::stage]. *)
Definition stage (self : PipelinePartition) (rank : N) : presult StageAssignment :=
  ok_or (stages self !! N.to_nat rank) (InvalidTopology ("partition has no rank " +:+ pretty rank)).

(** [struct StageMemoryPlan]. *)
Record StageMemoryPlan : Type := mkStagePlan
  { sp_rank : N;
    sp_layer_start : N;
    sp_layer_end : N;
    block_parameters : N;
    embedding_parameters : N;
    sp_final_norm_parameters : N;
    sp_lm_head_parameters : N;
    materialized_parameters : N;
    sp_weight_bytes : N;
    sp_kv_cache_capacity_bytes : N;
    sp_persistent_bytes : N;
    sp_budget_bytes : N;
    sp_placement : PlacementVerdict;
    sp_duplicates_tied_embeddings : bool }.

(** [StageMemoryPlan::for_stage]. *)
Definition for_stage (spec : ModelSpec) (assignment : StageAssignment) (dtype : PlanDType)
    (context_length budget_bytes : N) : presult StageMemoryPlan :=
  let cfg := config spec in
  _ ← reject_if ((context_length =? 0)%N || (max_position_embeddings cfg <? context_length)%N)
    (InvalidTopology ("context length " +:+ pretty context_length +:+ " is outside model maximum "
                        +:+ pretty (max_position_embeddings cfg)));
  let h := hidden_size cfg in
  let i := intermediate_size cfg in
  hd ← map_err PipelineRuntime (head_dim cfg);
  let kv := mul64 (num_key_value_heads cfg) hd in
  let per_block :=
    add64 (add64 (add64 (mul64 (mul64 2 h) h) (mul64 (mul64 2 h) kv)) (mul64 (mul64 3 h) i))
          (mul64 2 h) in
  block_parameters ← ok_or (checked_mul per_block (layer_count assignment))
    (InvalidTopology "stage parameter overflow");
  let embedding_parameters :=
    if owns_embeddings assignment then mul64 (vocab_size cfg) h else 0%N in
  let final_norm_parameters := mul64 (if owns_lm_head assignment then 1 else 0) h in
  let lm_head_parameters := if owns_lm_head assignment then mul64 (vocab_size cfg) h else 0%N in
  materialized_parameters ← ok_or
    (v ← checked_add block_parameters embedding_parameters;
     v ← checked_add v final_norm_parameters;
     checked_add v lm_head_parameters)
    (InvalidTopology "stage parameter overflow");
  weight_bytes ← ok_or (checked_mul materialized_parameters (dtype_bytes dtype))
    (InvalidTopology "stage weight overflow");
  kv_cache_capacity_bytes ← ok_or
    (kv_cache_bytes (layer_count assignment) context_length (num_key_value_heads cfg)
       (match head_dim cfg with Ok hd => Some hd | Err _ => None end) dtype)
    (InvalidTopology "stage KV byte overflow");
  persistent_bytes ← ok_or (checked_add weight_bytes kv_cache_capacity_bytes)
    (InvalidTopology "stage memory overflow");
  let placement :=
    if (persistent_bytes <=? budget_bytes)%N then FitsPersistentEstimate else DoesNotFit in
  Ok {| sp_rank := stage_rank assignment;
        sp_layer_start := layer_start assignment;
        sp_layer_end := layer_end assignment;
        block_parameters := block_parameters;
        embedding_parameters := embedding_parameters;
        sp_final_norm_parameters := final_norm_parameters;
        sp_lm_head_parameters := lm_head_parameters;
        materialized_parameters := materialized_parameters;
        sp_weight_bytes := weight_bytes;
        sp_kv_cache_capacity_bytes := kv_cache_capacity_bytes;
        sp_persistent_bytes := persistent_bytes;
        sp_budget_bytes := budget_bytes;
        sp_placement := placement;
        sp_duplicates_tied_embeddings := duplicates_tied_embeddings assignment |}.

(** ** The shape of the partition *)

Section shape.
  Context (tied : bool) (world base remainder : N).

(** The closed form of a stage's first layer. *)
Definition first_layer (rank : N) : N := (rank * base + N.min rank remainder)%N.

Definition stage_of (rank : N) : StageAssignment :=
  mkStage rank world (first_layer rank) (first_layer (rank + 1)) (rank =? 0)%N
    (rank + 1 =? world)%N ((rank + 1 =? world)%N && tied).

Lemma first_layer_succ r :
  first_layer (r + 1) = (first_layer r + (base + if (r <? remainder)%N then 1 else 0))%N.
Proof. unfold first_layer. destruct (N.ltb_spec r remainder); lia. Qed.

Lemma stages_from_closed n r :
  stages_from tied world base remainder n r (first_layer r)
    = map (fun k => stage_of (r + N.of_nat k)) (seq 0 n).
Proof.
  revert r. induction n as [|n IH]; intros r; [done|]. cbn [stages_from seq map].
  rewrite <- first_layer_succ, IH. f_equal.
  - rewrite N.add_0_r. done.
  - rewrite <- seq_shift, map_map. apply map_ext. intros k. f_equal. lia.
Qed.

Lemma first_layer_mono r r' : (r <= r')%N -> (first_layer r <= first_layer r')%N.
Proof. unfold first_layer. nia. Qed.
End shape.

(** What [balanced] promises for a partition of [layers] into [world] stages. *)
Record well_partitioned (tied : bool) (layers world : N) (p : PipelinePartition) : Prop := {
  wp_total : total_layers p = layers;
  wp_length : lenN (stages p) = world;
  wp_first : layer_start <$> stages p !! 0 = Some 0%N;
  wp_last : layer_end <$> stages p !! (N.to_nat world - 1) = Some layers;
  wp_stage : forall r s, stages p !! r = Some s ->
    stage_rank s = N.of_nat r /\ stage_world_size s = world /\
    (layers / world <= layer_count s <= layers / world + 1)%N /\ (0 < layer_count s)%N /\
    layer_end s = (layer_start s + layer_count s)%N /\
    owns_embeddings s = (N.of_nat r =? 0)%N /\
    owns_lm_head s = (N.of_nat r + 1 =? world)%N /\
    duplicates_tied_embeddings s = owns_lm_head s && tied;
  wp_contiguous : forall r s s', stages p !! r = Some s -> stages p !! S r = Some s' ->
    layer_start s' = layer_end s /\ (layer_count s' <= layer_count s)%N;
  wp_cover : forall layer, (layer < layers)%N ->
    exists r s, stages p !! r = Some s /\ (layer_start s <= layer < layer_end s)%N /\
      forall r' s', stages p !! r' = Some s' -> (layer_start s' <= layer < layer_end s')%N -> r' = r
}.


Lemma lookup_stages_closed tied world base remainder n r s :
  stages_from tied world base remainder n 0 0 !! r = Some s <->
  r < n /\ s = stage_of tied world base remainder (N.of_nat r).
Proof.
  pose proof (stages_from_closed tied world base remainder n 0) as H.
  assert (first_layer base remainder 0 = 0)%N as H0 by (unfold first_layer; lia).
  rewrite H0 in H. rewrite H.
  rewrite list_lookup_fmap. rewrite fmap_Some. setoid_rewrite lookup_seq. naive_solver.
Qed.

Section wp.
  Context (tied : bool) (layers world : N).
  Hypotheses (Hw : (0 < world)%N) (Hl : (world <= layers)%N) (Hu : (layers < U64)%N).
Let base := (layers / world)%N.
Let remainder := (layers mod world)%N.
Let p := mkPartition layers (stages_from tied world base remainder (N.to_nat world) 0 0).

Lemma base_pos : (0 < base)%N.
Proof. unfold base. apply N.div_str_pos. lia. Qed.
Lemma first_layer_world : first_layer base remainder world = layers.
Proof.
  unfold first_layer, base, remainder.
  pose proof (N.mod_lt layers world). pose proof (N.div_mod layers world). lia.
Qed.
Lemma first_layer_le r : (r <= world)%N -> (first_layer base remainder r <= layers)%N.
Proof. intros. rewrite <- first_layer_world. by apply first_layer_mono. Qed.
Lemma stage_count r : (r < world)%N ->
  layer_count (stage_of tied world base remainder r)
    = (base + if (r <? remainder)%N then 1 else 0)%N.
Proof.
  intros H. unfold layer_count, stage_of; cbn [layer_end layer_start].
  pose proof (first_layer_le (r + 1) ltac:(lia)). rewrite first_layer_succ in *.
  rewrite sub64_small by lia. lia.
Qed.

Lemma cover_unique layer : (layer < layers)%N ->
  exists r, (r < world)%N /\
    (first_layer base remainder r <= layer < first_layer base remainder (r + 1))%N /\
    forall r', (first_layer base remainder r' <= layer < first_layer base remainder (r' + 1))%N ->
      r' = r.
Proof.
  intros Hlayer.
  assert (exists r, (r < world)%N /\
    (first_layer base remainder r <= layer < first_layer base remainder (r + 1))%N) as (r & Hr & Hin).
  { rewrite <- first_layer_world in Hlayer. revert Hlayer. clear Hw Hl Hu. clearbody base remainder.
    clear p. induction world as [|w IH] using N.peano_ind; intros H.
    - unfold first_layer in H. lia.
    - destruct (decide (layer < first_layer base remainder w)%N) as [Hd|Hd].
      + destruct (IH Hd) as (r & ? & ?). exists r. split; [lia|done].
      + exists w. rewrite N.add_1_r. split; lia. }
  exists r. split_and!; [done|lia..|]. intros r' Hin'.
  destruct (N.lt_trichotomy r' r) as [H|[H|H]]; [|done|]; exfalso.
  - pose proof (first_layer_mono base remainder (r' + 1) r ltac:(lia)). lia.
  - pose proof (first_layer_mono base remainder (r + 1) r' ltac:(lia)). lia.
Qed.

Lemma well_partitioned_intro : well_partitioned tied layers world p.
Proof.
  pose proof base_pos as Hb. pose proof first_layer_world as Hfw.
  assert (forall r s, stages p !! r = Some s <->
    (N.of_nat r < world)%N /\ s = stage_of tied world base remainder (N.of_nat r)) as Hlk.
  { intros r s. unfold p; cbn [stages]. rewrite lookup_stages_closed. intuition lia. }
  split.
  - done.
  - unfold p, lenN; cbn [stages]. pose proof (stages_from_closed tied world base remainder
      (N.to_nat world) 0) as H. assert (first_layer base remainder 0 = 0)%N as H0
      by (unfold first_layer; lia). rewrite H0 in H. rewrite H, length_map, length_seq. lia.
  - assert (stages p !! 0 = Some (stage_of tied world base remainder 0)) as -> by (apply Hlk; split; [lia|done]).
    cbn. unfold first_layer. f_equal. lia.
  - assert (stages p !! (N.to_nat world - 1)
      = Some (stage_of tied world base remainder (world - 1))) as ->.
    { apply Hlk. split; [lia|]. f_equal. lia. }
    cbn. f_equal. rewrite <- Hfw. f_equal. lia.
  - intros r s [Hr ->]%Hlk. pose proof (stage_count (N.of_nat r) Hr) as Hc. rewrite Hc.
    cbn [stage_of stage_rank stage_world_size layer_end layer_start owns_embeddings owns_lm_head
      duplicates_tied_embeddings]. rewrite first_layer_succ.
    fold base. destruct (_ <? _)%N; split_and!; (done || lia).
  - intros r s s' [Hr ->]%Hlk [Hr' ->]%Hlk. rewrite !stage_count by lia. cbn. split; [f_equal; lia|].
    destruct (N.ltb_spec (N.of_nat (S r)) remainder), (N.ltb_spec (N.of_nat r) remainder); lia.
  - intros layer H. destruct (cover_unique layer H) as (r & Hr & Hin & Hu').
    exists (N.to_nat r), (stage_of tied world base remainder r). split_and!.
    + apply Hlk. split; [lia|]. f_equal. lia.
    + cbn. lia.
    + cbn. lia.
    + intros r' s' [_ ->]%Hlk Hin'. cbn in Hin'. specialize (Hu' _ Hin'). lia.
Qed.
End wp.

(** C34: the balanced partition exists exactly for 2 to 64 ranks and at most one
    rank per layer; it covers every layer by exactly one stage, in rank order
    and contiguously, no stage is empty, counts differ by at most one with the
    larger ones first, and only the first and the last rank own the embedding
    and the head. *)
Theorem balanced_correct spec world :
  (num_hidden_layers (config spec) < U64)%N ->
  (is_ok (balanced spec world) = true <->
     (2 <= world <= 64)%N /\ (world <= num_hidden_layers (config spec))%N) /\
  (forall p, balanced spec world = Ok p ->
     well_partitioned (tie_word_embeddings (config spec)) (num_hidden_layers (config spec)) world p).
Proof.
  intros Hu. unfold balanced, reject_if.
  destruct (N.leb_spec 2 world), (N.leb_spec world 64); cbn [andb negb mbind result_bind];
    try (split; [split; [done|lia]|done]).
  destruct (N.ltb_spec (num_hidden_layers (config spec)) world); cbn [mbind result_bind].
  - split; [split; [done|lia]|done].
  - split; [split; [lia|done]|]. intros p [= <-]. apply well_partitioned_intro; lia.
Qed.

(** ** Conservation of memory across stages *)

Section sums.
  Context (tied : bool) (world base remainder : N).
  Abbreviation stages_at n r := (stages_from tied world base remainder n r (first_layer base remainder r)).

Lemma sum_counts n r :
  (first_layer base remainder (r + N.of_nat n) < U64)%N ->
  (sumN (map layer_count (stages_at n r)) + first_layer base remainder r
   = first_layer base remainder (r + N.of_nat n))%N.
Proof.
  revert r. induction n as [|n IH]; intros r Hu;
    [by replace (r + N.of_nat 0)%N with r by lia|].
  pose proof (first_layer_mono base remainder (r + 1) (r + N.of_nat (S n)) ltac:(lia)) as Hm.
  rewrite first_layer_succ in Hm. specialize (IH (r + 1)%N).
  replace (r + 1 + N.of_nat n)%N with (r + N.of_nat (S n))%N in IH by lia. specialize (IH Hu).
  cbn [stages_from map sumN]. rewrite <- first_layer_succ. unfold layer_count at 1; cbn [layer_end layer_start].
  rewrite first_layer_succ in *. rewrite sub64_small by lia. lia.
Qed.

Lemma sum_embeddings n r next :
  sumN (map (fun s => if owns_embeddings s then 1 else 0)%N
    (stages_from tied world base remainder n r next))
  = if bool_decide (n <> 0) && (r =? 0)%N then 1%N else 0%N.
Proof.
  revert r next. induction n as [|n IH]; intros r next; [done|].
  cbn [stages_from map sumN].
  rewrite IH. cbn [owns_embeddings].
  assert ((r + 1 =? 0)%N = false) as -> by (apply N.eqb_neq; lia).
  rewrite andb_false_r. destruct (r =? 0)%N; by rewrite bool_decide_true.
Qed.

Lemma sum_heads n r next : (r + N.of_nat n = world)%N ->
  sumN (map (fun s => if owns_lm_head s then 1 else 0)%N
    (stages_from tied world base remainder n r next))
  = if bool_decide (n <> 0) then 1%N else 0%N.
Proof.
  revert r next. induction n as [|n IH]; intros r next Hr; [done|].
  cbn [stages_from map sumN].
  rewrite IH by lia. cbn [owns_lm_head]. destruct n as [|n].
  - assert ((r + 1 =? world)%N = true) as -> by (apply N.eqb_eq; lia). done.
  - assert ((r + 1 =? world)%N = false) as -> by (apply N.eqb_neq; lia). done.
Qed.
End sums.

(** The parameters of one stage, in unbounded arithmetic. *)
Section exact_stage.
  Context (spec : ModelSpec) (hd : N).
Let cfg := config spec.
Let h := hidden_size cfg.

Definition exact_block : N :=
    (2 * h * h + 2 * h * (num_key_value_heads cfg * hd) + 3 * h * intermediate_size cfg + 2 * h)%N.

Definition exact_stage (s : StageAssignment) : N :=
    (exact_block * layer_count s
     + (vocab_size cfg * h * (if owns_embeddings s then 1 else 0)
        + (h + vocab_size cfg * h) * (if owns_lm_head s then 1 else 0)))%N.

Definition exact_stage_kv (dtype : PlanDType) (context : N) (s : StageAssignment) : N :=
    exact_kv_bytes spec dtype (layer_count s) context hd.

  Hypotheses (Hhd : head_dim cfg = Ok hd) (Hpos : (0 < hd)%N).

Lemma for_stage_total s dtype context budget :
  (0 < context <= max_position_embeddings cfg)%N -> (0 < layer_count s)%N ->
  (exact_stage s * dtype_bytes dtype + exact_stage_kv dtype context s < U64)%N ->
  exists plan, for_stage spec s dtype context budget = Ok plan /\
    materialized_parameters plan = exact_stage s /\
    sp_weight_bytes plan = (exact_stage s * dtype_bytes dtype)%N /\
    sp_kv_cache_capacity_bytes plan = exact_stage_kv dtype context s /\
    sp_persistent_bytes plan = (exact_stage s * dtype_bytes dtype + exact_stage_kv dtype context s)%N /\
    (sp_placement plan = FitsPersistentEstimate <-> (sp_persistent_bytes plan <= budget)%N).
Proof.
  intros Hc Hl Hb. destruct (head_dim_Ok _ _ Hhd) as (_ & Hkvh & _).
  assert (0 < dtype_bytes dtype)%N as Hd by by destruct dtype.
  assert (exact_stage s < U64)%N as Hs by nia.
  assert (exact_block < U64)%N as Hblock by (unfold exact_stage in Hs; nia).
  unfold for_stage. fold cfg. fold h. rewrite Hhd.
  assert (reject_if ((context =? 0)%N || (max_position_embeddings cfg <? context)%N)
    (InvalidTopology ("context length " +:+ pretty context +:+ " is outside model maximum "
      +:+ pretty (max_position_embeddings cfg))) = Ok tt) as ->.
  { apply reject_if_Ok, orb_false_iff. rewrite N.eqb_neq, N.ltb_ge. lia. }
  cbn [mbind result_bind map_err].
  match goal with |- context [checked_mul ?b (layer_count s)] => assert (b = exact_block) as -> end.
  { wrap_out. apply wrap64_small. fold exact_block. done. }
  assert (vocab_size cfg * h * (if owns_embeddings s then 1 else 0)
          + (h + vocab_size cfg * h) * (if owns_lm_head s then 1 else 0)
          + exact_block * layer_count s = exact_stage s)%N as Hsum by (unfold exact_stage; fold h; lia).
  assert (checked_mul exact_block (layer_count s) = Some (exact_block * layer_count s)%N) as ->
    by (apply checked_mul_Some; split; [done|lia]).
  assert ((if owns_embeddings s then mul64 (vocab_size cfg) h else 0)
          = vocab_size cfg * h * (if owns_embeddings s then 1 else 0))%N as ->
    by (destruct (owns_embeddings s); [rewrite mul64_small|]; lia).
  assert (mul64 (if owns_lm_head s then 1 else 0) h = h * (if owns_lm_head s then 1 else 0))%N as ->
    by (destruct (owns_lm_head s); rewrite mul64_small; lia).
  assert ((if owns_lm_head s then mul64 (vocab_size cfg) h else 0)
          = vocab_size cfg * h * (if owns_lm_head s then 1 else 0))%N as ->
    by (destruct (owns_lm_head s); [rewrite mul64_small|]; lia).
  cbn [ok_or mbind result_bind]. rewrite checked_add4 by lia. cbn [ok_or mbind result_bind].
  match goal with |- context [checked_mul ?a (dtype_bytes dtype)] =>
    replace a with (exact_stage s) by lia end.
  assert (checked_mul (exact_stage s) (dtype_bytes dtype) = Some (exact_stage s * dtype_bytes dtype)%N)
    as -> by (apply checked_mul_Some; split; [done|lia]).
  cbn [ok_or mbind result_bind]. unfold exact_stage_kv, exact_kv_bytes in *. fold cfg in Hb |- *.
  rewrite kv_cache_bytes_total by (lia || done). cbn [ok_or mbind result_bind].
  match goal with |- context [checked_add ?a ?b] =>
    assert (checked_add a b = Some (a + b)%N) as -> by (apply checked_add_Some; split; [done|lia]) end.
  cbn [ok_or mbind result_bind]. eexists. split_and!; [done|cbn; lia|done..|].
  cbn [sp_placement sp_persistent_bytes].
  match goal with |- context [(?a <=? budget)%N] => destruct (N.leb_spec a budget) end;
    split; (done || lia).
Qed.
End exact_stage.

(** The whole model: tied embeddings are materialised twice. *)
Definition pipeline_parameters (spec : ModelSpec) (hd : N) : N :=
  (exact_parameters spec hd
   + if tie_word_embeddings (config spec) then vocab_size (config spec) * hidden_size (config spec)
     else 0)%N.

Lemma balanced_sums spec world p hd :
  (num_hidden_layers (config spec) < U64)%N -> balanced spec world = Ok p ->
  sumN (map layer_count (stages p)) = num_hidden_layers (config spec) /\
  sumN (map (exact_stage spec hd) (stages p)) = pipeline_parameters spec hd /\
  forall s, s ∈ stages p -> (0 < layer_count s)%N.
Proof.
  intros Hu Hp. unfold balanced in Hp. inv_ok Hp. bool_prop.
  apply reject_if_Ok in H as Hw. apply reject_if_Ok in H0 as Hl. bool_prop.
  pose proof (first_layer_world (num_hidden_layers (config spec)) world ltac:(lia) Hl Hu) as Hfw.
  pose proof (well_partitioned_intro (tie_word_embeddings (config spec)) _ world ltac:(lia) Hl Hu) as Hwp.
  cbv zeta in Hwp. rewrite Hp in Hwp. subst p. cbn [stages] in *.
  set (base := (num_hidden_layers (config spec) / world)%N) in *.
  set (remainder := (num_hidden_layers (config spec) mod world)%N) in *.
  assert (first_layer base remainder 0 = 0)%N as H00 by (unfold first_layer; lia).
  pose proof (sum_counts (tie_word_embeddings (config spec)) world base remainder (N.to_nat world) 0)
    as Hc.
  rewrite H00 in Hc. replace (0 + N.of_nat (N.to_nat world))%N with world in Hc by lia.
  rewrite Hfw in Hc. specialize (Hc Hu). split; [lia|]. split.
  - unfold exact_stage. rewrite sumN_map_linear, sumN_map_linear, sumN_map_scale.
    rewrite sum_embeddings, sum_heads by lia. rewrite bool_decide_true by lia. cbn [andb].
    rewrite N.eqb_refl. unfold pipeline_parameters, exact_parameters, exact_block.
    destruct (tie_word_embeddings _); nia.
  - intros s [r Hr]%list_elem_of_lookup. by apply (wp_stage _ _ _ _ Hwp) in Hr as (_ & _ & _ & ? & _).
Qed.

(** Planning every stage of a pipeline succeeds whenever the model itself
    fits in 64 bits, and nothing is lost or counted twice: the stages' parameters
    add up to the model's (plus one copy of a tied embedding, which the first and
    the last rank both hold), their weight bytes to its bytes, their KV caches to
    its KV cache, and each verdict compares that stage with its own budget. *)
Theorem stage_plans_conserve spec world p hd dtype context budget :
  (num_hidden_layers (config spec) < U64)%N -> head_dim (config spec) = Ok hd -> (0 < hd)%N ->
  (0 < context <= max_position_embeddings (config spec))%N -> balanced spec world = Ok p ->
  (pipeline_parameters spec hd * dtype_bytes dtype
   + exact_kv_bytes spec dtype (num_hidden_layers (config spec)) context hd < U64)%N ->
  exists plans,
    mapM (fun s => for_stage spec s dtype context (budget (stage_rank s))) (stages p) = Ok plans /\
    sumN (map materialized_parameters plans) = pipeline_parameters spec hd /\
    sumN (map sp_weight_bytes plans) = (pipeline_parameters spec hd * dtype_bytes dtype)%N /\
    sumN (map sp_kv_cache_capacity_bytes plans)
      = exact_kv_bytes spec dtype (num_hidden_layers (config spec)) context hd /\
    Forall2 (fun s plan => sp_placement plan = FitsPersistentEstimate <->
                           (sp_persistent_bytes plan <= budget (stage_rank s))%N) (stages p) plans.
Proof.
  intros Hu Hhd Hpos Hc Hp Hb. destruct (balanced_sums _ _ _ hd Hu Hp) as (Hsc & Hsp & Hpc).
  set (k := (2 * context * num_key_value_heads (config spec) * hd * dtype_bytes dtype)%N).
  assert (forall s, exact_stage_kv spec hd dtype context s = k * layer_count s)%N as Hkv
    by (intros s; unfold exact_stage_kv, exact_kv_bytes, k; lia).
  assert (exact_kv_bytes spec dtype (num_hidden_layers (config spec)) context hd
          = k * num_hidden_layers (config spec))%N as Hkvt by (unfold exact_kv_bytes, k; lia).
  destruct (mapM_total (fun s => for_stage spec s dtype context (budget (stage_rank s)))
    (fun s plan => materialized_parameters plan = exact_stage spec hd s /\
      sp_weight_bytes plan = (dtype_bytes dtype * exact_stage spec hd s)%N /\
      sp_kv_cache_capacity_bytes plan = (k * layer_count s)%N /\
      (sp_placement plan = FitsPersistentEstimate <->
       (sp_persistent_bytes plan <= budget (stage_rank s))%N)) (stages p)) as (plans & Hm & HF).
  { intros s Hs. pose proof (sumN_map_le (exact_stage spec hd) _ _ Hs) as H1.
    pose proof (sumN_map_le layer_count _ _ Hs) as H2. rewrite Hsp in H1. rewrite Hsc in H2.
    destruct (for_stage_total spec hd Hhd Hpos s dtype context (budget (stage_rank s)) Hc
      (Hpc s Hs)) as (plan & ? & ? & ? & ? & ? & ?).
    { rewrite Hkv. rewrite Hkvt in Hb. nia. }
    exists plan. split_and!; [done|done|lia|by rewrite <- Hkv|done..]. }
  exists plans. split; [done|]. split_and!.
  - rewrite <- Hsp. symmetry. eapply sumN_map_Forall2; [exact HF|]. by intros ?? (-> & _).
  - rewrite N.mul_comm, <- Hsp, <- sumN_map_scale. symmetry.
    eapply sumN_map_Forall2; [exact HF|]. by intros ?? (_ & -> & _).
  - rewrite Hkvt, <- Hsc, <- sumN_map_scale. symmetry.
    eapply sumN_map_Forall2; [exact HF|]. by intros ?? (_ & _ & -> & _).
  - revert HF. apply Forall2_impl. by intros ?? (_ & _ & _ & ?).
Qed.

Definition smol_stages : PipelinePartition := mkPartition 30 (stages_from true 4 7 2 4 0 0).

Lemma balanced_correct_witness :
  balanced SMOLLM2 4 = Ok smol_stages /\ well_partitioned true 30 4 smol_stages /\
  map (fun s => (layer_start s, layer_end s)) (stages smol_stages)
    = [(0, 8); (8, 16); (16, 23); (23, 30)]%N.
Proof.
  split; [reflexivity|]. split; [|reflexivity].
  apply (proj2 (balanced_correct SMOLLM2 4 eq_refl)). reflexivity.
Defined.

Lemma stage_plans_conserve_witness :
  exists plans,
    mapM (fun s => for_stage SMOLLM2 s PF32 512 (N.shiftl 200 20)) (stages smol_stages) = Ok plans /\
    sumN (map materialized_parameters plans) = (134515008 + 28311552)%N.
Proof.
  destruct (stage_plans_conserve SMOLLM2 4 smol_stages 64 PF32 512 (fun _ => N.shiftl 200 20))
    as (plans & Hm & Hs & _);
    [vm_compute; reflexivity | vm_compute; reflexivity | vm_compute; reflexivity
    | split; vm_compute; [reflexivity | discriminate]
    | vm_compute; reflexivity | vm_compute; reflexivity |].
  exists plans. split; [exact Hm|]. rewrite Hs. vm_compute. reflexivity.
Defined.
