(* ===== verification/Shard.v ===== *)
(** * Tensor-parallel shards

    Models the topology and planning part of [crates/runtime/src/parallel.rs]
    and [crates/tensor/src/plan.rs], [error.rs]: which rows, heads and features
    each tensor rank owns, and what it costs. *)
From S2P Require Import Prelude Rank Registry Memory.

(** ** [parallel.rs] *)

(** [struct ParallelContext]. *)
Record ParallelContext : Type := mkContext
  { tp_rank : N; tp_size : N; pp_rank : N; pp_size : N; ep_rank : N; ep_size : N }.

(** [ParallelContext::validate]: the loop over the three dimensions. *)
Fixpoint validate_groups (groups : list (string * N * N)) : dresult unit :=
  match groups with
  | [] => Ok tt
  | (name, rank, size) :: groups =>
      _ ← reject_if ((size =? 0)%N || (size <=? rank)%N)
        (InvalidConfig (name +:+ " rank " +:+ pretty rank +:+ " is outside group size "
                          +:+ pretty size));
      validate_groups groups
  end.
Definition validate (self : ParallelContext) : dresult unit :=
  validate_groups [("tensor", tp_rank self, tp_size self);
                   ("pipeline", pp_rank self, pp_size self);
                   ("expert", ep_rank self, ep_size self)].

(** [ParallelContext::tensor_parallel]. *)
Definition tensor_parallel (rank size : N) : dresult ParallelContext :=
  let context := mkContext rank size 0 1 0 1 in
  _ ← validate context;
  Ok context.

(** [struct ShardRange]. *)
Record ShardRange : Type := mkRange { range_start : N; range_end : N }.
Definition range_len (self : ShardRange) : N := sub64 (range_end self) (range_start self).
Definition range_is_empty (self : ShardRange) : bool := (range_start self =? range_end self)%N.

(** [struct TensorShardPlan]. *)
Record TensorShardPlan : Type := mkShardPlan
  { parallel : ParallelContext;
    vocabulary : ShardRange;
    query_heads : ShardRange;
    kv_heads : ShardRange;
    intermediate : ShardRange;
    architectural_parameters : N;
    local_parameters : N;
    replicated_parameters : N;
    shard_aggregate_parameters : N }.

(** The loop of [plan_tensor_shard] over the sharded dimensions. *)
Fixpoint require_divisible (tp : N) (dims : list (string * N)) : dresult unit :=
  match dims with
  | [] => Ok tt
  | (name, value) :: dims =>
      _ ← reject_if (negb (value mod tp =? 0)%N)
        (InvalidConfig (name +:+ " " +:+ pretty value +:+ " is not divisible by TP=" +:+ pretty tp));
      require_divisible tp dims
  end.

(** [plan_tensor_shard]. *)
Definition plan_tensor_shard (config : ModelConfig) (parallel : ParallelContext)
  : dresult TensorShardPlan :=
  _ ← validate parallel;
  _ ← reject_if (negb (pp_size parallel =? 1)%N || negb (ep_size parallel =? 1)%N)
    (InvalidConfig "v0.5 requires PP=1 and EP=1");
  let tp := tp_size parallel in
  _ ← require_divisible tp
    [("vocabulary size", vocab_size config);
     ("hidden width", hidden_size config);
     ("intermediate width", intermediate_size config);
     ("query heads", num_attention_heads config);
     ("KV heads", num_key_value_heads config)];
  hd ← head_dim config;
  let range length :=
    let local := (length / tp)%N in
    mkRange (mul64 (tp_rank parallel) local) (mul64 (add64 (tp_rank parallel) 1) local) in
  let h := hidden_size config in
  let i := intermediate_size config in
  let v := vocab_size config in
  let k := num_key_value_heads config in
  let d := hd in
  let l := num_hidden_layers config in
  let embeddings := mul64 v h in
  let attention := add64 (add64 (mul64 h h) (mul64 (mul64 (mul64 2 k) d) h)) (mul64 h h) in
  let mlp := mul64 (mul64 3 h) i in
  let replicated_parameters := add64 (mul64 (mul64 2 l) h) h in
  let lm_head := if tie_word_embeddings config then 0%N else mul64 v h in
  let architectural_parameters :=
    add64 (add64 (add64 embeddings (mul64 l (add64 (add64 attention mlp) (mul64 2 h)))) h) lm_head in
  let sharded_parameters := sub64 architectural_parameters replicated_parameters in
  let local_parameters := add64 (sharded_parameters / tp) replicated_parameters in
  let aggregate_materialized_parameters := mul64 local_parameters tp in
  Ok {| parallel := parallel;
        vocabulary := range (vocab_size config);
        query_heads := range (num_attention_heads config);
        kv_heads := range (num_key_value_heads config);
        intermediate := range (intermediate_size config);
        architectural_parameters := architectural_parameters;
        local_parameters := local_parameters;
        replicated_parameters := replicated_parameters;
        shard_aggregate_parameters := aggregate_materialized_parameters |}.

(** ** [plan.rs] *)

(** [enum TensorParallelError]. *)
Inductive TensorParallelError : Type :=
| InvalidRequest (message : string)
| ShardPlacementFailed (rank required_bytes budget_bytes : N)
| TensorRuntime (source : DlirError)
| TensorCollectives (source : CollectivesError)
| TensorCandle (message : string)
| TensorJson (message : string)
| TensorTokenizer (message : string).

Abbreviation tresult := (result TensorParallelError).

(** [struct TensorParallelMemoryPlan]. *)
Record TensorParallelMemoryPlan : Type := mkTensorPlan
  { tm_rank : N;
    tm_shard : TensorShardPlan;
    tm_dtype : PlanDType;
    tm_context_capacity : N;
    tm_local_weight_bytes : N;
    tm_kv_cache_capacity_bytes : N;
    tm_persistent_bytes : N;
    tm_budget_bytes : option N;
    tm_placement : PlacementVerdict }.

(** [struct TensorParallelPartition]. *)
Record TensorParallelPartition : Type := mkTensorPartition
  { tpp_model : SupportedModelId;
    tpp_tensor_parallel : N;
    tpp_ranks : list TensorParallelMemoryPlan;
    tpp_architectural_parameters : N;
    tpp_aggregate_materialized_parameters : N;
    tpp_duplicated_parameters : N }.

(** The closure of [TensorParallelPartition::plan] for one rank. *)
Definition plan_rank (config : ModelConfig) (tp context_capacity hd : N)
    (per_rank_budget : option N) (rank : N) : tresult TensorParallelMemoryPlan :=
  context ← map_err TensorRuntime (tensor_parallel rank tp);
  shard ← map_err TensorRuntime (plan_tensor_shard config context);
  local_weight_bytes ← ok_or (checked_mul (local_parameters shard) 4)
    (InvalidRequest "local weight byte overflow");
  kv_cache_capacity_bytes ← ok_or
    (kv_cache_bytes (num_hidden_layers config) context_capacity
       (num_key_value_heads config / tp) (Some hd) PF32)
    (InvalidRequest "KV byte overflow");
  persistent_bytes ← ok_or (checked_add local_weight_bytes kv_cache_capacity_bytes)
    (InvalidRequest "persistent byte overflow");
  let placement :=
    match per_rank_budget with
    | Some budget =>
        if (persistent_bytes <=? budget)%N then FitsPersistentEstimate else DoesNotFit
    | None => NotEvaluated
    end in
  Ok {| tm_rank := rank;
        tm_shard := shard;
        tm_dtype := PF32;
        tm_context_capacity := context_capacity;
        tm_local_weight_bytes := local_weight_bytes;
        tm_kv_cache_capacity_bytes := kv_cache_capacity_bytes;
        tm_persistent_bytes := persistent_bytes;
        tm_budget_bytes := per_rank_budget;
        tm_placement := placement |}.

(** [TensorParallelPartition::plan] for the registry entry [spec] of [model]. *)
Definition plan_spec (model : SupportedModelId) (spec : ModelSpec) (tp context_capacity : N)
    (per_rank_budget : option N) : tresult TensorParallelPartition :=
  _ ← reject_if (negb ((2 <=? tp)%N && (tp <=? 64)%N))
    (InvalidRequest ("TP must be in 2..=64, got " +:+ pretty tp));
  _ ← reject_if ((context_capacity =? 0)%N
                 || (max_position_embeddings (config spec) <? context_capacity)%N)
    (InvalidRequest ("context capacity " +:+ pretty context_capacity +:+ " is outside 1..="
                       +:+ pretty (max_position_embeddings (config spec))));
  hd ← map_err TensorRuntime (head_dim (config spec));
  ranks ← mapM (plan_rank (config spec) tp context_capacity hd per_rank_budget)
            (N.of_nat <$> seq 0 (N.to_nat tp));
  (* [ranks[0]] exists, because [tp] is at least 2. *)
  let architectural_parameters :=
    default 0%N (architectural_parameters ∘ tm_shard <$> ranks !! 0) in
  let aggregate := sum64 (map (fun rank => local_parameters (tm_shard rank)) ranks) in
  Ok {| tpp_model := model;
        tpp_tensor_parallel := tp;
        tpp_ranks := ranks;
        tpp_architectural_parameters := architectural_parameters;
        tpp_aggregate_materialized_parameters := aggregate;
        tpp_duplicated_parameters := sub64 aggregate architectural_parameters |}.

(** [TensorParallelPartition::plan]. *)
Definition plan (model : SupportedModelId) (tp context_capacity : N) (per_rank_budget : option N)
  : option (tresult TensorParallelPartition) :=
  spec ← spec_of model;
  Some (plan_spec model spec tp context_capacity per_rank_budget).

(** [TensorParallelPartition::require_placement]. *)
Definition require_placement (self : TensorParallelPartition) : tresult unit :=
  match find (fun rank => bool_decide (tm_placement rank = DoesNotFit)) (tpp_ranks self) with
  | Some rank =>
      Err (ShardPlacementFailed (tm_rank rank) (tm_persistent_bytes rank)
             (default 0%N (tm_budget_bytes rank)))
  | None => Ok tt
  end.

(** ** Ranges *)

(** Rank [r]'s share of [n] indices. *)
Definition share (n tp r : N) : ShardRange := mkRange (r * (n / tp)) ((r + 1) * (n / tp)).
Definition in_range (x : N) (s : ShardRange) : Prop := (range_start s <= x < range_end s)%N.

Lemma share_wrapped n tp r :
  (n < U64)%N -> (0 < tp < U64)%N -> (r < tp)%N ->
  mkRange (mul64 r (n / tp)) (mul64 (add64 r 1) (n / tp)) = share n tp r.
Proof.
  intros Hn Htp Hr. pose proof (N.Div0.mul_div_le n tp).
  unfold share. rewrite add64_small by lia. rewrite !mul64_small by nia. done.
Qed.

Lemma share_tiles n tp : (0 < tp)%N -> (n mod tp = 0)%N ->
  forall x, (x < n)%N <-> exists r, (r < tp)%N /\ in_range x (share n tp r).
Proof.
  intros Htp Hm x. pose proof (N.div_mod n tp ltac:(lia)) as Hn. rewrite Hm, N.add_0_r in Hn.
  unfold in_range, share; cbn [range_start range_end]. set (c := (n / tp)%N) in *. clearbody c. split.
  - intros Hx. assert (0 < c)%N by nia. exists (x / c)%N.
    assert (c <> 0)%N as Hc by lia. pose proof (N.mod_lt x c Hc). split; [|].
    + apply N.Div0.div_lt_upper_bound. nia.
    + pose proof (N.div_mod x c Hc) as E. set (q := (x / c)%N) in *. set (m := (x mod c)%N) in *.
      clearbody q m. nia.
  - intros (r & Hr & Hx). nia.
Qed.

Lemma share_disjoint n tp x r r' :
  in_range x (share n tp r) -> in_range x (share n tp r') -> r = r'.
Proof. unfold in_range, share; cbn. intros. nia. Qed.

Lemma div_block q g a b : (0 < g)%N ->
  (a * g <= q < b * g)%N <-> (a <= q / g < b)%N.
Proof.
  intros Hg. assert (g <> 0)%N as Hg' by lia.
  pose proof (N.mod_lt q g Hg') as Hm. pose proof (N.div_mod q g Hg') as Hq.
  set (x := (q / g)%N) in *. set (m := (q mod g)%N) in *. clearbody x m. subst q. split; intros [H1 H2].
  - assert (a < x + 1)%N by (apply (N.mul_lt_mono_pos_r g); lia).
    assert (x < b)%N by (apply (N.mul_lt_mono_pos_r g); lia). lia.
  - pose proof (N.mul_le_mono_r a x g H1). pose proof (N.mul_le_mono_r (x + 1) b g ltac:(lia)). lia.
Qed.

(** Compact GQA: the query heads of a rank use exactly its key/value heads. *)
Lemma share_gqa heads kv tp r q :
  (0 < tp)%N -> (0 < heads)%N -> (0 < kv)%N -> (heads mod kv = 0)%N -> (kv mod tp = 0)%N ->
  in_range q (share heads tp r) <-> in_range (q / (heads / kv)) (share kv tp r).
Proof.
  intros Htp Hpos Hkv Hh Hk.
  pose proof (N.div_mod heads kv ltac:(lia)) as Eh. pose proof (N.div_mod kv tp ltac:(lia)) as Ek.
  rewrite Hh in Eh. rewrite Hk in Ek. unfold in_range, share; cbn [range_start range_end].
  set (g := (heads / kv)%N) in *. set (c := (kv / tp)%N) in *.
  assert (heads / tp = c * g)%N as ->.
  { symmetry. apply (N.div_unique _ _ _ 0); [lia|]. rewrite Eh, Ek. lia. }
  rewrite !N.mul_assoc. apply div_block. nia.
Qed.

(** The guards of [plan_tensor_shard]. *)
Lemma require_divisible_Ok tp dims u :
  require_divisible tp dims = Ok u <-> Forall (fun d => d.2 mod tp = 0)%N dims.
Proof.
  induction dims as [|[name value] dims IH]; cbn [require_divisible].
  - destruct u. split; [constructor|done].
  - rewrite bind_Ok, list.Forall_cons, <- IH. cbn [snd]. split.
    + intros (? & H%reject_if_Ok & ?). by bool_prop.
    + intros [H ?]. exists tt. split; [|done]. apply reject_if_Ok. by rewrite H.
Qed.

Lemma tensor_parallel_Ok r tp c :
  tensor_parallel r tp = Ok c <-> (r < tp)%N /\ c = mkContext r tp 0 1 0 1.
Proof.
  unfold tensor_parallel, validate. cbn [validate_groups tp_rank tp_size pp_rank pp_size ep_rank ep_size].
  destruct (N.eqb_spec tp 0), (N.leb_spec tp r); cbn; split; intros; try lia; naive_solver lia.
Qed.

(** Dimensions that a rank count divides. *)
Record shardable (cfg : ModelConfig) (tp : N) : Prop := {
  sh_vocab : (vocab_size cfg mod tp = 0)%N;
  sh_hidden : (hidden_size cfg mod tp = 0)%N;
  sh_inter : (intermediate_size cfg mod tp = 0)%N;
  sh_heads : (num_attention_heads cfg mod tp = 0)%N;
  sh_kv : (num_key_value_heads cfg mod tp = 0)%N;
  sh_head_dim : is_ok (head_dim cfg) = true
}.

(** The plan of a rank, in unbounded arithmetic. *)
Section exact.
  Context (cfg : ModelConfig) (tp hd : N).
Let h := hidden_size cfg.

Definition exact_replicated : N := (2 * num_hidden_layers cfg * h + h)%N.

  (** What is divided among the ranks: everything but the norms. *)
Definition exact_sharded : N :=
    (vocab_size cfg * h
     + num_hidden_layers cfg
       * (2 * h * h + 2 * num_key_value_heads cfg * hd * h + 3 * h * intermediate_size cfg)
     + if tie_word_embeddings cfg then 0 else vocab_size cfg * h)%N.

Definition exact_shard_plan (r : N) : TensorShardPlan :=
    {| parallel := mkContext r tp 0 1 0 1;
       vocabulary := share (vocab_size cfg) tp r;
       query_heads := share (num_attention_heads cfg) tp r;
       kv_heads := share (num_key_value_heads cfg) tp r;
       intermediate := share (intermediate_size cfg) tp r;
       architectural_parameters := exact_sharded + exact_replicated;
       local_parameters := exact_sharded / tp + exact_replicated;
       replicated_parameters := exact_replicated;
       shard_aggregate_parameters := (exact_sharded / tp + exact_replicated) * tp |}.
End exact.

Lemma exact_parameters_split spec hd :
  exact_parameters spec hd = (exact_sharded (config spec) hd + exact_replicated (config spec))%N.
Proof.
  unfold exact_parameters, exact_sharded, exact_replicated. destruct (tie_word_embeddings _); lia.
Qed.

Lemma exact_sharded_divisible cfg tp hd :
  (0 < tp)%N -> shardable cfg tp -> (exact_sharded cfg hd mod tp = 0)%N.
Proof.
  intros Htp [Hv Hh _ _ _ _]. apply N.Lcm0.mod_divide in Hv as [v Hv], Hh as [h Hh].
  apply N.Lcm0.mod_divide. unfold exact_sharded. rewrite Hv, Hh.
  exists (v * tp * h
     + num_hidden_layers cfg
       * (2 * h * (h * tp) + 2 * num_key_value_heads cfg * hd * h + 3 * h * intermediate_size cfg)
     + if tie_word_embeddings cfg then 0 else v * tp * h)%N.
  destruct (tie_word_embeddings cfg); lia.
Qed.

(** The dimensions are machine integers, and so is what all ranks hold together. *)
Record fits (cfg : ModelConfig) (tp hd : N) : Prop := {
  fit_vocab : (vocab_size cfg < U64)%N;
  fit_heads : (num_attention_heads cfg < U64)%N;
  fit_kv : (num_key_value_heads cfg < U64)%N;
  fit_inter : (intermediate_size cfg < U64)%N;
  fit_tp : (0 < tp < U64)%N;
  fit_total : (exact_sharded cfg hd + exact_replicated cfg * tp < U64)%N
}.

Lemma plan_tensor_shard_exact cfg tp hd r :
  fits cfg tp hd -> shardable cfg tp -> head_dim cfg = Ok hd -> (r < tp)%N ->
  plan_tensor_shard cfg (mkContext r tp 0 1 0 1) = Ok (exact_shard_plan cfg tp hd r).
Proof.
  intros [Fv Fh Fk Fi Ft Ff] Hsh Hhd Hr. unfold plan_tensor_shard.
  assert (validate (mkContext r tp 0 1 0 1) = Ok tt) as ->.
  { pose proof (proj2 (tensor_parallel_Ok r tp _) (conj Hr eq_refl)) as H.
    apply bind_Ok in H as ([] & H & _). done. }
  cbn [pp_size ep_size tp_size tp_rank reject_if mbind result_bind].
  match goal with |- context [require_divisible tp ?dims] =>
    assert (require_divisible tp dims = Ok tt) as -> end.
  { apply require_divisible_Ok. destruct Hsh. by repeat constructor. }
  cbn [mbind result_bind]. rewrite Hhd. cbn [mbind result_bind].
  change (negb (1 =? 1)%N || negb (1 =? 1)%N) with false. cbn [reject_if mbind result_bind].
  rewrite !share_wrapped by done. unfold exact_shard_plan.
  pose proof (exact_sharded_divisible cfg tp hd (proj1 Ft) Hsh) as Hdiv.
  pose proof (N.div_mod (exact_sharded cfg hd) tp ltac:(lia)) as Hd. rewrite Hdiv, N.add_0_r in Hd.
  assert (exact_sharded cfg hd + exact_replicated cfg < U64)%N as Hs by nia.
  assert (forall X, X = wrap64 (exact_sharded cfg hd + exact_replicated cfg) ->
            X = exact_sharded cfg hd + exact_replicated cfg)%N as Harch
    by (intros ? ->; by apply wrap64_small).
  match goal with |- Ok (mkShardPlan _ _ _ _ _ ?A ?L ?R ?G) = _ =>
    assert (A = exact_sharded cfg hd + exact_replicated cfg)%N as HA;
    [|assert (R = exact_replicated cfg) as HR] end.
  - apply Harch. unfold exact_sharded, exact_replicated.
    destruct (tie_word_embeddings cfg); wrap_out; f_equal; lia.
  - unfold exact_replicated in *. wrap_out. apply wrap64_small. lia.
  - cbv zeta in *. rewrite HA, HR. rewrite sub64_small, N.add_sub by lia.
    rewrite add64_small by nia. rewrite mul64_small by nia. done.
Qed.

(** The four sharded dimensions: a plan's range and the size it divides. *)
Definition sharded_dims : list ((TensorShardPlan -> ShardRange) * (ModelConfig -> N)) :=
  [(vocabulary, vocab_size); (query_heads, num_attention_heads);
   (kv_heads, num_key_value_heads); (intermediate, intermediate_size)].

(** Rank [r] of [tp] owns index [x] of a dimension. *)
Definition owns (cfg : ModelConfig) (tp : N) (range : TensorShardPlan -> ShardRange) (r x : N) : Prop :=
  exists context p, tensor_parallel r tp = Ok context /\ plan_tensor_shard cfg context = Ok p /\
    in_range x (range p).

Lemma sharded_dims_exact cfg tp hd range size r :
  (range, size) ∈ sharded_dims -> range (exact_shard_plan cfg tp hd r) = share (size cfg) tp r.
Proof.
  unfold sharded_dims. rewrite !elem_of_cons, elem_of_nil.
  intros [[= -> ->]|[[= -> ->]|[[= -> ->]|[[= -> ->]|[]]]]]; done.
Qed.

Lemma sharded_dims_divide cfg tp (range : TensorShardPlan -> ShardRange) size :
  (range, size) ∈ sharded_dims -> shardable cfg tp -> (size cfg mod tp = 0)%N.
Proof.
  unfold sharded_dims. rewrite !elem_of_cons, elem_of_nil.
  intros [[= -> ->]|[[= -> ->]|[[= -> ->]|[[= -> ->]|[]]]]] []; done.
Qed.

Lemma owns_exact cfg tp hd range size r x :
  fits cfg tp hd -> shardable cfg tp -> head_dim cfg = Ok hd -> (range, size) ∈ sharded_dims ->
  owns cfg tp range r x <-> (r < tp)%N /\ in_range x (share (size cfg) tp r).
Proof.
  intros Hf Hs Hhd Hd. unfold owns. split.
  - intros (context & p & Hc & Hp & Hx). apply tensor_parallel_Ok in Hc as [Hr ->]. split; [done|].
    rewrite (plan_tensor_shard_exact cfg tp hd r) in Hp by done. injection Hp as <-.
    by erewrite <- sharded_dims_exact.
  - intros [Hr Hx]. exists (mkContext r tp 0 1 0 1), (exact_shard_plan cfg tp hd r).
    split_and!; [by apply tensor_parallel_Ok|by apply plan_tensor_shard_exact|].
    by erewrite sharded_dims_exact.
Qed.

(** The ranks' ranges tile each sharded dimension, every index belonging to
    exactly one rank, and the query heads of a rank are those whose shared
    key/value head the same rank owns. *)
Theorem shard_ranges_tile cfg tp hd :
  fits cfg tp hd -> shardable cfg tp -> head_dim cfg = Ok hd ->
  (forall range size, (range, size) ∈ sharded_dims -> forall x,
     (x < size cfg)%N <-> exists! r, owns cfg tp range r x) /\
  (forall r q, owns cfg tp query_heads r q <->
     owns cfg tp kv_heads r (q / (num_attention_heads cfg / num_key_value_heads cfg))%N).
Proof.
  intros Hf Hs Hhd. pose proof (fit_tp _ _ _ Hf) as Htp. split.
  - intros range size Hd x. rewrite (share_tiles (size cfg) tp ltac:(lia)) by by eapply sharded_dims_divide.
    split.
    + intros (r & Hr & Hx). exists r. split; [by eapply owns_exact|].
      intros r' [_ Hx']%(owns_exact cfg tp hd range size) ; [|done..]. by eapply share_disjoint.
    + intros (r & Hr & _). apply (owns_exact cfg tp hd range size) in Hr; [eauto|done..].
  - intros r q. destruct (head_dim_Ok _ _ Hhd) as (Hh & Hk & _ & Hm).
    rewrite (owns_exact cfg tp hd query_heads num_attention_heads) by (done || set_solver).
    rewrite (owns_exact cfg tp hd kv_heads num_key_value_heads) by (done || set_solver).
    rewrite (share_gqa _ (num_key_value_heads cfg)) by (done || lia || apply Hs). done.
Qed.

(** ** Memory *)

(** What the whole tensor-parallel world costs and how it is judged. *)
Record tensor_plan_exact (spec : ModelSpec) (tp context hd : N) (budget : option N)
    (p : TensorParallelPartition) : Prop := {
  tx_ranks : lenN (tpp_ranks p) = tp;
  tx_rank : forall i m, tpp_ranks p !! i = Some m ->
    tm_rank m = N.of_nat i /\ tm_dtype m = PF32 /\ tm_context_capacity m = context /\
    plan_tensor_shard (config spec) (mkContext (N.of_nat i) tp 0 1 0 1) = Ok (tm_shard m) /\
    (local_parameters (tm_shard m) * tp
     = exact_parameters spec hd + exact_replicated (config spec) * (tp - 1))%N /\
    tm_local_weight_bytes m = (4 * local_parameters (tm_shard m))%N /\
    (tm_kv_cache_capacity_bytes m * tp
     = exact_kv_bytes spec PF32 (num_hidden_layers (config spec)) context hd)%N /\
    tm_persistent_bytes m = (tm_local_weight_bytes m + tm_kv_cache_capacity_bytes m)%N;
  tx_architectural : tpp_architectural_parameters p = exact_parameters spec hd;
  tx_duplicated : tpp_duplicated_parameters p = (exact_replicated (config spec) * (tp - 1))%N;
  tx_aggregate : tpp_aggregate_materialized_parameters p
    = (exact_parameters spec hd + exact_replicated (config spec) * (tp - 1))%N;
  tx_placement : match require_placement p with
    | Ok _ => forall m b, m ∈ tpp_ranks p -> budget = Some b -> (tm_persistent_bytes m <= b)%N
    | Err e => exists m b, m ∈ tpp_ranks p /\ budget = Some b /\ (b < tm_persistent_bytes m)%N /\
        e = ShardPlacementFailed (tm_rank m) (tm_persistent_bytes m) b
    end
}.

Lemma plan_tensor_shard_shardable cfg c p :
  plan_tensor_shard cfg c = Ok p -> shardable cfg (tp_size c).
Proof.
  unfold plan_tensor_shard. intros H.
  apply bind_Ok in H as (_ & _ & H). apply bind_Ok in H as (_ & _ & H).
  apply bind_Ok in H as (? & Hd%require_divisible_Ok & H). apply bind_Ok in H as (hd & Hhd & _).
  repeat (apply List.Forall_cons_iff in Hd as [? Hd]). by split; [..|rewrite Hhd].
Qed.

(** The verdict on a rank. *)
Definition verdict (budget : option N) (persistent : N) : PlacementVerdict :=
  match budget with
  | Some b => if (persistent <=? b)%N then FitsPersistentEstimate else DoesNotFit
  | None => NotEvaluated
  end.

Lemma plan_rank_exact spec tp context hd budget r m :
  fits (config spec) tp hd -> head_dim (config spec) = Ok hd ->
  plan_rank (config spec) tp context hd budget r = Ok m ->
  shardable (config spec) tp /\ (r < tp)%N /\
  m = mkTensorPlan r (exact_shard_plan (config spec) tp hd r) PF32 context
        (4 * (exact_sharded (config spec) hd / tp + exact_replicated (config spec)))
        (2 * num_hidden_layers (config spec) * context * (num_key_value_heads (config spec) / tp) * hd * 4)
        (tm_persistent_bytes m) budget (verdict budget (tm_persistent_bytes m)) /\
  tm_persistent_bytes m = (tm_local_weight_bytes m + tm_kv_cache_capacity_bytes m)%N.
Proof.
  intros Hf Hhd H. unfold plan_rank in H.
  apply bind_Ok in H as (c & Hc%map_err_Ok%tensor_parallel_Ok & H). destruct Hc as [Hr ->].
  apply bind_Ok in H as (s & Hs%map_err_Ok & H).
  pose proof (plan_tensor_shard_shardable _ _ _ Hs) as Hsh. cbn [tp_size] in Hsh.
  rewrite (plan_tensor_shard_exact _ tp hd) in Hs by done. injection Hs as <-.
  apply bind_Ok in H as (w & Hw%ok_or_Ok & H). apply bind_Ok in H as (kv & Hkv%ok_or_Ok & H).
  apply bind_Ok in H as (q & Hq%ok_or_Ok & H). apply Ok_inj in H. subst m.
  apply checked_mul_Some in Hw as [-> _]. apply kv_cache_bytes_Some in Hkv as [-> _].
  apply checked_add_Some in Hq as [-> _].
  split_and!; [done..| |done]. cbn. f_equal. lia.
Qed.

Lemma require_placement_exact p budget :
  (forall m, m ∈ tpp_ranks p -> tm_budget_bytes m = budget /\
     tm_placement m = verdict budget (tm_persistent_bytes m)) ->
  match require_placement p with
  | Ok _ => forall m b, m ∈ tpp_ranks p -> budget = Some b -> (tm_persistent_bytes m <= b)%N
  | Err e => exists m b, m ∈ tpp_ranks p /\ budget = Some b /\ (b < tm_persistent_bytes m)%N /\
      e = ShardPlacementFailed (tm_rank m) (tm_persistent_bytes m) b
  end.
Proof.
  intros Hv. unfold require_placement. destruct (find _ (tpp_ranks p)) as [m|] eqn:Hfind.
  - apply find_some in Hfind as [Hin Hnf%bool_decide_eq_true]. apply list_elem_of_In in Hin.
    destruct (Hv m Hin) as [Hb Hp]. rewrite Hp in Hnf. unfold verdict in Hnf.
    destruct budget as [b|]; [|done]. destruct (N.leb_spec (tm_persistent_bytes m) b); [done|].
    exists m, b. rewrite Hb. done.
  - intros m b Hin ->. pose proof (find_none _ _ Hfind m) as Hn.
    specialize (Hn ltac:(by apply list_elem_of_In)). apply bool_decide_eq_false in Hn.
    destruct (Hv m Hin) as [_ Hp]. rewrite Hp in Hn. unfold verdict in Hn.
    by destruct (N.leb_spec (tm_persistent_bytes m) b).
Qed.

(** C37: a tensor-parallel plan is exact: it lists every rank once and in order
    with the shard that rank computes for itself; the ranks' weights add up to
    the model's parameters plus the replicated norms of all ranks but one, their
    KV caches to the model's KV cache; and placement is refused exactly when some
    rank's total exceeds the budget, naming such a rank. *)
Theorem tensor_plan_correct model spec tp context budget hd p :
  fits (config spec) tp hd -> head_dim (config spec) = Ok hd ->
  plan_spec model spec tp context budget = Ok p -> tensor_plan_exact spec tp context hd budget p.
Proof.
  intros Hf Hhd H. unfold plan_spec in H.
  apply bind_Ok in H as (? & Htp%reject_if_Ok & H). apply bind_Ok in H as (? & _ & H).
  rewrite Hhd in H. cbn [map_err mbind result_bind] in H.
  apply bind_Ok in H as (ranks & Hm & H). apply Ok_inj in H. subst p. bool_prop.
  apply mapM_Forall2 in Hm.
  assert (lenN ranks = tp) as Hlen.
  { apply Forall2_length in Hm. rewrite length_fmap, length_seq in Hm. unfold lenN. lia. }
  assert (forall i m, ranks !! i = Some m ->
    plan_rank (config spec) tp context hd budget (N.of_nat i) = Ok m) as Hlk.
  { intros i m Hi. destruct (Forall2_lookup_r _ _ _ _ _ Hm Hi) as (r & Hr & Hp).
    rewrite list_lookup_fmap in Hr. apply fmap_Some in Hr as (k & [-> _]%lookup_seq & ->). done. }
  assert (forall m, m ∈ ranks ->
    local_parameters (tm_shard m) = exact_sharded (config spec) hd / tp + exact_replicated (config spec))%N
    as Hloc.
  { intros m [i Hi%Hlk]%list_elem_of_lookup.
    by apply plan_rank_exact in Hi as (_ & _ & -> & _). }
  destruct (lookup_lt_is_Some_2 ranks 0) as [m0 Hm0]; [unfold lenN in Hlen; lia|].
  destruct (plan_rank_exact _ _ _ _ _ _ _ Hf Hhd (Hlk _ _ Hm0)) as (Hsh & _ & E0 & _).
  pose proof (exact_sharded_divisible _ tp hd ltac:(lia) Hsh) as Hdiv.
  pose proof (N.div_mod (exact_sharded (config spec) hd) tp ltac:(lia)) as Hd.
  rewrite Hdiv, N.add_0_r in Hd. pose proof (fit_total _ _ _ Hf) as Hft.
  assert (sum64 (map (fun m => local_parameters (tm_shard m)) ranks)
    = exact_sharded (config spec) hd + exact_replicated (config spec) * tp)%N as Hsum.
  { unfold sum64. change 0%N with (wrap64 0). rewrite sum64_wrap, (sumN_const _ _ _ Hloc), Hlen.
    rewrite wrap64_small; lia. }
  split; cbn [tpp_ranks tpp_architectural_parameters tpp_aggregate_materialized_parameters
    tpp_duplicated_parameters].
  - done.
  - intros i m Hi. pose proof (plan_rank_exact _ _ _ _ _ _ _ Hf Hhd (Hlk _ _ Hi)) as (_ & Hr & E & Ep).
    rewrite E. cbn. rewrite exact_parameters_split. split_and!; [done..| |nia|lia| |].
    + by apply plan_tensor_shard_exact.
    + unfold exact_kv_bytes. cbn [dtype_bytes]. pose proof (sh_kv _ _ Hsh) as Hk.
      pose proof (N.div_mod (num_key_value_heads (config spec)) tp ltac:(lia)) as Hkd.
      rewrite Hk, N.add_0_r in Hkd. rewrite Hkd at 2. lia.
    + rewrite Ep. by rewrite E.
  - rewrite Hm0. cbn. rewrite E0. cbn. by rewrite exact_parameters_split.
  - rewrite Hsum, Hm0. cbn. rewrite E0. cbn. rewrite sub64_small; nia.
  - rewrite Hsum, exact_parameters_split. nia.
  - apply require_placement_exact. intros m [i Hi%Hlk]%list_elem_of_lookup.
    apply plan_rank_exact in Hi as (_ & _ & -> & _); done.
Qed.

Lemma smol_fits :
  fits (config SMOLLM2) 3 64 /\ shardable (config SMOLLM2) 3 /\ head_dim (config SMOLLM2) = Ok 64%N.
Proof. repeat split; vm_compute; reflexivity. Defined.

Lemma shard_ranges_tile_witness :
  owns (config SMOLLM2) 3 query_heads 1 4 /\ owns (config SMOLLM2) 3 kv_heads 1 1.
Proof.
  assert (owns (config SMOLLM2) 3 query_heads 1 4) as H.
  { exists (mkContext 1 3 0 1 0 1). eexists. split; [reflexivity|]. split; [vm_compute; reflexivity|].
    split; vm_compute; [discriminate|reflexivity]. }
  split; [exact H|].
  destruct smol_fits as (Hf & Hs & Hd).
  exact (proj1 (proj2 (shard_ranges_tile (config SMOLLM2) 3 64 Hf Hs Hd) 1%N 4%N) H).
Defined.

Lemma tensor_plan_correct_witness :
  exists p, plan_spec SmolLm2_135MInstruct SMOLLM2 3 64 (Some (N.shiftl 1 30)) = Ok p /\
    tensor_plan_exact SMOLLM2 3 64 64 (Some (N.shiftl 1 30)) p /\
    tpp_duplicated_parameters p = 70272%N /\ require_placement p = Ok tt.
Proof.
  eexists. split; [vm_compute; reflexivity|]. split; [|split; reflexivity].
  apply (tensor_plan_correct SmolLm2_135MInstruct);
    [exact (proj1 smol_fits)|reflexivity|vm_compute; reflexivity].
Defined.
