(* ===== verification/Protocol.v ===== *)
(** * Pipeline control protocol

    Models [crates/pipeline/src/protocol.rs] and [StopReason] of
    [crates/runtime/src/report.rs]: the typed control messages and the three tag
    namespaces of a pipeline step.  The JSON codec of serde is a parameter
    ([JsonCodec]); what the protocol relies on is that decoding undoes
    encoding and that an encoded message fits a control packet. *)
From S2P Require Import Prelude Rank Packet Registry Memory Partition.

(** [enum StopReason] and its [Display]. *)
Inductive StopReason : Type := Eos | MaxNewTokens | ContextLimit.
#[global] Instance StopReason_eq_dec : EqDecision StopReason.
Proof. solve_decision. Defined.
Definition stop_reason_display (r : StopReason) : string :=
  match r with
  | Eos => "eos" | MaxNewTokens => "max_new_tokens" | ContextLimit => "context_limit"
  end.

(** [enum PipelineDecision], [enum PipelineControl]. *)
Inductive PipelineDecision : Type := Continue | Stop (reason : StopReason).
Inductive PipelineControl : Type :=
| Token (step token_id : N)
| Decision (step : N) (decision : PipelineDecision).

#[global] Instance PipelineDecision_eq_dec : EqDecision PipelineDecision.
Proof. solve_decision. Defined.
#[global] Instance PipelineControl_eq_dec : EqDecision PipelineControl.
Proof. solve_decision. Defined.

(** [serde_json::to_vec] and [serde_json::from_slice] at a message type; an
    error carries its text. *)
Class JsonCodec (A : Type) := {
  to_vec : A -> result string (list byte);
  from_slice : list byte -> result string A }.

(** The documented behaviour of the codec on the messages that satisfy [P]:
    small messages round trip. *)
Class JsonCodecLaws {A} (C : JsonCodec A) (P : A -> Prop) : Prop := {
  json_round_trip a : P a -> exists bytes,
    to_vec a = Ok bytes /\ from_slice bytes = Ok a /\ (lenN bytes <= MAX_CONTROL_BYTES)%N }.

(** [PipelineControl::encode], [PipelineControl::decode]. *)
Definition encode `{JsonCodec PipelineControl} (self : PipelineControl) : presult (list byte) :=
  map_err PipelineJson (to_vec self).
Definition decode `{JsonCodec PipelineControl} (bytes : list byte) : presult PipelineControl :=
  map_err PipelineJson (from_slice bytes).

(** The fields are a [usize] and a [u32]. *)
Definition control_wf (c : PipelineControl) : Prop :=
  match c with Token step token => (step < U64)%N /\ (token < U32)%N
             | Decision step _ => (step < U64)%N end.

(** ** Tags *)
Definition ACTIVATION_BASE : N := 0x1000000000000000.
Definition TOKEN_BASE : N := 0x2000000000000000.
Definition DECISION_BASE : N := 0x3000000000000000.

(** [step_tag]: the step is a [usize], 64 bits wide. *)
Definition step_tag (base step : N) : presult MessageTag :=
  step ← (if (step <? U64)%N then Ok step
          else Err (PipelineProtocol "pipeline step does not fit u64"));
  ok_or (tag ← checked_add base step;
         if (tag <? add64 base (N.shiftl 1 60))%N then Some tag else None)
    (PipelineProtocol "pipeline message-tag overflow").

Definition activation_tag (step : N) : presult MessageTag := step_tag ACTIVATION_BASE step.
Definition token_tag (step : N) : presult MessageTag := step_tag TOKEN_BASE step.
Definition decision_tag (step : N) : presult MessageTag := step_tag DECISION_BASE step.

(** ** Properties *)

Lemma step_tag_Ok base step tag :
  (base <= DECISION_BASE)%N ->
  step_tag base step = Ok tag <-> (step < 2 ^ 60)%N /\ tag = (base + step)%N.
Proof.
  intros Hb. unfold step_tag. change DECISION_BASE with 3458764513820540928%N in Hb.
  change (N.shiftl 1 60) with 1152921504606846976%N. change (2 ^ 60)%N with 1152921504606846976%N.
  rewrite add64_small by (change U64 with 18446744073709551616%N; lia).
  destruct (N.ltb_spec step U64) as [H|H]; cbn [mbind result_bind].
  - rewrite ok_or_Ok. unfold checked_add.
    destruct (N.ltb_spec (base + step) U64) as [H1|H1]; cbn [mbind option_bind].
    + destruct (N.ltb_spec (base + step) (base + 1152921504606846976)); split;
        [intros [= <-]; split; [lia|done] | by intros [_ ->] | done | lia].
    + split; [done|]. change U64 with 18446744073709551616%N in H1. lia.
  - split; [done|]. change U64 with 18446744073709551616%N in H. lia.
Qed.

(** The namespaces of a pipeline step. *)
Definition pipeline_bases : list N := [ACTIVATION_BASE; TOKEN_BASE; DECISION_BASE].

Lemma pipeline_bases_le base : base ∈ pipeline_bases -> (base <= DECISION_BASE)%N.
Proof.
  unfold pipeline_bases. rewrite !elem_of_cons, elem_of_nil.
  intros [->|[->|[->|[]]]]; vm_compute; discriminate.
Qed.

Lemma pipeline_bases_apart b b' : b ∈ pipeline_bases -> b' ∈ pipeline_bases -> b <> b' ->
  (b + 2 ^ 60 <= b' \/ b' + 2 ^ 60 <= b)%N.
Proof.
  unfold pipeline_bases. rewrite !elem_of_cons, !elem_of_nil.
  intros [->|[->|[->|[]]]] [->|[->|[->|[]]]] Hne; try done;
    first [left; vm_compute; discriminate | right; vm_compute; discriminate].
Qed.

(** The tags of a pipeline run never collide: a step has a tag exactly below
    2^60, two tags are equal only for the same namespace and step, and none lies
    in the range of the collectives' tags, which begins where the pipeline's end. *)
Theorem step_tags_unique base step :
  base ∈ pipeline_bases ->
  (is_ok (step_tag base step) = true <-> (step < 2 ^ 60)%N) /\
  forall tag, step_tag base step = Ok tag ->
    (ACTIVATION_BASE <= tag < 0x4000000000000000)%N /\
    forall base' step', base' ∈ pipeline_bases -> step_tag base' step' = Ok tag ->
      base' = base /\ step' = step.
Proof.
  intros Hb. pose proof (pipeline_bases_le _ Hb) as Hle. split.
  - destruct (step_tag base step) as [t|e] eqn:E.
    + apply step_tag_Ok in E; [|done]. cbn. split; [tauto|done].
    + split; [done|]. intros Hs. rewrite (proj2 (step_tag_Ok base step (base + step)%N Hle)) in E; done.
  - intros tag [Hs ->]%step_tag_Ok; [|done]. split.
    + change DECISION_BASE with 3458764513820540928%N in Hle. change (2 ^ 60)%N with 1152921504606846976%N in Hs.
      assert (ACTIVATION_BASE <= base)%N.
      { revert Hb. unfold pipeline_bases. rewrite !elem_of_cons, elem_of_nil.
        intros [->|[->|[->|[]]]]; vm_compute; discriminate. }
      lia.
    + intros b' s' Hb' [Hs' E]%step_tag_Ok; [|by apply pipeline_bases_le].
      destruct (decide (b' = base)) as [->|Hne]; [split; [done|lia]|].
      pose proof (pipeline_bases_apart _ _ Hb' Hb Hne). lia.
Qed.

Lemma step_tags_unique_witness :
  token_tag 7 = Ok (TOKEN_BASE + 7)%N /\ is_ok (token_tag (2 ^ 60)) = false /\
  (forall step, activation_tag step <> token_tag 7).
Proof.
  assert (TOKEN_BASE ∈ pipeline_bases) as Ht by (unfold pipeline_bases; set_solver).
  assert (ACTIVATION_BASE ∈ pipeline_bases) as Ha by (unfold pipeline_bases; set_solver).
  split; [reflexivity|]. split; [reflexivity|]. intros step E.
  destruct (proj2 (step_tags_unique TOKEN_BASE 7 Ht) (TOKEN_BASE + 7)%N eq_refl) as [_ H].
  destruct (H ACTIVATION_BASE step Ha E) as [Hb _]. discriminate Hb.
Defined.
