(* ===== verification/Cache.v ===== *)
(** * Key/value cache

    Models [crates/runtime/src/model/cache.rs]: the preallocated keys and values
    of every layer, written in place along the sequence axis.  Tensors are given
    by their logical contents; the view an append returns shares storage with
    the cache in the program, and [layer_cache_is_log] shows that later appends
    never write inside it. *)
From S2P Require Import Prelude Rank Packet Tensor Registry.

(** [?] on a Candle result. *)
Definition candle {A} (m : cresult A) : dresult A :=
  map_err (fun e => DlirTensor (match e with TensorError op => op | _ => "" end)) m.

(** [Tensor::zeros] for the dtypes used. *)
Definition zeros (shape : list nat) (dtype : DType) (device : Device) : Tensor :=
  mkTensor device dtype shape (replicate (product shape) 0%N).

(** [dims4], [dims3], [dims2]. *)
Definition dims4 (t : Tensor) : cresult (nat * nat * nat * nat) :=
  match dims t with [a; b; c; d] => Ok (a, b, c, d) | _ => candle_error "dims4" end.
Definition dims3 (t : Tensor) : cresult (nat * nat * nat) :=
  match dims t with [a; b; c] => Ok (a, b, c) | _ => candle_error "dims3" end.
Definition dims2 (t : Tensor) : cresult (nat * nat) :=
  match dims t with [a; b] => Ok (a, b) | _ => candle_error "dims2" end.

(** One block of [slice_set]: [s] replaces the elements from [start] on. *)
Definition overwrite {A} (start : nat) (b s : list A) : list A :=
  take start b ++ s ++ drop (start + length s) b.

(** [Tensor::slice_set]: the contents of [self] afterwards. *)
Definition slice_set (self src : Tensor) (axis offset : nat) : cresult Tensor :=
  if negb (bool_decide (dtype self = dtype src)) || negb (bool_decide (device self = device src))
     || negb (same_but_axis axis (dims self) (dims src))
  then candle_error "slice-set"
  else
    match dims self !! axis, dims src !! axis with
    | Some n, Some m =>
        if Nat.ltb n (m + offset) then candle_error "slice-set"
        else Ok (of_blocks self axis n
                   (zip_with (overwrite (offset * inner axis (dims src)))
                      (axis_blocks axis self) (axis_blocks axis src)))
    | _, _ => candle_error "slice-set"
    end.

(** [struct LayerKvCache]. *)
Record LayerKvCache : Type := mkLayer
  { layer_keys : Tensor; layer_values : Tensor; layer_length : nat; layer_capacity : nat }.

(** [LayerKvCache::new]. *)
Definition layer_new (config : ModelConfig) (capacity : nat) (dtype : DType) (device : Device)
  : dresult LayerKvCache :=
  hd ← head_dim config;
  let shape := [1; N.to_nat (num_key_value_heads config); capacity; N.to_nat hd] in
  Ok (mkLayer (zeros shape dtype device) (zeros shape dtype device) 0 capacity).

(** [LayerKvCache::append] and the cache it leaves behind, also on an error. *)
Definition layer_append (self : LayerKvCache) (k v : Tensor)
  : dresult (Tensor * Tensor) * LayerKvCache :=
  if negb (bool_decide (dims k = dims v))
  then (Err (InvalidConfig "key and value cache chunks have different shapes"), self)
  else
    match dims4 k with
    | Err e => (candle (Err e), self)
    | Ok (_, _, sequence, _) =>
        let attempted := layer_length self + sequence in
        if Nat.ltb (layer_capacity self) attempted
        then (Err (CacheCapacityExceeded (N.of_nat attempted) (N.of_nat (layer_capacity self))), self)
        else
          match slice_set (layer_keys self) k 2 (layer_length self) with
          | Err e => (candle (Err e), self)
          | Ok ks =>
              let self := mkLayer ks (layer_values self) (layer_length self) (layer_capacity self) in
              match slice_set (layer_values self) v 2 (layer_length self) with
              | Err e => (candle (Err e), self)
              | Ok vs =>
                  let self := mkLayer ks vs attempted (layer_capacity self) in
                  (candle (pk ← narrow (layer_keys self) 2 0 (layer_length self);
                           pv ← narrow (layer_values self) 2 0 (layer_length self);
                           Ok (pk, pv)), self)
              end
          end
    end.

(** [struct KvCache]. *)
Record KvCache : Type := mkCache { layers : list LayerKvCache; cache_capacity : nat }.

(** [KvCache::new_for_layers]. *)
Definition new_for_layers (config : ModelConfig) (layer_count capacity : nat) (dtype : DType)
    (device : Device) : dresult KvCache :=
  _ ← reject_if (Nat.eqb layer_count 0 || (num_hidden_layers config <? N.of_nat layer_count)%N)
    (InvalidConfig ("cache layer count must be between 1 and "
       +:+ pretty (num_hidden_layers config) +:+ ", got " +:+ pretty layer_count));
  _ ← reject_if (Nat.eqb capacity 0 || (max_position_embeddings config <? N.of_nat capacity)%N)
    (InvalidConfig ("cache capacity " +:+ pretty capacity +:+ " is outside model context 1..="
       +:+ pretty (max_position_embeddings config)));
  layers ← mapM (fun _ => layer_new config capacity dtype device) (seq 0 layer_count);
  Ok (mkCache layers capacity).

(** [KvCache::new]. *)
Definition cache_new (config : ModelConfig) (capacity : nat) (dtype : DType) (device : Device)
  : dresult KvCache :=
  _ ← reject_if (Nat.eqb capacity 0 || (max_position_embeddings config <? N.of_nat capacity)%N)
    (InvalidConfig ("cache capacity " +:+ pretty capacity +:+ " is outside model context 1..="
       +:+ pretty (max_position_embeddings config)));
  new_for_layers config (N.to_nat (num_hidden_layers config)) capacity dtype device.

(** [KvCache::new_tensor_parallel]. *)
Definition local_config (config : ModelConfig) (tp_size : N) : ModelConfig :=
  mkConfig (vocab_size config) (hidden_size config / tp_size) (intermediate_size config)
    (num_hidden_layers config) (num_attention_heads config / tp_size)
    (num_key_value_heads config / tp_size) (rms_norm_eps config) (rope_theta config)
    (max_position_embeddings config) (bos_token_id config) (eos_token_id config)
    (tie_word_embeddings config).
Definition new_tensor_parallel (config : ModelConfig) (tp_size : N) (capacity : nat) (dtype : DType)
    (device : Device) : dresult KvCache :=
  _ ← reject_if ((tp_size =? 0)%N || negb (num_key_value_heads config mod tp_size =? 0)%N)
    (InvalidConfig (pretty (num_key_value_heads config) +:+ " KV heads cannot be divided across TP="
       +:+ pretty tp_size));
  cache_new (local_config config tp_size) capacity dtype device.

(** [KvCache::len], [is_empty], [layer_count]. *)
Definition cache_len (self : KvCache) : nat :=
  match layers self with [] => 0 | layer :: _ => layer_length layer end.
Definition cache_is_empty (self : KvCache) : bool := Nat.eqb (cache_len self) 0.
Definition cache_layer_count (self : KvCache) : nat := length (layers self).

(** [KvCache::append]. *)
Definition cache_append (self : KvCache) (layer : nat) (k v : Tensor) : dresult (Tensor * Tensor) * KvCache :=
  match layers self !! layer with
  | None => (Err (InvalidConfig ("cache has no layer " +:+ pretty layer)), self)
  | Some l =>
      let '(r, l) := layer_append l k v in
      (r, mkCache (<[layer := l]> (layers self)) (cache_capacity self))
  end.

(** [KvCache::used_bytes]; the program's dtypes are F32, F16 and BF16. *)
Definition used_bytes (self : KvCache) (config : ModelConfig) (bytes : N) : dresult N :=
  hd ← head_dim config;
  Ok (mul64 (mul64 (mul64 (mul64 (mul64 2 (N.of_nat (length (layers self))))
        (N.of_nat (cache_len self))) (num_key_value_heads config)) hd) bytes).

(** ** What the cache holds *)

(** The first [n] positions of the sequence axis. *)
Definition prefix_of (t : Tensor) (n : nat) : Tensor :=
  of_blocks t 2 n (map (take (n * inner 2 (dims t))) (axis_blocks 2 t)).

Lemma narrow_prefix t n d : dims t !! 2 = Some d -> n <= d -> narrow t 2 0 n = Ok (prefix_of t n).
Proof.
  intros Hd Hn. unfold narrow. rewrite Hd. destruct (Nat.ltb_spec d 0); [lia|].
  destruct (Nat.ltb_spec d (0 + n)); [lia|]. cbn [orb]. done.
Qed.

(** The shape of a cache or of a chunk: [s] positions of [h] heads of width [w]. *)
Definition kv_tensor (h s w : nat) (dt : DType) (dev : Device) (t : Tensor) : Prop :=
  tensor_wf t /\ dims t = [1; h; s; w] /\ dtype t = dt /\ device t = dev.

Lemma length_overwrite {A} start (b s : list A) :
  start + length s <= length b -> length (overwrite start b s) = length b.
Proof. intros. unfold overwrite. rewrite !length_app, length_take, length_drop. lia. Qed.

Lemma take_overwrite {A} start (b s : list A) n :
  start + length s <= length b -> n <= start -> take n (overwrite start b s) = take n b.
Proof.
  intros Hl Hn. unfold overwrite. rewrite take_app_le by (rewrite length_take; lia).
  rewrite take_take. f_equal. lia.
Qed.

Lemma take_overwrite_end {A} start (b s : list A) :
  start + length s <= length b -> take (start + length s) (overwrite start b s) = take start b ++ s.
Proof.
  intros Hl. unfold overwrite. rewrite app_assoc. apply take_app_length'.
  rewrite length_app, length_take. lia.
Qed.

Lemma kv_blocks h w dt dev n t : kv_tensor h n w dt dev t ->
  length (axis_blocks 2 t) = h /\ Forall (fun b => length b = n * w) (axis_blocks 2 t) /\
  inner 2 (dims t) = w /\ dims t !! 2 = Some n.
Proof.
  intros (Hwf & Hd & _). pose proof (axis_blocks_lengths 2 t n Hwf) as Hb.
  rewrite axis_blocks_length. rewrite Hd in *. specialize (Hb eq_refl).
  unfold outer, inner in *. cbn in *. unfold product in *; cbn in *. rewrite Nat.mul_1_r in *.
  split_and!; [lia|done|lia|done].
Qed.

Section SliceSet.
Context (h c s w : nat) (dt : DType) (dev : Device) (self src : Tensor) (offset : nat).
Hypotheses (Hself : kv_tensor h c w dt dev self) (Hsrc : kv_tensor h s w dt dev src)
  (Hfit : offset + s <= c).

Let written : list (list f32) :=
  zip_with (overwrite (offset * w)) (axis_blocks 2 self) (axis_blocks 2 src).

Lemma written_blocks j b b' :
  axis_blocks 2 self !! j = Some b -> axis_blocks 2 src !! j = Some b' ->
  length b = c * w /\ length b' = s * w /\ offset * w + length b' <= length b.
Proof.
  destruct (kv_blocks _ _ _ _ _ _ Hself) as (_ & Hb & _), (kv_blocks _ _ _ _ _ _ Hsrc) as (_ & Hb' & _).
  intros H H'. eapply list.Forall_lookup in H; [|exact Hb]. eapply list.Forall_lookup in H'; [|exact Hb'].
  cbn in H, H'. split; [done|]. split; [done|]. rewrite H, H'. nia.
Qed.

Lemma slice_set_spec :
  exists t, slice_set self src 2 offset = Ok t /\ kv_tensor h c w dt dev t /\
    axis_blocks 2 t = written.
Proof.
  pose proof Hself as (Hw1 & Hd1 & Ht1 & Hv1). pose proof Hsrc as (Hw2 & Hd2 & Ht2 & Hv2).
  destruct (kv_blocks _ _ _ _ _ _ Hself) as (Hl1 & Hb1 & Hi1 & Hn1), (kv_blocks _ _ _ _ _ _ Hsrc) as (Hl2 & Hb2 & Hi2 & Hn2).
  exists (of_blocks self 2 c written). unfold slice_set. rewrite Ht1, Ht2, Hv1, Hv2.
  rewrite !bool_decide_eq_true_2 by done. cbn [negb orb].
  assert (same_but_axis 2 (dims self) (dims src) = true) as ->.
  { rewrite Hd1, Hd2. unfold same_but_axis. cbn. by rewrite bool_decide_eq_true_2. }
  cbn [negb]. rewrite Hn1, Hn2, Hi2. destruct (Nat.ltb_spec c (s + offset)); [lia|].
  split; [done|].
  destruct (of_blocks_spec self 2 c written) as (Hwf & Hn & Hb).
  - rewrite Hd1. cbn. lia.
  - unfold written. rewrite length_zip_with, Hl1, Hl2, <- (axis_blocks_length 2 self), Hl1. lia.
  - rewrite Hi1. apply list.Forall_lookup. intros j x Hx. unfold written in Hx.
    apply lookup_zip_with_Some in Hx as (b & b' & -> & H1 & H2).
    destruct (written_blocks j b b' H1 H2) as (L1 & L2 & L3). by rewrite length_overwrite.
  - split; [|done]. split; [done|]. cbn. rewrite Hd1. done.
Qed.
End SliceSet.

(** ** Refinement of an append-only log *)

Lemma cat_blocks_snoc axis n ts t :
  length (axis_blocks axis t) = n -> Forall (fun u => length (axis_blocks axis u) = n) ts ->
  cat_blocks axis n (ts ++ [t]) = zip_with app (cat_blocks axis n ts) (axis_blocks axis t).
Proof.
  intros Hn. unfold cat_blocks. induction 1 as [|u ts Hu _ IH].
  - cbn. rewrite zip_app_nil by done. rewrite <- Hn. clear. generalize (axis_blocks axis t).
    intros l. induction l as [|x l IH]; cbn; [done|]. by f_equal.
  - cbn [app foldr]. rewrite IH. generalize (foldr (fun t acc => zip_with app (axis_blocks axis t) acc)
      (replicate n []) ts). intros l. clear. revert l. generalize (axis_blocks axis u).
    generalize (axis_blocks axis t). intros a b. revert a.
    induction b as [|y b IH]; intros a [|x l]; cbn; try done. destruct a as [|z a]; cbn; [done|].
    by rewrite app_assoc, IH.
Qed.

Section Log.
Context (h w : nat) (dt : DType) (dev : Device).

(** A chunk is a pair of keys and values for the same positions. *)
Definition chunk_of (s : nat) (chunk : Tensor * Tensor) : Prop :=
  kv_tensor h s w dt dev chunk.1 /\ kv_tensor h s w dt dev chunk.2.

Definition positions (chunks : list (Tensor * Tensor)) : nat := axis_sum 2 (map fst chunks).

(** The stored tensor [t] of [c] positions holds the tensors [ts] one after the other. *)
Definition holds (c n : nat) (t : Tensor) (ts : list Tensor) : Prop :=
  kv_tensor h c w dt dev t /\ map (take (n * w)) (axis_blocks 2 t) = cat_blocks 2 h ts.

(** The layer is the log [chunks] with room for [layer_capacity] positions. *)
Definition represents (l : LayerKvCache) (chunks : list (Tensor * Tensor)) : Prop :=
  Forall (fun chunk => exists s, chunk_of s chunk) chunks /\
  layer_length l = positions chunks /\ layer_length l <= layer_capacity l /\
  holds (layer_capacity l) (layer_length l) (layer_keys l) (map fst chunks) /\
  holds (layer_capacity l) (layer_length l) (layer_values l) (map snd chunks).

Lemma axis_sum_snoc ts t : axis_sum 2 (ts ++ [t]) = axis_sum 2 ts + default 0 (dims t !! 2).
Proof. unfold axis_sum. induction ts as [|u ts IH]; cbn in *; [lia|]. lia. Qed.

Lemma map_take_overwrite (bs ss : list (list f32)) off m :
  length bs = length ss ->
  (forall j b b', bs !! j = Some b -> ss !! j = Some b' -> off + m <= length b /\ length b' = m) ->
  map (take (off + m)) (zip_with (overwrite off) bs ss) = zip_with app (map (take off) bs) ss /\
  forall n, n <= off -> map (take n) (zip_with (overwrite off) bs ss) = map (take n) bs.
Proof.
  revert ss. induction bs as [|b bs IH]; intros [|b' ss] Hl H; try done.
  destruct (H 0 b b' eq_refl eq_refl) as [H1 H2].
  destruct (IH ss) as [IH1 IH2]; [by injection Hl|intros j; apply (H (S j))|].
  cbn. split.
  - rewrite IH1. f_equal. rewrite <- H2. apply take_overwrite_end. lia.
  - intros n Hn. rewrite IH2 by done. f_equal. apply take_overwrite; lia.
Qed.

(** Writing a chunk behind the stored ones. *)
Lemma holds_write c n s t ts u :
  holds c n t ts -> kv_tensor h s w dt dev u -> n + s <= c ->
  Forall (fun x => exists m, kv_tensor h m w dt dev x) ts ->
  exists t', slice_set t u 2 n = Ok t' /\ holds c (n + s) t' (ts ++ [u]) /\
    forall m, m <= n -> narrow t' 2 0 m = narrow t 2 0 m.
Proof.
  intros [Ht Hb] Hu Hfit Hts.
  destruct (slice_set_spec h c s w dt dev t u n Ht Hu Hfit) as (t' & Hset & Ht' & Hblocks).
  destruct (kv_blocks h w dt dev _ _ Ht) as (Hl & HL & Hi & Hn), (kv_blocks h w dt dev _ _ Hu) as (Hl' & HL' & _ & _).
  destruct (map_take_overwrite (axis_blocks 2 t) (axis_blocks 2 u) (n * w) (s * w)) as [H1 H2].
  { by rewrite Hl, Hl'. }
  { intros j b b' Hb1 Hb2. destruct (written_blocks h c s w dt dev t u n Ht Hu Hfit j b b' Hb1 Hb2)
      as (? & ? & ?). lia. }
  exists t'. split; [done|]. split.
  - split; [done|]. rewrite Hblocks, Nat.mul_add_distr_r, H1, Hb. symmetry. apply cat_blocks_snoc; [done|].
    revert Hts. apply Forall_impl. intros x (m & Hx). by destruct (kv_blocks h w dt dev m x Hx).
  - intros m Hm. assert (Ht'' := Ht'). destruct (kv_blocks h w dt dev _ _ Ht') as (_ & _ & Hi' & Hn').
    rewrite !(narrow_prefix _ m c) by (done || lia). unfold prefix_of. rewrite Hi, Hi', Hblocks.
    rewrite H2 by nia. unfold of_blocks. destruct Ht as (_ & -> & -> & ->), Ht' as (_ & -> & -> & ->). done.
Qed.

(** Reading back what is stored. *)
Lemma holds_read c n t ts :
  holds c n t ts -> n <= c -> ts <> [] -> n = axis_sum 2 ts ->
  Forall (fun x => exists m, kv_tensor h m w dt dev x) ts ->
  exists p, narrow t 2 0 n = Ok p /\ cat ts 2 = Ok p.
Proof.
  intros [Ht Hb] Hn Hne Hsum Hts. destruct (kv_blocks h w dt dev _ _ Ht) as (_ & _ & Hi & Hd).
  exists (prefix_of t n). split; [by apply (narrow_prefix t n c)|].
  destruct ts as [|x ts]; [done|]. apply list.Forall_cons in Hts as [[m Hx] Hrest].
  rewrite cat_ok, <- Hsum.
  - f_equal. unfold prefix_of, of_blocks. rewrite Hi, Hb.
    destruct (kv_blocks h w dt dev _ _ Hx) as (Hlx & _).
    destruct Ht as (_ & -> & -> & ->), Hx as (_ & Hdx & -> & ->). rewrite Hdx. cbn [dims]. f_equal.
    f_equal. f_equal. rewrite axis_blocks_length, Hdx in Hlx. by rewrite Hlx.
  - by destruct Hx.
  - destruct Hx as (_ & -> & _). cbn. lia.
  - revert Hrest. apply Forall_impl. intros y (m' & Hy). destruct Hx as (_ & -> & _), Hy as (_ & -> & _).
    unfold same_but_axis. cbn. by rewrite bool_decide_eq_true_2.
Qed.

Lemma chunks_keys chunks : Forall (fun chunk => exists s, chunk_of s chunk) chunks ->
  Forall (fun x => exists m, kv_tensor h m w dt dev x) (map fst chunks).
Proof. intros H. apply Forall_map. revert H. apply Forall_impl. intros x (s & H & _). by exists s. Qed.
Lemma chunks_values chunks : Forall (fun chunk => exists s, chunk_of s chunk) chunks ->
  Forall (fun x => exists m, kv_tensor h m w dt dev x) (map snd chunks).
Proof. intros H. apply Forall_map. revert H. apply Forall_impl. intros x (s & _ & H). by exists s. Qed.

Lemma positions_values chunks : Forall (fun chunk => exists s, chunk_of s chunk) chunks ->
  axis_sum 2 (map snd chunks) = positions chunks.
Proof.
  unfold positions, axis_sum. induction 1 as [|x l (s & (_ & H1 & _) & (_ & H2 & _)) _ IH]; cbn; [done|].
  rewrite IH. by rewrite H1, H2.
Qed.

Lemma chunks_snoc chunks s chunk :
  Forall (fun c => exists s, chunk_of s c) chunks -> chunk_of s chunk ->
  Forall (fun c => exists s, chunk_of s c) (chunks ++ [chunk]) /\
  axis_sum 2 (map fst chunks ++ [chunk.1]) = positions chunks + s /\
  axis_sum 2 (map snd chunks ++ [chunk.2]) = positions chunks + s.
Proof.
  intros Hch Hc. pose proof Hc as [(_ & Hk & _) (_ & Hv & _)]. split_and!.
  - apply list.Forall_app. split; [done|]. constructor; [by exists s|done].
  - by rewrite axis_sum_snoc, Hk.
  - by rewrite axis_sum_snoc, Hv, positions_values.
Qed.

Lemma snoc_ne {A} (l : list A) x : l ++ [x] <> [].
Proof. by destruct l. Qed.

Lemma layer_append_refines l chunks s chunk :
  represents l chunks -> chunk_of s chunk ->
  (layer_capacity l < layer_length l + s /\
   layer_append l chunk.1 chunk.2
     = (Err (CacheCapacityExceeded (N.of_nat (layer_length l + s)) (N.of_nat (layer_capacity l))), l)) \/
  (layer_length l + s <= layer_capacity l /\ exists k v l',
     layer_append l chunk.1 chunk.2 = (Ok (k, v), l') /\
     cat (map fst (chunks ++ [chunk])) 2 = Ok k /\ cat (map snd (chunks ++ [chunk])) 2 = Ok v /\
     represents l' (chunks ++ [chunk]) /\ layer_capacity l' = layer_capacity l /\
     layer_length l' = layer_length l + s /\
     forall n, n <= layer_length l ->
       narrow (layer_keys l') 2 0 n = narrow (layer_keys l) 2 0 n /\
       narrow (layer_values l') 2 0 n = narrow (layer_values l) 2 0 n).
Proof.
  intros (Hch & Hlen & Hcap & Hk & Hv) Hc. pose proof Hc as [Hck Hcv].
  destruct (chunks_snoc chunks s chunk Hch Hc) as (Hch' & Hpk & Hpv). rewrite <- Hlen in Hpk, Hpv.
  pose proof (chunks_keys _ Hch') as Hallk. pose proof (chunks_values _ Hch') as Hallv.
  unfold layer_append. pose proof Hck as (_ & Hdk & _). pose proof Hcv as (_ & Hdv & _).
  rewrite Hdk, Hdv, bool_decide_eq_true_2 by done. cbn [negb]. unfold dims4. rewrite Hdk. cbv zeta.
  destruct (Nat.ltb_spec (layer_capacity l) (layer_length l + s)) as [Hlt|Hle]; [by left|right].
  split; [done|].
  destruct (holds_write _ _ s _ _ chunk.1 Hk Hck Hle (chunks_keys _ Hch)) as (k' & Hsk & Hk' & Hsk').
  destruct (holds_write _ _ s _ _ chunk.2 Hv Hcv Hle (chunks_values _ Hch)) as (v' & Hsv & Hv' & Hsv').
  rewrite Hsk. cbn [layer_values layer_length]. rewrite Hsv.
  cbn [layer_keys layer_values layer_length layer_capacity].
  rewrite !map_app in *. cbn [map] in *.
  destruct (holds_read _ _ _ _ Hk' Hle (snoc_ne _ _) (eq_sym Hpk) Hallk) as (pk & Hnk & Hcatk).
  destruct (holds_read _ _ _ _ Hv' Hle (snoc_ne _ _) (eq_sym Hpv) Hallv) as (pv & Hnv & Hcatv).
  rewrite Hnk. cbn [mbind result_bind]. rewrite Hnv. cbn [mbind result_bind candle map_err].
  exists pk, pv. eexists. split; [done|]. split; [done|]. split; [done|].
  split; [|split_and!; [done|done|auto]].
  split; [done|]. cbn [layer_keys layer_values layer_length layer_capacity]. rewrite !map_app. cbn [map].
  split; [|done]. unfold positions. rewrite map_app. cbn [map]. by rewrite Hpk.
Qed.
End Log.

(** A new layer is the empty log. *)
Lemma zeros_kv h c w dt dev : kv_tensor h c w dt dev (zeros [1; h; c; w] dt dev).
Proof. split; [|done]. unfold tensor_wf, zeros. cbn [elements dims]. apply length_replicate. Qed.

Lemma layer_new_represents config capacity dt dev hd :
  head_dim config = Ok hd ->
  exists l, layer_new config capacity dt dev = Ok l /\ layer_capacity l = capacity /\
    represents (N.to_nat (num_key_value_heads config)) (N.to_nat hd) dt dev l [].
Proof.
  intros Hhd. unfold layer_new. rewrite Hhd. cbn [mbind result_bind]. eexists. split; [done|].
  split; [done|]. split; [constructor|]. cbn [layer_length layer_capacity layer_keys layer_values].
  split; [done|]. split; [lia|].
  enough (forall t, kv_tensor (N.to_nat (num_key_value_heads config)) capacity (N.to_nat hd) dt dev t ->
    holds (N.to_nat (num_key_value_heads config)) (N.to_nat hd) dt dev capacity 0 t []) as H
    by (split; apply H, zeros_kv).
  intros t Ht. split; [done|]. destruct (kv_blocks _ _ _ _ _ _ Ht) as (Hl & _). rewrite <- Hl. cbn.
  clear. generalize (axis_blocks 2 t). intros l. induction l; cbn; [done|]. by f_equal.
Qed.

(** C25: each layer's cache is an append-only log: it starts empty, an append
    returns everything appended so far, in order, or - exactly when the chunk
    does not fit - an error that leaves the layer unchanged; and it never writes
    to the positions an earlier append handed out. *)
Theorem layer_cache_is_log config hd capacity dt dev :
  head_dim config = Ok hd ->
  let h := N.to_nat (num_key_value_heads config) in
  let w := N.to_nat hd in
  (exists l, layer_new config capacity dt dev = Ok l /\ represents h w dt dev l [] /\
     layer_capacity l = capacity) /\
  forall l chunks s chunk, represents h w dt dev l chunks -> chunk_of h w dt dev s chunk ->
    match layer_append l chunk.1 chunk.2 with
    | (Ok (k, v), l') =>
        layer_length l + s <= layer_capacity l /\ represents h w dt dev l' (chunks ++ [chunk]) /\
        cat (map fst (chunks ++ [chunk])) 2 = Ok k /\ cat (map snd (chunks ++ [chunk])) 2 = Ok v /\
        (forall n, n <= layer_length l ->
           narrow (layer_keys l') 2 0 n = narrow (layer_keys l) 2 0 n /\
           narrow (layer_values l') 2 0 n = narrow (layer_values l) 2 0 n)
    | (Err e, l') =>
        layer_capacity l < layer_length l + s /\ l' = l /\
        e = CacheCapacityExceeded (N.of_nat (layer_length l + s)) (N.of_nat (layer_capacity l))
    end.
Proof.
  intros Hhd h w. split.
  - destruct (layer_new_represents config capacity dt dev hd Hhd) as (l & ? & ? & ?). by exists l.
  - intros l chunks s chunk Hl Hc.
    destruct (layer_append_refines h w dt dev l chunks s chunk Hl Hc)
      as [(? & ->)|(? & k & v & l' & -> & ? & ? & ? & _ & _ & ?)]; by split_and!.
Qed.

Definition tiny_kv_config : ModelConfig := mkConfig 8 4 4 1 2 1 "1e-5" "10000.0" 8 1 2 true.
Definition kv_chunk (s : nat) (base : N) : Tensor :=
  mkTensor Cpu F32 [1; 1; s; 2] (map (fun i => (base + N.of_nat i)%N) (seq 0 (s * 2))).

Lemma layer_cache_is_log_witness :
  exists l k v l', layer_new tiny_kv_config 3 F32 Cpu = Ok l /\
    layer_append l (kv_chunk 2 10) (kv_chunk 2 20) = (Ok (k, v), l') /\
    represents 1 2 F32 Cpu l' [(kv_chunk 2 10, kv_chunk 2 20)] /\
    elements k = [10; 11; 12; 13]%N /\
    layer_append l' (kv_chunk 2 30) (kv_chunk 2 40) = (Err (CacheCapacityExceeded 4 3), l').
Proof.
  destruct (layer_cache_is_log tiny_kv_config 2 3 F32 Cpu eq_refl) as [(l & Hl & Hr & _) Happ].
  assert (chunk_of 1 2 F32 Cpu 2 (kv_chunk 2 10, kv_chunk 2 20)) as Hc by (repeat split; reflexivity).
  specialize (Happ l [] 2 _ Hr Hc). revert Happ. cbn [fst snd app].
  injection Hl as <-. intros Happ. do 4 eexists. split; [reflexivity|].
  split; [vm_compute; reflexivity|]. split; [|split; vm_compute; reflexivity].
  revert Happ. vm_compute layer_append. intros (_ & H & _). exact H.
Defined.
