(* ===== verification/Kernels.v ===== *)
(** * Candle operations of the model

    The tensor operations the Llama code calls, with the shape rules and
    argument checks of the vendored [candle-core] and [candle-nn].  Data movement
    is defined outright; the numeric kernels (matrix products, normalisation,
    soft-max, rotary embedding, activation) are the class [Kernels]: each gives
    the elements of a result whose shape these definitions fix.  Nothing is
    assumed of them but the number of elements ([KernelLaws]). *)
From S2P Require Import Prelude Rank Packet Tensor Registry Cache.

(** The numeric kernels, on 32-bit patterns. *)
Class Kernels : Type := {
  linear_values : Tensor -> Tensor -> list f32;
  matmul_values : Tensor -> Tensor -> list f32;
  rms_norm_values : Tensor -> string -> Tensor -> list f32;
  rope_values : Tensor -> Tensor -> Tensor -> list f32;
  softmax_values : Tensor -> list f32;
  fsilu : f32 -> f32;
  fmul : f32 -> f32 -> f32;
  fdiv_sqrt : nat -> f32 -> f32;
  fcos : f32 -> f32;
  fsin : f32 -> f32;
  inverse_frequency : string -> nat -> nat -> f32;
  f32_of_nat : nat -> f32;
  convert : DType -> Tensor -> list f32 }.

Section Operations.
Context {FO : FloatOps} {KE : Kernels}.

(** The last dimension. *)
Definition last_dim (d : list nat) : option nat := d !! (length d - 1).

(** [Linear::forward] of a layer without bias: the weight is [[out, in]]. *)
Definition linear (weight x : Tensor) : cresult Tensor :=
  match dims weight, last_dim (dims x) with
  | [o; i], Some k =>
      if Nat.ltb (length (dims x)) 2 || negb (Nat.eqb i k) then candle_error "matmul"
      else Ok (mkTensor (device x) (dtype x) (<[length (dims x) - 1 := o]> (dims x))
                 (linear_values weight x))
  | _, _ => candle_error "matmul"
  end.

(** [Tensor::matmul] of batched matrices. *)
Definition matmul (t u : Tensor) : cresult Tensor :=
  match dims t, dims u with
  | [a; b; m; k], [a'; b'; k'; n] =>
      if Nat.eqb a a' && Nat.eqb b b' && Nat.eqb k k'
      then Ok (mkTensor (device t) (dtype t) [a; b; m; n] (matmul_values t u))
      else candle_error "matmul"
  | [m; k], [k'; n] =>
      if Nat.eqb k k' then Ok (mkTensor (device t) (dtype t) [m; n] (matmul_values t u))
      else candle_error "matmul"
  | _, _ => candle_error "matmul"
  end.

(** [RmsNorm::forward]. *)
Definition rms_norm (weight : Tensor) (eps : string) (x : Tensor) : cresult Tensor :=
  if bool_decide (last_dim (dims x) = last_dim (dims weight))
  then Ok (mkTensor (device x) (dtype x) (dims x) (rms_norm_values weight eps x))
  else candle_error "rms-norm".

(** [Embedding::forward]: rows of the table, by [u32] identifiers. *)
Definition U32_DTYPE : DType := OtherDType "U32".
Definition embedding (table ids : Tensor) : cresult Tensor :=
  match dims table with
  | [v; h] =>
      rows ← mapM (fun id => ok_or (blocks v h (elements table) !! N.to_nat id)
                                    (TensorError "index-select")) (elements ids);
      Ok (mkTensor (device table) (dtype table) (dims ids ++ [h]) (concat rows))
  | _ => candle_error "index-select"
  end.

(** Elementwise operations. *)
Definition unary (f : f32 -> f32) (t : Tensor) : Tensor :=
  mkTensor (device t) (dtype t) (dims t) (map f (elements t)).
Definition silu (t : Tensor) : cresult Tensor := Ok (unary fsilu t).
Definition mul (t u : Tensor) : cresult Tensor :=
  if bool_decide (dims t = dims u)
  then Ok (mkTensor (device t) (dtype t) (dims t) (zip_with fmul (elements t) (elements u)))
  else candle_error "mul".
Definition softmax_last_dim (t : Tensor) : cresult Tensor :=
  Ok (mkTensor (device t) (dtype t) (dims t) (softmax_values t)).

(** [Tensor::to_dtype]. *)
Definition to_dtype (dt : DType) (t : Tensor) : cresult Tensor :=
  if bool_decide (dtype t = dt) then Ok t
  else Ok (mkTensor (device t) dt (dims t) (convert dt t)).

(** [Tensor::transpose] of the adjacent axes [axis] and [axis + 1]. *)
Definition swap_dims (axis : nat) (d : list nat) : option (list nat) :=
  match d !! axis, d !! S axis with
  | Some m, Some n => Some (<[S axis := m]> (<[axis := n]> d))
  | _, _ => None
  end.
Definition transpose (t : Tensor) (axis : nat) : cresult Tensor :=
  match dims t !! axis, dims t !! S axis, swap_dims axis (dims t) with
  | Some m, Some n, Some d =>
      let w := inner (S axis) (dims t) in
      Ok (mkTensor (device t) (dtype t) d
            (concat (map (fun i => concat (map (fun j => concat (map (fun k =>
               slice (((i * m + k) * n + j) * w) w (elements t)) (seq 0 m))) (seq 0 n)))
               (seq 0 (outer axis (dims t))))))
  | _, _, _ => candle_error "transpose"
  end.

(** [rotary_emb::rope]. *)
Definition rope (t cos sin : Tensor) : cresult Tensor :=
  match dims t with
  | [_; _; s; d] =>
      if bool_decide (dims cos = [s; d / 2]) && bool_decide (dims sin = [s; d / 2])
      then Ok (mkTensor (device t) (dtype t) (dims t) (rope_values t cos sin))
      else candle_error "rope"
  | _ => candle_error "rope"
  end.

(** [unsqueeze(axis).expand(..)] with [repetitions] on the new axis. *)
Definition expand_at (t : Tensor) (axis repetitions : nat) : Tensor :=
  mkTensor (device t) (dtype t) (take axis (dims t) ++ repetitions :: drop axis (dims t))
    (concat (map (fun b => concat (replicate repetitions b))
       (blocks (product (take axis (dims t))) (product (drop axis (dims t))) (elements t)))).

(** [t.i((.., index, ..))]: one index of an axis, which disappears. *)
Definition index_axis (t : Tensor) (axis index : nat) : cresult Tensor :=
  u ← narrow t axis index 1;
  Ok (mkTensor (device u) (dtype u) (take axis (dims u) ++ drop (S axis) (dims u)) (elements u)).

End Operations.

(** A matrix product returns as many elements as its result has. *)
Class KernelLaws (K : Kernels) : Prop := {
  linear_law w x y : linear w x = Ok y -> tensor_wf y }.
