(* ===== verification/Llama.v ===== *)
(** * The Llama model and its pipeline stages

    Models [crates/runtime/src/model/llama.rs]: rotary tables, causal
    self-attention with grouped key/value heads, the gated MLP, transformer
    blocks, the whole model and a contiguous stage of it.  A forward pass threads
    the key/value cache; a failing pass drops it, as its callers do.  The cached
    weights of a [VarBuilder] are a function from names to tensors. *)
From S2P Require Import Prelude Rank Packet Tensor Registry Cache Kernels.

(** [VarBuilder::get], by full name. *)
Definition VarBuilder : Type := string -> list nat -> cresult Tensor.

Section Llama.
Context {FO : FloatOps} {KE : Kernels}.

(** ** Rotary embedding *)
Record RotaryEmbedding : Type := mkRope { rope_cos : Tensor; rope_sin : Tensor }.

(** [RotaryEmbedding::new]. *)
Definition rotary_new (config : ModelConfig) (capacity : nat) (dt : DType) : dresult RotaryEmbedding :=
  hd ← head_dim config;
  let hd := N.to_nat hd in
  let inverse_frequencies :=
    map (fun k => inverse_frequency (rope_theta config) (2 * k) hd) (seq 0 ((hd + 1) / 2)) in
  let theta := mkTensor Cpu F32 [length inverse_frequencies] inverse_frequencies in
  let positions := mkTensor Cpu F32 [capacity] (map f32_of_nat (seq 0 capacity)) in
  candle (positions ← reshape positions [capacity; 1];
          theta ← reshape theta [1; hd / 2];
          frequencies ← matmul positions theta;
          cos ← to_dtype dt (unary fcos frequencies);
          sin ← to_dtype dt (unary fsin frequencies);
          Ok (mkRope cos sin)).

(** [RotaryEmbedding::apply]. *)
Definition rotary_apply (self : RotaryEmbedding) (tensor : Tensor) (position : nat) : dresult Tensor :=
  candle (sequence ← dim tensor 2;
          cos ← narrow (rope_cos self) 0 position sequence;
          sin ← narrow (rope_sin self) 0 position sequence;
          rope tensor cos sin).

(** ** Attention *)
Record CausalSelfAttention : Type := mkAttention
  { q_proj : Tensor; k_proj : Tensor; v_proj : Tensor; o_proj : Tensor;
    attention_heads : nat; key_value_heads : nat; attention_head_dim : nat }.

(** [linear_no_bias], [embedding] and [rms_norm] of [candle-nn]: the named weight. *)
Definition linear_no_bias (input output : nat) (vb : VarBuilder) (name : string) : cresult Tensor :=
  vb (name +:+ ".weight") [output; input].
Definition embedding_table (rows width : nat) (vb : VarBuilder) (name : string) : cresult Tensor :=
  vb (name +:+ ".weight") [rows; width].
Definition norm_weight (width : nat) (vb : VarBuilder) (name : string) : cresult Tensor :=
  vb (name +:+ ".weight") [width].

(** [CausalSelfAttention::load]. *)
Definition attention_load (vb : VarBuilder) (prefix : string) (config : ModelConfig)
  : dresult CausalSelfAttention :=
  hd ← head_dim config;
  let h := N.to_nat (hidden_size config) in
  let kv_size := N.to_nat (num_key_value_heads config * hd) in
  candle (q ← linear_no_bias h h vb (prefix +:+ ".q_proj");
          k ← linear_no_bias h kv_size vb (prefix +:+ ".k_proj");
          v ← linear_no_bias h kv_size vb (prefix +:+ ".v_proj");
          o ← linear_no_bias h h vb (prefix +:+ ".o_proj");
          Ok (mkAttention q k v o (N.to_nat (num_attention_heads config))
                (N.to_nat (num_key_value_heads config)) (N.to_nat hd))).

(** [repeat_kv]. *)
Definition repeat_kv (tensor : Tensor) (repetitions : nat) : cresult Tensor :=
  if Nat.eqb repetitions 1 then Ok tensor
  else
    '(batch, kv_heads, sequence, hd) ← dims4 tensor;
    reshape (expand_at tensor 2 repetitions) [batch; kv_heads * repetitions; sequence; hd].

(** [f32::NEG_INFINITY]. *)
Definition NEG_INFINITY : f32 := 0xff800000%N.

(** The mask of [apply_causal_mask], row by row. *)
Definition causal_mask (position sequence : nat) : list bool :=
  flat_map (fun query => map (fun key => Nat.ltb (position + query) key)
                            (seq 0 (position + sequence))) (seq 0 sequence).

(** [apply_causal_mask]: the mask is broadcast over the leading dimensions. *)
Definition apply_causal_mask (scores : Tensor) (position sequence : nat) : cresult Tensor :=
  let key_length := position + sequence in
  match dims scores with
  | [b; q; s; t] =>
      if Nat.eqb s sequence && Nat.eqb t key_length
      then Ok (mkTensor (device scores) (dtype scores) (dims scores)
                 (zip_with (fun (m : bool) (x : f32) => if m then NEG_INFINITY else x)
                    (concat (replicate (b * q) (causal_mask position sequence))) (elements scores)))
      else candle_error "broadcast_as"
  | _ => candle_error "broadcast_as"
  end.

(** A projection to heads: [[B, S, H] -> [B, heads, S, D]]. *)
Definition project (weight input : Tensor) (batch sequence heads hd : nat) : cresult Tensor :=
  x ← linear weight input;
  x ← reshape x [batch; sequence; heads; hd];
  transpose x 1.

(** The attention of one forward pass after the cache was extended. *)
Definition attend (q k v input : Tensor) (repetitions hd position sequence : nat)
    (shape : list nat) : cresult Tensor :=
  k ← repeat_kv k repetitions;
  v ← repeat_kv v repetitions;
  q ← to_dtype F32 q;
  k ← to_dtype F32 k;
  v ← to_dtype F32 v;
  kt ← transpose k 2;
  scores ← matmul q kt;
  let scores := unary (fdiv_sqrt hd) scores in
  scores ← (if Nat.ltb 1 sequence then apply_causal_mask scores position sequence else Ok scores);
  probabilities ← softmax_last_dim scores;
  output ← matmul probabilities v;
  output ← to_dtype (dtype input) output;
  output ← transpose output 1;
  reshape output shape.

(** [CausalSelfAttention::forward]. *)
Definition attention_forward (self : CausalSelfAttention) (input : Tensor) (position layer : nat)
    (rope : RotaryEmbedding) (cache : KvCache) : dresult (Tensor * KvCache) :=
  '(batch, sequence, hidden) ← candle (dims3 input);
  let hd := attention_head_dim self in
  q ← candle (project (q_proj self) input batch sequence (attention_heads self) hd);
  k ← candle (project (k_proj self) input batch sequence (key_value_heads self) hd);
  v ← candle (project (v_proj self) input batch sequence (key_value_heads self) hd);
  q ← rotary_apply rope q position;
  k ← rotary_apply rope k position;
  let (r, cache) := cache_append cache layer k v in
  '(k, v) ← r;
  output ← candle (attend q k v input (attention_heads self / key_value_heads self) hd position
                     sequence [batch; sequence; hidden]);
  result ← candle (linear (o_proj self) output);
  Ok (result, cache).

(** ** MLP and block *)
Record Mlp : Type := mkMlp { gate_proj : Tensor; up_proj : Tensor; down_proj : Tensor }.

Definition mlp_load (vb : VarBuilder) (prefix : string) (config : ModelConfig) : dresult Mlp :=
  let h := N.to_nat (hidden_size config) in
  let i := N.to_nat (intermediate_size config) in
  candle (gate ← linear_no_bias h i vb (prefix +:+ ".gate_proj");
          up ← linear_no_bias h i vb (prefix +:+ ".up_proj");
          down ← linear_no_bias i h vb (prefix +:+ ".down_proj");
          Ok (mkMlp gate up down)).

Definition mlp_forward (self : Mlp) (input : Tensor) : dresult Tensor :=
  candle (gate ← linear (gate_proj self) input;
          gated ← silu gate;
          up ← linear (up_proj self) input;
          x ← mul gated up;
          linear (down_proj self) x).

Record Block : Type := mkBlock
  { input_norm : Tensor; attention : CausalSelfAttention; post_attention_norm : Tensor;
    mlp : Mlp; block_eps : string }.

Definition block_load (vb : VarBuilder) (index : nat) (config : ModelConfig) : dresult Block :=
  let prefix := "model.layers." +:+ pretty index in
  let h := N.to_nat (hidden_size config) in
  input_norm ← candle (norm_weight h vb (prefix +:+ ".input_layernorm"));
  attention ← attention_load vb (prefix +:+ ".self_attn") config;
  post_norm ← candle (norm_weight h vb (prefix +:+ ".post_attention_layernorm"));
  mlp ← mlp_load vb (prefix +:+ ".mlp") config;
  Ok (mkBlock input_norm attention post_norm mlp (rms_norm_eps config)).

(** [Block::forward]. *)
Definition block_forward (self : Block) (input : Tensor) (position layer : nat)
    (rope : RotaryEmbedding) (cache : KvCache) : dresult (Tensor * KvCache) :=
  normed ← candle (rms_norm (input_norm self) (block_eps self) input);
  '(att, cache) ← attention_forward (attention self) normed position layer rope cache;
  hidden ← candle (add input att);
  normed ← candle (rms_norm (post_attention_norm self) (block_eps self) hidden);
  m ← mlp_forward (mlp self) normed;
  result ← candle (add hidden m);
  Ok (result, cache).

(** The loops over blocks of [Llama::forward] and [LlamaStage::forward_hidden]. *)
Fixpoint forward_blocks (blocks : list Block) (layer : nat) (hidden : Tensor) (position : nat)
    (rope : RotaryEmbedding) (cache : KvCache) : dresult (Tensor * KvCache) :=
  match blocks with
  | [] => Ok (hidden, cache)
  | block :: blocks =>
      '(hidden, cache) ← block_forward block hidden position layer rope cache;
      forward_blocks blocks (S layer) hidden position rope cache
  end.

(** ** The whole model *)
Record Llama : Type := mkLlama
  { embeddings : Tensor; blocks : list Block; final_norm : Tensor; norm_eps : string;
    lm_head : Tensor; model_rope : RotaryEmbedding }.

(** [Llama::load]. *)
Definition llama_load (vb : VarBuilder) (dt : DType) (config : ModelConfig) (capacity : nat)
  : dresult Llama :=
  let v := N.to_nat (vocab_size config) in
  let h := N.to_nat (hidden_size config) in
  table ← candle (embedding_table v h vb "model.embed_tokens");
  head ← (if tie_word_embeddings config then Ok table else candle (linear_no_bias h v vb "lm_head"));
  blocks ← mapM (fun index => block_load vb index config) (seq 0 (N.to_nat (num_hidden_layers config)));
  norm ← candle (norm_weight h vb "model.norm");
  rope ← rotary_new config capacity dt;
  Ok (mkLlama table blocks norm (rms_norm_eps config) head rope).

(** The tail of [Llama::forward] and [LlamaStage::finish]: the logits of the last position. *)
Definition last_logits (norm : Tensor) (eps : string) (head hidden : Tensor) (sequence : nat)
  : cresult Tensor :=
  hidden ← rms_norm norm eps hidden;
  last ← index_axis hidden 1 (sequence - 1);
  logits ← linear head last;
  to_dtype F32 logits.

(** [Llama::forward]. *)
Definition llama_forward (self : Llama) (token_ids : Tensor) (position : nat) (cache : KvCache)
  : dresult (Tensor * KvCache) :=
  '(batch, sequence) ← candle (dims2 token_ids);
  _ ← reject_if (negb (Nat.eqb batch 1))
    (InvalidConfig ("v0.1 requires batch size one, received " +:+ pretty batch));
  _ ← reject_if (Nat.eqb sequence 0)
    (InvalidConfig "a model forward pass requires at least one token");
  _ ← reject_if (negb (Nat.eqb position (cache_len cache)))
    (InvalidConfig ("forward position " +:+ pretty position +:+ " does not match cache length "
                      +:+ pretty (cache_len cache)));
  _ ← reject_if (Nat.ltb (cache_capacity cache) (position + sequence))
    (CacheCapacityExceeded (N.of_nat (position + sequence)) (N.of_nat (cache_capacity cache)));
  hidden ← candle (embedding (embeddings self) token_ids);
  '(hidden, cache) ← forward_blocks (blocks self) 0 hidden position (model_rope self) cache;
  logits ← candle (last_logits (final_norm self) (norm_eps self) (lm_head self) hidden sequence);
  Ok (logits, cache).

(** ** Pipeline stages *)
Record LlamaStage : Type := mkLlamaStage
  { stage_start : nat; stage_end : nat; stage_embeddings : option Tensor;
    stage_blocks : list Block; stage_norm : option Tensor; stage_eps : string;
    stage_head : option Tensor; stage_rope : RotaryEmbedding }.

(** [bool::then(..).transpose()?]. *)
Definition when {A} (c : bool) (m : dresult A) : dresult (option A) :=
  if c then x ← m; Ok (Some x) else Ok None.

(** [LlamaStage::load]. *)
Definition stage_load (vb : VarBuilder) (dt : DType) (config : ModelConfig) (layer_start layer_end : nat)
    (first_stage final_stage : bool) (capacity : nat) : dresult LlamaStage :=
  let v := N.to_nat (vocab_size config) in
  let h := N.to_nat (hidden_size config) in
  _ ← reject_if (Nat.leb layer_end layer_start
                 || (num_hidden_layers config <? N.of_nat layer_end)%N)
    (InvalidConfig ("stage layer range " +:+ pretty layer_start +:+ ".." +:+ pretty layer_end
       +:+ " is outside 0.." +:+ pretty (num_hidden_layers config)));
  table ← when first_stage (candle (embedding_table v h vb "model.embed_tokens"));
  blocks ← mapM (fun index => block_load vb index config) (seq layer_start (layer_end - layer_start));
  norm ← when final_stage (candle (norm_weight h vb "model.norm"));
  head ← when final_stage
    (candle (if tie_word_embeddings config then embedding_table v h vb "model.embed_tokens"
             else linear_no_bias h v vb "lm_head"));
  rope ← rotary_new config capacity dt;
  Ok (mkLlamaStage layer_start layer_end table blocks norm (rms_norm_eps config) head rope).

(** [LlamaStage::forward_hidden]; the observer is in [PipelineEvents.v]. *)
Definition forward_hidden (self : LlamaStage) (hidden : Tensor) (position : nat) (cache : KvCache)
  : dresult (Tensor * KvCache) :=
  '(batch, sequence, _) ← candle (dims3 hidden);
  _ ← reject_if (negb (Nat.eqb batch 1) || Nat.eqb sequence 0)
    (InvalidConfig ("pipeline activation must have shape [1,S,H] with S>0, got " +:+ debug_dims (dims hidden)));
  _ ← reject_if (negb (Nat.eqb (cache_layer_count cache) (length (stage_blocks self))))
    (InvalidConfig ("stage has " +:+ pretty (length (stage_blocks self)) +:+ " blocks but cache has "
                      +:+ pretty (cache_layer_count cache) +:+ " layers"));
  _ ← reject_if (negb (Nat.eqb position (cache_len cache)))
    (InvalidConfig ("forward position " +:+ pretty position +:+ " does not match cache length "
                      +:+ pretty (cache_len cache)));
  _ ← reject_if (Nat.ltb (cache_capacity cache) (position + sequence))
    (CacheCapacityExceeded (N.of_nat (position + sequence)) (N.of_nat (cache_capacity cache)));
  forward_blocks (stage_blocks self) 0 hidden position (stage_rope self) cache.

(** [LlamaStage::forward_tokens]. *)
Definition forward_tokens (self : LlamaStage) (token_ids : Tensor) (position : nat) (cache : KvCache)
  : dresult (Tensor * KvCache) :=
  table ← ok_or (stage_embeddings self)
    (InvalidConfig "only the first pipeline stage accepts token IDs");
  '(batch, sequence) ← candle (dims2 token_ids);
  _ ← reject_if (negb (Nat.eqb batch 1) || Nat.eqb sequence 0)
    (InvalidConfig ("pipeline token input must have shape [1,S] with S>0, got " +:+ debug_dims (dims token_ids)));
  hidden ← candle (embedding table token_ids);
  forward_hidden self hidden position cache.

(** [LlamaStage::finish]; a stage with a norm has a head. *)
Definition finish (self : LlamaStage) (hidden : Tensor) : dresult Tensor :=
  norm ← ok_or (stage_norm self)
    (InvalidConfig "only the final pipeline stage produces logits");
  head ← ok_or (stage_head self) (InvalidConfig "final stage has LM head");
  '(_, sequence, _) ← candle (dims3 hidden);
  _ ← reject_if (Nat.eqb sequence 0)
    (InvalidConfig "final pipeline activation has zero sequence length");
  candle (last_logits norm (stage_eps self) head hidden sequence).
End Llama.

(** ** Causality *)

Lemma lookup_blocks {A} (f : nat -> list A) n w i j :
  (forall k, k < n -> length (f k) = w) -> i < n -> j < w ->
  concat (map f (seq 0 n)) !! (i * w + j) = f i !! j.
Proof.
  intros Hl Hi Hj. revert i Hi. assert (forall a i, i < n - a -> a + i < n ->
    concat (map f (seq a (n - a))) !! (i * w + j) = f (a + i) !! j) as H.
  2: { intros i Hi. rewrite <- (Nat.sub_0_r n) at 1. apply (H 0 i); lia. }
  intros a. remember (n - a) as m eqn:Em. revert a Em. induction m as [|m IH]; intros a Em i Him Hai; [lia|].
  cbn [seq map concat]. destruct i as [|i].
  - rewrite Nat.add_0_r, lookup_app_l; [done|]. rewrite Hl by lia. lia.
  - rewrite lookup_app_r by (rewrite Hl by lia; lia). rewrite Hl by lia.
    replace (S i * w + j - w) with (i * w + j) by lia. rewrite IH by lia. f_equal. f_equal. lia.
Qed.

Lemma replicate_seq {A} (x : A) n a : replicate n x = map (fun _ => x) (seq a n).
Proof. revert a. induction n as [|n IH]; intros a; cbn; [done|]. f_equal. apply IH. Qed.

Lemma causal_mask_lookup position sequence row key :
  row < sequence -> key < position + sequence ->
  causal_mask position sequence !! (row * (position + sequence) + key)
  = Some (Nat.ltb (position + row) key).
Proof.
  intros Hr Hk. unfold causal_mask. rewrite flat_map_concat_map.
  rewrite (lookup_blocks _ sequence (position + sequence)) by (try (intros; rewrite length_map, length_seq); done).
  rewrite list_lookup_fmap, lookup_seq_lt by done. done.
Qed.

Lemma causal_mask_length position sequence :
  length (causal_mask position sequence) = sequence * (position + sequence).
Proof.
  unfold causal_mask. transitivity (length (seq 0 sequence) * (position + sequence)); [|by rewrite length_seq].
  generalize (seq 0 sequence) as l. induction l as [|x l IH]; cbn [flat_map length Nat.mul]; [done|].
  rewrite length_app, length_map, length_seq, IH. done.
Qed.

(** Attention is causal: after masking, the score of a query at position
    [position + row] for a key is minus infinity when the key lies behind that
    position and unchanged otherwise, in every batch and head. *)
Theorem causal_mask_correct scores position sequence b q masked :
  dims scores = [b; q; sequence; position + sequence] ->
  apply_causal_mask scores position sequence = Ok masked ->
  dims masked = dims scores /\
  forall i row key x, i < b * q -> row < sequence -> key < position + sequence ->
    let index := i * (sequence * (position + sequence)) + (row * (position + sequence) + key) in
    elements scores !! index = Some x ->
    elements masked !! index = Some (if Nat.ltb (position + row) key then NEG_INFINITY else x).
Proof.
  intros Hd H. unfold apply_causal_mask in H. rewrite Hd, !Nat.eqb_refl in H. cbn [andb] in H.
  injection H as <-. split; [done|]. intros i row key x Hi Hr Hk index Hx. cbn [elements].
  apply lookup_zip_with_Some. exists (Nat.ltb (position + row) key), x. split; [done|]. split; [|done].
  unfold index. rewrite (replicate_seq _ _ 0), lookup_blocks; [by apply causal_mask_lookup|intros; apply causal_mask_length|done|nia].
Qed.

Lemma causal_mask_correct_witness :
  exists masked, apply_causal_mask (mkTensor Cpu F32 [1; 1; 2; 3] [10; 11; 12; 13; 14; 15]%N) 1 2 = Ok masked /\
    elements masked !! 2 = Some NEG_INFINITY /\ elements masked !! 5 = Some 15%N.
Proof.
  eexists. split; [reflexivity|]. split; [|reflexivity].
  refine (proj2 (causal_mask_correct (mkTensor Cpu F32 [1; 1; 2; 3] [10; 11; 12; 13; 14; 15]%N) 1 2 1 1 _
    eq_refl eq_refl) 0 0 2 12%N _ _ _ eq_refl); vm_compute; lia.
Defined.
