(* ===== verification/LlamaStage.v ===== *)
(** * Stages compose to the model

    A forward pass through consecutive stages, each with the key/value cache of
    its own layers, is the forward pass of the whole model
    ([crates/runtime/src/model/llama.rs]). *)
From S2P Require Import Prelude Rank Packet Tensor Registry Cache Kernels Llama.

Lemma result_bind_assoc {E A B C} (m : result E A) (f : A -> result E B) (g : B -> result E C) :
  ((m ≫= f) ≫= g) = (m ≫= fun x => f x ≫= g).
Proof. by destruct m. Qed.

Lemma Ok_bind {E A B} (a : A) (f : A -> result E B) : (Ok a ≫= f) = f a.
Proof. done. Qed.

(** [same_head]: two computations that start with the same call. *)
Ltac same_head :=
  rewrite ?result_bind_assoc;
  match goal with |- mbind _ ?m = mbind _ ?m =>
    destruct m as [?|?]; [rewrite ?Ok_bind|reflexivity] end;
  repeat match goal with x : prod _ _ |- _ => destruct x end; cbn beta iota;
  rewrite ?result_bind_assoc, ?Ok_bind; cbn beta iota.

Section Compose.
Context {FO : FloatOps} {KE : Kernels}.

(** ** Layers one by one *)

(** A block applied to the cache of its own layer. *)
Definition layer_step (b : Block) (h : Tensor) (position : nat) (rope : RotaryEmbedding)
    (l : LayerKvCache) : dresult (Tensor * LayerKvCache) :=
  normed ← candle (rms_norm (input_norm b) (block_eps b) h);
  let a := attention b in
  '(batch, sequence, hidden) ← candle (dims3 normed);
  q ← candle (project (q_proj a) normed batch sequence (attention_heads a) (attention_head_dim a));
  k ← candle (project (k_proj a) normed batch sequence (key_value_heads a) (attention_head_dim a));
  v ← candle (project (v_proj a) normed batch sequence (key_value_heads a) (attention_head_dim a));
  q ← rotary_apply rope q position;
  k ← rotary_apply rope k position;
  let (r, l) := layer_append l k v in
  '(k, v) ← r;
  output ← candle (attend q k v normed (attention_heads a / key_value_heads a)
                     (attention_head_dim a) position sequence [batch; sequence; hidden]);
  att ← candle (linear (o_proj a) output);
  hidden ← candle (add h att);
  normed ← candle (rms_norm (post_attention_norm b) (block_eps b) hidden);
  m ← mlp_forward (mlp b) normed;
  result ← candle (add hidden m);
  Ok (result, l).

Lemma block_forward_local b h position layer rope ls cap l :
  ls !! layer = Some l ->
  block_forward b h position layer rope (mkCache ls cap)
  = '(r, l) ← layer_step b h position rope l; Ok (r, mkCache (<[layer := l]> ls) cap).
Proof.
  intros Hl. unfold block_forward, attention_forward, layer_step, cache_append.
  cbn [layers cache_capacity]. rewrite Hl. repeat same_head.
  destruct (layer_append l _ _) as [r l']. repeat same_head. done.
Qed.

(** Blocks applied in order, each to its own layer's cache. *)
Fixpoint run_layers (bs : list Block) (ls : list LayerKvCache) (h : Tensor) (position : nat)
    (rope : RotaryEmbedding) : dresult (Tensor * list LayerKvCache) :=
  match bs, ls with
  | b :: bs, l :: ls =>
      '(h, l) ← layer_step b h position rope l;
      '(h, ls) ← run_layers bs ls h position rope;
      Ok (h, l :: ls)
  | _, _ => Ok (h, ls)
  end.

Lemma forward_blocks_layers bs pre ls h position rope cap :
  length bs = length ls ->
  forward_blocks bs (length pre) h position rope (mkCache (pre ++ ls) cap)
  = '(h, ls) ← run_layers bs ls h position rope; Ok (h, mkCache (pre ++ ls) cap).
Proof.
  revert pre ls h. induction bs as [|b bs IH]; intros pre [|l ls] h Hl; try done.
  cbn [forward_blocks run_layers].
  rewrite (block_forward_local b h position (length pre) rope (pre ++ l :: ls) cap l)
    by apply list_lookup_middle, eq_refl.
  repeat same_head. rewrite insert_app_r_alt, Nat.sub_diag by done. cbn [insert list_insert].
  specialize (IH (pre ++ [l0]) ls t ltac:(by injection Hl)). rewrite length_app in IH. cbn in IH.
  rewrite Nat.add_1_r, <- app_assoc in IH. cbn [app] in IH. rewrite IH.
  repeat same_head. by rewrite <- app_assoc.
Qed.

Lemma run_layers_app b1 b2 l1 l2 h position rope :
  length b1 = length l1 ->
  run_layers (b1 ++ b2) (l1 ++ l2) h position rope
  = '(h, l1) ← run_layers b1 l1 h position rope;
    '(h, l2) ← run_layers b2 l2 h position rope;
    Ok (h, l1 ++ l2).
Proof.
  revert l1 h. induction b1 as [|b b1 IH]; intros [|l l1] h Hl; try done; cbn [run_layers app].
  - rewrite Ok_bind. by destruct (run_layers b2 l2 h position rope) as [[]|].
  - repeat same_head. rewrite IH by (by injection Hl). repeat same_head. done.
Qed.

(** ** Shapes *)

Lemma candle_Ok {A} (m : cresult A) a : candle m = Ok a <-> m = Ok a.
Proof. apply map_err_Ok. Qed.

Lemma add_same t u v : add t u = Ok v ->
  dims v = dims t /\ device v = device t /\ dtype v = dtype t /\ dims u = dims t /\
  elements v = zip_with fadd (elements t) (elements u).
Proof.
  unfold add. case_bool_decide as E; [|done]. do 2 (case_bool_decide; [|done]).
  intros [= <-]. cbn. by rewrite E.
Qed.

Lemma project_dims w x b s hs d y : project w x b s hs d = Ok y -> dims y = [b; hs; s; d].
Proof.
  unfold project. intros H. apply bind_Ok in H as (z & _ & H). apply bind_Ok in H as (u & Hu & H).
  unfold reshape in Hu. destruct (Nat.eqb _ _); [|done]. injection Hu as <-.
  unfold transpose in H. cbn [dims] in H. by injection H as <-.
Qed.

Lemma rotary_apply_dims r t p u : rotary_apply r t p = Ok u -> dims u = dims t.
Proof.
  unfold rotary_apply. intros H%candle_Ok. apply bind_Ok in H as (? & _ & H).
  apply bind_Ok in H as (? & _ & H). apply bind_Ok in H as (? & _ & H). unfold rope in H.
  destruct (dims t) as [|? [|? [|? [|? []]]]] eqn:E; try done.
  destruct (_ && _); [|done]. by injection H as <-.
Qed.

Lemma layer_append_length l k v r l' a b s d :
  layer_append l k v = (Ok r, l') -> dims k = [a; b; s; d] ->
  layer_length l' = layer_length l + s /\ layer_capacity l' = layer_capacity l.
Proof.
  unfold layer_append. intros H Hk. destruct (bool_decide _); [|done]. cbn [negb] in H.
  unfold dims4 in H. rewrite Hk in H. cbv zeta in H. destruct (Nat.ltb _ _); [done|].
  destruct (slice_set _ _ _ _); [|done]. destruct (slice_set _ _ _ _); [|done].
  by injection H as _ <-.
Qed.

Lemma layer_step_shape b h position rope l h' l' a s w :
  layer_step b h position rope l = Ok (h', l') -> dims h = [a; s; w] ->
  dims h' = dims h /\ device h' = device h /\ dtype h' = dtype h /\
  layer_length l' = layer_length l + s /\ layer_capacity l' = layer_capacity l.
Proof.
  unfold layer_step. intros H Hh.
  apply bind_Ok in H as (n & Hn%candle_Ok & H).
  assert (dims n = dims h) as Hdn by (unfold rms_norm in Hn; case_bool_decide; [by injection Hn as <-|done]).
  unfold dims3 in H. rewrite Hdn, Hh in H. cbn [candle map_err mbind result_bind] in H.
  apply bind_Ok in H as (q & _ & H). apply bind_Ok in H as (k & Hk%candle_Ok%project_dims & H).
  apply bind_Ok in H as (v & _ & H). apply bind_Ok in H as (q' & _ & H).
  apply bind_Ok in H as (k' & Hk'%rotary_apply_dims & H). rewrite Hk in Hk'.
  destruct (layer_append l k' v) as [r l1] eqn:Ha. apply bind_Ok in H as ([k1 v1] & -> & H).
  destruct (layer_append_length _ _ _ _ _ _ _ _ _ Ha Hk') as [Hlen Hcap].
  apply bind_Ok in H as (? & _ & H). apply bind_Ok in H as (? & _ & H).
  apply bind_Ok in H as (h1 & (Hd1 & Hv1 & Ht1 & _)%candle_Ok%add_same & H).
  apply bind_Ok in H as (? & _ & H). apply bind_Ok in H as (? & _ & H).
  apply bind_Ok in H as (h2 & (Hd2 & Hv2 & Ht2 & _)%candle_Ok%add_same & H).
  apply Ok_inj, pair_equal_spec in H as [-> ->]. split_and!; congruence.
Qed.

(** Every layer is advanced by the positions of the input. *)
Definition advanced (s : nat) (l l' : LayerKvCache) : Prop :=
  layer_length l' = layer_length l + s /\ layer_capacity l' = layer_capacity l.

Lemma run_layers_shape bs ls h position rope h' ls' a s w :
  run_layers bs ls h position rope = Ok (h', ls') -> length bs = length ls -> dims h = [a; s; w] ->
  dims h' = dims h /\ device h' = device h /\ dtype h' = dtype h /\ Forall2 (advanced s) ls ls'.
Proof.
  revert ls h ls'. induction bs as [|b bs IH]; intros [|l ls] h ls' H Hl Hh; try done; cbn [run_layers] in H.
  - injection H as <- <-. split_and!; [done..|constructor].
  - apply bind_Ok in H as ([h1 l1] & Hs & H). apply bind_Ok in H as ([h2 ls2] & Hr & H).
    apply Ok_inj, pair_equal_spec in H as [-> <-].
    destruct (layer_step_shape _ _ _ _ _ _ _ _ _ _ Hs Hh) as (Hd & Hv & Ht & Hla).
    destruct (IH ls h1 ls2 Hr ltac:(by injection Hl) ltac:(congruence)) as (? & ? & ? & ?).
    split_and!; [congruence..|]. by constructor.
Qed.

(** ** Consecutive layer ranges *)

(** The ranges are consecutive, not empty, and cover [a..l]. *)
Fixpoint tiles (a : nat) (ranges : list (nat * nat)) (l : nat) : Prop :=
  match ranges with
  | [] => a = l
  | (s, e) :: ranges => s = a /\ s < e /\ tiles e ranges l
  end.

Definition part {A} (l : list A) (range : nat * nat) : list A := slice range.1 (range.2 - range.1) l.

Lemma tiles_le a ranges l : tiles a ranges l -> a <= l.
Proof.
  revert a. induction ranges as [|[s e] ranges IH]; intros a H; cbn in H; [lia|].
  destruct H as (-> & ? & H%IH). lia.
Qed.

Lemma tiles_elem a ranges l s e : tiles a ranges l -> (s, e) ∈ ranges -> s < e /\ e <= l.
Proof.
  revert a. induction ranges as [|[s' e'] ranges IH]; intros a H Hin; [by apply elem_of_nil in Hin|].
  cbn in H. destruct H as (_ & Hlt & H). apply elem_of_cons in Hin as [[= -> ->]|Hin]; [|by eapply IH].
  split; [done|by eapply tiles_le].
Qed.

Lemma concat_parts {A} (l : list A) a ranges :
  tiles a ranges (length l) -> concat (map (part l) ranges) = drop a l.
Proof.
  revert a. induction ranges as [|[s e] ranges IH]; intros a H; cbn in H |- *.
  - subst. by rewrite drop_ge.
  - destruct H as (-> & Hlt & H). rewrite (IH e H). unfold part, slice; cbn.
    rewrite <- (take_drop (e - a) (drop a l)) at 2. rewrite drop_drop.
    by replace (a + (e - a)) with e by lia.
Qed.

Lemma part_length {A} (l : list A) a ranges :
  tiles a ranges (length l) -> Forall (fun r => length (part l r) = r.2 - r.1 /\ r.1 < r.2) ranges.
Proof.
  revert a. induction ranges as [|[s e] ranges IH]; intros a H; cbn in H; constructor.
  - destruct H as (-> & Hlt & H%tiles_le). cbn. split; [|done]. apply slice_length. lia.
  - destruct H as (_ & _ & H). by eapply IH.
Qed.

(** The stages' caches: each holds its own layers. *)
Definition split_cache (ranges : list (nat * nat)) (cache : KvCache) : list KvCache :=
  map (fun r => mkCache (part (layers cache) r) (cache_capacity cache)) ranges.

(** Every layer of a cache holds the same number of positions. *)
Definition uniform (cache : KvCache) (n : nat) : Prop :=
  layers cache <> [] /\ Forall (fun l => layer_length l = n) (layers cache).

(** ** A pass through the stages *)
Fixpoint stage_pass (stages : list LlamaStage) (caches : list KvCache) (hidden : Tensor)
    (position : nat) : dresult (Tensor * list KvCache) :=
  match stages, caches with
  | stage :: stages, cache :: caches =>
      '(hidden, cache) ← forward_hidden stage hidden position cache;
      '(hidden, caches) ← stage_pass stages caches hidden position;
      Ok (hidden, cache :: caches)
  | _, _ => Ok (hidden, [])
  end.

(** Tokens enter the first stage, logits leave the last. *)
Definition pipeline_forward (stages : list LlamaStage) (caches : list KvCache) (token_ids : Tensor)
    (position : nat) : dresult (Tensor * list KvCache) :=
  match stages, caches with
  | first :: rest, cache :: caches =>
      '(hidden, cache) ← forward_tokens first token_ids position cache;
      '(hidden, caches) ← stage_pass rest caches hidden position;
      logits ← finish (List.last rest first) hidden;
      Ok (logits, cache :: caches)
  | _, _ => Err (InvalidConfig "no stage")
  end.

(** A stage's blocks on its own layers. *)
Lemma forward_hidden_layers st h position ls cap s w :
  dims h = [1; s; w] -> s <> 0 -> length (stage_blocks st) = length ls -> ls <> [] ->
  Forall (fun l => layer_length l = position) ls -> position + s <= cap ->
  forward_hidden st h position (mkCache ls cap)
  = '(h, ls) ← run_layers (stage_blocks st) ls h position (stage_rope st); Ok (h, mkCache ls cap).
Proof.
  intros Hh Hs Hl Hne Hu Hcap. unfold forward_hidden, dims3. rewrite Hh.
  cbn [candle map_err]. rewrite Ok_bind. cbn beta iota.
  rewrite (proj2 (Nat.eqb_neq s 0) Hs). cbn [Nat.eqb negb orb reject_if]. rewrite Ok_bind.
  unfold cache_layer_count, cache_len. cbn [layers cache_capacity]. rewrite Hl, Nat.eqb_refl.
  cbn [negb reject_if]. rewrite Ok_bind.
  destruct ls as [|l ls]; [done|]. inversion Hu as [|? ? Hl0 _]; subst.
  rewrite Nat.eqb_refl. cbn [negb reject_if]. rewrite Ok_bind.
  destruct (Nat.ltb_spec cap (layer_length l + s)); [lia|]. cbn [reject_if]. rewrite Ok_bind.
  by apply (forward_blocks_layers (stage_blocks st) []).
Qed.

(** The stages after the first, as one run over their layers. *)
Lemma stage_pass_layers rope position s w cap stages lss h :
  Forall (fun st => stage_rope st = rope) stages ->
  Forall2 (fun st ls => length (stage_blocks st) = length ls /\ ls <> [] /\
             Forall (fun l => layer_length l = position) ls) stages lss ->
  dims h = [1; s; w] -> s <> 0 -> position + s <= cap ->
  match run_layers (concat (map stage_blocks stages)) (concat lss) h position rope with
  | Ok (h', ls') => exists lss',
      stage_pass stages (map (fun ls => mkCache ls cap) lss) h position
        = Ok (h', map (fun ls => mkCache ls cap) lss') /\
      concat lss' = ls' /\ Forall2 (fun a b => length a = length b) lss lss'
  | Err _ => is_ok (stage_pass stages (map (fun ls => mkCache ls cap) lss) h position) = false
  end.
Proof.
  intros Hr HF. revert h. induction HF as [|st ls stages lss (Hl & Hne & Hu) _ IH]; intros h Hh Hs Hcap.
  - exists []. split_and!; [done..|constructor].
  - inversion Hr as [|? ? Hr1 Hr2]; subst. cbn [map concat stage_pass].
    rewrite (forward_hidden_layers st h position ls cap s w) by done.
    rewrite run_layers_app by done.
    destruct (run_layers (stage_blocks st) ls h position (stage_rope st)) as [[h1 ls1]|e] eqn:E; [|done].
    rewrite !Ok_bind. cbn beta iota.
    destruct (run_layers_shape _ _ _ _ _ _ _ _ _ _ E Hl Hh) as (Hd & _ & _ & Hadv).
    specialize (IH Hr2 h1 ltac:(congruence) Hs Hcap).
    destruct (run_layers _ (concat lss) h1 position _) as [[h2 ls2]|e] eqn:E2; rewrite ?Ok_bind.
    + destruct IH as (lss' & -> & Hc & HF'). rewrite Ok_bind. cbn beta iota.
      exists (ls1 :: lss'). cbn [map concat]. split_and!; [done|by rewrite Hc|].
      constructor; [by eapply Forall2_length|done].
    + destruct (stage_pass _ _ _ _); [done|]. done.
Qed.

(** ** The composition theorem *)

(** Stage [(s, e)] of a loaded model. *)
Definition stage_part (model : Llama) (total : nat) (r : nat * nat) : LlamaStage :=
  let first := Nat.eqb r.1 0 in
  let final := Nat.eqb r.2 total in
  mkLlamaStage r.1 r.2 (if first then Some (embeddings model) else None) (part (blocks model) r)
    (if final then Some (final_norm model) else None) (norm_eps model)
    (if final then Some (lm_head model) else None) (model_rope model).

Lemma mapM_part {A} (f : nat -> dresult A) n l s e :
  mapM f (seq 0 n) = Ok l -> e <= n -> mapM f (seq s (e - s)) = Ok (part l (s, e)).
Proof.
  intros Hl%mapM_Forall2 He. unfold part, slice; cbn [fst snd].
  assert (Forall2 (fun a b => f a = Ok b) (seq s (e - s)) (take (e - s) (drop s l))) as HF.
  { destruct (decide (s <= e)) as [Hs|Hs].
    - apply (Forall2_drop _ _ _ s), (Forall2_take _ _ _ (e - s)) in Hl.
      replace (take (e - s) (drop s (seq 0 n))) with (seq s (e - s)) in Hl; [done|].
      rewrite drop_seq, take_seq. f_equal; lia.
    - replace (e - s) with 0 by lia. constructor. }
  clear Hl. induction HF as [|a b la lb Hab _ IH]; cbn; [done|]. rewrite Hab. cbn. by rewrite IH.
Qed.

Lemma llama_load_blocks vb dt config cap model :
  llama_load vb dt config cap = Ok model ->
  mapM (fun index => block_load vb index config) (seq 0 (N.to_nat (num_hidden_layers config)))
    = Ok (blocks model) /\ length (blocks model) = N.to_nat (num_hidden_layers config).
Proof.
  intros H. unfold llama_load in H. apply bind_Ok in H as (? & _ & H). apply bind_Ok in H as (? & _ & H).
  apply bind_Ok in H as (bs & Hb & H). apply bind_Ok in H as (? & _ & H). apply bind_Ok in H as (? & _ & H).
  injection H as <-. cbn [blocks]. split; [done|].
  apply mapM_Forall2, Forall2_length in Hb. by rewrite length_seq in Hb.
Qed.

(** Loading a stage from the same weights gives that part of the model. *)
Lemma stage_load_part vb dt config cap model s e :
  llama_load vb dt config cap = Ok model ->
  s < e -> e <= N.to_nat (num_hidden_layers config) ->
  stage_load vb dt config s e (Nat.eqb s 0) (Nat.eqb e (N.to_nat (num_hidden_layers config))) cap
  = Ok (stage_part model (N.to_nat (num_hidden_layers config)) (s, e)).
Proof.
  intros H Hs He. pose proof (llama_load_blocks _ _ _ _ _ H) as [Hb _].
  unfold llama_load in H. apply bind_Ok in H as (table & Ht & H). apply bind_Ok in H as (head & Hh & H).
  apply bind_Ok in H as (bs & Hbs & H). apply bind_Ok in H as (norm & Hn & H).
  apply bind_Ok in H as (rope & Hr & H). injection H as <-. cbn [blocks] in Hb.
  unfold stage_load. destruct (Nat.leb_spec e s); [lia|].
  destruct (N.ltb_spec (num_hidden_layers config) (N.of_nat e)); [lia|]. cbn [orb reject_if].
  rewrite Ok_bind, Ht. rewrite (mapM_part _ _ _ s e Hb He), Hn, Hr.
  assert (candle (if tie_word_embeddings config
    then embedding_table (N.to_nat (vocab_size config)) (N.to_nat (hidden_size config)) vb "model.embed_tokens"
    else linear_no_bias (N.to_nat (hidden_size config)) (N.to_nat (vocab_size config)) vb "lm_head")
    = Ok head) as -> by (destruct (tie_word_embeddings config); congruence).
  unfold stage_part, when; cbn [fst snd embeddings blocks final_norm norm_eps lm_head model_rope].
  by destruct (Nat.eqb s 0), (Nat.eqb e _).
Qed.

Lemma parts_of_concat {A} (l l' : list A) a ranges lss :
  tiles a ranges (length l) -> length l' = length l -> concat lss = drop a l' ->
  Forall2 (fun x y => length x = length y) (map (part l) ranges) lss ->
  lss = map (part l') ranges.
Proof.
  revert a lss. induction ranges as [|[s e] ranges IH]; intros a lss Ht Hl Hc HF; cbn in Ht.
  - by inversion HF.
  - destruct Ht as (-> & Hlt & Ht). pose proof (tiles_le _ _ _ Ht) as Hle.
    inversion HF as [|? y ? lss' Hy HF' E1 E2]; subst. clear HF. cbn [concat] in Hc.
    assert (length y = e - a) as Hly.
    { rewrite <- Hy. unfold part; cbn [fst snd]. apply slice_length. lia. }
    assert (y = part l' (a, e)) as ->.
    { unfold part, slice; cbn [fst snd]. rewrite <- Hc. by rewrite take_app_length'. }
    cbn [map]. f_equal. apply (IH e); [done..| |done].
    replace e with (a + (e - a)) by lia. rewrite <- drop_drop, <- Hc. by rewrite drop_app_length'.
Qed.

Lemma embedding_dims table ids t s :
  embedding table ids = Ok t -> dims ids = [1; s] ->
  exists w, dims t = [1; s; w] /\ device t = device table /\ dtype t = dtype table.
Proof.
  unfold embedding. destruct (dims table) as [|? [|w []]]; try done. intros H Hd.
  apply bind_Ok in H as (? & _ & H). injection H as <-. exists w. by rewrite Hd.
Qed.

Lemma last_map {A B} (f : A -> B) l d : List.last (map f l) (f d) = f (List.last l d).
Proof. induction l as [|x l IH]; [done|]. cbn in *. destruct l; [done|]. exact IH. Qed.

Lemma last_shift {A} (l : list A) x d : List.last (x :: l) d = List.last l x.
Proof. revert x d. induction l as [|y l IH]; intros x d; [done|].
  change (List.last (y :: l) d = List.last (y :: l) x). by rewrite !IH.
Qed.

Lemma tiles_last a s e ranges l : tiles a ((s, e) :: ranges) l -> (List.last ranges (s, e)).2 = l.
Proof.
  revert a s e. induction ranges as [|[s' e'] ranges IH]; intros a s e (_ & _ & H); [done|].
  rewrite last_shift. by apply (IH e).
Qed.

(** The first stage's tokens and the rest of the pass. *)
Lemma pipeline_forward_pass first rest cache caches ids position table hidden s :
  stage_embeddings first = Some table -> dims ids = [1; s] -> s <> 0 ->
  embedding table ids = Ok hidden ->
  pipeline_forward (first :: rest) (cache :: caches) ids position
  = '(hidden, caches) ← stage_pass (first :: rest) (cache :: caches) hidden position;
    logits ← finish (List.last rest first) hidden; Ok (logits, caches).
Proof.
  intros He Hd Hs Hemb. cbn [pipeline_forward stage_pass]. unfold forward_tokens, dims2.
  rewrite He, Hd. cbn [ok_or candle map_err]. rewrite !Ok_bind. cbn beta iota.
  rewrite (proj2 (Nat.eqb_neq s 0) Hs). cbn [Nat.eqb negb orb reject_if]. rewrite Ok_bind, Hemb.
  cbn [candle map_err]. rewrite Ok_bind. do 2 same_head. done.
Qed.

Lemma concat_stage_blocks model total ranges :
  tiles 0 ranges (length (blocks model)) ->
  concat (map stage_blocks (map (stage_part model total) ranges)) = blocks model.
Proof.
  intros Ht. rewrite map_map. change (fun x => stage_blocks (stage_part model total x)) with (part (blocks model)).
  by rewrite (concat_parts _ 0).
Qed.

(** The caches and blocks of the parts fit together. *)
Lemma parts_match (model : Llama) total ranges (ls : list LayerKvCache) n a :
  tiles a ranges (length (blocks model)) -> length ls = length (blocks model) ->
  Forall (fun l => layer_length l = n) ls ->
  Forall2 (fun st ls => length (stage_blocks st) = length ls /\ ls <> [] /\
             Forall (fun l => layer_length l = n) ls)
    (map (stage_part model total) ranges) (map (part ls) ranges).
Proof.
  intros Ht Hl Hu. apply Forall2_fmap. apply Forall_Forall2_diag.
  pose proof (part_length _ _ _ Ht) as HA. rewrite <- Hl in Ht. pose proof (part_length _ _ _ Ht) as HB.
  pose proof (List.Forall_and HB HA) as HC. revert HC. apply Forall_impl.
  intros r ((HB1 & Hlt) & (HA1 & _)). cbn [stage_part stage_blocks]. split; [lia|]. split.
  - intros E. rewrite E in HB1. cbn in HB1. lia.
  - unfold part, slice. by apply Forall_take, Forall_drop.
Qed.

Definition ok_of {E A} (r : result E A) : option A := match r with Ok a => Some a | Err _ => None end.

(** The guards of a forward pass. *)
Lemma llama_forward_layers model ids position cache s hidden :
  dims ids = [1; s] -> s <> 0 -> uniform cache position -> position + s <= cache_capacity cache ->
  length (blocks model) = length (layers cache) ->
  embedding (embeddings model) ids = Ok hidden ->
  llama_forward model ids position cache
  = '(h, ls) ← run_layers (blocks model) (layers cache) hidden position (model_rope model);
    logits ← candle (last_logits (final_norm model) (norm_eps model) (lm_head model) h s);
    Ok (logits, mkCache ls (cache_capacity cache)).
Proof.
  intros Hd Hs [Hne Hu] Hcap Hl Hemb. destruct cache as [ls cap]. cbn [layers cache_capacity] in *.
  unfold llama_forward, dims2. rewrite Hd. cbn [candle map_err]. rewrite Ok_bind. cbn beta iota.
  cbn [Nat.eqb negb reject_if]. rewrite Ok_bind, (proj2 (Nat.eqb_neq s 0) Hs). cbn [reject_if].
  rewrite Ok_bind. unfold cache_len. cbn [layers cache_capacity].
  destruct ls as [|l ls]; [done|]. inversion Hu as [|? ? Hl0 _]; subst.
  rewrite Nat.eqb_refl. cbn [negb reject_if]. rewrite Ok_bind.
  destruct (Nat.ltb_spec cap (layer_length l + s)); [lia|]. cbn [reject_if]. rewrite Ok_bind, Hemb.
  cbn [candle map_err]. rewrite Ok_bind.
  rewrite (forward_blocks_layers (blocks model) [] (l :: ls)) by done. repeat same_head. done.
Qed.

Lemma finish_final model total r h s w :
  r.2 = total -> dims h = [1; s; w] -> s <> 0 ->
  finish (stage_part model total r) h
  = candle (last_logits (final_norm model) (norm_eps model) (lm_head model) h s).
Proof.
  intros Hr Hd Hs. unfold finish, stage_part, dims3. cbn [stage_norm stage_head stage_eps].
  rewrite Hr, Nat.eqb_refl, Hd. cbn [ok_or candle map_err]. rewrite !Ok_bind. cbn beta iota.
  rewrite (proj2 (Nat.eqb_neq s 0) Hs). done.
Qed.

Lemma advanced_uniform s n ls ls' :
  Forall (fun l => layer_length l = n) ls -> Forall2 (advanced s) ls ls' ->
  Forall (fun l => layer_length l = n + s) ls'.
Proof. intros H HF. induction HF as [|? ? ? ? [? _] _ IH]; inversion H; subst; constructor; auto. Qed.

(** The pass when its guards hold. *)
Lemma stages_compose_ok model ranges ids position cache s hidden :
  tiles 0 ranges (length (blocks model)) -> length (blocks model) = length (layers cache) ->
  dims ids = [1; s] -> s <> 0 -> uniform cache position -> position + s <= cache_capacity cache ->
  embedding (embeddings model) ids = Ok hidden ->
  match llama_forward model ids position cache with
  | Ok (logits, cache') =>
      pipeline_forward (map (stage_part model (length (blocks model))) ranges)
        (split_cache ranges cache) ids position = Ok (logits, split_cache ranges cache') /\
      uniform cache' (position + s) /\ length (layers cache') = length (layers cache) /\
      cache_capacity cache' = cache_capacity cache
  | Err _ => is_ok (pipeline_forward (map (stage_part model (length (blocks model))) ranges)
                      (split_cache ranges cache) ids position) = false
  end.
Proof.
  intros Ht Hl Hd Hs Hun Hcap Hemb. pose proof Hun as [Hne Hu].
  destruct (embedding_dims _ _ _ _ Hemb Hd) as (w & Hdh & _).
  rewrite (llama_forward_layers model ids position cache s hidden) by done.
  destruct cache as [ls cap]. cbn [layers cache_capacity] in *. set (total := length (blocks model)) in *.
  pose proof (stage_pass_layers (model_rope model) position s w cap
    (map (stage_part model total) ranges) (map (part ls) ranges) hidden) as Hpass.
  rewrite concat_stage_blocks in Hpass by done. rewrite (concat_parts ls 0) in Hpass by (by rewrite <- Hl).
  rewrite drop_0, map_map in Hpass.
  specialize (Hpass ltac:(by apply Forall_map, Forall_true) ltac:(eapply parts_match; done) Hdh Hs Hcap).
  change (map (fun x => mkCache (part ls x) cap) ranges) with (split_cache ranges (mkCache ls cap)) in Hpass.
  destruct ranges as [|[s0 e0] ranges]; [cbn in Ht; destruct ls; cbn in Hl; [done|lia]|].
  cbn [map split_cache] in Hpass |- *. rewrite (pipeline_forward_pass _ _ _ _ _ _ (embeddings model) hidden s)
    by (done || (destruct Ht as (-> & _); done)).
  destruct (run_layers _ _ _ _ _) as [[h' ls']|e] eqn:Hrun; rewrite ?Ok_bind; cbn beta iota.
  - destruct (run_layers_shape _ _ _ _ _ _ _ _ _ _ Hrun Hl Hdh) as (Hdh' & _ & _ & Hadv).
    destruct Hpass as (lss' & Hpass & Hc & HF). rewrite Hpass, Ok_bind. cbn beta iota.
    rewrite last_map, (finish_final model total _ h' s w);
      [|by eapply tiles_last|congruence|done].
    destruct (last_logits _ _ _ _ _) as [logits|]; cbn [candle map_err]; [rewrite !Ok_bind|done].
    pose proof (Forall2_length Hadv) as Hlen.
    split; [|split_and!; [|cbn; lia|done]].
    + rewrite (parts_of_concat ls ls' 0 ((s0, e0) :: ranges) lss');
        [|by rewrite <- Hl|lia|by rewrite drop_0|done].
      cbn [map]. rewrite map_map. done.
    + split; [cbn; intros ->; destruct ls; done|]. by eapply advanced_uniform.
  - destruct (stage_pass _ _ _ _) as [[]|]; [done|]. done.
Qed.

(** What a successful pass has checked. *)
Lemma llama_forward_guards model ids position cache r :
  llama_forward model ids position cache = Ok r ->
  exists s hidden, dims ids = [1; s] /\ s <> 0 /\ position = cache_len cache /\
    position + s <= cache_capacity cache /\ embedding (embeddings model) ids = Ok hidden.
Proof.
  unfold llama_forward. intros H. apply bind_Ok in H as ([b s] & Hd%candle_Ok & H).
  unfold dims2 in Hd. destruct (dims ids) as [|? [|? []]]; try done. injection Hd as -> ->.
  apply bind_Ok in H as (? & H1%reject_if_Ok & H). apply bind_Ok in H as (? & H2%reject_if_Ok & H).
  apply bind_Ok in H as (? & H3%reject_if_Ok & H). apply bind_Ok in H as (? & H4%reject_if_Ok & H).
  apply bind_Ok in H as (hidden & Hemb%candle_Ok & _). bool_prop. subst. by exists s, hidden.
Qed.

Lemma pipeline_forward_guards first rest cache caches ids position r :
  pipeline_forward (first :: rest) (cache :: caches) ids position = Ok r ->
  exists s table hidden, stage_embeddings first = Some table /\ dims ids = [1; s] /\ s <> 0 /\
    position = cache_len cache /\ position + s <= cache_capacity cache /\
    embedding table ids = Ok hidden.
Proof.
  cbn [pipeline_forward]. intros H. apply bind_Ok in H as ([h c] & H & _).
  unfold forward_tokens in H. apply bind_Ok in H as (table & Ht%ok_or_Ok & H).
  apply bind_Ok in H as ([b s] & Hd%candle_Ok & H).
  unfold dims2 in Hd. destruct (dims ids) as [|? [|? []]] eqn:Hids; try done. injection Hd as -> ->.
  apply bind_Ok in H as (? & H1%reject_if_Ok & H). bool_prop. subst b.
  apply bind_Ok in H as (hidden & Hemb%candle_Ok & H).
  destruct (embedding_dims _ _ _ _ Hemb Hids) as (w & Hdh & _).
  unfold forward_hidden, dims3 in H. rewrite Hdh in H. cbn [candle map_err] in H.
  rewrite Ok_bind in H. apply bind_Ok in H as (? & _ & H). apply bind_Ok in H as (? & _ & H).
  apply bind_Ok in H as (? & H3%reject_if_Ok & H). apply bind_Ok in H as (? & H4%reject_if_Ok & _).
  bool_prop. by exists s, table, hidden.
Qed.

Lemma cache_len_part ranges r ls cap n :
  Forall (fun l => layer_length l = n) ls -> part ls r <> [] ->
  ranges = r :: tail ranges -> cache_len (mkCache (part ls r) cap) = n.
Proof.
  intros Hu Hne _. unfold cache_len. cbn [layers].
  assert (Forall (fun l => layer_length l = n) (part ls r)) as HF
    by (unfold part, slice; by apply Forall_take, Forall_drop).
  destruct (part ls r); [done|]. by inversion HF.
Qed.

Lemma stages_compose_any model ranges cache n ids position :
  tiles 0 ranges (length (blocks model)) -> length (blocks model) = length (layers cache) ->
  uniform cache n ->
  ok_of (pipeline_forward (map (stage_part model (length (blocks model))) ranges)
           (split_cache ranges cache) ids position)
  = (fun '(logits, cache') => (logits, split_cache ranges cache'))
      <$> ok_of (llama_forward model ids position cache) /\
  forall logits cache', llama_forward model ids position cache = Ok (logits, cache') ->
    exists s, dims ids = [1; s] /\ uniform cache' (n + s) /\
      length (layers cache') = length (layers cache) /\ cache_capacity cache' = cache_capacity cache.
Proof.
  intros Ht Hl Hun. pose proof Hun as [Hne Hu].
  assert (cache_len cache = n) as Hcl.
  { destruct cache as [[|l ls] cap]; [done|]. by inversion Hu. }
  split.
  - destruct (llama_forward model ids position cache) as [[logits cache']|e] eqn:Hf; cbn.
    + destruct (llama_forward_guards _ _ _ _ _ Hf) as (s & hidden & H1 & H2 & H3 & H4 & H5).
      rewrite Hcl in H3.
      pose proof (stages_compose_ok model ranges ids position cache s hidden Ht Hl H1 H2
        ltac:(by rewrite H3) H4 H5) as Hgo. rewrite Hf in Hgo.
      by destruct Hgo as (-> & _).
    + destruct (pipeline_forward _ _ ids position) as [[logits cs]|] eqn:Hp; [exfalso|done].
      destruct ranges as [|[s0 e0] ranges]; [done|]. cbn [map split_cache] in Hp.
      destruct (pipeline_forward_guards _ _ _ _ _ _ _ Hp) as (s & table & hidden & H0 & H1 & H2 & H3 & H4 & H5).
      destruct Ht as (-> & Ht). injection H0 as <-. cbn [cache_capacity] in H4.
      rewrite (cache_len_part [(0, e0)] (0, e0) _ _ n) in H3; [|done| |done].
      2: { intros E. pose proof (part_length (layers cache) 0 ((0, e0) :: ranges)) as HP.
           rewrite <- Hl in HP. specialize (HP (conj eq_refl Ht)). inversion HP as [|? ? [HA HB] _].
           rewrite E in HA. cbn in HA, HB. lia. }
      pose proof (stages_compose_ok model ((0, e0) :: ranges) ids position cache s hidden
        (conj eq_refl Ht) Hl H1 H2 ltac:(by rewrite H3) H4 H5) as Hgo. rewrite Hf in Hgo.
      cbn [map split_cache] in Hgo. by rewrite Hp in Hgo.
  - intros logits cache' Hf.
    destruct (llama_forward_guards _ _ _ _ _ Hf) as (s & hidden & H1 & H2 & H3 & H4 & H5).
    rewrite Hcl in H3.
      pose proof (stages_compose_ok model ranges ids position cache s hidden Ht Hl H1 H2
        ltac:(by rewrite H3) H4 H5) as Hgo. rewrite Hf in Hgo.
    destruct Hgo as (_ & ? & ? & ?). exists s. by rewrite <- H3.
Qed.

(** C11: pipeline stages compose to the model: loading consecutive layer ranges
    from the weights of a model succeeds, and a pass of any tokens through the
    stages - each on the cache of its own layers - succeeds exactly when the
    model's own pass does, with the same logits and the same cache contents. *)
Theorem stages_compose vb dt config cap model ranges cache n :
  llama_load vb dt config cap = Ok model ->
  tiles 0 ranges (N.to_nat (num_hidden_layers config)) ->
  length (layers cache) = N.to_nat (num_hidden_layers config) -> uniform cache n ->
  exists stages,
    mapM (fun r => stage_load vb dt config r.1 r.2 (Nat.eqb r.1 0)
                     (Nat.eqb r.2 (N.to_nat (num_hidden_layers config))) cap) ranges = Ok stages /\
    forall ids position,
      ok_of (pipeline_forward stages (split_cache ranges cache) ids position)
      = (fun '(logits, cache') => (logits, split_cache ranges cache'))
          <$> ok_of (llama_forward model ids position cache).
Proof.
  intros Hload Ht Hl Hun. pose proof (llama_load_blocks _ _ _ _ _ Hload) as [_ Hb].
  exists (map (stage_part model (N.to_nat (num_hidden_layers config))) ranges). split.
  - apply mapM_Ok. intros [s e] Hin. cbn [fst snd].
    assert (s < e /\ e <= N.to_nat (num_hidden_layers config)) as [Hs He].
    { by eapply tiles_elem. }
    by apply stage_load_part.
  - intros ids position. rewrite <- Hb. apply (stages_compose_any model ranges cache n ids position);
      [by rewrite Hb|by rewrite Hb|done].
Qed.
End Compose.
