(* ===== verification/Report.v ===== *)
(** * Reports and events

    Models [crates/runtime/src/report.rs]: the event vocabulary of a run, the
    topology and the generation report, and the recorder of
    [crates/runtime/src/generation.rs] that numbers the events.  Clock readings
    (durations, elapsed times and what is derived from them) are not part of the
    model: an event is its kind and its logical contents. *)
From S2P Require Import Prelude Rank Registry Memory Protocol.

(** [struct TopologyReport] and its [Default]. *)
Record TopologyReport : Type := mkTopology
  { topology_world_size : N; topology_rank : N; tensor_parallel : N; pipeline_parallel : N;
    expert_parallel : N }.
Definition default_topology : TopologyReport := mkTopology 1 0 1 1 1.

(** [enum ExecutionPhase], [TensorPurpose], [ControlPurpose], [CollectiveKind]. *)
Inductive ExecutionPhase : Type := Prefill | Decode.
Inductive TensorPurpose : Type := Activation | TensorParallelShard.
Inductive ControlPurpose : Type := TokenFeedback | DecisionPurpose | TensorDecision.
Inductive ReportedCollective : Type :=
| RBarrier | RBroadcast | RReduce | RAllGather | RAllReduce | RReduceScatter | RAllToAll.

#[global] Instance ExecutionPhase_eq_dec : EqDecision ExecutionPhase.
Proof. solve_decision. Defined.

(** [enum RunEventKind]. *)
Inductive RunEventKind : Type :=
| ArtifactResolutionStarted
| ArtifactResolutionFinished
| ModelLoadStarted
| ModelLoadFinished
| LayerStarted (layer : nat) (phase : ExecutionPhase) (step : N)
| LayerCompleted (layer : nat) (phase : ExecutionPhase) (step : N)
| CollectiveStarted (collective : ReportedCollective) (generation : N)
| CollectiveCompleted (collective : ReportedCollective) (generation : N)
| TensorCollectiveStarted (collective algorithm : string) (collective_sequence : N) (shape : list nat)
| TensorCollectiveCompleted (collective : string) (collective_sequence sent_bytes received_bytes : N)
| TensorSent (peer : nat) (purpose : TensorPurpose) (phase : ExecutionPhase) (step : N)
    (shape : list nat) (bytes : N)
| TensorReceived (peer : nat) (purpose : TensorPurpose) (phase : ExecutionPhase) (step : N)
    (shape : list nat) (bytes : N)
| ControlSent (peer : nat) (purpose : ControlPurpose) (phase : ExecutionPhase) (step bytes : N)
| ControlReceived (peer : nat) (purpose : ControlPurpose) (phase : ExecutionPhase) (step bytes : N)
| MemorySample (current_bytes limit_bytes : option N)
| PrefillStarted (prompt_tokens : N)
| PrefillFinished
| DecodeStepStarted (step : N)
| DecodeStepFinished (step : N)
| TokenGenerated (token_id : N) (text : string)
| GenerationFinished (stop_reason : StopReason).

(** [struct RunEvent]. *)
Record RunEvent : Type := mkEvent { event_sequence : N; event_rank : nat; event_kind : RunEventKind }.

(** [struct EventRecorder] of the single-rank run. *)
Record EventRecorder : Type := mkRecorder { next_sequence : N; events : list RunEvent }.
Definition recorder_new : EventRecorder := mkRecorder 0 [].

(** [EventRecorder::emit]; the live observer only looks. *)
Definition emit (kind : RunEventKind) (self : EventRecorder) : EventRecorder :=
  mkRecorder (add64 (next_sequence self) 1)
    (events self ++ [mkEvent (next_sequence self) 0 kind]).

(** [struct GenerationReport], without its timings. *)
Record GenerationReport : Type := mkReport
  { schema_version : N;
    report_model : SupportedModelId;
    report_repository : string;
    report_revision : string;
    report_device : string;
    report_dtype : PlanDType;
    topology : TopologyReport;
    report_memory : RankMemoryPlan;
    final_kv_cache_bytes : N;
    prompt_characters : N;
    report_prompt_tokens : N;
    requested_max_new_tokens : N;
    generated_tokens : list N;
    completion : string;
    stop_reason : StopReason;
    report_events : list RunEvent }.

(** ** Properties *)

(** The tokens an event stream announces. *)
Definition announced (evs : list RunEvent) : list N :=
  omap (fun e => match event_kind e with TokenGenerated token _ => Some token | _ => None end) evs.

(** A recorder that has emitted [length events] events. *)
Definition well_numbered (self : EventRecorder) : Prop :=
  next_sequence self = N.of_nat (length (events self)) /\
  forall i e, events self !! i = Some e -> event_sequence e = N.of_nat i /\ event_rank e = 0.

Lemma recorder_new_numbered : well_numbered recorder_new.
Proof. split; [done|]. intros i e H. by destruct i. Qed.

Lemma emit_numbered kind self :
  (N.of_nat (S (length (events self))) < U64)%N ->
  well_numbered self -> well_numbered (emit kind self).
Proof.
  intros Hb [Hn He]. unfold emit. split; cbn [next_sequence events].
  - rewrite add64_small by lia. rewrite length_app, Hn. cbn. lia.
  - intros i e H. apply lookup_app_Some in H as [H|[Hl H]]; [by apply He|].
    apply list_lookup_singleton_Some in H as [Hi <-]. cbn. rewrite Hn. split; [lia|done].
Qed.

Lemma announced_emit kind self :
  announced (events (emit kind self))
  = announced (events self) ++ match kind with TokenGenerated token _ => [token] | _ => [] end.
Proof. unfold announced, emit. cbn [events]. rewrite omap_app. by destruct kind. Qed.
