(* ===== verification/Artifacts.v ===== *)
(** * Model artifacts

    Models [crates/runtime/src/artifacts.rs] and [inspect.rs]: resolving the
    pinned files of a model, checking the metadata and the tensor manifest of a
    checkpoint against the registry, and network-free inspection.  The hub, the
    file system, the JSON and safetensors readers and the [Debug] texts are the
    class [HostSystem]; a [BTreeMap] is a finite map whose iteration is sorted. *)
From stdpp Require Import sorting.
From S2P Require Import Prelude Rank Packet Tensor Registry Memory Cache Kernels Llama.

(** [safetensors::Dtype], as far as the program names it. *)
Inductive SafeDtype : Type := SF16 | SBf16 | SOther (name : string).
#[global] Instance SafeDtype_eq_dec : EqDecision SafeDtype.
Proof. solve_decision. Defined.

(** [CheckpointDType::safetensors]. *)
Definition safetensors (dtype : CheckpointDType) : SafeDtype :=
  match dtype with CF16 => SF16 | CBf16 => SBf16 end.

(** The derived [Debug] of a checkpoint dtype. *)
Definition checkpoint_debug (dtype : CheckpointDType) : string :=
  match dtype with CF16 => "F16" | CBf16 => "Bf16" end.

(** [struct HubLlamaConfig]; [rope_scaling] is any JSON value, here present or not. *)
Record HubLlamaConfig : Type := mkHubConfig
  { architectures : list string; model_type : string; hidden_act : string;
    attention_bias : bool; mlp_bias : bool; hub_model : ModelConfig; rope_scaling : bool }.

#[global] Instance ModelConfig_eq_dec : EqDecision ModelConfig.
Proof. solve_decision. Defined.

(** A tensor manifest: shape and dtype by name. *)
Abbreviation Manifest := (gmap string (list N * SafeDtype)).

(** Everything outside the program: the hub client and its cache, the file
    system, the readers, and the [{:?}] texts. *)
Class HostSystem : Type := {
  PathBuf : Type;
  api_new : result string unit;
  repo_get : string -> string -> string -> result string PathBuf;
  fs_read : PathBuf -> result string (list byte);
  hub_config_from_slice : list byte -> result string HubLlamaConfig;
  chat_template_from_slice : list byte -> result string (option string);
  mmaped_safetensors : PathBuf -> result string Manifest;
  debug_config : ModelConfig -> string;
  debug_marker : string -> string;
  debug_dtypes : list (string * SafeDtype) -> string;
  debug_names : list string -> string;
  debug_shapes : list (string * list N * list N) -> string }.

(** [struct ArtifactRepository], [struct MetadataArtifacts]. *)
Record ArtifactRepository : Type := mkRepository { repo_name : string; repo_revision : string }.
Record MetadataArtifacts `{HostSystem} : Type := mkMetadata
  { config_path : PathBuf; tokenizer_path : PathBuf; tokenizer_config_path : PathBuf }.

Section Resolve.
Context {HO : HostSystem}.

(** [ArtifactRepository::new], [get], [download_metadata], [download_weights]. *)
Definition repository_new (spec : ModelSpec) : dresult ArtifactRepository :=
  _ ← map_err Artifact api_new;
  Ok (mkRepository (repository spec) (revision spec)).
Definition get (self : ArtifactRepository) (file : string) : dresult PathBuf :=
  map_err (fun err => Artifact ("could not resolve " +:+ file +:+ ": " +:+ err))
    (repo_get (repo_name self) (repo_revision self) file).
Definition download_metadata (self : ArtifactRepository) : dresult MetadataArtifacts :=
  c ← get self "config.json";
  t ← get self "tokenizer.json";
  tc ← get self "tokenizer_config.json";
  Ok (mkMetadata HO c t tc).
Definition download_weights (self : ArtifactRepository) (spec : ModelSpec) : dresult PathBuf :=
  get self (weight_file spec).

(** [required_template_markers]. *)
Definition required_template_markers (spec : ModelSpec) : list string :=
  match prompt_template spec with
  | SmolChatMl => ["<|im_start|>"; "<|im_end|>"]
  | TinyLlamaChat => ["<|user|>"; "<|assistant|>"]
  end.

(** [str::contains]. *)
Fixpoint contains (needle s : string) : bool :=
  String.prefix needle s ||
  match s with EmptyString => false | String _ s => contains needle s end.

(** The loop over the markers. *)
Fixpoint check_markers (spec : ModelSpec) (template : string) (markers : list string) : dresult unit :=
  match markers with
  | [] => Ok tt
  | marker :: markers =>
      _ ← reject_if (negb (contains marker template))
        (CheckpointMismatch ("chat template for " +:+ as_str (id spec)
           +:+ " is missing expected marker " +:+ debug_marker marker));
      check_markers spec template markers
  end.

(** [validate_metadata]. *)
Definition validate_metadata (spec : ModelSpec) (artifacts : MetadataArtifacts) : dresult unit :=
  raw ← map_err DlirIo (fs_read (config_path artifacts));
  hub ← map_err DlirJson (hub_config_from_slice raw);
  _ ← reject_if (negb (bool_decide (architectures hub = ["LlamaForCausalLM"]))
        || negb (String.eqb (model_type hub) "llama") || negb (String.eqb (hidden_act hub) "silu")
        || attention_bias hub || mlp_bias hub || rope_scaling hub)
    (CheckpointMismatch
      "only unbiased LlamaForCausalLM checkpoints with SiLU and unscaled RoPE are supported");
  _ ← reject_if (negb (bool_decide (hub_model hub = config spec)))
    (CheckpointMismatch ("config for " +:+ as_str (id spec) +:+ " differs from the compiled registry"
       +:+ newline +:+ "expected: " +:+ debug_config (config spec)
       +:+ newline +:+ "actual:   " +:+ debug_config (hub_model hub)));
  raw ← map_err DlirIo (fs_read (tokenizer_config_path artifacts));
  template ← map_err DlirJson (chat_template_from_slice raw);
  template ← ok_or template (CheckpointMismatch "tokenizer_config.json has no chat_template");
  check_markers spec template (required_template_markers spec).

(** ** The tensor manifest *)

(** The tensors of one layer, in the order they are inserted. *)
Definition layer_tensors (cfg : ModelConfig) (kv_size : N) (layer : nat) : list (string * list N) :=
  let h := hidden_size cfg in
  let i := intermediate_size cfg in
  let prefix := "model.layers." +:+ pretty layer in
  [ (prefix +:+ ".self_attn.q_proj.weight", [h; h]);
    (prefix +:+ ".self_attn.k_proj.weight", [kv_size; h]);
    (prefix +:+ ".self_attn.v_proj.weight", [kv_size; h]);
    (prefix +:+ ".self_attn.o_proj.weight", [h; h]);
    (prefix +:+ ".mlp.gate_proj.weight", [i; h]);
    (prefix +:+ ".mlp.up_proj.weight", [i; h]);
    (prefix +:+ ".mlp.down_proj.weight", [h; i]);
    (prefix +:+ ".input_layernorm.weight", [h]);
    (prefix +:+ ".post_attention_layernorm.weight", [h]) ].

(** [BTreeMap::insert] of a list of entries, first to last. *)
Definition insert_all (entries : list (string * list N)) (m : gmap string (list N))
  : gmap string (list N) :=
  fold_left (fun m e => <[e.1 := e.2]> m) entries m.

(** [expected_tensor_shapes]. *)
Definition expected_tensor_shapes (spec : ModelSpec) : dresult (gmap string (list N)) :=
  let cfg := config spec in
  hd ← head_dim cfg;
  let kv_size := mul64 (num_key_value_heads cfg) hd in
  let v := vocab_size cfg in
  let h := hidden_size cfg in
  Ok (insert_all
    ([ ("model.embed_tokens.weight", [v; h]); ("model.norm.weight", [h]) ]
     ++ (if tie_word_embeddings cfg then [] else [ ("lm_head.weight", [v; h]) ])
     ++ flat_map (layer_tensors cfg kv_size) (seq 0 (N.to_nat (num_hidden_layers cfg)))) ∅).

(** A [BTreeMap] iterates in the order of its keys. *)
Definition btree {A} (m : gmap string A) : list (string * A) :=
  merge_sort (fun a b => String.le a.1 b.1) (map_to_list m).

(** [try_fold] of the checked products and sums. *)
Fixpoint checked_product (dims : list N) (value : N) : option N :=
  match dims with [] => Some value | d :: dims => v ← checked_mul value d; checked_product dims v end.
Fixpoint checked_total (shapes : list (list N)) (total : N) : option N :=
  match shapes with
  | [] => Some total
  | s :: shapes => count ← checked_product s 1; t ← checked_add total count; checked_total shapes t
  end.

(** [validate_tensor_metadata]. *)
Definition validate_tensor_metadata (spec : ModelSpec) (tensors : Manifest) : dresult unit :=
  expected ← expected_tensor_shapes spec;
  let wrong_dtypes :=
    List.map (fun e => (e.1, e.2.2))
      (List.filter (fun e => negb (bool_decide (e.2.2 = safetensors (checkpoint_dtype spec))))
         (btree tensors)) in
  _ ← reject_if (negb (Nat.eqb (length wrong_dtypes) 0))
    (CheckpointMismatch ("expected "
       +:+ checkpoint_debug (checkpoint_dtype spec)
       +:+ " tensors but " +:+ pretty (length wrong_dtypes) +:+ " tensors differed; first mismatches: "
       +:+ debug_dtypes (take (Nat.min (length wrong_dtypes) 8) wrong_dtypes)));
  let actual : gmap string (list N) := fst <$> tensors in
  _ ← reject_if (negb (bool_decide (actual = expected)))
    (let missing := List.filter (fun k => bool_decide (actual !! k = None)) (List.map fst (btree expected)) in
     let unexpected := List.filter (fun k => bool_decide (expected !! k = None)) (List.map fst (btree actual)) in
     let wrong_shapes := omap (fun e => s ← actual !! e.1;
                                        if bool_decide (s = e.2) then None else Some (e.1, e.2, s))
                              (btree expected) in
     CheckpointMismatch ("tensor manifest mismatch; missing=" +:+ debug_names missing
       +:+ ", unexpected=" +:+ debug_names unexpected +:+ ", wrong_shapes=" +:+ debug_shapes wrong_shapes));
  parameters ← ok_or (checked_total (List.map (fun e => e.2.1) (btree tensors)) 0)
    (CheckpointMismatch "parameter count overflow");
  reject_if (negb (parameters =? expected_parameters spec)%N)
    (CheckpointMismatch ("checkpoint has " +:+ pretty parameters +:+ " parameters but "
       +:+ pretty (expected_parameters spec) +:+ " are expected")).

(** [validate_checkpoint]. *)
Definition validate_checkpoint (spec : ModelSpec) (path : PathBuf) : dresult unit :=
  tensors ← map_err DlirTensor (mmaped_safetensors path);
  validate_tensor_metadata spec tensors.

End Resolve.

(** ** Inspection *)

(** [struct InspectionRequest], [struct InspectionReport]. *)
Record InspectionRequest : Type := mkInspection
  { inspect_model : SupportedModelId; inspect_dtype : PlanDType; inspect_context : N;
    inspect_budget : option MemoryBudget }.
Record InspectionReport : Type := mkInspectionReport
  { ir_schema_version : N; ir_model : SupportedModelId; ir_repository : string;
    ir_revision : string; ir_architecture : string; ir_config : ModelConfig;
    ir_memory : RankMemoryPlan; ir_caveat : string }.

(** [inspect]; the registry has an entry for every identifier. *)
Definition inspect (request : InspectionRequest) : dresult InspectionReport :=
  spec ← ok_or (spec_of (inspect_model request)) (InvalidConfig "every public model ID has a registry entry");
  memory ← for_model spec (inspect_dtype request) (inspect_context request) (inspect_budget request);
  Ok (mkInspectionReport 1 (inspect_model request) (repository spec) (revision spec)
        "LlamaForCausalLM" (config spec) memory
        "Activations, workspaces, allocator fragmentation, and runtime memory are excluded.").

(** ** Accepted checkpoints *)

(** The manifest with the checkpoint's dtype on every tensor. *)
Definition with_dtype (dtype : SafeDtype) (shapes : gmap string (list N)) : Manifest :=
  (fun shape => (shape, dtype)) <$> shapes.

Lemma btree_elem {A} (m : gmap string A) k x : m !! k = Some x -> (k, x) ∈ btree m.
Proof.
  intros H. unfold btree. rewrite merge_sort_Permutation. by apply elem_of_map_to_list.
Qed.

Lemma filter_nil {A} (p : A -> bool) l x : List.filter p l = [] -> x ∈ l -> p x = false.
Proof.
  intros Hf Hx. destruct (p x) eqn:E; [|done]. exfalso.
  assert (In x (List.filter p l)) as Hin by (apply List.filter_In; split; [by apply list_elem_of_In|done]).
  by rewrite Hf in Hin.
Qed.

Section Accepted.
Context {HO : HostSystem}.

Lemma validate_tensor_metadata_Ok spec tensors :
  validate_tensor_metadata spec tensors = Ok tt ->
  exists expected, expected_tensor_shapes spec = Ok expected /\
    tensors = with_dtype (safetensors (checkpoint_dtype spec)) expected.
Proof.
  unfold validate_tensor_metadata. intros H. apply bind_Ok in H as (expected & He & H).
  exists expected. split; [done|]. cbv zeta in H.
  apply bind_Ok in H as ([] & H1%reject_if_Ok & H). apply bind_Ok in H as ([] & H2%reject_if_Ok & _).
  apply negb_false_iff, Nat.eqb_eq in H1. rewrite length_map in H1. apply nil_length_inv in H1.
  apply negb_false_iff, bool_decide_eq_true in H2. subst expected. apply map_eq. intros k.
  unfold with_dtype. rewrite !lookup_fmap. destruct (tensors !! k) as [[s d]|] eqn:E; cbn; [|done].
  apply btree_elem in E. pose proof (filter_nil _ _ _ H1 E) as Hd. cbn in Hd.
  apply negb_false_iff, bool_decide_eq_true in Hd. by rewrite Hd.
Qed.

Lemma registered_accepts model spec :
  spec_of model = Some spec -> exists expected, expected_tensor_shapes spec = Ok expected /\
    validate_tensor_metadata spec (with_dtype (safetensors (checkpoint_dtype spec)) expected) = Ok tt.
Proof.
  intros H. destruct model; injection H as <-; eexists;
    (split; [reflexivity|vm_compute; reflexivity]).
Qed.
End Accepted.

(** ** Loading an accepted checkpoint *)

(** What reading weights relies on of safetensors: a tensor of the manifest is
    returned when it is asked for by its name and shape. *)
Definition serves (vb : VarBuilder) (tensors : Manifest) : Prop :=
  forall name shape dt, tensors !! name = Some (shape, dt) ->
    exists t, vb name (map N.to_nat shape) = Ok t.

(** Every weight the loader asks for is in the manifest. *)
Definition layer_covered (spec : ModelSpec) (expected : gmap string (list N)) (kv : N) (layer : nat) : bool :=
  forallb (fun e => bool_decide (expected !! e.1 = Some e.2)) (layer_tensors (config spec) kv layer).
Definition covers (spec : ModelSpec) (expected : gmap string (list N)) (kv : N) : bool :=
  let v := vocab_size (config spec) in
  let h := hidden_size (config spec) in
  bool_decide (expected !! "model.embed_tokens.weight" = Some [v; h]) &&
  bool_decide (expected !! "model.norm.weight" = Some [h]) &&
  (tie_word_embeddings (config spec) || bool_decide (expected !! "lm_head.weight" = Some [v; h])) &&
  forallb (layer_covered spec expected kv) (seq 0 (N.to_nat (num_hidden_layers (config spec)))).

Lemma registered_manifest model spec :
  spec_of model = Some spec ->
  match expected_tensor_shapes spec, head_dim (config spec) with
  | Ok expected, Ok hd => covers spec expected (num_key_value_heads (config spec) * hd) && (hd =? 64)%N
  | _, _ => false
  end = true.
Proof. intros H. destruct model; injection H as <-; vm_compute; reflexivity. Qed.

Lemma registered_covers model spec expected hd :
  spec_of model = Some spec -> expected_tensor_shapes spec = Ok expected ->
  head_dim (config spec) = Ok hd ->
  covers spec expected (num_key_value_heads (config spec) * hd) = true /\ hd = 64%N.
Proof.
  intros H He Hh. pose proof (registered_manifest _ _ H) as Hm. rewrite He, Hh in Hm.
  apply andb_true_iff in Hm as [? ?%N.eqb_eq]. done.
Qed.

Section Loads.
Context {FO : FloatOps} {KE : Kernels} {HO : HostSystem}.
Context (spec : ModelSpec) (hd : N) (expected : gmap string (list N)) (vb : VarBuilder).
Hypotheses (Hhd : head_dim (config spec) = Ok hd)
  (Hcov : covers spec expected (num_key_value_heads (config spec) * hd) = true)
  (Hvb : forall name shape, expected !! name = Some shape ->
           exists t, vb name (map N.to_nat shape) = Ok t).

Lemma weight_found layer n name shape :
  layer < N.to_nat (num_hidden_layers (config spec)) ->
  layer_tensors (config spec) (num_key_value_heads (config spec) * hd) layer !! n = Some (name, shape) ->
  exists t, vb name (map N.to_nat shape) = Ok t.
Proof.
  intros Hl Hin%list_elem_of_lookup_2. apply Hvb. unfold covers in Hcov. apply andb_true_iff in Hcov as [_ Hc].
  rewrite List.forallb_forall in Hc. specialize (Hc layer). rewrite in_seq in Hc.
  specialize (Hc ltac:(lia)). unfold layer_covered in Hc. rewrite List.forallb_forall in Hc.
  specialize (Hc _ (proj1 (list_elem_of_In _ _) Hin)). by apply bool_decide_eq_true in Hc.
Qed.

(** The weight [suffix] of [layer], by its position in the manifest. *)
Ltac find_weight layer n :=
  match goal with Hl : layer < _ |- _ =>
    let H := fresh in
    pose proof (weight_found layer n _ _ Hl eq_refl) as [? H];
    cbn [map] in H
  end.

Lemma block_loads layer : layer < N.to_nat (num_hidden_layers (config spec)) ->
  exists b, block_load vb layer (config spec) = Ok b.
Proof.
  intros Hl. unfold block_load, attention_load, mlp_load, linear_no_bias, norm_weight.
  rewrite Hhd. cbn [mbind result_bind].
  find_weight layer 0. find_weight layer 1. find_weight layer 2. find_weight layer 3.
  find_weight layer 4. find_weight layer 5. find_weight layer 6. find_weight layer 7. find_weight layer 8.
  rewrite !str_app_assoc.
  repeat match goal with H : vb ?n ?s = Ok _ |- _ =>
    match goal with |- context [vb ?m s] =>
      change m with n; rewrite H; clear H; cbn [mbind result_bind candle map_err] end end.
  by eexists.
Qed.
Lemma rotary_loads capacity dt : hd = 64%N -> exists r, rotary_new (config spec) capacity dt = Ok r.
Proof using Hhd.
  clear Hcov. intros ->. unfold rotary_new. rewrite Hhd. cbn [mbind result_bind].
  change (N.to_nat 64) with 64. unfold reshape, elem_count, product. cbn [dims foldr].
  rewrite !length_map, !length_seq, !Nat.mul_1_r, !Nat.eqb_refl.
  change ((64 + 1) / 2) with 32. change (64 / 2) with 32.
  unfold matmul, to_dtype. cbn [dims mbind result_bind device dtype elements Nat.eqb candle map_err].
  do 2 (case_bool_decide; cbn [mbind result_bind candle map_err]); by eexists.
Qed.

Lemma model_loads capacity dt : hd = 64%N -> exists m, llama_load vb dt (config spec) capacity = Ok m.
Proof.
  intros H64. unfold llama_load, embedding_table, linear_no_bias, norm_weight.
  pose proof Hcov as Hc. unfold covers in Hc.
  apply andb_true_iff in Hc as [Hc _]. apply andb_true_iff in Hc as [Hc Hhead].
  apply andb_true_iff in Hc as [He%bool_decide_eq_true Hn%bool_decide_eq_true].
  destruct (Hvb _ _ He) as [te Hte], (Hvb _ _ Hn) as [tn Htn]. cbn [map] in Hte, Htn.
  change ("model.embed_tokens" +:+ ".weight") with "model.embed_tokens.weight".
  change ("model.norm" +:+ ".weight") with "model.norm.weight".
  change ("lm_head" +:+ ".weight") with "lm_head.weight".
  rewrite Hte. cbn [candle map_err mbind result_bind].
  assert (exists th, (if tie_word_embeddings (config spec) then Ok te
    else candle (vb "lm_head.weight" [N.to_nat (vocab_size (config spec)); N.to_nat (hidden_size (config spec))]))
    = Ok th) as [th ->].
  { destruct (tie_word_embeddings (config spec)); [by eexists|]. cbn in Hhead.
    apply bool_decide_eq_true in Hhead. destruct (Hvb _ _ Hhead) as [th Hth]. cbn [map] in Hth.
    rewrite Hth. by eexists. }
  destruct (mapM_total (fun index => block_load vb index (config spec)) (fun _ _ => True)
    (seq 0 (N.to_nat (num_hidden_layers (config spec))))) as (bs & Hbs & _).
  { intros i [_ Hi]%elem_of_seq. destruct (block_loads i Hi) as [b Hb]. by exists b. }
  cbn [mbind result_bind]. rewrite Hbs. cbn [mbind result_bind]. rewrite Htn.
  cbn [candle map_err mbind result_bind]. destruct (rotary_loads capacity dt H64) as [r ->].
  by eexists.
Qed.
End Loads.

(** C32: checkpoint validation is exact: for a registered model it accepts one
    manifest, the one of [expected_tensor_shapes] with the registered dtype on
    every tensor; no tensor may be missing, added, reshaped or retyped, and the
    parameter count then agrees with the registry. *)
Theorem checkpoint_validation_exact `{HostSystem} model spec :
  spec_of model = Some spec ->
  exists expected, expected_tensor_shapes spec = Ok expected /\
    forall tensors, validate_tensor_metadata spec tensors = Ok tt <->
      tensors = with_dtype (safetensors (checkpoint_dtype spec)) expected.
Proof.
  intros Hs. destruct (registered_accepts model spec Hs) as (expected & He & Hok).
  exists expected. split; [done|]. intros tensors. split; [|by intros ->].
  intros (e & He' & ->)%validate_tensor_metadata_Ok. congruence.
Qed.

(** C33: a checkpoint that passed validation loads: every weight the model asks
    for is in the manifest under the name and shape it is asked for, so the
    model loads at any capacity. *)
Theorem validated_checkpoint_loads `{FloatOps, Kernels, HostSystem} model spec tensors vb capacity dt :
  spec_of model = Some spec -> validate_tensor_metadata spec tensors = Ok tt -> serves vb tensors ->
  exists llama, llama_load vb dt (config spec) capacity = Ok llama.
Proof.
  intros Hs (expected & He & ->)%validate_tensor_metadata_Ok Hv.
  pose proof He as He'. unfold expected_tensor_shapes in He'. apply bind_Ok in He' as (hd & Hhd & _).
  destruct (registered_covers _ _ _ _ Hs He Hhd) as [Hcov H64].
  apply (model_loads spec hd expected vb Hhd Hcov); [|done].
  intros name shape Hn. apply (Hv name shape (safetensors (checkpoint_dtype spec))).
  unfold with_dtype. by rewrite lookup_fmap, Hn.
Qed.
