(* ===== verification/Generation.v ===== *)
(** * Single-rank generation

    Models [crates/runtime/src/generation.rs]: the memory preflight, greedy token
    selection, the decode loop and the whole request, from validation to the
    report.  The loop runs on fuel; [generate_returns] shows that one unit per
    requested token, and one more, is enough.  The tokenizer and the weight
    reader are the class [Runtime]; a text is a UTF-8 string. *)
From S2P Require Import Prelude Rank Packet Tensor Registry Memory Protocol Report.
From S2P Require Import Cache Kernels Llama Artifacts.

(** ** Token selection *)

(** [<] on [f32] bit patterns: the sign and magnitude order, zeros equal,
    nothing below or above a NaN. *)
Definition magnitude (x : f32) : N := (x mod 2147483648)%N.
Definition f32_is_nan (x : f32) : bool := (2139095040 <? magnitude x)%N.
Definition f32_rank (x : f32) : Z :=
  if N.testbit x 31 then (- Z.of_N (magnitude x))%Z else Z.of_N (magnitude x).
Definition f32_lt (x y : f32) : bool :=
  negb (f32_is_nan x) && negb (f32_is_nan y) && (f32_rank x <? f32_rank y)%Z.

(** The scan of [Tensor::argmax] along one row; the index is cast to [u32]. *)
Fixpoint argmax_scan (l : list f32) (index acc : N) (val : f32) : N :=
  match l with
  | [] => acc
  | x :: l =>
      if f32_lt val x then argmax_scan l (index + 1) index x else argmax_scan l (index + 1) acc val
  end.
Definition argmax_row (l : list f32) : option N :=
  match l with [] => None | x :: _ => Some (argmax_scan l 0 0 x mod U32)%N end.

(** [Tensor::squeeze(0)], [argmax(D::Minus1)], [to_scalar::<u32>()]; a row
    without elements is a division by zero in the scan. *)
Definition squeeze0 (t : Tensor) : cresult Tensor :=
  match dims t with
  | [] => candle_error "squeeze"
  | 1 :: d => Ok (mkTensor (device t) (dtype t) d (elements t))
  | _ => Ok t
  end.
Definition argmax_last (t : Tensor) : cresult Tensor :=
  match last_dim (dims t) with
  | None => candle_error "argmax"
  | Some v =>
      let d := take (length (dims t) - 1) (dims t) in
      rows ← mapM (fun row => ok_or (argmax_row row) (TensorError "argmax"))
        (Tensor.blocks (product d) v (elements t));
      Ok (mkTensor (device t) U32_DTYPE d rows)
  end.
Definition to_scalar (t : Tensor) : cresult N :=
  match dims t, elements t with
  | [], [x] => Ok x
  | _, _ => candle_error "to_scalar"
  end.

(** [greedy_token]. *)
Definition greedy_token (logits : Tensor) : dresult N :=
  candle (row ← squeeze0 logits; best ← argmax_last row; to_scalar best).

(** ** Preflight *)

(** [generation_memory_preflight]. *)
Definition generation_memory_preflight (spec : ModelSpec) (dtype : PlanDType)
    (prompt_tokens requested_new_tokens : N) (budget : option MemoryBudget)
  : dresult (N * RankMemoryPlan) :=
  let max := max_position_embeddings (config spec) in
  _ ← reject_if (max <=? prompt_tokens)%N (PromptTooLong prompt_tokens max);
  let available_generation := (max - prompt_tokens)%N in
  let effective_new_tokens := N.min requested_new_tokens available_generation in
  let capacity := add64 prompt_tokens effective_new_tokens in
  memory ← for_model spec dtype capacity budget;
  Ok (effective_new_tokens, memory).

(** [token_limit_stop_reason]. *)
Definition token_limit_stop_reason (requested effective : N) : StopReason :=
  if (effective <? requested)%N then ContextLimit else MaxNewTokens.

(** ** The tokenizer and the weights *)

(** [Tokenizer]: [decode_stream] is a function of the tokens it was given. *)
Record Tokenizer : Type := mkTokenizer
  { tokenizer_encode : string -> result string (list N);
    tokenizer_decode : list N -> result string string;
    tokenizer_step : list N -> N -> result string (option string) }.

Class Runtime `{HostSystem} : Type := {
  tokenizer_from_file : PathBuf -> result string Tokenizer;
  from_mmaped_safetensors : PathBuf -> DType -> cresult VarBuilder }.

(** [PlanDType::candle]. *)
Definition candle_dtype (dtype : PlanDType) : DType :=
  match dtype with PF16 => OtherDType "F16" | PBf16 => OtherDType "BF16" | PF32 => F32 end.

(** [Tensor::new(ids)?.unsqueeze(0)?]. *)
Definition token_tensor (ids : list N) : Tensor := mkTensor Cpu U32_DTYPE [1; length ids] ids.

Section Loop.
Context {FO : FloatOps} {KE : Kernels}.
Context (model : Llama) (tokenizer : Tokenizer) (eos : N) (requested effective : N).

(** The variables of the loop; [streamed] are the tokens the decode stream saw. *)
Record Generating : Type := mkGenerating
  { cache : KvCache; generated : list N; decode_forward_count : N; next_token : N;
    streamed : list N; recorder : EventRecorder }.

Definition tokenizer_error {A} (m : result string A) : dresult A := map_err TokenizerError m.

(** [emit_token]: the tokens and the events afterwards. *)
Definition emit_token (token : N) (text : string) (generated_tokens : list N)
    (events : EventRecorder) : list N * EventRecorder :=
  (generated_tokens ++ [token], emit (TokenGenerated token text) events).

(** The part of a round that follows the choice of a token that is not EOS:
    the decode stream's text and [emit_token]. *)
Definition accept_token (s : Generating) (token : N) : dresult Generating :=
  text ← tokenizer_error (tokenizer_step tokenizer (streamed s) token);
  let t := emit_token token (default "" text) (generated s) (recorder s) in
  Ok (mkGenerating (cache s) t.1 (decode_forward_count s) token (streamed s ++ [token]) t.2).

(** One round of the loop: [inl] breaks with a reason, [inr] continues. *)
Definition decode_round (s : Generating) : dresult ((StopReason * Generating) + Generating) :=
  if (effective <=? N.of_nat (length (generated s)))%N
  then Ok (inl (token_limit_stop_reason requested effective, s))
  else
    let step := add64 (decode_forward_count s) 1 in
    let events := emit (DecodeStepStarted step) (recorder s) in
    let position := cache_len (cache s) in
    '(logits, kv) ← llama_forward model (token_tensor [next_token s]) position (cache s);
    let events := emit (DecodeStepFinished step) events in
    token ← greedy_token logits;
    let s := mkGenerating kv (generated s) step token (streamed s) events in
    if (token =? eos)%N then Ok (inl (Eos, s)) else inr <$> accept_token s token.

(** The loop. *)
Fixpoint decode_loop (fuel : nat) (s : Generating) : option (dresult (StopReason * Generating)) :=
  match fuel with
  | O => None
  | S fuel =>
      match decode_round s with
      | Err e => Some (Err e)
      | Ok (inl r) => Some (Ok r)
      | Ok (inr s) => decode_loop fuel s
      end
  end.

(** Prefill, the first token and the loop; [cache] is new. *)
Definition generate_tokens (fuel : nat) (prompt_tokens : list N) (kv : KvCache) (events : EventRecorder)
  : option (dresult (StopReason * Generating)) :=
  let events := emit (PrefillStarted (N.of_nat (length prompt_tokens))) events in
  match ('(logits, kv) ← llama_forward model (token_tensor prompt_tokens) 0 kv;
         let events := emit PrefillFinished events in
         token ← greedy_token logits;
         let s := mkGenerating kv [] 0 token [] events in
         if (token =? eos)%N then Ok (inl (Eos, s)) else inr <$> accept_token s token) with
  | Err e => Some (Err e)
  | Ok (inl r) => Some (Ok r)
  | Ok (inr s) => decode_loop fuel s
  end.
End Loop.

(** ** The request *)

(** [struct GenerationRequest]. *)
Record GenerationRequest : Type := mkRequest
  { request_model : SupportedModelId; request_dtype : PlanDType; request_prompt : string;
    request_max_new_tokens : N; device_memory_budget : option MemoryBudget }.

(** [str::chars().count()] of a UTF-8 text. *)
Fixpoint chars_count (s : string) : N :=
  match s with
  | EmptyString => 0
  | String c s => if byte_between 128 191 c then chars_count s else (1 + chars_count s)%N
  end.

Section Request.
Context {FO : FloatOps} {KE : Kernels} {HO : HostSystem} {RT : Runtime}.

(** The request up to the weights: registry, metadata, tokens and placement. *)
Definition prepare (request : GenerationRequest) (events : EventRecorder)
  : dresult (ModelSpec * ArtifactRepository * Tokenizer * list N * N * RankMemoryPlan * EventRecorder) :=
  _ ← reject_if (request_max_new_tokens request =? 0)%N
    (InvalidConfig "max_new_tokens must be at least one");
  _ ← reject_if (blank (request_prompt request)) EmptyPrompt;
  spec ← ok_or (spec_of (request_model request)) (InvalidConfig "every model id must have a registry entry");
  _ ← validate_cpu_dtype spec (request_dtype request);
  _ ← head_dim (config spec);
  let events := emit ArtifactResolutionStarted events in
  repository ← repository_new spec;
  metadata ← download_metadata repository;
  _ ← validate_metadata spec metadata;
  let events := emit ArtifactResolutionFinished events in
  tokenizer ← tokenizer_error (tokenizer_from_file (tokenizer_path metadata));
  rendered ← render_prompt (prompt_template spec) (request_prompt request);
  prompt_tokens ← tokenizer_error (tokenizer_encode tokenizer rendered);
  _ ← reject_if (Nat.eqb (length prompt_tokens) 0) EmptyPrompt;
  '(effective, memory) ← generation_memory_preflight spec (request_dtype request)
    (N.of_nat (length prompt_tokens)) (request_max_new_tokens request) (device_memory_budget request);
  _ ← reject_if (bool_decide (placement memory = DoesNotFit))
    (DlirPlacementFailed (persistent_bytes memory)
       (match plan_budget memory with Some b => budget_bytes b | None => 0%N end));
  Ok (spec, repository, tokenizer, prompt_tokens, effective, memory, events).

(** The weights, the model and its cache. *)
Definition load (spec : ModelSpec) (repository : ArtifactRepository) (dtype : PlanDType)
    (memory : RankMemoryPlan) (events : EventRecorder) : dresult (Llama * KvCache * EventRecorder) :=
  let capacity := N.to_nat (context_length memory) in
  let events := emit ArtifactResolutionStarted events in
  weights ← download_weights repository spec;
  _ ← validate_checkpoint spec weights;
  let events := emit ModelLoadStarted (emit ArtifactResolutionFinished events) in
  vb ← candle (from_mmaped_safetensors weights (candle_dtype dtype));
  model ← llama_load vb (candle_dtype dtype) (config spec) capacity;
  kv ← cache_new (config spec) capacity (candle_dtype dtype) Cpu;
  Ok (model, kv, emit ModelLoadFinished events).

(** The report of a finished loop; without a token there is no decoding. *)
Definition finish_report (request : GenerationRequest) (spec : ModelSpec) (tokenizer : Tokenizer)
    (prompt_tokens : list N) (memory : RankMemoryPlan) (reason : StopReason) (s : Generating)
  : dresult GenerationReport :=
  let events := emit (GenerationFinished reason) (recorder s) in
  completion ← match generated s with
    | [] => Ok ""
    | _ => tokenizer_error (tokenizer_decode tokenizer (generated s))
    end;
  bytes ← used_bytes (cache s) (config spec) (dtype_bytes (request_dtype request));
  Ok {| schema_version := 1;
        report_model := request_model request;
        report_repository := repository spec;
        report_revision := revision spec;
        report_device := "cpu";
        report_dtype := request_dtype request;
        topology := default_topology;
        report_memory := memory;
        final_kv_cache_bytes := bytes;
        prompt_characters := chars_count (request_prompt request);
        report_prompt_tokens := N.of_nat (length prompt_tokens);
        requested_max_new_tokens := request_max_new_tokens request;
        generated_tokens := generated s;
        completion := completion;
        stop_reason := reason;
        report_events := Report.events events |}.

(** [generate]. *)
Definition generate (request : GenerationRequest) : option (dresult GenerationReport) :=
  match prepare request recorder_new with
  | Err e => Some (Err e)
  | Ok (spec, repository, tokenizer, prompt_tokens, effective, memory, events) =>
      match load spec repository (request_dtype request) memory events with
      | Err e => Some (Err e)
      | Ok (model, kv, events) =>
          r ← generate_tokens model tokenizer (eos_token_id (config spec))
                (request_max_new_tokens request) effective (S (N.to_nat effective))
                prompt_tokens kv events;
          Some ('(reason, s) ← r; finish_report request spec tokenizer prompt_tokens memory reason s)
      end
  end.
End Request.
