(* ===== verification/GenerationProofs.v ===== *)
(** * Properties of generation

    The theorems about [Generation.v]: greedy selection takes the first largest
    logit, the loop terminates, a report is consistent with its events and with
    the memory plan, and no forward pass runs out of cache. *)
From S2P Require Import Prelude Rank Packet Tensor Registry Memory Protocol Report.
From S2P Require Import Cache Kernels Llama LlamaStage Artifacts Generation.

(** ** Greedy selection *)

(** [i] is the first position of a largest element. *)
Definition first_max (l : list f32) (i : nat) (x : f32) : Prop :=
  l !! i = Some x /\
  forall j y, l !! j = Some y -> f32_lt x y = false /\ (j < i -> f32_lt y x = true).

Definition numbers (l : list f32) : Prop := Forall (fun x => f32_is_nan x = false) l.

Lemma numbers_lookup l j y : numbers l -> l !! j = Some y -> f32_is_nan y = false.
Proof. intros H. apply (proj1 (list.Forall_lookup _ _) H). Qed.

Lemma f32_lt_rank x y : f32_is_nan x = false -> f32_is_nan y = false ->
  f32_lt x y = (f32_rank x <? f32_rank y)%Z.
Proof. intros Hx Hy. unfold f32_lt. by rewrite Hx, Hy. Qed.

Lemma argmax_scan_spec l pre acc val :
  numbers (pre ++ l) -> first_max pre acc val ->
  exists i x, argmax_scan l (N.of_nat (length pre)) (N.of_nat acc) val = N.of_nat i /\
    first_max (pre ++ l) i x.
Proof.
  revert pre acc val. induction l as [|x l IH]; intros pre acc val Hn Hm; cbn [argmax_scan].
  - exists acc, val. split; [done|]. by rewrite app_nil_r.
  - replace (N.of_nat (length pre) + 1)%N with (N.of_nat (length (pre ++ [x])))
      by (rewrite length_app; cbn; lia).
    replace (pre ++ x :: l) with ((pre ++ [x]) ++ l) in * by (by rewrite <- app_assoc).
    assert (forall j y, (pre ++ [x]) !! j = Some y -> f32_is_nan y = false) as Hnn.
    { intros j y Hj. apply (numbers_lookup _ j y Hn). by apply lookup_app_l_Some. }
    assert (f32_is_nan x = false) as Hx by (apply (Hnn (length pre)), list_lookup_middle; done).
    destruct Hm as [Hacc Hall]. pose proof (lookup_app_l_Some pre [x] acc val Hacc) as Hacc'.
    pose proof (Hnn _ _ Hacc') as Hv. pose proof (lookup_lt_Some _ _ _ Hacc) as Hlt.
    assert (forall j y, (pre ++ [x]) !! j = Some y -> (j < length pre /\ pre !! j = Some y) \/
      (j = length pre /\ y = x)) as Hcase.
    { intros j y [Hj|[Hj H]]%lookup_app_Some; [left; split; [by eapply lookup_lt_Some|done]|].
      right. apply list_lookup_singleton_Some in H as [Hz ->]. split; [lia|done]. }
    destruct (f32_lt val x) eqn:E.
    + apply IH; [done|]. split; [by apply list_lookup_middle|]. intros j y Hj.
      rewrite f32_lt_rank in E by done. rewrite !f32_lt_rank by (done || by eapply Hnn).
      destruct (Hcase j y Hj) as [[Hj1 Hj2]|[-> ->]].
      * destruct (Hall j y Hj2) as [H1 _]. rewrite f32_lt_rank in H1 by (done || by eapply Hnn). lia.
      * split; [lia|]. intros; lia.
    + apply IH; [done|]. split; [done|]. intros j y Hj.
      destruct (Hcase j y Hj) as [[Hj1 Hj2]|[-> ->]]; [by apply Hall|]. split; [done|lia].
Qed.

Lemma argmax_row_spec l :
  l <> [] -> numbers l -> (N.of_nat (length l) <= U32)%N ->
  exists i x, argmax_row l = Some (N.of_nat i) /\ first_max l i x.
Proof.
  intros Hne Hn Hb. destruct l as [|x l]; [done|]. unfold argmax_row. cbn [argmax_scan].
  assert (f32_lt x x = false) as -> by (unfold f32_lt; rewrite Z.ltb_irrefl; by rewrite andb_false_r).
  destruct (argmax_scan_spec l [x] 0 x Hn) as (i & y & H & Hm).
  - split; [done|]. intros j y H. apply list_lookup_singleton_Some in H as [<- <-].
    split; [unfold f32_lt; rewrite Z.ltb_irrefl; by rewrite andb_false_r|lia].
  - exists i, y. split; [|done]. f_equal. cbn [length] in H. change (N.of_nat 1) with (0 + 1)%N in H.
    change (N.of_nat 0) with 0%N in H. rewrite H. apply N.mod_small.
    destruct Hm as [Hi%lookup_lt_Some _]. cbn in Hi, Hb. lia.
Qed.

(** The chosen token is the first position of a largest logit, provided none
    is NaN and the vocabulary fits [u32]. *)
Theorem greedy_token_is_argmax logits v :
  tensor_wf logits -> dims logits = [1; v] -> v <> 0 -> (N.of_nat v <= U32)%N ->
  numbers (elements logits) ->
  exists i x, greedy_token logits = Ok (N.of_nat i) /\ i < v /\ first_max (elements logits) i x.
Proof.
  intros Hwf Hd Hv Hb Hn. unfold tensor_wf in Hwf. rewrite Hd in Hwf. unfold product in Hwf. cbn in Hwf.
  assert (elements logits <> []) as Hne by (intros E; rewrite E in Hwf; cbn in Hwf; lia).
  destruct (argmax_row_spec _ Hne Hn ltac:(lia)) as (i & x & Hi & Hm). exists i, x.
  split; [|split; [|done]].
  - unfold greedy_token, squeeze0. rewrite Hd. cbn [mbind result_bind].
    unfold argmax_last, last_dim. cbn [dims elements device length lookup list_lookup Nat.sub take].
    change (Tensor.blocks (product []) v (elements logits)) with [take v (elements logits)].
    rewrite take_ge by lia. cbn [mapM]. rewrite Hi. done.
  - destruct Hm as [Hm _]. apply lookup_lt_Some in Hm. lia.
Qed.

Lemma greedy_token_is_argmax_witness :
  exists i x, greedy_token (mkTensor Cpu F32 [1; 4] [0; 1073741824; 1065353216; 1073741824]%N)
    = Ok (N.of_nat i) /\ i < 4 /\ first_max [0; 1073741824; 1065353216; 1073741824]%N i x.
Proof.
  apply (greedy_token_is_argmax (mkTensor Cpu F32 [1; 4] [0; 1073741824; 1065353216; 1073741824]%N) 4
    eq_refl eq_refl); [discriminate|discriminate|]. repeat constructor.
Defined.

(** ** The cache of a run *)

(** [n] positions are stored in every one of [L] layers, with room for [cap]. *)
Record cache_at (kv : KvCache) (L cap n : nat) : Prop := {
  at_uniform : uniform kv n;
  at_layers : length (layers kv) = L;
  at_capacity : cache_capacity kv = cap;
  at_room : Forall (fun l => layer_capacity l = cap) (layers kv) }.

Lemma cache_at_len kv L cap n : cache_at kv L cap n -> cache_len kv = n.
Proof. intros [[Hne Hu] _ _ _]. unfold cache_len. destruct (layers kv); [done|]. by inversion Hu. Qed.

Lemma cache_new_at config capacity dt dev kv :
  cache_new config capacity dt dev = Ok kv ->
  cache_at kv (N.to_nat (num_hidden_layers config)) capacity 0.
Proof.
  unfold cache_new, new_for_layers. intros H. apply bind_Ok in H as (? & _ & H).
  apply bind_Ok in H as (? & Hl%reject_if_Ok & H). apply bind_Ok in H as (? & _ & H).
  apply bind_Ok in H as (ls & Hm%mapM_Forall2 & [= <-]). bool_prop.
  pose proof (Forall2_length Hm) as Hlen. rewrite length_seq in Hlen.
  assert (Forall (fun l => layer_length l = 0 /\ layer_capacity l = capacity) ls) as HF.
  { clear -Hm. induction Hm as [|? l ? ? Hl _ IH]; constructor; [|done].
    unfold layer_new in Hl. by apply bind_Ok in Hl as (? & _ & [= <-]). }
  split; cbn [layers cache_capacity]; [split|done|done|].
  - cbn [layers]. intros ->. cbn in Hlen. lia.
  - revert HF. apply Forall_impl. by intros l [].
  - revert HF. apply Forall_impl. by intros l [].
Qed.

(** [fits m]: [m] does not fail for want of cache capacity. *)
Definition fits {A} (m : dresult A) : Prop := forall a c, m <> Err (CacheCapacityExceeded a c).

Lemma fits_bind {A B} (m : dresult A) (f : A -> dresult B) :
  fits m -> (forall a, m = Ok a -> fits (f a)) -> fits (m ≫= f).
Proof. intros Hm Hf. destruct m as [a|e]; [by apply Hf|]. intros x c [= ->]. by apply (Hm x c). Qed.
Lemma fits_Ok {A} (a : A) : fits (Ok a).
Proof. by intros x c. Qed.
Lemma fits_candle {A} (m : cresult A) : fits (candle m).
Proof. intros x c. by destruct m. Qed.
Lemma fits_reject c e : (forall a b, e <> CacheCapacityExceeded a b) -> fits (reject_if c e).
Proof. intros H x y. destruct c; cbn; [intros [= E]; by apply (H x y)|done]. Qed.
Lemma fits_ok_or {A} (o : option A) e : (forall a b, e <> CacheCapacityExceeded a b) -> fits (ok_or o e).
Proof. intros H x y. destruct o; cbn; [done|]. intros [= E]. by apply (H x y). Qed.
Lemma fits_map_err {A E} (f : E -> DlirError) (m : result E A) :
  (forall e a b, f e <> CacheCapacityExceeded a b) -> fits (map_err f m).
Proof. intros H x y. destruct m as [|e]; cbn; [done|]. intros [= E']. by apply (H e x y). Qed.
Lemma fits_fmap {A B} (f : A -> B) (m : dresult A) : fits m -> fits (f <$> m).
Proof. intros H x y. destruct m; cbn; [done|]. intros [= E]. by apply (H x y); rewrite E. Qed.

Ltac fits :=
  repeat first
    [ apply fits_Ok | apply fits_candle | apply fits_fmap
    | apply fits_reject; discriminate | apply fits_ok_or; discriminate
    | apply fits_map_err; discriminate
    | apply fits_bind; [|intros ? ?; repeat match goal with x : prod _ _ |- _ => destruct x end] ].

Section Forward.
Context {FO : FloatOps} {KE : Kernels}.

Lemma layer_append_fits l k v a b s d :
  dims k = [a; b; s; d] -> layer_length l + s <= layer_capacity l -> fits (layer_append l k v).1.
Proof.
  intros Hk Hs. unfold layer_append. destruct (bool_decide _); cbn [negb]; [|by intros x y].
  unfold dims4. rewrite Hk. cbv zeta. destruct (Nat.ltb_spec (layer_capacity l) (layer_length l + s)); [lia|].
  destruct (slice_set _ _ _ _); [|apply fits_candle]. destruct (slice_set _ _ _ _); apply fits_candle.
Qed.

Lemma layer_step_fits b h position rope l a s w :
  dims h = [a; s; w] -> layer_length l + s <= layer_capacity l -> fits (layer_step b h position rope l).
Proof.
  intros Hh Hs. unfold layer_step. apply fits_bind; [fits|]. intros n Hn%candle_Ok.
  assert (dims n = dims h) as Hdn by (unfold rms_norm in Hn; case_bool_decide; [by injection Hn as <-|done]).
  unfold dims3. rewrite Hdn, Hh. cbn [candle map_err]. rewrite Ok_bind. cbn beta iota.
  apply fits_bind; [fits|]. intros q _. apply fits_bind; [fits|]. intros k Hk%candle_Ok%project_dims.
  apply fits_bind; [fits|]. intros v _. apply fits_bind; [apply fits_candle|]. intros q' _.
  apply fits_bind; [apply fits_candle|]. intros k' Hk'%rotary_apply_dims. rewrite Hk in Hk'.
  pose proof (layer_append_fits l k' v _ _ _ _ Hk' Hs) as Ha.
  destruct (layer_append l k' v) as [r l']. cbn [fst] in Ha. apply fits_bind; [done|]. intros [k1 v1] _.
  unfold mlp_forward. fits.
Qed.

Lemma run_layers_fits bs ls h position rope a s w :
  dims h = [a; s; w] -> Forall (fun l => layer_length l + s <= layer_capacity l) ls ->
  fits (run_layers bs ls h position rope).
Proof.
  revert ls h. induction bs as [|b bs IH]; intros [|l ls] h Hh HF; cbn [run_layers]; try apply fits_Ok.
  inversion HF as [|? ? Hl HF']; subst. apply fits_bind; [by eapply layer_step_fits|].
  intros [h1 l1] H1. destruct (layer_step_shape _ _ _ _ _ _ _ _ _ _ H1 Hh) as (Hd & _).
  apply fits_bind; [apply IH; congruence|]. intros [h2 l2] _. apply fits_Ok.
Qed.

(** A pass that succeeds advances every layer; one that has room does not
    fail for want of it. *)
Lemma llama_forward_at model ids kv L cap n s :
  cache_at kv L cap n -> length (blocks model) = L -> dims ids = [1; s] -> s <> 0 -> n + s <= cap ->
  fits (llama_forward model ids n kv) /\
  forall logits kv', llama_forward model ids n kv = Ok (logits, kv') -> cache_at kv' L cap (n + s).
Proof.
  intros Hat HL Hd Hs Hcap. pose proof Hat as [[Hne Hu] Hlen Hc Hroom].
  destruct (embedding (embeddings model) ids) as [hidden|e] eqn:Hemb.
  - destruct (embedding_dims _ _ _ _ Hemb Hd) as (w & Hdh & _).
    rewrite (llama_forward_layers model ids n kv s hidden) by (done || lia || congruence).
    split.
    + apply fits_bind.
      * apply (run_layers_fits _ _ _ _ _ 1 s w Hdh). pose proof (List.Forall_and Hu Hroom) as HF.
        revert HF. apply Forall_impl. intros l [-> ->]. done.
      * intros [h ls] _. fits.
    + intros logits kv' H. apply bind_Ok in H as ([h ls] & Hrun & H).
      apply bind_Ok in H as (lg & _ & [= _ <-]).
      destruct (run_layers_shape _ _ _ _ _ _ _ _ _ _ Hrun ltac:(congruence) Hdh) as (_ & _ & _ & Hadv).
      pose proof (Forall2_length Hadv) as Hll.
      split; cbn [layers cache_capacity]; [split|congruence|done|].
      * cbn [layers]. intros ->. destruct (layers kv); done.
      * by eapply advanced_uniform.
      * clear -Hadv Hroom. induction Hadv as [|? ? ? ? [_ H] _ IH]; inversion Hroom; subst; constructor; auto; congruence.
  - assert (llama_forward model ids n kv = candle (Err e)) as ->; [|by split; [apply fits_candle|]].
    unfold llama_forward, dims2. rewrite Hd. cbn [candle map_err]. rewrite Ok_bind. cbn beta iota.
    cbn [Nat.eqb negb reject_if]. rewrite Ok_bind, (proj2 (Nat.eqb_neq s 0) Hs). cbn [reject_if].
    rewrite Ok_bind, (cache_at_len _ _ _ _ Hat), Nat.eqb_refl, Hc. cbn [negb reject_if]. rewrite Ok_bind.
    destruct (Nat.ltb_spec cap (n + s)); [lia|]. cbn [reject_if]. by rewrite Ok_bind, Hemb.
Qed.
End Forward.

(** ** The loop *)

(** A recorder with at most [bound] events, numbered from zero. *)
Definition logged (bound : nat) (self : EventRecorder) : Prop :=
  well_numbered self /\ length (events self) <= bound.
Lemma logged_emit bound kind self : (N.of_nat (S bound) < U64)%N -> logged bound self -> logged (S bound) (emit kind self).
Proof.
  intros Hb [Hn Hl]. split; [apply emit_numbered; [lia|done]|]. cbn [emit events]. rewrite length_app. cbn. lia.
Qed.
Lemma logged_le bound bound' self : bound <= bound' -> logged bound self -> logged bound' self.
Proof. intros Hb [Hn Hl]. split; [done|lia]. Qed.

Section Loop.
Context {FO : FloatOps} {KE : Kernels}.
Context (model : Llama) (tokenizer : Tokenizer) (eos requested effective : N).
Context (L cap p before : nat).
Hypotheses (Hblocks : length (blocks model) = L) (Hcap : cap = p + N.to_nat effective).
(** A round emits at most three events; [before] are there before the prefill. *)
#[local] Abbreviation log_bound count := (before + 3 * count).
Hypothesis Hlog : (N.of_nat (log_bound (N.to_nat effective)) < U64)%N.

(** Between rounds: the chosen tokens, all but the last one in the cache. *)
Record running (s : Generating) : Prop := {
  run_count : (N.of_nat (length (generated s)) <= effective)%N;
  run_next : exists earlier, generated s = earlier ++ [next_token s];
  run_eos : eos ∉ generated s;
  run_events : announced (events (recorder s)) = generated s;
  run_logged : logged (log_bound (length (generated s))) (recorder s);
  run_cache : cache_at (cache s) L cap (p + (length (generated s) - 1)) }.

(** After the loop. *)
Record finished (reason : StopReason) (s : Generating) : Prop := {
  fin_eos : eos ∉ generated s;
  fin_count : (N.of_nat (length (generated s)) <= effective)%N;
  fin_events : announced (events (recorder s)) = generated s;
  fin_logged : logged (log_bound (N.to_nat effective)) (recorder s);
  fin_cache : exists n, cache_at (cache s) L cap n /\ n <= cap;
  fin_reason : match reason with
               | Eos => next_token s = eos /\ (N.of_nat (length (generated s)) < effective)%N
               | MaxNewTokens => N.of_nat (length (generated s)) = effective /\ (requested <= effective)%N
               | ContextLimit => N.of_nat (length (generated s)) = effective /\ (effective < requested)%N
               end }.

(** What an accepted token adds. *)
Lemma accept_token_adds s token :
  fits (accept_token tokenizer s token) /\
  forall s', accept_token tokenizer s token = Ok s' ->
    generated s' = generated s ++ [token] /\ next_token s' = token /\ cache s' = cache s /\
    announced (events (recorder s')) = announced (events (recorder s)) ++ [token] /\
    exists text, recorder s' = emit (TokenGenerated token text) (recorder s).
Proof.
  unfold accept_token. split; [unfold tokenizer_error; fits|].
  intros s' H. apply bind_Ok in H as (text & _ & [= <-]). cbn [generated next_token cache recorder].
  rewrite announced_emit. split_and!; [done..|]. by eexists.
Qed.

Lemma accepted_running s token s' :
  accept_token tokenizer s token = Ok s' -> token <> eos ->
  eos ∉ generated s -> announced (events (recorder s)) = generated s ->
  (N.of_nat (length (generated s)) < effective)%N ->
  logged (2 + log_bound (length (generated s))) (recorder s) ->
  cache_at (cache s) L cap (p + length (generated s)) -> running s'.
Proof.
  intros Ha Hne He Hev Hlt Hlogged Hc.
  apply (proj2 (accept_token_adds s token)) in Ha as (Hg & Hn & Hca & Han & text & Hr).
  split; rewrite ?Hg, ?length_app; cbn [length].
  - lia.
  - exists (generated s). by rewrite Hn.
  - rewrite elem_of_app, list_elem_of_singleton. intros [Hin| ->]; done.
  - by rewrite Han, Hev.
  - rewrite Hr. apply (logged_emit _ (TokenGenerated token text)) in Hlogged; [|lia].
    eapply logged_le; [|exact Hlogged]. lia.
  - rewrite Hca. by replace (length (generated s) + 1 - 1) with (length (generated s)) by lia.
Qed.

Definition round_spec (s : Generating) (r : (StopReason * Generating) + Generating) : Prop :=
  match r with
  | inl (reason, s') => finished reason s'
  | inr s' => running s' /\ length (generated s') = S (length (generated s))
  end.

Lemma limit_finished s :
  running s -> (effective <= N.of_nat (length (generated s)))%N ->
  finished (token_limit_stop_reason requested effective) s.
Proof.
  intros [Hc _ He Hev Hlogged Hca] Hle. split; [done|lia|done| | |].
  - eapply logged_le; [|exact Hlogged]. lia.
  - eexists. split; [exact Hca|]. lia.
  - unfold token_limit_stop_reason. destruct (N.ltb_spec effective requested); lia.
Qed.

(** A token was chosen from logits. *)
Lemma chosen_round s token :
  eos ∉ generated s -> announced (events (recorder s)) = generated s ->
  (N.of_nat (length (generated s)) < effective)%N -> next_token s = token ->
  logged (2 + log_bound (length (generated s))) (recorder s) ->
  cache_at (cache s) L cap (p + length (generated s)) ->
  fits (if (token =? eos)%N then Ok (inl (Eos, s)) else inr <$> accept_token tokenizer s token) /\
  forall r, (if (token =? eos)%N then Ok (inl (Eos, s)) else inr <$> accept_token tokenizer s token) = Ok r ->
    round_spec s r.
Proof.
  intros He Hev Hlt Hn Hlogged Hc. destruct (N.eqb_spec token eos) as [->|Hne].
  - split; [fits|]. intros r [= <-]. cbn. split; [done|lia|done| | |done].
    + eapply logged_le; [|exact Hlogged]. lia.
    + eexists. split; [exact Hc|]. lia.
  - split; [apply fits_fmap, accept_token_adds|]. intros r Hr.
    destruct (accept_token tokenizer s token) as [s'|] eqn:Ha; [|done]. injection Hr as <-.
    split; [by eapply accepted_running|].
    apply (proj2 (accept_token_adds s token)) in Ha as (-> & _). rewrite length_app. cbn. lia.
Qed.

Lemma decode_round_spec s :
  running s ->
  fits (decode_round model tokenizer eos requested effective s) /\
  forall r, decode_round model tokenizer eos requested effective s = Ok r -> round_spec s r.
Proof.
  intros Hrun. pose proof Hrun as [Hc [earlier Hnx] He Hev Hlogged Hca]. unfold decode_round.
  destruct (N.leb_spec effective (N.of_nat (length (generated s)))) as [Hle|Hlt].
  { split; [fits|]. intros r [= <-]. by apply limit_finished. }
  assert (0 < length (generated s)) as Hpos by (rewrite Hnx, length_app; cbn; lia).
  destruct (llama_forward_at model (token_tensor [next_token s]) (cache s) L cap
    (p + (length (generated s) - 1)) 1 Hca Hblocks eq_refl ltac:(lia) ltac:(lia)) as [Hfit Hfwd].
  rewrite (cache_at_len _ _ _ _ Hca). cbv zeta.
  replace (p + (length (generated s) - 1) + 1) with (p + length (generated s)) in Hfwd by lia.
  assert (forall step, logged (2 + log_bound (length (generated s)))
    (emit (DecodeStepFinished step) (emit (DecodeStepStarted step) (recorder s)))) as Hlogged'
    by (intros step; apply logged_emit; [|apply logged_emit]; [lia|lia|exact Hlogged]).
  split.
  - apply fits_bind; [done|]. intros [logits kv] Hf. apply fits_bind; [apply fits_candle|].
    intros token _. apply (chosen_round (mkGenerating kv (generated s) _ token (streamed s) _) token);
      cbn [generated recorder next_token cache]; rewrite ?announced_emit, ?app_nil_r; try done.
    by apply (Hfwd logits).
  - intros r H. apply bind_Ok in H as ([logits kv] & Hf & H). apply bind_Ok in H as (token & _ & H).
    eapply (chosen_round (mkGenerating kv (generated s) _ token (streamed s) _) token) in H;
      cbn [generated recorder next_token cache]; rewrite ?announced_emit, ?app_nil_r; try done.
    by apply (Hfwd logits).
Qed.

(** The loop ends within one round per token that may still come, and one. *)
Lemma decode_loop_returns fuel s :
  running s -> N.to_nat effective - length (generated s) < fuel ->
  exists r, decode_loop model tokenizer eos requested effective fuel s = Some r /\ fits r /\
    forall reason s', r = Ok (reason, s') -> finished reason s'.
Proof.
  revert s. induction fuel as [|fuel IH]; intros s Hrun Hf; [lia|]. cbn [decode_loop].
  destruct (decode_round_spec s Hrun) as [Hfit Hspec].
  destruct (decode_round _ _ _ _ _ s) as [[[reason s']|s']|e] eqn:E.
  - eexists. split; [done|]. split; [apply fits_Ok|]. intros reason0 s0 [= <- <-]. by apply (Hspec _ eq_refl).
  - destruct (Hspec _ eq_refl) as [Hrun' Hlen]. apply IH; [done|]. pose proof (run_count _ Hrun'). lia.
  - eexists. split; [done|]. split; [|done]. intros a c [= ->]. by apply (Hfit a c).
Qed.

Lemma generate_tokens_returns prompt_tokens kv evs :
  length prompt_tokens = p -> p <> 0 -> (0 < effective)%N -> cache_at kv L cap 0 ->
  announced (events evs) = [] -> logged before evs ->
  exists r, generate_tokens model tokenizer eos requested effective (S (N.to_nat effective))
    prompt_tokens kv evs = Some r /\ fits r /\
    forall reason s', r = Ok (reason, s') -> finished reason s'.
Proof.
  intros Hp Hp0 Heff Hca Hev Hevs. unfold generate_tokens. cbv zeta.
  assert (logged (2 + before) (emit PrefillFinished (emit (PrefillStarted (N.of_nat (length prompt_tokens))) evs)))
    as Hlogged by (apply logged_emit; [|apply logged_emit]; [lia|lia|exact Hevs]).
  destruct (llama_forward_at model (token_tensor prompt_tokens) kv L cap 0 p Hca Hblocks
    ltac:(by rewrite <- Hp) Hp0 ltac:(lia)) as [Hfit Hfwd].
  match goal with |- context [match ?m with Ok _ => _ | Err _ => _ end] =>
    assert (fits m /\ forall r, m = Ok r -> exists s, generated s = [] /\ round_spec s r) as [Hm Hr] end.
  { split.
    - apply fits_bind; [done|]. intros [logits kv'] Hf. apply fits_bind; [apply fits_candle|].
      intros token _. apply (chosen_round (mkGenerating kv' [] 0 token [] _) token);
        cbn [generated recorder next_token cache length]; rewrite ?announced_emit, ?app_nil_r, ?Nat.add_0_r;
        try (done || apply not_elem_of_nil || exact Hlogged). by apply (Hfwd logits).
    - intros r H. apply bind_Ok in H as ([logits kv'] & Hf & H). apply bind_Ok in H as (token & _ & H).
      eapply (chosen_round (mkGenerating kv' [] 0 token [] _) token) in H;
        cbn [generated recorder next_token cache length]; rewrite ?announced_emit, ?app_nil_r, ?Nat.add_0_r;
        try (done || apply not_elem_of_nil || exact Hlogged); [|by apply (Hfwd logits)].
      eexists. split; [|exact H]. done. }
  match goal with |- context [match ?m with Ok _ => _ | Err _ => _ end] => destruct m as [[[reason s]|s]|e] end.
  - destruct (Hr _ eq_refl) as (s0 & _ & Hs). eexists. split; [done|]. split; [apply fits_Ok|].
    by intros reason' s' [= <- <-].
  - destruct (Hr _ eq_refl) as (s0 & Hg & Hs & Hl). apply decode_loop_returns; [done|].
    rewrite Hl, Hg. cbn. lia.
  - eexists. split; [done|]. split; [|done]. intros a c [= ->]. by apply (Hm a c).
Qed.
End Loop.

(** ** The request *)

Section Request.
Context {FO : FloatOps} {KE : Kernels} {HO : HostSystem} {RT : Runtime}.

Lemma fits_mapM {A B} (f : A -> dresult B) l : (forall a, fits (f a)) -> fits (mapM f l).
Proof. intros Hf. induction l as [|a l IH]; cbn [mapM]; fits; done. Qed.

Lemma head_dim_fits cfg : fits (head_dim cfg).
Proof. unfold head_dim. do 2 (destruct (_ || _); [done|]). done. Qed.

Lemma check_markers_fits spec template markers : fits (check_markers spec template markers).
Proof. induction markers as [|m l IH]; cbn [check_markers]; fits; done. Qed.

Lemma validate_metadata_fits spec artifacts : fits (validate_metadata spec artifacts).
Proof. unfold validate_metadata. fits. apply check_markers_fits. Qed.

Lemma for_model_fits spec dtype c b : fits (for_model spec dtype c b).
Proof.
  unfold for_model, parameter_breakdown.
  repeat (first [apply head_dim_fits | progress fits]).
Qed.

Lemma prepare_fits request evs : fits (prepare request evs).
Proof.
  unfold prepare, repository_new, download_metadata, get, tokenizer_error, validate_cpu_dtype,
    render_prompt, generation_memory_preflight.
  repeat (first [apply head_dim_fits | apply check_markers_fits | apply for_model_fits
    | match goal with |- fits (if ?b then _ else _) => destruct b; [done|] end | progress fits]).
Qed.

Lemma block_load_fits vb index config : fits (block_load vb index config).
Proof.
  unfold block_load, attention_load, mlp_load.
  repeat (first [apply head_dim_fits | progress fits]).
Qed.

Lemma load_fits spec repository dtype memory evs : fits (load spec repository dtype memory evs).
Proof.
  unfold load, download_weights, get, validate_checkpoint, validate_tensor_metadata,
    expected_tensor_shapes, llama_load, rotary_new, cache_new, new_for_layers, layer_new.
  repeat (first [apply head_dim_fits | apply block_load_fits | apply fits_mapM; intros
    | match goal with |- fits (if ?b then _ else _) => destruct b end | progress fits]).
Qed.

Lemma finish_report_fits request spec tokenizer prompt_tokens memory reason s :
  fits (finish_report request spec tokenizer prompt_tokens memory reason s).
Proof.
  unfold finish_report, tokenizer_error, used_bytes. apply fits_bind.
  - destruct (generated s); fits.
  - intros text _. repeat (first [apply head_dim_fits | progress fits]).
Qed.

(** What holds once the request is admitted. *)
Record prepared (request : GenerationRequest) (spec : ModelSpec) (prompt : list N) (effective : N)
    (memory : RankMemoryPlan) (evs : EventRecorder) : Prop := {
  prep_spec : spec_of (request_model request) = Some spec;
  prep_requested : (0 < request_max_new_tokens request)%N;
  prep_prompt : length prompt <> 0;
  prep_room : (N.of_nat (length prompt) < max_position_embeddings (config spec))%N;
  prep_effective : effective = N.min (request_max_new_tokens request)
    (max_position_embeddings (config spec) - N.of_nat (length prompt));
  prep_memory : plan_exact spec (request_dtype request) (N.of_nat (length prompt) + effective)
    (device_memory_budget request) memory;
  prep_fits : placement memory <> DoesNotFit;
  prep_events : announced (events evs) = [];
  prep_logged : logged 2 evs }.

Lemma context_small model spec : spec_of model = Some spec ->
  (max_position_embeddings (config spec) < U64)%N.
Proof. destruct model; intros [= <-]; by vm_compute. Qed.
Lemma context_countable model spec : spec_of model = Some spec ->
  (8 * max_position_embeddings (config spec) < U64)%N.
Proof. destruct model; intros [= <-]; by vm_compute. Qed.

Lemma prepare_Ok request spec repository tokenizer prompt effective memory evs :
  prepare request recorder_new = Ok (spec, repository, tokenizer, prompt, effective, memory, evs) ->
  prepared request spec prompt effective memory evs.
Proof.
  unfold prepare. intros H.
  apply bind_Ok in H as (? & Hreq%reject_if_Ok & H). apply bind_Ok in H as (? & _ & H).
  apply bind_Ok in H as (spec' & Hspec%ok_or_Ok & H). do 2 apply bind_Ok in H as (? & _ & H).
  do 5 apply bind_Ok in H as (? & _ & H). apply bind_Ok in H as (prompt' & _ & H).
  apply bind_Ok in H as (? & Hp%reject_if_Ok & H). apply bind_Ok in H as ([eff mem] & Hpre & H).
  apply bind_Ok in H as (? & Hplace%reject_if_Ok & H). injection H as <- _ _ <- <- <- <-.
  unfold generation_memory_preflight in Hpre. apply bind_Ok in Hpre as (? & Hroom%reject_if_Ok & Hpre).
  apply bind_Ok in Hpre as (mem' & Hm & [= <- <-]). apply for_model_exact in Hm. bool_prop.
  pose proof (context_small _ _ Hspec).
  rewrite add64_small in Hm by lia. split; try done; [lia|].
  apply logged_emit; [by vm_compute|]. apply logged_emit; [by vm_compute|]. by split; [apply recorder_new_numbered|].
Qed.

Lemma load_Ok spec repository dtype memory evs model kv evs' :
  load spec repository dtype memory evs = Ok (model, kv, evs') ->
  length (blocks model) = N.to_nat (num_hidden_layers (config spec)) /\
  cache_at kv (N.to_nat (num_hidden_layers (config spec))) (N.to_nat (context_length memory)) 0 /\
  announced (events evs') = announced (events evs) /\
  forall bound, (N.of_nat (4 + bound) < U64)%N -> logged bound evs -> logged (4 + bound) evs'.
Proof.
  unfold load. intros H. do 3 apply bind_Ok in H as (? & _ & H).
  apply bind_Ok in H as (m & Hm & H). apply bind_Ok in H as (c & Hc & [= <- <- <-]).
  apply llama_load_blocks in Hm as [_ Hb]. apply cache_new_at in Hc.
  rewrite !announced_emit, !app_nil_r. split_and!; [done..|]. intros bound Hbound Hl.
  repeat (apply logged_emit; [lia|]). exact Hl.
Qed.

Lemma stopped {A B} e (P : B -> Prop) :
  fits (Err e : dresult A) ->
  exists r : dresult B, Some (Err e) = Some r /\ fits r /\ forall b, r = Ok b -> P b.
Proof. intros Hf. eexists. split; [done|]. split; [intros a c [= ->]; by apply (Hf a c)|done]. Qed.

(** The whole run of an admitted request. *)
Lemma generate_runs request :
  exists r, generate request = Some r /\ fits r /\
    forall rep, r = Ok rep -> exists spec tokenizer prompt effective memory evs s L,
      prepared request spec prompt effective memory evs /\
      L = N.to_nat (num_hidden_layers (config spec)) /\
      finished (eos_token_id (config spec)) (request_max_new_tokens request) effective L
        (length prompt + N.to_nat effective) 6 (stop_reason rep) s /\
      finish_report request spec tokenizer prompt memory (stop_reason rep) s = Ok rep.
Proof.
  unfold generate. pose proof (prepare_fits request recorder_new) as Hpf.
  destruct (prepare request recorder_new) as [[[[[[[spec repository] tokenizer] prompt] effective] memory] evs]|e] eqn:Hp;
    [|exact (stopped _ _ Hpf)].
  apply prepare_Ok in Hp. pose proof Hp as [Hspec Hreq Hpr Hroom Heff Hmem _ Hev Hlogged].
  pose proof (context_countable _ _ Hspec) as Hsmall. pose proof (load_fits spec repository (request_dtype request) memory evs) as Hlf.
  destruct (load _ _ _ _ _) as [[[model kv] evs']|e] eqn:Hl; [|exact (stopped _ _ Hlf)].
  apply load_Ok in Hl as (Hb & Hat & Hev' & Hlogged').
  destruct (pe_inputs _ _ _ _ _ Hmem) as (_ & Hctx & _). rewrite Hctx in Hat.
  replace (N.to_nat (N.of_nat (length prompt) + effective)) with (length prompt + N.to_nat effective) in Hat by lia.
  destruct (generate_tokens_returns model tokenizer (eos_token_id (config spec))
    (request_max_new_tokens request) effective _ _ (length prompt) 6 Hb eq_refl ltac:(lia) prompt kv evs'
    eq_refl Hpr ltac:(lia) Hat ltac:(congruence) (Hlogged' 2 ltac:(by vm_compute) Hlogged)) as (r & -> & Hrf & Hfin).
  cbn [mbind option_bind]. eexists. split; [done|]. split.
  - apply fits_bind; [done|]. intros [reason s] _. apply finish_report_fits.
  - intros rep H. apply bind_Ok in H as ([reason s] & -> & H).
    assert (stop_reason rep = reason) as <-.
    { unfold finish_report in H. apply bind_Ok in H as (? & _ & H). by apply bind_Ok in H as (? & _ & [= <-]). }
    exists spec, tokenizer, prompt, effective, memory, evs, s, (N.to_nat (num_hidden_layers (config spec))).
    split; [done|]. split; [done|]. split; [by apply Hfin|done].
Qed.

(** C23: a generation request always ends, within the fuel the model gives it (one
    round per token that fits, and one), and whatever else may fail, no forward
    pass ever fails for want of cache capacity: the preflight reserved enough. *)
Theorem generate_returns request :
  exists r, generate request = Some r /\
    forall attempted capacity, r <> Err (CacheCapacityExceeded attempted capacity).
Proof. destruct (generate_runs request) as (r & Hr & Hf & _). by exists r. Qed.

(** C22: a report tells the truth about its run: its events are rank 0's, numbered
    from zero without a gap; the tokens are those its events announce, in order, without the end token and within the limit the context
    allows; the reason it stopped is the right one; the plan covers prompt and
    tokens and fits the budget. *)
Theorem generate_report_consistent request rep :
  generate request = Some (Ok rep) ->
  exists spec, spec_of (request_model request) = Some spec /\
    let max := max_position_embeddings (config spec) in
    let count := N.of_nat (length (generated_tokens rep)) in
    (forall k e, report_events rep !! k = Some e -> event_sequence e = N.of_nat k /\ event_rank e = 0) /\
    announced (report_events rep) = generated_tokens rep /\
    (eos_token_id (config spec) ∉ generated_tokens rep) /\
    (count <= request_max_new_tokens request)%N /\
    (report_prompt_tokens rep + count <= context_length (report_memory rep) <= max)%N /\
    placement (report_memory rep) <> DoesNotFit /\
    match stop_reason rep with
    | Eos => (count < request_max_new_tokens request)%N
    | MaxNewTokens => count = request_max_new_tokens request
    | ContextLimit => (count < request_max_new_tokens request /\
        report_prompt_tokens rep + count = max)%N
    end.
Proof.
  intros H. destruct (generate_runs request) as (r & Hr & _ & Hok). rewrite Hr in H. injection H as ->.
  destruct (Hok rep eq_refl) as (spec & tk & prompt & eff & mem & evs & s & L & Hp & _ & Hfin & Hrep).
  exists spec. destruct Hp as [Hspec Hreq Hpr Hroom Heff Hmem Hplace Hev _]. split; [done|].
  pose proof (context_countable _ _ Hspec) as Hsmall. destruct Hfin as [Hne Hc Han Hlogged _ Hreason]. destruct (pe_inputs _ _ _ _ _ Hmem) as (_ & Hctx & _).
  unfold finish_report in Hrep. apply bind_Ok in Hrep as (? & _ & Hrep).
  apply bind_Ok in Hrep as (? & _ & [= <-]).
  cbn [generated_tokens report_events report_memory report_prompt_tokens stop_reason] in *.
  pose proof (announced_emit (GenerationFinished (stop_reason rep)) (recorder s)) as Hann.
  apply (logged_emit _ (GenerationFinished (stop_reason rep))) in Hlogged as [[_ Hnum] _]; [|lia].
  rewrite Han, app_nil_r in Hann. rewrite Hctx. split_and!; [exact Hnum|exact Hann|done|lia|lia|lia|done|].
  destruct (stop_reason rep); lia.
Qed.

(** C30: the plan of a request is enough: no run ends because a pass found no room in
    the cache, and the bytes in use when a run succeeds are at most those the plan
    reserved, computed without overflow. *)
Theorem generation_within_plan request :
  (forall attempted capacity, generate request <> Some (Err (CacheCapacityExceeded attempted capacity))) /\
  forall rep, generate request = Some (Ok rep) ->
    (final_kv_cache_bytes rep <= kv_cache_capacity_bytes (report_memory rep))%N /\
    (weight_bytes (report_memory rep) + final_kv_cache_bytes rep < U64)%N.
Proof.
  destruct (generate_runs request) as (r & Hr & Hfits & Hok). split.
  { intros a c H. rewrite Hr in H. injection H as H. by apply (Hfits a c). }
  intros rep H. rewrite Hr in H. injection H as ->.
  destruct (Hok rep eq_refl) as (spec & tk & prompt & eff & mem & evs & s & L & Hp & HL & Hfin & Hrep).
  pose proof (prep_memory _ _ _ _ _ _ Hp) as Hmem.
  destruct (pe_kv _ _ _ _ _ Hmem) as (hd & Hhd & Hkv).
  pose proof (pe_persistent _ _ _ _ _ Hmem) as Hper. pose proof (pe_bound _ _ _ _ _ Hmem) as Hbound.
  destruct (fin_cache _ _ _ _ _ _ _ _ Hfin) as (n & Hat & Hn).
  unfold finish_report in Hrep. apply bind_Ok in Hrep as (? & _ & Hrep).
  apply bind_Ok in Hrep as (b & Hb & [= <-]). cbn [final_kv_cache_bytes report_memory].
  unfold used_bytes in Hb. rewrite Hhd in Hb. cbn [mbind result_bind] in Hb. apply Ok_inj in Hb.
  rewrite (cache_at_len _ _ _ _ Hat), (at_layers _ _ _ _ Hat), HL, N2Nat.id in Hb.
  assert (N.of_nat n <= N.of_nat (length prompt) + eff)%N as Hn' by lia.
  rewrite Hkv in *. unfold exact_kv_bytes in *.
  set (ly := num_hidden_layers (config spec)) in *. set (kh := num_key_value_heads (config spec)) in *.
  set (by_ := dtype_bytes (request_dtype request)) in *.
  assert (2 * ly * N.of_nat n * kh * hd * by_ <= 2 * ly * (N.of_nat (length prompt) + eff) * kh * hd * by_)%N as Hle.
  { do 3 apply N.mul_le_mono_r. by apply N.mul_le_mono_l. }
  assert (b = (2 * ly * N.of_nat n * kh * hd * by_)%N) as ->; [|lia].
  rewrite <- Hb. unfold mul64. repeat (rewrite wrap64_mul_l, <- ?N.mul_assoc).
  rewrite wrap64_small; [done|]. rewrite <- !N.mul_assoc in Hle, Hper. lia.
Qed.
End Request.
