(* ===== verification/ModelExamples.v ===== *)
(** * Runs of the model

    Concrete inputs of the model theorems: kernels that return one zero, a hub
    that serves the registered files of SmolLM2, a tokenizer that reads one
    token, and a two-layer model small enough to split by hand. *)
From S2P Require Import Prelude Rank Packet Wire Tensor Registry Memory Protocol Report.
From S2P Require Import Cache Kernels Llama LlamaStage Artifacts Generation GenerationProofs.

#[local] Instance zero_floats : FloatOps := {| fadd a b := 0%N |}.
#[local] Instance zero_kernels : Kernels :=
  {| linear_values _ _ := [0%N]; matmul_values _ _ := [0%N]; rms_norm_values _ _ _ := [0%N];
     rope_values _ _ _ := [0%N]; softmax_values _ := [0%N]; fsilu x := x; fmul x y := 0%N;
     fdiv_sqrt _ x := x; fcos x := x; fsin x := x; inverse_frequency _ _ _ := 0%N;
     f32_of_nat n := N.of_nat n; convert _ t := elements t |}.

(** A weight reader that has every tensor. *)
Definition any_weights : VarBuilder := fun _ shape => Ok (mkTensor Cpu F32 shape []).

(** ** Frames

    What ranks of a registered model send one another - the activations of a pass
    over up to the whole context, and a vocabulary of logits - fits the largest frame
    of the launched ranks' transports: 36 bytes, the dimensions and the values. *)
Lemma registered_frames_fit model spec length : spec_of model = Some spec ->
  (length <= max_position_embeddings (config spec))%N ->
  (36 + 8 * 3 + 4 * (1 * length * hidden_size (config spec)) <= DEFAULT_MAX_TENSOR_BYTES)%N /\
  (36 + 8 * 2 + 4 * (1 * vocab_size (config spec)) <= DEFAULT_MAX_TENSOR_BYTES)%N.
Proof.
  intros Hs Hl. assert (4 * (max_position_embeddings (config spec) * hidden_size (config spec)) <= DEFAULT_MAX_TENSOR_BYTES - 60
    /\ 4 * vocab_size (config spec) <= DEFAULT_MAX_TENSOR_BYTES - 60)%N as [H1 H2]
    by (destruct model; injection Hs as <-; by vm_compute).
  pose proof (N.mul_le_mono_r _ _ (hidden_size (config spec)) Hl) as H.
  change DEFAULT_MAX_TENSOR_BYTES with 268435456%N in *. lia.
Qed.

(** ** Stages *)
Definition two_layers : ModelConfig := mkConfig 4 4 4 2 2 1 "1e-5" "10000.0" 8 1 2 true.

Lemma stages_compose_witness :
  exists model kv stages, llama_load any_weights F32 two_layers 8 = Ok model /\
    cache_new two_layers 8 F32 Cpu = Ok kv /\
    mapM (fun r => stage_load any_weights F32 two_layers r.1 r.2 (Nat.eqb r.1 0) (Nat.eqb r.2 2) 8)
      [(0, 1); (1, 2)] = Ok stages /\
    ok_of (pipeline_forward stages (split_cache [(0, 1); (1, 2)] kv) (token_tensor [1; 3]%N) 0)
    = (fun '(logits, kv') => (logits, split_cache [(0, 1); (1, 2)] kv'))
        <$> ok_of (llama_forward model (token_tensor [1; 3]%N) 0 kv) /\
    is_ok (llama_forward model (token_tensor [1; 3]%N) 0 kv) = true.
Proof.
  destruct (llama_load any_weights F32 two_layers 8) as [model|] eqn:Hm; [|vm_compute in Hm; discriminate].
  destruct (cache_new two_layers 8 F32 Cpu) as [kv|] eqn:Hk; [|vm_compute in Hk; discriminate].
  destruct (stages_compose any_weights F32 two_layers 8 model [(0, 1); (1, 2)] kv 0 Hm) as (stages & Hs & Hrun).
  - cbn. lia.
  - by rewrite (at_layers _ _ _ _ (cache_new_at _ _ _ _ _ Hk)).
  - apply (at_uniform _ _ _ _ (cache_new_at _ _ _ _ _ Hk)).
  - exists model, kv, stages. split; [done|]. split; [done|]. split; [exact Hs|]. split; [apply Hrun|].
    vm_compute in Hm, Hk. injection Hm as <-. injection Hk as <-. vm_compute. reflexivity.
Defined.

(** ** Artifacts *)
Definition smol_manifest : Manifest :=
  match expected_tensor_shapes SMOLLM2 with
  | Ok expected => with_dtype SBf16 expected
  | Err _ => ∅
  end.

#[local] Instance smol_host : HostSystem :=
  {| PathBuf := string; api_new := Ok tt; repo_get _ _ file := Ok file; fs_read _ := Ok [];
     hub_config_from_slice _ :=
       Ok (mkHubConfig ["LlamaForCausalLM"] "llama" "silu" false false (config SMOLLM2) false);
     chat_template_from_slice _ := Ok (Some "<|im_start|><|im_end|>");
     mmaped_safetensors _ := Ok smol_manifest;
     debug_config _ := ""; debug_marker m := m; debug_dtypes _ := ""; debug_names _ := "";
     debug_shapes _ := "" |}.

Lemma checkpoint_validation_exact_witness :
  validate_tensor_metadata SMOLLM2 smol_manifest = Ok tt /\
  is_err (validate_tensor_metadata SMOLLM2 (delete "model.norm.weight" smol_manifest)) = true.
Proof.
  destruct (checkpoint_validation_exact SmolLm2_135MInstruct SMOLLM2 eq_refl) as (expected & He & Hall).
  assert (with_dtype SBf16 expected = smol_manifest) as Heq by (unfold smol_manifest; by rewrite He).
  split; [apply Hall; by rewrite <- Heq|].
  destruct (validate_tensor_metadata SMOLLM2 (delete "model.norm.weight" smol_manifest)) as [[]|] eqn:E;
    [|reflexivity].
  apply Hall in E. exfalso. change (safetensors (checkpoint_dtype SMOLLM2)) with SBf16 in E.
  rewrite Heq in E. apply (f_equal (fun m => m !! "model.norm.weight")) in E.
  rewrite lookup_delete_eq in E. vm_compute in E. discriminate E.
Defined.

Lemma validated_checkpoint_loads_witness :
  exists llama, llama_load any_weights F32 (config SMOLLM2) 16 = Ok llama.
Proof.
  apply (validated_checkpoint_loads SmolLm2_135MInstruct SMOLLM2 smol_manifest any_weights 16 F32 eq_refl).
  - vm_compute. reflexivity.
  - intros name shape dt _. by eexists.
Defined.

(** ** A generation *)
Definition one_token : Tokenizer :=
  mkTokenizer (fun _ => Ok [5]%N) (fun ids => Ok "text") (fun _ _ => Ok (Some "t")).
#[local] Instance smol_runtime : Runtime :=
  {| tokenizer_from_file _ := Ok one_token; from_mmaped_safetensors _ _ := Ok any_weights |}.

Definition say_one : GenerationRequest := mkRequest SmolLm2_135MInstruct PF32 "Hello" 1 None.

Definition says (request : GenerationRequest) (p : GenerationReport -> bool) : bool :=
  match generate request with Some (Ok rep) => p rep | _ => false end.

Lemma says_report request p : says request p = true ->
  exists rep, generate request = Some (Ok rep) /\ p rep = true.
Proof. unfold says. destruct (generate request) as [[rep|]|]; intros H; [by exists rep|done|done]. Qed.

Definition one_zero (rep : GenerationReport) : bool :=
  bool_decide (generated_tokens rep = [0]%N) && bool_decide (stop_reason rep = MaxNewTokens).

Lemma generate_report_consistent_witness :
  exists rep, generate say_one = Some (Ok rep) /\ one_zero rep = true /\
    (forall k e, report_events rep !! k = Some e -> event_sequence e = N.of_nat k /\ event_rank e = 0) /\
    announced (report_events rep) = generated_tokens rep.
Proof.
  assert (says say_one one_zero = true) as (rep & Hr & Ht)%says_report by (vm_compute; reflexivity).
  exists rep. split; [done|]. split; [done|].
  destruct (generate_report_consistent say_one rep Hr) as (spec & _ & H & H' & _). by split.
Defined.

Lemma generation_within_plan_witness :
  exists rep, generate say_one = Some (Ok rep) /\ (final_kv_cache_bytes rep =? 46080)%N = true /\
    (final_kv_cache_bytes rep <= kv_cache_capacity_bytes (report_memory rep))%N.
Proof.
  assert (says say_one (fun rep => final_kv_cache_bytes rep =? 46080)%N = true) as (rep & Hr & Hb)%says_report
    by (vm_compute; reflexivity).
  exists rep. split; [done|]. split; [done|].
  exact (proj1 (proj2 (generation_within_plan say_one) rep Hr)).
Defined.
