(* ===== verification/Shapes.v ===== *)
(** * The model is well typed

    Shapes through a forward pass ([crates/runtime/src/model/llama.rs]): on
    weights of the declared shapes, every operation of a pass finds the shapes it
    expects, so that a pass on known tokens with room in the cache succeeds. *)
From S2P Require Import Prelude Rank Packet Tensor Registry Memory Protocol Report.
From S2P Require Import Cache Kernels Llama LlamaStage Artifacts Generation GenerationProofs.

(** A CPU tensor of 32-bit floats with these dimensions. *)
Definition has (t : Tensor) (d : list nat) : Prop := dims t = d /\ device t = Cpu /\ dtype t = F32.

(** The weight reader returns what it is asked for. *)
Definition well_formed_weights (vb : VarBuilder) : Prop :=
  forall name shape t, vb name shape = Ok t -> has t shape /\ tensor_wf t.

Section Operations.
Context {FO : FloatOps} {KE : Kernels}.

Lemma linear_has w x a s i o :
  has w [o; i] -> has x [a; s; i] -> exists y, linear w x = Ok y /\ has y [a; s; o].
Proof.
  intros (Hw & _ & _) (Hx & Hv & Ht). unfold linear, last_dim. rewrite Hw, Hx. cbn.
  rewrite Nat.eqb_refl. cbn. eexists. split; [done|]. by split.
Qed.

Lemma linear_row_has w x a i o :
  has w [o; i] -> has x [a; i] -> exists y, linear w x = Ok y /\ has y [a; o].
Proof.
  intros (Hw & _ & _) (Hx & Hv & Ht). unfold linear, last_dim. rewrite Hw, Hx. cbn.
  rewrite Nat.eqb_refl. cbn. eexists. split; [done|]. by split.
Qed.

Lemma rms_norm_has w eps x a s i :
  has w [i] -> has x [a; s; i] -> exists y, rms_norm w eps x = Ok y /\ has y [a; s; i].
Proof.
  intros (Hw & _ & _) (Hx & Hv & Ht). unfold rms_norm, last_dim. rewrite Hw, Hx. cbn.
  rewrite bool_decide_eq_true_2 by done. eexists. split; [done|]. by split.
Qed.

Lemma reshape_has x d d' : has x d -> product d' = product d ->
  exists y, reshape x d' = Ok y /\ has y d'.
Proof.
  intros (Hx & Hv & Ht) Hp. unfold reshape, elem_count. rewrite Hx, Hp, Nat.eqb_refl.
  eexists. split; [done|]. by split.
Qed.

Lemma transpose1_has x a b c d : has x [a; b; c; d] ->
  exists y, transpose x 1 = Ok y /\ has y [a; c; b; d].
Proof. intros (Hx & Hv & Ht). unfold transpose, swap_dims. rewrite Hx. cbn. eexists. split; [done|]. by split. Qed.
Lemma transpose2_has x a b c d : has x [a; b; c; d] ->
  exists y, transpose x 2 = Ok y /\ has y [a; b; d; c].
Proof. intros (Hx & Hv & Ht). unfold transpose, swap_dims. rewrite Hx. cbn. eexists. split; [done|]. by split. Qed.

Lemma to_dtype_has x d : has x d -> to_dtype F32 x = Ok x.
Proof. intros (_ & _ & Ht). unfold to_dtype. by rewrite bool_decide_eq_true_2. Qed.

Lemma matmul_has x y a b m k n : has x [a; b; m; k] -> has y [a; b; k; n] ->
  exists z, matmul x y = Ok z /\ has z [a; b; m; n].
Proof.
  intros (Hx & Hv & Ht) (Hy & _ & _). unfold matmul. rewrite Hx, Hy, !Nat.eqb_refl.
  eexists. split; [done|]. by split.
Qed.

Lemma narrow_has x axis start len n d : has x d -> d !! axis = Some n -> start + len <= n ->
  exists y, narrow x axis start len = Ok y /\ has y (<[axis := len]> d).
Proof.
  intros (Hx & Hv & Ht) Ha Hn. unfold narrow. rewrite Hx, Ha.
  destruct (Nat.ltb_spec n start); [lia|]. destruct (Nat.ltb_spec n (start + len)); [lia|].
  eexists. split; [done|]. by split.
Qed.

Lemma add_has x y d : has x d -> has y d -> exists z, add x y = Ok z /\ has z d.
Proof.
  intros (Hx & Hv & Ht) (Hy & Hv' & Ht'). unfold add. rewrite Hx, Hy, Hv, Hv', Ht, Ht'.
  rewrite !bool_decide_eq_true_2 by done. eexists. split; [done|]. by split.
Qed.

Lemma mul_has x y d : has x d -> has y d -> exists z, mul x y = Ok z /\ has z d.
Proof.
  intros (Hx & Hv & Ht) (Hy & _ & _). unfold mul. rewrite Hx, Hy, bool_decide_eq_true_2 by done.
  eexists. split; [done|]. by split.
Qed.

Lemma slice_set_has x u d d' n m offset :
  has x d -> has u d' -> d !! 2 = Some n -> d' !! 2 = Some m -> same_but_axis 2 d d' = true ->
  m + offset <= n -> exists y, slice_set x u 2 offset = Ok y /\ has y d.
Proof.
  intros (Hx & Hv & Ht) (Hu & Hv' & Ht') Hn Hm Hs Hle. unfold slice_set.
  rewrite Ht, Ht', Hv, Hv', Hx, Hu, !bool_decide_eq_true_2 by done. rewrite Hs, Hn, Hm. cbn [negb orb].
  destruct (Nat.ltb_spec n (m + offset)); [lia|]. eexists. split; [done|].
  split; [|done]. cbn. rewrite Hx. by apply list_insert_id.
Qed.

Lemma embedding_has table ids v h s :
  has table [v; h] -> dims ids = [1; s] -> Forall (fun id => N.to_nat id < v) (elements ids) ->
  exists y, embedding table ids = Ok y /\ has y [1; s; h].
Proof.
  intros (Ht & Hd & Hf) Hi Hin. unfold embedding. rewrite Ht.
  destruct (mapM_total (fun id => ok_or (Tensor.blocks v h (elements table) !! N.to_nat id)
    (TensorError "index-select")) (fun _ _ => True) (elements ids)) as (rows & -> & _).
  { intros id Hid. rewrite List.Forall_forall in Hin. specialize (Hin id (proj1 (list_elem_of_In _ _) Hid)).
    destruct (lookup_lt_is_Some_2 (Tensor.blocks v h (elements table)) (N.to_nat id)) as [b Hb];
      [by rewrite length_blocks|]. exists b. by rewrite Hb. }
  cbn [mbind result_bind]. eexists. split; [done|]. rewrite Hi. by split.
Qed.
End Operations.

(** ** Contents *)

Lemma embedding_wf table ids y v h :
  embedding table ids = Ok y -> dims table = [v; h] -> tensor_wf table -> tensor_wf ids -> tensor_wf y.
Proof.
  unfold embedding, tensor_wf. intros H Hd Hw Hi. rewrite Hd in H, Hw.
  apply bind_Ok in H as (rows & Hr%mapM_Forall2 & [= <-]). cbn [elements dims].
  assert (length (elements table) = v * h) as Hw' by (rewrite Hw; unfold Tensor.product; cbn; lia).
  rewrite (length_concat_const h).
  - transitivity (Tensor.product (dims ids) * h).
    { f_equal. rewrite <- Hi. symmetry. exact (Forall2_length Hr). }
    unfold Tensor.product. rewrite foldr_app. cbn. clear. induction (dims ids) as [|x l IH]; cbn; [lia|]. rewrite <- IH. lia.
  - apply list.Forall_lookup. intros i b Hb. destruct (Forall2_lookup_r _ _ _ _ _ Hr Hb) as (id & _ & Hid).
    apply ok_or_Ok in Hid. pose proof (blocks_lengths v h _ Hw') as HF.
    by apply (proj1 (list.Forall_lookup _ _) HF) in Hid.
Qed.

Lemma typed_sendable t d :
  has t d -> tensor_wf t -> Forall (fun x => x <> 0) d -> (N.of_nat (product d) * 4 < U64)%N -> sendable t.
Proof.
  intros (Hd & Hv & Ht) Hwf Hn Hb. split; [done|]. split; [done|]. unfold lenN. rewrite Hwf, Hd.
  split; [|done]. unfold element_count. rewrite try_fold_mul_small.
  - cbn. by rewrite shape_of_product, N.mul_1_l.
  - done.
  - unfold shape_of. apply list.Forall_fmap. revert Hn. apply Forall_impl. cbn. lia.
  - rewrite shape_of_product. lia.
Qed.

(** ** Typed parts *)

(** The sizes of an architecture: hidden, heads, key/value heads, head,
    intermediate and vocabulary. *)
Record sizes : Type := mkSizes { zh : nat; nh : nat; nkv : nat; hd : nat; zi : nat; zv : nat }.

Definition groups_ok (z : sizes) : Prop := nh z = nkv z * (nh z / nkv z).

Record sizes_ok (z : sizes) : Prop := {
  z_heads : zh z = nh z * hd z;
  z_groups : groups_ok z }.

Record typed_attention (z : sizes) (a : CausalSelfAttention) : Prop := {
  ta_q : has (q_proj a) [zh z; zh z]; ta_k : has (k_proj a) [nkv z * hd z; zh z];
  ta_v : has (v_proj a) [nkv z * hd z; zh z]; ta_o : has (o_proj a) [zh z; zh z];
  ta_sizes : attention_heads a = nh z /\ key_value_heads a = nkv z /\ attention_head_dim a = hd z }.

Record typed_block (z : sizes) (b : Block) : Prop := {
  tb_in : has (input_norm b) [zh z]; tb_post : has (post_attention_norm b) [zh z];
  tb_att : typed_attention z (attention b);
  tb_gate : has (gate_proj (mlp b)) [zi z; zh z]; tb_up : has (up_proj (mlp b)) [zi z; zh z];
  tb_down : has (down_proj (mlp b)) [zh z; zi z] }.

Record typed_rope (z : sizes) (cap : nat) (r : RotaryEmbedding) : Prop := {
  tr_cos : has (rope_cos r) [cap; hd z / 2]; tr_sin : has (rope_sin r) [cap; hd z / 2] }.

(** A layer's cache of [n] positions. *)
Record typed_layer (z : sizes) (cap n : nat) (l : LayerKvCache) : Prop := {
  tl_keys : has (layer_keys l) [1; nkv z; cap; hd z];
  tl_values : has (layer_values l) [1; nkv z; cap; hd z];
  tl_length : layer_length l = n; tl_capacity : layer_capacity l = cap }.

Record typed_model (z : sizes) (cap : nat) (m : Llama) : Prop := {
  tm_table : has (embeddings m) [zv z; zh z]; tm_norm : has (final_norm m) [zh z];
  tm_head : has (lm_head m) [zv z; zh z]; tm_rope : typed_rope z cap (model_rope m);
  tm_blocks : Forall (typed_block z) (blocks m) }.

(** [typed x]: run the next operation of the goal by lemma [x]. *)
Ltac run_by lem :=
  let y := fresh "y" in let E := fresh "E" in let T := fresh "T" in
  destruct lem as (y & E & T); rewrite E; clear E;
  cbn [candle map_err]; rewrite ?Ok_bind; cbn beta iota.

Section Forward.
Context {FO : FloatOps} {KE : Kernels} (z : sizes) (Hg : groups_ok z).

Lemma product4 a b c d : product [a; b; c; d] = a * (b * (c * d)).
Proof. unfold product. cbn [foldr]. lia. Qed.
Lemma product3 a b c : product [a; b; c] = a * (b * c).
Proof. unfold product. cbn [foldr]. lia. Qed.

Lemma project_has w x s heads d :
  has w [heads * d; zh z] -> has x [1; s; zh z] ->
  exists y, project w x 1 s heads d = Ok y /\ has y [1; heads; s; d].
Proof.
  intros Hw Hx. unfold project. run_by (linear_has w x 1 s (zh z) (heads * d) Hw Hx).
  run_by (reshape_has y [1; s; heads * d] [1; s; heads; d] T ltac:(rewrite product3, product4; lia)).
  by apply transpose1_has.
Qed.

Lemma rotary_apply_has r cap x heads s position :
  typed_rope z cap r -> has x [1; heads; s; hd z] -> position + s <= cap ->
  exists y, rotary_apply r x position = Ok y /\ has y [1; heads; s; hd z].
Proof.
  intros [Hc Hs] Hx Hp. pose proof Hx as (Hd & Hv & Ht). unfold rotary_apply, dim.
  rewrite Hd. cbn [lookup list_lookup ok_or]. rewrite Ok_bind.
  run_by (narrow_has _ 0 position s cap _ Hc eq_refl Hp). run_by (narrow_has _ 0 position s cap _ Hs eq_refl Hp).
  destruct T as (Hd1 & _), T0 as (Hd2 & _). cbn in Hd1, Hd2.
  unfold rope. rewrite Hd, Hd1, Hd2, !bool_decide_eq_true_2 by done. cbn [andb candle map_err].
  eexists. split; [done|]. by split.
Qed.

Lemma layer_append_has cap n l k v s :
  typed_layer z cap n l -> has k [1; nkv z; s; hd z] -> has v [1; nkv z; s; hd z] -> n + s <= cap ->
  exists k' v' l', layer_append l k v = (Ok (k', v'), l') /\
    has k' [1; nkv z; n + s; hd z] /\ has v' [1; nkv z; n + s; hd z] /\ typed_layer z cap (n + s) l'.
Proof.
  intros [Hk Hv Hl Hc] Hk1 Hv1 Hn. unfold layer_append, dims4.
  pose proof Hk1 as (Hdk & _ & _). pose proof Hv1 as (Hdv & _ & _).
  rewrite Hdk, Hdv, bool_decide_eq_true_2 by done. cbn [negb]. cbv zeta. rewrite Hl, Hc.
  destruct (Nat.ltb_spec cap (n + s)); [lia|].
  assert (same_but_axis 2 [1; nkv z; cap; hd z] [1; nkv z; s; hd z] = true) as Hsame
    by (unfold same_but_axis; cbn; by rewrite bool_decide_eq_true_2).
  destruct (slice_set_has _ k _ _ cap s n Hk Hk1 eq_refl eq_refl Hsame ltac:(lia)) as (ks & -> & Hks).
  cbn [layer_values layer_length].
  destruct (slice_set_has _ v _ _ cap s n Hv Hv1 eq_refl eq_refl Hsame ltac:(lia)) as (vs & -> & Hvs).
  cbn [layer_keys layer_values layer_length].
  run_by (narrow_has ks 2 0 (n + s) cap _ Hks eq_refl Hn). run_by (narrow_has vs 2 0 (n + s) cap _ Hvs eq_refl Hn).
  do 3 eexists. split; [done|]. split; [done|]. split; [done|]. by split.
Qed.

Lemma repeat_kv_has x t : has x [1; nkv z; t; hd z] ->
  exists y, repeat_kv x (nh z / nkv z) = Ok y /\ has y [1; nh z; t; hd z].
Proof.
  intros Hx. pose proof Hg as Hn. unfold groups_ok in Hn. unfold repeat_kv.
  destruct (Nat.eqb_spec (nh z / nkv z) 1) as [E|_].
  { rewrite E, Nat.mul_1_r in Hn. rewrite Hn. by eexists. }
  pose proof Hx as (Hd & Hv & Ht). unfold dims4. rewrite Hd, Ok_bind. cbn beta iota.
  rewrite <- Hn. apply (reshape_has _ [1; nkv z; nh z / nkv z; t; hd z]).
  - unfold expand_at. rewrite Hd. by split.
  - unfold product. cbn [foldr]. revert Hn. generalize (nh z / nkv z). intros g ->. lia.
Qed.

Lemma causal_has x s t position :
  has x [1; nh z; s; t] -> t = position + s ->
  exists y, (if Nat.ltb 1 s then apply_causal_mask x position s else Ok x) = Ok y /\ has y [1; nh z; s; t].
Proof.
  intros Hx ->. destruct (Nat.ltb 1 s); [|by eexists]. pose proof Hx as (Hd & Hv & Ht).
  unfold apply_causal_mask. rewrite Hd, !Nat.eqb_refl. eexists. split; [done|]. by split.
Qed.

Lemma attend_has q k v input s position :
  has q [1; nh z; s; hd z] -> has k [1; nkv z; position + s; hd z] -> has v [1; nkv z; position + s; hd z] ->
  dtype input = F32 ->
  exists y, attend q k v input (nh z / nkv z) (hd z) position s [1; s; nh z * hd z] = Ok y /\
    has y [1; s; nh z * hd z].
Proof.
  intros Hq Hk Hv Hi. unfold attend. run_by (repeat_kv_has k _ Hk). run_by (repeat_kv_has v _ Hv).
  rewrite (to_dtype_has q _ Hq), Ok_bind, (to_dtype_has y _ T), Ok_bind, (to_dtype_has y0 _ T0), Ok_bind.
  run_by (transpose2_has y _ _ _ _ T). run_by (matmul_has q y1 _ _ _ _ _ Hq T1).
  assert (has (unary (fdiv_sqrt (hd z)) y2) [1; nh z; s; position + s]) as Hs by exact T2.
  run_by (causal_has _ s _ position Hs eq_refl).
  unfold softmax_last_dim. rewrite Ok_bind.
  run_by (matmul_has (mkTensor (device y3) (dtype y3) (dims y3) (softmax_values y3)) y0 _ _ _ _ _ T3 T0).
  rewrite Hi, (to_dtype_has y4 _ T4), Ok_bind.
  run_by (transpose1_has y4 _ _ _ _ T4). apply (reshape_has y5 _ _ T5).
  rewrite product3, product4. lia.
Qed.

Lemma mlp_has b x s : typed_block z b -> has x [1; s; zh z] ->
  exists y, mlp_forward (mlp b) x = Ok y /\ has y [1; s; zh z].
Proof.
  intros [_ _ _ Hgate Hu Hd] Hx. unfold mlp_forward. run_by (linear_has _ x _ _ _ _ Hgate Hx).
  unfold silu. rewrite Ok_bind. run_by (linear_has _ x _ _ _ _ Hu Hx).
  run_by (mul_has (unary fsilu y) y0 [1; s; zi z] T T0). run_by (linear_has _ y1 _ _ _ _ Hd T1).
  by eexists.
Qed.

Context (Hz : zh z = nh z * hd z).

(** A block succeeds. *)
Lemma layer_step_has b h n cap rope l s :
  typed_block z b -> typed_rope z cap rope -> typed_layer z cap n l -> has h [1; s; zh z] -> n + s <= cap ->
  exists y l', layer_step b h n rope l = Ok (y, l') /\ has y [1; s; zh z] /\ typed_layer z cap (n + s) l'.
Proof.
  intros Hb Hr Hl Hh Hn. pose proof Hb as [Hin Hpost [Hq Hk Hv Ho (Ea & Ek & Ed)] _ _ _].
  unfold layer_step. run_by (rms_norm_has _ (block_eps b) h _ _ _ Hin Hh).
  unfold dims3. rewrite (proj1 T). cbn [candle map_err]. rewrite Ok_bind. cbn beta iota.
  rewrite Ea, Ek, Ed.
  assert (has (q_proj (attention b)) [nh z * hd z; zh z]) as Hq' by (rewrite <- Hz; exact Hq).
  run_by (project_has _ y s (nh z) (hd z) Hq' T). run_by (project_has _ y s (nkv z) (hd z) Hk T).
  run_by (project_has _ y s (nkv z) (hd z) Hv T).
  run_by (rotary_apply_has rope cap y0 _ _ n Hr T0 Hn). run_by (rotary_apply_has rope cap y1 _ _ n Hr T1 Hn).
  destruct (layer_append_has cap n l y4 y2 s Hl T4 T2 Hn) as (k' & v' & l' & -> & Hk' & Hv' & Hl').
  rewrite Ok_bind. cbn beta iota.
  pose proof (attend_has y3 k' v' y s n T3 Hk' Hv' (proj2 (proj2 T))) as Hatt. rewrite <- Hz in Hatt.
  run_by Hatt.
  run_by (linear_has _ y5 _ _ _ _ Ho T5). run_by (add_has h y6 _ Hh T6).
  run_by (rms_norm_has _ (block_eps b) y7 _ _ _ Hpost T7). run_by (mlp_has b y8 s Hb T8).
  run_by (add_has y7 y9 _ T7 T9). do 2 eexists. split; [done|]. by split.
Qed.

Lemma run_layers_has bs ls h n cap rope s :
  Forall (typed_block z) bs -> typed_rope z cap rope -> Forall (typed_layer z cap n) ls ->
  length bs = length ls -> has h [1; s; zh z] -> n + s <= cap ->
  exists y ls', run_layers bs ls h n rope = Ok (y, ls') /\ has y [1; s; zh z] /\
    Forall (typed_layer z cap (n + s)) ls'.
Proof.
  intros Hb Hr. revert ls h. induction Hb as [|b bs Hb _ IH]; intros [|l ls] h Hls Hlen Hh Hn; try done.
  - do 2 eexists. split; [done|]. by split.
  - inversion Hls; subst. cbn [run_layers].
    destruct (layer_step_has b h n cap rope l s) as (y & l' & -> & Hy & Hl'); [done..|].
    rewrite Ok_bind. cbn beta iota.
    destruct (IH ls y) as (y' & ls' & -> & Hy' & Hls'); [done|by injection Hlen|done..|].
    rewrite Ok_bind. do 2 eexists. split; [done|]. split; [done|]. by constructor.
Qed.
End Forward.

(** ** Loaded models are typed *)

Definition sizes_of (config : ModelConfig) (d : N) : sizes :=
  mkSizes (N.to_nat (hidden_size config)) (N.to_nat (num_attention_heads config))
    (N.to_nat (num_key_value_heads config)) (N.to_nat d) (N.to_nat (intermediate_size config))
    (N.to_nat (vocab_size config)).

Lemma sizes_of_ok config d : head_dim config = Ok d -> sizes_ok (sizes_of config d).
Proof.
  intros (Hn & Hk & Hh & Hm)%head_dim_Ok. split; cbn [sizes_of zh nh nkv hd].
  - rewrite Hh. lia.
  - unfold groups_ok, sizes_of. cbn [nh nkv]. rewrite <- N2Nat.inj_div. pose proof (N.div_mod (num_attention_heads config) (num_key_value_heads config)). lia.
Qed.

Section Loaded.
Context {FO : FloatOps} {KE : Kernels}.
Context (vb : VarBuilder) (config : ModelConfig) (d : N).
Hypotheses (Hvb : well_formed_weights vb) (Hd : head_dim config = Ok d).
Let z := sizes_of config d.

Lemma weight_has name shape t : candle (vb name shape) = Ok t -> has t shape.
Proof. intros H%candle_Ok. by apply Hvb in H as [? _]. Qed.

Lemma block_load_typed i b : block_load vb i config = Ok b -> typed_block z b.
Proof.
  unfold block_load, attention_load, mlp_load, norm_weight, linear_no_bias. rewrite Hd. intros Hl.
  apply bind_Ok in Hl as (n1 & H1%weight_has & Hl).
  apply bind_Ok in Hl as (a & Ha & Hl). rewrite Ok_bind in Ha. apply candle_Ok in Ha.
  apply bind_Ok in Ha as (q & Hq & Ha). apply bind_Ok in Ha as (k & Hk & Ha).
  apply bind_Ok in Ha as (v & Hv & Ha). apply bind_Ok in Ha as (o & Ho & [= <-]).
  apply bind_Ok in Hl as (n2 & H2%weight_has & Hl).
  apply bind_Ok in Hl as (m & Hm & [= <-]). apply candle_Ok in Hm.
  apply bind_Ok in Hm as (g & Hg & Hm). apply bind_Ok in Hm as (u & Hu & Hm).
  apply bind_Ok in Hm as (w & Hw & [= <-]).
  apply Hvb in Hq as [Hq _], Hk as [Hk _], Hv as [Hv _], Ho as [Ho _], Hg as [Hg _], Hu as [Hu _], Hw as [Hw _].
  rewrite N2Nat.inj_mul in Hk, Hv. split; cbn; try done.
Qed.

Lemma rotary_new_typed cap r : rotary_new config cap F32 = Ok r -> typed_rope z cap r.
Proof.
  unfold rotary_new. rewrite Hd, Ok_bind. intros Hr%candle_Ok.
  apply bind_Ok in Hr as (p & Hp & Hr). apply bind_Ok in Hr as (t & Ht & Hr).
  unfold reshape in Hp, Ht. destruct (Nat.eqb _ _) in Hp; [|done]. destruct (Nat.eqb _ _) in Ht; [|done].
  injection Hp as <-. injection Ht as <-. unfold matmul in Hr. cbn [dims Nat.eqb] in Hr.
  rewrite Ok_bind in Hr. unfold to_dtype, unary in Hr. cbn [dtype] in Hr.
  rewrite bool_decide_eq_true_2, !Ok_bind in Hr by done. injection Hr as <-. by split.
Qed.

Lemma llama_load_typed cap model : llama_load vb F32 config cap = Ok model -> typed_model z cap model.
Proof.
  unfold llama_load, embedding_table, linear_no_bias, norm_weight. intros Hl.
  apply bind_Ok in Hl as (t & Ht%weight_has & Hl). apply bind_Ok in Hl as (h & Hh & Hl).
  apply bind_Ok in Hl as (bs & Hb%mapM_Forall2 & Hl). apply bind_Ok in Hl as (n & Hn%weight_has & Hl).
  apply bind_Ok in Hl as (r & Hr%rotary_new_typed & [= <-]).
  split; cbn [embeddings final_norm lm_head model_rope blocks]; try done.
  - destruct (tie_word_embeddings config); [by injection Hh as <-|by apply weight_has in Hh].
  - clear -Hb Hd Hvb. induction Hb as [|i b ? ? Hi _ IH]; constructor; [by eapply block_load_typed|done].
Qed.

(** The cache of the model: [n] positions in each of its layers. *)
Definition typed_cache (cap n : nat) (kv : KvCache) : Prop :=
  cache_at kv (N.to_nat (num_hidden_layers config)) cap n /\ Forall (typed_layer z cap n) (layers kv).

Lemma zeros_has shape : has (zeros shape F32 Cpu) shape.
Proof. by split. Qed.

Lemma cache_new_typed cap kv : cache_new config cap F32 Cpu = Ok kv -> typed_cache cap 0 kv.
Proof.
  intros Hk. split; [by eapply cache_new_at|]. unfold cache_new, new_for_layers in Hk.
  apply bind_Ok in Hk as (? & _ & Hk). apply bind_Ok in Hk as (? & _ & Hk). apply bind_Ok in Hk as (? & _ & Hk).
  apply bind_Ok in Hk as (ls & Hm%mapM_Forall2 & [= <-]). cbn [layers].
  clear -Hm Hd. induction Hm as [|? l ? ? Hl _ IH]; constructor; [|done].
  unfold layer_new in Hl. rewrite Hd, Ok_bind in Hl. injection Hl as <-. by split.
Qed.

Lemma last_logits_has model cap h s :
  typed_model z cap model -> has h [1; s; zh z] -> s <> 0 ->
  exists y, last_logits (final_norm model) (norm_eps model) (lm_head model) h s = Ok y /\ has y [1; zv z].
Proof.
  intros [_ Hn Hh _ _] Hx Hs. unfold last_logits. run_by (rms_norm_has _ (norm_eps model) h _ _ _ Hn Hx).
  unfold index_axis.
  run_by (narrow_has y 1 (s - 1) 1 s _ T eq_refl ltac:(lia)). destruct T0 as (Hd0 & Hv0 & Ht0). rewrite Hd0.
  cbn [insert list_insert take drop app].
  run_by (linear_row_has _ (mkTensor (device y0) (dtype y0) [1; zh z] (elements y0)) 1 _ _ Hh ltac:(by split)).
  rewrite (to_dtype_has _ _ T0). by eexists.
Qed.

Lemma forward_typed cap model kv n s ids :
  llama_load vb F32 config cap = Ok model -> typed_cache cap n kv -> dims ids = [1; s] -> s <> 0 ->
  Forall (fun id => N.to_nat id < N.to_nat (vocab_size config)) (elements ids) -> n + s <= cap ->
  exists logits kv', llama_forward model ids n kv = Ok (logits, kv') /\
    has logits [1; N.to_nat (vocab_size config)] /\ typed_cache cap (n + s) kv'.
Proof.
  intros Hload [Hat Hl] Hi Hs Hids Hn. pose proof (llama_load_typed _ _ Hload) as Hm.
  pose proof (llama_load_blocks _ _ _ _ _ Hload) as [_ Hb]. pose proof Hat as [Hu HL Hc _].
  destruct (embedding_has _ ids _ _ s (tm_table _ _ _ Hm) Hi Hids) as (h & Hemb & Hh).
  destruct (run_layers_has z (z_groups _ (sizes_of_ok _ _ Hd)) (z_heads _ (sizes_of_ok _ _ Hd)) (blocks model) (layers kv) h n cap (model_rope model) s
    (tm_blocks _ _ _ Hm) (tm_rope _ _ _ Hm) Hl ltac:(congruence) Hh Hn) as (y & ls & Hrun & Hy & Hls).
  destruct (last_logits_has model cap y s Hm Hy Hs) as (lg & Hlg & Hlgt).
  assert (llama_forward model ids n kv = Ok (lg, mkCache ls (cache_capacity kv))) as Hf.
  { rewrite (llama_forward_layers model ids n kv s h) by (done || lia || congruence).
    rewrite Hrun, Ok_bind. cbn beta iota. rewrite Hlg. done. }
  exists lg, (mkCache ls (cache_capacity kv)). split; [done|]. split; [done|]. split; [|done].
  by apply (proj2 (llama_forward_at model ids kv _ cap n s Hat Hb Hi Hs Hn) lg).
Qed.
End Loaded.

(** C24: the model is well typed: on weights of the declared shapes, every pass on
    known tokens that fits the cache succeeds - no operation in it meets a shape,
    device or dtype it rejects - and gives one row of logits over the vocabulary
    and a cache advanced by the tokens; and a new cache is such a cache. *)
Theorem model_well_typed `{FloatOps, Kernels} vb config d cap model :
  well_formed_weights vb -> head_dim config = Ok d -> llama_load vb F32 config cap = Ok model ->
  (forall kv, cache_new config cap F32 Cpu = Ok kv -> typed_cache config d cap 0 kv) /\
  forall kv n s ids, typed_cache config d cap n kv -> dims ids = [1; s] -> s <> 0 ->
    Forall (fun id => N.to_nat id < N.to_nat (vocab_size config)) (elements ids) -> n + s <= cap ->
    exists logits kv', llama_forward model ids n kv = Ok (logits, kv') /\
      has logits [1; N.to_nat (vocab_size config)] /\ typed_cache config d cap (n + s) kv'.
Proof.
  intros Hvb Hd Hload. split.
  - intros kv. by apply cache_new_typed.
  - intros kv n s ids. by apply (forward_typed vb config d Hvb Hd cap model).
Qed.
