(* ===== verification/Pipeline.v ===== *)
(** * The pipeline rank

    Models [crates/pipeline/src/runner.rs] and the records of [report.rs]: one
    rank of a pipeline run as a process of [World.v] - admission against the
    manifest, the start barrier, the step loop that receives and sends
    activations, returns the token and spreads the decision, and the completion
    barrier.  The loop runs on fuel ([PipelineProofs] shows how much is enough).
    Clock readings are not part of the model; the events of a rank are those of
    [PipelineEvents.v]. *)
From S2P Require Import Prelude Rank Packet Mailbox World Tensor Registry Memory Partition Protocol.
From S2P Require Import Report Cache Kernels Llama Artifacts Generation.

(** ** Processes that fail with pipeline errors *)
Definition pproc (A : Type) : Type := proc (presult A).

(** [?] on a communicator call. *)
Definition comm {A} (m : cproc A) : pproc A := proc_err PipelineCollectives m.

(** [?] on runtime and Candle results. *)
Definition runtime {A} (m : dresult A) : presult A := map_err PipelineRuntime m.
Definition ptensor {A} (m : cresult A) : presult A :=
  map_err (fun e => PipelineTensor (match e with TensorError op => op | _ => "" end)) m.

(** ** Records *)

(** [struct ResourceSnapshot]. *)
Record ResourceSnapshot : Type := mkResources
  { cpu_millis : option N; memory_current_bytes : option N; memory_limit_bytes : option N;
    cpuset_cpus : option string; cgroup_version : option string }.

(** [struct PipelineManifest]. *)
Record PipelineManifest `{HostSystem} : Type := mkManifest
  { run_id : string; request_id : string; manifest_model : SupportedModelId;
    manifest_dtype : PlanDType; prompt_token_ids : list N; manifest_prompt_characters : N;
    manifest_requested : N; manifest_effective : N; context_capacity : N;
    checkpoint_path : PathBuf; manifest_tokenizer_path : PathBuf; partition : PipelinePartition;
    memory_plans : list StageMemoryPlan; expected_cpu_millis : N; expected_memory_bytes : N }.

(** [struct CommunicationReport], without its measured time, and [total_bytes]. *)
Record CommunicationReport : Type := mkCommunication
  { tensor_messages_sent : N; tensor_messages_received : N; tensor_bytes_sent : N;
    tensor_bytes_received : N; control_messages_sent : N; control_messages_received : N;
    control_bytes_sent : N; control_bytes_received : N }.
Definition no_communication : CommunicationReport := mkCommunication 0 0 0 0 0 0 0 0.
Definition total_bytes (self : CommunicationReport) : N :=
  add64 (add64 (add64 (tensor_bytes_sent self) (tensor_bytes_received self))
    (control_bytes_sent self)) (control_bytes_received self).

(** The updates of the four transfer functions. *)
Definition tensor_sent (bytes : N) (c : CommunicationReport) : CommunicationReport :=
  mkCommunication (add64 (tensor_messages_sent c) 1) (tensor_messages_received c)
    (add64 (tensor_bytes_sent c) bytes) (tensor_bytes_received c) (control_messages_sent c)
    (control_messages_received c) (control_bytes_sent c) (control_bytes_received c).
Definition tensor_received (bytes : N) (c : CommunicationReport) : CommunicationReport :=
  mkCommunication (tensor_messages_sent c) (add64 (tensor_messages_received c) 1)
    (tensor_bytes_sent c) (add64 (tensor_bytes_received c) bytes) (control_messages_sent c)
    (control_messages_received c) (control_bytes_sent c) (control_bytes_received c).
Definition control_sent (bytes : N) (c : CommunicationReport) : CommunicationReport :=
  mkCommunication (tensor_messages_sent c) (tensor_messages_received c) (tensor_bytes_sent c)
    (tensor_bytes_received c) (add64 (control_messages_sent c) 1) (control_messages_received c)
    (add64 (control_bytes_sent c) bytes) (control_bytes_received c).
Definition control_received (bytes : N) (c : CommunicationReport) : CommunicationReport :=
  mkCommunication (tensor_messages_sent c) (tensor_messages_received c) (tensor_bytes_sent c)
    (tensor_bytes_received c) (control_messages_sent c) (add64 (control_messages_received c) 1)
    (control_bytes_sent c) (add64 (control_bytes_received c) bytes).

(** [DType::size_in_bytes]. *)
Definition size_in_bytes (t : DType) : N :=
  match t with
  | F32 => 4
  | OtherDType name =>
      if String.eqb name "U32" || String.eqb name "I32" then 4
      else if String.eqb name "I64" || String.eqb name "F64" then 8
      else if String.eqb name "BF16" || String.eqb name "F16" || String.eqb name "I16" then 2
      else if String.eqb name "U8" || String.eqb name "F8E4M3" then 1 else 0
  end.

(** [tensor_bytes]. *)
Definition tensor_bytes (tensor : Tensor) : presult N :=
  let overflow := PipelineProtocol "tensor byte count overflow" in
  elements ← ok_or (try_fold_mul 1 (shape_of (dims tensor))) overflow;
  ok_or (checked_mul elements (size_in_bytes (dtype tensor))) overflow.

Definition phase_debug (p : ExecutionPhase) : string :=
  match p with Prefill => "Prefill" | Decode => "Decode" end.

Definition option_debug (o : option N) : string :=
  match o with Some n => "Some(" +:+ pretty n +:+ ")" | None => "None" end.

(** [validate_activation]. *)
Definition validate_activation (tensor : Tensor) (hidden_size : nat) (phase : ExecutionPhase)
  : presult unit :=
  '(batch, sequence, hidden) ← ptensor (dims3 tensor);
  let wrong_sequence := match phase with Prefill => false | Decode => negb (Nat.eqb sequence 1) end in
  reject_if (negb (Nat.eqb batch 1) || negb (Nat.eqb hidden hidden_size) || wrong_sequence)
    (PipelineProtocol ("invalid " +:+ phase_debug phase +:+ " activation shape "
       +:+ debug_dims (dims tensor) +:+ "; expected [1,S," +:+ pretty hidden_size +:+ "]")).

Section Rank.
Context {FO : FloatOps} {KE : Kernels} {HO : HostSystem} {RT : Runtime} {JC : JsonCodec PipelineControl}.

(** [send_activation], [recv_activation], [send_control], [recv_control]. *)
Definition send_activation (destination : nat) (tensor : Tensor) (step : N)
    (communication : CommunicationReport) : pproc CommunicationReport :=
  bytes ⟵ lift (tensor_bytes tensor);
  tag ⟵ lift (activation_tag step);
  _ ⟵ comm (send_tensor destination tag tensor);
  lift (Ok (tensor_sent bytes communication)).

Definition recv_activation (source : nat) (step : N) (communication : CommunicationReport)
  : pproc (Tensor * CommunicationReport) :=
  tag ⟵ lift (activation_tag step);
  tensor ⟵ comm (recv_tensor source tag);
  bytes ⟵ lift (tensor_bytes tensor);
  lift (Ok (tensor, tensor_received bytes communication)).

Definition send_control_message (destination : nat) (tag : presult MessageTag)
    (control : PipelineControl) (communication : CommunicationReport) : pproc CommunicationReport :=
  tag ⟵ lift tag;
  bytes ⟵ lift (encode control);
  _ ⟵ comm (send_control destination tag bytes);
  lift (Ok (control_sent (lenN bytes) communication)).

Definition recv_control_message (source : nat) (tag : presult MessageTag)
    (communication : CommunicationReport) : pproc (PipelineControl * CommunicationReport) :=
  tag ⟵ lift tag;
  bytes ⟵ comm (recv_control source tag);
  control ⟵ lift (decode bytes);
  lift (Ok (control, control_received (lenN bytes) communication)).

(** The decision sent to every destination in turn. *)
Fixpoint send_decisions (destinations : list nat) (step : N) (decision : PipelineDecision)
    (communication : CommunicationReport) : pproc CommunicationReport :=
  match destinations with
  | [] => lift (Ok communication)
  | destination :: destinations =>
      c ⟵ send_control_message destination (decision_tag step) (Decision step decision) communication;
      send_decisions destinations step decision c
  end.

(** ** The step loop *)

(** The variables of the loop; the decode stream has seen [generated]. *)
Record RankState : Type := mkRankState
  { rank_cache : KvCache; communication : CommunicationReport; rank_generated : list N;
    previous_token : option N; rank_forwards : N; rank_step : N }.

Context (manifest : PipelineManifest) (config : ModelConfig) (assignment : StageAssignment)
  (stage : LlamaStage) (tokenizer : option Tokenizer).

Let rank : nat := N.to_nat (stage_rank assignment).
Let world : nat := N.to_nat (stage_world_size assignment).

Definition phase_of (step : N) : ExecutionPhase := if (step =? 0)%N then Prefill else Decode.

(** The token input of rank 0. *)
Definition step_input (s : RankState) : presult Tensor :=
  if (rank_step s =? 0)%N then Ok (token_tensor (prompt_token_ids manifest))
  else token ← ok_or (previous_token s) (PipelineProtocol "decode has no previous token");
       Ok (token_tensor [token]).

(** This stage's part of the forward pass. *)
Definition stage_forward (s : RankState) : pproc (Tensor * KvCache * CommunicationReport) :=
  let position := cache_len (rank_cache s) in
  if Nat.eqb rank 0
  then
    input ⟵ lift (step_input s);
    r ⟵ lift (runtime (forward_tokens stage input position (rank_cache s)));
    lift (Ok (r, communication s))
  else
    h ⟵ recv_activation (rank - 1) (rank_step s) (communication s);
    _ ⟵ lift (validate_activation h.1 (N.to_nat (hidden_size config)) (phase_of (rank_step s)));
    r ⟵ lift (runtime (forward_hidden stage h.1 position (rank_cache s)));
    lift (Ok (r, h.2)).

(** The final stage's token. *)
Definition choose_token (hidden : Tensor) : presult N :=
  logits ← runtime (finish stage hidden);
  ptensor (row ← squeeze0 logits; best ← argmax_last row; to_scalar best).

(** The activation to the next stage, or the token to rank 0. *)
Definition hand_over (hidden : Tensor) (step : N) (c : CommunicationReport)
  : pproc CommunicationReport :=
  if Nat.ltb (rank + 1) world
  then send_activation (rank + 1) hidden step c
  else
    token ⟵ lift (choose_token hidden);
    send_control_message 0 (token_tag step) (Token step token) c.

(** Rank 0's decision on a token. *)
Definition decide_token (token : N) (s : RankState) : presult (PipelineDecision * RankState) :=
  if (token =? eos_token_id config)%N then Ok (Stop Eos, s)
  else
    let generated := rank_generated s ++ [token] in
    _ ← match tokenizer with
        | Some tokenizer => map_err PipelineTokenizer (tokenizer_step tokenizer (rank_generated s) token)
        | None => Err (PipelineTokenizer "rank 0 has decoder")
        end;
    let s := mkRankState (rank_cache s) (communication s) generated (Some token) (rank_forwards s)
               (rank_step s) in
    Ok (if (manifest_effective manifest <=? N.of_nat (length generated))%N
        then Stop (if (manifest_effective manifest <? manifest_requested manifest)%N
                   then ContextLimit else MaxNewTokens)
        else Continue, s).

(** The token of the control message rank 0 expects, the decision the others expect. *)
Definition expect_token (control : PipelineControl) (step : N) : presult N :=
  match control with
  | Token actual token =>
      _ ← reject_if (negb (actual =? step)%N)
        (PipelineProtocol ("received token for step " +:+ pretty actual +:+ ", expected " +:+ pretty step));
      Ok token
  | Decision _ _ => Err (PipelineProtocol "rank 0 expected final-stage token feedback")
  end.
Definition expect_decision (control : PipelineControl) (step : N) : presult PipelineDecision :=
  match control with
  | Decision actual decision =>
      _ ← reject_if (negb (actual =? step)%N)
        (PipelineProtocol ("received decision for step " +:+ pretty actual +:+ ", expected " +:+ pretty step));
      Ok decision
  | Token _ _ => Err (PipelineProtocol "stage expected rank-0 decision")
  end.

Definition with_communication (c : CommunicationReport) (s : RankState) : RankState :=
  mkRankState (rank_cache s) c (rank_generated s) (previous_token s) (rank_forwards s) (rank_step s).

(** The decision of a step, taken by rank 0 and received by the others. *)
Definition agree (s : RankState) : pproc (PipelineDecision * RankState) :=
  let step := rank_step s in
  if Nat.eqb rank 0
  then
    m ⟵ recv_control_message (world - 1) (token_tag step) (communication s);
    token ⟵ lift (expect_token m.1 step);
    d ⟵ lift (decide_token token (with_communication m.2 s));
    c ⟵ send_decisions (seq 1 (world - 1)) step d.1 (communication d.2);
    lift (Ok (d.1, with_communication c d.2))
  else
    m ⟵ recv_control_message 0 (decision_tag step) (communication s);
    decision ⟵ lift (expect_decision m.1 step);
    lift (Ok (decision, with_communication m.2 s)).

(** One iteration of the loop. *)
Definition rank_round (s : RankState) : pproc (PipelineDecision * RankState) :=
  let forwards := match phase_of (rank_step s) with
                  | Prefill => rank_forwards s | Decode => add64 (rank_forwards s) 1 end in
  f ⟵ stage_forward s;
  c ⟵ hand_over f.1.1 (rank_step s) f.2;
  agree (mkRankState f.1.2 c (rank_generated s) (previous_token s) forwards (rank_step s)).

(** The loop; [None] is out of fuel. *)
Fixpoint rank_loop (fuel : nat) (s : RankState) : pproc (option (StopReason * RankState)) :=
  match fuel with
  | O => lift (Ok None)
  | S fuel =>
      d ⟵ rank_round s;
      match d.1 with
      | Stop reason => lift (Ok (Some (reason, d.2)))
      | Continue =>
          rank_loop fuel (mkRankState (rank_cache d.2) (communication d.2) (rank_generated d.2)
                            (previous_token d.2) (rank_forwards d.2) (add64 (rank_step d.2) 1))
      end
  end.
End Rank.

(** ** The rank *)

(** [struct PipelineRankReport], without the run it names, its timings and events. *)
Record PipelineRankReport : Type := mkRankReport
  { pr_rank : nat; pr_assignment : StageAssignment; pr_memory : StageMemoryPlan;
    pr_resources : ResourceSnapshot; pr_final_kv_cache_bytes : N;
    pr_communication : CommunicationReport; pr_decode_forward_count : N;
    pr_generated_tokens : list N; pr_completion : string; pr_stop_reason : StopReason;
    pr_barriers_passed : bool; pr_success : bool }.

Section Run.
Context {FO : FloatOps} {KE : Kernels} {HO : HostSystem} {RT : Runtime} {JC : JsonCodec PipelineControl}.

(** The checks of [run_pipeline_rank] before anything is loaded. *)
Definition admit_rank (rank : Rank) (manifest : PipelineManifest) (resources : ResourceSnapshot)
  : presult (StageAssignment * StageMemoryPlan * ModelSpec) :=
  let stages := stages (partition manifest) in
  _ ← reject_if (negb (Nat.eqb (world_size rank) (length stages)))
    (InvalidTopology ("rank world size " +:+ pretty (world_size rank)
       +:+ " differs from manifest stages " +:+ pretty (length stages)));
  assignment ← stage (partition manifest) (N.of_nat (global_rank rank));
  memory ← ok_or (memory_plans manifest !! global_rank rank) (InvalidTopology "missing rank memory plan");
  _ ← reject_if (bool_decide (sp_placement memory = DoesNotFit))
    (StagePlacementFailed (N.of_nat (global_rank rank)) (sp_persistent_bytes memory) (sp_budget_bytes memory));
  let cpu_mismatch := (0 <? expected_cpu_millis manifest)%N
    && negb (bool_decide (cpu_millis resources = Some (expected_cpu_millis manifest))) in
  let memory_mismatch := (0 <? expected_memory_bytes manifest)%N
    && negb (bool_decide (memory_limit_bytes resources = Some (expected_memory_bytes manifest))) in
  _ ← reject_if (cpu_mismatch || memory_mismatch)
    (InvalidTopology ("rank " +:+ pretty (global_rank rank) +:+ " observed CPU/memory "
       +:+ option_debug (cpu_millis resources) +:+ "/" +:+ option_debug (memory_limit_bytes resources)
       +:+ ", expected " +:+ pretty (expected_cpu_millis manifest) +:+ "/"
       +:+ pretty (expected_memory_bytes manifest)));
  spec ← ok_or (spec_of (manifest_model manifest)) (InvalidTopology "every model id must have a registry entry");
  _ ← runtime (validate_cpu_dtype spec (manifest_dtype manifest));
  Ok (assignment, memory, spec).

(** The stage and its cache. *)
Definition load_stage (manifest : PipelineManifest) (spec : ModelSpec) (assignment : StageAssignment)
  : presult (LlamaStage * KvCache) :=
  let dt := candle_dtype (manifest_dtype manifest) in
  let capacity := N.to_nat (context_capacity manifest) in
  vb ← ptensor (from_mmaped_safetensors (checkpoint_path manifest) dt);
  stage ← runtime (stage_load vb dt (config spec) (N.to_nat (layer_start assignment))
    (N.to_nat (layer_end assignment)) (owns_embeddings assignment) (owns_lm_head assignment) capacity);
  cache ← runtime (new_for_layers (config spec) (N.to_nat (layer_count assignment)) capacity dt Cpu);
  Ok (stage, cache).

(** Rank 0's tokenizer. *)
Definition load_tokenizer (manifest : PipelineManifest) (assignment : StageAssignment)
  : presult (option Tokenizer) :=
  if (stage_rank assignment =? 0)%N
  then Some <$> map_err PipelineTokenizer (tokenizer_from_file (manifest_tokenizer_path manifest))
  else Ok None.

(** Rank 0's final text. *)
Definition complete (tokenizer : option Tokenizer) (tokens : list N) : presult string :=
  match tokenizer with
  | Some tokenizer => map_err PipelineTokenizer (tokenizer_decode tokenizer tokens)
  | None => Ok ""
  end.

(** [run_pipeline_rank]; [None] is out of fuel. *)
Definition run_pipeline_rank (fuel : nat) (rank : Rank) (manifest : PipelineManifest)
    (resources : ResourceSnapshot) : pproc (option PipelineRankReport) :=
  a ⟵ lift (admit_rank rank manifest resources);
  let assignment := a.1.1 in
  let spec := a.2 in
  l ⟵ lift (load_stage manifest spec assignment);
  _ ⟵ comm barrier;
  tokenizer ⟵ lift (load_tokenizer manifest assignment);
  r ⟵ rank_loop manifest (config spec) assignment l.1 tokenizer fuel
        (mkRankState l.2 no_communication [] None 0 0);
  match r with
  | None => lift (Ok None)
  | Some (reason, s) =>
      text ⟵ lift (complete tokenizer (rank_generated s));
      _ ⟵ comm barrier;
      bytes ⟵ lift (runtime (used_bytes (rank_cache s) (config spec) (dtype_bytes (manifest_dtype manifest))));
      lift (Ok (Some
        {| pr_rank := N.to_nat (stage_rank assignment);
           pr_assignment := assignment;
           pr_memory := a.1.2;
           pr_resources := resources;
           pr_final_kv_cache_bytes := bytes;
           pr_communication := communication s;
           pr_decode_forward_count := rank_forwards s;
           pr_generated_tokens := rank_generated s;
           pr_completion := text;
           pr_stop_reason := reason;
           pr_barriers_passed := true;
           pr_success := true |}))
  end.
End Run.
