(* ===== verification/PipelineWorld.v ===== *)
(** * Pipeline messages in a world

    The transfers of a pipeline step ([Pipeline.v]) as traces, and the shape of a
    step as a schedule: the activation passes down the chain of stages, the token
    returns to rank 0, the decision reaches every other rank. *)
From S2P Require Import Prelude Rank Packet Mailbox World Tensor Registry Memory Partition Protocol.
From S2P Require Import Report Cache Kernels Llama Artifacts Generation Pipeline.

(** ** Transfers *)
Definition activation_packet (t : Tensor) : TensorPacket := mkTensorPacket (shape_of (dims t)) (elements t).

Definition activation_put (destination : nat) (tag : MessageTag) (t : Tensor) : event :=
  Act (Put destination (mkMessage tag (TensorPayload (activation_packet t)))).
Definition activation_take (source : nat) (tag : MessageTag) (t : Tensor) : event :=
  Act (Take source (tensor_payload tag) (TensorPayload (activation_packet t))).
Definition control_put (destination : nat) (tag : MessageTag) (bytes : list byte) : event :=
  Act (Put destination (mkMessage tag (ControlPayload (mkControlPacket bytes)))).
Definition control_take (source : nat) (tag : MessageTag) (bytes : list byte) : event :=
  Act (Take source (control_payload tag) (ControlPayload (mkControlPacket bytes))).

Lemma activation_selected tag t :
  tensor_payload tag (mkMessage tag (TensorPayload (activation_packet t)))
  = Some (TensorPayload (activation_packet t)).
Proof. unfold tensor_payload, tensor_with; cbn. by rewrite N.eqb_refl. Qed.
Lemma control_selected tag bytes :
  control_payload tag (mkMessage tag (ControlPayload (mkControlPacket bytes)))
  = Some (ControlPayload (mkControlPacket bytes)).
Proof. unfold control_payload, control_with; cbn. by rewrite N.eqb_refl. Qed.

Lemma sendable_bytes t : sendable t -> exists b, tensor_bytes t = Ok b.
Proof.
  intros (_ & [_ Ht] & Hc & Hb). unfold tensor_bytes, element_count in *.
  apply ok_or_Ok in Hc. rewrite Hc, Ht. cbn. exists (lenN (elements t) * 4)%N.
  apply ok_or_Ok, checked_mul_Some. done.
Qed.

Lemma exec_send_activation r d t step tag c :
  sendable t -> Ranks.validate_peer r d = Ok tt -> activation_tag step = Ok tag ->
  exists c', exec r (send_activation d t step c) [activation_put d tag t] (Ret (Ok c')).
Proof.
  intros Ht Hd Htag. destruct (sendable_bytes t Ht) as [b Hb]. eexists. unfold send_activation.
  apply exec_lift with b; [done|]. apply exec_lift with tag; [done|].
  eapply exec_try_ret; [apply exec_proc_err|reflexivity].
  unfold send_tensor. rewrite from_tensor_sendable by done. cbn.
  eapply exec_act; [by refine (local_send r d _ _ _)|]. constructor.
Qed.

Lemma exec_recv_activation r s t step tag c :
  sendable t -> Ranks.validate_peer r s = Ok tt -> activation_tag step = Ok tag ->
  exists c', exec r (recv_activation s step c) [activation_take s tag t] (Ret (Ok (t, c'))).
Proof.
  intros Ht Hs Htag. destruct (sendable_bytes t Ht) as [b Hb]. eexists. unfold recv_activation.
  apply exec_lift with tag; [done|]. rewrite <- (app_nil_r [_]). eapply exec_try; [apply exec_proc_err|].
  - unfold recv_tensor. cbn.
    eapply exec_act; [by refine (local_recv r s tag _ (activation_packet t) _)|]. cbn.
    unfold activation_packet. rewrite to_from_tensor by done. constructor.
  - apply exec_lift with b; [done|]. by apply exec_ret.
Qed.

Section Control.
Context {JC : JsonCodec PipelineControl} {JL : JsonCodecLaws JC control_wf}.

Lemma control_bytes_of c : control_wf c -> exists bytes,
  encode c = Ok bytes /\ decode bytes = Ok c /\ (lenN bytes <= MAX_CONTROL_BYTES)%N.
Proof.
  intros Hc. destruct (json_round_trip c Hc) as (bytes & He & Hd & Hl).
  exists bytes. unfold encode, decode. by rewrite He, Hd.
Qed.

Lemma exec_send_control r d tag control bytes c :
  encode control = Ok bytes -> (lenN bytes <= MAX_CONTROL_BYTES)%N -> Ranks.validate_peer r d = Ok tt ->
  exists c', exec r (send_control_message d (Ok tag) control c) [control_put d tag bytes] (Ret (Ok c')).
Proof.
  intros He Hl Hd. eexists. unfold send_control_message. apply exec_lift with tag; [done|].
  apply exec_lift with bytes; [done|]. eapply exec_try_ret; [apply exec_proc_err|reflexivity].
  unfold send_control. rewrite Control.control_new_ok by done. cbn.
  eapply exec_act; [by refine (local_send r d _ _ _)|]. constructor.
Qed.

Lemma exec_recv_control r s tag control bytes c :
  decode bytes = Ok control -> Ranks.validate_peer r s = Ok tt ->
  exists c', exec r (recv_control_message s (Ok tag) c) [control_take s tag bytes] (Ret (Ok (control, c'))).
Proof.
  intros He Hs. eexists. unfold recv_control_message. apply exec_lift with tag; [done|].
  rewrite <- (app_nil_r [_]). eapply exec_try; [apply exec_proc_err|].
  - unfold recv_control. cbn.
    eapply exec_act; [by refine (local_recv_control r s tag _ (mkControlPacket bytes) _)|]. constructor.
  - apply exec_lift with control; [done|]. by apply exec_ret.
Qed.

Lemma exec_send_decisions r dests step tag decision bytes c :
  encode (Decision step decision) = Ok bytes -> (lenN bytes <= MAX_CONTROL_BYTES)%N ->
  decision_tag step = Ok tag -> Forall (fun d => Ranks.validate_peer r d = Ok tt) dests ->
  exists c', exec r (send_decisions dests step decision c) (map (fun d => control_put d tag bytes) dests)
    (Ret (Ok c')).
Proof.
  intros He Hl Ht Hd. revert c. induction Hd as [|d dests Hd _ IH]; intros c; cbn [send_decisions map].
  - eexists. by apply exec_ret.
  - rewrite Ht. destruct (exec_send_control r d tag _ _ c He Hl Hd) as [c1 H1].
    destruct (IH c1) as [c2 H2]. exists c2. change (?x :: ?l) with ([x] ++ l). by eapply exec_try.
Qed.
End Control.

(** ** The chain *)
Section Chain.
Context (n : nat) (m : nat -> Message) (sel : nat -> Message -> option MessagePayload)
  (y : nat -> MessagePayload) (t : nat -> list event).
Hypotheses (Hn : 1 < n) (Hsel : forall i, i < n - 1 -> sel i (m i) = Some (y i)).

(** Rank [i] takes from [i - 1] and puts to [i + 1]. *)
Definition chain_put (i : nat) : list event := if decide (i < n - 1) then [Act (Put (i + 1) (m i))] else [].
Definition chain_take (i : nat) : list event :=
  if decide (i = 0) then [] else [Act (Take (i - 1) (sel (i - 1)) (y (i - 1)))].

(** Ranks before [k] are done, rank [k] has its message. *)
Definition chain_at (k i : nat) : list event :=
  if decide (i < k) then t i
  else if decide (i = k) then chain_put i ++ t i else chain_take i ++ chain_put i ++ t i.

Lemma drains_chain_at k : drains n t quiet -> k < n -> drains n (chain_at k) quiet.
Proof.
  intros H Hk. remember (n - 1 - k) as j eqn:Hj. revert k Hk Hj. induction j as [|j IH]; intros k Hk Hj.
  - eapply drains_ext; [exact H| |done]. intros i Hi. unfold chain_at, chain_put.
    repeat case_decide; try done; lia.
  - eapply (drains_hand_over n _ k (k + 1) (sel k) (m k) (y k) (t k) (chain_put (k + 1) ++ t (k + 1)));
      [lia|lia|lia|apply Hsel; lia| | |].
    + unfold chain_at. rewrite decide_False by lia. rewrite decide_True by done.
      unfold chain_put. by rewrite decide_True by lia.
    + unfold chain_at. do 2 (rewrite decide_False by lia). unfold chain_take.
      rewrite decide_False by lia. by replace (k + 1 - 1) with k by lia.
    + eapply drains_ext; [apply (IH (k + 1)); lia| |done]. intros i Hi. unfold set_fn, chain_at.
      repeat case_decide; try done; try lia; by subst.
Qed.

Lemma drains_chain tr :
  (forall i, i < n -> tr i = chain_take i ++ chain_put i ++ t i) -> drains n t quiet -> drains n tr quiet.
Proof.
  intros Htr H. eapply drains_ext; [exact (drains_chain_at 0 H ltac:(lia))| |done].
  intros i Hi. rewrite Htr by done. unfold chain_at, chain_take. repeat case_decide; done || lia.
Qed.
End Chain.

(** ** A step *)
Section Step.
Context (n : nat) (act_tag token_tag decision_tag : MessageTag) (hs : nat -> Tensor)
  (token decision : list byte).
Hypothesis Hn : 1 < n.

(** The events of rank [i] in a step; [hs i] enters stage [i]. *)
Definition step_trace (i : nat) : list event :=
  (if decide (i = 0) then [] else [activation_take (i - 1) act_tag (hs i)])
  ++ (if decide (i < n - 1) then [activation_put (i + 1) act_tag (hs (S i))]
      else [control_put 0 token_tag token])
  ++ (if decide (i = 0)
      then control_take (n - 1) token_tag token
           :: map (fun d => control_put d decision_tag decision) (seq 1 (n - 1))
      else [control_take 0 decision_tag decision]).

Lemma drains_step_trace : drains n step_trace quiet.
Proof.
  set (rest := fun _ : nat => @nil event). assert (drains n rest quiet) as H by (by apply drains_done).
  eapply (drains_ext _ (fun i => step_trace i ++ rest i)); [|intros i _; by rewrite app_nil_r|done].
  set (after := fun i =>
    (if decide (i < n - 1) then [] else [control_put 0 token_tag token])
    ++ (if decide (i = 0)
        then control_take (n - 1) token_tag token
             :: map (fun d => control_put d decision_tag decision) (seq 1 (n - 1))
        else [control_take 0 decision_tag decision]) ++ rest i).
  eapply (drains_chain n (fun i => mkMessage act_tag (TensorPayload (activation_packet (hs (S i)))))
    (fun _ => tensor_payload act_tag) (fun i => TensorPayload (activation_packet (hs (S i)))) after);
    [done|intros; apply activation_selected| |].
  { intros i Hi. unfold step_trace, after, chain_take, chain_put, activation_take, activation_put.
    repeat case_decide; subst; cbn [app]; rewrite <- ?app_assoc; cbn [app]; try done; try lia;
      by replace (S (i - 1)) with i by lia. }
  eapply (drains_hand_over n _ (n - 1) 0 (control_payload token_tag)
    (mkMessage token_tag (ControlPayload (mkControlPacket token))) (ControlPayload (mkControlPacket token))
    (control_take 0 decision_tag decision :: rest (n - 1))
    (map (fun d => control_put d decision_tag decision) (seq 1 (n - 1)) ++ rest 0));
    [lia|lia|lia|apply control_selected| | |].
  { unfold after. rewrite (decide_False (P := n - 1 < n - 1)) by lia. by rewrite decide_False by lia. }
  { unfold after. rewrite decide_True by lia. by rewrite decide_True. }
  eapply (drains_scatter n 0 (seq 1 (n - 1))
    (fun _ => mkMessage decision_tag (ControlPayload (mkControlPacket decision)))
    (fun _ => control_payload decision_tag) (fun _ => ControlPayload (mkControlPacket decision)) rest);
    [lia| |apply NoDup_seq| | |done].
  - apply List.Forall_forall. intros x Hx%in_seq. split; [lia|]. split; [lia|apply control_selected].
  - unfold set_fn. by rewrite decide_True.
  - intros i Hi Hi0. unfold set_fn. rewrite decide_False by done.
    rewrite (decide_True (P := i ∈ seq 1 (n - 1))) by (apply elem_of_seq; lia).
    case_decide as E; [by subst|]. unfold after. rewrite decide_True by lia. by rewrite decide_False.
Qed.
End Step.
