(* ===== verification/PipelineProofs.v ===== *)
(** * A pipeline generates what one process generates

    The abstract specification is [greedy_run]: a greedy run of the model, token
    by token.  The single-rank loop implements it ([Generation.v]), and so does a
    world of pipeline ranks ([Pipeline.v]), whatever the schedule. *)
From S2P Require Import Prelude Rank Packet Mailbox World Tensor Registry Memory Partition Protocol.
From S2P Require Import Report Cache Kernels Llama LlamaStage Artifacts Generation GenerationProofs.
From S2P Require Import Shapes Pipeline PipelineWorld.

(** ** The specification *)
Section Greedy.
Context {FO : FloatOps} {KE : Kernels}.
Context (model : Llama) (tokenizer : Tokenizer) (eos requested effective : N).

(** [greedy_run ids kv generated reason tokens kv']: feeding [ids] to the model
    on cache [kv], after [generated], ends for [reason] with [tokens] and [kv']. *)
Inductive greedy_run : list N -> KvCache -> list N -> StopReason -> list N -> KvCache -> Prop :=
| greedy_eos ids kv generated logits kv' :
    llama_forward model (token_tensor ids) (cache_len kv) kv = Ok (logits, kv') ->
    greedy_token logits = Ok eos -> greedy_run ids kv generated Eos generated kv'
| greedy_limit ids kv generated logits kv' token text :
    llama_forward model (token_tensor ids) (cache_len kv) kv = Ok (logits, kv') ->
    greedy_token logits = Ok token -> token <> eos ->
    tokenizer_step tokenizer generated token = Ok text ->
    (effective <= N.of_nat (length (generated ++ [token])))%N ->
    greedy_run ids kv generated (token_limit_stop_reason requested effective) (generated ++ [token]) kv'
| greedy_more ids kv generated logits kv' token text reason tokens kv'' :
    llama_forward model (token_tensor ids) (cache_len kv) kv = Ok (logits, kv') ->
    greedy_token logits = Ok token -> token <> eos ->
    tokenizer_step tokenizer generated token = Ok text ->
    (N.of_nat (length (generated ++ [token])) < effective)%N ->
    greedy_run [token] kv' (generated ++ [token]) reason tokens kv'' ->
    greedy_run ids kv generated reason tokens kv''.

(** The single-rank loop runs greedily; its decode stream has seen what it generated. *)
Definition in_step (s : Generating) : Prop := streamed s = generated s.

Lemma accepted_in_step s token s' :
  accept_token tokenizer s token = Ok s' -> in_step s ->
  (exists text, tokenizer_step tokenizer (generated s) token = Ok text) /\
  generated s' = generated s ++ [token] /\ next_token s' = token /\ cache s' = cache s /\ in_step s'.
Proof.
  unfold accept_token, in_step. intros H Hs. apply bind_Ok in H as (text & Ht & [= <-]).
  apply map_err_Ok in Ht. rewrite Hs in Ht. split; [by eexists|]. cbn. by rewrite Hs.
Qed.

Lemma decode_loop_greedy fuel s reason s' :
  in_step s -> (N.of_nat (length (generated s)) < effective)%N ->
  decode_loop model tokenizer eos requested effective fuel s = Some (Ok (reason, s')) ->
  greedy_run [next_token s] (cache s) (generated s) reason (generated s') (cache s').
Proof.
  revert s. induction fuel as [|fuel IH]; intros s Hs Hlt H; [done|]. cbn [decode_loop] in H.
  destruct (decode_round _ _ _ _ _ s) as [r|] eqn:Hr; [|done]. unfold decode_round in Hr.
  destruct (N.leb_spec effective (N.of_nat (length (generated s)))); [lia|].
  apply bind_Ok in Hr as ([logits kv] & Hf & Hr). apply bind_Ok in Hr as (token & Hg & Hr).
  destruct (N.eqb_spec token eos) as [->|Hne].
  { injection Hr as <-. injection H as <- <-. by eapply greedy_eos. }
  destruct (accept_token _ _ token) as [s1|] eqn:Ha; [|done]. injection Hr as <-.
  destruct (accepted_in_step _ _ _ Ha Hs) as ([text Ht] & Hgen & Hnext & Hcache & Hs1).
  cbn [generated cache] in *.
  destruct (N.leb_spec effective (N.of_nat (length (generated s1)))) as [Hle|Hmore].
  - destruct fuel as [|fuel]; [done|]. cbn [decode_loop] in H. unfold decode_round in H.
    destruct (N.leb_spec effective (N.of_nat (length (generated s1)))); [|lia].
    injection H as <- <-. rewrite Hgen, Hcache. eapply greedy_limit; try done. by rewrite <- Hgen.
  - eapply greedy_more; try done; rewrite <- Hgen; [done|]. specialize (IH s1 Hs1 Hmore H).
    by rewrite Hnext, Hcache in IH.
Qed.

Lemma generate_tokens_greedy fuel prompt_tokens kv evs reason s :
  cache_len kv = 0 -> (0 < effective)%N ->
  generate_tokens model tokenizer eos requested effective fuel prompt_tokens kv evs = Some (Ok (reason, s)) ->
  greedy_run prompt_tokens kv [] reason (generated s) (cache s).
Proof.
  intros Hk Heff H. unfold generate_tokens in H. cbv zeta in H.
  match type of H with match ?m with Ok _ => _ | Err _ => _ end = _ => destruct m as [r|] eqn:Hr; [|done] end.
  rewrite <- Hk in Hr. apply bind_Ok in Hr as ([logits kv'] & Hf & Hr). apply bind_Ok in Hr as (token & Hg & Hr).
  destruct (N.eqb_spec token eos) as [->|Hne].
  { injection Hr as <-. injection H as <- <-. by eapply greedy_eos. }
  destruct (accept_token _ _ token) as [s1|] eqn:Ha; [|done]. injection Hr as <-.
  destruct (accepted_in_step _ _ _ Ha eq_refl) as ([text Ht] & Hgen & Hnext & Hcache & Hs1).
  cbn [generated cache] in *.
  destruct (N.leb_spec effective (N.of_nat (length (generated s1)))) as [Hle|Hmore].
  - destruct fuel as [|fuel]; [done|]. cbn [decode_loop] in H. unfold decode_round in H.
    destruct (N.leb_spec effective (N.of_nat (length (generated s1)))); [|lia].
    injection H as <- <-. rewrite Hgen, Hcache. eapply (greedy_limit _ _ []); try done. by rewrite <- Hgen.
  - eapply (greedy_more _ _ []); try done; rewrite <- Hgen; [done|].
    pose proof (decode_loop_greedy fuel s1 reason s Hs1 Hmore H) as Hrun.
    by rewrite Hnext, Hcache in Hrun.
Qed.
End Greedy.

(** ** Activations *)
Section Activations.
Context {FO : FloatOps} {KE : Kernels} {KL : KernelLaws KE}.

Lemma add_wf t u v : add t u = Ok v -> tensor_wf t -> tensor_wf u -> tensor_wf v.
Proof.
  intros (Hd & _ & _ & Hdu & He)%add_same Ht Hu. unfold tensor_wf in *.
  rewrite He, Hd, length_zip_with, Ht, Hu, Hdu. lia.
Qed.

Lemma layer_step_wf b h n rope l h' l' :
  layer_step b h n rope l = Ok (h', l') -> tensor_wf h -> tensor_wf h'.
Proof.
  unfold layer_step. intros H Hh. apply bind_Ok in H as (? & _ & H). apply bind_Ok in H as ([[? ?] ?] & _ & H).
  do 5 apply bind_Ok in H as (? & _ & H). destruct (layer_append l _ _) as [r l1].
  apply bind_Ok in H as ([? ?] & _ & H). apply bind_Ok in H as (? & _ & H).
  apply bind_Ok in H as (att & Hatt%candle_Ok%linear_law & H).
  apply bind_Ok in H as (h1 & Ha%candle_Ok & H). apply bind_Ok in H as (? & _ & H).
  apply bind_Ok in H as (m & Hm%candle_Ok & H). apply bind_Ok in H as (h2 & Hb%candle_Ok & H).
  injection H as <- _. do 3 apply bind_Ok in Hm as (? & _ & Hm). apply bind_Ok in Hm as (? & _ & Hm%linear_law).
  eapply add_wf; [exact Hb| |done]. by eapply add_wf.
Qed.

Lemma run_layers_wf bs ls h n rope h' ls' :
  run_layers bs ls h n rope = Ok (h', ls') -> tensor_wf h -> tensor_wf h'.
Proof.
  revert ls h ls'. induction bs as [|b bs IH]; intros [|l ls] h ls' H Hh; cbn [run_layers] in H;
    try (by injection H as <- <-).
  apply bind_Ok in H as ([h1 l1] & H1 & H). apply bind_Ok in H as ([h2 l2] & H2 & [= <- <-]).
  eapply IH; [exact H2|]. by eapply layer_step_wf.
Qed.

(** A stage's pass keeps the shape of the activation. *)
Lemma forward_hidden_keeps st h n c h' c' s w :
  forward_hidden st h n c = Ok (h', c') -> has h [1; s; w] -> tensor_wf h ->
  has h' [1; s; w] /\ tensor_wf h'.
Proof.
  intros H (Hd & Hv & Ht) Hwf. unfold forward_hidden in H.
  apply bind_Ok in H as ([[? ?] ?] & _ & H). apply bind_Ok in H as (? & _ & H).
  apply bind_Ok in H as (? & Hl%reject_if_Ok & H). do 2 apply bind_Ok in H as (? & _ & H).
  apply negb_false_iff, Nat.eqb_eq in Hl. unfold cache_layer_count in Hl.
  destruct c as [ls cap]. cbn [layers] in Hl.
  rewrite (forward_blocks_layers (stage_blocks st) [] ls) in H by done.
  apply bind_Ok in H as ([y ls'] & Hr & [= <- <-]).
  destruct (run_layers_shape _ _ _ _ _ _ _ _ _ _ Hr ltac:(done) Hd) as (Hd' & Hv' & Ht' & _).
  split; [|by eapply run_layers_wf]. split; [congruence|]. split; congruence.
Qed.

(** ** A pass, stage by stage *)
Definition stage_run (i : nat) (st : LlamaStage) (h ids : Tensor) (n : nat) (c : KvCache)
  : dresult (Tensor * KvCache) :=
  if Nat.eqb i 0 then forward_tokens st ids n c else forward_hidden st h n c.

Lemma stage_pass_chain stages caches h n h' caches' :
  stage_pass stages caches h n = Ok (h', caches') -> length stages = length caches ->
  exists hs, hs 0 = h /\ hs (length stages) = h' /\
    forall i st c, stages !! i = Some st -> caches !! i = Some c ->
      exists c', caches' !! i = Some c' /\ forward_hidden st (hs i) n c = Ok (hs (S i), c').
Proof.
  revert caches h caches'. induction stages as [|st stages IH]; intros [|c caches] h caches' H Hl; try done.
  - cbn in H. injection H as <- <-. by exists (fun _ => h).
  - cbn [stage_pass] in H. apply bind_Ok in H as ([h1 c1] & H1 & H).
    apply bind_Ok in H as ([h2 cs] & H2 & [= <- <-]).
    destruct (IH _ _ _ H2 ltac:(by injection Hl)) as (hs & H0 & Hn & Hi).
    exists (fun i => match i with O => h | S i => hs i end). cbn [length]. split; [done|]. split; [done|].
    intros [|i] st' c' Hst Hc; [|by apply Hi]. injection Hst as <-. injection Hc as <-.
    exists c1. cbn. by rewrite H0.
Qed.

Lemma pipeline_forward_chain stages caches ids n logits caches' d :
  pipeline_forward stages caches ids n = Ok (logits, caches') -> length stages = length caches ->
  exists hs, finish (List.last stages d) (hs (length stages)) = Ok logits /\
    forall i st c, stages !! i = Some st -> caches !! i = Some c ->
      exists c', caches' !! i = Some c' /\ stage_run i st (hs i) ids n c = Ok (hs (S i), c').
Proof.
  destruct stages as [|st stages], caches as [|c caches]; intros H Hl; try done. cbn [pipeline_forward] in H.
  apply bind_Ok in H as ([h1 c1] & H1 & H). apply bind_Ok in H as ([h2 cs] & H2 & H).
  apply bind_Ok in H as (lg & Hf & [= <- <-]).
  destruct (stage_pass_chain _ _ _ _ _ _ H2 ltac:(by injection Hl)) as (hs & H0 & Hn & Hi).
  exists (fun i => match i with O => h1 | S i => hs i end). cbn [length]. rewrite last_shift, Hn.
  split; [done|]. intros [|i] st' c' Hst Hc.
  - injection Hst as <-. injection Hc as <-. exists c1. unfold stage_run. cbn. by rewrite H0.
  - unfold stage_run. cbn [Nat.eqb]. by apply Hi.
Qed.
End Activations.

(** ** A round of the world *)
Lemma last_lookup {A B} (f : A -> B) l d r :
  l !! (length l - 1) = Some r -> List.last (map f l) d = f r.
Proof.
  revert d. induction l as [|x l IH]; intros d Hr; [done|].
  destruct l as [|y l]; [cbn in Hr; by injection Hr as ->|].
  rewrite <- (IH (f x)); [cbn [map]; by rewrite last_shift|].
  cbn [length] in Hr |- *. by replace (S (S (length l)) - 1) with (S (S (length l) - 1)) in Hr by lia.
Qed.

Section World.
Context {FO : FloatOps} {KE : Kernels} {KL : KernelLaws KE} {HO : HostSystem} {RT : Runtime}.
Context {JC : JsonCodec PipelineControl} {JL : JsonCodecLaws JC control_wf}.
Context (n L cap : nat) (manifest : PipelineManifest) (config : ModelConfig) (model : Llama)
  (ranges : list (nat * nat)) (tokenizer : Tokenizer) (assignment : nat -> StageAssignment).

Definition range_of (i : nat) : nat * nat := default (0, 0) (ranges !! i).
Definition stage_of_rank (i : nat) : LlamaStage := stage_part model L (range_of i).
Definition cache_of_rank (i : nat) (kv : KvCache) : KvCache := mkCache (part (layers kv) (range_of i)) cap.
Definition tokenizer_of_rank (i : nat) : option Tokenizer := if Nat.eqb i 0 then Some tokenizer else None.

Let hid : nat := N.to_nat (hidden_size config).
Let eos : N := eos_token_id config.
Let requested : N := manifest_requested manifest.
Let effective : N := manifest_effective manifest.

Hypotheses (Hn : 1 < n) (Hranges : length ranges = n) (Htiles : tiles 0 ranges L)
  (Hblocks : length (blocks model) = L)
  (Hassign : forall i, i < n -> stage_rank (assignment i) = N.of_nat i /\
     stage_world_size (assignment i) = N.of_nat n)
  (Htable : exists v, has (embeddings model) [v; hid]) (Hwf : tensor_wf (embeddings model))
  (Hhid : hid <> 0) (Hsize : (N.of_nat (cap * hid) * 4 < U64)%N).

(** The rank's round, loop. *)
Definition round (i : nat) : RankState -> pproc (PipelineDecision * RankState) :=
  rank_round manifest config (assignment i) (stage_of_rank i) (tokenizer_of_rank i).
Definition loop (i fuel : nat) : RankState -> pproc (option (StopReason * RankState)) :=
  rank_loop manifest config (assignment i) (stage_of_rank i) (tokenizer_of_rank i) fuel.

(** The ranks' states in step [step]: their parts of cache [kv], the tokens on
    rank 0, which feeds [ids]; every earlier step but the first was a decode. *)
Record at_step (kv : KvCache) (generated ids : list N) (step : N) (st : nat -> RankState) : Prop := {
  as_cache : forall i, i < n -> rank_cache (st i) = cache_of_rank i kv;
  as_generated : forall i, i < n -> rank_generated (st i) = if Nat.eqb i 0 then generated else [];
  as_step : forall i, i < n -> rank_step (st i) = step;
  as_forwards : forall i, i < n -> rank_forwards (st i) = N.pred step;
  as_input : step_input manifest (st 0) = Ok (token_tensor ids) }.

Lemma rank_nat i : i < n -> N.to_nat (stage_rank (assignment i)) = i /\
  N.to_nat (stage_world_size (assignment i)) = n.
Proof. intros Hi. destruct (Hassign i Hi) as [-> ->]. by rewrite !Nat2N.id. Qed.

Lemma range_lookup i : i < n -> ranges !! i = Some (range_of i).
Proof.
  intros Hi. unfold range_of. destruct (lookup_lt_is_Some_2 ranges i) as [r Hr]; [lia|]. by rewrite Hr.
Qed.

(** Rank 0's decision. *)
Definition decision_on (token : N) (generated : list N) : PipelineDecision :=
  if (token =? eos)%N then Stop Eos
  else if (effective <=? N.of_nat (length (generated ++ [token])))%N
       then Stop (token_limit_stop_reason requested effective) else Continue.
Definition tokens_after (token : N) (generated : list N) : list N :=
  if (token =? eos)%N then generated else generated ++ [token].

Lemma decide_token_spec token s :
  (token <> eos -> exists text, tokenizer_step tokenizer (rank_generated s) token = Ok text) ->
  exists s', decide_token manifest config (Some tokenizer) token s
      = Ok (decision_on token (rank_generated s), s') /\
    (rank_cache s' = rank_cache s /\ rank_forwards s' = rank_forwards s) /\ rank_step s' = rank_step s /\
    rank_generated s' = tokens_after token (rank_generated s) /\
    (token <> eos -> previous_token s' = Some token).
Proof.
  intros Ht. unfold decide_token, decision_on, tokens_after. destruct (N.eqb_spec token eos) as [->|Hne].
  - unfold eos. rewrite N.eqb_refl. by eexists.
  - unfold eos in Hne. rewrite (proj2 (N.eqb_neq _ _) Hne). destruct (Ht Hne) as [text ->].
    cbn [map_err mbind result_bind]. eexists. split; [done|]. done.
Qed.

Lemma greedy_choice token hidden i logits :
  finish (stage_of_rank i) hidden = Ok logits -> greedy_token logits = Ok token ->
  choose_token (stage_of_rank i) hidden = Ok token.
Proof.
  intros Hf Hg. unfold choose_token. rewrite Hf. cbn [runtime map_err mbind result_bind].
  unfold greedy_token in Hg. apply candle_Ok in Hg. by rewrite Hg.
Qed.

Lemma greedy_token_u32 logits token : greedy_token logits = Ok token -> (token < U32)%N.
Proof.
  unfold greedy_token. intros H%candle_Ok. apply bind_Ok in H as (row & _ & H).
  apply bind_Ok in H as (best & Hb & H). unfold argmax_last in Hb. destruct (last_dim _); [|done].
  apply bind_Ok in Hb as (rows & Hr%mapM_Forall2 & [= <-]). unfold to_scalar in H. cbn [dims elements] in H.
  destruct (take _ _); [|done]. destruct rows as [|x [|? ?]]; try done. injection H as ->.
  inversion Hr as [|r ? ? ? Hx]; subst. apply ok_or_Ok in Hx. unfold argmax_row in Hx.
  case_match; [done|]. injection Hx as <-. by apply N.mod_lt.
Qed.

(** The three parts of a round, rank by rank. *)
Lemma exec_stage_forward i s h h' ids c tag pos sq :
  i < n -> (i = 0 -> step_input manifest s = Ok ids) -> cache_len (rank_cache s) = pos ->
  stage_run i (stage_of_rank i) h ids pos (rank_cache s) = Ok (h', c) ->
  (i <> 0 -> sendable h /\ dims h = [1; sq; hid] /\ (rank_step s <> 0%N -> sq = 1)) ->
  activation_tag (rank_step s) = Ok tag ->
  exists cm, exec (mkRank i n) (stage_forward manifest config (assignment i) (stage_of_rank i) s)
    (if decide (i = 0) then [] else [activation_take (i - 1) tag h]) (Ret (Ok (h', c, cm))).
Proof.
  intros Hi Hin Hpos Hrun Hh Htag. destruct (rank_nat i Hi) as [Hr _].
  unfold stage_forward. rewrite Hr, Hpos. unfold stage_run in Hrun.
  destruct (Nat.eqb_spec i 0) as [->|H0].
  - eexists. apply exec_lift with ids; [by apply Hin|]. apply exec_lift with (h', c); [by rewrite Hrun|].
    by apply exec_ret.
  - destruct (Hh H0) as (Hs & Hd & Hsq). rewrite decide_False by done.
    destruct (exec_recv_activation (mkRank i n) (i - 1) h (rank_step s) tag (communication s) Hs
      ltac:(apply Ranks.validate_peer_ne; lia) Htag) as [cm Hex].
    eexists. eapply exec_try_ret; [exact Hex|]. cbn [fst snd].
    assert (validate_activation h (N.to_nat (hidden_size config)) (phase_of (rank_step s)) = Ok tt) as ->.
    { unfold validate_activation, dims3. rewrite Hd. cbn [ptensor map_err mbind result_bind].
      unfold hid. rewrite !Nat.eqb_refl. unfold phase_of.
      destruct (N.eqb_spec (rank_step s) 0) as [_|Hne]; [done|]. by rewrite (Hsq Hne). }
    rewrite Hrun. reflexivity.
Qed.

Lemma exec_hand_over i h step c tag ttag token bytes :
  i < n -> (i + 1 < n -> sendable h) ->
  (i + 1 = n -> choose_token (stage_of_rank i) h = Ok token) ->
  activation_tag step = Ok tag -> token_tag step = Ok ttag ->
  encode (Token step token) = Ok bytes -> (lenN bytes <= MAX_CONTROL_BYTES)%N ->
  exists cm, exec (mkRank i n) (hand_over (assignment i) (stage_of_rank i) h step c)
    (if decide (i < n - 1) then [activation_put (i + 1) tag h] else [control_put 0 ttag bytes]) (Ret (Ok cm)).
Proof.
  intros Hi Hs Hc Htag Httag He Hl. destruct (rank_nat i Hi) as [Hr Hw]. unfold hand_over. rewrite Hr, Hw.
  destruct (Nat.ltb_spec (i + 1) n) as [Hlt|Hge].
  - rewrite decide_True by lia. apply exec_send_activation; [by apply Hs|apply Ranks.validate_peer_ne; lia|done].
  - rewrite decide_False by lia. rewrite Httag.
    destruct (exec_send_control (mkRank i n) 0 ttag _ _ c He Hl ltac:(apply Ranks.validate_peer_ne; lia)) as [cm Hex].
    exists cm. apply exec_lift with token; [apply Hc; lia|done].
Qed.

Lemma exec_agree i s token ttag dtag tbytes dbytes generated :
  let d := decision_on token generated in
  i < n -> rank_generated s = (if Nat.eqb i 0 then generated else []) ->
  (token <> eos -> exists text, tokenizer_step tokenizer generated token = Ok text) ->
  token_tag (rank_step s) = Ok ttag -> decision_tag (rank_step s) = Ok dtag ->
  decode tbytes = Ok (Token (rank_step s) token) ->
  encode (Decision (rank_step s) d) = Ok dbytes -> decode dbytes = Ok (Decision (rank_step s) d) ->
  (lenN dbytes <= MAX_CONTROL_BYTES)%N ->
  exists s', exec (mkRank i n) (agree manifest config (assignment i) (tokenizer_of_rank i) s)
    (if decide (i = 0) then control_take (n - 1) ttag tbytes
        :: map (fun x => control_put x dtag dbytes) (seq 1 (n - 1))
     else [control_take 0 dtag dbytes]) (Ret (Ok (d, s'))) /\
    (rank_cache s' = rank_cache s /\ rank_forwards s' = rank_forwards s) /\ rank_step s' = rank_step s /\
    rank_generated s' = (if Nat.eqb i 0 then tokens_after token generated else []) /\
    (i = 0 -> token <> eos -> previous_token s' = Some token).
Proof.
  intros d Hi Hg Htok Httag Hdtag Hdt Hed Hdd Hl. destruct (rank_nat i Hi) as [Hr Hw].
  unfold agree, tokenizer_of_rank. rewrite Hr, Hw, Httag, Hdtag.
  destruct (Nat.eqb_spec i 0) as [->|H0].
  - rewrite decide_True by done.
    destruct (exec_recv_control (mkRank 0 n) (n - 1) ttag _ tbytes (communication s) Hdt
      ltac:(apply Ranks.validate_peer_ne; lia)) as [c1 H1].
    destruct (decide_token_spec token (with_communication c1 s)) as (s' & Hdec & [Hc Hfw] & Hst & Hgen & Hp).
    { cbn [with_communication rank_generated]. by rewrite Hg. }
    cbn [with_communication rank_generated] in Hdec, Hgen. rewrite Hg in Hdec, Hgen. fold d in Hdec.
    destruct (exec_send_decisions (mkRank 0 n) (seq 1 (n - 1)) (rank_step s) dtag d dbytes
      (communication s') Hed Hl Hdtag) as [c2 H2].
    { apply List.Forall_forall. intros x Hx%in_seq. apply Ranks.validate_peer_ne; lia. }
    exists (with_communication c2 s'). split; [|done].
    change (?x :: ?l) with ([x] ++ l). eapply exec_try; [exact H1|]. cbn [fst snd].
    apply exec_lift with token; [unfold expect_token; by rewrite N.eqb_refl|].
    apply exec_lift with (d, s'); [done|]. cbn [fst snd].
    eapply exec_try_ret; [exact H2|]. done.
  - rewrite decide_False by done.
    destruct (exec_recv_control (mkRank i n) 0 dtag _ dbytes (communication s) Hdd
      ltac:(apply Ranks.validate_peer_ne; lia)) as [c1 H1].
    exists (with_communication c1 s). split; [|done].
    eapply exec_try_ret; [exact H1|]. cbn [fst snd]. unfold expect_decision. rewrite N.eqb_refl. done.
Qed.

Lemma part_nonempty {A} (l : list A) i : length l = L -> i < n -> part l (range_of i) <> [].
Proof.
  intros Hl Hi E. pose proof Htiles as Ht. rewrite <- Hl in Ht. apply part_length in Ht.
  pose proof (range_lookup i Hi) as Hr. apply (proj1 (list.Forall_lookup _ _) Ht) in Hr.
  rewrite E in Hr. cbn in Hr. lia.
Qed.

Lemma cache_of_rank_len i kv pos : i < n -> uniform kv pos -> length (layers kv) = L ->
  cache_len (cache_of_rank i kv) = pos.
Proof.
  intros Hi [_ Hu] Hl. unfold cache_len, cache_of_rank. cbn [layers].
  pose proof (part_nonempty (layers kv) i Hl Hi) as Hne.
  assert (Forall (fun l => layer_length l = pos) (part (layers kv) (range_of i))) as HF
    by (unfold part, slice; by apply Forall_take, Forall_drop).
  destruct (part _ _); [done|]. by inversion HF.
Qed.

Lemma embedding_typed ids y sq :
  embedding (embeddings model) ids = Ok y -> dims ids = [1; sq] -> tensor_wf ids ->
  has y [1; sq; hid] /\ tensor_wf y.
Proof.
  intros H Hd Hw. destruct Htable as [v (Ht & Hv & Hf)]. split; [|by eapply embedding_wf].
  unfold embedding in H. rewrite Ht in H. apply bind_Ok in H as (rows & _ & [= <-]).
  split; [cbn; by rewrite Hd|done].
Qed.

(** The activations of a pass can be sent. *)
Lemma activations_typed hs ids sq pos :
  dims ids = [1; sq] -> tensor_wf ids ->
  (forall i, i < n -> exists c c', stage_run i (stage_of_rank i) (hs i) ids pos c = Ok (hs (S i), c')) ->
  forall i, i < n -> has (hs (S i)) [1; sq; hid] /\ tensor_wf (hs (S i)).
Proof.
  intros Hd Hw Hrun. induction i as [|i IH]; intros Hi; destruct (Hrun _ Hi) as (c & c' & Hr).
  - unfold stage_run in Hr. cbn [Nat.eqb] in Hr. unfold forward_tokens in Hr.
    apply bind_Ok in Hr as (table & Ht%ok_or_Ok & Hr). apply bind_Ok in Hr as ([b q] & _ & Hr).
    apply bind_Ok in Hr as (? & _ & Hr). apply bind_Ok in Hr as (h & He%candle_Ok & Hr).
    assert (table = embeddings model) as ->.
    { unfold stage_of_rank, stage_part in Ht. cbn [stage_embeddings] in Ht. by case_match; [injection Ht as <-|]. }
    destruct (embedding_typed _ _ _ He Hd Hw) as [Hh Hhw]. by eapply forward_hidden_keeps.
  - unfold stage_run in Hr. cbn [Nat.eqb] in Hr. destruct IH as [Hh Hhw]; [lia|]. by eapply forward_hidden_keeps.
Qed.

Lemma last_stage : List.last (map (stage_part model L) ranges) (stage_of_rank 0) = stage_of_rank (n - 1).
Proof.
  apply (last_lookup (stage_part model L) ranges _ (range_of (n - 1))). rewrite Hranges.
  apply range_lookup. lia.
Qed.

(** A pass of the model, stage by stage. *)
Lemma pass_by_stage ids kv pos logits kv' :
  uniform kv pos -> length (layers kv) = L -> cache_capacity kv = cap ->
  llama_forward model (token_tensor ids) pos kv = Ok (logits, kv') ->
  (uniform kv' (pos + length ids) /\ length (layers kv') = L /\ cache_capacity kv' = cap) /\
  exists hs, finish (stage_of_rank (n - 1)) (hs n) = Ok logits /\
    (forall i, i < n -> stage_run i (stage_of_rank i) (hs i) (token_tensor ids) pos (cache_of_rank i kv)
       = Ok (hs (S i), cache_of_rank i kv')) /\
    forall i, i < n -> dims (hs (S i)) = [1; length ids; hid] /\ sendable (hs (S i)).
Proof.
  intros Hun Hll Hcap Hf.
  destruct (llama_forward_guards _ _ _ _ _ Hf) as (sq & hidden & Hd & Hs & Hp & Hfit & Hemb).
  assert (sq = length ids) as -> by (cbn in Hd; congruence). rewrite Hcap in Hfit.
  pose proof (stages_compose_ok model ranges (token_tensor ids) pos kv (length ids) hidden
    ltac:(by rewrite Hblocks) ltac:(congruence) Hd Hs Hun ltac:(by rewrite Hcap) Hemb) as Hcomp.
  rewrite Hf in Hcomp. destruct Hcomp as (Hpf & Hun' & Hll' & Hcap').
  split; [split_and!; [done|congruence..]|]. rewrite Hblocks in Hpf.
  destruct (pipeline_forward_chain _ _ _ _ _ _ (stage_of_rank 0) Hpf) as (hs & Hfin & Hrun).
  { unfold split_cache. by rewrite !length_map. }
  rewrite length_map, Hranges, last_stage in Hfin.
  assert (forall i, i < n -> stage_run i (stage_of_rank i) (hs i) (token_tensor ids) pos (cache_of_rank i kv)
    = Ok (hs (S i), cache_of_rank i kv')) as Hsr.
  { intros i Hi. pose proof (range_lookup i Hi) as Hr.
    destruct (Hrun i (stage_of_rank i) (cache_of_rank i kv)) as (c' & Hc' & Hs').
    - by rewrite list_lookup_fmap, Hr.
    - unfold split_cache. rewrite list_lookup_fmap, Hr, Hcap. done.
    - rewrite Hs'. f_equal. f_equal. unfold split_cache in Hc'. rewrite list_lookup_fmap, Hr, Hcap', Hcap in Hc'.
      cbn in Hc'. by injection Hc' as <-. }
  exists hs. split; [done|]. split; [done|]. intros i Hi.
  assert (tensor_wf (token_tensor ids)) as Hwi.
  { unfold tensor_wf, Tensor.product. cbn. by rewrite Nat.mul_1_r, Nat.add_0_r. }
  destruct (activations_typed hs (token_tensor ids) (length ids) pos Hd Hwi) with (i := i) as [H1 H2]; [|done|].
  { intros j Hj. do 2 eexists. by apply Hsr. }
  split; [apply H1|]. apply (typed_sendable _ _ H1 H2); [by repeat constructor|].
  rewrite product3, Nat.mul_1_l.
  assert (length ids * hid <= cap * hid) by (apply Nat.mul_le_mono_r; lia). lia.
Qed.

(** A round of rank [i], given the activations of the pass and the messages of
    the last rank and of rank 0. *)
Lemma exec_round i kv kv' generated ids step st pos hs logits token tb db :
  let tags := (ACTIVATION_BASE + step, TOKEN_BASE + step, DECISION_BASE + step)%N in
  let d := decision_on token generated in
  i < n -> at_step kv generated ids step st -> (step < 2 ^ 60)%N -> (step <> 0%N -> length ids = 1) ->
  uniform kv pos -> length (layers kv) = L ->
  (forall i, i < n -> stage_run i (stage_of_rank i) (hs i) (token_tensor ids) pos (cache_of_rank i kv)
     = Ok (hs (S i), cache_of_rank i kv')) ->
  (forall i, i < n -> dims (hs (S i)) = [1; length ids; hid] /\ sendable (hs (S i))) ->
  finish (stage_of_rank (n - 1)) (hs n) = Ok logits -> greedy_token logits = Ok token ->
  (token <> eos -> exists text, tokenizer_step tokenizer generated token = Ok text) ->
  encode (Token step token) = Ok tb -> decode tb = Ok (Token step token) -> (lenN tb <= MAX_CONTROL_BYTES)%N ->
  encode (Decision step d) = Ok db -> decode db = Ok (Decision step d) -> (lenN db <= MAX_CONTROL_BYTES)%N ->
  exists s', exec (mkRank i n) (round i (st i)) (step_trace n tags.1.1 tags.1.2 tags.2 hs tb db i) (Ret (Ok (d, s'))) /\
    (rank_cache s' = cache_of_rank i kv' /\
     rank_generated s' = (if Nat.eqb i 0 then tokens_after token generated else []) /\ rank_step s' = step /\
     rank_forwards s' = step) /\
    (i = 0 -> token <> eos -> previous_token s' = Some token).
Proof.
  intros tags d Hi [Hca Hge Hst Hfw Hin] Hstep Hone Hun Hll Hsr Hty Hfin Hg Htext Htb1 Htb2 Htb3 Hdb1 Hdb2 Hdb3.
  assert (activation_tag step = Ok tags.1.1) as Hat by (by apply step_tag_Ok).
  assert (token_tag step = Ok tags.1.2) as Htt by (by apply step_tag_Ok).
  assert (decision_tag step = Ok tags.2) as Hdt by (by apply step_tag_Ok).
  unfold round, rank_round.
  destruct (exec_stage_forward i (st i) (hs i) (hs (S i)) (token_tensor ids) (cache_of_rank i kv')
    tags.1.1 pos (length ids) Hi) as [c1 H1].
  - intros ->. exact Hin.
  - rewrite Hca by done. by apply cache_of_rank_len.
  - rewrite Hca by done. by apply Hsr.
  - intros H0. rewrite Hst by done. destruct i as [|i]; [done|].
    destruct (Hty i ltac:(lia)) as [Hd Hs]. done.
  - by rewrite Hst.
  - destruct (exec_hand_over i (hs (S i)) step c1 tags.1.1 tags.1.2 token tb Hi) as [c2 H2];
      [intros _; by apply Hty| |done..|].
    { intros Hlast. apply (greedy_choice _ _ _ logits); [|done]. by replace i with (n - 1) by lia;
        replace (S (n - 1)) with n by lia. }
    set (forwards := match phase_of (rank_step (st i)) with
      | Prefill => rank_forwards (st i) | Decode => add64 (rank_forwards (st i)) 1 end).
    destruct (exec_agree i (mkRankState (cache_of_rank i kv') c2 (rank_generated (st i))
      (previous_token (st i)) forwards (rank_step (st i))) token tags.1.2 tags.2 tb db generated Hi)
      as (s' & H3 & [Hc3 Hf3] & Hs3 & Hg3 & Hp3);
      cbn [rank_step rank_generated rank_cache] in *; rewrite ?Hst in * by done; try done.
    { by apply Hge. }
    exists s'. split; [|split; [split_and!; try done|done]].
    2:{ rewrite Hf3. subst forwards. rewrite Hst, Hfw by done. unfold phase_of.
        destruct (N.eqb_spec step 0) as [->|Hne]; [done|]. cbn [rank_forwards]. rewrite add64_small; revert Hne Hstep; unfold U64; clear; lia. }
    unfold step_trace. eapply exec_try; [exact H1|]. cbn [fst snd].
    eapply exec_try; [exact H2|]. exact H3.
Qed.

Lemma world_round kv generated ids step st pos logits kv' token :
  at_step kv generated ids step st -> (step < 2 ^ 60)%N -> (step <> 0%N -> length ids = 1) ->
  uniform kv pos -> length (layers kv) = L -> cache_capacity kv = cap ->
  llama_forward model (token_tensor ids) pos kv = Ok (logits, kv') -> greedy_token logits = Ok token ->
  (token <> eos -> exists text, tokenizer_step tokenizer generated token = Ok text) ->
  (uniform kv' (pos + length ids) /\ length (layers kv') = L /\ cache_capacity kv' = cap) /\
  exists st', together n (fun i => round i (st i)) (fun i => Ok (decision_on token generated, st' i)) /\
    (forall i, i < n -> rank_cache (st' i) = cache_of_rank i kv' /\
       rank_generated (st' i) = (if Nat.eqb i 0 then tokens_after token generated else []) /\
       rank_step (st' i) = step /\ rank_forwards (st' i) = step) /\
    (token <> eos -> previous_token (st' 0) = Some token).
Proof.
  intros Hst Hstep Hone Hun Hll Hcap Hf Hg Htext.
  destruct (pass_by_stage ids kv pos logits kv' Hun Hll Hcap Hf) as (Hkv' & hs & Hfin & Hsr & Hty).
  split; [done|].
  destruct (control_bytes_of (Token step token)) as (tb & Htb1 & Htb2 & Htb3).
  { split; [|by eapply greedy_token_u32]. revert Hstep. unfold U64. lia. }
  destruct (control_bytes_of (Decision step (decision_on token generated))) as (db & Hdb1 & Hdb2 & Hdb3).
  { cbn. revert Hstep. unfold U64. lia. }
  destruct (finite_choice (st 0) n _ (fun i Hi => exec_round i kv kv' generated ids step st pos hs logits token
    tb db Hi Hst Hstep Hone Hun Hll Hsr Hty Hfin Hg Htext Htb1 Htb2 Htb3 Hdb1 Hdb2 Hdb3)) as [st' Hst'].
  exists st'. split.
  { exists (step_trace n (ACTIVATION_BASE + step)%N (TOKEN_BASE + step)%N (DECISION_BASE + step)%N hs tb db).
    split; [intros i Hi; by apply Hst'|by apply drains_step_trace]. }
  split; [intros i Hi; by apply Hst'|]. intros Hne. by apply (Hst' 0 ltac:(lia)).
Qed.

(** The state between two rounds. *)
Definition advance (s : RankState) : RankState :=
  mkRankState (rank_cache s) (communication s) (rank_generated s) (previous_token s) (rank_forwards s)
    (add64 (rank_step s) 1).

Lemma loops_stop fuel st reason st' :
  together n (fun i => round i (st i)) (fun i => Ok (Stop reason, st' i)) ->
  together n (fun i => loop i (S fuel) (st i)) (fun i => Ok (Some (reason, st' i))).
Proof. intros H. by apply (together_try n _ (fun i => (Stop reason, st' i))), together_ret. Qed.

Lemma loops_more fuel st st' res :
  together n (fun i => round i (st i)) (fun i => Ok (Continue, st' i)) ->
  together n (fun i => loop i fuel (advance (st' i))) res ->
  together n (fun i => loop i (S fuel) (st i)) res.
Proof. intros H H'. by apply (together_try n _ (fun i => (Continue, st' i))). Qed.

Lemma at_next_step kv generated token step st :
  (step < 2 ^ 60)%N ->
  (forall i, i < n -> rank_cache (st i) = cache_of_rank i kv /\
     rank_generated (st i) = (if Nat.eqb i 0 then generated else []) /\ rank_step (st i) = step /\
     rank_forwards (st i) = step) ->
  previous_token (st 0) = Some token ->
  at_step kv generated [token] (step + 1) (fun i => advance (st i)).
Proof.
  intros Hs Hst Hp. assert (add64 step 1 = step + 1)%N as Ha.
  { apply add64_small. revert Hs. unfold U64. lia. }
  split; unfold advance; cbn [rank_cache rank_generated rank_step rank_forwards].
  - intros i Hi. by apply Hst.
  - intros i Hi. by apply Hst.
  - intros i Hi. destruct (Hst i Hi) as (_ & _ & -> & _). done.
  - intros i Hi. destruct (Hst i Hi) as (_ & _ & _ & ->). lia.
  - unfold step_input. cbn [rank_step previous_token].
    destruct (Hst 0 ltac:(lia)) as (_ & _ & -> & _). rewrite Ha, Hp.
    destruct (N.eqb_spec (step + 1) 0); [lia|done].
Qed.

(** The forward passes of a run that are not its first: one for each token but the
    first, and one for an end-of-sequence token after them. *)
Definition decode_passes (reason : StopReason) (tokens : list N) : N :=
  if decide (reason = Eos) then lenN tokens else N.pred (lenN tokens).

Lemma limit_passes generated token :
  decode_passes (token_limit_stop_reason requested effective) (generated ++ [token]) = N.of_nat (length generated).
Proof.
  unfold decode_passes, token_limit_stop_reason. rewrite decide_False by (by destruct (_ <? _)%N).
  unfold lenN. rewrite length_app. cbn [length]. lia.
Qed.

Lemma world_loop ids kv generated reason tokens kvf :
  greedy_run model tokenizer eos requested effective ids kv generated reason tokens kvf ->
  forall st fuel pos, at_step kv generated ids (N.of_nat (length generated)) st ->
  (effective < 2 ^ 60)%N -> (N.of_nat (length generated) < effective)%N ->
  (generated <> [] -> length ids = 1) -> N.to_nat effective - length generated <= fuel ->
  uniform kv pos -> length (layers kv) = L -> cache_capacity kv = cap ->
  exists st', together n (fun i => loop i fuel (st i)) (fun i => Ok (Some (reason, st' i))) /\
    (forall i, i < n -> rank_generated (st' i) = (if Nat.eqb i 0 then tokens else []) /\
       rank_cache (st' i) = cache_of_rank i kvf /\ rank_forwards (st' i) = decode_passes reason tokens).
Proof.
  induction 1 as [ids kv generated logits kv' Hf Hg|ids kv generated logits kv' token text Hf Hg Hne Ht Hle
    |ids kv generated logits kv' token text reason tokens kv'' Hf Hg Hne Ht Hlt _ IH];
    intros st [|fuel] pos Hat Heff Hgen Hone Hfuel Hun Hll Hcap; try lia;
    assert (cache_len kv = pos) as Hpos
      by (destruct Hun as [Hnl Hu]; unfold cache_len; destruct (layers kv); [done|by inversion Hu]);
    rewrite Hpos in Hf;
    destruct (world_round kv generated ids _ st pos logits kv' _ Hat ltac:(lia)
      ltac:(intros Hz; apply Hone; by intros ->) Hun Hll Hcap Hf Hg ltac:(first [done|by intros _; eexists]))
      as ((Hun' & Hll' & Hcap') & st' & Hex & Hst & Hprev).
  - assert (decision_on eos generated = Stop Eos) as Hd by (unfold decision_on; by rewrite N.eqb_refl).
    rewrite Hd in Hex. exists st'. split; [by apply loops_stop|].
    intros i Hi. destruct (Hst i Hi) as (-> & -> & _ & ->). unfold tokens_after. by rewrite N.eqb_refl.
  - assert (decision_on token generated = Stop (token_limit_stop_reason requested effective)) as Hd.
    { unfold decision_on. rewrite (proj2 (N.eqb_neq _ _) Hne). by rewrite (proj2 (N.leb_le _ _) Hle). }
    rewrite Hd in Hex. exists st'. split; [by apply loops_stop|].
    intros i Hi. destruct (Hst i Hi) as (-> & -> & _ & ->). unfold tokens_after.
    rewrite (proj2 (N.eqb_neq _ _) Hne), limit_passes. done.
  - assert (decision_on token generated = Continue) as Hd.
    { unfold decision_on. rewrite (proj2 (N.eqb_neq _ _) Hne). by rewrite (proj2 (N.leb_gt _ _) Hlt). }
    rewrite Hd in Hex. unfold tokens_after in Hst. rewrite (proj2 (N.eqb_neq _ _) Hne) in Hst.
    pose proof (at_next_step kv' (generated ++ [token]) token (N.of_nat (length generated)) st' ltac:(lia) Hst (Hprev Hne)) as Hat'.
    assert (length (generated ++ [token]) = length generated + 1) as Hlen by (by rewrite length_app).
    destruct (IH (fun i => advance (st' i)) fuel (pos + length ids)) as (st'' & Hex' & Hst'');
      [|done|done|done|lia|done..|].
    { by replace (N.of_nat (length (generated ++ [token]))) with (N.of_nat (length generated) + 1)%N by lia. }
    exists st''. split; [|done]. by eapply loops_more.
Qed.
End World.

(** ** Stages of the balanced partition *)
Definition layer_range (a : StageAssignment) : nat * nat :=
  (N.to_nat (layer_start a), N.to_nat (layer_end a)).

Lemma tiles_stages tied world base remainder k r :
  (0 < base)%N ->
  tiles (N.to_nat (first_layer base remainder r))
    (map layer_range (stages_from tied world base remainder k r (first_layer base remainder r)))
    (N.to_nat (first_layer base remainder (r + N.of_nat k))).
Proof.
  intros Hb. revert r. induction k as [|k IH]; intros r.
  - cbn. by rewrite N.add_0_r.
  - cbn [stages_from map tiles]. unfold layer_range at 1; cbn [layer_start layer_end].
    rewrite <- first_layer_succ. split; [done|]. split.
    + rewrite first_layer_succ. lia.
    + specialize (IH (r + 1)%N). by replace (r + 1 + N.of_nat k)%N with (r + N.of_nat (S k))%N in IH by lia.
Qed.

Lemma first_layer_zero base remainder r : (0 < base)%N -> first_layer base remainder r = 0%N <-> r = 0%N.
Proof. unfold first_layer. nia. Qed.

(** A balanced partition, rank by rank. *)
Lemma balanced_ranks spec n p :
  (num_hidden_layers (config spec) < U64)%N -> balanced spec (N.of_nat n) = Ok p ->
  let L := N.to_nat (num_hidden_layers (config spec)) in
  1 < n /\ length (stages p) = n /\ tiles 0 (map layer_range (stages p)) L /\
  forall i a, stages p !! i = Some a ->
    stage_rank a = N.of_nat i /\ stage_world_size a = N.of_nat n /\
    owns_embeddings a = Nat.eqb (N.to_nat (layer_start a)) 0 /\
    owns_lm_head a = Nat.eqb (N.to_nat (layer_end a)) L /\
    N.to_nat (layer_count a) = N.to_nat (layer_end a) - N.to_nat (layer_start a).
Proof.
  intros Hu H L. unfold balanced in H. apply bind_Ok in H as (? & Hw%reject_if_Ok & H).
  apply bind_Ok in H as (? & Hl%reject_if_Ok & [= <-]). cbn [stages]. bool_prop. subst L.
  revert Hu Hl. generalize (num_hidden_layers (config spec)) as layers. intros layers Hu Hl.
  generalize (tie_word_embeddings (config spec)) as tied. intros tied.
  assert (0 < layers / N.of_nat n)%N as Hb by (apply N.div_str_pos; lia).
  pose proof (first_layer_world layers (N.of_nat n) ltac:(lia) ltac:(lia) Hu) as Hfw.
  pose proof (tiles_stages tied (N.of_nat n) _ (layers mod N.of_nat n) n 0 Hb) as Ht.
  assert (first_layer (layers / N.of_nat n) (layers mod N.of_nat n) 0 = 0)%N as Hz by (by apply first_layer_zero).
  rewrite Hz, N.add_0_l, Hfw in Ht. rewrite Nat2N.id.
  assert (forall i a, stages_from tied (N.of_nat n) (layers / N.of_nat n) (layers mod N.of_nat n) n 0 0 !! i = Some a
    <-> i < n /\ a = stage_of tied (N.of_nat n) (layers / N.of_nat n) (layers mod N.of_nat n) (N.of_nat i)) as Hlk
    by (intros; apply lookup_stages_closed).
  split; [lia|]. split; [|split; [exact Ht|]].
  - pose proof (stages_from_closed tied (N.of_nat n) (layers / N.of_nat n) (layers mod N.of_nat n) n 0) as Hc.
    rewrite Hz in Hc. by rewrite Hc, length_map, length_seq.
  - intros i a [Hi ->]%Hlk. pose proof (stage_count tied layers (N.of_nat n) ltac:(lia) ltac:(lia) Hu (N.of_nat i) ltac:(lia)) as Hsc.
    cbn [stage_of stage_rank stage_world_size owns_embeddings owns_lm_head layer_start layer_end] in *.
    split; [done|]. split; [done|].
    pose proof (first_layer_zero (layers / N.of_nat n) (layers mod N.of_nat n) (N.of_nat i) Hb) as Hzero.
    assert ((N.of_nat i + 1)%N <> N.of_nat n -> (first_layer (layers / N.of_nat n) (layers mod N.of_nat n) (N.of_nat i + 1) < layers)%N) as Hlast.
    { intros Hne. pose proof (first_layer_mono (layers / N.of_nat n) (layers mod N.of_nat n)
        (N.of_nat i + 1 + 1) (N.of_nat n) ltac:(lia)) as Hm. rewrite first_layer_succ, Hfw in Hm.
      revert Hm Hb. generalize (layers / N.of_nat n)%N. lia. }
    split; [|split].
    + destruct (N.eqb_spec (N.of_nat i) 0), (Nat.eqb_spec (N.to_nat (first_layer (layers / N.of_nat n)
        (layers mod N.of_nat n) (N.of_nat i))) 0); try done; lia.
    + destruct (N.eqb_spec (N.of_nat i + 1) (N.of_nat n)) as [E|E].
      * rewrite E, Hfw. by rewrite Nat.eqb_refl.
      * specialize (Hlast E). symmetry. apply Nat.eqb_neq. lia.
    + rewrite Hsc, first_layer_succ. lia.
Qed.

(** ** Caches of stages *)
Lemma mapM_const {A B} (r : dresult B) (l : list A) k :
  mapM (fun _ => r) l = Ok k -> l <> [] -> exists x, r = Ok x /\ k = replicate (length l) x.
Proof.
  intros H. destruct r as [x|e]; [|by destruct l]. intros _. exists x. split; [done|].
  revert k H. induction l as [|a l IH]; intros k H; cbn in H; [by injection H as <-|].
  destruct (mapM _ l) as [k'|]; cbn in H; [|done]. injection H as <-. cbn. f_equal. by apply IH.
Qed.

Lemma mapM_const_Ok {A B} (x : B) (l : list A) :
  mapM (M := result DlirError) (fun _ => Ok x) l = Ok (replicate (length l) x).
Proof. induction l as [|a l IH]; cbn; [done|]. by rewrite IH. Qed.

Lemma stage_cache config cap kv :
  cache_new config cap F32 Cpu = Ok kv ->
  exists l, layers kv = replicate (N.to_nat (num_hidden_layers config)) l /\ cache_capacity kv = cap /\
    forall count, 0 < count -> count <= N.to_nat (num_hidden_layers config) ->
      new_for_layers config count cap F32 Cpu = Ok (mkCache (replicate count l) cap).
Proof.
  intros H. unfold cache_new in H. apply bind_Ok in H as (? & Hc & H). unfold new_for_layers in *.
  apply bind_Ok in H as (? & Hl%reject_if_Ok & H). apply bind_Ok in H as (? & _ & H).
  apply bind_Ok in H as (ls & Hm & [= <-]). bool_prop.
  apply mapM_const in Hm as (l & Hl & ->); [|intros E; apply (f_equal length) in E; rewrite length_seq in E; cbn in E; lia].
  rewrite length_seq. exists l. split; [done|]. split; [done|]. intros count Hpos Hle.
  rewrite Hl, mapM_const_Ok, length_seq.
  destruct (Nat.eqb_spec count 0); [lia|].
  destruct (N.ltb_spec (num_hidden_layers config) (N.of_nat count)); [lia|].
  cbn [orb reject_if]. rewrite !Ok_bind. revert Hc. unfold reject_if. by destruct (_ || _).
Qed.

Lemma part_replicate {A} (x : A) L s e : e <= L -> part (replicate L x) (s, e) = replicate (e - s) x.
Proof.
  intros He. unfold part, slice; cbn [fst snd]. rewrite drop_replicate, take_replicate. f_equal. lia.
Qed.

(** ** The whole run *)

(** A rank may start: it has a plan that fits and the resources the manifest expects. *)
Definition admitted `{HostSystem} (manifest : PipelineManifest) (resources : ResourceSnapshot)
    (i : nat) (plan : StageMemoryPlan) : Prop :=
  memory_plans manifest !! i = Some plan /\ sp_placement plan <> DoesNotFit /\
  (expected_cpu_millis manifest = 0%N \/ cpu_millis resources = Some (expected_cpu_millis manifest)) /\
  (expected_memory_bytes manifest = 0%N \/
   memory_limit_bytes resources = Some (expected_memory_bytes manifest)).

Section Run.
Context {FO : FloatOps} {KE : Kernels} {KL : KernelLaws KE} {HO : HostSystem} {RT : Runtime}.
Context {JC : JsonCodec PipelineControl} {JL : JsonCodecLaws JC control_wf}.

Lemma admit_rank_Ok manifest spec n i resources plan a :
  admitted manifest resources i plan -> spec_of (manifest_model manifest) = Some spec ->
  manifest_dtype manifest = PF32 -> length (stages (partition manifest)) = n ->
  stages (partition manifest) !! i = Some a ->
  admit_rank (mkRank i n) manifest resources = Ok (a, plan, spec).
Proof.
  intros (Hp & Hf & Hc & Hm) Hs Hd Hl Ha. unfold admit_rank. cbn [world_size global_rank].
  rewrite Hl, Nat.eqb_refl. cbn [negb reject_if]. rewrite Ok_bind. unfold stage.
  rewrite Nat2N.id, Ha, Hp. cbn [ok_or]. rewrite !Ok_bind.
  rewrite (bool_decide_eq_false_2 (sp_placement plan = DoesNotFit) Hf). cbn [reject_if]. rewrite Ok_bind.
  assert ((0 <? expected_cpu_millis manifest)%N
    && negb (bool_decide (cpu_millis resources = Some (expected_cpu_millis manifest))) = false) as ->.
  { destruct Hc as [->|Hc]; [done|]. rewrite bool_decide_eq_true_2 by done. by rewrite andb_false_r. }
  assert ((0 <? expected_memory_bytes manifest)%N
    && negb (bool_decide (memory_limit_bytes resources = Some (expected_memory_bytes manifest))) = false) as ->.
  { destruct Hm as [->|Hm]; [done|]. rewrite bool_decide_eq_true_2 by done. by rewrite andb_false_r. }
  cbn [orb reject_if]. rewrite Ok_bind, Hs. cbn [ok_or]. rewrite Ok_bind, Hd.
  assert (validate_cpu_dtype spec PF32 = Ok tt) as -> by (destruct (manifest_model manifest); injection Hs as <-; done).
  done.
Qed.

Lemma load_stage_Ok manifest spec a vb model kv ranges i :
  let cap := N.to_nat (context_capacity manifest) in
  let L := N.to_nat (num_hidden_layers (config spec)) in
  manifest_dtype manifest = PF32 -> from_mmaped_safetensors (checkpoint_path manifest) F32 = Ok vb ->
  llama_load vb F32 (config spec) cap = Ok model -> cache_new (config spec) cap F32 Cpu = Ok kv ->
  owns_embeddings a = Nat.eqb (N.to_nat (layer_start a)) 0 ->
  owns_lm_head a = Nat.eqb (N.to_nat (layer_end a)) L ->
  N.to_nat (layer_count a) = N.to_nat (layer_end a) - N.to_nat (layer_start a) ->
  ranges !! i = Some (layer_range a) -> tiles 0 ranges L ->
  load_stage manifest spec a = Ok (stage_of_rank L model ranges i, cache_of_rank cap ranges i kv).
Proof.
  intros cap L Hd Hvb Hm Hk Hoe Hoh Hc Hr Ht.
  assert (N.to_nat (layer_start a) < N.to_nat (layer_end a) /\ N.to_nat (layer_end a) <= L) as [Hlt Hle].
  { apply (tiles_elem 0 ranges); [done|]. by eapply list_elem_of_lookup_2. }
  unfold load_stage. rewrite Hd. cbn [candle_dtype]. rewrite Hvb. cbn [ptensor map_err]. rewrite Ok_bind.
  rewrite Hoe, Hoh. unfold L. rewrite (stage_load_part vb F32 (config spec) _ model) by done.
  cbn [runtime map_err]. rewrite Ok_bind.
  destruct (stage_cache (config spec) cap kv Hk) as (l & Hl & _ & Hnew).
  fold cap. rewrite Hc, Hnew by (fold L; lia). cbn [runtime map_err]. rewrite Ok_bind.
  unfold stage_of_rank, cache_of_rank, range_of. rewrite Hr.
  change (default (0, 0) (Some (layer_range a))) with (N.to_nat (layer_start a), N.to_nat (layer_end a)).
  rewrite Hl. fold L. rewrite part_replicate by done. done.
Qed.

(** The runs of the ranks around their loops. *)
Lemma ranks_together fuel n manifest spec resources a plan stage kv tokenizer reason st text bytes :
  0 < n ->
  (forall i, i < n -> admit_rank (mkRank i n) manifest (resources i) = Ok (a i, plan i, spec)) ->
  (forall i, i < n -> load_stage manifest spec (a i) = Ok (stage i, kv i)) ->
  (forall i, i < n -> load_tokenizer manifest (a i) = Ok (tokenizer i)) ->
  together n (fun i => rank_loop manifest (config spec) (a i) (stage i) (tokenizer i) fuel
    (mkRankState (kv i) no_communication [] None 0 0)) (fun i => Ok (Some (reason, st i))) ->
  (forall i, i < n -> complete (tokenizer i) (rank_generated (st i)) = Ok (text i)) ->
  (forall i, i < n ->
     used_bytes (rank_cache (st i)) (config spec) (dtype_bytes (manifest_dtype manifest)) = Ok (bytes i)) ->
  together n (fun i => run_pipeline_rank fuel (mkRank i n) manifest (resources i)) (fun i =>
    Ok (Some (mkRankReport (N.to_nat (stage_rank (a i))) (a i) (plan i) (resources i) (bytes i)
      (communication (st i)) (rank_forwards (st i)) (rank_generated (st i)) (text i) reason true true))).
Proof.
  intros Hn Ha Hl Ht Hloop Hc Hb. unfold run_pipeline_rank, comm, barrier.
  apply (together_lift n _ _ _ _ Ha). apply (together_lift n _ _ _ _ Hl).
  apply (together_try n _ (fun _ => tt)); [by apply together_err, together_barrier, together_ret|].
  apply (together_lift n _ _ _ _ Ht). apply (together_try n _ _ _ _ Hloop).
  apply (together_lift n _ _ _ _ Hc).
  apply (together_try n _ (fun _ => tt)); [by apply together_err, together_barrier, together_ret|].
  apply (together_lift n _ bytes); [intros i Hi; by rewrite Hb|]. by apply together_ret.
Qed.

Lemma registered_sizes model spec : spec_of model = Some spec ->
  (num_hidden_layers (config spec) < U64)%N /\ N.to_nat (hidden_size (config spec)) <> 0 /\
  (max_position_embeddings (config spec) * hidden_size (config spec) * 4 < U64)%N /\
  exists hd, head_dim (config spec) = Ok hd.
Proof.
  destruct model; intros [= <-]; (split; [by vm_compute|]); (split; [|split; [by vm_compute|by eexists]]);
    cbn [config hidden_size SMOLLM2 TINYLLAMA]; lia.
Qed.

Lemma llama_load_table vb config cap model :
  well_formed_weights vb -> llama_load vb F32 config cap = Ok model ->
  has (embeddings model) [N.to_nat (vocab_size config); N.to_nat (hidden_size config)] /\
  tensor_wf (embeddings model).
Proof.
  unfold llama_load, embedding_table. intros Hvb H. apply bind_Ok in H as (t & Ht%candle_Ok & H).
  do 3 apply bind_Ok in H as (? & _ & H). apply bind_Ok in H as (? & _ & [= <-]).
  by apply Hvb in Ht.
Qed.

Lemma cache_new_fits config cap kv : cache_new config cap F32 Cpu = Ok kv ->
  (N.of_nat cap <= max_position_embeddings config)%N.
Proof. unfold cache_new. intros H. apply bind_Ok in H as (? & H%reject_if_Ok & _). bool_prop. lia. Qed.

(** The assignments of a balanced partition. *)
Definition assignment_of (p : PipelinePartition) (i : nat) : StageAssignment :=
  default (mkStage 0 0 0 0 false false false) (stages p !! i).
Definition ranges_of (p : PipelinePartition) : list (nat * nat) := map layer_range (stages p).
Definition first_state (p : PipelinePartition) (cap i : nat) (kv : KvCache) : RankState :=
  mkRankState (cache_of_rank cap (ranges_of p) i kv) no_communication [] None 0 0.

Lemma assignment_lookup p n i :
  length (stages p) = n -> i < n -> stages p !! i = Some (assignment_of p i).
Proof.
  intros Hl Hi. unfold assignment_of. destruct (lookup_lt_is_Some_2 (stages p) i) as [a Ha]; [lia|].
  by rewrite Ha.
Qed.

(** The loops of the ranks of a balanced pipeline. *)
Lemma manifest_loop n manifest spec tokenizer vb model kv fuel reason tokens kvf :
  let cap := N.to_nat (context_capacity manifest) in
  let p := partition manifest in
  let L := N.to_nat (num_hidden_layers (config spec)) in
  spec_of (manifest_model manifest) = Some spec -> balanced spec (N.of_nat n) = Ok p ->
  well_formed_weights vb -> llama_load vb F32 (config spec) cap = Ok model ->
  cache_new (config spec) cap F32 Cpu = Ok kv ->
  (0 < manifest_effective manifest < 2 ^ 60)%N -> N.to_nat (manifest_effective manifest) <= fuel ->
  greedy_run model tokenizer (eos_token_id (config spec)) (manifest_requested manifest)
    (manifest_effective manifest) (prompt_token_ids manifest) kv [] reason tokens kvf ->
  exists st,
    together n (fun i => loop L manifest (config spec) model (ranges_of p) tokenizer (assignment_of p) i fuel
      (first_state p cap i kv)) (fun i => Ok (Some (reason, st i))) /\
    (forall i, i < n -> rank_generated (st i) = (if Nat.eqb i 0 then tokens else []) /\
       rank_cache (st i) = cache_of_rank cap (ranges_of p) i kvf /\ rank_forwards (st i) = decode_passes reason tokens).
Proof.
  intros cap p L Hspec Hpart Hwfw Hload Hcache [Heff0 Heff] Hfuel Hgen.
  destruct (registered_sizes _ _ Hspec) as (HL & Hhid & Hbig & _).
  destruct (balanced_ranks spec n _ HL Hpart) as (Hn & Hlen & Htiles & Hstages).
  pose proof (cache_new_at _ _ _ _ _ Hcache) as Hat. pose proof (cache_new_fits _ _ _ Hcache) as Hcapfit.
  destruct (llama_load_table _ _ _ _ Hwfw Hload) as [Htab Htabwf].
  pose proof (llama_load_blocks _ _ _ _ _ Hload) as [_ Hblocks].
  assert (length (ranges_of p) = n) as Hrl by (unfold ranges_of; by rewrite length_map).
  apply (world_loop n L cap manifest (config spec) model (ranges_of p) tokenizer (assignment_of p) Hn Hrl
    Htiles Hblocks) with (ids := prompt_token_ids manifest) (kv := kv) (generated := []) (pos := 0); try done.
  - intros i Hi. by destruct (Hstages i _ (assignment_lookup p n i Hlen Hi)) as (? & ? & _).
  - by eexists.
  - assert (N.of_nat cap * hidden_size (config spec) <= max_position_embeddings (config spec) * hidden_size (config spec))%N
      by (by apply N.mul_le_mono_r). lia.
  - split; unfold first_state; cbn [rank_cache rank_generated rank_step rank_forwards]; try done.
    intros i Hi. by destruct (Nat.eqb i 0).
  - cbn. lia.
  - apply (at_uniform _ _ _ _ Hat).
  - apply (at_layers _ _ _ _ Hat).
  - apply (at_capacity _ _ _ _ Hat).
Qed.

(** The ranks of the manifest, run together. *)
Lemma pipeline_world n manifest spec resources tokenizer vb model kv fuel fuel' evs reason s text :
  let cap := N.to_nat (context_capacity manifest) in
  let effective := manifest_effective manifest in
  spec_of (manifest_model manifest) = Some spec -> manifest_dtype manifest = PF32 ->
  balanced spec (N.of_nat n) = Ok (partition manifest) ->
  (forall i, i < n -> exists plan, admitted manifest (resources i) i plan) ->
  from_mmaped_safetensors (checkpoint_path manifest) F32 = Ok vb -> well_formed_weights vb ->
  tokenizer_from_file (manifest_tokenizer_path manifest) = Ok tokenizer ->
  llama_load vb F32 (config spec) cap = Ok model -> cache_new (config spec) cap F32 Cpu = Ok kv ->
  (0 < effective < 2 ^ 60)%N -> N.to_nat effective <= fuel ->
  generate_tokens model tokenizer (eos_token_id (config spec)) (manifest_requested manifest) effective
    fuel' (prompt_token_ids manifest) kv evs = Some (Ok (reason, s)) ->
  tokenizer_decode tokenizer (generated s) = Ok text ->
  exists reports : nat -> PipelineRankReport,
    together n (fun i => run_pipeline_rank fuel (mkRank i n) manifest (resources i))
      (fun i => Ok (Some (reports i))) /\
    forall i, i < n -> pr_rank (reports i) = i /\ pr_success (reports i) = true /\
      pr_stop_reason (reports i) = reason /\
      pr_generated_tokens (reports i) = (if Nat.eqb i 0 then generated s else []) /\
      pr_completion (reports i) = (if Nat.eqb i 0 then text else "") /\
      pr_decode_forward_count (reports i) = decode_passes reason (generated s).
Proof.
  intros cap effective Hspec Hdt Hpart Hadm Hvb Hwfw Htk Hload Hcache Heff Hfuel Hgen Htext.
  destruct (registered_sizes _ _ Hspec) as (HL & _ & _ & hd & Hhd).
  destruct (balanced_ranks spec n _ HL Hpart) as (Hn & Hlen & Htiles & Hstages).
  pose proof (cache_new_at _ _ _ _ _ Hcache) as Hat.
  apply generate_tokens_greedy in Hgen; [|by eapply cache_at_len|apply Heff].
  destruct (manifest_loop n manifest spec tokenizer vb model kv fuel _ _ _ Hspec Hpart Hwfw Hload Hcache Heff
    Hfuel Hgen) as (st & Hloop & Hst). fold cap in Hloop, Hst.
  set (p := partition manifest) in *.
  destruct (finite_choice (mkStagePlan 0 0 0 0 0 0 0 0 0 0 0 0 NotEvaluated false) n _ Hadm) as [plan Hplan].
  assert (forall i, i < n -> exists bytes, used_bytes (rank_cache (st i)) (config spec)
    (dtype_bytes (manifest_dtype manifest)) = Ok bytes) as Hb by (intros i _; unfold used_bytes; rewrite Hhd; by eexists).
  destruct (finite_choice 0%N n _ Hb) as [bytes Hbytes].
  eexists. split.
  - apply (ranks_together fuel n manifest spec resources (assignment_of p) plan
      (stage_of_rank (N.to_nat (num_hidden_layers (config spec))) model (ranges_of p))
      (fun i => cache_of_rank cap (ranges_of p) i kv) (tokenizer_of_rank tokenizer) reason st
      (fun i => if Nat.eqb i 0 then text else "") bytes); [lia| | | |exact Hloop| |exact Hbytes].
    + intros i Hi. apply admit_rank_Ok; try done; [by apply Hplan|by apply (assignment_lookup p n)].
    + intros i Hi. pose proof (assignment_lookup p n i Hlen Hi) as Ha.
      destruct (Hstages i _ Ha) as (_ & _ & Hoe & Hoh & Hcnt).
      apply (load_stage_Ok manifest spec _ vb); try done. unfold ranges_of. by rewrite list_lookup_fmap, Ha.
    + intros i Hi. destruct (Hstages i _ (assignment_lookup p n i Hlen Hi)) as (Hr & _).
      unfold load_tokenizer, tokenizer_of_rank. rewrite Hr, Htk. destruct i; [done|].
      destruct (N.eqb_spec (N.of_nat (S i)) 0); [lia|done].
    + intros i Hi. destruct (Hst i Hi) as [-> _]. unfold complete, tokenizer_of_rank.
      destruct (Nat.eqb i 0); [by rewrite Htext|done].
  - intros i Hi. destruct (Hst i Hi) as (Hg & _ & Hfw).
    destruct (Hstages i _ (assignment_lookup p n i Hlen Hi)) as (Hr & _).
    cbn [pr_rank pr_success pr_stop_reason pr_generated_tokens pr_completion pr_decode_forward_count].
    rewrite Hr, Hg. by rewrite Nat2N.id.
Qed.

(** C3: a pipeline generates what one process generates.  Take the weights, the
    model, the cache and the tokenizer of a single-process run that stopped for
    [reason] with the tokens of [s].  Then a world of ranks that run the manifest
    on the balanced stages of that model always terminates, under every
    interleaving, without deadlock or undelivered message; every rank stops for
    the same reason, and rank 0 has exactly those tokens and their text. *)
Theorem pipeline_generates n manifest spec resources tokenizer vb model kv fuel fuel' evs reason s text :
  let cap := N.to_nat (context_capacity manifest) in
  let effective := manifest_effective manifest in
  spec_of (manifest_model manifest) = Some spec -> manifest_dtype manifest = PF32 ->
  balanced spec (N.of_nat n) = Ok (partition manifest) ->
  (forall i, i < n -> exists plan, admitted manifest (resources i) i plan) ->
  from_mmaped_safetensors (checkpoint_path manifest) F32 = Ok vb -> well_formed_weights vb ->
  tokenizer_from_file (manifest_tokenizer_path manifest) = Ok tokenizer ->
  llama_load vb F32 (config spec) cap = Ok model -> cache_new (config spec) cap F32 Cpu = Ok kv ->
  (0 < effective < 2 ^ 60)%N -> N.to_nat effective <= fuel ->
  generate_tokens model tokenizer (eos_token_id (config spec)) (manifest_requested manifest) effective
    fuel' (prompt_token_ids manifest) kv evs = Some (Ok (reason, s)) ->
  tokenizer_decode tokenizer (generated s) = Ok text ->
  exists reports : nat -> PipelineRankReport,
    always_returns
      (start (map (fun i => run_pipeline_rank fuel (mkRank i n) manifest (resources i)) (seq 0 n)))
      (map (fun i => Ok (Some (reports i))) (seq 0 n)) /\
    forall i, i < n -> pr_rank (reports i) = i /\ pr_success (reports i) = true /\
      pr_stop_reason (reports i) = reason /\
      pr_generated_tokens (reports i) = (if Nat.eqb i 0 then generated s else []) /\
      pr_completion (reports i) = (if Nat.eqb i 0 then text else "").
Proof.
  intros cap effective Hspec Hdt Hpart Hadm Hvb Hwfw Htk Hload Hcache Heff Hfuel Hgen Htext.
  destruct (pipeline_world n manifest spec resources tokenizer vb model kv fuel fuel' evs reason s text)
    as (reports & Ht & Hr); try done.
  exists reports. split; [|intros i Hi; destruct (Hr i Hi) as (H1 & H2 & H3 & H4 & H5 & _); by split_and!].
  by apply (together_returns n (fun i => run_pipeline_rank fuel (mkRank i n) manifest (resources i))).
Qed.
End Run.
