(* ===== verification/PipelineExamples.v ===== *)
(** * Runs of the typed model and of a pipeline

    Concrete inputs of [Shapes.model_well_typed] and of
    [PipelineProofs.pipeline_generates]: kernels that return zeros of the right
    number, weights of zeros, a byte codec of the control messages, and a
    two-rank SmolLM2 pipeline that generates one token.  The tables are too
    large to evaluate, so the run of one process comes from the lemmas. *)
From Stdlib Require Import Strings.Byte.
From S2P Require Import Prelude Rank Packet Mailbox World Tensor Registry Memory Partition Protocol.
From S2P Require Import Report Cache Kernels Llama LlamaStage Artifacts Generation GenerationProofs.
From S2P Require Import Shapes Pipeline PipelineWorld PipelineProofs.

#[local] Instance flat_floats : FloatOps := {| fadd a b := 0%N |}.

Definition linear_dims (w x : Tensor) : list nat :=
  match dims w with o :: _ => <[length (dims x) - 1 := o]> (dims x) | [] => [] end.

#[local] Instance flat_kernels : Kernels :=
  {| linear_values w x := replicate (Tensor.product (linear_dims w x)) 0%N;
     matmul_values _ _ := [0%N]; rms_norm_values _ _ _ := [0%N];
     rope_values _ _ _ := [0%N]; softmax_values _ := [0%N]; fsilu x := x; fmul x y := 0%N;
     fdiv_sqrt _ x := x; fcos x := x; fsin x := x; inverse_frequency _ _ _ := 0%N;
     f32_of_nat n := N.of_nat n; convert _ t := elements t |}.

#[local] Instance flat_laws : KernelLaws flat_kernels.
Proof.
  split. intros w x y H. unfold linear in H. unfold tensor_wf.
  destruct (dims w) as [|o [|i [|? ?]]] eqn:Ew; try done. destruct (last_dim (dims x)); [|done].
  destruct (_ || _) in H; [done|]. injection H as <-. cbn [elements dims linear_values flat_kernels].
  unfold linear_dims. rewrite Ew. apply length_replicate.
Qed.

Definition zero_weights : VarBuilder := fun _ shape =>
  Ok (mkTensor Cpu F32 shape (replicate (Tensor.product shape) 0%N)).

Lemma zero_weights_wf : well_formed_weights zero_weights.
Proof. intros name shape t [= <-]. split; [done|]. apply length_replicate. Qed.

(** ** A typed pass *)
Definition small_config : ModelConfig := mkConfig 4 4 4 2 2 1 "1e-5" "10000.0" 8 1 2 true.

Lemma model_well_typed_witness :
  exists model kv logits kv',
    llama_load zero_weights F32 small_config 8 = Ok model /\
    cache_new small_config 8 F32 Cpu = Ok kv /\
    llama_forward model (token_tensor [1; 3]%N) 0 kv = Ok (logits, kv') /\
    has logits [1; 4] /\ typed_cache small_config 2 8 2 kv'.
Proof.
  destruct (llama_load zero_weights F32 small_config 8) as [model|] eqn:Hm; [|vm_compute in Hm; discriminate].
  destruct (cache_new small_config 8 F32 Cpu) as [kv|] eqn:Hk; [|vm_compute in Hk; discriminate].
  destruct (model_well_typed zero_weights small_config 2 8 model zero_weights_wf eq_refl Hm) as [Hnew Hpass].
  destruct (Hpass kv 0 2 (token_tensor [1; 3]%N) (Hnew kv Hk) eq_refl ltac:(lia)) as (logits & kv' & Hf & Hl & Hc).
  - repeat constructor; vm_compute; lia.
  - lia.
  - exists model, kv, logits, kv'. split_and!; try done; apply Hl.
Defined.

(** ** Passes over zeros *)

Lemma argmax_zeros l index : Forall (eq 0%N) l -> argmax_scan l index 0%N 0%N = 0%N.
Proof. intros H. revert index. induction H as [|x l <- _ IH]; intros index; cbn [argmax_scan]; [done|apply IH]. Qed.

Lemma greedy_zero logits v :
  tensor_wf logits -> dims logits = [1; v] -> v <> 0 -> Forall (eq 0%N) (elements logits) -> greedy_token logits = Ok 0%N.
Proof.
  intros Hwf Hd Hv Hz. unfold tensor_wf in Hwf. rewrite Hd in Hwf. unfold Tensor.product in Hwf. cbn in Hwf.
  unfold greedy_token, squeeze0. rewrite Hd. cbn [mbind result_bind].
  unfold argmax_last, last_dim. cbn [dims elements device length lookup list_lookup Nat.sub take].
  change (Tensor.blocks (Tensor.product []) v (elements logits)) with [take v (elements logits)].
  rewrite take_ge by lia. cbn [mapM]. destruct Hz as [|x l <- Hz]; [cbn in Hwf; lia|]. unfold argmax_row.
  rewrite argmax_zeros by by constructor. reflexivity.
Qed.

(** The logits are a matrix product. *)
Lemma flat_logits model ids n kv logits kv' :
  llama_forward model ids n kv = Ok (logits, kv') -> tensor_wf logits /\ Forall (eq 0%N) (elements logits).
Proof.
  unfold llama_forward. intros H. apply bind_Ok in H as ([? ?] & _ & H).
  do 4 apply bind_Ok in H as (? & _ & H). apply bind_Ok in H as (? & _ & H). apply bind_Ok in H as ([? ?] & _ & H).
  apply bind_Ok in H as (lg & Hl%candle_Ok & [= <- _]). unfold last_logits in Hl.
  do 2 apply bind_Ok in Hl as (? & _ & Hl). apply bind_Ok in Hl as (y & Hlin & Hl).
  assert (tensor_wf y /\ Forall (eq 0%N) (elements y)) as [Hy Hz].
  { split; [by eapply linear_law|]. unfold linear in Hlin. destruct (dims _) as [|o [|i [|? ?]]]; try done.
    destruct (last_dim _); [|done]. destruct (_ || _); [done|]. injection Hlin as <-. cbn.
    by apply List.Forall_forall; intros z Hz%list_elem_of_In%elem_of_replicate_inv. }
  unfold to_dtype in Hl. case_bool_decide; injection Hl as <-; [done|]. split; [exact Hy|exact Hz].
Qed.

(** With one token to generate, one pass is the whole run; with two, there is one
    more. *)
Lemma one_token_run model tokenizer eos prompt kv fuel evs logits kv' t text :
  llama_forward model (token_tensor prompt) 0 kv = Ok (logits, kv') -> greedy_token logits = Ok t -> t <> eos ->
  tokenizer_step tokenizer [] t = Ok text ->
  exists s, generate_tokens model tokenizer eos 1 1 (S fuel) prompt kv evs = Some (Ok (MaxNewTokens, s)) /\
    generated s = [t].
Proof.
  intros Hf Hg Hne Ht. apply N.eqb_neq in Hne. unfold generate_tokens. cbv zeta. rewrite Hf. cbn [mbind result_bind].
  rewrite Hg. cbn [mbind result_bind]. rewrite Hne. unfold accept_token, tokenizer_error. cbn [streamed]. rewrite Ht.
  cbn. by eexists.
Qed.

Lemma two_token_run model tokenizer eos prompt kv fuel evs logits kv' t text logits2 kv2 t2 text2 :
  llama_forward model (token_tensor prompt) 0 kv = Ok (logits, kv') -> greedy_token logits = Ok t -> t <> eos ->
  tokenizer_step tokenizer [] t = Ok text ->
  llama_forward model (token_tensor [t]) (cache_len kv') kv' = Ok (logits2, kv2) -> greedy_token logits2 = Ok t2 ->
  t2 <> eos -> tokenizer_step tokenizer [t] t2 = Ok text2 ->
  exists s, generate_tokens model tokenizer eos 2 2 (S (S fuel)) prompt kv evs = Some (Ok (MaxNewTokens, s)) /\
    generated s = [t; t2].
Proof.
  intros Hf Hg Hne Ht Hf2 Hg2 Hne2 Ht2. apply N.eqb_neq in Hne, Hne2.
  unfold generate_tokens. cbv zeta. rewrite Hf. cbn [mbind result_bind].
  rewrite Hg. cbn [mbind result_bind]. rewrite Hne. unfold accept_token, tokenizer_error. cbn [streamed]. rewrite Ht.
  cbn [map_err mbind result_bind fmap result_fmap decode_loop]. unfold decode_round at 1. cbn [generated].
  cbn [emit_token fst snd app length]. cbn [N.of_nat Pos.of_succ_nat Pos.succ N.leb N.compare Pos.compare Pos.compare_cont].
  cbn [next_token cache]. rewrite Hf2. cbn [mbind result_bind]. rewrite Hg2. cbn [mbind result_bind]. rewrite Hne2.
  unfold accept_token, tokenizer_error. cbn [streamed]. rewrite Ht2. cbn. by eexists.
Qed.

(** ** A codec *)
Definition decision_code (d : PipelineDecision) : byte :=
  match d with Continue => x01 | Stop Eos => x02 | Stop MaxNewTokens => x03 | Stop ContextLimit => x04 end.

#[local] Instance byte_codec : JsonCodec PipelineControl :=
  {| to_vec c := Ok (match c with
       | Token step token => x00 :: to_le 8 step ++ to_le 4 token
       | Decision step d => decision_code d :: to_le 8 step end);
     from_slice bytes := match bytes with
       | x00 :: l => Ok (Token (of_le (take 8 l)) (of_le (drop 8 l)))
       | x01 :: l => Ok (Decision (of_le l) Continue)
       | x02 :: l => Ok (Decision (of_le l) (Stop Eos))
       | x03 :: l => Ok (Decision (of_le l) (Stop MaxNewTokens))
       | x04 :: l => Ok (Decision (of_le l) (Stop ContextLimit))
       | _ => Err "unknown variant" end |}.

#[local] Instance byte_codec_laws : JsonCodecLaws byte_codec control_wf.
Proof.
  split. intros [step token|step d].
  - intros [Hs Ht]. eexists. split; [done|]. cbn [from_slice byte_codec].
    rewrite take_app_length' , drop_app_length' by (by rewrite length_to_le).
    rewrite !of_to_le_small by done. split; [done|]. unfold lenN. cbn [length].
    rewrite length_app, !length_to_le. done.
  - cbn [control_wf]. intros Hs. eexists. split; [done|].
    split; [by destruct d as [|[]]; cbn [from_slice byte_codec decision_code]; rewrite of_to_le_small by done|].
    unfold lenN. cbn [length]. by rewrite length_to_le.
Qed.

(** ** A two-rank pipeline *)
#[local] Instance pair_host : HostSystem :=
  {| PathBuf := string; api_new := Ok tt; repo_get _ _ file := Ok file; fs_read _ := Ok [];
     hub_config_from_slice _ := Err ""; chat_template_from_slice _ := Err "";
     mmaped_safetensors _ := Err "";
     debug_config _ := ""; debug_marker m := m; debug_dtypes _ := ""; debug_names _ := "";
     debug_shapes _ := "" |}.

Definition pair_tokenizer : Tokenizer :=
  mkTokenizer (fun _ => Ok [5]%N) (fun ids => Ok "text") (fun _ _ => Ok (Some "t")).
#[local] Instance pair_runtime : Runtime :=
  {| tokenizer_from_file _ := Ok pair_tokenizer; from_mmaped_safetensors _ _ := Ok zero_weights |}.

Definition pair_partition : PipelinePartition :=
  match balanced SMOLLM2 2 with Ok p => p | Err _ => mkPartition 0 [] end.
Definition pair_plan : StageMemoryPlan := mkStagePlan 0 0 0 0 0 0 0 0 0 0 0 0 NotEvaluated false.
Definition pair_resources (i : nat) : ResourceSnapshot := mkResources None None None None None.
Definition pair_manifest : PipelineManifest :=
  mkManifest _ "run" "request" SmolLm2_135MInstruct PF32 [5]%N 5 1 1 2 "model.safetensors"
    "tokenizer.json" pair_partition [pair_plan; pair_plan] 0 0.

(** SmolLM2 loads from zero weights, and one process generates tokens. *)
Lemma zero_model cap : exists model, llama_load zero_weights F32 (config SMOLLM2) cap = Ok model.
Proof.
  destruct (registered_accepts SmolLm2_135MInstruct SMOLLM2 eq_refl) as (expected & He & _).
  destruct (registered_covers SmolLm2_135MInstruct SMOLLM2 expected 64 eq_refl He eq_refl) as [Hcov _].
  assert (forall name shape, expected !! name = Some shape ->
    exists t, zero_weights name (map N.to_nat shape) = Ok t) as Hvb by (intros; eexists; reflexivity).
  exact (model_loads SMOLLM2 64 expected zero_weights eq_refl Hcov Hvb cap F32 eq_refl).
Qed.

Lemma zero_cache cap : cap = 2 \/ cap = 3 -> exists kv, cache_new (config SMOLLM2) cap F32 Cpu = Ok kv.
Proof.
  intros Hcap. destruct (cache_new (config SMOLLM2) cap F32 Cpu) as [kv|] eqn:Hk; [by exists kv|].
  destruct Hcap as [-> | ->]; vm_compute in Hk; discriminate.
Qed.

(** A pass over one token that is in the vocabulary. *)
Lemma zero_pass cap model kv n id : llama_load zero_weights F32 (config SMOLLM2) cap = Ok model ->
  typed_cache (config SMOLLM2) 64 cap n kv -> (id < 49152)%N -> n + 1 <= cap ->
  exists logits kv', llama_forward model (token_tensor [id]) n kv = Ok (logits, kv') /\
    greedy_token logits = Ok 0%N /\ typed_cache (config SMOLLM2) 64 cap (n + 1) kv'.
Proof.
  intros Hm Hk Hid Hn.
  destruct (forward_typed zero_weights (config SMOLLM2) 64 zero_weights_wf eq_refl cap model kv n 1
    (token_tensor [id]) Hm Hk eq_refl ltac:(done)) as (logits & kv' & Hf & Hl & Hk').
  - constructor; [|constructor]. change (vocab_size (config SMOLLM2)) with 49152%N. lia.
  - exact Hn.
  - exists logits, kv'. split; [done|]. split; [|done]. destruct (flat_logits _ _ _ _ _ _ Hf) as [Hwf Hz].
    apply (greedy_zero logits _ Hwf (proj1 Hl)); [|done]. cbn [config vocab_size SMOLLM2]. lia.
Qed.

Lemma zero_run tokenizer fuel evs model kv : (forall ts t, tokenizer_step tokenizer ts t = Ok (Some "t")) ->
  llama_load zero_weights F32 (config SMOLLM2) 2 = Ok model -> cache_new (config SMOLLM2) 2 F32 Cpu = Ok kv ->
  exists s, generate_tokens model tokenizer 2 1 1 (S fuel) [5]%N kv evs = Some (Ok (MaxNewTokens, s)) /\
    generated s = [0]%N.
Proof.
  intros Htk Hm Hk.
  destruct (zero_pass 2 model kv 0 5 Hm (cache_new_typed (config SMOLLM2) 64 eq_refl 2 kv Hk) ltac:(lia) ltac:(lia))
    as (logits & kv' & Hf & Ht & _).
  exact (one_token_run model tokenizer 2 [5]%N kv fuel evs logits kv' 0 (Some "t") Hf Ht ltac:(done) (Htk [] 0%N)).
Qed.

Lemma zero_run_two tokenizer fuel evs model kv : (forall ts t, tokenizer_step tokenizer ts t = Ok (Some "t")) ->
  llama_load zero_weights F32 (config SMOLLM2) 3 = Ok model -> cache_new (config SMOLLM2) 3 F32 Cpu = Ok kv ->
  exists s, generate_tokens model tokenizer 2 2 2 (S (S fuel)) [5]%N kv evs = Some (Ok (MaxNewTokens, s)) /\
    generated s = [0; 0]%N.
Proof.
  intros Htk Hm Hk.
  destruct (zero_pass 3 model kv 0 5 Hm (cache_new_typed (config SMOLLM2) 64 eq_refl 3 kv Hk) ltac:(lia) ltac:(lia))
    as (logits & kv' & Hf & Ht & Hk').
  destruct (zero_pass 3 model kv' 1 0 Hm Hk' ltac:(lia) ltac:(lia)) as (logits2 & kv2 & Hf2 & Ht2 & _).
  assert (cache_len kv' = 1) as Hlen by (destruct Hk' as [Hat _]; by eapply cache_at_len).
  apply (two_token_run model tokenizer 2 [5]%N kv fuel evs logits kv' 0 (Some "t") logits2 kv2 0 (Some "t"));
    try done; by rewrite Hlen.
Qed.

Lemma pipeline_generates_witness :
  exists reason tokens reports,
    always_returns
      (start (map (fun i => run_pipeline_rank 1 (mkRank i 2) pair_manifest (pair_resources i)) (seq 0 2)))
      (map (fun i => Ok (Some (reports i))) (seq 0 2)) /\
    pr_stop_reason (reports 1) = reason /\ pr_generated_tokens (reports 0) = tokens /\
    pr_completion (reports 0) = "text".
Proof.
  destruct (zero_model 2) as [model Hm]. destruct (zero_cache 2 ltac:(by left)) as [kv Hk].
  destruct (zero_run pair_tokenizer 0 recorder_new model kv (fun _ _ => eq_refl) Hm Hk) as (s & Hrun & _).
  destruct (pipeline_generates 2 pair_manifest SMOLLM2 pair_resources pair_tokenizer zero_weights model kv
    1 1 recorder_new MaxNewTokens s "text" eq_refl eq_refl) as (reports & Hret & Hrep).
  - vm_compute. reflexivity.
  - intros i Hi. exists pair_plan. split; [|split; [discriminate|by split; left]].
    destruct i as [|[|i]]; [done|done|lia].
  - done.
  - apply zero_weights_wf.
  - done.
  - exact Hm.
  - exact Hk.
  - cbn. lia.
  - cbn. lia.
  - exact Hrun.
  - done.
  - exists MaxNewTokens, (generated s), reports. split; [exact Hret|].
    destruct (Hrep 0 ltac:(lia)) as (_ & _ & _ & Hg & Hc). destruct (Hrep 1 ltac:(lia)) as (_ & _ & Hr & _).
    by split_and!.
Defined.
