(* ===== verification/Parallel.v ===== *)
(** * Tensor-parallel layers

    Models the layers of [crates/runtime/src/parallel.rs]: linear layers sharded
    by output features or by input features, the vocabulary-sharded embedding and
    the vocabulary-sharded head, as processes over the collectives of
    [Collective.v].  The collectives are threaded as the program's [&mut dyn
    CollectiveCommunicator]; a failing layer drops them, as its callers do. *)
From S2P Require Import Prelude Rank Packet World Tensor Collective Registry Memory Shard Cache Kernels.

(** A rank's part of the model as a process. *)
Definition dproc (A : Type) : Type := proc (dresult A).

(** [?] on a collective call: the result and the collectives afterwards. *)
Definition collective {A} (m : proc (cresult A * NativeCollectives)) : dproc (A * NativeCollectives) :=
  @mbind proc _ _ _ (fun r : cresult A * NativeCollectives =>
    Ret (match r.1 with Ok a => Ok (a, r.2) | Err e => Err (DlirCollective e) end)) m.

Section Layers.
Context {FO : FloatOps} {KE : Kernels}.

(** ** Linear layers *)

(** [struct ColumnParallelLinear]. *)
Record ColumnParallelLinear : Type := mkColumn
  { column_weight : Tensor; global_output_features : nat; gather_output : bool }.

(** [ColumnParallelLinear::from_weight]. *)
Definition column_from_weight (weight : Tensor) (global_output_features : nat) (gather_output : bool)
  : dresult ColumnParallelLinear :=
  '(local_output, _) ← candle (dims2 weight);
  _ ← reject_if (Nat.eqb local_output 0 || negb (Nat.eqb (global_output_features mod local_output) 0))
    (InvalidConfig ("local output width " +:+ pretty local_output
       +:+ " does not evenly shard global width " +:+ pretty global_output_features));
  Ok (mkColumn weight global_output_features gather_output).

(** [ColumnParallelLinear::forward]. *)
Definition column_forward (self : ColumnParallelLinear) (input : Tensor) (nc : NativeCollectives)
  : dproc (Tensor * NativeCollectives) :=
  local ⟵ lift (candle (linear (column_weight self) input));
  if gather_output self
  then
    axis ⟵ lift (match length (dims local) with
                 | O => Err (InvalidConfig "linear output cannot be scalar")
                 | S axis => Ok axis
                 end);
    r ⟵ collective (all_gather nc local axis);
    width ⟵ lift (candle (dim r.1 axis));
    _ ⟵ lift (reject_if (negb (Nat.eqb width (global_output_features self)))
      (InvalidConfig "column-parallel gather produced the wrong output width"));
    lift (Ok r)
  else lift (Ok (local, nc)).

(** [ColumnParallelLinear::local_output_features]. *)
Definition local_output_features (self : ColumnParallelLinear) : option nat :=
  dims (column_weight self) !! 0.

(** [struct RowParallelLinear]. *)
Record RowParallelLinear : Type := mkRow { row_weight : Tensor; row_algorithm : AllReduceAlgorithm }.

(** [RowParallelLinear::from_weight]. *)
Definition row_from_weight (weight : Tensor) (algorithm : AllReduceAlgorithm)
  : dresult RowParallelLinear :=
  _ ← candle (dims2 weight);
  Ok (mkRow weight algorithm).

(** [RowParallelLinear::forward]. *)
Definition row_forward (self : RowParallelLinear) (local_input : Tensor) (nc : NativeCollectives)
  : dproc (Tensor * NativeCollectives) :=
  partial ⟵ lift (candle (linear (row_weight self) local_input));
  collective (all_reduce nc partial Sum (row_algorithm self)).

(** ** Vocabulary *)

(** [struct VocabParallelEmbedding]. *)
Record VocabParallelEmbedding : Type := mkVocabEmbedding
  { vocab_weight : Tensor; vocab_range : ShardRange; global_vocabulary : N;
    vocab_algorithm : AllReduceAlgorithm }.

(** [VocabParallelEmbedding::from_weight] and [with_all_reduce]. *)
Definition vocab_from_weight (weight : Tensor) (range : ShardRange) (global_vocabulary : N)
  : dresult VocabParallelEmbedding :=
  '(rows, _) ← candle (dims2 weight);
  _ ← reject_if (negb (N.of_nat rows =? range_len range)%N || (global_vocabulary <? range_end range)%N)
    (InvalidConfig "embedding weight and vocabulary shard range disagree");
  Ok (mkVocabEmbedding weight range global_vocabulary CentralizedAllReduce).
Definition with_all_reduce (self : VocabParallelEmbedding) (algorithm : AllReduceAlgorithm)
  : VocabParallelEmbedding :=
  mkVocabEmbedding (vocab_weight self) (vocab_range self) (global_vocabulary self) algorithm.

(** [f32::from(bool)]. *)
Definition f32_of_bool (b : bool) : f32 := if b then 0x3f800000%N else 0%N.

(** The loop over the identifiers: the local row, 0 for a row of another rank,
    and the mask.  An identifier is a [u32], so the cast of the row is exact. *)
Definition owned (range : ShardRange) (id : N) : bool :=
  (range_start range <=? id)%N && (id <? range_end range)%N.
Fixpoint mask_ids (range : ShardRange) (global : N) (ids : list N) : dresult (list N * list f32) :=
  match ids with
  | [] => Ok ([], [])
  | id :: ids =>
      _ ← reject_if (global <=? id)%N
        (InvalidConfig ("token ID " +:+ pretty id +:+ " is outside vocabulary " +:+ pretty global));
      '(local_ids, mask) ← mask_ids range global ids;
      Ok ((if owned range id then id - range_start range else 0)%N :: local_ids,
          f32_of_bool (owned range id) :: mask)
  end.

(** [Tensor::broadcast_mul] of [[B, S, H]] by [[B, S, 1]]. *)
Definition broadcast_mul (t u : Tensor) : cresult Tensor :=
  match dims t, dims u with
  | [b; s; h], [b'; s'; 1] =>
      if Nat.eqb b b' && Nat.eqb s s'
      then Ok (mkTensor (device t) (dtype t) (dims t)
                 (concat (zip_with (fun row m => map (fun x => fmul x m) row)
                            (blocks (b * s) h (elements t)) (elements u))))
      else candle_error "broadcast_mul"
  | _, _ => candle_error "broadcast_mul"
  end.

(** The local rows of [VocabParallelEmbedding::forward]: the identifiers of
    other ranks give zeros. *)
Definition vocab_local (self : VocabParallelEmbedding) (token_ids : Tensor) : dresult Tensor :=
  _ ← reject_if (negb (bool_decide (dtype token_ids = U32_DTYPE)))
    (InvalidConfig "token IDs must use u32");
  '(batch, sequence) ← candle (dims2 token_ids);
  '(local_ids, mask) ← mask_ids (vocab_range self) (global_vocabulary self) (elements token_ids);
  candle (local ← embedding (vocab_weight self)
            (mkTensor (device token_ids) U32_DTYPE [batch; sequence] local_ids);
          broadcast_mul local (mkTensor (device token_ids) F32 [batch; sequence; 1] mask)).

(** [VocabParallelEmbedding::forward]. *)
Definition vocab_forward (self : VocabParallelEmbedding) (token_ids : Tensor) (nc : NativeCollectives)
  : dproc (Tensor * NativeCollectives) :=
  local ⟵ lift (vocab_local self token_ids);
  collective (all_reduce nc local Sum (vocab_algorithm self)).

(** [struct VocabParallelLmHead] and its operations. *)
Definition VocabParallelLmHead : Type := ColumnParallelLinear.
Definition head_from_weight (weight : Tensor) (global_vocabulary : nat) : dresult VocabParallelLmHead :=
  column_from_weight weight global_vocabulary true.
Definition head_forward (self : VocabParallelLmHead) (hidden : Tensor) (nc : NativeCollectives)
  : dproc (Tensor * NativeCollectives) :=
  column_forward self hidden nc.
End Layers.
