(* ===== verification/TensorLlama.v ===== *)
(** * The tensor-parallel model

    Models [crates/runtime/src/model/tensor_parallel.rs]: the Llama graph of
    [Llama.v] on one tensor rank, with its shard of every weight and of the
    key/value cache.  What a rank computes between two collectives is a
    definition of its own ([attention_local], [mlp_local]).  Notifications of
    the layer observer are in [TensorEvents.v]. *)
From S2P Require Import Prelude Rank Packet World Tensor Collective Registry Memory Shard.
From S2P Require Import Cache Kernels Llama Parallel.

(** ** Weights *)

(** [trait WeightSource] at one context: name, full shape and sharded axis. *)
Definition WeightSource : Type := string -> list nat -> option nat -> dresult Tensor.

(** [FullWeights]: the whole tensor, sliced. *)
Definition full_weights (vb : VarBuilder) (parallel : ParallelContext) : WeightSource :=
  fun name shape shard_dim =>
    tensor ← candle (vb name shape);
    match shard_dim with
    | Some d =>
        let length := default 0 (shape !! d) / N.to_nat (tp_size parallel) in
        candle (narrow tensor d (N.to_nat (tp_rank parallel) * length) length)
    | None => Ok tensor
    end.

(** [candle_nn]'s [Shard] and [ShardedVarBuilder]. *)
Record ShardHint : Type := mkHint { hint_dim : nat; hint_rank : N; hint_world : N }.
Definition ShardedVarBuilder : Type := string -> list nat -> ShardHint -> cresult Tensor.

(** A mapped safetensors checkpoint: the tensor stored under a name, whole, at the
    reader's dtype on the CPU. *)
Definition ShardedFile : Type := string -> cresult Tensor.

(** [ShardedSafeTensors::get].  Sharded, the requested shape is not looked at: the
    stored shape is what is cut.  An axis the stored tensor does not have is an
    index out of range there, an error here. *)
Definition sharded_get (file : ShardedFile) : ShardedVarBuilder := fun name shape hint =>
  if (hint_world hint =? 1)%N then
    tensor ← file name;
    if bool_decide (dims tensor = shape) then Ok tensor else candle_error ("shape mismatch for " +:+ name)
  else
    view ← file name;
    let world := N.to_nat (hint_world hint) in
    match dims view !! hint_dim hint with
    | None => candle_error "index out of bounds"
    | Some size =>
        if negb (Nat.eqb (size mod world) 0) then candle_error "shape mismatch on split"
        else
          let block_size := size / world in
          let start := N.to_nat (hint_rank hint) * block_size in
          if Nat.ltb (hint_dim hint) 2 then narrow view (hint_dim hint) start block_size
          else candle_error "Get sharded on dimensions != 0 or 1"
    end.

(** [MmapShardedWeights]: the reader slices. *)
Definition sharded_weights (vb : ShardedVarBuilder) (parallel : ParallelContext) : WeightSource :=
  fun name shape shard_dim =>
    let hint := match shard_dim with
                | Some d => mkHint d (tp_rank parallel) (tp_size parallel)
                | None => mkHint 0 0 1
                end in
    candle (vb name shape hint).

Section Model.
Context {FO : FloatOps} {KE : Kernels}.

(** ** Attention *)
Record TensorParallelAttention : Type := mkTensorAttention
  { tq_proj : Tensor; tk_proj : Tensor; tv_proj : Tensor; to_proj : RowParallelLinear;
    local_query_heads : nat; local_kv_heads : nat; local_head_dim : nat }.

(** [TensorParallelAttention::load]. *)
Definition tensor_attention_load (source : WeightSource) (prefix : string) (config : ModelConfig)
    (parallel : ParallelContext) (algorithm : AllReduceAlgorithm) : dresult TensorParallelAttention :=
  hd ← head_dim config;
  let kv_width := N.to_nat (num_key_value_heads config * hd) in
  let h := N.to_nat (hidden_size config) in
  q ← source (prefix +:+ ".q_proj.weight") [h; h] (Some 0);
  k ← source (prefix +:+ ".k_proj.weight") [kv_width; h] (Some 0);
  v ← source (prefix +:+ ".v_proj.weight") [kv_width; h] (Some 0);
  o ← source (prefix +:+ ".o_proj.weight") [h; h] (Some 1);
  o ← row_from_weight o algorithm;
  Ok (mkTensorAttention q k v o
        (N.to_nat (num_attention_heads config) / N.to_nat (tp_size parallel))
        (N.to_nat (num_key_value_heads config) / N.to_nat (tp_size parallel)) (N.to_nat hd)).

(** [TensorParallelAttention::forward] up to the output projection. *)
Definition attention_local (self : TensorParallelAttention) (input : Tensor) (position layer : nat)
    (rope : RotaryEmbedding) (cache : KvCache) : dresult (Tensor * KvCache) :=
  '(batch, sequence, _) ← candle (dims3 input);
  let hd := local_head_dim self in
  q ← candle (project (tq_proj self) input batch sequence (local_query_heads self) hd);
  k ← candle (project (tk_proj self) input batch sequence (local_kv_heads self) hd);
  v ← candle (project (tv_proj self) input batch sequence (local_kv_heads self) hd);
  q ← rotary_apply rope q position;
  k ← rotary_apply rope k position;
  let (r, cache) := cache_append cache layer k v in
  '(k, v) ← r;
  output ← candle (attend q k v input (local_query_heads self / local_kv_heads self) hd position
                     sequence [batch; sequence; local_query_heads self * hd]);
  Ok (output, cache).

(** [TensorParallelAttention::forward]. *)
Definition tensor_attention_forward (self : TensorParallelAttention) (input : Tensor)
    (position layer : nat) (rope : RotaryEmbedding) (cache : KvCache) (nc : NativeCollectives)
  : dproc (Tensor * KvCache * NativeCollectives) :=
  local ⟵ lift (attention_local self input position layer rope cache);
  r ⟵ row_forward (to_proj self) local.1 nc;
  lift (Ok (r.1, local.2, r.2)).

(** ** MLP and block *)
Record TensorParallelMlp : Type := mkTensorMlp
  { tgate_proj : Tensor; tup_proj : Tensor; tdown_proj : RowParallelLinear }.

Definition tensor_mlp_load (source : WeightSource) (prefix : string) (config : ModelConfig)
    (algorithm : AllReduceAlgorithm) : dresult TensorParallelMlp :=
  let h := N.to_nat (hidden_size config) in
  let i := N.to_nat (intermediate_size config) in
  gate ← source (prefix +:+ ".gate_proj.weight") [i; h] (Some 0);
  up ← source (prefix +:+ ".up_proj.weight") [i; h] (Some 0);
  down ← source (prefix +:+ ".down_proj.weight") [h; i] (Some 1);
  down ← row_from_weight down algorithm;
  Ok (mkTensorMlp gate up down).

Definition mlp_local (self : TensorParallelMlp) (input : Tensor) : dresult Tensor :=
  candle (gate ← linear (tgate_proj self) input;
          gated ← silu gate;
          up ← linear (tup_proj self) input;
          mul gated up).
Definition tensor_mlp_forward (self : TensorParallelMlp) (input : Tensor) (nc : NativeCollectives)
  : dproc (Tensor * NativeCollectives) :=
  local ⟵ lift (mlp_local self input);
  row_forward (tdown_proj self) local nc.

Record TensorParallelBlock : Type := mkTensorBlock
  { tinput_norm : Tensor; tattention : TensorParallelAttention; tpost_norm : Tensor;
    tmlp : TensorParallelMlp; tblock_eps : string }.

Definition tensor_block_load (source : WeightSource) (layer : nat) (config : ModelConfig)
    (parallel : ParallelContext) (algorithm : AllReduceAlgorithm) : dresult TensorParallelBlock :=
  let prefix := "model.layers." +:+ pretty layer in
  let h := N.to_nat (hidden_size config) in
  input_norm ← source (prefix +:+ ".input_layernorm.weight") [h] None;
  post_norm ← source (prefix +:+ ".post_attention_layernorm.weight") [h] None;
  attention ← tensor_attention_load source (prefix +:+ ".self_attn") config parallel algorithm;
  mlp ← tensor_mlp_load source (prefix +:+ ".mlp") config algorithm;
  Ok (mkTensorBlock input_norm attention post_norm mlp (rms_norm_eps config)).

(** [TensorParallelBlock::forward]. *)
Definition tensor_block_forward (self : TensorParallelBlock) (input : Tensor) (position layer : nat)
    (rope : RotaryEmbedding) (cache : KvCache) (nc : NativeCollectives)
  : dproc (Tensor * KvCache * NativeCollectives) :=
  normed ⟵ lift (candle (rms_norm (tinput_norm self) (tblock_eps self) input));
  a ⟵ tensor_attention_forward (tattention self) normed position layer rope cache nc;
  hidden ⟵ lift (candle (add input a.1.1));
  normed ⟵ lift (candle (rms_norm (tpost_norm self) (tblock_eps self) hidden));
  m ⟵ tensor_mlp_forward (tmlp self) normed a.2;
  result ⟵ lift (candle (add hidden m.1));
  lift (Ok (result, a.1.2, m.2)).

(** ** The model *)
Record TensorParallelLlama : Type := mkTensorLlama
  { tl_parallel : ParallelContext; tl_embeddings : VocabParallelEmbedding;
    tl_blocks : list TensorParallelBlock; tl_final_norm : Tensor; tl_norm_eps : string;
    tl_lm_head : VocabParallelLmHead; tl_rope : RotaryEmbedding }.

(** [TensorParallelLlama::load_from]; [dt] is the dtype of the source. *)
Definition load_from (source : WeightSource) (dt : DType) (config : ModelConfig)
    (parallel : ParallelContext) (capacity : nat) (algorithm : AllReduceAlgorithm)
  : dresult TensorParallelLlama :=
  let v := N.to_nat (vocab_size config) in
  let h := N.to_nat (hidden_size config) in
  plan ← plan_tensor_shard config parallel;
  table ← source "model.embed_tokens.weight" [v; h] (Some 0);
  embeddings ← vocab_from_weight table (vocabulary plan) (vocab_size config);
  let embeddings := with_all_reduce embeddings algorithm in
  blocks ← mapM (fun layer => tensor_block_load source layer config parallel algorithm)
    (seq 0 (N.to_nat (num_hidden_layers config)));
  norm ← source "model.norm.weight" [h] None;
  head ← (if tie_word_embeddings config then Ok table else source "lm_head.weight" [v; h] (Some 0));
  lm_head ← head_from_weight head v;
  rope ← rotary_new config capacity dt;
  Ok (mkTensorLlama parallel embeddings blocks norm (rms_norm_eps config) lm_head rope).

(** [TensorParallelLlama::load], [load_sharded]. *)
Definition tensor_load (vb : VarBuilder) (dt : DType) (config : ModelConfig)
    (parallel : ParallelContext) (capacity : nat) (algorithm : AllReduceAlgorithm) :=
  load_from (full_weights vb parallel) dt config parallel capacity algorithm.
Definition load_sharded (vb : ShardedVarBuilder) (dt : DType) (config : ModelConfig)
    (parallel : ParallelContext) (capacity : nat) (algorithm : AllReduceAlgorithm) :=
  load_from (sharded_weights vb parallel) dt config parallel capacity algorithm.

(** The loop over the layers. *)
Fixpoint tensor_blocks_forward (blocks : list TensorParallelBlock) (layer : nat) (hidden : Tensor)
    (position : nat) (rope : RotaryEmbedding) (cache : KvCache) (nc : NativeCollectives)
  : dproc (Tensor * KvCache * NativeCollectives) :=
  match blocks with
  | [] => lift (Ok (hidden, cache, nc))
  | block :: blocks =>
      r ⟵ tensor_block_forward block hidden position layer rope cache nc;
      tensor_blocks_forward blocks (S layer) r.1.1 position rope r.1.2 r.2
  end.

(** The checks of [forward_observed]; the sequence length. *)
Definition tensor_forward_checks (self : TensorParallelLlama) (token_ids : Tensor) (position : nat)
    (cache : KvCache) (nc : NativeCollectives) : dresult nat :=
  _ ← reject_if (negb (N.of_nat (global_rank (rank nc)) =? tp_rank (tl_parallel self))%N
                 || negb (N.of_nat (world_size (rank nc)) =? tp_size (tl_parallel self))%N)
    (InvalidConfig "collective world and ParallelContext disagree");
  '(batch, sequence) ← candle (dims2 token_ids);
  _ ← reject_if (negb (Nat.eqb batch 1) || Nat.eqb sequence 0)
    (InvalidConfig ("TP token input must have shape [1,S] with S>0, got " +:+ debug_dims (dims token_ids)));
  _ ← reject_if (negb (Nat.eqb position (cache_len cache))
                 || negb (Nat.eqb (cache_layer_count cache) (length (tl_blocks self))))
    (InvalidConfig "TP cache position or layer count mismatch");
  _ ← reject_if (Nat.ltb (cache_capacity cache) (position + sequence))
    (CacheCapacityExceeded (N.of_nat (position + sequence)) (N.of_nat (cache_capacity cache)));
  Ok sequence.

(** [TensorParallelLlama::forward_observed]. *)
Definition tensor_forward (self : TensorParallelLlama) (token_ids : Tensor) (position : nat)
    (cache : KvCache) (nc : NativeCollectives) : dproc (Tensor * KvCache * NativeCollectives) :=
  sequence ⟵ lift (tensor_forward_checks self token_ids position cache nc);
  e ⟵ vocab_forward (tl_embeddings self) token_ids nc;
  b ⟵ tensor_blocks_forward (tl_blocks self) 0 e.1 position (tl_rope self) cache e.2;
  last ⟵ lift (candle (hidden ← rms_norm (tl_final_norm self) (tl_norm_eps self) b.1.1;
                       index_axis hidden 1 (sequence - 1)));
  l ⟵ head_forward (tl_lm_head self) last b.2;
  logits ⟵ lift (candle (to_dtype F32 l.1));
  lift (Ok (logits, b.1.2, l.2)).
End Model.
