(* ===== verification/TensorShapes.v ===== *)
(** * Typed tensor shards

    Shapes through what a tensor rank computes between two collectives
    ([crates/runtime/src/model/tensor_parallel.rs]): on shards of the declared
    shapes every operation succeeds, and the partial results are tensors that
    can be sent. *)
From S2P Require Import Prelude Rank Packet World Tensor Collective Registry Memory Shard Cache Kernels.
From S2P Require Import Llama LlamaStage Artifacts GenerationProofs Shapes Parallel TensorLlama.

(** ** Typed parts *)

(** The sizes [z] are those of the shard, except the hidden width. *)
Record typed_tensor_attention (z : sizes) (a : TensorParallelAttention) : Prop := {
  tta_q : has (tq_proj a) [nh z * hd z; zh z]; tta_k : has (tk_proj a) [nkv z * hd z; zh z];
  tta_v : has (tv_proj a) [nkv z * hd z; zh z]; tta_o : has (row_weight (to_proj a)) [zh z; nh z * hd z];
  tta_sizes : local_query_heads a = nh z /\ local_kv_heads a = nkv z /\ local_head_dim a = hd z }.

Record typed_tensor_block (z : sizes) (alg : AllReduceAlgorithm) (b : TensorParallelBlock) : Prop := {
  ttb_in : has (tinput_norm b) [zh z]; ttb_post : has (tpost_norm b) [zh z];
  ttb_att : typed_tensor_attention z (tattention b);
  ttb_gate : has (tgate_proj (tmlp b)) [zi z; zh z]; ttb_up : has (tup_proj (tmlp b)) [zi z; zh z];
  ttb_down : has (row_weight (tdown_proj (tmlp b))) [zh z; zi z];
  ttb_algorithm : row_algorithm (to_proj (tattention b)) = alg /\ row_algorithm (tdown_proj (tmlp b)) = alg }.

(** A cache of [L] layers in a pass of [s] tokens after [n] positions; the first
    [k] layers have them. *)
Record cache_in_pass (z : sizes) (cap L n s k : nat) (kv : KvCache) : Prop := {
  cp_layers : length (layers kv) = L; cp_capacity : cache_capacity kv = cap;
  cp_typed : forall j l, layers kv !! j = Some l ->
    typed_layer z cap (if Nat.ltb j k then n + s else n) l }.

Lemma cache_in_pass_next z cap L n s m kv :
  cache_in_pass z cap L n s L kv -> cache_in_pass z cap L (n + s) m 0 kv.
Proof.
  intros [Hl Hc Ht]. split; [done..|]. intros j l Hj. specialize (Ht j l Hj).
  apply lookup_lt_Some in Hj. destruct (Nat.ltb_spec j L); [done|lia].
Qed.

Lemma cache_in_pass_start z cap L n s s' kv : cache_in_pass z cap L n s 0 kv -> cache_in_pass z cap L n s' 0 kv.
Proof. intros [Hl Hc Ht]. by split. Qed.

Lemma cache_in_pass_len z cap L n s kv : L <> 0 -> cache_in_pass z cap L n s 0 kv -> cache_len kv = n.
Proof.
  intros HL [Hl _ Ht]. unfold cache_len. destruct (layers kv) as [|l ls] eqn:E; [by cbn in Hl|].
  by apply (Ht 0 l eq_refl).
Qed.

Section Local.
Context {FO : FloatOps} {KE : Kernels} {KL : KernelLaws KE} (z : sizes) (Hg : groups_ok z).

Lemma cache_append_has cap L n s k kv key value :
  cache_in_pass z cap L n s k kv -> k < L -> has key [1; nkv z; s; hd z] -> has value [1; nkv z; s; hd z] ->
  n + s <= cap ->
  exists key' value' kv', cache_append kv k key value = (Ok (key', value'), kv') /\
    has key' [1; nkv z; n + s; hd z] /\ has value' [1; nkv z; n + s; hd z] /\
    cache_in_pass z cap L n s (S k) kv'.
Proof.
  intros [Hl Hc Ht] Hk Hkey Hval Hn. destruct (lookup_lt_is_Some_2 (layers kv) k) as [l Hlk]; [lia|].
  pose proof (Ht k l Hlk) as Htl. rewrite Nat.ltb_irrefl in Htl. unfold cache_append. rewrite Hlk.
  destruct (layer_append_has z cap n l key value s Htl Hkey Hval Hn) as (k' & v' & l' & -> & Hk' & Hv' & Hl').
  do 3 eexists. split; [done|]. split; [done|]. split; [done|]. split; cbn [layers cache_capacity].
  - by rewrite length_insert.
  - done.
  - intros j x Hj. destruct (decide (j = k)) as [->|Hne].
    + rewrite list_lookup_insert_eq in Hj by lia. injection Hj as <-.
      by rewrite (proj2 (Nat.ltb_lt k (S k)) ltac:(lia)).
    + rewrite list_lookup_insert_ne in Hj by done. specialize (Ht j x Hj).
      replace (Nat.ltb j (S k)) with (Nat.ltb j k); [done|].
      destruct (Nat.ltb_spec j k), (Nat.ltb_spec j (S k)); done || lia.
Qed.

(** What a rank hands to the reduction after the attention. *)
Definition attention_part (b : TensorParallelBlock) (h : Tensor) (position layer : nat)
    (rope : RotaryEmbedding) (cache : KvCache) : dresult (Tensor * KvCache) :=
  normed ← candle (rms_norm (tinput_norm b) (tblock_eps b) h);
  '(local, cache) ← attention_local (tattention b) normed position layer rope cache;
  partial ← candle (linear (row_weight (to_proj (tattention b))) local);
  Ok (partial, cache).

(** What it hands to the reduction after the MLP. *)
Definition mlp_part (b : TensorParallelBlock) (h : Tensor) : dresult Tensor :=
  normed ← candle (rms_norm (tpost_norm b) (tblock_eps b) h);
  local ← mlp_local (tmlp b) normed;
  candle (linear (row_weight (tdown_proj (tmlp b))) local).

Lemma attention_part_has alg b h n s k cap L rope kv :
  typed_tensor_block z alg b -> typed_rope z cap rope -> cache_in_pass z cap L n s k kv -> k < L ->
  has h [1; s; zh z] -> n + s <= cap ->
  exists y kv', attention_part b h n k rope kv = Ok (y, kv') /\ has y [1; s; zh z] /\ tensor_wf y /\
    cache_in_pass z cap L n s (S k) kv'.
Proof.
  intros [Hin _ [Hq Hk Hv Ho (Ea & Ek & Ed)] _ _ _ _] Hr Hc HkL Hh Hn.
  unfold attention_part. run_by (rms_norm_has _ (tblock_eps b) h _ _ _ Hin Hh).
  unfold attention_local, dims3. rewrite (proj1 T). cbn [candle map_err]. rewrite Ok_bind. cbn beta iota.
  cbv zeta. rewrite Ea, Ek, Ed.
  run_by (project_has z _ y s (nh z) (hd z) Hq T). run_by (project_has z _ y s (nkv z) (hd z) Hk T).
  run_by (project_has z _ y s (nkv z) (hd z) Hv T).
  run_by (rotary_apply_has z rope cap y0 _ _ n Hr T0 Hn). run_by (rotary_apply_has z rope cap y1 _ _ n Hr T1 Hn).
  destruct (cache_append_has cap L n s k kv y4 y2 Hc HkL T4 T2 Hn) as (k' & v' & kv' & -> & Hk' & Hv' & Hc').
  rewrite Ok_bind. cbn beta iota. run_by (attend_has z Hg y3 k' v' y s n T3 Hk' Hv' (proj2 (proj2 T))).
  destruct (linear_has _ y5 _ _ _ _ Ho T5) as (w & Hw & Hwt). rewrite Hw. cbn [candle map_err].
  rewrite Ok_bind. do 2 eexists. split; [done|]. split; [done|]. split; [by eapply linear_law|done].
Qed.

Lemma mlp_part_has alg b h s : typed_tensor_block z alg b -> has h [1; s; zh z] ->
  exists y, mlp_part b h = Ok y /\ has y [1; s; zh z] /\ tensor_wf y.
Proof.
  intros [_ Hpost _ Hgate Hup Hdown _] Hh. unfold mlp_part.
  run_by (rms_norm_has _ (tblock_eps b) h _ _ _ Hpost Hh). unfold mlp_local.
  run_by (linear_has _ y _ _ _ _ Hgate T). unfold silu. rewrite Ok_bind.
  run_by (linear_has _ y _ _ _ _ Hup T). run_by (mul_has (unary fsilu y0) y1 [1; s; zi z] T0 T1).
  destruct (linear_has _ y2 _ _ _ _ Hdown T2) as (w & Hw & Hwt). rewrite Hw. exists w.
  split; [done|]. split; [done|]. by eapply linear_law.
Qed.

(** ** Vocabulary *)

Lemma mask_ids_total range global ids :
  Forall (fun id => id < global)%N ids ->
  exists local mask, mask_ids range global ids = Ok (local, mask) /\
    length local = length ids /\ length mask = length ids /\
    forall m, (range_end range - range_start range <= m)%N -> (0 < m)%N -> Forall (fun id => id < m)%N local.
Proof.
  induction 1 as [|id ids Hid _ (local & mask & E & Hl & Hm & HF)]; cbn [mask_ids].
  - by exists [], [].
  - destruct (N.leb_spec global id); [lia|]. cbn [reject_if]. rewrite Ok_bind, E, Ok_bind.
    do 2 eexists. split; [done|]. cbn [length]. rewrite Hl, Hm. split; [done|]. split; [done|].
    intros m H0 H1. constructor; [|by apply HF]. unfold owned.
    destruct (N.leb_spec (range_start range) id), (N.ltb_spec id (range_end range)); cbn [andb]; lia.
Qed.

Lemma broadcast_mul_has t u s h :
  has t [1; s; h] -> tensor_wf t -> has u [1; s; 1] -> tensor_wf u ->
  exists y, broadcast_mul t u = Ok y /\ has y [1; s; h] /\ tensor_wf y.
Proof.
  intros (Ht & Hv & Hf) Hwt (Hu & _ & _) Hwu. unfold broadcast_mul. rewrite Ht, Hu, !Nat.eqb_refl. cbn [andb].
  eexists. split; [done|]. split; [by split|]. unfold tensor_wf in *. cbn [elements dims].
  rewrite Ht in Hwt. rewrite Hu in Hwu. rewrite !product3 in *.
  rewrite (length_concat_const h), length_zip_with, length_blocks.
  - lia.
  - apply list.Forall_lookup. intros i y Hy. apply lookup_zip_with_Some in Hy as (row & m & -> & Hr & _).
    rewrite length_map. pose proof (blocks_lengths (1 * s) h (elements t)) as HF.
    specialize (HF ltac:(lia)). by apply (proj1 (list.Forall_lookup _ _) HF) in Hr.
Qed.

(** The embedding of a rank whose rows are [[start, start + zv z)]. *)
Record typed_embedding (z : sizes) (alg : AllReduceAlgorithm) (V : N) (e : VocabParallelEmbedding) : Prop := {
  te_weight : has (vocab_weight e) [zv z; zh z]; te_wf : tensor_wf (vocab_weight e);
  te_range : (range_end (vocab_range e) - range_start (vocab_range e) <= N.of_nat (zv z))%N;
  te_global : global_vocabulary e = V; te_algorithm : vocab_algorithm e = alg }.

Lemma vocab_local_has alg V e ids s :
  typed_embedding z alg V e -> zv z <> 0 -> dims ids = [1; s] -> dtype ids = U32_DTYPE -> device ids = Cpu ->
  length (elements ids) = s -> Forall (fun id => id < V)%N (elements ids) ->
  exists y, vocab_local e ids = Ok y /\ has y [1; s; zh z] /\ tensor_wf y.
Proof.
  intros [Hw Hwf Hr HV _] Hz Hd Ht Hdev Hlen Hin. unfold vocab_local.
  rewrite Ht, bool_decide_eq_true_2 by done. cbn [negb reject_if]. rewrite Ok_bind. unfold dims2.
  rewrite Hd. cbn [candle map_err]. rewrite Ok_bind. cbn beta iota.
  destruct (mask_ids_total (vocab_range e) V (elements ids) Hin) as (local & mask & E & Hl & Hm & HF).
  rewrite HV, E, Ok_bind. cbn beta iota. rewrite Hdev.
  assert (Forall (fun id => N.to_nat id < zv z) local) as Hlocal.
  { generalize (HF (N.of_nat (zv z)) Hr ltac:(lia)). apply Forall_impl. lia. }
  destruct (embedding_has (vocab_weight e) (mkTensor Cpu U32_DTYPE [1; s] local) (zv z) (zh z) s Hw eq_refl Hlocal)
    as (y & Hy & Hyt). rewrite Hy, Ok_bind.
  assert (tensor_wf y) as Hyw.
  { eapply embedding_wf; [exact Hy|apply Hw|done|]. unfold tensor_wf. cbn [elements dims]. transitivity s; [exact (eq_trans Hl Hlen)|unfold product; cbn; lia]. }
  destruct (broadcast_mul_has y (mkTensor Cpu F32 [1; s; 1] mask) s (zh z) Hyt Hyw) as (w & -> & Hwt & Hww).
  - by split.
  - unfold tensor_wf. cbn [elements dims]. rewrite product3. transitivity s; [exact (eq_trans Hm Hlen)|lia].
  - by exists w.
Qed.
End Local.

(** ** Loaded shards *)

(** The sizes of a rank's shard. *)
Definition shard_sizes (config : ModelConfig) (d : N) (n : nat) : sizes :=
  let z := sizes_of config d in mkSizes (zh z) (nh z / n) (nkv z / n) (hd z) (zi z / n) (zv z / n).

(** The shape of a rank's part of a weight. *)
Definition shard_shape (n : nat) (shape : list nat) (shard_dim : option nat) : list nat :=
  match shard_dim with
  | Some d => <[d := default 0 (shape !! d) / n]> shape
  | None => shape
  end.

(** What the loader asks its source for: name, full shape and sharded axis. *)
Definition layer_requests (config : ModelConfig) (d : N) (layer : nat) : list (string * list nat * option nat) :=
  let h := N.to_nat (hidden_size config) in
  let i := N.to_nat (intermediate_size config) in
  let kv_width := N.to_nat (num_key_value_heads config * d) in
  let prefix := "model.layers." +:+ pretty layer in
  let attention := prefix +:+ ".self_attn" in
  let mlp := prefix +:+ ".mlp" in
  [ (prefix +:+ ".input_layernorm.weight", [h], None);
    (prefix +:+ ".post_attention_layernorm.weight", [h], None);
    (attention +:+ ".q_proj.weight", [h; h], Some 0);
    (attention +:+ ".k_proj.weight", [kv_width; h], Some 0);
    (attention +:+ ".v_proj.weight", [kv_width; h], Some 0);
    (attention +:+ ".o_proj.weight", [h; h], Some 1);
    (mlp +:+ ".gate_proj.weight", [i; h], Some 0);
    (mlp +:+ ".up_proj.weight", [i; h], Some 0);
    (mlp +:+ ".down_proj.weight", [h; i], Some 1) ].

Inductive requested (config : ModelConfig) (d : N) : string -> list nat -> option nat -> Prop :=
| RequestTable : requested config d "model.embed_tokens.weight"
    [N.to_nat (vocab_size config); N.to_nat (hidden_size config)] (Some 0)
| RequestNorm : requested config d "model.norm.weight" [N.to_nat (hidden_size config)] None
| RequestHead : tie_word_embeddings config = false -> requested config d "lm_head.weight"
    [N.to_nat (vocab_size config); N.to_nat (hidden_size config)] (Some 0)
| RequestLayer layer name shape shard_dim : layer < N.to_nat (num_hidden_layers config) ->
    In (name, shape, shard_dim) (layer_requests config d layer) -> requested config d name shape shard_dim.

(** The source returns the parts the loader asks for. *)
Definition well_formed_source (config : ModelConfig) (d : N) (n : nat) (source : WeightSource) : Prop :=
  forall name shape shard_dim t, requested config d name shape shard_dim ->
    source name shape shard_dim = Ok t -> has t (shard_shape n shape shard_dim) /\ tensor_wf t.

(** The file has them, whole. *)
Definition stores (config : ModelConfig) (d : N) (file : ShardedFile) : Prop :=
  forall name shape shard_dim, requested config d name shape shard_dim ->
    exists t, file name = Ok t /\ has t shape /\ tensor_wf t.

(** A checkpoint of the registered model, the one validation accepts: every
    registered tensor is stored with its registered shape. *)
Definition registered_file (spec : ModelSpec) (file : ShardedFile) : Prop :=
  forall expected name shape, expected_tensor_shapes spec = Ok expected -> expected !! name = Some shape ->
    exists t, file name = Ok t /\ has t (map N.to_nat shape) /\ tensor_wf t.

Lemma registered_stores model spec d file :
  spec_of model = Some spec -> head_dim (config spec) = Ok d -> registered_file spec file -> stores (config spec) d file.
Proof.
  intros Hs Hd Hf. assert (exists expected, expected_tensor_shapes spec = Ok expected) as [expected He]
    by (unfold expected_tensor_shapes; rewrite Hd; by eexists).
  destruct (registered_covers model spec expected d Hs He Hd) as [Hc _]. unfold covers in Hc.
  rewrite !andb_true_iff, !bool_decide_eq_true, orb_true_iff, bool_decide_eq_true, List.forallb_forall in Hc.
  destruct Hc as [[[Htable Hnorm] Hhead] Hlayers].
  intros name shape sd [| |Htie|layer name' shape' sd' Hl Hin].
  - exact (Hf _ _ _ He Htable).
  - exact (Hf _ _ _ He Hnorm).
  - destruct Hhead as [Htied|Hhead]; [congruence|]. exact (Hf _ _ _ He Hhead).
  - specialize (Hlayers layer ltac:(apply in_seq; lia)). unfold layer_covered, layer_tensors in Hlayers.
    cbn [forallb fst snd] in Hlayers. rewrite !andb_true_iff, !bool_decide_eq_true in Hlayers.
    destruct Hlayers as (Hq & Hk & Hv & Ho & Hg & Hu & Hw & Hi & Hp & _).
    assert (forall name shape, In (name, shape) (map fst (layer_requests (config spec) d layer)) ->
      exists t, file name = Ok t /\ has t shape /\ tensor_wf t) as Hall.
    { unfold layer_requests. cbv zeta. rewrite !str_app_assoc in *. cbn [map fst In]. intros x y Hxy.
      decompose [or] Hxy; [..|done]; simplify_eq;
        [exact (Hf _ _ _ He Hi)|exact (Hf _ _ _ He Hp)|exact (Hf _ _ _ He Hq)|exact (Hf _ _ _ He Hk)|exact (Hf _ _ _ He Hv)
        |exact (Hf _ _ _ He Ho)|exact (Hf _ _ _ He Hg)|exact (Hf _ _ _ He Hu)|exact (Hf _ _ _ He Hw)]. }
    apply Hall. exact (in_map fst _ _ Hin).
Qed.

Record typed_tensor_model (config : ModelConfig) (d : N) (n cap r : nat) (alg : AllReduceAlgorithm)
    (m : TensorParallelLlama) : Prop := {
  ttm_parallel : tp_rank (tl_parallel m) = N.of_nat r /\ tp_size (tl_parallel m) = N.of_nat n;
  ttm_embedding : typed_embedding (shard_sizes config d n) alg (vocab_size config) (tl_embeddings m);
  ttm_blocks : Forall (typed_tensor_block (shard_sizes config d n) alg) (tl_blocks m);
  ttm_layers : length (tl_blocks m) = N.to_nat (num_hidden_layers config);
  ttm_norm : has (tl_final_norm m) [zh (shard_sizes config d n)];
  ttm_head : has (column_weight (tl_lm_head m))
    [zv (shard_sizes config d n); zh (shard_sizes config d n)];
  ttm_width : global_output_features (tl_lm_head m) = n * zv (shard_sizes config d n);
  ttm_gather : gather_output (tl_lm_head m) = true;
  ttm_rope : typed_rope (shard_sizes config d n) cap (tl_rope m) }.

(** The counts of a divided model. *)
Lemma shard_counts config d tp :
  head_dim config = Ok d -> shardable config tp -> (0 < tp)%N ->
  let x := (num_attention_heads config / tp)%N in
  let y := (num_key_value_heads config / tp)%N in
  num_attention_heads config = (tp * x)%N /\ num_key_value_heads config = (tp * y)%N /\
  vocab_size config = (tp * (vocab_size config / tp))%N /\ hidden_size config = (tp * (x * d))%N /\
  x = (y * (num_attention_heads config / num_key_value_heads config))%N /\ (0 < x)%N /\ (0 < y)%N.
Proof.
  intros (Hn & Hk & Hh & Hm)%head_dim_Ok [Sv _ _ Sn Sk _] Htp x y.
  pose proof (N.div_mod (num_attention_heads config) tp ltac:(lia)) as En. rewrite Sn, N.add_0_r in En.
  pose proof (N.div_mod (num_key_value_heads config) tp ltac:(lia)) as Ek. rewrite Sk, N.add_0_r in Ek.
  pose proof (N.div_mod (vocab_size config) tp ltac:(lia)) as Ev. rewrite Sv, N.add_0_r in Ev.
  pose proof (N.div_mod (num_attention_heads config) (num_key_value_heads config) ltac:(lia)) as Eg.
  rewrite Hm, N.add_0_r in Eg. fold x in En. fold y in Ek.
  set (g := (num_attention_heads config / num_key_value_heads config)%N) in *.
  split_and!; [done|done|done|lia| nia..].
Qed.

Lemma div_of_mul a b : (0 < a)%N -> (a * b / a = b)%N.
Proof. intros. rewrite N.mul_comm. apply N.div_mul. lia. Qed.

(** What a divided model has to satisfy. *)
Lemma shard_sizes_ok config d n :
  head_dim config = Ok d -> shardable config (N.of_nat n) -> 0 < n ->
  let z := shard_sizes config d n in
  groups_ok z /\ zh z = n * (nh z * hd z) /\
  zh z / n = nh z * hd z /\ N.to_nat (num_key_value_heads config * d) / n = nkv z * hd z /\
  N.to_nat (vocab_size config) = n * zv z.
Proof.
  intros Hd Hsh Hpos z. destruct (shard_counts config d (N.of_nat n) Hd Hsh ltac:(lia)) as (Hn & Hk & Hv & Hh & Ex & Hx & Hy).
  assert (forall a : N, N.to_nat a / n = N.to_nat (a / N.of_nat n)) as Hdiv
    by (intros a; rewrite N2Nat.inj_div, Nat2N.id; done).
  subst z. unfold groups_ok, shard_sizes, sizes_of. cbn [zh nh nkv hd zi zv]. rewrite !Hdiv.
  set (x := (num_attention_heads config / N.of_nat n)%N) in *. set (y := (num_key_value_heads config / N.of_nat n)%N) in *.
  set (v := (vocab_size config / N.of_nat n)%N) in *. set (g := (num_attention_heads config / num_key_value_heads config)%N) in *.
  split_and!.
  - rewrite <- N2Nat.inj_div, Ex, div_of_mul by done. lia.
  - rewrite Hh. lia.
  - rewrite Hh, div_of_mul by lia. lia.
  - rewrite Hk, <- N.mul_assoc, div_of_mul by lia. lia.
  - rewrite Hv. lia.
Qed.

(** Every axis the loader shards is divided. *)
Lemma requested_divided config d n name shape axis :
  head_dim config = Ok d -> shardable config (N.of_nat n) -> 0 < n -> requested config d name shape (Some axis) ->
  axis < 2 /\ exists c, shape !! axis = Some (n * c).
Proof.
  intros Hd Hsh Hn Hr.
  assert (forall a : N, (a mod N.of_nat n = 0)%N -> exists c, N.to_nat a = n * c) as Hdiv.
  { intros a Ha. exists (N.to_nat (a / N.of_nat n)). pose proof (N.div_mod a (N.of_nat n) ltac:(lia)). lia. }
  destruct Hsh as [Sv Sh Si _ Sk _]. destruct (Hdiv _ Sv) as [v Ev], (Hdiv _ Sh) as [h Eh], (Hdiv _ Si) as [i Ei].
  assert (exists c, N.to_nat (num_key_value_heads config * d) = n * c) as [k Ek].
  { destruct (Hdiv _ Sk) as [c Ec]. exists (c * N.to_nat d). lia. }
  inversion Hr as [| | |layer ? ? ? _ Hin]; subst; [split; [lia|by exists v; rewrite <- Ev]..|].
  cbn [layer_requests In] in Hin. decompose [or] Hin; try done; simplify_eq; (split; [lia|]); cbn [lookup list_lookup];
    rewrite ?Ev, ?Eh, ?Ei, ?Ek; by eexists.
Qed.

(** What the reader gives a rank: its part of each tensor. *)
Lemma sharded_part config d n r file name shape shard_dim :
  head_dim config = Ok d -> shardable config (N.of_nat n) -> r < n -> stores config d file ->
  requested config d name shape shard_dim ->
  exists t, sharded_weights (sharded_get file) (mkContext (N.of_nat r) (N.of_nat n) 0 1 0 1) name shape shard_dim = Ok t /\
    has t (shard_shape n shape shard_dim) /\ tensor_wf t.
Proof.
  intros Hd Hsh Hr Hf Hreq. destruct (Hf _ _ _ Hreq) as (t & Ht & Hhas & Hwf). pose proof Hhas as (Hdims & Hdev & Hdt).
  unfold sharded_weights, sharded_get. destruct shard_dim as [axis|]; cbn [hint_world hint_dim hint_rank tp_size tp_rank].
  - destruct (requested_divided config d n name shape axis Hd Hsh ltac:(lia) Hreq) as [Haxis [c Hc]].
    cbn [shard_shape]. rewrite Hc. cbn [default]. unfold Datatypes.id. rewrite (Nat.mul_comm n c), Nat.div_mul by lia.
    rewrite Ht, !Ok_bind. destruct (N.eqb_spec (N.of_nat n) 1) as [Hone|_].
    + rewrite bool_decide_eq_true_2 by done. exists t. assert (n = 1) as -> by lia.
      rewrite list_insert_id by (by rewrite Hc, Nat.mul_1_l). done.
    + rewrite Hdims, Hc, Nat2N.id, (Nat.mul_comm n c), Nat.Div0.mod_mul, Nat.div_mul by lia. cbn [Nat.eqb negb].
      rewrite (proj2 (Nat.ltb_lt _ _) Haxis), Nat2N.id.
      assert (dims t !! axis = Some (n * c)) as Hdc by (by rewrite Hdims).
      rewrite (narrow_shard t axis n c Hdc r Hr). eexists. split; [reflexivity|].
      destruct (shard_spec t axis n c Hwf Hdc r Hr) as [Hw _]. split; [|exact Hw].
      split; [by rewrite shard_dims, Hdims|done].
  - rewrite Ht. cbn [N.eqb Pos.eqb]. rewrite Ok_bind, bool_decide_eq_true_2 by done. by exists t.
Qed.

Lemma sharded_source config d n r file :
  head_dim config = Ok d -> shardable config (N.of_nat n) -> r < n -> stores config d file ->
  well_formed_source config d n (sharded_weights (sharded_get file) (mkContext (N.of_nat r) (N.of_nat n) 0 1 0 1)).
Proof.
  intros Hd Hsh Hr Hf name shape sd t Hreq Ht.
  destruct (sharded_part config d n r file name shape sd Hd Hsh Hr Hf Hreq) as (t' & Ht' & H). congruence.
Qed.

Section Loaded.
Context {FO : FloatOps} {KE : Kernels}.
Context (source : WeightSource) (config : ModelConfig) (d : N) (n r : nat) (alg : AllReduceAlgorithm).
Hypotheses (Hsrc : well_formed_source config d n source) (Hd : head_dim config = Ok d)
  (Hsh : shardable config (N.of_nat n)) (Hn : 0 < n).
Let z := shard_sizes config d n.
Let c := mkContext (N.of_nat r) (N.of_nat n) 0 1 0 1.

Lemma plan_vocabulary_end plan : plan_tensor_shard config c = Ok plan -> (range_end (vocabulary plan) < U64)%N.
Proof.
  unfold plan_tensor_shard. intros H. do 3 apply bind_Ok in H as (? & _ & H).
  apply bind_Ok in H as (? & _ & [= <-]). apply wrap64_lt.
Qed.

Lemma part_has name shape sd t :
  source name shape sd = Ok t -> requested config d name shape sd -> has t (shard_shape n shape sd).
Proof. intros H Hr. by apply Hsrc in H as [? _]. Qed.

(** The requests of layer [i], by their place. *)
Ltac requested :=
  first [by constructor | eapply RequestLayer; [eassumption|cbn [layer_requests In]; tauto]].
Ltac parts := repeat match goal with H : source _ _ _ = Ok _ |- _ => apply part_has in H; [|requested] end.

Lemma tensor_block_load_typed i b : i < N.to_nat (num_hidden_layers config) ->
  tensor_block_load source i config c alg = Ok b -> typed_tensor_block z alg b.
Proof.
  intros Hi.
  destruct (shard_sizes_ok config d n Hd Hsh Hn) as (_ & _ & Hq & Hk & _). fold z in Hq, Hk.
  unfold tensor_block_load, tensor_attention_load, tensor_mlp_load, row_from_weight. rewrite Hd. intros H.
  apply bind_Ok in H as (n1 & H1 & H). apply bind_Ok in H as (n2 & H2 & H).
  apply bind_Ok in H as (a & Ha & H). rewrite Ok_bind in Ha.
  apply bind_Ok in Ha as (q & Hq' & Ha). apply bind_Ok in Ha as (k & Hk' & Ha).
  apply bind_Ok in Ha as (v & Hv' & Ha). apply bind_Ok in Ha as (o & Ho' & Ha).
  apply bind_Ok in Ha as (o2 & Ho2 & [= <-]). apply bind_Ok in Ho2 as (? & _ & [= <-]).
  apply bind_Ok in H as (m & Hm & [= <-]).
  apply bind_Ok in Hm as (g & Hg' & Hm). apply bind_Ok in Hm as (u & Hu' & Hm).
  apply bind_Ok in Hm as (w & Hw' & Hm). apply bind_Ok in Hm as (w2 & Hw2 & [= <-]).
  apply bind_Ok in Hw2 as (? & _ & [= <-]). parts.
  cbn [shard_shape lookup list_lookup default insert list_insert] in *. unfold Datatypes.id in *.
  change (N.to_nat (hidden_size config)) with (zh z) in *. rewrite Hq in Hq', Ho'. rewrite Hk in Hk', Hv'.
  split; cbn; try done. split; cbn; try done. by rewrite Nat2N.id.
Qed.

Lemma load_from_typed cap m :
  load_from source F32 config c cap alg = Ok m -> typed_tensor_model config d n cap r alg m.
Proof.
  destruct (shard_sizes_ok config d n Hd Hsh Hn) as (_ & _ & _ & _ & Hv). fold z in Hv.
  unfold load_from, vocab_from_weight, head_from_weight, column_from_weight. intros H.
  apply bind_Ok in H as (plan & Hplan%plan_vocabulary_end & H). apply bind_Ok in H as (table & Ht & H). pose proof (Hsrc _ _ _ _ (RequestTable _ _) Ht) as [Htt Htw].
  apply bind_Ok in H as (e & He & H). apply bind_Ok in He as ([rows w] & Hd2 & He).
  apply bind_Ok in He as (? & Hr%reject_if_Ok & [= <-]).
  apply bind_Ok in H as (bs & Hb%mapM_Forall2 & H). apply bind_Ok in H as (norm & Hnorm & H). apply part_has in Hnorm; [|requested].
  apply bind_Ok in H as (head & Hhead & H). apply bind_Ok in H as (lm & Hlm & H).
  apply bind_Ok in Hlm as ([lo ?] & _ & Hlm). apply bind_Ok in Hlm as (? & _ & [= <-]).
  apply bind_Ok in H as (rope & Hrope & [= <-]).
  cbn [shard_shape lookup list_lookup default insert list_insert] in *. unfold Datatypes.id in *.
  change (N.to_nat (hidden_size config)) with (zh z) in *.
  change (N.to_nat (vocab_size config) / n) with (zv z) in *.
  unfold candle, dims2 in Hd2. rewrite (proj1 Htt) in Hd2. injection Hd2 as <- <-.
  apply (rotary_new_typed config d Hd) in Hrope. bool_prop.
  split; cbn [tl_parallel tl_embeddings tl_blocks tl_final_norm tl_lm_head tl_rope column_weight
    global_output_features gather_output with_all_reduce tp_rank tp_size]; try done.
  - split; cbn; try done. unfold range_len in *.
    destruct (N.le_gt_cases (range_start (vocabulary plan)) (range_end (vocabulary plan))); [|lia].
    match goal with H : _ = sub64 _ _ |- _ => rewrite sub64_small in H; [|done|] end.
    all: rewrite ?Nat2N.id in *; lia.
  - apply list.Forall_lookup. intros k b Hk. destruct (Forall2_lookup_r _ _ _ _ _ Hb Hk) as (i & Hi & Hload).
    apply lookup_seq in Hi as [-> Hi]. by eapply tensor_block_load_typed.
  - apply Forall2_length in Hb. by rewrite length_seq in Hb.
  - destruct (tie_word_embeddings config) eqn:Htie; [by injection Hhead as <-|].
    apply part_has in Hhead; [done|by apply RequestHead].
  - destruct Hrope. by split.
Qed.

(** ** Loading succeeds *)
Section Served.
Hypothesis Htot : forall name shape sd, requested config d name shape sd -> exists t, source name shape sd = Ok t.

Lemma row_from_weight_Ok w a b : has w [a; b] -> row_from_weight w alg = Ok (mkRow w alg).
Proof. intros (Hw & _). unfold row_from_weight, dims2. by rewrite Hw. Qed.

(** Take the next weight of the goal. *)
Ltac first_call e := lazymatch e with @mbind _ _ _ _ _ ?m => first_call m | _ => e end.
Ltac next_weight :=
  lazymatch goal with |- exists _, ?e = Ok _ => let e := first_call e in
  lazymatch e with source ?name ?shape ?sd =>
    let t := fresh "t" in let E := fresh "E" in
    destruct (Htot name shape sd ltac:(requested)) as [t E]; rewrite E, Ok_bind; apply part_has in E; [|requested];
    cbn [shard_shape lookup list_lookup default insert list_insert] in E; unfold Datatypes.id in E end end.

Lemma tensor_block_loads i : i < N.to_nat (num_hidden_layers config) ->
  exists b, tensor_block_load source i config c alg = Ok b.
Proof.
  intros Hi. unfold tensor_block_load, tensor_attention_load, tensor_mlp_load. rewrite Hd, Ok_bind. cbv zeta.
  do 6 next_weight. rewrite (row_from_weight_Ok _ _ _ E4), !Ok_bind.
  do 3 next_weight. rewrite (row_from_weight_Ok _ _ _ E7), !Ok_bind. by eexists.
Qed.

(** A source that has every weight is enough to load the shard. *)
Lemma load_from_total cap plan rope :
  plan_tensor_shard config c = Ok plan -> range_len (vocabulary plan) = (vocab_size config / N.of_nat n)%N ->
  (range_end (vocabulary plan) <= vocab_size config)%N -> (0 < vocab_size config)%N ->
  rotary_new config cap F32 = Ok rope -> exists m, load_from source F32 config c cap alg = Ok m.
Proof.
  intros Hplan Hlen Hend HV Hrope.
  destruct (shard_sizes_ok config d n Hd Hsh Hn) as (_ & _ & _ & _ & Hvz). fold z in Hvz.
  assert (zv z <> 0) as Hz by (intros E; rewrite E in Hvz; lia).
  assert (N.of_nat (zv z) = (vocab_size config / N.of_nat n)%N) as Hzn.
  { unfold z, shard_sizes, sizes_of. cbn [zv]. by rewrite Nat2N.inj_div, N2Nat.id. }
  assert (forall w h, has w [zv z; h] ->
    column_from_weight w (N.to_nat (vocab_size config)) true = Ok (mkColumn w (N.to_nat (vocab_size config)) true)) as Hhead.
  { intros w h (Hw & _). unfold column_from_weight, dims2. rewrite Hw. cbn [candle map_err]. rewrite Ok_bind.
    cbn beta iota. rewrite Hvz, Nat.Div0.mod_mul, (proj2 (Nat.eqb_neq (zv z) 0) Hz). done. }
  unfold load_from, head_from_weight. rewrite Hplan, Ok_bind. cbv zeta. next_weight.
  change (N.to_nat (vocab_size config) / n) with (zv z) in *. pose proof E as (Et & _).
  unfold vocab_from_weight, dims2. rewrite Et. cbn [candle map_err]. rewrite Ok_bind. cbn beta iota.
  rewrite Hlen, Hzn, N.eqb_refl, (proj2 (N.ltb_ge _ _) Hend). cbn [negb orb reject_if]. rewrite !Ok_bind.
  destruct (mapM_total (fun layer => tensor_block_load source layer config c alg) (fun _ _ => True)
    (seq 0 (N.to_nat (num_hidden_layers config)))) as (bs & Hbs & _).
  { intros i Hi%elem_of_seq. destruct (tensor_block_loads i) as [b Hb]; [lia|]. by exists b. }
  rewrite Hbs, Ok_bind. next_weight. destruct (tie_word_embeddings config) eqn:Htie.
  - rewrite Ok_bind, (Hhead _ _ E), Ok_bind, Hrope, Ok_bind. by eexists.
  - next_weight. rewrite (Hhead _ _ E1), Ok_bind, Hrope, Ok_bind. by eexists.
Qed.
End Served.

(** ** The rank's cache *)
Lemma local_head_dim_same : head_dim (local_config config (N.of_nat n)) = Ok d.
Proof.
  destruct (shard_counts config d (N.of_nat n) Hd Hsh ltac:(lia)) as (_ & _ & _ & Hh & Ex & Hx & Hy).
  unfold head_dim, local_config. cbn [hidden_size num_attention_heads num_key_value_heads].
  rewrite Hh, div_of_mul by lia.
  set (x := (num_attention_heads config / N.of_nat n)%N) in *. set (y := (num_key_value_heads config / N.of_nat n)%N) in *.
  rewrite div_of_mul by done. rewrite (proj2 (N.eqb_neq x 0)), (proj2 (N.eqb_neq y 0)) by lia.
  rewrite (proj2 (N.Lcm0.mod_divide (x * d) x)) by (by eexists; apply N.mul_comm).
  rewrite (proj2 (N.Lcm0.mod_divide x y)) by (eexists; rewrite N.mul_comm; exact Ex). done.
Qed.

Lemma new_tensor_parallel_typed cap kv :
  new_tensor_parallel config (N.of_nat n) cap F32 Cpu = Ok kv ->
  cache_in_pass z cap (N.to_nat (num_hidden_layers config)) 0 0 0 kv.
Proof.
  unfold new_tensor_parallel. intros H. apply bind_Ok in H as (? & _ & H).
  destruct (cache_new_typed _ d local_head_dim_same cap kv H) as [Hat HF].
  split; [by apply (at_layers _ _ _ _ Hat)|by apply (at_capacity _ _ _ _ Hat)|].
  intros j l Hj. apply (proj1 (list.Forall_lookup _ _) HF) in Hj as [Hk Hv Hl Hc].
  rewrite (proj2 (Nat.ltb_ge j 0)) by lia.
  assert (N.to_nat (num_key_value_heads config / N.of_nat n) = nkv z) as E
    by (unfold z, shard_sizes, sizes_of; cbn; by rewrite N2Nat.inj_div, Nat2N.id).
  cbn [sizes_of nkv local_config num_key_value_heads] in Hk, Hv. rewrite E in Hk, Hv. by split.
Qed.
End Loaded.
