(* ===== verification/TensorWorld.v ===== *)
(** * A pass of the tensor-parallel model in a world

    All ranks of a world run the sharded model of [TensorLlama.v] together.  The
    specification is a pass in lock step: every rank computes its partial
    results, which are added up or laid side by side for all of them.  A world of
    ranks with typed shards implements it, whatever the schedule. *)
From S2P Require Import Prelude Rank Packet World Tensor Collective CollectiveWorld Ring Registry Memory.
From S2P Require Import Shard Cache Kernels Llama LlamaStage Shapes Parallel TensorLlama TensorShapes.

(** ** Collectives of a group *)

(** What [?] makes of a collective the ranks agree on. *)
Lemma together_collective {A} n (op : nat -> proc (cresult A * NativeCollectives)) value after :
  agree_on n op (fun _ => value) after ->
  exists nc, together n (fun i => collective (op i)) (fun i => Ok (value, nc i)) /\
    forall i, i < n -> after i (nc i).
Proof.
  intros (nc & H & Ha). exists nc. split; [|done]. unfold collective.
  apply (together_bind n op (fun i => (Ok value, nc i)) _ _ H). by apply together_ret.
Qed.

Lemma ok_choice {E A} n (x : nat -> result E A) :
  0 < n -> (forall i, i < n -> exists a, x i = Ok a) -> exists a, forall i, i < n -> x i = Ok (a i).
Proof. intros Hn H. destruct (H 0 Hn) as [d _]. exact (finite_choice d n (fun i a => x i = Ok a) H). Qed.

Section Group.
Context {FO : FloatOps} (n : nat) (alg : AllReduceAlgorithm).
Hypothesis Hn : 0 < n <= 257.

(** The sum an all-reduce gives. *)
Definition reduced (ts : nat -> Tensor) : Tensor :=
  match alg with
  | CentralizedAllReduce => sum_over ts (ts 0) (seq 1 (n - 1))
  | RingAllReduce => ring_total n ts (product (dims (ts 0)) / n) (dims (ts 0))
  end.

Lemma reduce_together s nc ts d :
  aligned n s nc -> (s < 2 ^ 44)%N -> (forall i, i < n -> sendable (ts i) /\ dims (ts i) = d) ->
  (exists c, product d = n * c) ->
  (exists nc', together n (fun i => collective (all_reduce (nc i) (ts i) Sum alg))
                (fun i => Ok (reduced ts, nc' i)) /\ aligned n (s + 1) nc') /\
  sendable (reduced ts) /\ dims (reduced ts) = d.
Proof.
  intros Ha Hs Hts [c Hc]. destruct (Hts 0 ltac:(lia)) as [_ Hd0].
  assert (group n nc ts s) as Hg by (split; [lia|intros i Hi; by apply Ha..|done|intros i Hi; by apply Hts]).
  assert (forall i, i < n -> dims (ts i) = dims (ts 0)) as Hdims
    by (intros i Hi; destruct (Hts i Hi); congruence).
  unfold reduced. destruct alg.
  - split.
    + destruct (together_collective _ _ _ _ (centralized_agree n nc ts s Sum Hg Hdims)) as (nc' & H & Hnc).
      exists nc'. split; [done|]. exact (completed_aligned n s nc nc' _ (fun _ => Some _) Ha Hnc).
    + rewrite <- Hd0. apply sum_over_ok; [by apply Hts; lia|]. intros i Hi%peers_in.
      split; [apply Hts; lia|apply Hdims; lia].
  - rewrite Hd0, Hc, Nat.mul_comm, Nat.div_mul by lia. split.
    + assert (product (dims (ts 0)) = n * c) as Hc0 by congruence.
      destruct (together_collective _ _ _ _ (ring_agree n nc ts s c Sum Hg ltac:(lia) Hdims Hc0)) as (nc' & H & Hnc).
      exists nc'. rewrite Hd0 in H. split; [done|]. exact (completed_aligned n s nc nc' _ (fun _ => Some _) Ha Hnc).
    + destruct (decide (n = 1)) as [E|Hne].
      * subst n. rewrite (ring_total_one ts c d) by (done || by apply Hts; lia). apply Hts. lia.
      * apply (ring_total_ok n ts s c d); [lia|done..].
Qed.

(** Rows laid side by side. *)
Definition side_by_side (ts : nat -> Tensor) (w : nat) : Tensor :=
  mkTensor Cpu F32 [1; n * w] (concat (map (fun i => elements (ts i)) (seq 0 n))).

Lemma row_blocks t w : has t [1; w] -> tensor_wf t ->
  axis_blocks 1 t = [elements t] /\ length (elements t) = w.
Proof.
  intros (Hd & _) Hwf. assert (length (elements t) = w) as Hl.
  { rewrite Hwf, Hd. unfold product. cbn. lia. }
  split; [|done]. unfold axis_blocks, outer, inner, product. rewrite Hd. cbn.
  rewrite Nat.mul_1_r, <- Hl. by rewrite firstn_all.
Qed.

Lemma cat_rows ts w :
  (forall i, i < n -> has (ts i) [1; w] /\ tensor_wf (ts i)) ->
  cat (map ts (seq 0 n)) 1 = Ok (side_by_side ts w) /\
  has (side_by_side ts w) [1; n * w] /\ tensor_wf (side_by_side ts w).
Proof.
  intros Hts.
  assert (forall k, (forall i, i ∈ k -> i < n) ->
    cat_blocks 1 1 (map ts k) = [concat (map (fun i => elements (ts i)) k)] /\
    axis_sum 1 (map ts k) = length k * w /\
    length (concat (map (fun i => elements (ts i)) k)) = length k * w) as Hk.
  { unfold cat_blocks, axis_sum. induction k as [|i k IH]; intros Hin; cbn [map foldr]; [done|].
    destruct (Hts i ltac:(apply Hin; set_solver)) as [Ht Hw]. destruct (row_blocks _ _ Ht Hw) as [-> Hl].
    destruct IH as (-> & -> & Hlen); [set_solver|]. rewrite (proj1 Ht). cbn [concat length].
    rewrite length_app, Hl, Hlen. cbn. split_and!; done || lia. }
  destruct (Hk (seq 0 n) ltac:(intros i [_ Hi]%elem_of_seq; lia)) as (Hb & Hs & Hl). rewrite length_seq in Hs, Hl.
  split.
  - assert (seq 0 n = 0 :: seq 1 (n - 1)) as E by (destruct n; [lia|]; cbn; by rewrite Nat.sub_0_r).
    rewrite E in *. cbn [map] in *. destruct (Hts 0 ltac:(lia)) as [(Hd & Hv & Hf) Hw].
    rewrite cat_ok; [|done|by rewrite Hd; cbn; lia|].
    + assert (outer 1 (dims (ts 0)) = 1) as -> by (by rewrite Hd). rewrite Hb, Hs.
      unfold of_blocks, side_by_side. rewrite Hd, Hv, Hf, E. cbn [map concat insert list_insert].
      by rewrite app_nil_r.
    + apply Forall_map, List.Forall_forall. intros j Hj%list_elem_of_In%peers_in.
      destruct (Hts j ltac:(lia)) as [(Hdj & _) _]. rewrite Hd, Hdj. apply same_but_axis_refl.
  - split; [by split|]. unfold tensor_wf. cbn [side_by_side elements dims]. rewrite Hl. unfold product. cbn. lia.
Qed.

Lemma gather_together s nc ts w :
  aligned n s nc -> (s < 2 ^ 44)%N -> (forall i, i < n -> has (ts i) [1; w] /\ tensor_wf (ts i)) ->
  w <> 0 -> (N.of_nat (n * w) * 4 < U64)%N ->
  exists nc', together n (fun i => collective (all_gather (nc i) (ts i) 1))
                (fun i => Ok (side_by_side ts w, nc' i)) /\ aligned n (s + 1) nc'.
Proof.
  intros Ha Hs Hts Hw Hb. destruct (cat_rows ts w Hts) as (Hcat & Hg1 & Hg2).
  assert (w <= n * w) as Hle by (destruct n; [lia|]; cbn; lia).
  assert (forall x t, has t [1; x] -> tensor_wf t -> x <> 0 -> x <= n * w -> sendable t) as Hsend.
  { intros x t Ht Htw Hx Hxl. apply (typed_sendable t [1; x]); [done|done|by repeat constructor|].
    unfold product. cbn [foldr]. lia. }
  assert (group n nc ts s) as Hg.
  { split; [lia|intros i Hi; by apply Ha..|done|].
    intros i Hi. destruct (Hts i Hi) as [H1 H2]. by apply (Hsend w). }
  destruct (together_collective _ _ _ _ (all_gather_agree n nc ts s 1 (side_by_side ts w) Hg
    ltac:(intros i Hi; destruct (Hts i Hi) as [(-> & _) _]; cbn; lia) Hcat
    ltac:(apply (Hsend (n * w)); [done|done|nia|done]))) as (nc' & H & Hnc).
  exists nc'. split; [done|]. exact (completed_aligned n s nc nc' _ (fun _ => Some _) Ha Hnc).
Qed.
End Group.

(** ** A pass in lock step *)
Section Lockstep.
Context {FO : FloatOps} {KE : Kernels} (n : nat) (alg : AllReduceAlgorithm).

(** The layers from [layer] on: [blocks i] remain on rank [i], whose cache is
    [kv i]; the hidden state is the same on every rank. *)
Inductive lockstep_layers (position : nat) (rope : nat -> RotaryEmbedding)
  : nat -> (nat -> list TensorParallelBlock) -> Tensor -> (nat -> KvCache) -> Tensor -> (nat -> KvCache) -> Prop :=
| lockstep_done layer blocks h kv :
    (forall i, i < n -> blocks i = []) -> lockstep_layers position rope layer blocks h kv h kv
| lockstep_layer layer blocks b rest h kv att kv1 h1 mlp h2 h' kv' :
    (forall i, i < n -> blocks i = b i :: rest i) ->
    (forall i, i < n -> attention_part (b i) h position layer (rope i) (kv i) = Ok (att i, kv1 i)) ->
    add h (reduced n alg att) = Ok h1 ->
    (forall i, i < n -> mlp_part (b i) h1 = Ok (mlp i)) ->
    add h1 (reduced n alg mlp) = Ok h2 ->
    lockstep_layers position rope (S layer) rest h2 kv1 h' kv' ->
    lockstep_layers position rope layer blocks h kv h' kv'.

(** The whole pass: the rows of the embedding are added up, the logits of the
    vocabulary parts laid side by side. *)
Inductive lockstep_pass (m : nat -> TensorParallelLlama) (ids : Tensor) (position : nat)
    (kv : nat -> KvCache) : Tensor -> (nat -> KvCache) -> Prop :=
| lockstep_pass_intro s rows h kv' last part logits :
    dims ids = [1; s] ->
    (forall i, i < n -> vocab_local (tl_embeddings (m i)) ids = Ok (rows i)) ->
    lockstep_layers position (fun i => tl_rope (m i)) 0 (fun i => tl_blocks (m i)) (reduced n alg rows) kv h kv' ->
    (forall i, i < n ->
       (hidden ← rms_norm (tl_final_norm (m i)) (tl_norm_eps (m i)) h; index_axis hidden 1 (s - 1)) = Ok (last i)) ->
    (forall i, i < n -> linear (column_weight (tl_lm_head (m i))) (last i) = Ok (part i)) ->
    cat (map part (seq 0 n)) 1 = Ok logits ->
    lockstep_pass m ids position kv logits kv'.
End Lockstep.

(** ** The pass in a world *)
Section Pass.
Context {FO : FloatOps} {KE : Kernels} {KL : KernelLaws KE} (n : nat) (alg : AllReduceAlgorithm).
Context (z : sizes) (cap L : nat).
Hypotheses (Hn : 0 < n <= 257) (Hg : groups_ok z) (Hz : zh z = n * (nh z * hd z)) (Hz0 : zh z <> 0)
  (Hsize : (N.of_nat (cap * zh z) * 4 < U64)%N).

(** Partial results of the hidden width. *)
Definition partial (s : nat) (t : Tensor) : Prop := has t [1; s; zh z] /\ tensor_wf t.

Lemma partial_reduce s nc ts k :
  aligned n k nc -> (k < 2 ^ 44)%N -> (forall i, i < n -> partial s (ts i)) -> s <> 0 -> s <= cap ->
  (exists nc', together n (fun i => collective (all_reduce (nc i) (ts i) Sum alg))
                (fun i => Ok (reduced n alg ts, nc' i)) /\ aligned n (k + 1) nc') /\
  partial s (reduced n alg ts).
Proof.
  intros Ha Hk Hts Hs Hcap. assert (product [1; s; zh z] = s * zh z) as Hp by (rewrite product3; lia).
  assert (s * zh z <= cap * zh z) as Hle by (by apply Nat.mul_le_mono_r).
  destruct (reduce_together n alg Hn k nc ts [1; s; zh z] Ha Hk) as (H & (Hw & [Hv Ht] & _) & Hd).
  - intros i Hi. destruct (Hts i Hi) as [H1 H2]. split; [|apply H1].
    apply (typed_sendable _ _ H1 H2); [by repeat constructor|]. rewrite Hp. lia.
  - exists (s * (nh z * hd z)). rewrite Hp, Hz. lia.
  - split; [done|]. split; [by split|done].
Qed.

(** The attention and the MLP of all ranks, up to the sum of their partial results. *)
Lemma attention_together b h position layer rope kv att kv1 nc nc1 t :
  (forall i, i < n -> attention_part (b i) h position layer (rope i) (kv i) = Ok (att i, kv1 i)) ->
  (forall i, i < n -> row_algorithm (to_proj (tattention (b i))) = alg) ->
  together n (fun i => collective (all_reduce (nc i) (att i) Sum alg)) (fun i => Ok (t, nc1 i)) ->
  exists normed, (forall i, i < n -> candle (rms_norm (tinput_norm (b i)) (tblock_eps (b i)) h) = Ok (normed i)) /\
    together n (fun i => tensor_attention_forward (tattention (b i)) (normed i) position layer (rope i) (kv i) (nc i))
      (fun i => Ok (t, kv1 i, nc1 i)).
Proof.
  intros Hatt Halg H.
  destruct (finite_choice (h, h) n (fun i p =>
    candle (rms_norm (tinput_norm (b i)) (tblock_eps (b i)) h) = Ok p.1 /\
    attention_local (tattention (b i)) p.1 position layer (rope i) (kv i) = Ok (p.2, kv1 i) /\
    candle (linear (row_weight (to_proj (tattention (b i)))) p.2) = Ok (att i))) as [p Hp].
  { intros i Hi. specialize (Hatt i Hi). unfold attention_part in Hatt.
    apply bind_Ok in Hatt as (x & Hx & Hatt). apply bind_Ok in Hatt as ([y kv'] & Hy & Hatt).
    apply bind_Ok in Hatt as (w & Hw & [= <- <-]). by exists (x, y). }
  exists (fun i => (p i).1). split; [intros i Hi; by apply Hp|]. unfold tensor_attention_forward, row_forward.
  apply (together_lift n _ (fun i => ((p i).2, kv1 i))); [intros i Hi; by apply Hp|].
  apply (together_try n _ (fun i => (t, nc1 i))); [|by apply together_ret].
  apply (together_lift n _ att); [intros i Hi; by apply Hp|].
  eapply together_ext; [|exact H]. intros i Hi. by rewrite Halg.
Qed.

Lemma mlp_together b h mlp nc nc1 t :
  (forall i, i < n -> mlp_part (b i) h = Ok (mlp i)) ->
  (forall i, i < n -> row_algorithm (tdown_proj (tmlp (b i))) = alg) ->
  together n (fun i => collective (all_reduce (nc i) (mlp i) Sum alg)) (fun i => Ok (t, nc1 i)) ->
  exists normed, (forall i, i < n -> candle (rms_norm (tpost_norm (b i)) (tblock_eps (b i)) h) = Ok (normed i)) /\
    together n (fun i => tensor_mlp_forward (tmlp (b i)) (normed i) (nc i)) (fun i => Ok (t, nc1 i)).
Proof.
  intros Hmlp Halg H.
  destruct (finite_choice (h, h) n (fun i p =>
    candle (rms_norm (tpost_norm (b i)) (tblock_eps (b i)) h) = Ok p.1 /\
    mlp_local (tmlp (b i)) p.1 = Ok p.2 /\
    candle (linear (row_weight (tdown_proj (tmlp (b i)))) p.2) = Ok (mlp i))) as [p Hp].
  { intros i Hi. specialize (Hmlp i Hi). unfold mlp_part in Hmlp.
    apply bind_Ok in Hmlp as (x & Hx & Hmlp). apply bind_Ok in Hmlp as (y & Hy & Hmlp). by exists (x, y). }
  exists (fun i => (p i).1). split; [intros i Hi; by apply Hp|]. unfold tensor_mlp_forward, row_forward.
  apply (together_lift n _ (fun i => (p i).2)); [intros i Hi; by apply Hp|].
  apply (together_lift n _ mlp); [intros i Hi; by apply Hp|].
  eapply together_ext; [|exact H]. intros i Hi. by rewrite Halg.
Qed.

Lemma partial_add s t u : partial s t -> partial s u -> exists v, add t u = Ok v /\ partial s v.
Proof.
  intros [Ht Hwt] [Hu Hwu]. destruct (add_has t u _ Ht Hu) as (v & Hv & Hvt). exists v.
  split; [done|]. split; [done|]. destruct (add_same _ _ _ Hv) as (Hd & _ & _ & Hdu & He).
  unfold tensor_wf in *. rewrite He, Hd, length_zip_with, Hwt, Hwu, Hdu. lia.
Qed.

Lemma block_together s k position layer b rope h kv nc :
  (forall i, i < n -> typed_tensor_block z alg (b i)) -> (forall i, i < n -> typed_rope z cap (rope i)) ->
  (forall i, i < n -> cache_in_pass z cap L position s layer (kv i)) -> layer < L -> partial s h ->
  s <> 0 -> position + s <= cap -> aligned n k nc -> (k + 1 < 2 ^ 44)%N ->
  exists att kv1 h1 mlp h2 nc',
    ((forall i, i < n -> attention_part (b i) h position layer (rope i) (kv i) = Ok (att i, kv1 i)) /\
     add h (reduced n alg att) = Ok h1 /\ (forall i, i < n -> mlp_part (b i) h1 = Ok (mlp i)) /\
     add h1 (reduced n alg mlp) = Ok h2) /\
    together n (fun i => tensor_block_forward (b i) h position layer (rope i) (kv i) (nc i))
      (fun i => Ok (h2, kv1 i, nc' i)) /\
    partial s h2 /\ (forall i, i < n -> cache_in_pass z cap L position s (S layer) (kv1 i)) /\
    aligned n (k + 2) nc'.
Proof.
  intros Hb Hr Hc HL Hh Hs Hp Ha Hk.
  destruct (finite_choice (h, kv 0) n (fun i p =>
    attention_part (b i) h position layer (rope i) (kv i) = Ok p /\ partial s p.1 /\
    cache_in_pass z cap L position s (S layer) p.2)) as [p Hpart].
  { intros i Hi. destruct (attention_part_has z Hg alg (b i) h position s layer cap L (rope i) (kv i))
      as (y & kv' & H1 & H2 & H3 & H4); try done; [by apply Hb|by apply Hr|by apply Hc|apply Hh|].
    by exists (y, kv'). }
  destruct (partial_reduce s nc (fun i => (p i).1) k Ha ltac:(lia)) as ((nc1 & Hred1 & Ha1) & Ht1);
    [intros i Hi; by apply Hpart|done|lia|].
  destruct (partial_add s h _ Hh Ht1) as (h1 & Hadd1 & Hh1).
  destruct (finite_choice h n (fun i t => mlp_part (b i) h1 = Ok t /\ partial s t)) as [mlp Hmlp].
  { intros i Hi. destruct (mlp_part_has z alg (b i) h1 s (Hb i Hi)) as (y & H1 & H2); [apply Hh1|by exists y]. }
  destruct (partial_reduce s nc1 mlp (k + 1) Ha1 ltac:(lia)) as ((nc2 & Hred2 & Ha2) & Ht2);
    [intros i Hi; by apply Hmlp|done|lia|].
  destruct (partial_add s h1 _ Hh1 Ht2) as (h2 & Hadd2 & Hh2).
  assert (forall i, i < n -> attention_part (b i) h position layer (rope i) (kv i) = Ok ((p i).1, (p i).2)) as Hatt.
  { intros i Hi. destruct (Hpart i Hi) as [-> _]. by destruct (p i). }
  destruct (attention_together b h position layer rope kv _ _ nc nc1 _ Hatt
    ltac:(intros i Hi; by apply Hb) Hred1) as (normed & Hn1 & Htog1).
  destruct (mlp_together b h1 mlp nc1 nc2 _ ltac:(intros i Hi; by apply Hmlp)
    ltac:(intros i Hi; by apply Hb) Hred2) as (normed2 & Hn2 & Htog2).
  exists (fun i => (p i).1), (fun i => (p i).2), h1, mlp, h2, nc2.
  split; [split_and!; [done|done|intros i Hi; by apply Hmlp|done]|]. split.
  - unfold tensor_block_forward. apply (together_lift n _ normed); [done|].
    apply (together_try n _ _ _ _ Htog1). cbn [fst snd].
    apply (together_lift n _ (fun _ => h1)); [intros; by rewrite Hadd1|].
    apply (together_lift n _ normed2); [done|]. apply (together_try n _ _ _ _ Htog2). cbn [fst snd].
    apply (together_lift n _ (fun _ => h2)); [intros; by rewrite Hadd2|]. by apply together_ret.
  - split; [done|]. split; [intros i Hi; by apply Hpart|].
    by replace (k + 2)%N with (k + 1 + 1)%N by lia.
Qed.

Lemma layers_together s position rope todo k layer blocks h kv nc :
  (forall i, i < n -> length (blocks i) = todo /\ Forall (typed_tensor_block z alg) (blocks i)) ->
  (forall i, i < n -> typed_rope z cap (rope i)) ->
  (forall i, i < n -> cache_in_pass z cap L position s layer (kv i)) -> layer + todo = L -> partial s h ->
  s <> 0 -> position + s <= cap -> aligned n k nc -> (k + 2 * N.of_nat todo < 2 ^ 44)%N ->
  exists h' kv' nc', lockstep_layers n alg position rope layer blocks h kv h' kv' /\
    together n (fun i => tensor_blocks_forward (blocks i) layer h position (rope i) (kv i) (nc i))
      (fun i => Ok (h', kv' i, nc' i)) /\
    partial s h' /\ (forall i, i < n -> cache_in_pass z cap L position s L (kv' i)) /\
    aligned n (k + 2 * N.of_nat todo) nc'.
Proof.
  intros Hb Hr Hc HL Hh Hs Hp Ha Hk. revert k layer blocks h kv nc Hb Hc HL Hh Ha Hk.
  induction todo as [|todo IH]; intros k layer blocks h kv nc Hb Hc HL Hh Ha Hk.
  - assert (forall i, i < n -> blocks i = []) as Hnil by (intros i Hi; by apply nil_length_inv, Hb).
    exists h, kv, nc. split; [by constructor|]. rewrite Nat.add_0_r in HL. subst layer.
    rewrite N.mul_0_r, N.add_0_r. split_and!; try done.
    apply together_ret. intros i Hi. by rewrite Hnil.
  - destruct (Hb 0 ltac:(lia)) as [Hl0 _]. destruct (blocks 0) as [|d0 r0]; [done|].
    destruct (finite_choice (d0, r0) n (fun i p => blocks i = p.1 :: p.2 /\ length p.2 = todo /\
      typed_tensor_block z alg p.1 /\ Forall (typed_tensor_block z alg) p.2)) as [p Hsplit].
    { intros i Hi. destruct (Hb i Hi) as [Hl HF]. destruct (blocks i) as [|d r]; [done|].
      exists (d, r). inversion HF; subst. cbn in Hl |- *. by split_and!; [|lia|..]. }
    destruct (block_together s k position layer (fun i => (p i).1) rope h kv nc)
      as (att & kv1 & h1 & mlp & h2 & nc1 & (Hatt & Hadd1 & Hmlp & Hadd2) & Htog & Hh2 & Hc2 & Ha2);
      try done; [intros i Hi; by apply Hsplit|lia|lia|].
    destruct (IH (k + 2)%N (S layer) (fun i => (p i).2) h2 kv1 nc1) as (h' & kv' & nc' & Hlock & Htog' & Hh' & Hc' & Ha');
      try done; [intros i Hi; split; by apply Hsplit|lia|lia|].
    exists h', kv', nc'. split; [|split; [|split; [done|split; [done|]]]].
    + by eapply (lockstep_layer n alg position rope layer blocks (fun i => (p i).1)); [intros i Hi; by apply Hsplit|..].
    + apply (together_ext n (fun i => tensor_blocks_forward ((p i).1 :: (p i).2) layer h position (rope i) (kv i) (nc i)));
        [intros i Hi; by destruct (Hsplit i Hi) as [-> _]|]. cbn [tensor_blocks_forward].
      by apply (together_try n _ (fun i => (h2, kv1 i, nc1 i))).
    + by replace (k + 2 * N.of_nat (S todo))%N with (k + 2 + 2 * N.of_nat todo)%N by lia.
Qed.
End Pass.

Section Whole.
Context {FO : FloatOps} {KE : Kernels} {KL : KernelLaws KE} (n : nat) (alg : AllReduceAlgorithm).
Context (config : ModelConfig) (d : N) (cap : nat).
Let z := shard_sizes config d n.
Let L := N.to_nat (num_hidden_layers config).
Let V := N.to_nat (vocab_size config).

(** A model, a tensor world and a capacity that fit together. *)
Record tensor_fits : Prop := {
  tf_ranks : 0 < n <= 257; tf_head : head_dim config = Ok d; tf_shard : shardable config (N.of_nat n);
  tf_hidden : zh z <> 0; tf_vocab : V <> 0; tf_layers : L <> 0;
  tf_size : (N.of_nat (cap * zh z) * 4 < U64)%N; tf_logits : (N.of_nat V * 4 < U64)%N }.

Lemma index_last_has x s h : has x [1; s; h] -> s <> 0 ->
  exists y, index_axis x 1 (s - 1) = Ok y /\ has y [1; h].
Proof.
  intros Hx Hs. unfold index_axis. destruct (narrow_has x 1 (s - 1) 1 s _ Hx eq_refl ltac:(lia)) as (y & -> & Hd & Hv & Ht).
  rewrite Ok_bind, Hd. cbn [insert list_insert take drop app]. eexists. split; [done|]. by split.
Qed.

Lemma linear_row_part w x o i : has w [o; i] -> has x [1; i] ->
  exists y, linear w x = Ok y /\ has y [1; o] /\ tensor_wf y.
Proof.
  intros Hw Hx. destruct (linear_row_has w x 1 _ _ Hw Hx) as (y & Hy & Ht). exists y.
  split; [done|]. split; [done|]. by eapply linear_law.
Qed.

(** The logits of the last position on every rank. *)
Lemma head_together (m : nat -> TensorParallelLlama) h s k nc :
  tensor_fits -> (forall i, i < n -> typed_tensor_model config d n cap i alg (m i)) ->
  has h [1; s; zh z] -> s <> 0 -> aligned n k nc -> (k < 2 ^ 44)%N ->
  exists last part logits nc',
    (forall i, i < n -> (hidden ← rms_norm (tl_final_norm (m i)) (tl_norm_eps (m i)) h;
                         index_axis hidden 1 (s - 1)) = Ok (last i)) /\
    (forall i, i < n -> linear (column_weight (tl_lm_head (m i))) (last i) = Ok (part i)) /\
    cat (map part (seq 0 n)) 1 = Ok logits /\
    together n (fun i => head_forward (tl_lm_head (m i)) (last i) (nc i)) (fun i => Ok (logits, nc' i)) /\
    has logits [1; V] /\ tensor_wf logits /\ aligned n (k + 1) nc'.
Proof.
  intros [Hn Hd Hsh _ HV _ _ Hlog] Hm Hh Hs Ha Hk.
  destruct (shard_sizes_ok config d n Hd Hsh ltac:(lia)) as (_ & _ & _ & _ & HVz). fold z V in HVz.
  destruct (finite_choice (h, h) n (fun i p =>
    (hidden ← rms_norm (tl_final_norm (m i)) (tl_norm_eps (m i)) h; index_axis hidden 1 (s - 1)) = Ok p.1 /\
    linear (column_weight (tl_lm_head (m i))) p.1 = Ok p.2 /\ has p.2 [1; zv z] /\ tensor_wf p.2)) as [p Hp].
  { intros i Hi. destruct (Hm i Hi) as [_ _ _ _ Hnorm Hhead _ _ _].
    destruct (rms_norm_has _ (tl_norm_eps (m i)) h _ _ _ Hnorm Hh) as (y & Hy & Hyt).
    destruct (index_last_has y s _ Hyt Hs) as (w & Hw & Hwt).
    destruct (linear_row_part _ w _ _ Hhead Hwt) as (u & Hu & Hut). exists (w, u).
    rewrite Hy, Ok_bind. split; [done|]. by split. }
  destruct (cat_rows n ltac:(done) (fun i => (p i).2) (zv z)) as (Hcat & Hl1 & Hl2); [intros i Hi; by apply Hp|].
  destruct (gather_together n ltac:(done) k nc (fun i => (p i).2) (zv z) Ha Hk) as (nc' & Htog & Ha');
    [intros i Hi; by apply Hp|intros E; apply HV; rewrite HVz, E; lia|by rewrite <- HVz|].
  rewrite <- HVz in Hl1.
  exists (fun i => (p i).1), (fun i => (p i).2), (side_by_side n (fun i => (p i).2) (zv z)), nc'.
  split; [intros i Hi; by apply Hp|]. split; [intros i Hi; by apply Hp|]. split; [done|]. split; [|done].
  unfold head_forward, column_forward.
  apply (together_lift n _ (fun i => (p i).2)); [intros i Hi; by destruct (Hp i Hi) as (_ & -> & _)|].
  eapply together_ext; [|eapply (together_lift n (fun _ => Ok 1) (fun _ => 1)
    (fun i axis => r ⟵ collective (all_gather (nc i) (p i).2 axis); width ⟵ lift (candle (dim r.1 axis));
       _ ⟵ lift (reject_if (negb (Nat.eqb width (global_output_features (tl_lm_head (m i)))))
         (InvalidConfig "column-parallel gather produced the wrong output width")); lift (Ok r)))]; [|done|].
  - intros i Hi. destruct (Hm i Hi) as [_ _ _ _ _ _ _ -> _], (Hp i Hi) as (_ & _ & (-> & _) & _). done.
  - apply (together_try n _ _ _ _ Htog). apply (together_lift n _ (fun _ => V)).
    { intros i Hi. cbn [fst]. unfold dim. by rewrite (proj1 Hl1). }
    apply (together_lift n _ (fun _ => tt)); [|by apply together_ret].
    intros i Hi. destruct (Hm i Hi) as [_ _ _ _ _ _ -> _ _]. fold z. by rewrite <- HVz, Nat.eqb_refl.
Qed.

(** A pass of all ranks. *)
Lemma pass_together (m : nat -> TensorParallelLlama) ids position s kv k nc :
  tensor_fits -> (forall i, i < n -> typed_tensor_model config d n cap i alg (m i)) ->
  (forall i, i < n -> cache_in_pass z cap L position s 0 (kv i)) ->
  dims ids = [1; s] -> dtype ids = U32_DTYPE -> device ids = Cpu -> length (elements ids) = s ->
  Forall (fun id => id < vocab_size config)%N (elements ids) -> s <> 0 -> position + s <= cap ->
  aligned n k nc -> (k + 2 * N.of_nat L + 2 <= 2 ^ 44)%N ->
  exists logits kv' nc', lockstep_pass n alg m ids position kv logits kv' /\
    together n (fun i => tensor_forward (m i) ids position (kv i) (nc i)) (fun i => Ok (logits, kv' i, nc' i)) /\
    has logits [1; V] /\ tensor_wf logits /\ (forall i, i < n -> cache_in_pass z cap L position s L (kv' i)) /\
    aligned n (k + (2 * N.of_nat L + 2)) nc'.
Proof.
  intros Hfit Hm Hc Hd Ht Hv Hlen Hids Hs Hp Ha Hk. pose proof Hfit as [Hn Hhd Hsh Hz0 HV HL Hsize Hlog].
  destruct (shard_sizes_ok config d n Hhd Hsh ltac:(lia)) as (Hg & Hzh & _ & _ & HVz). fold z V in Hg, Hzh, HVz.
  assert (zv z <> 0) as Hzv by (intros E; apply HV; rewrite HVz, E; lia).
  destruct (finite_choice ids n (fun i t => vocab_local (tl_embeddings (m i)) ids = Ok t /\ partial z s t)) as [rows Hrows].
  { intros i Hi. destruct (Hm i Hi) as [_ He _ _ _ _ _ _ _].
    destruct (vocab_local_has z alg _ _ ids s He Hzv Hd Ht Hv Hlen Hids) as (y & H1 & H2). by exists y. }
  destruct (partial_reduce n alg z cap Hn Hzh Hz0 Hsize s nc rows k Ha ltac:(lia)) as ((nc1 & Hred & Ha1) & Hh0);
    [intros i Hi; by apply Hrows|done|lia|].
  destruct (layers_together n alg z cap L Hn Hg Hzh Hz0 Hsize s position (fun i => tl_rope (m i)) L (k + 1) 0
    (fun i => tl_blocks (m i)) (reduced n alg rows) kv nc1) as (h & kv' & nc2 & Hlock & Htog2 & Hh & Hc2 & Ha2); try done.
  { intros i Hi. destruct (Hm i Hi). by split. }
  { intros i Hi. by destruct (Hm i Hi). }
  { lia. }
  destruct (head_together m h s _ nc2 Hfit Hm (proj1 Hh) Hs Ha2 ltac:(lia))
    as (last & part & logits & nc3 & Hlast & Hpart & Hcat & Htog3 & Hl1 & Hl2 & Ha3).
  exists logits, kv', nc3. split; [by apply (lockstep_pass_intro n alg m ids position kv s rows h kv' last part);
    [|intros i Hi; by apply Hrows|..]|].
  split; [|split; [done|split; [done|split; [done|]]]].
  2: { by replace (k + (2 * N.of_nat L + 2))%N with (k + 1 + 2 * N.of_nat L + 1)%N by lia. }
  unfold tensor_forward. apply (together_lift n _ (fun _ => s)).
  { intros i Hi. destruct (Hm i Hi) as [[Hr Hsz] _ _ Hlayers _ _ _ _ _], (Ha i Hi) as (Hrank & _).
    unfold tensor_forward_checks. rewrite Hrank, Hr, Hsz, !N.eqb_refl. cbn [negb orb reject_if]. rewrite Ok_bind.
    unfold dims2. rewrite Hd. cbn [candle map_err]. rewrite Ok_bind. cbn beta iota.
    rewrite (proj2 (Nat.eqb_neq s 0) Hs). cbn [Nat.eqb negb orb reject_if]. rewrite Ok_bind.
    rewrite (cache_in_pass_len z cap L position s _ HL (Hc i Hi)). destruct (Hc i Hi) as [Hcl Hcc _].
    unfold cache_layer_count. rewrite Hcl, Hlayers, Hcc, !Nat.eqb_refl. cbn [negb orb reject_if]. rewrite Ok_bind.
    rewrite (proj2 (Nat.ltb_ge cap (position + s))) by done. done. }
  apply (together_try n _ (fun i => (reduced n alg rows, nc1 i))).
  { unfold vocab_forward. apply (together_lift n _ rows); [intros i Hi; by apply Hrows|].
    eapply together_ext; [|exact Hred]. intros i Hi. destruct (Hm i Hi) as [_ [_ _ _ _ ->] _ _ _ _ _ _ _]. done. }
  cbn [fst snd]. apply (together_try n _ (fun i => (h, kv' i, nc2 i)) _ _ Htog2). cbn [fst snd].
  apply (together_lift n _ last); [intros i Hi; by rewrite Hlast|].
  apply (together_try n _ _ _ _ Htog3). cbn [fst snd].
  apply (together_lift n _ (fun _ => logits)); [|by apply together_ret].
  intros i Hi. by rewrite (to_dtype_has _ _ Hl1).
Qed.

End Whole.

(** C5: a tensor-parallel pass.  In a world of ranks whose models are typed shards
    of one architecture, with caches at the same position, every schedule of the
    ranks' passes on known tokens with room in the cache terminates: no rank
    blocks, fails or leaves a message behind.  Every rank returns the logits of
    the pass in lock step - one row over the whole vocabulary, the same bits on
    every rank - after [2 L + 2] collectives, and its cache holds the tokens. *)
Theorem tensor_pass_in_lockstep {FO : FloatOps} {KE : Kernels} {KL : KernelLaws KE} n alg config d cap m ids position s kv k nc :
  tensor_fits n config d cap -> (forall i, i < n -> typed_tensor_model config d n cap i alg (m i)) ->
  (forall i, i < n ->
     cache_in_pass (shard_sizes config d n) cap (N.to_nat (num_hidden_layers config)) position s 0 (kv i)) ->
  dims ids = [1; s] -> dtype ids = U32_DTYPE -> device ids = Cpu -> length (elements ids) = s ->
  Forall (fun id => id < vocab_size config)%N (elements ids) -> s <> 0 -> position + s <= cap ->
  aligned n k nc -> (k + 2 * num_hidden_layers config + 2 <= 2 ^ 44)%N ->
  exists logits kv' nc',
    lockstep_pass n alg m ids position kv logits kv' /\
    always_returns (world_of n (fun i => tensor_forward (m i) ids position (kv i) (nc i)))
      (map (fun i => Ok (logits, kv' i, nc' i)) (seq 0 n)) /\
    has logits [1; N.to_nat (vocab_size config)] /\
    (forall i, i < n -> cache_in_pass (shard_sizes config d n) cap
       (N.to_nat (num_hidden_layers config)) (position + s) 0 0 (kv' i)) /\
    aligned n (k + (2 * num_hidden_layers config + 2)) nc'.
Proof.
  intros Hfit Hm Hc Hd Ht Hv Hlen Hids Hs Hp Ha Hk.
  destruct (pass_together n alg config d cap m ids position s kv k nc) as (logits & kv' & nc' & H1 & H2 & H3 & _ & H4 & H5);
    try done; [by rewrite N2Nat.id|].
  exists logits, kv', nc'. split; [done|]. split; [by apply together_returns|]. split; [done|].
  rewrite N2Nat.id in H5. split; [|done]. intros i Hi. by apply cache_in_pass_next, H4.
Qed.
