(* ===== verification/TensorRun.v ===== *)
(** * The tensor-parallel rank

    Models [crates/tensor/src/runner.rs] and the records of [report.rs]: one
    tensor rank as a process - the checks of the manifest, the local shard and
    cache, the barriers, the steps in which every rank runs the sharded model and
    rank 0 spreads its decision, and the report.  Clock readings are not part of
    the model, events are in [TensorEvents.v]; the mapped weight file is the class
    [ShardedRuntime]. *)
From S2P Require Import Prelude Rank Packet Tcp World Tensor Collective Registry Memory Shard Protocol.
From S2P Require Import Cache Kernels Llama Report Artifacts Generation Pipeline Parallel TensorLlama.

(** A tensor rank's code. *)
Definition tproc (A : Type) : Type := proc (tresult A).

(** [?] on communicator, runtime and Candle results. *)
Definition tcomm {A} (m : cproc A) : tproc A := proc_err TensorCollectives m.
Definition truntime {A} (m : dresult A) : tresult A := map_err TensorRuntime m.
Definition tcandle {A} (m : cresult A) : tresult A :=
  map_err (fun e => TensorCandle (match e with TensorError op => op | _ => "" end)) m.

(** [MmapedSafetensors::multi] of one file, read at F32 on the CPU. *)
Class ShardedRuntime `{HostSystem} : Type := {
  sharded_file : PathBuf -> cresult ShardedFile }.
(** [ShardedSafeTensors::var_builder]. *)
Definition sharded_var_builder `{ShardedRuntime} (path : PathBuf) : cresult ShardedVarBuilder :=
  tensors ← sharded_file path; Ok (sharded_get tensors).

(** [struct TensorParallelManifest]. *)
Record TensorParallelManifest `{HostSystem} : Type := mkTensorManifest
  { tm_schema_version : N; tm_run_id : string; tm_request_id : string; tm_model : SupportedModelId;
    tm_manifest_dtype : PlanDType; tm_tensor_parallel : N; tm_all_reduce : AllReduceAlgorithm;
    tm_prompt_token_ids : list N; tm_requested : N; tm_effective : N; tm_capacity : N;
    tm_checkpoint_path : PathBuf; tm_tokenizer_path : PathBuf; tm_partition : TensorParallelPartition;
    tm_expected_cpu_millis : N; tm_expected_memory_bytes : N }.

(** [struct TokenDecision]. *)
Record TokenDecision : Type := mkDecision
  { td_step : N; td_token : N; td_emit : bool; td_continue : bool; td_stop_reason : option StopReason }.

Definition TENSOR_DECISION_TAG_BASE : N := 0x3000000000000000.
Definition tensor_decision_tag (step : N) : MessageTag := add64 TENSOR_DECISION_TAG_BASE step.

(** ** The decision of a step *)
Section Decision.
Context {FO : FloatOps} {KE : Kernels} {JC : JsonCodec TokenDecision}.
Context (eos requested effective tensor_parallel : N).

(** [argmax(D::Minus1)], [to_vec1::<u32>()], the first. *)
Definition first_token (logits : Tensor) : tresult N :=
  tcandle (best ← argmax_last logits;
           match dims best, elements best with
           | [_], token :: _ => Ok token
           | _, _ => candle_error "to_vec1"
           end).

(** Rank 0's decision. *)
Definition decision_of (step token : N) : TokenDecision :=
  let emit := negb (token =? eos)%N in
  let at_limit := (add64 step 1 =? effective)%N in
  let reason := if negb emit then Some Eos
                else if at_limit && (effective <? requested)%N then Some ContextLimit
                else if at_limit then Some MaxNewTokens
                else None in
  mkDecision step token emit (bool_decide (reason = None)) reason.

(** The decision to each peer in turn. *)
Fixpoint send_decision_bytes (peers : list nat) (tag : MessageTag) (bytes : list byte) : tproc unit :=
  match peers with
  | [] => lift (Ok tt)
  | peer :: peers =>
      _ ⟵ tcomm (send_control peer tag bytes);
      send_decision_bytes peers tag bytes
  end.

Definition step_decision (rank : nat) (step : N) (logits : Tensor) : tproc TokenDecision :=
  if Nat.eqb rank 0
  then
    token ⟵ lift (first_token logits);
    let decision := decision_of step token in
    bytes ⟵ lift (map_err TensorJson (to_vec decision));
    _ ⟵ send_decision_bytes (seq 1 (N.to_nat tensor_parallel - 1)) (tensor_decision_tag step) bytes;
    lift (Ok decision)
  else
    bytes ⟵ tcomm (recv_control 0 (tensor_decision_tag step));
    lift (map_err TensorJson (from_slice bytes)).
End Decision.

(** ** The steps *)

(** The variables of the loop. *)
Record TensorRankState : Type := mkTensorState
  { ts_cache : KvCache; ts_native : NativeCollectives; ts_input : Tensor; ts_position : nat;
    ts_generated : list N; ts_forwards : N }.

Section Steps.
Context {FO : FloatOps} {KE : Kernels} {JC : JsonCodec TokenDecision}.
Context (eos requested effective tensor_parallel : N) (rank : nat) (model : TensorParallelLlama).

(** One iteration: [inl] breaks with a reason, [inr] continues. *)
Definition tensor_step (step : N) (s : TensorRankState)
  : tproc ((StopReason * TensorRankState) + TensorRankState) :=
  r ⟵ proc_err TensorRuntime (tensor_forward model (ts_input s) (ts_position s) (ts_cache s) (ts_native s));
  let forwards := if (step =? 0)%N then ts_forwards s else add64 (ts_forwards s) 1 in
  d ⟵ step_decision eos requested effective tensor_parallel rank step r.1.1;
  _ ⟵ lift (reject_if (negb (td_step d =? step)%N) (InvalidRequest "stale token decision step"));
  let generated := if td_emit d then ts_generated s ++ [td_token d] else ts_generated s in
  if negb (td_continue d)
  then
    reason ⟵ lift (ok_or (td_stop_reason d) (InvalidRequest "terminal decision omitted stop reason"));
    lift (Ok (inl (reason, mkTensorState r.1.2 r.2 (ts_input s) (ts_position s) generated forwards)))
  else
    width ⟵ lift (tcandle (dim (ts_input s) 1));
    lift (Ok (inr (mkTensorState r.1.2 r.2 (token_tensor [td_token d]) (ts_position s + width)
                     generated forwards))).

(** The loop over the steps that remain. *)
Fixpoint tensor_steps (remaining : nat) (step : N) (s : TensorRankState)
  : tproc (option StopReason * TensorRankState) :=
  match remaining with
  | O => lift (Ok (None, s))
  | S remaining =>
      r ⟵ tensor_step step s;
      match r with
      | inl (reason, s) => lift (Ok (Some reason, s))
      | inr s => tensor_steps remaining (step + 1) s
      end
  end.
End Steps.

(** ** The rank *)

(** [struct TensorParallelRankReport], without its timings - but for the count of
    forwards - and events. *)
Record TensorParallelRankReport : Type := mkTensorReport
  { tp_schema_version : N; tp_run_id : string; tp_request_id : string; tp_report_rank : nat;
    tp_peers : list PeerInfo; tp_memory : TensorParallelMemoryPlan; tp_resources : ResourceSnapshot;
    tp_final_kv_cache_bytes : N; tp_collectives : list CollectiveTrace; tp_sent_bytes : N;
    tp_received_bytes : N; tp_generated_tokens : list N; tp_completion : string;
    tp_stop_reason : StopReason; tp_decode_forward_count : N; tp_barriers_passed : bool;
    tp_success : bool }.

Section Run.
Context {FO : FloatOps} {KE : Kernels} {HO : HostSystem} {RT : Runtime} {SR : ShardedRuntime}
  {JC : JsonCodec TokenDecision}.

(** The checks of the manifest. *)
Definition admit_tensor_rank (rank : Rank) (manifest : TensorParallelManifest)
  : tresult (TensorParallelMemoryPlan * ModelSpec) :=
  _ ← reject_if (negb (tm_schema_version manifest =? 1)%N
                 || negb (bool_decide (tm_manifest_dtype manifest = PF32)))
    (InvalidRequest "unsupported manifest schema or dtype");
  _ ← reject_if (negb (N.of_nat (world_size rank) =? tm_tensor_parallel manifest)%N
                 || negb (tpp_tensor_parallel (tm_partition manifest) =? tm_tensor_parallel manifest)%N)
    (InvalidRequest "manifest and transport topology disagree");
  memory ← ok_or (tpp_ranks (tm_partition manifest) !! global_rank rank)
    (InvalidRequest ("manifest has no rank " +:+ pretty (global_rank rank) +:+ " plan"));
  spec ← ok_or (spec_of (tm_model manifest)) (InvalidRequest "every model id must have a registry entry");
  Ok (memory, spec).

(** The shard of the model and its cache. *)
Definition load_tensor_rank (rank : Rank) (manifest : TensorParallelManifest) (spec : ModelSpec)
  : tresult (TensorParallelLlama * KvCache) :=
  let capacity := N.to_nat (tm_capacity manifest) in
  vb ← tcandle (sharded_var_builder (tm_checkpoint_path manifest));
  parallel ← truntime (Shard.tensor_parallel (N.of_nat (global_rank rank)) (tm_tensor_parallel manifest));
  model ← truntime (load_sharded vb F32 (config spec) parallel capacity (tm_all_reduce manifest));
  cache ← truntime (new_tensor_parallel (config spec) (tm_tensor_parallel manifest) capacity F32 Cpu);
  Ok (model, cache).

Definition load_tensor_tokenizer (rank : Rank) (manifest : TensorParallelManifest)
  : tresult (option Tokenizer) :=
  if Nat.eqb (global_rank rank) 0
  then Some <$> map_err TensorTokenizer (tokenizer_from_file (tm_tokenizer_path manifest))
  else Ok None.

Definition tensor_completion (tokenizer : option Tokenizer) (tokens : list N) : tresult string :=
  match tokenizer with
  | Some tokenizer => map_err TensorTokenizer (tokenizer_decode tokenizer tokens)
  | None => Ok ""
  end.

(** [run_tensor_parallel_rank_observed]; [elapsed] are the durations of the collectives. *)
Definition run_tensor_parallel_rank (rank : Rank) (manifest : TensorParallelManifest)
    (peers : list PeerInfo) (resources : ResourceSnapshot) (elapsed : N -> Duration) : tproc TensorParallelRankReport :=
  a ⟵ lift (admit_tensor_rank rank manifest);
  let spec := a.2 in
  l ⟵ lift (load_tensor_rank rank manifest spec);
  let collectives := with_observer rank elapsed in
  _ ⟵ tcomm barrier;
  tokenizer ⟵ lift (load_tensor_tokenizer rank manifest);
  r ⟵ tensor_steps (eos_token_id (config spec)) (tm_requested manifest) (tm_effective manifest)
        (tm_tensor_parallel manifest) (global_rank rank) l.1 (N.to_nat (tm_effective manifest)) 0
        (mkTensorState l.2 collectives (token_tensor (tm_prompt_token_ids manifest)) 0 [] 0);
  reason ⟵ lift (ok_or r.1 (InvalidRequest "generation ended without a stop reason"));
  let s := r.2 in
  _ ⟵ tcomm barrier;
  let traces := (take_traces (ts_native s)).1 in
  completion ⟵ lift (tensor_completion tokenizer (ts_generated s));
  bytes ⟵ lift (truntime (used_bytes (ts_cache s) (local_config (config spec) (tm_tensor_parallel manifest)) 4));
  lift (Ok {| tp_schema_version := 1;
              tp_run_id := tm_run_id manifest;
              tp_request_id := tm_request_id manifest;
              tp_report_rank := global_rank rank;
              tp_peers := peers;
              tp_memory := a.1;
              tp_resources := resources;
              tp_final_kv_cache_bytes := bytes;
              tp_collectives := traces;
              tp_sent_bytes := sum64 (map sent_bytes traces);
              tp_received_bytes := sum64 (map received_bytes traces);
              tp_generated_tokens := ts_generated s;
              tp_completion := completion;
              tp_stop_reason := reason;
              tp_decode_forward_count := ts_forwards s;
              tp_barriers_passed := true;
              tp_success := true |}).
End Run.
