(* ===== verification/TensorProofs.v ===== *)
(** * Tensor ranks generate together

    The abstract specification is [sharded_greedy]: a greedy run of passes in
    lock step ([TensorWorld.v]).  A world of tensor ranks ([TensorRun.v])
    implements it: all ranks stop together, for the same reason, with the same
    tokens, whatever the schedule. *)
From S2P Require Import Prelude Rank Packet Mailbox World Tensor Collective CollectiveWorld Registry Memory.
From S2P Require Import Shard Protocol Cache Kernels Llama LlamaStage Report Artifacts Generation.
From S2P Require Import GenerationProofs Shapes Pipeline PipelineWorld PipelineProofs.
From S2P Require Import Parallel TensorLlama TensorShapes TensorWorld TensorRun.

(** ** The specification *)
Section Greedy.
Context {FO : FloatOps} {KE : Kernels} (n : nat) (alg : AllReduceAlgorithm).
Context (m : nat -> TensorParallelLlama) (eos requested effective : N).

(** [sharded_greedy ids position kv generated reason tokens kv']: feeding [ids]
    to all ranks at [position] on caches [kv], after [generated], ends for
    [reason] with [tokens] and [kv']. *)
Inductive sharded_greedy
  : list N -> nat -> (nat -> KvCache) -> list N -> StopReason -> list N -> (nat -> KvCache) -> Prop :=
| sharded_eos ids position kv generated logits kv' :
    lockstep_pass n alg m (token_tensor ids) position kv logits kv' -> first_token logits = Ok eos ->
    sharded_greedy ids position kv generated Eos generated kv'
| sharded_limit ids position kv generated logits kv' token :
    lockstep_pass n alg m (token_tensor ids) position kv logits kv' -> first_token logits = Ok token ->
    token <> eos -> (effective <= N.of_nat (length (generated ++ [token])))%N ->
    sharded_greedy ids position kv generated (token_limit_stop_reason requested effective)
      (generated ++ [token]) kv'
| sharded_more ids position kv generated logits kv' token reason tokens kv'' :
    lockstep_pass n alg m (token_tensor ids) position kv logits kv' -> first_token logits = Ok token ->
    token <> eos -> (N.of_nat (length (generated ++ [token])) < effective)%N ->
    sharded_greedy [token] (position + length ids) kv' (generated ++ [token]) reason tokens kv'' ->
    sharded_greedy ids position kv generated reason tokens kv''.

(** The passes of a run. *)
Definition passes (reason : StopReason) (tokens : list N) : N :=
  (lenN tokens + (if decide (reason = Eos) then 1 else 0))%N.
End Greedy.

(** ** The decision of a step *)

Lemma argmax_scan_lt l index acc val :
  (acc < index)%N -> (argmax_scan l index acc val < index + lenN l)%N.
Proof.
  unfold lenN. revert index acc val. induction l as [|x l IH]; intros index acc val H; cbn [argmax_scan length].
  - lia.
  - destruct (f32_lt val x); [specialize (IH (index + 1)%N index x)|specialize (IH (index + 1)%N acc val)]; lia.
Qed.

Lemma first_token_total logits v :
  has logits [1; v] -> tensor_wf logits -> v <> 0 ->
  exists token, first_token logits = Ok token /\ (token < N.of_nat v)%N /\ (token < U32)%N.
Proof.
  intros (Hd & _) Hwf Hv. unfold tensor_wf in Hwf. rewrite Hd in Hwf. unfold Tensor.product in Hwf. cbn in Hwf.
  unfold first_token, argmax_last, last_dim. rewrite Hd. cbn [length Nat.sub firstn lookup list_lookup].
  change (Tensor.blocks (Tensor.product [1]) v (elements logits)) with [firstn v (elements logits)].
  rewrite take_ge by lia. cbn [mapM]. destruct (elements logits) as [|x l]; [cbn in Hwf; lia|].
  cbn [argmax_row ok_or mbind result_bind mret result_ret dims elements tcandle map_err].
  eexists. split; [done|]. split; [|by apply N.mod_lt].
  cbn [argmax_scan]. replace (f32_lt x x) with false.
  2: { symmetry. unfold f32_lt. rewrite Z.ltb_irrefl. by rewrite andb_false_r. }
  pose proof (argmax_scan_lt l (0 + 1)%N 0%N x ltac:(lia)) as H. cbn [length] in Hwf. unfold lenN in H.
  pose proof (N.Div0.mod_le (argmax_scan l (0 + 1)%N 0%N x) U32). lia.
Qed.

(** The decisions the codec has to carry. *)
Definition token_decision_wf (d : TokenDecision) : Prop := (td_step d < U64)%N /\ (td_token d < U32)%N.

Section Decide.
Context {FO : FloatOps} {KE : Kernels}.
Context {JC : JsonCodec TokenDecision} {JL : JsonCodecLaws JC token_decision_wf}.

Lemma exec_send_decision_bytes r dests tag bytes :
  (lenN bytes <= MAX_CONTROL_BYTES)%N -> Forall (fun d => Ranks.validate_peer r d = Ok tt) dests ->
  exec r (send_decision_bytes dests tag bytes) (map (fun d => control_put d tag bytes) dests) (Ret (Ok tt)).
Proof.
  intros Hl. induction 1 as [|d dests Hd _ IH]; cbn [send_decision_bytes map]; [by apply exec_ret|].
  change (?x :: ?l) with ([x] ++ l). eapply exec_try; [apply exec_proc_err|exact IH].
  unfold send_control. rewrite Control.control_new_ok by done. cbn.
  eapply exec_act; [by refine (local_send r d _ _ _)|]. constructor.
Qed.

(** Rank 0 decides and every rank has its decision. *)
Lemma decision_together eos requested effective n step logits token :
  0 < n -> (step < U64)%N -> first_token logits = Ok token -> (token < U32)%N ->
  together n (fun i => step_decision eos requested effective (N.of_nat n) i step logits)
    (fun _ => Ok (decision_of eos requested effective step token)).
Proof.
  intros Hn Hs Ht Hu. set (d := decision_of eos requested effective step token).
  destruct (json_round_trip d) as (bytes & He & Hd & Hl); [done|].
  set (tag := tensor_decision_tag step).
  exists (fun i => if decide (i = 0) then map (fun x => control_put x tag bytes) (seq 1 (n - 1))
                   else [control_take 0 tag bytes]). split.
  - intros i Hi. unfold step_decision. destruct (Nat.eqb_spec i 0) as [->|H0].
    + rewrite decide_True by done. apply exec_lift with token; [done|]. fold d.
      apply exec_lift with bytes; [by rewrite He|]. rewrite Nat2N.id. fold tag.
      eapply exec_try_ret; [|done]. apply exec_send_decision_bytes; [done|].
      apply List.Forall_forall. intros x Hx%in_seq. apply Ranks.validate_peer_ne; lia.
    + rewrite decide_False by done. fold tag. eapply exec_try_ret; [apply exec_proc_err|by rewrite Hd].
      unfold recv_control. cbn.
      eapply exec_act; [by refine (local_recv_control (mkRank i n) 0 tag _ (mkControlPacket bytes) _);
        apply Ranks.validate_peer_ne; lia|]. constructor.
  - apply (drains_scatter n 0 (seq 1 (n - 1)) (fun _ => mkMessage tag (ControlPayload (mkControlPacket bytes)))
      (fun _ => control_payload tag) (fun _ => ControlPayload (mkControlPacket bytes)) (fun _ => []));
      [done| |apply NoDup_seq| | |by apply drains_done].
    + apply List.Forall_forall. intros x Hx%in_seq. split; [lia|]. split; [lia|apply control_selected].
    + by rewrite decide_True, app_nil_r.
    + intros i Hi Hne. rewrite decide_False by done. by rewrite decide_True by (apply elem_of_seq; lia).
Qed.
End Decide.

(** ** The steps of all ranks *)
Section Steps.
Context {FO : FloatOps} {KE : Kernels} {KL : KernelLaws KE}.
Context {JC : JsonCodec TokenDecision} {JL : JsonCodecLaws JC token_decision_wf}.
Context (n : nat) (alg : AllReduceAlgorithm) (config : ModelConfig) (d : N) (cap : nat).
Context (m : nat -> TensorParallelLlama) (eos requested effective : N).
Let z := shard_sizes config d n.
Let L := N.to_nat (num_hidden_layers config).

(** The collectives of a pass. *)
Definition per_pass : N := (2 * num_hidden_layers config + 2)%N.
Hypotheses (Hfit : tensor_fits n config d cap)
  (Hm : forall i, i < n -> typed_tensor_model config d n cap i alg (m i))
  (Hseq : (effective * per_pass <= 2 ^ 44)%N).

(** Rank [i] when it feeds [ids] at [position]. *)
Definition feeding (kv : nat -> KvCache) (nc : nat -> NativeCollectives) ids position generated forwards (i : nat) :=
  mkTensorState (kv i) (nc i) (token_tensor ids) position generated forwards.

(** Its step after [token] is chosen. *)
Definition step_outcome step token ids position generated forwards kv nc i
  : (StopReason * TensorRankState) + TensorRankState :=
  let decision := decision_of eos requested effective step token in
  let generated := if td_emit decision then generated ++ [token] else generated in
  let forwards := if (step =? 0)%N then forwards else add64 forwards 1 in
  match td_stop_reason decision with
  | Some reason => inl (reason, feeding kv nc ids position generated forwards i)
  | None => inr (feeding kv nc [token] (position + length ids) generated forwards i)
  end.

Lemma step_together step ids position generated forwards kv k nc :
  (step < U64)%N -> ids <> [] -> Forall (fun id => id < vocab_size config)%N ids ->
  position + length ids <= cap ->
  (forall i, i < n -> cache_in_pass z cap L position (length ids) 0 (kv i)) ->
  aligned n k nc -> (k + per_pass <= 2 ^ 44)%N ->
  exists logits token kv' nc',
    lockstep_pass n alg m (token_tensor ids) position kv logits kv' /\ first_token logits = Ok token /\
    (token < vocab_size config)%N /\
    together n (fun i => tensor_step eos requested effective (N.of_nat n) i (m i) step
                  (feeding kv nc ids position generated forwards i))
      (fun i => Ok (step_outcome step token ids position generated forwards kv' nc' i)) /\
    (forall i s, i < n -> cache_in_pass z cap L (position + length ids) s 0 (kv' i)) /\
    aligned n (k + per_pass) nc'.
Proof.
  intros Hstep Hids Hvoc Hp Hc Ha Hk.
  destruct (pass_together n alg config d cap m (token_tensor ids) position (length ids) kv k nc Hfit Hm Hc)
    as (logits & kv' & nc' & Hlock & Htog & Hl & Hlw & Hc' & Ha'); try done.
  { intros E. by apply nil_length_inv in E. }
  { rewrite N2Nat.id. unfold per_pass in Hk. lia. }
  rewrite N2Nat.id in Ha'. fold per_pass in Ha'.
  destruct (first_token_total logits _ Hl Hlw (tf_vocab _ _ _ _ Hfit)) as (token & Ht & Hv & Hu).
  rewrite N2Nat.id in Hv.
  exists logits, token, kv', nc'. split; [done|]. split; [done|]. split; [done|].
  split; [|split; [intros i s Hi; by eapply cache_in_pass_next, Hc'|done]].
  unfold tensor_step, feeding. cbn [ts_input ts_position ts_cache ts_native ts_forwards ts_generated].
  apply (together_try n _ (fun i => (logits, kv' i, nc' i))); [by apply together_err|]. cbn [fst snd].
  pose proof (tf_ranks _ _ _ _ Hfit) as Hn.
  apply (together_try n _ _ _ _ (decision_together eos requested effective n step logits token
    ltac:(lia) Hstep Ht Hu)).
  apply (together_lift n _ (fun _ => tt)); [intros i Hi; unfold decision_of; cbn [td_step]; by rewrite N.eqb_refl|].
  apply together_ret. intros i Hi. unfold step_outcome. set (dec := decision_of _ _ _ _ _).
  assert (td_token dec = token) as Htok by done.
  assert (td_continue dec = bool_decide (td_stop_reason dec = None)) as Hcont by done.
  rewrite Hcont, Htok. destruct (td_stop_reason dec) as [reason|]; [by rewrite bool_decide_eq_false_2|].
  by rewrite bool_decide_eq_true_2.
Qed.

(** What a finished rank has. *)
Definition generated_by (reason : StopReason) (tokens : list N) (kv : nat -> KvCache)
    (st : nat -> TensorRankState) : Prop :=
  (forall i, i < n -> ts_generated (st i) = tokens /\ ts_cache (st i) = kv i /\
     (ts_forwards (st i) + 1)%N = passes reason tokens) /\
  aligned n (passes reason tokens * per_pass) (fun i => ts_native (st i)) /\
  (lenN tokens <= effective)%N.

(** The decision on [token] after [generated]. *)
Lemma decision_cases step generated token :
  (effective < U64)%N -> step = lenN generated -> (step < effective)%N ->
  let dec := decision_of eos requested effective step token in
  (token = eos /\ td_emit dec = false /\ td_stop_reason dec = Some Eos) \/
  (token <> eos /\ td_emit dec = true /\ (effective <= N.of_nat (length (generated ++ [token])))%N /\
     td_stop_reason dec = Some (token_limit_stop_reason requested effective)) \/
  (token <> eos /\ td_emit dec = true /\ (N.of_nat (length (generated ++ [token])) < effective)%N /\
     td_stop_reason dec = None).
Proof.
  intros Hu Hs Hlt dec. unfold lenN in Hs. rewrite length_app. cbn [length]. subst dec. unfold decision_of.
  cbn [td_emit td_stop_reason]. destruct (N.eqb_spec token eos) as [->|Hne]; [by left|right]. cbn [negb].
  rewrite add64_small by lia.
  destruct (N.eqb_spec (step + 1) effective) as [E|E]; [left|right]; (split; [done|]); (split; [done|]).
  - split; [lia|]. unfold token_limit_stop_reason. cbn [andb]. by destruct (effective <? requested)%N.
  - split; [lia|done].
Qed.

Lemma steps_together remaining : forall ids position generated forwards kv nc,
  (effective < U64)%N -> (lenN generated + N.of_nat remaining = effective)%N -> remaining <> 0 ->
  ids <> [] -> Forall (fun id => id < vocab_size config)%N ids ->
  position + length ids + remaining <= cap + 1 -> forwards = N.pred (lenN generated) ->
  (forall i, i < n -> cache_in_pass z cap L position (length ids) 0 (kv i)) ->
  aligned n (lenN generated * per_pass) nc ->
  exists reason tokens kv' st,
    sharded_greedy n alg m eos requested effective ids position kv generated reason tokens kv' /\
    together n (fun i => tensor_steps eos requested effective (N.of_nat n) i (m i) remaining (lenN generated)
                  (feeding kv nc ids position generated forwards i)) (fun i => Ok (Some reason, st i)) /\
    generated_by reason tokens kv' st.
Proof.
  induction remaining as [|remaining IH];
    intros ids position generated forwards kv nc Heff Hrem Hr0 Hids Hvoc Hp Hfw Hc Ha; [done|].
  assert (lenN generated + 1 <= effective)%N as Hlt by lia.
  assert ((lenN generated + 1) * per_pass <= effective * per_pass)%N as Hmul by (by apply N.mul_le_mono_r).
  destruct (step_together (lenN generated) ids position generated forwards kv _ nc ltac:(lia) Hids Hvoc ltac:(lia)
    Hc Ha ltac:(lia)) as (logits & token & kv' & nc' & Hlock & Ht & Htv & Htog & Hc' & Ha').
  set (fw := if (lenN generated =? 0)%N then forwards else add64 forwards 1) in *.
  assert (fw = lenN generated) as Hfw'.
  { subst fw forwards. destruct (N.eqb_spec (lenN generated) 0) as [->|Hne]; [done|]. rewrite add64_small by lia. lia. }
  assert (lenN (generated ++ [token]) = lenN generated + 1)%N as Hlen
    by (unfold lenN; rewrite length_app; cbn [length]; lia).
  replace (lenN generated * per_pass + per_pass)%N with ((lenN generated + 1) * per_pass)%N in Ha' by lia.
  assert (forall reason tokens, step_outcome (lenN generated) token ids position generated forwards kv' nc'
      = (fun i => inl (reason, feeding kv' nc' ids position tokens fw i)) ->
    passes reason tokens = (lenN generated + 1)%N -> (lenN tokens <= effective)%N ->
    exists st, together n (fun i => tensor_steps eos requested effective (N.of_nat n) i (m i) (S remaining)
      (lenN generated) (feeding kv nc ids position generated forwards i)) (fun i => Ok (Some reason, st i)) /\
      generated_by reason tokens kv' st) as Hstop.
  { intros reason tokens Ho Hpass Hle. exists (feeding kv' nc' ids position tokens fw). split.
    - cbn [tensor_steps]. rewrite Ho in Htog. by apply (together_try n _ _ _ _ Htog), together_ret.
    - split; [|split; [by rewrite Hpass|done]]. intros i Hi. cbn. by rewrite Hfw', Hpass. }
  destruct (decision_cases (lenN generated) generated token Heff eq_refl ltac:(lia))
    as [(-> & He & Hr)|[(Hne & He & Hlim & Hr)|(Hne & He & Hlim & Hr)]].
  - destruct (Hstop Eos generated) as (st & H1 & H2); [unfold step_outcome; by rewrite He, Hr|done|lia|].
    exists Eos, generated, kv', st. split; [by eapply sharded_eos|done].
  - destruct (Hstop (token_limit_stop_reason requested effective) (generated ++ [token])) as (st & H1 & H2).
    { unfold step_outcome. by rewrite He, Hr. }
    { unfold passes. rewrite Hlen. unfold token_limit_stop_reason. by destruct (effective <? requested)%N; rewrite decide_False by done; lia. }
    { lia. }
    exists (token_limit_stop_reason requested effective), (generated ++ [token]), kv', st.
    split; [by eapply sharded_limit|done].
  - destruct (IH [token] (position + length ids) (generated ++ [token]) fw kv' nc')
      as (reason & tokens & kv'' & st & Hg & Htog' & Hst); try done; [lia|unfold lenN in *; lia| | |lia|by intros i Hi; apply Hc'|by rewrite Hlen|].
    { by constructor. }
    { cbn [length]. lia. }
    exists reason, tokens, kv'', st. split; [by eapply sharded_more|]. split; [|done].
    cbn [tensor_steps]. apply (together_try n _ _ _ _ Htog).
    eapply together_ext; [|exact Htog']. intros i Hi. unfold step_outcome. rewrite He, Hr, Hlen. done.
Qed.
End Steps.

(** ** The whole run *)

(** A plan that was made has ranks for a shardable model. *)
Lemma plan_spec_shape model spec tp context budget p :
  plan_spec model spec tp context budget = Ok p ->
  (2 <= tp)%N /\ tpp_tensor_parallel p = tp /\ lenN (tpp_ranks p) = tp /\ shardable (config spec) tp /\
  exists hd, head_dim (config spec) = Ok hd.
Proof.
  unfold plan_spec. intros H. apply bind_Ok in H as (? & Htp%reject_if_Ok & H).
  apply bind_Ok in H as (? & _ & H). apply bind_Ok in H as (hd & Hhd%map_err_Ok & H).
  apply bind_Ok in H as (ranks & Hm%mapM_Forall2 & [= <-]). cbn [tpp_tensor_parallel tpp_ranks]. bool_prop.
  assert (lenN ranks = tp) as Hlen.
  { apply Forall2_length in Hm. rewrite length_fmap, length_seq in Hm. unfold lenN. lia. }
  split; [lia|]. split; [done|]. split; [done|]. split; [|by eexists].
  destruct (lookup_lt_is_Some_2 ranks 0) as [m0 Hm0]; [unfold lenN in Hlen; lia|].
  destruct (Forall2_lookup_r _ _ _ _ _ Hm Hm0) as (r & _ & Hp). unfold plan_rank in Hp.
  apply bind_Ok in Hp as (c & Hc%map_err_Ok%tensor_parallel_Ok & Hp). destruct Hc as [_ ->].
  apply bind_Ok in Hp as (s & Hs%map_err_Ok%plan_tensor_shard_shardable & _). done.
Qed.

(** The sizes of the registry and a tensor world. *)
Lemma registered_tensor_fits model spec n hd cap :
  spec_of model = Some spec -> shardable (config spec) (N.of_nat n) -> head_dim (config spec) = Ok hd ->
  0 < n -> (N.of_nat cap <= max_position_embeddings (config spec))%N -> tensor_fits n (config spec) hd cap.
Proof.
  intros Hspec Hsh Hd Hn Hcap. destruct (registered_sizes _ _ Hspec) as (_ & Hhid & Hbig & _).
  pose proof (sh_kv _ _ Hsh) as Hkv. split; try done.
  - assert (0 < num_key_value_heads (config spec) <= 4)%N as Hk by (by destruct model; injection Hspec as <-).
    apply N.Lcm0.mod_divide in Hkv. apply N.divide_pos_le in Hkv; [lia|by apply Hk].
  - destruct model; injection Hspec as <-; cbn [config vocab_size SMOLLM2 TINYLLAMA]; lia.
  - destruct model; injection Hspec as <-; cbn [config num_hidden_layers SMOLLM2 TINYLLAMA]; lia.
  - change (zh (shard_sizes (config spec) hd n)) with (N.to_nat (hidden_size (config spec))).
    assert (N.of_nat cap * hidden_size (config spec) <= max_position_embeddings (config spec) * hidden_size (config spec))%N
      by (by apply N.mul_le_mono_r). lia.
  - rewrite N2Nat.id. destruct model; injection Hspec as <-; by vm_compute.
Qed.

(** No run of a registered model exhausts the sequence numbers. *)
Lemma registered_traffic model spec : spec_of model = Some spec ->
  (max_position_embeddings (config spec) <= 8192)%N /\ (per_pass (config spec) <= 62)%N.
Proof. by destruct model; intros [= <-]. Qed.

Section Run.
Context {FO : FloatOps} {KE : Kernels} {KL : KernelLaws KE}.
Context {HO : HostSystem} {RT : Runtime} {SR : ShardedRuntime}.
Context {JC : JsonCodec TokenDecision} {JL : JsonCodecLaws JC token_decision_wf}.

Lemma admit_tensor_rank_Ok n manifest spec budget i :
  tm_schema_version manifest = 1%N -> tm_manifest_dtype manifest = PF32 ->
  tm_tensor_parallel manifest = N.of_nat n -> spec_of (tm_model manifest) = Some spec ->
  plan_spec (tm_model manifest) spec (N.of_nat n) (tm_capacity manifest) budget = Ok (tm_partition manifest) ->
  i < n -> exists plan, admit_tensor_rank (mkRank i n) manifest = Ok (plan, spec).
Proof.
  intros Hv Hdt Htp Hs Hp Hi. destruct (plan_spec_shape _ _ _ _ _ _ Hp) as (_ & Htp' & Hlen & _).
  unfold admit_tensor_rank. cbn [world_size global_rank].
  rewrite Hv, Hdt, Htp, Htp', !N.eqb_refl, bool_decide_eq_true_2 by done. cbn [negb orb reject_if].
  rewrite !Ok_bind. destruct (lookup_lt_is_Some_2 (tpp_ranks (tm_partition manifest)) i) as [plan Hplan];
    [unfold lenN in Hlen; lia|].
  rewrite Hplan. cbn [ok_or]. rewrite Ok_bind, Hs. cbn [ok_or]. rewrite Ok_bind. by exists plan.
Qed.

Lemma load_tensor_rank_typed n manifest spec hd file i m kv :
  let cap := N.to_nat (tm_capacity manifest) in
  tm_tensor_parallel manifest = N.of_nat n -> shardable (config spec) (N.of_nat n) ->
  head_dim (config spec) = Ok hd -> i < n -> spec_of (tm_model manifest) = Some spec ->
  sharded_file (tm_checkpoint_path manifest) = Ok file -> registered_file spec file ->
  load_tensor_rank (mkRank i n) manifest spec = Ok (m, kv) ->
  typed_tensor_model (config spec) hd n cap i (tm_all_reduce manifest) m /\
  cache_in_pass (shard_sizes (config spec) hd n) cap (N.to_nat (num_hidden_layers (config spec))) 0 0 0 kv /\
  (N.of_nat cap <= max_position_embeddings (config spec))%N.
Proof.
  intros cap Htp Hsh Hd Hi Hspec Hfile Hreg H. unfold load_tensor_rank, sharded_var_builder in H.
  rewrite Hfile, Htp, Ok_bind in H. cbn [tcandle map_err] in H. rewrite Ok_bind in H. cbn [global_rank] in H.
  apply bind_Ok in H as (c & Hc%map_err_Ok%tensor_parallel_Ok & H). destruct Hc as [_ ->].
  apply bind_Ok in H as (m' & Hm%map_err_Ok & H). apply bind_Ok in H as (kv' & Hkv%map_err_Ok & [= <- <-]).
  split; [|split].
  - apply (load_from_typed (sharded_weights (sharded_get file) (mkContext (N.of_nat i) (N.of_nat n) 0 1 0 1)));
      try done; [|lia]. apply sharded_source; try done. by eapply registered_stores.
  - by apply (new_tensor_parallel_typed (config spec) hd n Hd Hsh ltac:(lia)).
  - unfold new_tensor_parallel in Hkv. apply bind_Ok in Hkv as (? & _ & Hkv). by apply cache_new_fits in Hkv.
Qed.

(** The steps of the ranks of a manifest. *)
Lemma manifest_steps n manifest spec hd file m kv elapsed :
  let cfg := config spec in
  tm_tensor_parallel manifest = N.of_nat n -> spec_of (tm_model manifest) = Some spec -> 0 < n ->
  shardable cfg (N.of_nat n) -> head_dim cfg = Ok hd ->
  sharded_file (tm_checkpoint_path manifest) = Ok file -> registered_file spec file ->
  (forall i, i < n -> load_tensor_rank (mkRank i n) manifest spec = Ok (m i, kv i)) ->
  tm_prompt_token_ids manifest <> [] ->
  Forall (fun id => id < vocab_size cfg)%N (tm_prompt_token_ids manifest) ->
  (0 < tm_effective manifest)%N ->
  (lenN (tm_prompt_token_ids manifest) + tm_effective manifest <= tm_capacity manifest)%N ->
  exists reason tokens kv' st,
    sharded_greedy n (tm_all_reduce manifest) m (eos_token_id cfg) (tm_requested manifest)
      (tm_effective manifest) (tm_prompt_token_ids manifest) 0 kv [] reason tokens kv' /\
    together n (fun i => tensor_steps (eos_token_id cfg) (tm_requested manifest) (tm_effective manifest)
        (tm_tensor_parallel manifest) i (m i) (N.to_nat (tm_effective manifest)) 0
        (mkTensorState (kv i) (with_observer (mkRank i n) (elapsed i))
           (token_tensor (tm_prompt_token_ids manifest)) 0 [] 0))
      (fun i => Ok (Some reason, st i)) /\
    generated_by n cfg (tm_effective manifest) reason tokens kv' st.
Proof.
  intros cfg Htp Hspec Hn Hsh Hhd Hvb Hwf Hload Hne Hvoc Heff Hcap. rewrite Htp.
  set (cap := N.to_nat (tm_capacity manifest)).
  assert (forall i, i < n -> typed_tensor_model cfg hd n cap i (tm_all_reduce manifest) (m i) /\
    cache_in_pass (shard_sizes cfg hd n) cap (N.to_nat (num_hidden_layers cfg)) 0 0 0 (kv i) /\
    (N.of_nat cap <= max_position_embeddings cfg)%N) as Hty
    by (intros i Hi; by eapply load_tensor_rank_typed, Hload).
  destruct (Hty 0 Hn) as (_ & _ & Hmax).
  destruct (registered_traffic _ _ Hspec) as [Hpos Hper]. fold cfg in Hpos, Hper.
  assert (tm_effective manifest <= 8192)%N as Hsmall by (unfold cap in Hmax; lia).
  assert (tm_effective manifest * per_pass cfg <= 2 ^ 44)%N as Hseq
    by (transitivity (8192 * 62)%N; [by apply N.mul_le_mono|done]).
  apply (steps_together n (tm_all_reduce manifest) cfg hd cap m (eos_token_id cfg) (tm_requested manifest)
    (tm_effective manifest) (registered_tensor_fits _ _ n hd cap Hspec Hsh Hhd Hn Hmax)
    ltac:(intros i Hi; by apply Hty) Hseq (N.to_nat (tm_effective manifest))
    (tm_prompt_token_ids manifest) 0 [] 0%N kv (fun i => with_observer (mkRank i n) (elapsed i))); try done.
  - unfold U64. lia.
  - unfold lenN. cbn [length]. lia.
  - lia.
  - unfold lenN, cap in *. lia.
  - intros i Hi. eapply cache_in_pass_start. by apply Hty.
Qed.

(** The runs of the ranks around their steps. *)
Lemma tensor_ranks_together n manifest spec peers resources elapsed plan m kv tokenizer reason st text bytes :
  0 < n -> 
  (forall i, i < n -> admit_tensor_rank (mkRank i n) manifest = Ok (plan i, spec)) ->
  (forall i, i < n -> load_tensor_rank (mkRank i n) manifest spec = Ok (m i, kv i)) ->
  (forall i, i < n -> load_tensor_tokenizer (mkRank i n) manifest = Ok (tokenizer i)) ->
  together n (fun i => tensor_steps (eos_token_id (config spec)) (tm_requested manifest) (tm_effective manifest)
      (tm_tensor_parallel manifest) i (m i) (N.to_nat (tm_effective manifest)) 0
      (mkTensorState (kv i) (with_observer (mkRank i n) (elapsed i))
         (token_tensor (tm_prompt_token_ids manifest)) 0 [] 0))
    (fun i => Ok (Some reason, st i)) ->
  (forall i, i < n -> tensor_completion (tokenizer i) (ts_generated (st i)) = Ok (text i)) ->
  (forall i, i < n -> used_bytes (ts_cache (st i)) (local_config (config spec) (tm_tensor_parallel manifest)) 4
     = Ok (bytes i)) ->
  together n (fun i => run_tensor_parallel_rank (mkRank i n) manifest (peers i) (resources i) (elapsed i)) (fun i =>
    let traces := traces (ts_native (st i)) in
    Ok (mkTensorReport 1 (tm_run_id manifest) (tm_request_id manifest) i (peers i) (plan i) (resources i) (bytes i) traces (sum64 (map sent_bytes traces))
      (sum64 (map received_bytes traces)) (ts_generated (st i)) (text i) reason (ts_forwards (st i)) true true)).
Proof.
  intros Hn Ha Hl Ht Hsteps Hc Hb. unfold run_tensor_parallel_rank, tcomm, barrier.
  apply (together_lift n _ _ _ _ Ha). apply (together_lift n _ _ _ _ Hl).
  apply (together_try n _ (fun _ => tt)); [by apply together_err, together_barrier, together_ret|].
  apply (together_lift n _ _ _ _ Ht). apply (together_try n _ _ _ _ Hsteps).
  apply (together_lift n _ (fun _ => reason)); [done|].
  apply (together_try n _ (fun _ => tt)); [by apply together_err, together_barrier, together_ret|].
  apply (together_lift n _ _ _ _ Hc).
  apply (together_lift n _ bytes); [intros i Hi; cbn [fst snd]; by rewrite Hb|]. by apply together_ret.
Qed.
End Run.

(** The ranks of a manifest, run together. *)
Lemma tensor_world {FO : FloatOps} {KE : Kernels} {KL : KernelLaws KE} {HO : HostSystem}
    {RT : Runtime} {SR : ShardedRuntime} {JC : JsonCodec TokenDecision}
    {JL : JsonCodecLaws JC token_decision_wf}
    n manifest spec budget peers resources elapsed file tokenizer m kv :
  let cfg := config spec in
  tm_schema_version manifest = 1%N -> tm_manifest_dtype manifest = PF32 ->
  tm_tensor_parallel manifest = N.of_nat n -> spec_of (tm_model manifest) = Some spec ->
  plan_spec (tm_model manifest) spec (N.of_nat n) (tm_capacity manifest) budget = Ok (tm_partition manifest) ->
  sharded_file (tm_checkpoint_path manifest) = Ok file -> registered_file spec file ->
  (forall i, i < n -> load_tensor_rank (mkRank i n) manifest spec = Ok (m i, kv i)) ->
  tokenizer_from_file (tm_tokenizer_path manifest) = Ok tokenizer ->
  (forall ids, exists text, tokenizer_decode tokenizer ids = Ok text) ->
  tm_prompt_token_ids manifest <> [] ->
  Forall (fun id => id < vocab_size cfg)%N (tm_prompt_token_ids manifest) ->
  (0 < tm_effective manifest)%N ->
  (lenN (tm_prompt_token_ids manifest) + tm_effective manifest <= tm_capacity manifest)%N ->
  exists reason tokens kv' text (reports : nat -> TensorParallelRankReport),
    sharded_greedy n (tm_all_reduce manifest) m (eos_token_id cfg) (tm_requested manifest)
      (tm_effective manifest) (tm_prompt_token_ids manifest) 0 kv [] reason tokens kv' /\
    (lenN tokens <= tm_effective manifest)%N /\ tokenizer_decode tokenizer tokens = Ok text /\
    together n (fun i => run_tensor_parallel_rank (mkRank i n) manifest (peers i) (resources i) (elapsed i))
      (fun i => Ok (reports i)) /\
    forall i, i < n -> tp_report_rank (reports i) = i /\ tp_success (reports i) = true /\
      tp_stop_reason (reports i) = reason /\ tp_generated_tokens (reports i) = tokens /\
      tp_completion (reports i) = (if Nat.eqb i 0 then text else "") /\
      (tp_decode_forward_count (reports i) + 1)%N = passes reason tokens /\
      lenN (tp_collectives (reports i)) = (passes reason tokens * per_pass cfg)%N.
Proof.
  intros cfg Hv Hdt Htp Hspec Hplan Hvb Hwf Hload Htk Hdec Hne Hvoc Heff Hcap.
  destruct (plan_spec_shape _ _ _ _ _ _ Hplan) as (Hn & _ & _ & Hsh & hd & Hhd). fold cfg in Hsh, Hhd.
  destruct (manifest_steps n manifest spec hd file m kv elapsed) as (reason & tokens & kv' & st & Hg & Htog & Hst & Ha & Hle);
    try done; [lia|].
  destruct (Hdec tokens) as [text Htext].
  set (answer := fun i : nat => if Nat.eqb i 0 then text else "").
  destruct (finite_choice (mkTensorPlan 0 (exact_shard_plan cfg 0 0 0) PF32 0 0 0 0 None NotEvaluated) n _
    (fun i Hi => admit_tensor_rank_Ok n manifest spec budget i Hv Hdt Htp Hspec Hplan Hi)) as [plan Hadm].
  assert (forall i, i < n -> exists bytes, used_bytes (ts_cache (st i))
    (local_config (config spec) (tm_tensor_parallel manifest)) 4 = Ok bytes) as Hb.
  { intros i Hi. unfold used_bytes. rewrite Htp. fold cfg. rewrite (local_head_dim_same cfg hd n Hhd Hsh ltac:(lia)). by eexists. }
  destruct (finite_choice 0%N n _ Hb) as [bytes Hbytes].
  exists reason, tokens, kv', text. eexists. split; [done|]. split; [done|]. split; [done|].
  split; [apply (tensor_ranks_together n manifest spec peers resources elapsed plan m kv
    (fun i => if Nat.eqb i 0 then Some tokenizer else None) reason st answer bytes); try done|].
  - lia.
  - intros i Hi. unfold load_tensor_tokenizer. cbn [global_rank]. destruct (Nat.eqb i 0); [by rewrite Htk|done].
  - intros i Hi. destruct (Hst i Hi) as [-> _]. unfold tensor_completion, answer.
    destruct (Nat.eqb i 0); [by rewrite Htext|done].
  - intros i Hi. destruct (Hst i Hi) as (Hg1 & _ & Hg3). destruct (Ha i Hi) as (_ & _ & Htr).
    cbn [tp_report_rank tp_success tp_stop_reason tp_generated_tokens tp_completion tp_decode_forward_count
      tp_collectives]. by split_and!.
Qed.

(** C4: tensor ranks generate together.  Take a manifest with the plan of a
    registered model, a checkpoint that stores the registered tensors, whole, with
    their shapes and that every rank can load, and a prompt of known tokens that
    fits the capacity with the output.  Then a world of ranks that run the manifest always terminates, under
    every interleaving, without deadlock or undelivered message, and every rank
    reports the same stop reason and the same tokens, those of a greedy run of
    passes in lock step, at most the effective number of them; one cached forward
    per pass after the first; [2 L + 2] traces per pass; and rank 0 the text. *)
Theorem tensor_ranks_generate {FO : FloatOps} {KE : Kernels} {KL : KernelLaws KE} {HO : HostSystem}
    {RT : Runtime} {SR : ShardedRuntime} {JC : JsonCodec TokenDecision}
    {JL : JsonCodecLaws JC token_decision_wf}
    n manifest spec budget peers resources elapsed file tokenizer m kv :
  let cfg := config spec in
  tm_schema_version manifest = 1%N -> tm_manifest_dtype manifest = PF32 ->
  tm_tensor_parallel manifest = N.of_nat n -> spec_of (tm_model manifest) = Some spec ->
  plan_spec (tm_model manifest) spec (N.of_nat n) (tm_capacity manifest) budget = Ok (tm_partition manifest) ->
  sharded_file (tm_checkpoint_path manifest) = Ok file -> registered_file spec file ->
  (forall i, i < n -> load_tensor_rank (mkRank i n) manifest spec = Ok (m i, kv i)) ->
  tokenizer_from_file (tm_tokenizer_path manifest) = Ok tokenizer ->
  (forall ids, exists text, tokenizer_decode tokenizer ids = Ok text) ->
  tm_prompt_token_ids manifest <> [] ->
  Forall (fun id => id < vocab_size cfg)%N (tm_prompt_token_ids manifest) ->
  (0 < tm_effective manifest)%N ->
  (lenN (tm_prompt_token_ids manifest) + tm_effective manifest <= tm_capacity manifest)%N ->
  exists reason tokens kv' text (reports : nat -> TensorParallelRankReport),
    sharded_greedy n (tm_all_reduce manifest) m (eos_token_id cfg) (tm_requested manifest)
      (tm_effective manifest) (tm_prompt_token_ids manifest) 0 kv [] reason tokens kv' /\
    (lenN tokens <= tm_effective manifest)%N /\ tokenizer_decode tokenizer tokens = Ok text /\
    always_returns
      (world_of n (fun i => run_tensor_parallel_rank (mkRank i n) manifest (peers i) (resources i) (elapsed i)))
      (map (fun i => Ok (reports i)) (seq 0 n)) /\
    forall i, i < n -> tp_report_rank (reports i) = i /\ tp_success (reports i) = true /\
      tp_stop_reason (reports i) = reason /\ tp_generated_tokens (reports i) = tokens /\
      tp_completion (reports i) = (if Nat.eqb i 0 then text else "") /\
      (tp_decode_forward_count (reports i) + 1)%N = passes reason tokens /\
      lenN (tp_collectives (reports i)) = (passes reason tokens * per_pass cfg)%N.
Proof.
  intros cfg Hv Hdt Htp Hspec Hplan Hvb Hwf Hload Htk Hdec Hne Hvoc Heff Hcap.
  destruct (tensor_world n manifest spec budget peers resources elapsed file tokenizer m kv)
    as (reason & tokens & kv' & text & reports & Hg & Hl & Ht & Htog & Hr); try done.
  exists reason, tokens, kv', text, reports. split_and!; try done. by apply together_returns.
Qed.
