(* ===== verification/TensorExamples.v ===== *)
(** * Runs of a tensor-parallel world

    Concrete inputs of [TensorWorld.tensor_pass_in_lockstep] and of
    [TensorProofs.tensor_ranks_generate]: shards of zeros, the flat kernels of
    [PipelineExamples.v], a byte codec of the decisions, a small model on two
    ranks and SmolLM2 on three. *)
From Stdlib Require Import Strings.Byte.
From S2P Require Import Prelude Rank Packet Mailbox World Tensor Collective CollectiveWorld Registry Memory.
From S2P Require Import Shard Protocol Cache Kernels Llama LlamaStage Report Artifacts Generation.
From S2P Require Import GenerationProofs Shapes Pipeline PipelineWorld PipelineProofs PipelineExamples.
From S2P Require Import Parallel TensorLlama TensorShapes TensorWorld TensorRun TensorProofs.

#[local] Existing Instances flat_floats flat_kernels flat_laws pair_host pair_runtime.

Definition zero_tensor (shape : list nat) : Tensor := mkTensor Cpu F32 shape (replicate (Tensor.product shape) 0%N).
(** A file of zeros, by the shapes of what it stores. *)
Definition zero_file (shape_of : string -> option (list nat)) : ShardedFile := fun name =>
  shape ← ok_or (shape_of name) (TensorError ("cannot find tensor " +:+ name)); Ok (zero_tensor shape).

Lemma zero_file_stores shape_of name shape : shape_of name = Some shape ->
  exists t, zero_file shape_of name = Ok t /\ has t shape /\ tensor_wf t.
Proof.
  intros H. unfold zero_file. rewrite H. eexists. split; [reflexivity|]. split; [done|]. apply length_replicate.
Qed.

(** ** A pass of a small model on two ranks *)
Definition duo_config : ModelConfig := mkConfig 4 4 4 2 2 2 "1e-5" "10000.0" 8 1 2 true.
Definition duo_shape (name : string) : option (list nat) :=
  snd <$> List.find (fun e => String.eqb e.1 name)
    ([("model.embed_tokens.weight", [4; 4]); ("model.norm.weight", [4])] ++ map fst (layer_requests duo_config 2 0 ++ layer_requests duo_config 2 1)).
Definition duo_file : ShardedFile := zero_file duo_shape.

Lemma duo_stores : stores duo_config 2 duo_file.
Proof.
  intros name shape sd [| |Htie|layer name' shape' sd' Hl Hin]; [by apply zero_file_stores..|done|].
  assert (layer = 0 \/ layer = 1) as [-> | ->] by (vm_compute in Hl; lia); cbn [layer_requests In] in Hin;
    decompose [or] Hin; try done; simplify_eq; apply zero_file_stores; vm_compute; reflexivity.
Qed.

Definition duo_native (i : nat) : NativeCollectives := with_observer (mkRank i 2) (fun _ => 0%N).

Lemma duo_fits cap : cap <= 8 -> tensor_fits 2 duo_config 2 cap.
Proof.
  intros Hcap. split; try done; [lia|].
  change (zh (shard_sizes duo_config 2 2)) with 4. unfold U64. lia.
Qed.

Lemma duo_shard i : i < 2 -> exists model,
  load_sharded (sharded_get duo_file) F32 duo_config (mkContext (N.of_nat i) 2 0 1 0 1) 8 RingAllReduce = Ok model.
Proof.
  intros Hi. destruct (load_sharded _ _ _ _ _ _) as [model|] eqn:E; [by exists model|].
  destruct i as [|[|i]]; [vm_compute in E; discriminate..|lia].
Qed.

Lemma duo_cache : exists kv, new_tensor_parallel duo_config 2 8 F32 Cpu = Ok kv.
Proof.
  destruct (new_tensor_parallel _ _ _ _ _) as [kv|] eqn:E; [by exists kv|]. vm_compute in E. discriminate.
Qed.

Lemma tensor_pass_in_lockstep_witness :
  exists model kv logits kv' nc',
    lockstep_pass 2 RingAllReduce model (token_tensor [1; 3]%N) 0 (fun _ => kv) logits kv' /\
    always_returns
      (world_of 2 (fun i => tensor_forward (model i) (token_tensor [1; 3]%N) 0 kv (duo_native i)))
      [Ok (logits, kv' 0, nc' 0); Ok (logits, kv' 1, nc' 1)] /\ aligned 2 6 nc'.
Proof.
  destruct (ok_choice 2 _ ltac:(lia) duo_shard) as [model Hmodel]. destruct duo_cache as [kv Hkv].
  assert (shardable duo_config 2) as Hsh by by split.
  destruct (tensor_pass_in_lockstep 2 RingAllReduce duo_config 2 8 model (token_tensor [1; 3]%N) 0 2 (fun _ => kv) 0
    duo_native) as (logits & kv' & nc' & H1 & H2 & _ & _ & H3); try done.
  - by apply duo_fits.
  - intros i Hi. apply (load_from_typed (sharded_weights (sharded_get duo_file) (mkContext (N.of_nat i) 2 0 1 0 1))); try done.
    + exact (sharded_source duo_config 2 2 i duo_file eq_refl Hsh Hi duo_stores).
    + lia.
    + by apply Hmodel.
  - intros i _. eapply cache_in_pass_start. by apply (new_tensor_parallel_typed duo_config 2 2 eq_refl Hsh ltac:(lia)).
  - repeat constructor; done.
  - lia.
  - exists model, kv, logits, kv', nc'. split; [exact H1|]. split; [exact H2|exact H3].
Defined.

(** ** A codec of the decisions *)
Definition flag_byte (b : bool) : byte := if b then x01 else x00.
Definition byte_flag (b : byte) : bool := match b with x01 => true | _ => false end.
Definition reason_byte (r : option StopReason) : byte :=
  match r with None => x00 | Some Eos => x01 | Some MaxNewTokens => x02 | Some ContextLimit => x03 end.
Definition byte_reason (b : byte) : option StopReason :=
  match b with x01 => Some Eos | x02 => Some MaxNewTokens | x03 => Some ContextLimit | _ => None end.

#[local] Instance decision_codec : JsonCodec TokenDecision :=
  {| to_vec d := Ok (flag_byte (td_emit d) :: flag_byte (td_continue d) :: reason_byte (td_stop_reason d)
       :: to_le 8 (td_step d) ++ to_le 4 (td_token d));
     from_slice bytes := match bytes with
       | e :: c :: r :: l => Ok (mkDecision (of_le (firstn 8 l)) (of_le (drop 8 l)) (byte_flag e) (byte_flag c) (byte_reason r))
       | _ => Err "unexpected end" end |}.

#[local] Instance decision_codec_laws : JsonCodecLaws decision_codec token_decision_wf.
Proof.
  split. intros [step token emit continue reason] [Hs Ht]. eexists. split; [done|].
  cbn [from_slice decision_codec td_step td_token td_emit td_continue td_stop_reason] in *.
  rewrite take_app_length', drop_app_length' by (by rewrite length_to_le). rewrite !of_to_le_small by done.
  split; [by destruct emit, continue, reason as [[]|]|].
  unfold lenN. cbn [length]. rewrite length_app, !length_to_le. done.
Qed.

(** ** SmolLM2 on three ranks *)
Definition smol_shape (name : string) : option (list nat) :=
  match expected_tensor_shapes SMOLLM2 with Ok table => map N.to_nat <$> table !! name | Err _ => None end.
Definition smol_file : ShardedFile := zero_file smol_shape.

Lemma smol_registered : registered_file SMOLLM2 smol_file.
Proof.
  intros expected name shape He Hn. apply zero_file_stores. unfold smol_shape. by rewrite He, Hn.
Qed.
Lemma smol_stores : stores (config SMOLLM2) 64 smol_file.
Proof. exact (registered_stores SmolLm2_135MInstruct SMOLLM2 64 smol_file eq_refl eq_refl smol_registered). Qed.

#[local] Instance trio_shards : ShardedRuntime := {| sharded_file _ := Ok smol_file |}.

Definition trio_partition : TensorParallelPartition :=
  match plan_spec SmolLm2_135MInstruct SMOLLM2 3 2 None with
  | Ok p => p
  | Err _ => mkTensorPartition SmolLm2_135MInstruct 0 [] 0 0 0
  end.
Definition trio_manifest : TensorParallelManifest :=
  mkTensorManifest _ 1 "run" "request" SmolLm2_135MInstruct PF32 3 CentralizedAllReduce [5]%N 1 1 2
    "model.safetensors" "tokenizer.json" trio_partition 0 0.
Definition trio_resources (i : nat) : ResourceSnapshot := mkResources None None None None None.

Lemma trio_model i : i < 3 -> exists model,
  load_sharded (sharded_get smol_file) F32 (config SMOLLM2) (mkContext (N.of_nat i) 3 0 1 0 1) 2 CentralizedAllReduce = Ok model.
Proof.
  intros Hi. destruct smol_fits as (Hf & Hsh & Hd).
  destruct (rotary_loads SMOLLM2 64 eq_refl 2 F32 eq_refl) as [rope Hrope].
  eapply (load_from_total (sharded_weights (sharded_get smol_file) (mkContext (N.of_nat i) 3 0 1 0 1)) (config SMOLLM2) 64 3 i
    CentralizedAllReduce) with (rope := rope); try done.
  - exact (sharded_source (config SMOLLM2) 64 3 i smol_file Hd Hsh Hi smol_stores).
  - lia.
  - intros name shape sd Hreq.
    destruct (sharded_part (config SMOLLM2) 64 3 i smol_file name shape sd Hd Hsh Hi smol_stores Hreq) as (t & Ht & _).
    by exists t.
  - apply (plan_tensor_shard_exact (config SMOLLM2) 3 64 (N.of_nat i)); [done..|lia].
  - destruct i as [|[|[|i]]]; [reflexivity..|lia].
  - destruct i as [|[|[|i]]]; [vm_compute; discriminate..|lia].
Qed.

Lemma trio_cache : exists kv, new_tensor_parallel (config SMOLLM2) 3 2 F32 Cpu = Ok kv.
Proof.
  destruct (new_tensor_parallel _ _ _ _ _) as [kv|] eqn:E; [by exists kv|]. vm_compute in E. discriminate.
Qed.

(** A rank loads the zeros and its cache. *)
Lemma trio_loads (model : nat -> TensorParallelLlama) kv i :
  (forall i, i < 3 ->
     load_sharded (sharded_get smol_file) F32 (config SMOLLM2) (mkContext (N.of_nat i) 3 0 1 0 1) 2 CentralizedAllReduce
     = Ok (model i)) ->
  new_tensor_parallel (config SMOLLM2) 3 2 F32 Cpu = Ok kv -> i < 3 ->
  load_tensor_rank (mkRank i 3) trio_manifest SMOLLM2 = Ok (model i, kv).
Proof.
  intros Hm Hk Hi. unfold load_tensor_rank.
  change (tcandle (sharded_var_builder (tm_checkpoint_path trio_manifest)))
    with (Ok (sharded_get smol_file) : tresult ShardedVarBuilder). rewrite Ok_bind.
  cbn [trio_manifest tm_tensor_parallel tm_all_reduce tm_capacity global_rank].
  assert (N.of_nat i < 3)%N as Hlt by lia.
  rewrite (proj2 (tensor_parallel_Ok (N.of_nat i) 3 _) (conj Hlt eq_refl)). cbn [truntime map_err].
  rewrite Ok_bind. change (N.to_nat 2) with 2. rewrite (Hm i Hi). cbn [truntime map_err]. by rewrite Ok_bind, Hk.
Qed.

Lemma tensor_ranks_generate_witness :
  exists reason tokens (reports : nat -> TensorParallelRankReport),
    always_returns
      (world_of 3 (fun i => run_tensor_parallel_rank (mkRank i 3) trio_manifest [] (trio_resources i) (fun _ => 0%N)))
      [Ok (reports 0); Ok (reports 1); Ok (reports 2)] /\
    tp_stop_reason (reports 2) = reason /\ tp_generated_tokens (reports 1) = tokens /\
    tp_completion (reports 0) = "text" /\ tp_completion (reports 1) = "".
Proof.
  destruct (ok_choice 3 _ ltac:(lia) trio_model) as [model Hmodel]. destruct trio_cache as [kv Hkv].
  destruct (tensor_ranks_generate 3 trio_manifest SMOLLM2 None (fun _ => []) trio_resources (fun _ _ => 0%N) smol_file
    pair_tokenizer model (fun _ => kv)) as (reason & tokens & kv' & text & reports & _ & _ & Ht & Hret & Hrep); try done.
  - exact smol_registered.
  - intros i Hi. by apply (trio_loads model kv).
  - intros ids. by eexists.
  - constructor; [|constructor]. vm_compute. reflexivity.
  - cbn in Ht. injection Ht as <-. exists reason, tokens, reports. split; [exact Hret|].
    destruct (Hrep 0 ltac:(lia)) as (_ & _ & _ & _ & H0 & _). destruct (Hrep 1 ltac:(lia)) as (_ & _ & _ & H1 & H1' & _).
    destruct (Hrep 2 ltac:(lia)) as (_ & _ & H2 & _). split; [exact H2|]. split; [exact H1|]. split; [exact H0|exact H1'].
Defined.
