(* ===== verification/Text.v ===== *)
(** * Text of the command line

    What [crates/cli/src/launch.rs] uses of Rust's [str]: integer parsing,
    splitting and trimming of strings, which are byte sequences in UTF-8. *)
From Stdlib Require Import Strings.Ascii.
From S2P Require Import Prelude.

Local Open Scope N_scope.

(** ** Reading numbers *)

(** [str::parse::<u64>] (and [usize]): an optional plus sign, then digits. *)
Definition parse_u64 (s : string) : option N :=
  let digits := match s with String "+"%char t => t | _ => s end in
  match digits with
  | EmptyString => None
  | _ => if all_digits digits && (decimal digits <? U64) then Some (decimal digits) else None
  end.

(** [str::parse::<i64>]. *)
Definition parse_i64 (s : string) : option Z :=
  let magnitude t bound :=
    match t with
    | EmptyString => None
    | _ => if all_digits t && (decimal t <? bound) then Some (decimal t) else None
    end in
  match s with
  | String "-"%char t => (fun n => (- Z.of_N n)%Z) <$> magnitude t (2 ^ 63 + 1)
  | String "+"%char t => Z.of_N <$> magnitude t (2 ^ 63)
  | _ => Z.of_N <$> magnitude s (2 ^ 63)
  end.

(** [str::split] by one character: never empty. *)
Fixpoint split_on (c : Ascii.ascii) (s : string) : list string :=
  match s with
  | EmptyString => [EmptyString]
  | String a t =>
      if Ascii.eqb a c then EmptyString :: split_on c t
      else match split_on c t with h :: r => String a h :: r | [] => [] end
  end.

(** [str::lines]: a line ends with a line feed, maybe after a carriage return. *)
Fixpoint strip_cr (s : string) : string :=
  match s with
  | EmptyString => EmptyString
  | String "013"%char EmptyString => EmptyString
  | String a t => String a (strip_cr t)
  end.
Fixpoint line_parts (parts : list string) : list string :=
  match parts with
  | [] => []
  | [rest] => if String.eqb rest "" then [] else [rest]
  | part :: parts => strip_cr part :: line_parts parts
  end.
Definition lines (s : string) : list string := line_parts (split_on "010"%char s).

(** [str::split_whitespace]. *)
Fixpoint take_word (s : string) : string * string :=
  match s with
  | EmptyString => (EmptyString, EmptyString)
  | String c t =>
      if String.eqb (trim_start s) s
      then let (w, r) := take_word t in (String c w, r) else (EmptyString, s)
  end.
Fixpoint words_upto (fuel : nat) (s : string) : list string :=
  match fuel, trim_start s with
  | O, _ | _, EmptyString => []
  | S fuel, s => let (w, r) := take_word s in w :: words_upto fuel r
  end.
Definition split_whitespace (s : string) : list string := words_upto (String.length s) s.

(** [{n:03}]. *)
Fixpoint zeros (n : nat) : string := match n with O => EmptyString | S n => String "0"%char (zeros n) end.
Definition pad3 (n : N) : string := let s := pretty n in zeros (3 - String.length s) +:+ s.

(** [str::trim_end_matches('0')]. *)
Fixpoint trim_end_zeros (s : string) : string :=
  match s with
  | EmptyString => EmptyString
  | String c t =>
      match trim_end_zeros t with
      | EmptyString => if Ascii.eqb c "0"%char then EmptyString else String c EmptyString
      | t' => String c t'
      end
  end.

(** [str::parse::<i32>]. *)
Definition parse_i32 (s : string) : option Z :=
  n ← parse_i64 s; if ((-2147483648 <=? n) && (n <=? 2147483647))%Z then Some n else None.

(** ** UTF-8 *)

(** [String::from_utf8_lossy]: a longest invalid prefix of a character becomes
    one replacement character. *)
Definition continuation : Ascii.ascii -> bool := byte_between 128 191.
Definition second_of_three (a b : Ascii.ascii) : bool :=
  if byte_between 224 224 a then byte_between 160 191 b
  else if byte_between 237 237 a then byte_between 128 159 b else continuation b.
Definition second_of_four (a b : Ascii.ascii) : bool :=
  if byte_between 240 240 a then byte_between 144 191 b
  else if byte_between 244 244 a then byte_between 128 143 b else continuation b.
Definition replaced (rest : string) : string :=
  String (Ascii.ascii_of_N 239) (String (Ascii.ascii_of_N 191) (String (Ascii.ascii_of_N 189) rest)).
Fixpoint from_utf8_lossy (s : string) : string :=
  match s with
  | EmptyString => EmptyString
  | String a t =>
      if byte_between 0 127 a then String a (from_utf8_lossy t) else
      match t with
      | EmptyString => replaced EmptyString
      | String b u =>
          if byte_between 194 223 a then
            if continuation b then String a (String b (from_utf8_lossy u)) else replaced (from_utf8_lossy t)
          else if byte_between 224 239 a then
            if second_of_three a b then
              match u with
              | EmptyString => replaced EmptyString
              | String c v =>
                  if continuation c then String a (String b (String c (from_utf8_lossy v)))
                  else replaced (from_utf8_lossy u)
              end
            else replaced (from_utf8_lossy t)
          else if byte_between 240 244 a then
            if second_of_four a b then
              match u with
              | EmptyString => replaced EmptyString
              | String c v =>
                  if continuation c then
                    match v with
                    | EmptyString => replaced EmptyString
                    | String d w =>
                        if continuation d
                        then String a (String b (String c (String d (from_utf8_lossy w))))
                        else replaced (from_utf8_lossy v)
                    end
                  else replaced (from_utf8_lossy u)
              end
            else replaced (from_utf8_lossy t)
          else replaced (from_utf8_lossy t)
      end
  end.

(** [String::from_utf8]: nothing is replaced. *)
Definition from_utf8 (s : string) : option string :=
  if String.eqb (from_utf8_lossy s) s then Some s else None.

(** A valid text, an overlong form, a cut character, a lone continuation, a
    surrogate. *)
Definition text_of (l : list N) : string := fold_right (fun n s => String (Ascii.ascii_of_N n) s) EmptyString l.
Example utf8_examples :
  map (fun l => match from_utf8 (text_of l) with Some _ => true | None => false end)
    [[97; 195; 169; 226; 130; 172; 240; 159; 152; 128]; [192; 175]; [226; 130]; [128]; [237; 160; 128]]
  = [true; false; false; false; false].
Proof. vm_compute. reflexivity. Qed.
Example lossy_example :
  from_utf8_lossy (text_of [97; 240; 159; 97; 255]) = text_of [97; 239; 191; 189; 97; 239; 191; 189].
Proof. vm_compute. reflexivity. Qed.

(** ** Strings whose bytes satisfy a test *)
Fixpoint all_bytes (p : Ascii.ascii -> bool) (s : string) : bool :=
  match s with EmptyString => true | String c s => p c && all_bytes p s end.

Lemma all_bytes_app p a b : all_bytes p (a +:+ b) = all_bytes p a && all_bytes p b.
Proof.
  induction a as [|c a IH]; [done|]. rewrite str_cons_app. cbn [all_bytes]. by rewrite IH, andb_assoc.
Qed.
Lemma all_digits_bytes s : all_digits s = all_bytes is_digit s.
Proof. induction s as [|c s IH]; [done|]. cbn. by rewrite IH. Qed.
Lemma all_bytes_impl (p q : Ascii.ascii -> bool) s :
  (forall c, p c = true -> q c = true) -> all_bytes p s = true -> all_bytes q s = true.
Proof.
  intros H. induction s as [|c s IH]; [done|]. cbn. intros [? ?]%andb_true_iff.
  by rewrite H, IH.
Qed.
#[export] Hint Rewrite all_bytes_app : dlir.

(** Printable ASCII characters: no white space begins with one. *)
Definition printable (c : Ascii.ascii) : bool := byte_between 33 126 c.

Lemma between_disjoint lo hi lo' hi' c :
  byte_between lo hi c = true -> (hi < lo' \/ hi' < lo) -> byte_between lo' hi' c = false.
Proof.
  unfold byte_between. intros. bool_prop. apply andb_false_iff.
  destruct (N.leb_spec lo' (Ascii.N_of_ascii c)), (N.leb_spec (Ascii.N_of_ascii c) hi'); auto; lia.
Qed.

Lemma digit_printable c : is_digit c = true -> printable c = true.
Proof. unfold is_digit, printable, byte_between. intros. bool_prop. apply andb_true_iff. rewrite !N.leb_le. lia. Qed.

Lemma trim_start_printable c s : printable c = true -> trim_start (String c s) = String c s.
Proof.
  intros Hc. unfold printable in Hc. cbn [trim_start].
  assert (forall lo hi, hi < 33 \/ 126 < lo -> byte_between lo hi c = false) as E.
  { intros lo hi H. apply (between_disjoint 33 126); [done|lia]. }
  rewrite !E by lia. cbn. by destruct s as [|b [|c' s]].
Qed.
Lemma trim_end_printable s : all_bytes printable s = true -> trim_end s = s.
Proof.
  induction s as [|c s IH]; [done|]. cbn [all_bytes]. intros [Hc Hs]%andb_true_iff. cbn [trim_end].
  unfold blank. rewrite trim_start_printable by done. by rewrite IH.
Qed.
Lemma trim_printable s : all_bytes printable s = true -> trim s = s.
Proof.
  intros H. unfold trim. destruct s as [|c s]; [done|]. rewrite trim_start_printable.
  - by apply trim_end_printable.
  - cbn in H. by apply andb_true_iff in H as [? _].
Qed.

(** ** Numbers *)
Lemma digits_no_sign c s : all_digits (String c s) = true ->
  c <> "+"%char /\ c <> "-"%char.
Proof. cbn. intros [H _]%andb_true_iff. split; intros ->; by vm_compute in H. Qed.

Lemma parse_u64_digits s :
  all_digits s = true -> s <> "" -> decimal s < U64 -> parse_u64 s = Some (decimal s).
Proof.
  intros Hd Hne Hlt. destruct s as [|c s]; [done|]. destruct (digits_no_sign c s Hd) as [Hp Hm].
  unfold parse_u64.
  assert (match String c s with String "+" t => t | _ => String c s end = String c s) as ->.
  { destruct c as [[] [] [] [] [] [] [] []]; done. }
  apply N.ltb_lt in Hlt. by rewrite Hd, Hlt.
Qed.

Lemma parse_u64_unsigned s n :
  match s with String "+" _ => False | _ => True end ->
  parse_u64 s = Some n <-> all_digits s = true /\ s <> "" /\ decimal s = n /\ n < U64.
Proof.
  intros Hs. split.
  - unfold parse_u64.
    assert (match s with String "+" t => t | _ => s end = s) as ->.
    { destruct s as [|[[] [] [] [] [] [] [] []] s]; done. }
    destruct s as [|c s]; [done|]. destruct (all_digits _); [|done].
    destruct (N.ltb_spec (decimal (String c s)) U64); [|done]. intros [= <-]. done.
  - intros (? & ? & <- & ?). by apply parse_u64_digits.
Qed.

Lemma parse_u64_bound s n : parse_u64 s = Some n -> n < U64.
Proof.
  unfold parse_u64. generalize (match s with String "+" t => t | _ => s end). intros d.
  destruct d as [|c d]; [done|]. destruct (all_digits _); [|done].
  destruct (N.ltb_spec (decimal (String c d)) U64); [|done]. by intros [= <-].
Qed.

Lemma parse_u64_pretty (n : N) : n < U64 -> parse_u64 (pretty n) = Some n.
Proof.
  intros Hn. destruct (pretty_digits n) as (Hd & Hv & Hne).
  rewrite parse_u64_digits; [by f_equal|done..|lia].
Qed.

Lemma parse_i64_pretty (n : N) : n < 2 ^ 63 -> parse_i64 (pretty n) = Some (Z.of_N n).
Proof.
  intros Hn. destruct (pretty_digits n) as (Hd & Hv & Hne).
  destruct (pretty n) as [|c s]; [done|]. destruct (digits_no_sign c s Hd) as [Hp Hm].
  unfold parse_i64. rewrite Hd, Hv. apply N.ltb_lt in Hn. rewrite Hn.
  destruct c as [[] [] [] [] [] [] [] []]; done.
Qed.

(** ** Splitting *)
Lemma split_on_none c s : all_bytes (fun a => negb (Ascii.eqb a c)) s = true -> split_on c s = [s].
Proof.
  induction s as [|a s IH]; [done|]. cbn. destruct (Ascii.eqb a c); [done|]. cbn. intros H. by rewrite IH.
Qed.
Lemma split_on_app c a b :
  all_bytes (fun a => negb (Ascii.eqb a c)) a = true ->
  split_on c (a +:+ String c b) = a :: split_on c b.
Proof.
  induction a as [|x a IH]; intros H; [by rewrite str_nil_app; cbn [split_on]; rewrite Ascii.eqb_refl|].
  rewrite str_cons_app. cbn [split_on all_bytes] in *. destruct (Ascii.eqb x c); [done|]. by rewrite IH.
Qed.

(** Every string is one piece, or a piece, the separator and the rest. *)
Lemma split_on_cases c s :
  exists h, all_bytes (fun a => negb (Ascii.eqb a c)) h = true /\
    ((s = h /\ split_on c s = [h]) \/
     (exists t, s = h +:+ String c t /\ split_on c s = h :: split_on c t)).
Proof.
  induction s as [|a s IH]; [exists ""; eauto|]. cbn [split_on].
  destruct (Ascii.eqb_spec a c) as [->|Hne].
  - exists "". split; [done|]. right. by exists s.
  - destruct IH as (h & Hh & IH). exists (String a h). split.
    { cbn [all_bytes]. apply Ascii.eqb_neq in Hne. by rewrite Hne, Hh. }
    destruct IH as [[-> ->]|(t & -> & ->)]; [by left|]. right. by exists t.
Qed.

Lemma printable_word s : all_bytes printable s = true -> take_word s = (s, "").
Proof.
  induction s as [|c s IH]; [done|]. cbn [all_bytes]. intros [Hc Hs]%andb_true_iff. cbn [take_word].
  by rewrite trim_start_printable, String.eqb_refl, IH.
Qed.
Lemma trim_start_length s : (String.length (trim_start s) <= String.length s)%nat.
Proof.
  revert s. fix IH 1. intros [|a s]; [done|]. cbn [trim_start].
  destruct (_ || _); [cbn; specialize (IH s); lia|]. destruct s as [|b s]; [done|].
  destruct (_ && _); [cbn; specialize (IH s); lia|]. destruct s as [|c s]; [done|].
  destruct (_ || _); [cbn; specialize (IH s); lia|]. done.
Qed.
Lemma trim_start_space s : trim_start (String " " s) = trim_start s.
Proof. done. Qed.
Lemma take_word_space t : take_word (String " " t) = ("", String " " t).
Proof.
  cbn [take_word]. rewrite trim_start_space.
  destruct (String.eqb_spec (trim_start t) (String " " t)) as [E|_]; [|done].
  pose proof (trim_start_length t). rewrite E in *. cbn in *. lia.
Qed.
Lemma printable_word_space s t : all_bytes printable s = true ->
  take_word (s +:+ String " " t) = (s, String " " t).
Proof.
  induction s as [|c s IH]; [intros _; apply take_word_space|].
  cbn [all_bytes]. intros [Hc Hs]%andb_true_iff. rewrite str_cons_app. cbn [take_word].
  by rewrite trim_start_printable, String.eqb_refl, IH.
Qed.

(** Two words and a space. *)
Lemma split_two_words a b :
  a <> "" -> b <> "" -> all_bytes printable a = true -> all_bytes printable b = true ->
  split_whitespace (a +:+ String " " b) = [a; b].
Proof.
  intros Ha Hb Hpa Hpb. destruct a as [|x a]; [done|]. destruct b as [|y b]; [done|].
  pose proof Hpa as [Hx _]%andb_true_iff. pose proof Hpb as [Hy _]%andb_true_iff.
  unfold split_whitespace. rewrite str_cons_app. cbn [String.length].
  assert (exists n, String.length (a +:+ String " " (String y b)) = S n) as [n ->].
  { destruct a; [by exists (String.length (String y b))|]. rewrite str_cons_app. cbn. eauto. }
  cbn [words_upto]. rewrite trim_start_printable by done.
  rewrite <- str_cons_app, printable_word_space by done.
  rewrite trim_start_space, trim_start_printable, printable_word by done.
  by destruct n.
Qed.

(** Trimming drops the line end of a file. *)
Lemma trim_line s : s <> "" -> all_bytes printable s = true -> trim (s +:+ String "010" "") = s.
Proof.
  intros Hne H. destruct s as [|c s]; [done|]. pose proof H as [Hc _]%andb_true_iff.
  unfold trim. rewrite str_cons_app, trim_start_printable, <- str_cons_app by done.
  clear Hne Hc. revert H. generalize (String c s). clear c s. intros s.
  induction s as [|c s IH]; [done|]. cbn [all_bytes]. intros [Hc Hs]%andb_true_iff.
  rewrite str_cons_app. cbn [trim_end]. unfold blank. by rewrite trim_start_printable, IH.
Qed.

Lemma decimal_bound s : all_digits s = true -> decimal s < 10 ^ N.of_nat (String.length s).
Proof.
  assert (forall acc s, all_digits s = true ->
    decimal_from acc s < (acc + 1) * 10 ^ N.of_nat (String.length s)) as H.
  { intros acc t. revert acc. induction t as [|c t IH]; intros acc; [intros _; cbn; lia|].
    cbn [all_digits decimal_from String.length]. intros [Hc Ht]%andb_true_iff.
    specialize (IH (10 * acc + (Ascii.N_of_ascii c - 48)) Ht).
    unfold is_digit, byte_between in Hc. bool_prop.
    rewrite Nat2N.inj_succ, N.pow_succ_r by lia. nia. }
  intros Hs. specialize (H 0 s Hs). unfold decimal. lia.
Qed.

Lemma trim_end_zeros_app a b : trim_end_zeros b <> "" -> trim_end_zeros (a +:+ b) = a +:+ trim_end_zeros b.
Proof.
  intros Hb. induction a as [|c a IH]; [done|]. rewrite str_cons_app. cbn [trim_end_zeros]. rewrite IH.
  destruct (a +:+ trim_end_zeros b) eqn:E; [|by rewrite str_cons_app, E].
  destruct a; [|done]. by rewrite str_nil_app in E.
Qed.

Lemma trim_end_app a t : all_bytes printable a = true -> trim_end (a +:+ t) = a +:+ trim_end t.
Proof.
  induction a as [|c a IH]; [done|]. cbn [all_bytes]. intros [Hc Ha]%andb_true_iff.
  rewrite !str_cons_app. cbn [trim_end]. unfold blank. by rewrite trim_start_printable, IH.
Qed.
Lemma trim_two_words a b :
  a <> "" -> b <> "" -> all_bytes printable a = true -> all_bytes printable b = true ->
  trim ((a +:+ String " " b) +:+ String "010" "") = a +:+ String " " b.
Proof.
  intros Ha Hb Hpa Hpb. unfold trim. rewrite str_app_assoc, str_cons_app.
  assert (trim_start (a +:+ String " " (b +:+ String "010" "")) = a +:+ String " " (b +:+ String "010" "")) as ->.
  { destruct a as [|c a]; [done|]. cbn in Hpa. apply andb_true_iff in Hpa as [Hc _].
    rewrite str_cons_app. by apply trim_start_printable. }
  rewrite trim_end_app by done. f_equal. cbn [trim_end].
  assert (blank (String " " (b +:+ String "010" "")) = false) as ->.
  { destruct b as [|c b]; [done|]. cbn in Hpb. apply andb_true_iff in Hpb as [Hc _].
    unfold blank. by rewrite trim_start_space, str_cons_app, trim_start_printable. }
  by rewrite trim_end_app, str_app_nil.
Qed.
