(* ===== verification/Launch.v ===== *)
(** * Resources and identities of a launch

    Models the resource side of [crates/cli/src/launch.rs]: the CPU amount of the
    command line and its text, the division of resources over ranks, the parsers
    of the cgroup files a rank reads, the comparison with what the launcher asked
    for, and the arguments of a rank's container.  Files are read through an
    argument that gives a path's contents. *)
From Stdlib Require Import Strings.Ascii.
From S2P Require Import Prelude Text Rank Registry Memory Partition Shard.

Local Open Scope N_scope.

(** ** CPU amounts *)

(** [struct CpuAmount]. *)
Record CpuAmount : Type := mkCpuAmount { millis : N }.

Definition cpu_positive : string := "CPU total must be a positive decimal".

(** [CpuAmount::from_str]. *)
Definition cpu_from_str (value : string) : result string CpuAmount :=
  let value := trim value in
  match value with
  | EmptyString | String "-"%char _ | String "+"%char _ => Err cpu_positive
  | _ =>
      match split_on "."%char value with
      | [] => Err cpu_positive
      | whole :: parts =>
          whole ← ok_or (parse_u64 whole) cpu_positive;
          let fraction := default EmptyString (head parts) in
          if (1 <? length parts)%nat || (3 <? String.length fraction)%nat || negb (all_digits fraction)
          then Err "CPU total accepts at most three decimal places" else
          fraction ← match fraction with
                     | EmptyString => Ok 0
                     | _ => n ← ok_or (parse_u64 fraction) cpu_positive;
                            Ok (mul64 n (10 ^ N.of_nat (3 - String.length fraction)))
                     end;
          millis ← ok_or (v ← checked_mul whole 1000; checked_add v fraction) "CPU total is too large";
          if millis =? 0 then Err "CPU total must be greater than zero" else Ok (mkCpuAmount millis)
      end
  end.

(** [format_cpu]; [docker_value] and [Display] are it. *)
Definition format_cpu (millis : N) : string :=
  let whole := millis / 1000 in
  let fraction := millis mod 1000 in
  if fraction =? 0 then pretty whole
  else trim_end_zeros (pretty whole +:+ "." +:+ pad3 fraction).
Definition docker_value (self : CpuAmount) : string := format_cpu (millis self).

(** ** Errors of the command line

    The messages of [anyhow] as constructors with their data. *)
Inductive LaunchError : Type :=
| NprocOutOfRange (world_size : nat)
| CpusExceedEngine (requested engine : N)
| MemoryExceedsEngine (requested engine : N)
| RankCpuTooSmall
| RankMemoryTooSmall
| NoCpuQuota
| NoMemoryMaximum
| CpuQuotaDiffers (actual requested : N)
| MemoryMaximumDiffers (actual requested : N)
| LimitsNotTogether
| InvalidRunId
| ZeroTimeout
| EmptyEngine
| EmptyImageName
| NoDockerfile (context : string)
| ImageBuildFailed
| DockerFailed (arguments : list string)
| DockerNotExecuted (arguments : list string)
| DockerInfoUnreadable
| NonUtf8ContainerId
| LaunchInterrupted
| TopologyFailed
| TensorVerificationFailed (rank : nat)
| LaunchCollectives (source : CollectivesError)
| LaunchRuntime (source : DlirError)
| LaunchPipeline (source : PipelineError)
| LaunchTensor (source : TensorParallelError)
| LaunchTokenizer (message : string)
| NotATerminal
| EmptyRequest
| OnlyF32
| PromptDoesNotFit (tokens context : N)
| PlacementFailed (rank required available : N)
| UnsupportedSchema (version : N)
| EmptyContainerId (rank : nat)
| HostIo (message : string)
| GenerationFailed
| BenchmarkBounds
| NoPayloadSize
| InvalidPayload (payload_bytes : N) (algorithm : string) (world_size : nat)
| BenchmarkFailed (failures : list string)
| BenchmarkIncorrect
| LaunchPanicked (message : string).
Abbreviation lresult := (result LaunchError).

(** ** Dividing the resources *)

Definition MIN_WORLD_SIZE : nat := 2.
Definition MAX_WORLD_SIZE : nat := 64.
Definition MIN_CPU_MILLIS : N := 100.
Definition MIB : N := 1024 * 1024.
Definition MIN_MEMORY_BYTES : N := 128 * 1024 * 1024.

(** [struct DockerEngineReport]. *)
Record DockerEngineReport : Type := mkEngine
  { server_version : string; operating_system : string; architecture : string;
    engine_cgroup_version : string; engine_cpu_millis : N; engine_memory_bytes : N }.

(** [struct DockerInfoJson], and what [docker_engine_info] makes of it
    ([saturating_mul]). *)
Record DockerInfoJson : Type := mkInfo
  { info_server_version : string; info_operating_system : string; info_architecture : string;
    info_cgroup_version : string; ncpu : N; mem_total : N }.
Definition engine_of_info (info : DockerInfoJson) : lresult DockerEngineReport :=
  if (ncpu info =? 0) || (mem_total info =? 0) then Err EmptyEngine else
  Ok (mkEngine (info_server_version info) (info_operating_system info) (info_architecture info)
        (info_cgroup_version info) (N.min (ncpu info * 1000) U64_MAX) (mem_total info)).

(** [struct ResourcePlan]. *)
Record ResourcePlan : Type := mkResourcePlan
  { requested_cpu_millis : N; requested_memory_bytes : N; per_rank_cpu_millis : N;
    per_rank_memory_bytes : N; allocated_cpu_millis : N; allocated_memory_bytes : N;
    unused_cpu_millis : N; unused_memory_bytes : N; engine_cpu_headroom_millis : N;
    engine_memory_headroom_bytes : N }.

(** [validate_world_size]. *)
Definition validate_world_size (world_size : nat) : lresult unit :=
  reject_if (negb ((MIN_WORLD_SIZE <=? world_size)%nat && (world_size <=? MAX_WORLD_SIZE)%nat))
    (NprocOutOfRange world_size).

(** [plan_resources]. *)
Definition plan_resources (world_size : nat) (total_cpus : CpuAmount) (total_memory : N)
  (engine : DockerEngineReport) : lresult ResourcePlan :=
  _ ← validate_world_size world_size;
  _ ← reject_if (engine_cpu_millis engine <? millis total_cpus)
        (CpusExceedEngine (millis total_cpus) (engine_cpu_millis engine));
  _ ← reject_if (engine_memory_bytes engine <? total_memory)
        (MemoryExceedsEngine total_memory (engine_memory_bytes engine));
  let world := N.of_nat world_size in
  let per_cpu := millis total_cpus / world in
  let per_memory := mul64 (total_memory / world / MIB) MIB in
  _ ← reject_if (per_cpu <? MIN_CPU_MILLIS) RankCpuTooSmall;
  _ ← reject_if (per_memory <? MIN_MEMORY_BYTES) RankMemoryTooSmall;
  let allocated_cpu := mul64 per_cpu world in
  let allocated_memory := mul64 per_memory world in
  Ok (mkResourcePlan (millis total_cpus) total_memory per_cpu per_memory allocated_cpu
        allocated_memory (sub64 (millis total_cpus) allocated_cpu)
        (sub64 total_memory allocated_memory) (sub64 (engine_cpu_millis engine) allocated_cpu)
        (sub64 (engine_memory_bytes engine) allocated_memory)).

(** ** What a rank observes *)

(** [struct ResourceObservation]. *)
Record ResourceObservation : Type := mkObservation
  { observed_cpu_millis : option N; observed_memory_limit : option N;
    observed_memory_current : option N; observed_cpuset_cpus : option string;
    observed_cpuset_count : option N; observed_cgroup_version : option string }.

Definition guard_opt {A} (c : bool) (o : option A) : option A := if c then o else None.

(** [parse_cpu_max]. *)
Definition parse_cpu_max (value : string) : option N :=
  match split_whitespace value with
  | quota :: period :: rest =>
      period ← parse_u64 period;
      if String.eqb quota "max" || (period =? 0) || negb (Nat.eqb (length rest) 0) then None else
      q ← parse_u64 quota; m ← checked_mul q 1000; Some (m / period)
  | _ => None
  end.

(** [parse_cpu_v1]. *)
Definition parse_cpu_v1 (quota period : string) : option N :=
  quota ← parse_i64 (trim quota);
  period ← parse_u64 (trim period);
  if (quota <? 0)%Z || (period =? 0) then None else
  m ← checked_mul (Z.to_N quota) 1000; Some (m / period).

(** [parse_memory_limit]. *)
Definition parse_memory_limit (value : string) : option N :=
  let value := trim value in
  if String.eqb value "max" then None else parse_u64 value.

(** [parse_cpuset_count]: the groups [a] and [a-b] of a comma-separated list. *)
Definition cpuset_group (group : string) : option N :=
  match split_on "-"%char (trim group) with
  | start :: bounds =>
      start ← parse_u64 start;
      end_ ← match bounds with [] => Some start | value :: _ => parse_u64 value end;
      if (1 <? length bounds)%nat || (end_ <? start) then None
      else Some (add64 (end_ - start) 1)
  | [] => None
  end.
Definition parse_cpuset_count (value : string) : option N :=
  if blank (trim value) then None else
  foldl (fun count group => count ← count; n ← cpuset_group group; checked_add count n)
    (Some 0) (split_on ","%char value).

Section Observe.
(** [fs::read_to_string(path).ok()]. *)
Variable read_to_string : string -> option string.

(** [read_optional]. *)
Definition read_optional (path : string) : option string := trim <$> read_to_string path.

(** [observe_cgroup_resources]. *)
Definition observe_cgroup_resources : ResourceObservation :=
  let v2_cpu := read_optional "/sys/fs/cgroup/cpu.max" in
  let v2_memory := read_optional "/sys/fs/cgroup/memory.max" in
  if bool_decide (is_Some v2_cpu) || bool_decide (is_Some v2_memory) then
    let cpuset := match read_optional "/sys/fs/cgroup/cpuset.cpus.effective" with
                  | Some s => Some s
                  | None => read_optional "/sys/fs/cgroup/cpuset.cpus"
                  end in
    mkObservation (v2_cpu ≫= parse_cpu_max) (v2_memory ≫= parse_memory_limit)
      (read_optional "/sys/fs/cgroup/memory.current" ≫= parse_memory_limit)
      cpuset (cpuset ≫= parse_cpuset_count) (Some "v2")
  else
    let quota := read_optional "/sys/fs/cgroup/cpu/cpu.cfs_quota_us" in
    let period := read_optional "/sys/fs/cgroup/cpu/cpu.cfs_period_us" in
    let memory := read_optional "/sys/fs/cgroup/memory/memory.limit_in_bytes" in
    let cpuset := read_optional "/sys/fs/cgroup/cpuset/cpuset.cpus" in
    let present := bool_decide (is_Some quota) || bool_decide (is_Some memory)
                   || bool_decide (is_Some cpuset) in
    mkObservation (quota ≫= fun quota => period ≫= parse_cpu_v1 quota) (memory ≫= parse_memory_limit)
      (read_optional "/sys/fs/cgroup/memory/memory.usage_in_bytes" ≫= parse_memory_limit)
      cpuset (cpuset ≫= parse_cpuset_count) (if present then Some "v1" else None).
End Observe.

(** [enum ResourceVerification]. *)
Inductive ResourceVerification : Type := Passed | NotVerified.

Definition abs_diff (a b : N) : N := N.max a b - N.min a b.

(** [verify_resources]. *)
Definition verify_resources (observed : ResourceObservation)
  (expected_cpu_millis expected_memory_bytes : option N) : lresult ResourceVerification :=
  match expected_cpu_millis, expected_memory_bytes with
  | None, None => Ok NotVerified
  | Some cpu, Some memory =>
      actual_cpu ← ok_or (observed_cpu_millis observed) NoCpuQuota;
      actual_memory ← ok_or (observed_memory_limit observed) NoMemoryMaximum;
      _ ← reject_if (1 <? abs_diff actual_cpu cpu) (CpuQuotaDiffers actual_cpu cpu);
      _ ← reject_if (negb (actual_memory =? memory)) (MemoryMaximumDiffers actual_memory memory);
      Ok Passed
  | _, _ => Err LimitsNotTogether
  end.

(** ** Names *)

(** [validate_run_id]. *)
Definition is_alphanumeric (c : Ascii.ascii) : bool :=
  byte_between 48 57 c || byte_between 65 90 c || byte_between 97 122 c.
Fixpoint all_bytes (p : Ascii.ascii -> bool) (s : string) : bool :=
  match s with EmptyString => true | String c s => p c && all_bytes p s end.
Definition validate_run_id (run_id : string) : lresult unit :=
  reject_if (String.eqb run_id EmptyString || (48 <? String.length run_id)%nat
             || negb (all_bytes (fun c => is_alphanumeric c || Ascii.eqb c "-"%char || Ascii.eqb c "_"%char) run_id))
    InvalidRunId.

(** The network of a run and the container of a rank. *)
Definition network_name (run_id : string) : string := "dlir-" +:+ run_id.
Definition container_name (run_id : string) (rank : nat) : string :=
  "dlir-" +:+ run_id +:+ "-rank-" +:+ pretty (N.of_nat rank).

Definition RUN_LABEL : string := "io.dlir.run_id".
Definition RENDEZVOUS_PORT : N := 29500.
Definition PEER_PORT : N := 29501.
Definition seconds (d : Duration) : string := pretty (d / 1000000000).

(** [container_arguments]. *)
Definition container_arguments (image network name run_id : string) (rank world_size : nat)
  (resources : ResourcePlan) (startup_timeout operation_timeout : Duration) : list string :=
  let rank_text := pretty (N.of_nat rank) in
  ["run"; "--detach"; "--name"; name; "--network"; network; "--network-alias";
   "rank-" +:+ rank_text; "--label"; RUN_LABEL +:+ "=" +:+ run_id;
   "--cpus"; format_cpu (per_rank_cpu_millis resources);
   "--memory"; pretty (per_rank_memory_bytes resources) +:+ "b";
   "--memory-swap"; pretty (per_rank_memory_bytes resources) +:+ "b";
   image; "rank"; "--rank"; rank_text; "--world-size"; pretty (N.of_nat world_size);
   "--run-id"; run_id; "--rendezvous-addr"; "rank-0:" +:+ pretty RENDEZVOUS_PORT;
   "--listen-addr"; "0.0.0.0:" +:+ pretty PEER_PORT;
   "--advertise-addr"; "rank-" +:+ rank_text +:+ ":" +:+ pretty PEER_PORT;
   "--startup-timeout-seconds"; seconds startup_timeout;
   "--operation-timeout-seconds"; seconds operation_timeout;
   "--expected-cpu-millis"; pretty (per_rank_cpu_millis resources);
   "--expected-memory-bytes"; pretty (per_rank_memory_bytes resources)]
  ++ (if Nat.eqb rank 0 then ["--rendezvous-bind-addr"; "0.0.0.0:" +:+ pretty RENDEZVOUS_PORT] else []).

(** ** Amounts and their text *)

(** The accepted amounts: digits, and up to three decimals after a point. *)
Definition cpu_decimal (value : string) (m : N) : Prop :=
  exists whole frac,
    all_digits whole = true /\ whole <> "" /\ all_digits frac = true /\ (String.length frac <= 3)%nat /\
    (trim value = whole /\ frac = "" \/ trim value = whole +:+ String "." frac) /\
    m = decimal whole * 1000 + decimal frac * 10 ^ N.of_nat (3 - String.length frac) /\ 0 < m < U64.

(** The two pieces of an amount, once they are separated. *)
Definition cpu_pieces (whole fraction : string) : result string CpuAmount :=
  whole ← ok_or (parse_u64 whole) cpu_positive;
  if (3 <? String.length fraction)%nat || negb (all_digits fraction)
  then Err "CPU total accepts at most three decimal places" else
  fraction ← match fraction with
             | EmptyString => Ok 0
             | _ => n ← ok_or (parse_u64 fraction) cpu_positive;
                    Ok (mul64 n (10 ^ N.of_nat (3 - String.length fraction)))
             end;
  millis ← ok_or (v ← checked_mul whole 1000; checked_add v fraction) "CPU total is too large";
  if millis =? 0 then Err "CPU total must be greater than zero" else Ok (mkCpuAmount millis).

Definition no_point : string -> bool := all_bytes (fun a => negb (Ascii.eqb a "."%char)).
Definition signed (s : string) : bool :=
  match s with String c _ => Ascii.eqb c "-"%char || Ascii.eqb c "+"%char | _ => true end.

Lemma cpu_from_str_pieces value :
  cpu_from_str value =
  if signed (trim value) then Err cpu_positive else
  match split_on "."%char (trim value) with
  | [] => Err cpu_positive
  | [whole] => cpu_pieces whole ""
  | [whole; fraction] => cpu_pieces whole fraction
  | whole :: _ => _ ← ok_or (parse_u64 whole) cpu_positive; Err "CPU total accepts at most three decimal places"
  end.
Proof.
  unfold cpu_from_str, cpu_pieces. destruct (trim value) as [|c t]; [done|].
  destruct (signed (String c t)) eqn:Hs.
  - cbn [signed] in Hs. apply orb_true_iff in Hs as [->%Ascii.eqb_eq| ->%Ascii.eqb_eq]; done.
  - assert (forall X : result string CpuAmount,
      match String c t with EmptyString | String "-" _ | String "+" _ => Err cpu_positive | _ => X end = X) as ->.
    { intros X. cbn [signed] in Hs. destruct c as [[] [] [] [] [] [] [] []]; done. }
    destruct (split_on "."%char (String c t)) as [|w [|f [|g l]]]; done.
Qed.

Lemma decimals_ok fraction :
  all_digits fraction = true -> (String.length fraction <= 3)%nat ->
  match fraction with
  | EmptyString => Ok 0
  | _ => n ← ok_or (parse_u64 fraction) cpu_positive;
         Ok (mul64 n (10 ^ N.of_nat (3 - String.length fraction)))
  end = Ok (decimal fraction * 10 ^ N.of_nat (3 - String.length fraction)) /\
  decimal fraction * 10 ^ N.of_nat (3 - String.length fraction) < 1000.
Proof.
  intros Hd Hl. pose proof (decimal_bound fraction Hd) as Hb.
  assert (decimal fraction * 10 ^ N.of_nat (3 - String.length fraction) < 1000) as Hlt.
  { replace 1000 with (10 ^ N.of_nat (String.length fraction) * 10 ^ N.of_nat (3 - String.length fraction)).
    - apply N.mul_lt_mono_pos_r; [|done]. apply N.neq_0_lt_0, N.pow_nonzero. done.
    - rewrite <- N.pow_add_r, <- Nat2N.inj_add, Nat.add_comm, Nat.sub_add by done. done. }
  split; [|done]. destruct fraction as [|c f]; [done|].
  assert (10 ^ N.of_nat (String.length (String c f)) <= 10 ^ N.of_nat 3) as Hp
    by (apply N.pow_le_mono_r; [done|]; lia).
  rewrite parse_u64_digits; [|done..|].
  - cbn [ok_or mbind result_bind]. rewrite mul64_small; [done|]. revert Hlt. unfold U64. lia.
  - revert Hb Hp. change (10 ^ N.of_nat 3) with 1000. unfold U64. lia.
Qed.

Lemma cpu_pieces_ok whole fraction m :
  match whole with String "+" _ => False | _ => True end ->
  cpu_pieces whole fraction = Ok (mkCpuAmount m) <->
  all_digits whole = true /\ whole <> "" /\ all_digits fraction = true /\ (String.length fraction <= 3)%nat /\
  m = decimal whole * 1000 + decimal fraction * 10 ^ N.of_nat (3 - String.length fraction) /\ 0 < m < U64.
Proof.
  intros Hp. unfold cpu_pieces. split.
  - intros H. apply bind_Ok in H as (w & Hw & H). apply ok_or_Ok in Hw.
    apply parse_u64_unsigned in Hw as (Hd & Hne & <- & _); [|done].
    destruct (Nat.ltb_spec 3 (String.length fraction)) as [|Hl]; [done|].
    destruct (all_digits fraction) eqn:Hf; [|done]. cbn [orb negb] in H.
    destruct (decimals_ok fraction Hf Hl) as [E _]. rewrite E in H. cbn [mbind result_bind] in H.
    apply bind_Ok in H as (v & Hv & H). apply ok_or_Ok, bind_Some in Hv as (w & Hw & Hv).
    apply checked_mul_Some in Hw as [-> _]. apply checked_add_Some in Hv as [-> Hv].
    revert H. set (total := _ + _) in *. destruct (N.eqb_spec total 0); [done|]. intros [= <-].
    split_and!; done || lia.
  - intros (Hd & Hne & Hf & Hl & -> & Hm). rewrite (parse_u64_digits whole); [|done..|nia].
    cbn [ok_or mbind result_bind].
    destruct (Nat.ltb_spec 3 (String.length fraction)) as [|_]; [lia|]. rewrite Hf. cbn [orb negb].
    destruct (decimals_ok fraction Hf Hl) as [-> _]. cbn [mbind result_bind].
    assert (checked_mul (decimal whole) 1000 = Some (decimal whole * 1000)) as ->
      by (apply checked_mul_Some; split; [done|nia]).
    cbn [mbind option_bind].
    match goal with |- context [checked_add ?a ?b] =>
      assert (checked_add a b = Some (a + b)) as -> by (apply checked_add_Some; split; [done|apply Hm]) end.
    cbn [ok_or mbind result_bind]. destruct (_ =? 0) eqn:E; [apply N.eqb_eq in E; lia|done].
Qed.

Lemma point_pieces value w f :
  trim value = w +:+ String "." f -> all_digits w = true -> all_digits f = true ->
  split_on "."%char (trim value) = [w; f].
Proof.
  assert (forall s, all_digits s = true -> no_point s = true) as Hn.
  { intros s. rewrite all_digits_bytes. apply all_bytes_impl. intros c Hc.
    destruct (Ascii.eqb_spec c "."%char) as [->|]; [by vm_compute in Hc|done]. }
  intros -> Hw Hf. rewrite split_on_app by (by apply Hn). by rewrite split_on_none by (by apply Hn).
Qed.

Lemma digits_unsigned s t : all_digits s = true -> s <> "" -> signed (s +:+ t) = false.
Proof.
  intros Hd Hne. destruct s as [|c s]; [done|]. destruct (digits_no_sign c s Hd).
  cbn [signed]. rewrite str_cons_app. apply orb_false_iff. by rewrite !Ascii.eqb_neq.
Qed.

Lemma cpu_from_str_accepts value m : cpu_from_str value = Ok (mkCpuAmount m) <-> cpu_decimal value m.
Proof.
  rewrite cpu_from_str_pieces. split.
  - destruct (signed (trim value)) eqn:Hs; [done|].
    destruct (split_on_cases "."%char (trim value)) as (h & _ & Hcases).
    assert (match h with String "+" _ => False | _ => True end) as Hplus.
    { destruct Hcases as [[E _]|(t & E & _)]; rewrite E in Hs; destruct h as [|c h]; try done;
        cbn in Hs; destruct c as [[] [] [] [] [] [] [] []]; done. }
    destruct Hcases as [[E ->]|(t & E & ->)].
    + intros (Hd & Hne & Hf & Hl & Hm)%cpu_pieces_ok; [|done]. exists h, "". by eauto 10.
    + destruct (split_on_cases "."%char t) as (f & _ & [[-> ->]|(g & _ & ->)]).
      * intros (Hd & Hne & Hf & Hl & Hm)%cpu_pieces_ok; [|done]. exists h, f. by eauto 10.
      * destruct (split_on_cases "."%char g) as (? & _ & [[_ ->]|(? & _ & ->)]); by destruct (parse_u64 h).
  - intros (w & f & Hd & Hne & Hf & Hl & Ht & Hm).
    assert (match w with String "+" _ => False | _ => True end) as Hplus.
    { destruct w as [|c w]; [done|]. destruct (digits_no_sign c w Hd). 
      destruct c as [[] [] [] [] [] [] [] []]; done. }
    destruct Ht as [[Ht ->]|Ht].
    + rewrite <- (str_app_nil w) in Ht at 1. rewrite Ht, digits_unsigned by done. rewrite str_app_nil.
      rewrite split_on_none; [by apply cpu_pieces_ok|].
      revert Hd. rewrite all_digits_bytes. apply all_bytes_impl. intros c Hc.
      destruct (Ascii.eqb_spec c "."%char) as [->|]; [by vm_compute in Hc|done].
    + rewrite (point_pieces _ _ _ Ht) by done. rewrite Ht, digits_unsigned by done.
      by apply cpu_pieces_ok.
Qed.

(** The decimals of a formatted amount, for each of the thousandths. *)
Lemma thousandths n : 0 < n < 1000 ->
  let f := trim_end_zeros (pad3 n) in
  all_digits f = true /\ (String.length f <= 3)%nat /\ f <> "" /\
  decimal f * 10 ^ N.of_nat (3 - String.length f) = n.
Proof.
  assert (forallb (fun i => let n := N.of_nat i in let f := trim_end_zeros (pad3 n) in
    all_digits f && (String.length f <=? 3)%nat && negb (String.eqb f "") &&
    (decimal f * 10 ^ N.of_nat (3 - String.length f) =? n)) (seq 1 999) = true) as H by (by vm_compute).
  intros Hn f. apply (proj1 (forallb_forall _ _)) with (x := N.to_nat n) in H; [|apply in_seq; lia].
  cbv zeta in H. rewrite N2Nat.id in H. fold f in H.
  apply andb_true_iff in H as [[[Hd Hl]%andb_true_iff He]%andb_true_iff Hv].
  split; [done|]. split; [by apply Nat.leb_le|]. split; [|by apply N.eqb_eq].
  by apply negb_true_iff, String.eqb_neq in He.
Qed.

Lemma format_cpu_decimal m : 0 < m < U64 -> cpu_decimal (format_cpu m) m.
Proof.
  intros Hm. destruct (pretty_digits (m / 1000)) as (Hd & Hv & Hne).
  assert (forall s, all_digits s = true -> all_bytes printable s = true) as Hp.
  { intros s. rewrite all_digits_bytes. apply all_bytes_impl, digit_printable. }
  pose proof (N.div_mod m 1000 ltac:(done)) as Hdm. unfold format_cpu.
  destruct (N.eqb_spec (m mod 1000) 0) as [E|E].
  - exists (pretty (m / 1000)), "". rewrite trim_printable, Hv by (by apply Hp).
    change (decimal "") with 0. rewrite N.mul_0_l, N.add_0_r.
    split_and!; [done..|cbn; lia|by left|lia|lia|lia].
  - destruct (thousandths (m mod 1000)) as (Hfd & Hfl & Hfe & Hfv); [split; [by apply N.neq_0_lt_0|by apply N.mod_lt]|].
    set (f := trim_end_zeros (pad3 (m mod 1000))) in *.
    change ("." +:+ pad3 (m mod 1000)) with (String "." (pad3 (m mod 1000))).
    assert (trim_end_zeros (String "." (pad3 (m mod 1000))) = String "." f) as Ef.
    { cbn [trim_end_zeros]. fold f. by destruct f. }
    rewrite trim_end_zeros_app; rewrite Ef; [|done].
    exists (pretty (m / 1000)), f. rewrite trim_printable.
    + rewrite Hv, Hfv. split_and!; first [done|by right|lia].
    + rewrite all_bytes_app, Hp by done. change (all_bytes printable f = true). by apply Hp.
Qed.

(** A CPU total is accepted exactly when, inside white space, it is digits
    with at most three decimals whose value in thousandths is positive and fits
    in 64 bits; and the text the launcher prints for an amount - the value it
    gives Docker - is accepted back as that amount. *)
Theorem cpu_amount_correct :
  (forall value m, cpu_from_str value = Ok (mkCpuAmount m) <-> cpu_decimal value m) /\
  (forall m, 0 < m < U64 -> cpu_from_str (docker_value (mkCpuAmount m)) = Ok (mkCpuAmount m)).
Proof.
  split; [apply cpu_from_str_accepts|]. intros m Hm.
  apply cpu_from_str_accepts, format_cpu_decimal, Hm.
Qed.

(** ** The plan *)

Record plan_divides (n : nat) (cpus : CpuAmount) (memory : N) (engine : DockerEngineReport)
  (p : ResourcePlan) : Prop :=
  mkDivides
  { d_requested : requested_cpu_millis p = millis cpus /\ requested_memory_bytes p = memory;
    (** The CPU share is the largest whole number of thousandths. *)
    d_cpu : N.of_nat n * per_rank_cpu_millis p <= millis cpus < N.of_nat n * (per_rank_cpu_millis p + 1);
    (** The memory share is the largest whole number of MiB. *)
    d_memory : exists mib, per_rank_memory_bytes p = mib * MIB /\
                 N.of_nat n * (mib * MIB) <= memory < N.of_nat n * ((mib + 1) * MIB);
    d_minimum : MIN_CPU_MILLIS <= per_rank_cpu_millis p /\ MIN_MEMORY_BYTES <= per_rank_memory_bytes p;
    d_allocated : allocated_cpu_millis p = N.of_nat n * per_rank_cpu_millis p /\
                  allocated_memory_bytes p = N.of_nat n * per_rank_memory_bytes p;
    (** Nothing is lost: what is not allocated is reported. *)
    d_unused : allocated_cpu_millis p + unused_cpu_millis p = requested_cpu_millis p /\
               allocated_memory_bytes p + unused_memory_bytes p = requested_memory_bytes p;
    d_headroom : allocated_cpu_millis p + engine_cpu_headroom_millis p = engine_cpu_millis engine /\
                 allocated_memory_bytes p + engine_memory_headroom_bytes p = engine_memory_bytes engine }.

(** What the plan needs. *)
Definition plannable (n : nat) (cpus : CpuAmount) (memory : N) (engine : DockerEngineReport) : Prop :=
  (2 <= n <= 64)%nat /\ millis cpus <= engine_cpu_millis engine /\ memory <= engine_memory_bytes engine /\
  N.of_nat n * MIN_CPU_MILLIS <= millis cpus /\ N.of_nat n * MIN_MEMORY_BYTES <= memory.

Lemma validate_world_size_ok n : validate_world_size n = Ok tt <-> (2 <= n <= 64)%nat.
Proof.
  unfold validate_world_size, MIN_WORLD_SIZE, MAX_WORLD_SIZE. rewrite reject_if_Ok, negb_false_iff, andb_true_iff.
  by rewrite !Nat.leb_le.
Qed.

(** A number of whole units that fit. *)
Lemma div_share a b : 0 < b -> b * (a / b) <= a < b * (a / b + 1).
Proof.
  intros Hb%N.neq_0_lt_0. pose proof (N.div_mod a b Hb). pose proof (N.mod_lt a b Hb).
  rewrite N.mul_add_distr_l. generalize dependent (a mod b). generalize (a / b). intros q r Ha Hr. subst a. lia.
Qed.
Lemma div_at_least a b k : 0 < b -> k <= a / b <-> b * k <= a.
Proof.
  intros Hb. pose proof (div_share a b Hb) as [Hs _]. split; intros H.
  - etrans; [|exact Hs]. by apply N.mul_le_mono_l.
  - apply N.div_le_lower_bound; [by apply N.neq_0_lt_0|done].
Qed.

Lemma unit_share w u a : 0 < w -> 0 < u -> w * (a / w / u * u) <= a < w * ((a / w / u + 1) * u).
Proof.
  intros Hw Hu. pose proof (div_share a w Hw) as Ha. pose proof (div_share (a / w) u Hu) as Hb.
  generalize dependent (a / w / u). generalize dependent (a / w). intros q Ha b Hb. nia.
Qed.

Lemma plan_resources_bounds n cpus memory engine p :
  plan_resources n cpus memory engine = Ok p -> validate_world_size n = Ok tt /\ (0 < n)%nat.
Proof.
  unfold plan_resources. intros ([] & Hn & _)%bind_Ok. split; [exact Hn|].
  apply validate_world_size_ok in Hn. lia.
Qed.

Section Plan.
Variables (n : nat) (cpus : CpuAmount) (memory : N) (engine : DockerEngineReport).
Hypothesis Hengine : engine_cpu_millis engine < U64 /\ engine_memory_bytes engine < U64.

Lemma memory_share_at_least : (2 <= n)%nat ->
  MIN_MEMORY_BYTES <= memory / N.of_nat n / MIB * MIB <-> N.of_nat n * MIN_MEMORY_BYTES <= memory.
Proof.
  intros Hn. change MIN_MEMORY_BYTES with (128 * MIB).
  rewrite <- N.mul_le_mono_pos_r by done. rewrite !div_at_least by (done || lia). by rewrite (N.mul_comm MIB).
Qed.

Lemma plan_resources_Ok p :
  plan_resources n cpus memory engine = Ok p ->
  plannable n cpus memory engine /\ plan_divides n cpus memory engine p.
Proof.
  unfold plan_resources. intros H.
  apply bind_Ok in H as ([] & Hn%validate_world_size_ok & H).
  apply bind_Ok in H as (? & Hc%reject_if_Ok & H). apply bind_Ok in H as (? & Hm%reject_if_Ok & H).
  apply bind_Ok in H as (? & Hpc%reject_if_Ok & H). apply bind_Ok in H as (? & Hpm%reject_if_Ok & H).
  apply N.ltb_ge in Hc, Hm, Hpc, Hpm. injection H as <-. destruct Hengine.
  set (w := N.of_nat n) in *. assert (2 <= w) as Hw by lia.
  assert (0 < w) as Hw0 by lia.
  pose proof (div_share (millis cpus) w Hw0) as Hcs. pose proof (unit_share w MIB memory Hw0 eq_refl) as Hms.
  assert (mul64 (memory / w / MIB) MIB = memory / w / MIB * MIB) as E.
  { apply mul64_small. generalize dependent (memory / w / MIB). intros b _ Hms. nia. }
  rewrite E in *. apply memory_share_at_least in Hpm as Hpm'; [|lia].
  apply div_at_least in Hpc as Hpc'; [|done].
  split; [split_and!; done || lia|].
  set (c := millis cpus / w) in *. set (b := memory / w / MIB) in *. clearbody b c.
  assert (mul64 c w = w * c) as Ec by (rewrite mul64_small; lia).
  assert (mul64 (b * MIB) w = w * (b * MIB)) as Eb by (rewrite mul64_small; lia).
  rewrite Ec, Eb. split; cbn; rewrite ?sub64_small by lia; try (split; lia). by exists b.
Qed.

Lemma plan_resources_total :
  plannable n cpus memory engine -> exists p, plan_resources n cpus memory engine = Ok p.
Proof.
  intros (Hn & Hc & Hm & Hpc & Hpm). unfold plan_resources. destruct Hengine.
  rewrite (proj2 (validate_world_size_ok n) Hn). cbn [mbind result_bind]. unfold reject_if.
  apply N.ltb_ge in Hc as ->. apply N.ltb_ge in Hm as E. rewrite E. cbn [mbind result_bind].
  assert (mul64 (memory / N.of_nat n / MIB) MIB = memory / N.of_nat n / MIB * MIB) as ->.
  { apply mul64_small. pose proof (unit_share (N.of_nat n) MIB memory ltac:(lia) eq_refl) as Hs.
    generalize dependent (memory / N.of_nat n / MIB). intros b Hs. nia. }
  apply div_at_least, N.ltb_ge in Hpc as ->; [|lia].
  apply memory_share_at_least, N.ltb_ge in Hpm as ->; [|lia]. cbn [mbind result_bind]. eauto.
Qed.

(** C39: a launch gets a resource plan exactly when two to 64 ranks fit the
    request, the request fits the Docker engine and every rank gets a tenth of a
    CPU and 128 MiB; every plan then gives each rank the largest equal share in
    thousandths of a CPU and whole MiB, and accounts for the rest of the request
    and of the engine, without overflow. *)
Theorem plan_resources_correct :
  ((exists p, plan_resources n cpus memory engine = Ok p) <-> plannable n cpus memory engine) /\
  forall p, plan_resources n cpus memory engine = Ok p -> plan_divides n cpus memory engine p.
Proof.
  split; [split; [|apply plan_resources_total]|]; [intros [p H]|intros p H]; by apply plan_resources_Ok in H as [].
Qed.
End Plan.

Lemma plan_resources_correct_witness :
  plan_resources 3 (mkCpuAmount 4000) (8 * 1024 * MIB) (mkEngine "27" "Linux" "x86_64" "2" 8000 (16 * 1024 * MIB))
  = Ok (mkResourcePlan 4000 (8 * 1024 * MIB) 1333 (2730 * MIB) 3999 (8190 * MIB) 1 (2 * MIB) 4001 (8194 * MIB)) /\
  plannable 3 (mkCpuAmount 4000) (8 * 1024 * MIB) (mkEngine "27" "Linux" "x86_64" "2" 8000 (16 * 1024 * MIB)).
Proof.
  split; [vm_compute; reflexivity|].
  apply (plan_resources_correct 3 (mkCpuAmount 4000) (8 * 1024 * MIB)
    (mkEngine "27" "Linux" "x86_64" "2" 8000 (16 * 1024 * MIB)) ltac:(by vm_compute)).
  eexists. vm_compute. reflexivity.
Defined.

(** ** Verification against the cgroup *)

(** The cgroup files of a rank whose CPU quota is [quota] microseconds in each
    [period] and whose memory maximum is [bytes], as the kernel prints them, in
    both versions of the interface. *)
Definition line (s : string) : string := s +:+ String "010" "".
Inductive enforced (read : string -> option string) (quota period bytes : N) : Prop :=
| enforced_v2 :
    read "/sys/fs/cgroup/cpu.max" = Some (line (pretty quota +:+ String " " (pretty period))) ->
    read "/sys/fs/cgroup/memory.max" = Some (line (pretty bytes)) ->
    enforced read quota period bytes
| enforced_v1 :
    read "/sys/fs/cgroup/cpu.max" = None -> read "/sys/fs/cgroup/memory.max" = None ->
    read "/sys/fs/cgroup/cpu/cpu.cfs_quota_us" = Some (line (pretty quota)) ->
    read "/sys/fs/cgroup/cpu/cpu.cfs_period_us" = Some (line (pretty period)) ->
    read "/sys/fs/cgroup/memory/memory.limit_in_bytes" = Some (line (pretty bytes)) ->
    enforced read quota period bytes.

Lemma pretty_printable (n : N) : all_bytes printable (pretty n) = true /\ pretty n <> "".
Proof.
  destruct (pretty_digits n) as (Hd & _ & Hne). split; [|done].
  revert Hd. rewrite all_digits_bytes. apply all_bytes_impl, digit_printable.
Qed.

Lemma parse_memory_limit_pretty bytes : bytes < U64 -> parse_memory_limit (pretty bytes) = Some bytes.
Proof.
  intros Hb. destruct (pretty_printable bytes) as [Hp _]. unfold parse_memory_limit.
  rewrite trim_printable by done.
  destruct (String.eqb_spec (pretty bytes) "max") as [E|_]; [|by apply parse_u64_pretty].
  destruct (pretty_digits bytes) as [Hd _]. by rewrite E in Hd.
Qed.

Lemma parse_cpu_max_pretty quota period :
  quota * 1000 < U64 -> 0 < period < U64 ->
  parse_cpu_max (pretty quota +:+ String " " (pretty period)) = Some (quota * 1000 / period).
Proof.
  intros Hq Hp. destruct (pretty_printable quota) as [Hqp Hqn], (pretty_printable period) as [Hpp Hpn].
  unfold parse_cpu_max. rewrite split_two_words by done.
  rewrite (parse_u64_pretty period) by apply Hp. cbn [mbind option_bind].
  destruct (String.eqb_spec (pretty quota) "max") as [E|_].
  { destruct (pretty_digits quota) as [Hd _]. by rewrite E in Hd. }
  destruct (N.eqb_spec period 0); [lia|]. cbn [orb negb length Nat.eqb].
  rewrite parse_u64_pretty by lia. cbn [mbind option_bind].
  by rewrite (proj2 (checked_mul_Some quota 1000 _) (conj eq_refl Hq)).
Qed.

Lemma parse_cpu_v1_pretty quota period :
  quota * 1000 < U64 -> 0 < period < U64 ->
  parse_cpu_v1 (pretty quota) (pretty period) = Some (quota * 1000 / period).
Proof.
  intros Hq Hp. unfold parse_cpu_v1. rewrite !trim_printable by apply pretty_printable.
  rewrite parse_i64_pretty by (unfold U64 in Hq; lia). rewrite (parse_u64_pretty period) by apply Hp.
  cbn [mbind option_bind]. destruct (Z.ltb_spec (Z.of_N quota) 0); [lia|].
  destruct (N.eqb_spec period 0); [lia|]. cbn [orb]. rewrite N2Z.id.
  by rewrite (proj2 (checked_mul_Some quota 1000 _) (conj eq_refl Hq)).
Qed.

Lemma observe_enforced read quota period bytes :
  enforced read quota period bytes -> quota * 1000 < U64 -> 0 < period < U64 -> bytes < U64 ->
  observed_cpu_millis (observe_cgroup_resources read) = Some (quota * 1000 / period) /\
  observed_memory_limit (observe_cgroup_resources read) = Some bytes.
Proof.
  intros He Hq Hp Hb.
  assert (forall (n : N), trim (line (pretty n)) = pretty n) as Ht
    by (intros n; destruct (pretty_printable n); by apply trim_line).
  unfold observe_cgroup_resources, read_optional. destruct He as [E1 E2|E1 E2 E3 E4 E5].
  - rewrite E1, E2. cbn [fmap option_fmap option_map].
    rewrite bool_decide_eq_true_2 by eauto. cbn [orb observed_cpu_millis observed_memory_limit mbind option_bind].
    rewrite Ht. split; [|by apply parse_memory_limit_pretty].
    destruct (pretty_printable quota), (pretty_printable period).
    unfold line. rewrite trim_two_words by done. by apply parse_cpu_max_pretty.
  - rewrite E1, E2, E3, E4, E5. cbn [fmap option_fmap option_map].
    rewrite !bool_decide_eq_false_2 by (by intros []).
    cbn [orb observed_cpu_millis observed_memory_limit mbind option_bind].
    rewrite !Ht. split; [by apply parse_cpu_v1_pretty|by apply parse_memory_limit_pretty].
Qed.

Lemma verify_enforced read quota period bytes cpu memory :
  enforced read quota period bytes -> quota * 1000 < U64 -> 0 < period < U64 -> bytes < U64 ->
  verify_resources (observe_cgroup_resources read) (Some cpu) (Some memory) = Ok Passed <->
  abs_diff (quota * 1000 / period) cpu <= 1 /\ bytes = memory.
Proof.
  intros He Hq Hp Hb. unfold verify_resources. destruct (observe_enforced _ _ _ _ He Hq Hp Hb) as [-> ->].
  cbn [ok_or mbind result_bind]. unfold reject_if.
  destruct (N.ltb_spec 1 (abs_diff (quota * 1000 / period) cpu)); [split; [done|lia]|].
  destruct (N.eqb_spec bytes memory) as [->|]; naive_solver.
Qed.

(** The quota of [--cpus], in the period Docker uses. *)
Lemma verify_docker read cpu memory :
  enforced read (cpu * 100) 100000 memory -> cpu * 100000 < U64 -> memory < U64 ->
  verify_resources (observe_cgroup_resources read) (Some cpu) (Some memory) = Ok Passed.
Proof.
  intros He Hc Hm. apply (verify_enforced read (cpu * 100) 100000 memory); [done|lia|done|done|].
  split; [|done]. replace (cpu * 100 * 1000) with (cpu * 100000) by lia. rewrite N.div_mul by done.
  unfold abs_diff. lia.
Qed.

(** The limits Docker derives from a plan, as a rank observes and verifies them. *)
Lemma plan_limits n cpus memory engine p read :
  engine_cpu_millis engine * 100000 < U64 /\ engine_memory_bytes engine < U64 ->
  plan_resources n cpus memory engine = Ok p ->
  enforced read (per_rank_cpu_millis p * 100) 100000 (per_rank_memory_bytes p) ->
  let observed := observe_cgroup_resources read in
  verify_resources observed (Some (per_rank_cpu_millis p)) (Some (per_rank_memory_bytes p)) = Ok Passed /\
  observed_cpu_millis observed = Some (per_rank_cpu_millis p) /\
  observed_memory_limit observed = Some (per_rank_memory_bytes p).
Proof.
  intros [Hec Hem] Hp He observed. assert (engine_cpu_millis engine < U64) as Hec' by lia.
  destruct (plan_resources_Ok n cpus memory engine (conj Hec' Hem) p Hp) as ((Hn & Hc & Hm & _) & Hd).
  destruct (d_cpu _ _ _ _ _ Hd) as [Hpc _]. destruct (d_memory _ _ _ _ _ Hd) as (mib & Hpm & Hpm' & _).
  assert (per_rank_cpu_millis p * 100000 < U64) as Hc5 by nia.
  assert (per_rank_memory_bytes p < U64) as Hm5 by (rewrite Hpm; nia).
  split; [by apply verify_docker|].
  destruct (observe_enforced _ _ _ _ He) as [E1 E2]; [lia|done|done|].
  split; [|exact E2]. unfold observed. rewrite E1. f_equal.
  replace (per_rank_cpu_millis p * 100 * 1000) with (per_rank_cpu_millis p * 100000) by lia. by rewrite N.div_mul.
Qed.

(** A rank whose cgroup enforces a quota and a memory maximum accepts its
    limits exactly when the quota is within a thousandth of a CPU of what the
    launcher asked for and the memory is the same, in both cgroup versions; the
    quota Docker derives from the launcher's [--cpus] value passes. *)
Theorem limits_verified read quota period bytes cpu memory :
  enforced read quota period bytes -> quota * 1000 < U64 -> 0 < period < U64 -> bytes < U64 ->
  let verdict := verify_resources (observe_cgroup_resources read) (Some cpu) (Some memory) in
  (verdict = Ok Passed <-> abs_diff (quota * 1000 / period) cpu <= 1 /\ bytes = memory) /\
  (quota = cpu * 100 -> period = 100000 -> bytes = memory -> verdict = Ok Passed).
Proof.
  intros He Hq Hp Hb verdict. split; [by apply verify_enforced|]. intros -> -> ->.
  apply verify_docker; [done|lia|done].
Qed.

Lemma limits_verified_witness :
  let read path := if String.eqb path "/sys/fs/cgroup/cpu.max" then Some (line "150000 100000")
                   else if String.eqb path "/sys/fs/cgroup/memory.max" then Some (line "268435456") else None in
  verify_resources (observe_cgroup_resources read) (Some 1500) (Some 268435456) = Ok Passed.
Proof.
  intros read. apply (limits_verified read 150000 100000 268435456 1500 268435456);
    [by apply enforced_v2|by vm_compute..].
Defined.
