(* ===== verification/RingExchange.v ===== *)
(** * The ring exchange

    Models [crates/collectives/src/report.rs] (the in-memory demonstration) and
    [run_rank] of [crates/cli/src/launch.rs] (one rank of a Docker launch).  In
    both, every rank sends four numbers to its successor, receives those of its
    predecessor and checks them; a launched rank first verifies the limits of its
    cgroup and synchronises before and after the exchange. *)
From S2P Require Import Prelude Text Rank Packet Wire InMemory Tcp World Tensor Float Collective Ring Registry Launch.

(** ** Reports *)

(** [struct TensorSummary]; [==] compares the values as [f32]. *)
Record TensorSummary : Type := mkSummary
  { summary_dtype : string; summary_shape : list nat; summary_values : list f32 }.

Fixpoint values_eqb (a b : list f32) : bool :=
  match a, b with
  | [], [] => true
  | x :: a, y :: b => f32_eqb x y && values_eqb a b
  | _, _ => false
  end.
Definition summary_eqb (a b : TensorSummary) : bool :=
  String.eqb (summary_dtype a) (summary_dtype b) && bool_decide (summary_shape a = summary_shape b)
  && values_eqb (summary_values a) (summary_values b).

(** [TensorSummary::from_tensor]. *)
Definition summary_of (tensor : Tensor) : cresult TensorSummary :=
  packet ← from_tensor tensor;
  Ok (mkSummary "f32" (map N.to_nat (shape packet)) (values packet)).

(** [struct RankExchangeReport]. *)
Record RankExchangeReport : Type := mkExchange
  { exchange_rank : nat; sent_to : nat; received_from : nat; sent : TensorSummary;
    received : TensorSummary; matches_expected : bool }.

(** [struct P2pReport]. *)
Record P2pReport : Type := mkP2p
  { p2p_schema_version : N; p2p_backend : string; p2p_pattern : string; p2p_world_size : nat;
    p2p_ranks : list RankExchangeReport; p2p_success : bool }.

Definition RING_TAG : MessageTag := 0%N.

(** [values_for_rank], and [Tensor::from_vec(values, 4, &Device::Cpu)]. *)
Definition values_for_rank (rank : nat) : list f32 :=
  let base := rank * 4 + 1 in map (fun value => as_f32 (N.of_nat value)) (seq base 4).
Definition tensor_for_rank (rank : nat) : Tensor := mkTensor Cpu F32 [4] (values_for_rank rank).

Definition next_rank (rank world_size : nat) : nat := (rank + 1) mod world_size.
Definition previous_rank (rank world_size : nat) : nat := (rank + world_size - 1) mod world_size.

(** ** The in-memory demonstration *)

(** The worker of [run_p2p_ring]. *)
Definition ring_worker (rank world_size : nat) : cproc RankExchangeReport :=
  (let to := next_rank rank world_size in
   let from := previous_rank rank world_size in
   _ ⟵ send_tensor to RING_TAG (tensor_for_rank rank);
   received ⟵ recv_tensor from RING_TAG;
   received ⟵ lift (summary_of received);
   let matches := bool_decide (summary_shape received = [4]) && String.eqb (summary_dtype received) "f32"
                  && values_eqb (summary_values received) (values_for_rank from) in
   sent ⟵ lift (summary_of (tensor_for_rank rank));
   lift (Ok (mkExchange rank to from sent received matches)))%proc.

(** [run_p2p_ring], given the outcome of each worker thread. *)
Definition run_p2p_ring (world_size : nat) (receive_timeout : Duration)
  (outcome : nat -> Join RankExchangeReport) : cresult P2pReport :=
  if world_size <? 2 then Err (P2pWorldTooSmall world_size) else
  ranks ← run_in_memory world_size receive_timeout (fun e => outcome (global_rank (InMemory.rank e)));
  Ok (mkP2p 1 "in_memory" "ring" world_size ranks (forallb matches_expected ranks)).

(** ** A launched rank *)

(** [struct RankRequest], without the addresses and time-outs of the transport. *)
Record RankRequest : Type := mkRequest
  { request_rank : nat; request_world_size : nat; request_run_id : string;
    request_cpu_millis : option N; request_memory_bytes : option N }.

(** [struct RankProcessReport]. *)
Record RankProcessReport : Type := mkProcessReport
  { process_schema_version : N; process_protocol_version : N; process_run_id : string;
    process_rank : nat; process_world_size : nat; process_id : N; process_backend : string;
    process_peers : list PeerInfo; process_cpu_millis : option N; process_memory_bytes : option N;
    process_observed : ResourceObservation; process_verification : ResourceVerification;
    startup_barrier : bool; process_exchange : RankExchangeReport; completion_barrier : bool;
    process_success : bool }.

(** [Tensor::to_vec1::<f32>]. *)
Definition to_vec1 (t : Tensor) : cresult (list f32) :=
  match dims t, dtype t with
  | [_], F32 => Ok (elements t)
  | _, _ => candle_error "to_vec1"
  end.

Definition lproc (A : Type) : Type := proc (lresult A).
Definition lcomm {A} (m : cproc A) : lproc A := proc_err LaunchCollectives m.

(** [run_rank] up to the report it prints, once its transport is connected: the
    cgroup files are [read], [peers] is the transport's view. *)
Definition run_rank (request : RankRequest) (read : string -> option string) (peers : list PeerInfo)
  (pid : N) : lproc RankProcessReport :=
  (let rank := request_rank request in
   let world_size := request_world_size request in
   _ ⟵ lift (map_err LaunchCollectives (Ranks.new rank world_size));
   let observed := observe_cgroup_resources read in
   verification ⟵ lift (verify_resources observed (request_cpu_millis request) (request_memory_bytes request));
   _ ⟵ lcomm barrier;
   let to := next_rank rank world_size in
   let from := previous_rank rank world_size in
   let sent_values := values_for_rank rank in
   _ ⟵ lcomm (send_tensor to RING_TAG (tensor_for_rank rank));
   received ⟵ lcomm (recv_tensor from RING_TAG);
   received_values ⟵ lift (map_err LaunchCollectives (to_vec1 received));
   let matches := bool_decide (dims received = [4]) && values_eqb received_values (values_for_rank from) in
   _ ⟵ lcomm barrier;
   lift (Ok (mkProcessReport 1 PROTOCOL_VERSION (request_run_id request) rank world_size pid "tcp" peers
     (request_cpu_millis request) (request_memory_bytes request) observed verification true
     (mkExchange rank to from (mkSummary "f32" [4] sent_values)
        (mkSummary "f32" (dims received) received_values) matches) true matches)))%proc.

(** What [run_rank] returns after it has printed the report. *)
Definition rank_exit (report : RankProcessReport) : lresult unit :=
  reject_if (negb (process_success report)) (TensorVerificationFailed (process_rank report)).

(** ** One exchange in a world *)

Lemma together_pair {E A B C} n (p : nat -> proc (result E A)) (q : nat -> proc (result E B)) a b
  (k : nat -> B -> proc (result E C)) res tp tq :
  (forall i, i < n -> exec (mkRank i n) (p i) (tp i) (Ret (Ok (a i)))) ->
  (forall i, i < n -> exec (mkRank i n) (q i) (tq i) (Ret (Ok (b i)))) ->
  drains n (fun i => tp i ++ tq i) quiet ->
  together n (fun i => k i (b i)) res ->
  together n (fun i => try_bind (p i) (fun _ => try_bind (q i) (k i))) res.
Proof.
  intros Hp Hq Hd (tr & Hk & Hdk). exists (fun i => (tp i ++ tq i) ++ tr i).
  split; [|by apply drains_app]. intros i Hi. rewrite <- app_assoc.
  eapply exec_try; [by apply Hp|]. eapply exec_try; [by apply Hq|]. by apply Hk.
Qed.

Lemma exec_send_tensor r d tag t :
  sendable t -> Ranks.validate_peer r d = Ok tt -> exec r (send_tensor d tag t) [put d tag t] (Ret (Ok tt)).
Proof.
  intros Ht Hd. unfold send_tensor. rewrite from_tensor_sendable by done. cbn.
  eapply exec_act; [by refine (local_send r d _ _ _)|]. constructor.
Qed.
Lemma exec_recv_tensor r s tag t :
  sendable t -> Ranks.validate_peer r s = Ok tt -> exec r (recv_tensor s tag) [take s tag t] (Ret (Ok t)).
Proof.
  intros Ht Hs. unfold recv_tensor. cbn.
  eapply exec_act; [by refine (local_recv r s tag _ (packet t) _)|]. cbn.
  unfold packet. rewrite to_from_tensor by done. constructor.
Qed.

Lemma ring_neighbours n i : 2 <= n -> i < n ->
  next_rank i n < n /\ next_rank i n <> i /\ previous_rank (next_rank i n) n = i /\
  previous_rank i n < n /\ previous_rank i n <> i /\ next_rank (previous_rank i n) n = i.
Proof. intros Hn Hi. unfold next_rank, previous_rank. split_and!; mod_lia. Qed.

Lemma ring_drains n t : 2 <= n ->
  drains n (fun i => [put (next_rank i n) RING_TAG (t i)] ++
                     [take (previous_rank i n) RING_TAG (t (previous_rank i n))]) quiet.
Proof.
  intros Hn.
  apply (drains_rounds n (fun _ i => next_rank i n) (fun _ i => previous_rank i n) (fun _ => RING_TAG)
    (fun _ => t) 0 1 (fun _ => [])); [| |done|by apply drains_done].
  - intros j i _ Hi. destruct (ring_neighbours n i Hn Hi) as (? & _ & ? & _). done.
  - intros j i _ Hi. destruct (ring_neighbours n i Hn Hi) as (_ & _ & _ & ? & _ & ?). done.
Qed.

Lemma tensor_for_rank_sendable i : sendable (tensor_for_rank i).
Proof. repeat split. Qed.

Lemma values_for_rank_number i : (N.of_nat i * 4 + 5 < U64)%N -> values_eqb (values_for_rank i) (values_for_rank i) = true.
Proof.
  intros Hi. unfold values_for_rank.
  assert (forall l, (forall v, v ∈ l -> (N.of_nat v < U64)%N) ->
    values_eqb (map (fun v => as_f32 (N.of_nat v)) l) (map (fun v => as_f32 (N.of_nat v)) l) = true) as H.
  { induction l as [|v l IH]; intros Hv; [done|]. cbn [map values_eqb].
    rewrite f32_eqb_refl by (apply as_f32_number, Hv; left). apply IH. intros w Hw. apply Hv. by right. }
  apply H. intros v [? ?]%elem_of_seq. lia.
Qed.

(** What a rank sends and receives. *)
Definition rank_summary (i : nat) : TensorSummary := mkSummary "f32" [4] (values_for_rank i).
Definition exchanged (n i : nat) : RankExchangeReport :=
  mkExchange i (next_rank i n) (previous_rank i n) (rank_summary i) (rank_summary (previous_rank i n)) true.

Section Exchange.
Variable n : nat.
Hypothesis Hn : 2 <= n.
(** Ranks are [usize]. *)
Hypothesis Hmax : (N.of_nat n * 4 + 5 < U64)%N.

Lemma exchange_executions {i} : i < n ->
  exec (mkRank i n) (send_tensor (next_rank i n) RING_TAG (tensor_for_rank i))
    [put (next_rank i n) RING_TAG (tensor_for_rank i)] (Ret (Ok tt)) /\
  exec (mkRank i n) (recv_tensor (previous_rank i n) RING_TAG)
    [take (previous_rank i n) RING_TAG (tensor_for_rank (previous_rank i n))]
    (Ret (Ok (tensor_for_rank (previous_rank i n)))) /\
  values_eqb (values_for_rank (previous_rank i n)) (values_for_rank (previous_rank i n)) = true.
Proof.
  intros Hi. destruct (ring_neighbours n i Hn Hi) as (H1 & H2 & _ & H3 & H4 & _). split_and!.
  - apply exec_send_tensor; [apply tensor_for_rank_sendable|by apply Ranks.validate_peer_ne].
  - apply exec_recv_tensor; [apply tensor_for_rank_sendable|by apply Ranks.validate_peer_ne].
  - apply values_for_rank_number. lia.
Qed.

Lemma ring_workers_together : together n (fun i => ring_worker i n) (fun i => Ok (exchanged n i)).
Proof.
  unfold ring_worker.
  apply (together_pair n _ _ (fun _ => tt) (fun i => tensor_for_rank (previous_rank i n)) _ _ _ _
    (fun i Hi => proj1 (exchange_executions Hi)) (fun i Hi => proj1 (proj2 (exchange_executions Hi)))
    (ring_drains n tensor_for_rank Hn)).
  apply (together_lift n _ (fun i => rank_summary (previous_rank i n))); [done|].
  apply (together_lift n _ rank_summary); [done|]. apply together_ret. intros i Hi.
  unfold rank_summary. cbn [summary_values summary_shape summary_dtype].
  by rewrite (proj2 (proj2 (exchange_executions Hi))).
Qed.
End Exchange.

Lemma run_in_memory_all {T} n timeout (f : nat -> T) : 0 < n ->
  run_in_memory n timeout (fun e => JoinOk (f (global_rank (InMemory.rank e)))) = Ok (map f (seq 0 n)).
Proof.
  intros Hn. rewrite run_in_memory_outcomes by done. cbn [InMemory.rank endpoint global_rank].
  assert (forall l, first_failure (map (fun g => (g, JoinOk (f g))) l) = None) as ->
    by (induction l; done).
  clear Hn. assert (forall l, omap (fun g => Some (f g)) l = map f l) as H; [|by rewrite H].
  induction l as [|i l IH]; cbn; congruence.
Qed.

(** The in-memory ring demonstration works: in a world of two or more
    ranks every schedule of its workers terminates without deadlock, each rank
    with the report that names its neighbours and the numbers it sent and
    received, found equal to the expected ones; from these the run reports
    success, in rank order.  A smaller world is refused. *)
Theorem p2p_ring_succeeds n timeout :
  (2 <= n -> (N.of_nat n * 4 + 5 < U64)%N ->
   always_returns (world_of n (fun i => ring_worker i n)) (map (fun i => Ok (exchanged n i)) (seq 0 n)) /\
   run_p2p_ring n timeout (fun i => JoinOk (exchanged n i)) =
   Ok (mkP2p 1 "in_memory" "ring" n (map (exchanged n) (seq 0 n)) true)) /\
  (n < 2 -> forall outcome, run_p2p_ring n timeout outcome = Err (P2pWorldTooSmall n)).
Proof.
  split.
  - intros Hn Hmax. split; [by apply together_returns, ring_workers_together|].
    unfold run_p2p_ring. destruct (Nat.ltb_spec n 2); [lia|].
    rewrite run_in_memory_all by lia. cbn [mbind result_bind]. do 2 f_equal.
    apply forallb_forall. by intros r (i & <- & _)%in_map_iff.
  - intros Hn outcome. unfold run_p2p_ring. by destruct (Nat.ltb_spec n 2); [|lia].
Qed.

(** ** Launched ranks *)

(** The report of rank [i] of a launch with plan [p]. *)
Definition launch_request (run_id : string) (n : nat) (p : ResourcePlan) (i : nat) : RankRequest :=
  mkRequest i n run_id (Some (per_rank_cpu_millis p)) (Some (per_rank_memory_bytes p)).
Definition launch_report (run_id : string) (n : nat) (p : ResourcePlan) (read : string -> option string)
  (peers : list PeerInfo) (pid : N) (i : nat) : RankProcessReport :=
  mkProcessReport 1 PROTOCOL_VERSION run_id i n pid "tcp" peers (Some (per_rank_cpu_millis p))
    (Some (per_rank_memory_bytes p)) (observe_cgroup_resources read) Passed true (exchanged n i) true true.

(** C38: the ranks of a launch succeed: when the launcher has a resource plan and
    every rank's cgroup enforces the limits Docker derives from it, every
    schedule of the ranks terminates without deadlock, and each prints a report
    that passed its resource verification, has seen both barriers and received
    its predecessor's numbers, and exits without error. *)
Theorem launched_ranks_succeed n cpus memory engine p run_id read peers pid :
  (engine_cpu_millis engine * 100000 < U64)%N /\ (engine_memory_bytes engine < U64)%N ->
  plan_resources n cpus memory engine = Ok p ->
  (forall i, i < n -> enforced (read i) (per_rank_cpu_millis p * 100)%N 100000%N (per_rank_memory_bytes p)) ->
  let report i := launch_report run_id n p (read i) (peers i) (pid i) i in
  always_returns (world_of n (fun i => run_rank (launch_request run_id n p i) (read i) (peers i) (pid i)))
    (map (fun i => Ok (report i)) (seq 0 n)) /\
  forall i, rank_exit (report i) = Ok tt.
Proof.
  intros Hengine Hp He report. split; [|done]. destruct (plan_resources_bounds _ _ _ _ _ Hp) as [[Hn Hn64]%validate_world_size_ok _].
  assert (forall i, i < n -> verify_resources (observe_cgroup_resources (read i))
    (Some (per_rank_cpu_millis p)) (Some (per_rank_memory_bytes p)) = Ok Passed) as Hv
    by (intros i Hi; by apply (plan_limits n cpus memory engine), He).
  assert (N.of_nat n * 4 + 5 < U64)%N as Hmax by (unfold U64; lia).
  assert (2 <= n) as Hn2 by lia.
  apply together_returns. unfold run_rank, launch_request, barrier.
  apply (together_lift n _ (fun i => mkRank i n)).
  { intros i Hi. cbn. by rewrite Ranks.rank_new_ok. }
  apply (together_lift n _ (fun _ => Passed)); [exact Hv|].
  apply (together_try n _ (fun _ => tt)); [apply together_err, together_barrier; [lia|by apply together_ret]|].
  apply (together_pair n _ _ (fun _ => tt) (fun i => tensor_for_rank (previous_rank i n)) _ _ _ _
    (fun i Hi => exec_proc_err _ _ _ _ _ (proj1 (exchange_executions n Hn2 Hmax Hi)))
    (fun i Hi => exec_proc_err _ _ _ _ _ (proj1 (proj2 (exchange_executions n Hn2 Hmax Hi))))
    (ring_drains n tensor_for_rank Hn2)).
  apply (together_lift n _ (fun i => values_for_rank (previous_rank i n))); [done|].
  apply (together_try n _ (fun _ => tt)); [apply together_err, together_barrier; [lia|by apply together_ret]|].
  apply together_ret. intros i Hi. unfold report, launch_report, exchanged.
  cbn [request_rank request_world_size request_run_id request_cpu_millis request_memory_bytes].
  by rewrite (proj2 (proj2 (exchange_executions n Hn2 Hmax Hi))).
Qed.

(** ** Concrete launches *)
Lemma p2p_ring_succeeds_witness :
  p2p_success <$> (match run_p2p_ring 3 5%N (fun i => JoinOk (exchanged 3 i)) with Ok r => Some r | Err _ => None end)
  = Some true.
Proof. rewrite (proj2 (proj1 (p2p_ring_succeeds 3 5%N) ltac:(lia) ltac:(by vm_compute))). reflexivity. Defined.

(** Two ranks of half a CPU and 256 MiB each. *)
Definition duo_engine : DockerEngineReport := mkEngine "27.0" "Linux" "x86_64" "2" 8000 (16 * 1024 * MIB).
Definition duo_plan : ResourcePlan :=
  mkResourcePlan 1000 (512 * MIB) 500 (256 * MIB) 1000 (512 * MIB) 0 0 7000 (15872 * MIB).
Definition duo_cgroup (path : string) : option string :=
  if String.eqb path "/sys/fs/cgroup/cpu.max" then Some (line "50000 100000")
  else if String.eqb path "/sys/fs/cgroup/memory.max" then Some (line "268435456") else None.

Lemma launched_ranks_succeed_witness :
  always_returns
    (world_of 2 (fun i => run_rank (launch_request "demo" 2 duo_plan i) duo_cgroup [] (N.of_nat i)))
    (map (fun i => Ok (launch_report "demo" 2 duo_plan duo_cgroup [] (N.of_nat i) i)) (seq 0 2)).
Proof.
  apply (launched_ranks_succeed 2 (mkCpuAmount 1000) (512 * MIB)%N duo_engine duo_plan "demo"
    (fun _ => duo_cgroup) (fun _ => []) N.of_nat);
    [by vm_compute|vm_compute; reflexivity|intros i _; by apply enforced_v2].
Defined.
