(* ===== verification/CollectiveCheck.v ===== *)
(** * The check of the collectives

    Models [crates/collectives/src/check.rs]: every rank of an in-memory world
    runs the six collectives on known tensors, both all-reduce algorithms among
    them, and compares what it gets with what it expects.  The tensors hold
    integers, which binary32 adds exactly ([FloatExact.v]). *)
From S2P Require Import Prelude Rank Packet InMemory World Tensor Float FloatExact.
From S2P Require Import Collective CollectiveWorld Ring RingExchange.

(** ** The report *)

(** [struct CollectiveCheckOperation], [struct CollectiveCheckRankReport],
    [struct CollectiveCheckReport]. *)
Record CollectiveCheckOperation : Type := mkCheckOperation
  { check_kind : CollectiveKind; check_algorithm : option AllReduceAlgorithm;
    check_expected : option TensorSummary; check_actual : option TensorSummary; passed : bool }.
Record CollectiveCheckRankReport : Type := mkCheckRank
  { check_rank : nat; operations : list CollectiveCheckOperation }.
Record CollectiveCheckReport : Type := mkCheckReport
  { check_schema_version : N; check_backend : string; check_collective_backend : string;
    check_world_size : nat; check_ranks : list CollectiveCheckRankReport; check_success : bool }.

(** [tensor]: [Tensor::from_vec(values, length, &Device::Cpu)]. *)
Definition check_tensor (values : list f32) : Tensor := mkTensor Cpu F32 [length values] values.

(** [Option::map(TensorSummary::from_tensor).transpose()], and [==] on the results. *)
Definition summary_transpose (tensor : option Tensor) : cresult (option TensorSummary) :=
  match tensor with
  | Some tensor => summary ← summary_of tensor; Ok (Some summary)
  | None => Ok None
  end.
Definition summaries_eqb (a b : option TensorSummary) : bool :=
  match a, b with
  | Some a, Some b => summary_eqb a b
  | None, None => true
  | _, _ => false
  end.

(** [push_check]. *)
Definition push_check (operations : list CollectiveCheckOperation) (kind : CollectiveKind)
  (algorithm : option AllReduceAlgorithm) (expected actual : option Tensor)
  : cresult (list CollectiveCheckOperation) :=
  expected ← summary_transpose expected;
  actual ← summary_transpose actual;
  Ok (operations ++ [mkCheckOperation kind algorithm expected actual (summaries_eqb expected actual)]).

(** [?] on a collective call: the result and the collectives afterwards. *)
Definition native_call {A} (m : proc (cresult A * NativeCollectives)) : cproc (A * NativeCollectives) :=
  r ← m; Ret (match r with (Ok a, native) => Ok (a, native) | (Err e, _) => Err e end).

Definition f32_of (n : nat) : f32 := as_f32 (N.of_nat n).

Section Worker.
Context `{FloatOps}.

(** The tensors of a rank; [x * 2.] is [x + x]. *)
Definition broadcast_input (rank : nat) : Tensor :=
  check_tensor (if rank =? 0 then map f32_of [1; 2; 3; 4] else replicate 4 (f32_of 0)).
Definition rank_input (rank world_size : nat) : Tensor :=
  check_tensor (replicate (world_size * 2) (fadd (f32_of rank) (f32_of 1))).
Definition local_shard (rank : nat) : Tensor :=
  let doubled := fadd (f32_of rank) (f32_of rank) in check_tensor [doubled; fadd doubled (f32_of 1)].
Definition all_to_all_input (rank world_size : nat) : Tensor :=
  check_tensor (map (fun destination => f32_of (rank * 100 + destination)) (seq 0 world_size)).

(** The worker of [run_collective_check]; [elapsed] is the clock of its collectives. *)
Definition check_worker (elapsed : N -> Duration) (rank world_size : nat) : cproc CollectiveCheckRankReport :=
  (let native := with_observer (mkRank rank world_size) elapsed in
   r ⟵ native_call (broadcast native (broadcast_input rank) 0);
   operations ⟵ lift (push_check [] Broadcast None
     (Some (check_tensor (map f32_of [1; 2; 3; 4]))) (Some r.1));
   let rank_input := rank_input rank world_size in
   r ⟵ native_call (reduce r.2 rank_input 0 Sum);
   let total := f32_of (world_size * (world_size + 1) / 2) in
   let expected := if rank =? 0 then Some (check_tensor (replicate (world_size * 2) total)) else None in
   operations ⟵ lift (push_check operations Reduce None expected r.1);
   r ⟵ native_call (all_gather r.2 (local_shard rank) 0);
   operations ⟵ lift (push_check operations AllGather None
     (Some (check_tensor (map f32_of (seq 0 (world_size * 2))))) (Some r.1));
   s ⟵ for_each [CentralizedAllReduce; RingAllReduce] (r.2, operations) (fun '(native, operations) algorithm =>
     r ⟵ native_call (all_reduce native rank_input Sum algorithm);
     operations ⟵ lift (push_check operations AllReduce (Some algorithm)
       (Some (check_tensor (replicate (world_size * 2) total))) (Some r.1));
     lift (Ok (r.2, operations)));
   r ⟵ native_call (reduce_scatter s.1 rank_input 0 Sum);
   operations ⟵ lift (push_check s.2 ReduceScatter None
     (Some (check_tensor (replicate 2 total))) (Some r.1));
   r ⟵ native_call (all_to_all r.2 (all_to_all_input rank world_size) 0);
   operations ⟵ lift (push_check operations AllToAll None
     (Some (check_tensor (map (fun source => f32_of (source * 100 + rank)) (seq 0 world_size)))) (Some r.1));
   lift (Ok (mkCheckRank rank operations)))%proc.
End Worker.

(** [run_collective_check], given the outcome of each worker thread. *)
Definition run_collective_check (world_size : nat) (receive_timeout : Duration)
  (outcome : nat -> Join CollectiveCheckRankReport) : cresult CollectiveCheckReport :=
  ranks ← run_in_memory world_size receive_timeout (fun e => outcome (global_rank (InMemory.rank e)));
  let success := forallb passed (flat_map operations ranks) in
  Ok (mkCheckReport 1 "in_memory" "native" world_size ranks success).
