(* ===== verification/CheckProofs.v ===== *)
(** * The collectives pass their check

    On every schedule of a world of up to 257 ranks, each rank of
    [CollectiveCheck.v] gets what it expects.  The lemmas on tensors of integers
    serve the benchmark too. *)
From S2P Require Import Prelude Rank Packet InMemory World Tensor Float FloatExact.
From S2P Require Import Collective CollectiveWorld Ring RingExchange CollectiveCheck.

(** ** Tensors of integers *)

Lemma check_tensor_sendable l : (lenN l * 4 < U64)%N -> sendable (check_tensor l).
Proof.
  intros Hb. split; [unfold tensor_wf, check_tensor, product; cbn; lia|]. split; [done|]. split; [|done].
  unfold element_count, shape_of; cbn [check_tensor dims map try_fold_mul elements].
  unfold checked_mul, lenN in *. destruct (N.ltb_spec (1 * N.of_nat (length l)) U64); [|lia]. cbn.
  f_equal. lia.
Qed.

Lemma summary_of_check l : (lenN l * 4 < U64)%N -> summary_of (check_tensor l) = Ok (mkSummary "f32" [length l] l).
Proof.
  intros Hb. unfold summary_of. rewrite from_tensor_sendable by (by apply check_tensor_sendable). cbn.
  by rewrite Nat2N.id.
Qed.

Definition number (x : f32) : Prop := is_nan x = false.
Lemma values_eqb_refl l : Forall number l -> values_eqb l l = true.
Proof. induction 1; [done|]. cbn. by rewrite f32_eqb_refl. Qed.

(** Below [2^24], where [f32] has every integer. *)
Definition small (v : nat) : Prop := (N.of_nat v < 16777216)%N.
Lemma f32_of_number v : small v -> number (f32_of v).
Proof. unfold small. intros. apply as_f32_number. unfold U64. lia. Qed.
Lemma numbers_map l : Forall small l -> Forall number (map f32_of l).
Proof. intros H. apply Forall_map. eapply List.Forall_impl; [|exact H]. intros v. apply f32_of_number. Qed.
Lemma numbers_replicate n v : small v -> Forall number (replicate n (f32_of v)).
Proof. intros. apply Forall_replicate. by apply f32_of_number. Qed.

(** An operation that passes with the result [l]. *)
Definition good (kind : CollectiveKind) (algorithm : option AllReduceAlgorithm) (l : list f32)
  : CollectiveCheckOperation :=
  let s := Some (mkSummary "f32" [length l] l) in mkCheckOperation kind algorithm s s true.

Lemma push_good operations kind algorithm l :
  Forall number l -> (lenN l * 4 < U64)%N ->
  push_check operations kind algorithm (Some (check_tensor l)) (Some (check_tensor l)) =
  Ok (operations ++ [good kind algorithm l]).
Proof.
  intros Hl Hb. unfold push_check, summary_transpose. rewrite summary_of_check by done.
  cbn [mbind result_bind]. unfold good, summaries_eqb, summary_eqb. cbn [summary_dtype summary_shape summary_values].
  by rewrite values_eqb_refl, bool_decide_eq_true_2 by done.
Qed.

(** ** Sums *)

Lemma slice_replicate {A} (x : A) start len total : start + len <= total ->
  slice start len (replicate total x) = replicate len x.
Proof.
  intros H. unfold slice. rewrite drop_replicate, take_replicate. f_equal. lia.
Qed.
Lemma concat_replicate {A} (x : A) k len : concat (replicate k (replicate len x)) = replicate (k * len) x.
Proof. induction k as [|k IH]; [done|]. cbn. by rewrite IH, <- replicate_add. Qed.
Lemma chunk_bound n c k : k < n -> k * c + c <= n * c.
Proof. intros Hk. rewrite <- Nat.mul_succ_l. by apply Nat.mul_le_mono_r. Qed.


Section Sums.
Context {FO : FloatOps} {EI : ExactIntegers}.

Definition constant (len v : nat) : Tensor := check_tensor (replicate len (f32_of v)).

Lemma f32_of_add a b : small (a + b) -> fadd (f32_of a) (f32_of b) = f32_of (a + b).
Proof. unfold small. intros. unfold f32_of. rewrite fadd_integers by lia. f_equal. lia. Qed.

Lemma tsum_constant len a b : small (a + b) -> tsum (constant len a) (constant len b) = constant len (a + b).
Proof.
  intros Hab. unfold tsum, constant, check_tensor. cbn. rewrite !length_replicate. f_equal.
  induction len as [|len IH]; [done|]. cbn. by rewrite f32_of_add, IH.
Qed.

Lemma sum_over_constant ts g len a sources :
  (forall i, i ∈ sources -> ts i = constant len (g i)) -> small (a + list_sum (map g sources)) ->
  sum_over ts (constant len a) sources = constant len (a + list_sum (map g sources)).
Proof.
  unfold sum_over. revert a. induction sources as [|i l IH]; intros a Hts Hb; cbn [foldl map] in *.
  { by rewrite Nat.add_0_r. }
  change (list_sum (g i :: map g l)) with (g i + list_sum (map g l)) in *.
  rewrite (Hts i) by set_solver. rewrite tsum_constant, IH by (set_solver || (unfold small in *; lia)). f_equal. lia.
Qed.

Lemma list_sum_perm l k : l ≡ₚ k -> list_sum l = list_sum k.
Proof. induction 1; unfold list_sum in *; cbn; lia. Qed.

(** The sum of the ranks' numbers. *)
Definition triangle (n : nat) : nat := n * (n + 1) / 2.
Lemma triangle_sum n : list_sum (map S (seq 0 n)) = triangle n.
Proof.
  unfold triangle. assert (list_sum (map S (seq 0 n)) * 2 = n * (n + 1)) as H.
  { induction n as [|n IH]; [done|]. rewrite seq_S, map_app, list_sum_app. cbn. lia. }
  rewrite <- H. by rewrite Nat.div_mul.
Qed.
Lemma triangle_bound n : n <= 257 -> small (triangle n).
Proof.
  intros Hn. assert (triangle n < 257 * 258) by (apply Nat.Div0.div_lt_upper_bound; nia). unfold small. lia.
Qed.

Lemma constant_sendable len v : (N.of_nat len * 4 < U64)%N -> sendable (constant len v).
Proof. intros. apply check_tensor_sendable. unfold lenN. by rewrite length_replicate. Qed.

Lemma flat_size n c : product [n * c] = n * c.
Proof. unfold product. cbn. lia. Qed.

(** Ranks with a constant tensor each. *)
Section Ranks.
Context (n len : nat) (ts : nat -> Tensor).
Hypothesis Hn : 0 < n <= 257.
Hypothesis Hts : forall i, i < n -> ts i = constant len (S i).
Hypothesis Hb : (N.of_nat len * 4 < U64)%N.

Lemma ts_ok i : i < n -> sendable (ts i) /\ dims (ts i) = [len].
Proof.
  intros Hi. rewrite Hts by done. split; [by apply constant_sendable|].
  cbn. by rewrite length_replicate.
Qed.

Lemma total_centralized : sum_over ts (ts 0) (seq 1 (n - 1)) = constant len (triangle n).
Proof.
  assert (1 + list_sum (map S (seq 1 (n - 1))) = triangle n) as E.
  { rewrite <- triangle_sum, (seq_positive n) by lia. done. }
  rewrite (Hts 0) by lia. rewrite (sum_over_constant ts S).
  - by rewrite E.
  - intros i Hi%peers_in. apply Hts. lia.
  - rewrite E. apply triangle_bound, Hn.
Qed.
End Ranks.

Section World.
Context (n c : nat) (ts : nat -> Tensor).
Hypothesis Hn : 0 < n <= 257.
Hypothesis Hts : forall i, i < n -> ts i = constant (n * c) (S i).
Hypothesis Hb : (N.of_nat (n * c) * 4 < U64)%N.
#[local] Abbreviation chunks_ok := (ts_ok n (n * c) ts Hts Hb).

Lemma own_chunk_constant i k : i < n -> k < n -> own_chunk ts c i k = constant c (S i).
Proof.
  intros Hi Hk. destruct (chunk_eq c _ (own_chunk_wf n ts c [n * c] chunks_ok (flat_size n c) i k Hi Hk)) as [E _]. rewrite E.
  rewrite (own_chunk_elements n ts c [n * c] chunks_ok) by done. rewrite Hts by done.
  unfold constant, check_tensor. cbn [elements]. pose proof (chunk_bound n c k Hk).
  by rewrite slice_replicate, length_replicate.
Qed.

(** What a chunk has gathered after [o] ranks. *)
Definition gathered (k o : nat) : nat := list_sum (map (fun j => S ((k + j) mod n)) (seq 0 (S o))).
Lemma gathered_snoc k o : gathered k (S o) = gathered k o + S ((k + S o) mod n).
Proof. unfold gathered. rewrite (seq_S (S o)), map_app, list_sum_app. cbn [map list_sum foldr]. cbn. lia. Qed.
Lemma gathered_bound k o : o < n -> small (gathered k o).
Proof.
  intros Ho. assert (forall o, gathered k o <= S o * 257) as H.
  { clear o Ho. induction o as [|o IH].
    - change (gathered k 0) with (S ((k + 0) mod n) + 0). pose proof (Nat.mod_upper_bound (k + 0) n ltac:(lia)). lia.
    - rewrite gathered_snoc. pose proof (Nat.mod_upper_bound (k + S o) n ltac:(lia)). lia. }
  specialize (H o). unfold small. lia.
Qed.
Lemma gathered_all k : k < n -> gathered k (n - 1) = triangle n.
Proof.
  intros Hk. unfold gathered. rewrite <- triangle_sum. replace (S (n - 1)) with n by lia.
  assert (map (fun j => (k + j) mod n) (seq 0 n) ≡ₚ seq 0 n) as Hp.
  { pose proof (ring_ranks_perm n c [n * c] ltac:(lia) (flat_size n c) k Hk) as Hp.
    rewrite <- (seq_positive n) in Hp by lia. rewrite <- Hp at 2. rewrite (seq_positive n) by lia.
    cbn [map]. by rewrite Nat.add_0_r, Nat.mod_small. }
  rewrite <- (map_map (fun j => (k + j) mod n) S).
  by apply list_sum_perm, Permutation_map.
Qed.

Lemma ring_acc_constant k o : k < n -> o < n -> ring_acc n ts c k o = constant c (gathered k o).
Proof.
  intros Hk. induction o as [|o IH]; intros Ho; cbn [ring_acc].
  - rewrite own_chunk_constant by done. change (gathered k 0) with (S ((k + 0) mod n) + 0).
    by rewrite !Nat.add_0_r, Nat.mod_small.
  - pose proof (gathered_bound k (S o) Ho) as Hs. rewrite gathered_snoc in *.
    rewrite own_chunk_constant by (done || apply Nat.mod_upper_bound; lia). rewrite IH by lia.
    rewrite tsum_constant by (unfold small in *; lia). f_equal. lia.
Qed.

Lemma total_ring : ring_total n ts c [n * c] = constant (n * c) (triangle n).
Proof.
  unfold ring_total, constant, check_tensor. f_equal; [by rewrite length_replicate|].
  rewrite <- concat_replicate. f_equal. apply list_eq_same_length with n;
    [by rewrite length_replicate|by rewrite length_map, length_seq|].
  intros i x y Hi Hx Hy. apply lookup_replicate in Hy as [-> _].
  apply list_lookup_fmap_Some_1 in Hx as (k & -> & [-> Hk]%lookup_seq). cbn in Hk |- *.
  by rewrite ring_acc_constant, gathered_all by lia.
Qed.
End World.

(** The bytes rank [i] sends in an all-reduce of [payload] bytes. *)
Definition all_reduce_sent (algorithm : AllReduceAlgorithm) (n i : nat) (payload : N) : N :=
  match algorithm with
  | CentralizedAllReduce => if i =? 0 then N.of_nat (n - 1) * payload else payload
  | RingAllReduce => N.of_nat (2 * (n - 1)) * (payload / N.of_nat n)
  end.

(** Ranks with the tensors [i + 1] all get the triangle number, and count the
    bytes of the algorithm. *)
Lemma all_reduce_constant n len ts nc s algorithm :
  n <= 257 -> (forall i, i < n -> ts i = constant len (S i)) -> (N.of_nat len * 4 < U64)%N ->
  (algorithm = RingAllReduce -> len mod n = 0) -> group n nc ts s ->
  agree_on n (fun i => all_reduce (nc i) (ts i) Sum algorithm) (fun _ => constant len (triangle n))
    (fun i => counted (nc i) (descriptor_of (nc i) AllReduce
       (match algorithm with CentralizedAllReduce => Centralized | RingAllReduce => Collective.Ring end)
       (match algorithm with CentralizedAllReduce => Some 0 | RingAllReduce => None end) None (ts i))
       (Some (constant len (triangle n))) (wrap64 (all_reduce_sent algorithm n i (N.of_nat len * 4)))).
Proof.
  intros Hmax Hts Hb Hmod Hg. pose proof (g_positive _ _ _ _ Hg) as Hn.
  assert (forall i, i < n -> sendable (ts i) /\ dims (ts i) = [len]) as Hok by (by apply ts_ok).
  destruct (Hok 0 Hn) as [Hs0 Hd0].
  assert (forall i, i < n -> dims (ts i) = dims (ts 0)) as Hdims.
  { intros i Hi. by rewrite (proj2 (Hok i Hi)). }
  destruct algorithm.
  - pose proof (centralized_counted n nc ts s Sum Hg Hdims) as H. cbv beta zeta in H.
    rewrite (total_centralized n len) in H by (done || lia). eapply agree_weaken; [|exact H].
    intros i st Hi. apply counted_sent. f_equal. unfold bytes_of, lenN. rewrite Hts by done.
    cbn. by rewrite length_replicate.
  - specialize (Hmod eq_refl). apply Nat.Div0.mod_divides in Hmod as [c ->].
    pose proof (ring_counted n nc ts s c Sum Hg Hmax Hdims ltac:(rewrite Hd0; apply flat_size)) as H.
    cbv beta zeta in H. rewrite Hd0, (total_ring n c ts) in H by (done || lia). eapply agree_weaken; [|exact H].
    intros i st Hi. apply counted_sent. f_equal. unfold all_reduce_sent. f_equal.
    replace (N.of_nat (n * c) * 4)%N with (N.of_nat c * 4 * N.of_nat n)%N by lia. by rewrite N.div_mul by lia.
Qed.
End Sums.

(** A part of a one-dimensional tensor. *)
Lemma shard_check l n c k : length l = n * c -> k < n -> (lenN l * 4 < U64)%N ->
  shard (check_tensor l) 0 c k = check_tensor (slice (k * c) c l).
Proof.
  intros Hl Hk Hb.
  assert (forall i, i < n -> sendable (check_tensor l) /\ dims (check_tensor l) = [n * c]) as Hts.
  { intros i _. split; [by apply check_tensor_sendable|]. cbn. by rewrite Hl. }
  assert (flat (check_tensor l) = check_tensor l) as Hflat.
  { unfold flat, elem_count, product, check_tensor. cbn. by rewrite Nat.mul_1_r. }
  pose proof (own_chunk_wf n (fun _ => check_tensor l) c [n * c] Hts (flat_size n c) k k Hk Hk) as Hw.
  pose proof (own_chunk_elements n (fun _ => check_tensor l) c [n * c] Hts k k Hk) as He.
  destruct (chunk_eq c _ Hw) as [E Hlen]. unfold own_chunk in E, He, Hlen. rewrite Hflat in *.
  rewrite E, He. rewrite He in Hlen. unfold check_tensor in *. cbn [elements] in *. by rewrite Hlen.
Qed.

Lemma cat_checks (c : nat) (f : nat -> list f32) n : 0 < n ->
  (forall i, i < n -> length (f i) = c /\ (lenN (f i) * 4 < U64)%N) ->
  cat (map (fun i => check_tensor (f i)) (seq 0 n)) 0 = Ok (check_tensor (concat (map f (seq 0 n)))).
Proof.
  intros Hn Hf. rewrite (cat_chunks c).
  - unfold check_tensor. rewrite length_seq, (length_concat_const c), length_map, length_seq; [done|].
    apply Forall_map, List.Forall_forall. intros i [_ Hi]%in_seq. by destruct (Hf i Hi).
  - rewrite (seq_positive n) by done. done.
  - intros i [_ Hi]%elem_of_seq. destruct (Hf i Hi) as [Hl Hb]. split; [cbn; by rewrite Hl|].
    by apply check_tensor_sendable.
Qed.

(** ** The ranks of the check *)

(** What [?] makes of a collective the ranks agree on. *)
Lemma native_together {A} n s nc (op : nat -> proc (cresult A * NativeCollectives)) value d output :
  aligned n s nc -> agree_on n op value (fun i => completed (nc i) (d i) (output i)) ->
  exists nc', together n (fun i => native_call (op i)) (fun i => Ok (value i, nc' i)) /\ aligned n (s + 1) nc'.
Proof.
  intros Ha (nc' & H & Hc). exists nc'. split; [|by eapply completed_aligned].
  apply (together_bind n op (fun i => (Ok (value i), nc' i)) _ _ H). by apply together_ret.
Qed.

Lemma aligned_group n s nc ts :
  0 < n -> aligned n s nc -> (s < 2 ^ 44)%N -> (forall i, i < n -> sendable (ts i)) -> group n nc ts s.
Proof. intros Hn Ha Hs Hts. split; [done|intros i Hi; by apply Ha..|done|done]. Qed.

Lemma aligned_new n elapsed : aligned n 0 (fun i => with_observer (mkRank i n) (elapsed i)).
Proof. done. Qed.

Section Check.
Context {FO : FloatOps} {EI : ExactIntegers} (n : nat).
Hypothesis Hn : 0 < n <= 257.
#[local] Abbreviation total := (f32_of (triangle n)).

Lemma rank_input_constant i : i < n -> rank_input i n = constant (n * 2) (S i).
Proof.
  intros Hi. unfold rank_input, constant. rewrite f32_of_add by (unfold small; lia). by rewrite Nat.add_1_r.
Qed.
Lemma inputs_fit : (N.of_nat (n * 2) * 4 < U64)%N.
Proof. unfold U64. lia. Qed.
#[local] Hint Resolve inputs_fit : core.

Lemma inputs_ok i : i < n -> sendable (rank_input i n) /\ dims (rank_input i n) = [n * 2].
Proof. apply (ts_ok n (n * 2) (fun i => rank_input i n)); auto using rank_input_constant. Qed.

Lemma inputs_group s nc : aligned n s nc -> (s < 2 ^ 44)%N -> group n nc (fun i => rank_input i n) s.
Proof. intros. apply aligned_group; [lia|done..|]. intros i Hi. by apply inputs_ok. Qed.

Lemma inputs_dims i : i < n -> dims (rank_input i n) = dims (rank_input 0 n).
Proof. intros Hi. by rewrite (proj2 (inputs_ok i Hi)), (proj2 (inputs_ok 0 ltac:(lia))). Qed.

Lemma inputs_total : sum_over (fun i => rank_input i n) (rank_input 0 n) (seq 1 (n - 1)) = constant (n * 2) (triangle n).
Proof. apply (total_centralized n (n * 2) (fun i => rank_input i n)); auto using rank_input_constant. Qed.

Lemma all_reduce_together s nc alg : aligned n s nc -> (s < 2 ^ 44)%N ->
  exists nc', together n (fun i => native_call (all_reduce (nc i) (rank_input i n) Sum alg))
                (fun i => Ok (constant (n * 2) (triangle n), nc' i)) /\ aligned n (s + 1) nc'.
Proof.
  intros Ha Hs.
  assert ((n * 2) mod n = 0) as Hmod by (by rewrite Nat.mul_comm, Nat.Div0.mod_mul).
  pose proof (all_reduce_constant n (n * 2) (fun i => rank_input i n) nc s alg ltac:(lia) rank_input_constant
    inputs_fit (fun _ => Hmod) (inputs_group s nc Ha Hs)) as H.
  exact (native_together n s nc _ (fun _ => _) _ (fun _ => Some _) Ha
    (agree_weaken n _ _ _ _ (fun i st _ => counted_completed _ _ _ _ st) H)).
Qed.

(** What rank [i] records. *)
Definition check_operations (i : nat) : list CollectiveCheckOperation :=
  [good Broadcast None (map f32_of [1; 2; 3; 4]);
   (if i =? 0 then good Reduce None (replicate (n * 2) total) else mkCheckOperation Reduce None None None true);
   good AllGather None (map f32_of (seq 0 (n * 2)));
   good AllReduce (Some CentralizedAllReduce) (replicate (n * 2) total);
   good AllReduce (Some RingAllReduce) (replicate (n * 2) total);
   good ReduceScatter None (replicate 2 total);
   good AllToAll None (map (fun source => f32_of (source * 100 + i)) (seq 0 n))].

Lemma broadcast_together s nc : aligned n s nc -> (s < 2 ^ 44)%N ->
  exists nc', together n (fun i => native_call (broadcast (nc i) (broadcast_input i) 0))
                (fun i => Ok (check_tensor (map f32_of [1; 2; 3; 4]), nc' i)) /\ aligned n (s + 1) nc'.
Proof.
  intros Ha Hs.
  assert (group n nc broadcast_input s) as Hg.
  { apply aligned_group; [lia|done..|]. intros i _. by destruct i; apply check_tensor_sendable. }
  exact (native_together n s nc _ (fun _ => _) _ (fun _ => Some _) Ha (broadcast_agree n nc broadcast_input s 0 Hg ltac:(lia))).
Qed.

Lemma reduce_together_zero s nc : aligned n s nc -> (s < 2 ^ 44)%N ->
  exists nc', together n (fun i => native_call (reduce (nc i) (rank_input i n) 0 Sum))
                (fun i => Ok (if i =? 0 then Some (constant (n * 2) (triangle n)) else None, nc' i)) /\
              aligned n (s + 1) nc'.
Proof.
  intros Ha Hs. pose proof (reduce_agree n nc _ s 0 Sum (inputs_group s nc Ha Hs) ltac:(lia) inputs_dims) as H.
  cbv beta zeta in H.
  assert (filter (fun i => i <> 0) (seq 0 n) = seq 1 (n - 1)) as E.
  { rewrite (seq_positive n) by lia. rewrite filter_cons_False by (intros []; done).
    apply filter_everything. intros i Hi%peers_in. lia. }
  rewrite E, inputs_total in H. destruct (native_together n s nc _ _ _ (fun i => _) Ha H) as (nc' & Ht & Ha').
  exists nc'. split; [|done]. destruct Ht as (tr & Hex & Hd). exists tr. split; [|done]. intros i Hi.
  specialize (Hex i Hi). by destruct (decide (i = 0)) as [->|Hne]; [|apply Nat.eqb_neq in Hne; rewrite Hne].
Qed.

Lemma all_gather_together s nc : aligned n s nc -> (s < 2 ^ 44)%N ->
  exists nc', together n (fun i => native_call (all_gather (nc i) (local_shard i) 0))
                (fun i => Ok (check_tensor (map f32_of (seq 0 (n * 2))), nc' i)) /\ aligned n (s + 1) nc'.
Proof.
  intros Ha Hs.
  assert (forall i, i < n -> local_shard i = check_tensor (map f32_of [2 * i; 2 * i + 1])) as Hl.
  { intros i Hi. unfold local_shard. rewrite !f32_of_add by (unfold small; lia). cbn [map].
    do 3 f_equal; f_equal; lia. }
  assert (map local_shard (seq 0 n) = map (fun i => check_tensor (map f32_of [2 * i; 2 * i + 1])) (seq 0 n)) as Hm.
  { apply map_ext_in. intros i [_ Hi]%in_seq. by apply Hl. }
  assert (concat (map (fun i => map f32_of [2 * i; 2 * i + 1]) (seq 0 n)) = map f32_of (seq 0 (n * 2))) as Hc.
  { clear. induction n as [|k IH]; [done|]. rewrite seq_S, map_app, concat_app, IH. cbn [map concat Nat.add].
    replace (S k * 2) with (S (S (k * 2))) by lia. rewrite !seq_S, !map_app, <- app_assoc. cbn.
    do 2 f_equal; [|f_equal]; f_equal; lia. }
  pose proof (cat_checks 2 (fun i => map f32_of [2 * i; 2 * i + 1]) n ltac:(lia) ltac:(done)) as Hcat.
  rewrite Hc, <- Hm in Hcat.
  assert (group n nc local_shard s) as Hg.
  { apply aligned_group; [lia|done..|]. intros i Hi. rewrite Hl by done. by apply check_tensor_sendable. }
  assert (sendable (check_tensor (map f32_of (seq 0 (n * 2))))) as Hout; [|exact (native_together n s nc _
    (fun _ => _) _ (fun _ => Some _) Ha (all_gather_agree n nc local_shard s 0 _ Hg ltac:(cbn; lia) Hcat Hout))].
  apply check_tensor_sendable. unfold lenN. rewrite length_map, length_seq. auto.
Qed.

Lemma scatter_together s nc : aligned n s nc -> (s < 2 ^ 44)%N ->
  exists nc', together n (fun i => native_call (reduce_scatter (nc i) (rank_input i n) 0 Sum))
                (fun i => Ok (constant 2 (triangle n), nc' i)) /\ aligned n (s + 1) nc'.
Proof.
  intros Ha Hs. destruct (inputs_ok 0 ltac:(lia)) as [_ Hd0].
  destruct (reduce_scatter_agree n nc (fun i => rank_input i n) s 0 2 Sum (inputs_group s nc Ha Hs) inputs_dims
    ltac:(cbv beta; by rewrite Hd0)) as [H _]. cbv beta zeta in H. rewrite inputs_total in H.
  destruct (native_together n s nc _ _ _ (fun i => _) Ha H) as (nc' & (tr & Hex & Hd) & Ha').
  exists nc'. split; [|done]. exists tr. split; [|done]. intros i Hi. specialize (Hex i Hi).
  assert (shard (constant (n * 2) (triangle n)) 0 2 i = constant 2 (triangle n)) as E; [|by rewrite E in Hex].
  unfold constant. rewrite (shard_check _ n 2); [|by rewrite length_replicate|done|].
  - rewrite slice_replicate; [done|]. lia.
  - unfold lenN. by rewrite length_replicate.
Qed.

Lemma all_to_all_together s nc : aligned n s nc -> (s < 2 ^ 44)%N ->
  exists nc', together n (fun i => native_call (all_to_all (nc i) (all_to_all_input i n) 0))
                (fun i => Ok (check_tensor (map (fun source => f32_of (source * 100 + i)) (seq 0 n)), nc' i)) /\
              aligned n (s + 1) nc'.
Proof.
  intros Ha Hs. set (ts i := all_to_all_input i n).
  assert (forall i, dims (ts i) = [n]) as Hd by (intros i; cbn; by rewrite length_map, length_seq).
  assert (forall f : nat -> f32, (lenN (map f (seq 0 n)) * 4 < U64)%N) as Hb.
  { intros f. unfold lenN, U64. rewrite length_map, length_seq. lia. }
  assert (group n nc ts s) as Hg.
  { apply aligned_group; [lia|done..|]. intros i Hi. apply check_tensor_sendable, Hb. }
  destruct (all_to_all_agree n nc ts s 0 1 Hg ltac:(lia) ltac:(intros; by rewrite !Hd)
    ltac:(rewrite Hd; cbn; f_equal; lia)) as (value & Hv & H).
  destruct (native_together n s nc _ _ _ (fun i => _) Ha H) as (nc' & (tr & Hex & Hdr) & Ha').
  exists nc'. split; [|done]. exists tr. split; [|done]. intros i Hi. specialize (Hex i Hi).
  specialize (Hv i Hi).
  assert (forall j, j < n -> shard (ts j) 0 1 i = check_tensor [f32_of (j * 100 + i)]) as Hsh.
  { intros j Hj. unfold ts, all_to_all_input.
    rewrite (shard_check _ n 1) by (done || (by rewrite length_map, length_seq; lia) || apply Hb).
    rewrite Nat.mul_1_r. unfold slice. erewrite drop_S; [done|].
    by rewrite list_lookup_fmap, lookup_seq_lt. }
  erewrite (map_ext_in _ (fun j => check_tensor [f32_of (j * 100 + i)])) in Hv
    by (intros j [_ Hj]%in_seq; by apply Hsh).
  rewrite (cat_checks 1 (fun j => [f32_of (j * 100 + i)])) in Hv by (lia || done).
  assert (value i = check_tensor (map (fun source => f32_of (source * 100 + i)) (seq 0 n))) as <-; [|done].
  injection Hv as <-. by rewrite <- flat_map_concat_map, flat_map_single.
Qed.

#[local] Hint Resolve f32_of_number triangle_bound numbers_replicate : core.

Lemma push_constant len v operations kind algorithm : small v -> (N.of_nat len * 4 < U64)%N ->
  push_check operations kind algorithm (Some (check_tensor (replicate len (f32_of v))))
    (Some (constant len v)) = Ok (operations ++ [good kind algorithm (replicate len (f32_of v))]).
Proof.
  intros Hv Hl. apply push_good; [by apply numbers_replicate|]. unfold lenN. by rewrite length_replicate.
Qed.
Lemma push_numbers l operations kind algorithm : Forall small l -> (lenN l * 4 < U64)%N ->
  push_check operations kind algorithm (Some (check_tensor (map f32_of l))) (Some (check_tensor (map f32_of l))) =
  Ok (operations ++ [good kind algorithm (map f32_of l)]).
Proof.
  intros Hv Hl. apply push_good; [by apply numbers_map|]. unfold lenN in *. by rewrite length_map.
Qed.

Lemma check_workers_together elapsed :
  together n (fun i => check_worker (elapsed i) i n) (fun i => Ok (mkCheckRank i (check_operations i))).
Proof.
  set (nc0 i := with_observer (mkRank i n) (elapsed i)).
  destruct (broadcast_together 0 nc0) as (nc1 & H1 & A1); [done..|].
  destruct (reduce_together_zero _ nc1 A1) as (nc2 & H2 & A2); [done|].
  destruct (all_gather_together _ nc2 A2) as (nc3 & H3 & A3); [done|].
  destruct (all_reduce_together _ nc3 CentralizedAllReduce A3) as (nc4 & H4 & A4); [done|].
  destruct (all_reduce_together _ nc4 RingAllReduce A4) as (nc5 & H5 & A5); [done|].
  destruct (scatter_together _ nc5 A5) as (nc6 & H6 & A6); [done|].
  destruct (all_to_all_together _ nc6 A6) as (nc7 & H7 & A7); [done|].
  pose proof (triangle_bound n ltac:(lia)) as Ht. pose proof inputs_fit as Hf.
  unfold check_worker.
  eapply (together_try n _ _ _ _ H1); cbn [fst snd].
  apply (together_lift n _ (fun i => firstn 1 (check_operations i))).
  { intros i Hi. apply (push_numbers [1; 2; 3; 4]); [|done]. by repeat constructor. }
  eapply (together_try n _ _ _ _ H2); cbn [fst snd].
  apply (together_lift n _ (fun i => firstn 2 (check_operations i))).
  { intros i Hi. unfold check_operations. destruct (i =? 0); [by apply push_constant|done]. }
  eapply (together_try n _ _ _ _ H3); cbn [fst snd].
  apply (together_lift n _ (fun i => firstn 3 (check_operations i))).
  { intros i Hi. apply push_numbers; [|unfold lenN; by rewrite length_seq].
    apply List.Forall_forall. intros v Hv%in_seq. unfold small. lia. }
  apply (together_try n _ (fun i => (nc5 i, firstn 5 (check_operations i)))).
  { cbn [for_each]. apply (together_try n _ (fun i => (nc4 i, firstn 4 (check_operations i)))).
    - eapply (together_try n _ _ _ _ H4); cbn [fst snd].
      apply (together_lift n _ (fun i => firstn 4 (check_operations i))); [intros i Hi; by apply push_constant|].
      by apply together_ret.
    - eapply (together_try n _ (fun i => _)); [|by apply together_ret].
      eapply (together_try n _ _ _ _ H5); cbn [fst snd].
      apply (together_lift n _ (fun i => firstn 5 (check_operations i))); [intros i Hi; by apply push_constant|].
      by apply together_ret. }
  eapply (together_try n _ _ _ _ H6); cbn [fst snd].
  apply (together_lift n _ (fun i => firstn 6 (check_operations i))); [intros i Hi; by apply push_constant|].
  eapply (together_try n _ _ _ _ H7); cbn [fst snd].
  apply (together_lift n _ (fun i => check_operations i)); [|by apply together_ret].
  intros i Hi. apply push_good; [|unfold lenN; rewrite length_map, length_seq; lia].
  apply Forall_map, List.Forall_forall. intros v Hv%in_seq. apply f32_of_number. unfold small. lia.
Qed.
End Check.

(** Every schedule of the check over up to 257 ranks ends without deadlock, each
    rank having run the seven operations in order and got what it expected from
    each, and the report of these ranks succeeds; a check of no rank is refused. *)
Theorem collective_check_passes {FO : FloatOps} {EI : ExactIntegers} n timeout elapsed :
  let report i := mkCheckRank i (check_operations n i) in
  (0 < n <= 257 ->
   always_returns (world_of n (fun i => check_worker (elapsed i) i n)) (map (fun i => Ok (report i)) (seq 0 n))) /\
  (forall i, Forall (fun operation => passed operation = true) (operations (report i)) /\
             map check_kind (operations (report i)) =
             [Broadcast; Reduce; AllGather; AllReduce; AllReduce; ReduceScatter; AllToAll]) /\
  run_collective_check n timeout (fun i => JoinOk (report i)) =
  (if n =? 0 then Err InvalidWorldSize
   else Ok (mkCheckReport 1 "in_memory" "native" n (map report (seq 0 n)) true)).
Proof.
  intros report. assert (forall i, Forall (fun operation => passed operation = true) (operations (report i))) as Hp.
  { intros i. unfold report, check_operations. cbn [operations]. by repeat (constructor; [by try case_match|]). }
  split; [|split].
  - intros Hn. by apply together_returns, check_workers_together.
  - intros i. split; [done|]. unfold report, check_operations. cbn [operations map]. by case_match.
  - unfold run_collective_check. destruct n as [|n]; [done|]. rewrite run_in_memory_all by lia.
    cbn [mbind result_bind]. do 2 f_equal. apply forallb_forall. intros operation Ho.
    apply in_flat_map in Ho as (r & Hr & Ho). apply in_map_iff in Hr as (i & <- & _).
    specialize (Hp i). rewrite List.Forall_forall in Hp. by apply Hp.
Qed.

(** Three ranks with binary32 addition. *)
#[local] Existing Instance binary32.
Lemma collective_check_passes_witness :
  always_returns (world_of 3 (fun i => check_worker (fun _ => 0%N) i 3))
    (map (fun i => Ok (mkCheckRank i (check_operations 3 i))) (seq 0 3)).
Proof. apply (collective_check_passes 3 0%N (fun _ _ => 0%N)). lia. Defined.
