(* ===== verification/Benchmark.v ===== *)
(** * The benchmark of all-reduce

    Models [crates/collectives/src/benchmark.rs]: the workload of a benchmark
    rank, the in-memory runner, and the aggregation of rank measurements.  The
    clock is the argument [latency], what [started.elapsed()] gives for the
    all-reduce of each sequence number.  Operations that can panic return a
    [Join], whose [JoinPanic] is the panic; an [f64] is its [spec_float]. *)
From Stdlib Require Import ZArith SpecFloat.
From S2P Require Import Prelude Sorting Rank Packet InMemory World Tensor Float.
From S2P Require Import Collective CollectiveWorld RingExchange CollectiveCheck.

(** ** Manifest and reports *)

(** [struct CollectiveBenchmarkManifest]. *)
Record CollectiveBenchmarkManifest : Type := mkBenchManifest
  { bm_schema_version : N; bm_run_id : string; bm_world_size : nat; bm_sizes : list N;
    bm_algorithms : list AllReduceAlgorithm; bm_warmup : nat; bm_iterations : nat }.

(** [struct CollectiveBenchmarkRankCase], [struct CollectiveBenchmarkRankReport]. *)
Record CollectiveBenchmarkRankCase : Type := mkRankCase
  { rc_algorithm : AllReduceAlgorithm; rc_payload_bytes : N; latencies_ns : list N;
    rc_sent_bytes : N; rc_traces : list CollectiveTrace }.
Record CollectiveBenchmarkRankReport : Type := mkBenchRank
  { br_schema_version : N; br_rank : nat; br_cases : list CollectiveBenchmarkRankCase; br_success : bool }.

(** [struct CollectiveBenchmarkResources]. *)
Record CollectiveBenchmarkResources : Type := mkBenchResources
  { engine_cpu : N; engine_memory : N; requested_cpu : N; requested_memory : N;
    rank_cpu : N; rank_memory : N; unused_cpu : N; unused_memory : N }.

(** [f64], with [u64 as f64], [*] and [/]. *)
Definition f64 : Type := spec_float.
Definition as_f64 (n : N) : f64 := binary_normalize 53 1024 (Z.of_N n) 0 false.

(** [struct CollectiveBenchmarkCase], [struct CollectiveBenchmarkReport]. *)
Record CollectiveBenchmarkCase : Type := mkBenchCase
  { bc_algorithm : AllReduceAlgorithm; bc_payload_bytes : N; bc_iterations : nat;
    mean_latency_ns : N; p50_latency_ns : N; p95_latency_ns : N;
    effective_payload_bytes_per_second : f64; observed_wire_bytes : N }.
Record CollectiveBenchmarkReport : Type := mkBenchReport
  { bench_schema_version : N; bench_backend : string; bench_collective_backend : string;
    bench_world_size : nat; bench_warmup : nat; bench_iterations : nat;
    bench_cases : list CollectiveBenchmarkCase; bench_resources : option CollectiveBenchmarkResources;
    bench_ranks : list CollectiveBenchmarkRankReport; bench_success : bool }.

(** ** Code that can panic *)
#[global] Instance join_ret : MRet Join := fun A a => JoinOk a.
#[global] Instance join_bind : MBind Join := fun A B f m =>
  match m with JoinOk a => f a | JoinErr e => JoinErr e | JoinPanic s => JoinPanic s end.
Definition of_result {A} (r : cresult A) : Join A := match r with Ok a => JoinOk a | Err e => JoinErr e end.

(** [l[i]], and [/] of [u64]. *)
Definition index {A} (l : list A) (i : nat) : Join A :=
  match l !! i with Some a => JoinOk a | None => JoinPanic "index out of bounds" end.
Definition divide (a b : N) : Join N :=
  if (b =? 0)%N then JoinPanic "attempt to divide by zero" else JoinOk (a / b)%N.

(** ** One rank *)

(** [{algorithm:?}]. *)
Definition algorithm_debug (algorithm : AllReduceAlgorithm) : string :=
  match algorithm with CentralizedAllReduce => "Centralized" | RingAllReduce => "Ring" end.

(** The elements of a payload, and its check. *)
Definition payload_elements (payload_bytes : N) : nat := N.to_nat (payload_bytes / 4).
Definition payload_invalid (algorithm : AllReduceAlgorithm) (payload_bytes : N) (world_size : nat) : bool :=
  (payload_bytes =? 0)%N || negb (payload_bytes mod 4 =? 0)%N
  || (bool_decide (algorithm = RingAllReduce) && negb (payload_elements payload_bytes mod world_size =? 0)).
Definition payload_error (algorithm : AllReduceAlgorithm) (payload_bytes : N) (world_size : nat) : CollectivesError :=
  Collective ("benchmark size " +:+ pretty payload_bytes +:+ " is invalid for "
              +:+ algorithm_debug algorithm +:+ " with " +:+ pretty world_size +:+ " ranks").

Section Rank.
Context `{FloatOps} (latency : N -> Duration).

(** [Tensor::from_vec(vec![rank as f32 + 1.; elements], elements, &Device::Cpu)]. *)
Definition payload_tensor (rank elements : nat) : Tensor :=
  check_tensor (replicate elements (fadd (f32_of rank) (f32_of 1))).

(** [native.barrier()?; native.all_reduce(&input, ReduceOp::Sum, algorithm)?], [count] times. *)
Definition warm_up (count : nat) (algorithm : AllReduceAlgorithm) (input : Tensor) (native : NativeCollectives)
  : cproc NativeCollectives :=
  for_each (seq 0 count) native (fun native _ =>
    _ ⟵ barrier;
    r ⟵ native_call (all_reduce native input Sum algorithm);
    lift (Ok r.2)).

(** The measured iterations of a rank, with what it makes of each output. *)
Definition measure {S} (count : nat) (algorithm : AllReduceAlgorithm) (input : Tensor)
  (check : S -> Tensor -> cresult S) (native : NativeCollectives) (s : S)
  : cproc (NativeCollectives * list N * S) :=
  for_each (seq 0 count) (native, [], s) (fun '(native, latencies, s) _ =>
    _ ⟵ barrier;
    let started := next_sequence native in
    r ⟵ native_call (all_reduce native input Sum algorithm);
    let latencies := latencies ++ [ns (latency started)] in
    s ⟵ lift (check s r.1);
    lift (Ok (r.2, latencies, s))).

(** [success &= values.iter().all(|value| *value == expected)]. *)
Definition check_output (expected : f32) (success : bool) (output : Tensor) : cresult bool :=
  output ← flatten_all output;
  values ← to_vec1 output;
  Ok (success && forallb (fun value => f32_eqb value expected) values).

(** A case of the workload. *)
Definition benchmark_case (rank : Rank) (manifest : CollectiveBenchmarkManifest) (expected : f32)
  (algorithm : AllReduceAlgorithm) (payload_bytes : N)
  (s : NativeCollectives * list CollectiveBenchmarkRankCase * bool)
  : cproc (NativeCollectives * list CollectiveBenchmarkRankCase * bool) :=
  (let '(native, cases, success) := s in
   let elements := payload_elements payload_bytes in
   _ ⟵ lift (reject_if (payload_invalid algorithm payload_bytes (world_size rank))
               (payload_error algorithm payload_bytes (world_size rank)));
   let input := payload_tensor (global_rank rank) elements in
   native ⟵ warm_up (bm_warmup manifest) algorithm input native;
   let native := (take_traces native).2 in
   m ⟵ measure (bm_iterations manifest) algorithm input (check_output expected) native success;
   let '(native, latencies_ns, success) := m in
   let '(traces, native) := take_traces native in
   let sent_bytes := sum64 (map sent_bytes traces) in
   lift (Ok (native, cases ++ [mkRankCase algorithm payload_bytes latencies_ns sent_bytes traces], success)))%proc.

(** [run_all_reduce_benchmark_rank]; [elapsed] is the clock of the collectives. *)
Definition run_all_reduce_benchmark_rank (elapsed : N -> Duration) (rank : Rank)
  (manifest : CollectiveBenchmarkManifest) : cproc CollectiveBenchmarkRankReport :=
  (_ ⟵ lift (reject_if (negb (bm_schema_version manifest =? 1)%N
                        || negb (bm_world_size manifest =? world_size rank)
                        || (bm_iterations manifest =? 0))
               (Collective "benchmark manifest and transport topology disagree"));
   let native := with_observer rank elapsed in
   let expected := f32_of (world_size rank * (world_size rank + 1) / 2) in
   s ⟵ for_each (bm_algorithms manifest) (native, [], true) (fun s algorithm =>
     for_each (bm_sizes manifest) s (fun s payload_bytes =>
       benchmark_case rank manifest expected algorithm payload_bytes s));
   _ ⟵ barrier;
   lift (Ok (mkBenchRank 1 (global_rank rank) s.1.2 s.2)))%proc.

(** The worker of the in-memory runner: latencies and sent bytes of one case. *)
Definition in_memory_bench_worker (elapsed : N -> Duration) (warmup iterations : nat)
  (algorithm : AllReduceAlgorithm) (elements : nat) (rank : Rank) : cproc (list N * N) :=
  (let input := payload_tensor (global_rank rank) elements in
   native ⟵ warm_up warmup algorithm input (with_observer rank elapsed);
   let native := (take_traces native).2 in
   m ⟵ measure iterations algorithm input (fun _ _ => Ok tt) native tt;
   let '(native, latencies, _) := m in
   lift (Ok (latencies, sum64 (map sent_bytes (traces native)))))%proc.
End Rank.

(** ** Aggregation *)

(** [percentile]. *)
Definition percentile (sorted : list N) (percent : nat) : N :=
  let i := ((length sorted - 1) * percent + 99) / 100 in default 0%N (sorted !! i).

(** [if mean == 0 { 0. } else { payload_bytes as f64 * 1e9 / mean as f64 }]. *)
Definition payload_rate (payload_bytes mean : N) : f64 :=
  if (mean =? 0)%N then S754_zero false
  else SFdiv 53 1024 (SFmul 53 1024 (as_f64 payload_bytes) (as_f64 1000000000)) (as_f64 mean).

(** The slowest rank of each iteration, in ascending order. *)
Definition maximum_latencies (iterations : nat) (ranks : list (list N)) : Join (list N) :=
  maximums ← mapM (fun iteration =>
    latencies ← mapM (fun latencies => index latencies iteration) ranks;
    JoinOk (foldr N.max 0%N latencies)) (seq 0 iterations);
  JoinOk (sort_by N.leb maximums).

Definition case_metrics (algorithm : AllReduceAlgorithm) (payload_bytes : N) (iterations : nat)
  (maximums : list N) (mean wire : N) : CollectiveBenchmarkCase :=
  mkBenchCase algorithm payload_bytes iterations mean (percentile maximums 50) (percentile maximums 95)
    (payload_rate payload_bytes mean) wire.

(** A case of [aggregate_all_reduce_benchmark]. *)
Definition aggregate_case (manifest : CollectiveBenchmarkManifest) (ranks : list CollectiveBenchmarkRankReport)
  (case_index : nat) : Join CollectiveBenchmarkCase :=
  first ← index ranks 0;
  first ← index (br_cases first) case_index;
  cases ← mapM (fun rank => index (br_cases rank) case_index) ranks;
  _ ← of_result (reject_if (existsb (fun case => negb (bool_decide (rc_algorithm case = rc_algorithm first))
                              || negb (rc_payload_bytes case =? rc_payload_bytes first)%N) cases)
                   (Collective "benchmark ranks emitted inconsistent case identities"));
  maximums ← maximum_latencies (bm_iterations manifest) (map latencies_ns cases);
  mean ← divide (sum64 maximums) (N.of_nat (bm_iterations manifest));
  JoinOk (case_metrics (rc_algorithm first) (rc_payload_bytes first) (bm_iterations manifest) maximums mean
            (sum64 (map rc_sent_bytes cases))).

(** [aggregate_all_reduce_benchmark]. *)
Definition aggregate_all_reduce_benchmark (manifest : CollectiveBenchmarkManifest)
  (ranks : list CollectiveBenchmarkRankReport) (resources : CollectiveBenchmarkResources)
  : Join CollectiveBenchmarkReport :=
  let ranks := sort_by_key br_rank ranks in
  _ ← of_result (reject_if (negb (length ranks =? bm_world_size manifest)
                   || existsb id (imap (fun rank report => negb (br_rank report =? rank)) ranks))
                   (Collective "benchmark rank reports are incomplete or unordered"));
  let case_count := length (bm_algorithms manifest) * length (bm_sizes manifest) in
  _ ← of_result (reject_if (existsb (fun rank => negb (length (br_cases rank) =? case_count)) ranks)
                   (Collective "benchmark ranks emitted different case counts"));
  _ ← of_result (reject_if (existsb (fun rank => negb (br_schema_version rank =? 1)%N
                      || existsb (fun case => negb (length (latencies_ns case) =? bm_iterations manifest))
                           (br_cases rank)) ranks)
                   (Collective "benchmark rank reports have an unsupported schema or sample count"));
  cases ← mapM (aggregate_case manifest ranks) (seq 0 case_count);
  let success := forallb br_success ranks in
  JoinOk (mkBenchReport 1 "tcp" "native" (bm_world_size manifest) (bm_warmup manifest) (bm_iterations manifest)
            cases (Some resources) ranks success).

(** [elements % world_size] of the in-memory runner, which may run without ranks. *)
Definition payload_checked (algorithm : AllReduceAlgorithm) (payload_bytes : N) (world_size : nat) : Join unit :=
  if ((payload_bytes =? 0)%N || negb (payload_bytes mod 4 =? 0)%N) || negb (bool_decide (algorithm = RingAllReduce))
     || negb (world_size =? 0)
  then of_result (reject_if (payload_invalid algorithm payload_bytes world_size)
                    (payload_error algorithm payload_bytes world_size))
  else JoinPanic "attempt to calculate the remainder with a divisor of zero".

(** A case of the in-memory runner, given the outcome of each worker thread. *)
Definition in_memory_case (world_size : nat) (timeout : Duration) (iterations : nat)
  (outcome : AllReduceAlgorithm -> N -> nat -> Join (list N * N)) (algorithm : AllReduceAlgorithm)
  (payload_bytes : N) : Join CollectiveBenchmarkCase :=
  _ ← payload_checked algorithm payload_bytes world_size;
  ranks ← of_result (run_in_memory world_size timeout
                       (fun e => outcome algorithm payload_bytes (global_rank (InMemory.rank e))));
  maximums ← maximum_latencies iterations (map fst ranks);
  mean ← divide (sum64 maximums) (N.max (N.of_nat iterations) 1);
  JoinOk (case_metrics algorithm payload_bytes iterations maximums mean (sum64 (map snd ranks))).

(** [run_in_memory_all_reduce_benchmark]. *)
Definition run_in_memory_all_reduce_benchmark (world_size : nat) (sizes : list N)
  (algorithms : list AllReduceAlgorithm) (warmup iterations : nat) (timeout : Duration)
  (outcome : AllReduceAlgorithm -> N -> nat -> Join (list N * N)) : Join CollectiveBenchmarkReport :=
  cases ← mapM (fun algorithm =>
    mapM (in_memory_case world_size timeout iterations outcome algorithm) sizes) algorithms;
  JoinOk (mkBenchReport 1 "in_memory" "native" world_size warmup iterations (concat cases) None [] true).
