(* ===== verification/BenchmarkProofs.v ===== *)
(** * Benchmarks measure correct all-reduces

    The ranks of [Benchmark.v] on every schedule, and the aggregation of what
    they report. *)
From Stdlib Require Import ZArith.
From S2P Require Import Prelude Sorting Rank Packet Wire InMemory World Tensor Float FloatExact.
From S2P Require Import Collective CollectiveWorld Ring RingExchange CollectiveCheck CheckProofs Benchmark.

(** ** Loops of all ranks *)
Lemma together_for_each {S I} n (body : nat -> S -> I -> cproc S) (P : list I -> (nat -> S) -> Prop) (l : list I) :
  (forall done x st, (exists rest, l = done ++ x :: rest) -> P done st ->
     exists st', together n (fun i => body i (st i) x) (fun i => Ok (st' i)) /\ P (done ++ [x]) st') ->
  forall st, P [] st ->
  exists st', together n (fun i => for_each l (st i) (body i)) (fun i => Ok (st' i)) /\ P l st'.
Proof.
  intros Hbody.
  assert (forall rest done st, l = done ++ rest -> P done st ->
    exists st', together n (fun i => for_each rest (st i) (body i)) (fun i => Ok (st' i)) /\ P l st') as H.
  { induction rest as [|x rest IH]; intros done st Hl Hst.
    - exists st. rewrite app_nil_r in Hl. subst. split; [by apply together_ret|done].
    - destruct (Hbody done x st) as (st1 & H1 & P1); [eauto|done|].
      destruct (IH (done ++ [x]) st1) as (st2 & H2 & P2); [by rewrite <- app_assoc|done|].
      exists st2. split; [|done]. cbn [for_each]. by apply (together_try n _ st1). }
  intros st Hst. by apply (H l []).
Qed.

(** ** The frames of a payload *)

(** A payload whose frame - the header, the tag, one dimension and the values - is
    within the largest frame a rank's transport writes. *)
Definition transportable (payload : N) : Prop := (44 + payload <= DEFAULT_MAX_TENSOR_BYTES)%N.

(** The transport writes the frame of a vector exactly when its values are
    [transportable]. *)
Lemma vector_frame_written s d tag packet : frame_ok (WTensor s d tag packet) ->
  (N.of_nat s < U32)%N -> (N.of_nat d < U32)%N -> length (shape packet) = 1 ->
  transportable (lenN (values packet) * 4) <->
  exists body, encode_wire (WTensor s d tag packet) DEFAULT_MAX_TENSOR_BYTES = Ok body.
Proof.
  intros Hf Hs Hd Hdim.
  assert (ranks_fit (WTensor s d tag packet)) as Hr by (split_and!; [done..|]; cbn; unfold lenN; by rewrite Hdim).
  assert (lenN (wire_bytes Byte.x00 (WTensor s d tag packet)) = 44 + lenN (values packet) * 4)%N as El.
  { unfold wire_bytes. rewrite !lenN_app, lenN_encode_values. unfold lenN. cbn [length WIRE_MAGIC].
    rewrite !length_to_le. destruct (shape packet) as [|dim [|]]; [done| |done].
    cbn [map concat]. rewrite app_nil_r, length_to_le. lia. }
  unfold transportable. rewrite <- El. split.
  - intros Hl. eexists. apply encode_wire_spec; [done|]. by split_and!.
  - intros [body (_ & -> & Hl)%encode_wire_spec]; done.
Qed.
Lemma transportable_small payload : transportable payload -> (payload < U64)%N.
Proof. unfold transportable, DEFAULT_MAX_TENSOR_BYTES, U64. lia. Qed.

(** ** The ranks *)
Section Ranks.
Context {FO : FloatOps} {EI : ExactIntegers} (n : nat).
Hypothesis Hn : 0 < n <= 257.

(** The collectives of the ranks are at sequence number [s], with [k] traces
    since they were taken, each of [sent i] bytes. *)
Definition at_sequence (s : N) (k : nat) (sent : nat -> N) (nc : nat -> NativeCollectives) : Prop :=
  forall i, i < n -> rank (nc i) = mkRank i n /\ next_sequence (nc i) = s /\
    length (traces (nc i)) = k /\ Forall (fun trace => sent_bytes trace = sent i) (traces (nc i)).

Lemma at_sequence_fresh s k sent sent' nc :
  at_sequence s k sent nc -> at_sequence s 0 sent' (fun i => (take_traces (nc i)).2).
Proof. intros H i Hi. destruct (H i Hi) as (H1 & H2 & _). by split_and!. Qed.

Lemma at_sequence_nil s sent sent' nc : at_sequence s 0 sent nc -> at_sequence s 0 sent' nc.
Proof. intros H i Hi. destruct (H i Hi) as (H1 & H2 & H3 & _). by apply nil_length_inv in H3 as ->. Qed.

Section Case.
Context (algorithm : AllReduceAlgorithm) (payload : N).
Hypothesis Hpayload : payload_invalid algorithm payload n = false.
Hypothesis Hfits : (payload < U64)%N.
#[local] Abbreviation elements := (payload_elements payload).
#[local] Abbreviation sent := (fun i => wrap64 (all_reduce_sent algorithm n i payload)).
#[local] Abbreviation total := (constant elements (triangle n)).

Lemma payload_elements_bytes : (N.of_nat elements * 4 = payload)%N /\ (algorithm = RingAllReduce -> elements mod n = 0).
Proof.
  unfold payload_invalid in Hpayload. apply orb_false_iff in Hpayload as [H Hr].
  apply orb_false_iff in H as [_ Hm]. apply negb_false_iff, N.eqb_eq in Hm. split.
  - unfold payload_elements. rewrite N2Nat.id, N.mul_comm. symmetry. by apply N.Div0.div_exact.
  - intros ->. cbn in Hr. by apply negb_false_iff, Nat.eqb_eq in Hr.
Qed.

(** One synchronised all-reduce. *)
Lemma synchronized_together {A} s k nc (f : nat -> Tensor * NativeCollectives -> cproc A) res :
  at_sequence s k sent nc -> (s < 2 ^ 44)%N ->
  (forall nc', at_sequence (s + 1) (k + 1) sent nc' -> together n (fun i => f i (total, nc' i)) (res nc')) ->
  exists nc', at_sequence (s + 1) (k + 1) sent nc' /\
    together n (fun i => (_ ⟵ barrier; r ⟵ native_call (all_reduce (nc i) (payload_tensor i elements) Sum algorithm); f i r)%proc)
      (res nc').
Proof.
  intros Hnc Hs Hf. destruct payload_elements_bytes as [Hbytes Hmod].
  assert (forall i, i < n -> payload_tensor i elements = constant elements (S i)) as Hts.
  { intros i Hi. unfold payload_tensor, constant. rewrite f32_of_add by (unfold small; lia). by rewrite Nat.add_1_r. }
  assert (group n nc (fun i => payload_tensor i elements) s) as Hg.
  { split; [lia|by intros i Hi; apply Hnc..|done|]. intros i Hi. rewrite Hts by done.
    apply constant_sendable. by rewrite Hbytes. }
  destruct (all_reduce_constant n elements _ nc s algorithm ltac:(lia) Hts ltac:(by rewrite Hbytes) Hmod Hg)
    as (nc' & Ht & Hc). rewrite Hbytes in Hc.
  assert (at_sequence (s + 1) (k + 1) sent nc') as Hnc'.
  { intros i Hi. destruct (Hnc i Hi) as (H1 & H2 & H3 & H4), (Hc i Hi) as [received ->]. cbn.
    rewrite H1, H2, length_app, H3. split_and!; [done..|]. apply Forall_app. split; [done|]. by repeat constructor. }
  exists nc'. split; [done|]. unfold barrier. apply together_barrier; [lia|].
  apply (together_try n _ (fun i => (total, nc' i))); [|by apply Hf].
  unfold native_call. apply (together_bind n _ (fun i => (Ok total, nc' i)) _ _ Ht). by apply together_ret.
Qed.

Lemma warm_up_together s k count nc :
  at_sequence s k sent nc -> (s + N.of_nat count <= 2 ^ 44)%N ->
  exists nc', together n (fun i => warm_up count algorithm (payload_tensor i elements) (nc i)) (fun i => Ok (nc' i)) /\
    at_sequence (s + N.of_nat count) (k + count) sent nc'.
Proof.
  intros Hnc Hs. unfold warm_up.
  destruct (together_for_each n (fun i native (_ : nat) =>
      (_ ⟵ barrier; r ⟵ native_call (all_reduce native (payload_tensor i elements) Sum algorithm); lift (Ok r.2))%proc)
    (fun before nc => at_sequence (s + lenN before) (k + length before) sent nc) (seq 0 count)) with nc
    as (nc' & H & Hnc').
  - intros before x st (rest & Hl) Hst.
    apply (f_equal length) in Hl. rewrite length_seq, length_app in Hl. cbn in Hl.
    destruct (synchronized_together (s + lenN before) _ st (fun i r => lift (Ok r.2)) (fun nc' i => Ok (nc' i)) Hst)
      as (nc' & Hnc' & H); [unfold lenN; lia|by intros; apply together_ret|].
    exists nc'. split; [exact H|]. unfold lenN in *. rewrite length_app. cbn [length].
    replace (s + N.of_nat (length before + 1))%N with (s + N.of_nat (length before) + 1)%N by lia. by rewrite Nat.add_assoc.
  - unfold lenN. cbn. by rewrite N.add_0_r, Nat.add_0_r.
  - exists nc'. split; [done|]. unfold lenN in Hnc'. by rewrite length_seq in Hnc'.
Qed.

(** What the clock of rank [i] gives from sequence number [s] on. *)
Definition samples (latency : nat -> N -> Duration) (i : nat) (s : N) (count : nat) : list N :=
  map (fun j => ns (latency i (s + N.of_nat j)%N)) (seq 0 count).
Lemma samples_snoc latency i s count :
  samples latency i s (count + 1) = samples latency i s count ++ [ns (latency i (s + N.of_nat count)%N)].
Proof. unfold samples. by rewrite seq_app, map_app. Qed.

Lemma measure_together {S} latency s count (check : S -> Tensor -> cresult S) v nc :
  (forall i, i < n -> check (v i) total = Ok (v i)) ->
  at_sequence s 0 sent nc -> (s + N.of_nat count <= 2 ^ 44)%N ->
  exists nc', together n (fun i => measure (latency i) count algorithm (payload_tensor i elements) check (nc i) (v i))
                (fun i => Ok (nc' i, samples latency i s count, v i)) /\
    at_sequence (s + N.of_nat count) count sent nc'.
Proof.
  intros Hcheck Hnc Hs. unfold measure.
  destruct (together_for_each n (fun i '(native, latencies, s) (_ : nat) =>
      (_ ⟵ barrier;
       r ⟵ native_call (all_reduce native (payload_tensor i elements) Sum algorithm);
       s ⟵ lift (check s r.1);
       lift (Ok (r.2, latencies ++ [ns (latency i (next_sequence native))], s)))%proc)
    (fun before st => exists nc, at_sequence (s + lenN before) (length before) sent nc /\
       st = fun i => (nc i, samples latency i s (length before), v i)) (seq 0 count)) with (fun i => (nc i, @nil N, v i))
    as (st' & H & nc' & Hnc' & ->).
  - intros before x st (rest & Hl) (nc1 & Hnc1 & ->).
    apply (f_equal length) in Hl. rewrite length_seq, length_app in Hl. cbn in Hl.
    destruct (synchronized_together (s + lenN before) _ nc1
      (fun i r => (s0 ⟵ lift (check (v i) r.1);
                   lift (Ok (r.2, samples latency i s (length before) ++ [ns (latency i (next_sequence (nc1 i)))], s0)))%proc)
      (fun nc' i => Ok (nc' i, samples latency i s (length before + 1), v i)) Hnc1)
      as (nc' & Hnc' & H); [unfold lenN; lia| |].
    { intros nc' _. apply (together_lift n _ v); [done|]. apply together_ret. intros i Hi.
      rewrite samples_snoc. by rewrite (proj1 (proj2 (Hnc1 i Hi))). }
    exists (fun i => (nc' i, samples latency i s (length before + 1), v i)). split; [exact H|]. exists nc'.
    unfold lenN in *. rewrite length_app. cbn [length]. split; [|done].
    replace (s + N.of_nat (length before + 1))%N with (s + N.of_nat (length before) + 1)%N by lia. done.
  - exists nc. unfold lenN. cbn. by rewrite N.add_0_r.
  - unfold lenN in Hnc'. rewrite length_seq in *. exists nc'. split; [exact H|done].
Qed.

Lemma output_passes b : check_output (f32_of (triangle n)) b total = Ok b.
Proof.
  unfold check_output, constant, check_tensor, flatten_all, to_vec1. cbn.
  replace (forallb _ _) with true; [by rewrite andb_true_r|]. symmetry. apply forallb_forall.
  intros x Hx%list_elem_of_In%elem_of_replicate_inv. subst. apply f32_eqb_refl, f32_of_number, triangle_bound. lia.
Qed.
End Case.

Lemma sent_sum sent traces count : length traces = count ->
  Forall (fun trace => sent_bytes trace = wrap64 sent) traces ->
  sum64 (map sent_bytes traces) = wrap64 (N.of_nat count * sent).
Proof.
  intros <- Ht.
  assert (map sent_bytes traces = map wrap64 (replicate (length traces) sent)) as ->.
  { induction Ht as [|t l E _ IH]; [done|]. cbn. by rewrite E, IH. }
  by rewrite sum64_wrapped, sumN_replicate.
Qed.

Section Workload.
Context (latency elapsed : nat -> N -> Duration) (manifest : CollectiveBenchmarkManifest).
#[local] Abbreviation warmup := (bm_warmup manifest).
#[local] Abbreviation iterations := (bm_iterations manifest).
#[local] Abbreviation expected := (f32_of (triangle n)).

(** The sequence number of case [k]. *)
Definition case_start (k : nat) : N := N.of_nat (k * (warmup + iterations)).

(** What rank [i] measures in case [k]. *)
Definition case_measured (i k : nat) (algorithm : AllReduceAlgorithm) (payload : N)
  (case : CollectiveBenchmarkRankCase) : Prop :=
  rc_algorithm case = algorithm /\ rc_payload_bytes case = payload /\
  latencies_ns case = samples latency i (case_start k + N.of_nat warmup) iterations /\
  length (rc_traces case) = iterations /\
  rc_sent_bytes case = wrap64 (N.of_nat iterations * all_reduce_sent algorithm n i payload).

Definition cases_measured (i : nat) (work : list (AllReduceAlgorithm * N)) (cases : list CollectiveBenchmarkRankCase)
  : Prop :=
  length cases = length work /\
  forall k algorithm payload case, work !! k = Some (algorithm, payload) -> cases !! k = Some case ->
    case_measured i k algorithm payload case.

Lemma cases_measured_snoc i work cases algorithm payload case :
  cases_measured i work cases -> case_measured i (length work) algorithm payload case ->
  cases_measured i (work ++ [(algorithm, payload)]) (cases ++ [case]).
Proof.
  intros [Hl Hc] Hcase. split; [by rewrite !length_app, Hl|]. intros k a p c Hw Hk.
  apply lookup_app_Some in Hw as [Hw|[Hle Hw]], Hk as [Hk|[Hle' Hk]].
  - by eapply Hc.
  - apply lookup_lt_Some in Hw. lia.
  - apply lookup_lt_Some in Hk. lia.
  - apply list_lookup_singleton_Some in Hw as [E [= <- <-]], Hk as [_ <-].
    by replace k with (length work) by lia.
Qed.

(** The ranks after the cases of [work]. *)
Definition measured (work : list (AllReduceAlgorithm * N))
  (st : nat -> NativeCollectives * list CollectiveBenchmarkRankCase * bool) : Prop :=
  exists nc cases sent, st = (fun i => (nc i, cases i, true)) /\
    at_sequence (case_start (length work)) 0 sent nc /\ forall i, i < n -> cases_measured i work (cases i).

Lemma case_together work st algorithm payload :
  measured work st -> payload_invalid algorithm payload n = false -> (payload < U64)%N ->
  (case_start (length work + 1) <= 2 ^ 44)%N ->
  exists st', together n (fun i => benchmark_case (latency i) (mkRank i n) manifest expected algorithm payload (st i))
                (fun i => Ok (st' i)) /\ measured (work ++ [(algorithm, payload)]) st'.
Proof.
  intros (nc & cases & sent0 & -> & Hnc & Hcases) Hp Hfits Hs. set (s := case_start (length work)) in *.
  assert (case_start (length work + 1) = s + N.of_nat warmup + N.of_nat iterations)%N as Hnext
    by (unfold s, case_start; lia).
  destruct (warm_up_together algorithm payload Hp Hfits s 0 warmup nc) as (nc1 & H1 & Hnc1);
    [by eapply at_sequence_nil|lia|].
  destruct (measure_together algorithm payload Hp Hfits latency (s + N.of_nat warmup) iterations (check_output expected)
    (fun _ => true) (fun i => (take_traces (nc1 i)).2)) as (nc2 & H2 & Hnc2);
    [by intros; apply output_passes|by eapply at_sequence_fresh|lia|].
  set (case i := mkRankCase algorithm payload (samples latency i (s + N.of_nat warmup) iterations)
         (sum64 (map sent_bytes (traces (nc2 i)))) (traces (nc2 i))).
  exists (fun i => ((take_traces (nc2 i)).2, cases i ++ [case i], true)). split.
  - unfold benchmark_case. cbn [world_size global_rank]. rewrite Hp. cbn [reject_if].
    apply (together_lift n _ (fun _ => tt)); [done|].
    apply (together_try n _ _ _ _ H1). apply (together_try n _ _ _ _ H2). by apply together_ret.
  - exists (fun i => (take_traces (nc2 i)).2), (fun i => cases i ++ [case i]), sent0. split; [done|]. split.
    + rewrite length_app. cbn [length]. rewrite Hnext. by eapply at_sequence_fresh.
    + intros i Hi. apply cases_measured_snoc; [by apply Hcases|]. destruct (Hnc2 i Hi) as (_ & _ & Hl & Hsent).
      split_and!; [done..|]. by apply sent_sum.
Qed.

Definition work : list (AllReduceAlgorithm * N) :=
  flat_map (fun algorithm => map (pair algorithm) (bm_sizes manifest)) (bm_algorithms manifest).

(** The workload the transport and its ranks accept. *)
Record workload_ok : Prop := mkWorkloadOk
  { wo_schema : bm_schema_version manifest = 1%N;
    wo_world : bm_world_size manifest = n;
    wo_iterations : 0 < iterations;
    wo_payloads : forall algorithm payload, algorithm ∈ bm_algorithms manifest -> payload ∈ bm_sizes manifest ->
      payload_invalid algorithm payload n = false /\ transportable payload;
    wo_sequence : (case_start (length work) <= 2 ^ 44)%N }.

(** What rank [i] reports. *)
Definition rank_measured (i : nat) (report : CollectiveBenchmarkRankReport) : Prop :=
  br_schema_version report = 1%N /\ br_rank report = i /\ br_success report = true /\
  cases_measured i work (br_cases report).

Lemma rows_measured st : workload_ok -> measured [] st ->
  exists st', together n (fun i => for_each (bm_algorithms manifest) (st i) (fun s algorithm =>
      for_each (bm_sizes manifest) s (fun s payload =>
        benchmark_case (latency i) (mkRank i n) manifest expected algorithm payload s))) (fun i => Ok (st' i)) /\
    measured work st'.
Proof.
  intros Hok. apply (together_for_each n (fun i s algorithm => for_each (bm_sizes manifest) s (fun s payload =>
        benchmark_case (latency i) (mkRank i n) manifest expected algorithm payload s))
    (fun algorithms st => measured (flat_map (fun algorithm => map (pair algorithm) (bm_sizes manifest)) algorithms) st)).
  intros before algorithm st1 (rest & Hrest) Hst1. rewrite flat_map_app. cbn [flat_map]. rewrite app_nil_r.
  set (first := flat_map _ before) in *.
  apply (together_for_each n (fun i s payload =>
      benchmark_case (latency i) (mkRank i n) manifest expected algorithm payload s)
    (fun sizes st => measured (first ++ map (pair algorithm) sizes) st)); [|by rewrite app_nil_r].
  intros sizes payload st2 (rest2 & Hrest2) Hst2. rewrite map_app, app_assoc. cbn [map].
  destruct (wo_payloads Hok algorithm payload) as [Hp Hfits]; [rewrite Hrest; set_solver|rewrite Hrest2; set_solver|].
  apply transportable_small in Hfits.
  apply case_together; [done..|]. etransitivity; [|exact (wo_sequence Hok)]. unfold case_start.
  assert (length (first ++ map (pair algorithm) sizes) + 1 <= length work) as Hle.
  { unfold work. rewrite Hrest, flat_map_app. cbn [flat_map]. fold first. rewrite Hrest2, map_app, !length_app. cbn. lia. }
  apply (Nat.mul_le_mono_r _ _ (warmup + iterations)) in Hle. lia.
Qed.

(** Every schedule ends, with the report of each rank measured. *)
Lemma benchmark_ranks_together : workload_ok ->
  exists reports, together n (fun i => run_all_reduce_benchmark_rank (latency i) (elapsed i) (mkRank i n) manifest)
      (fun i => Ok (reports i)) /\
    forall i, i < n -> rank_measured i (reports i).
Proof.
  intros Hok. destruct (rows_measured (fun i => (with_observer (mkRank i n) (elapsed i), [], true)) Hok)
    as (st & H & nc & cases & sent & -> & Hnc & Hcases).
  { exists (fun i => with_observer (mkRank i n) (elapsed i)), (fun _ => []), (fun _ => 0%N). split; [done|]. split.
    - intros i Hi. by split_and!.
    - intros i Hi. split; [done|]. intros k a p c Hw. done. }
  exists (fun i => mkBenchRank 1 i (cases i) true). split; [|by intros i Hi; split_and!; try apply Hcases].
  unfold run_all_reduce_benchmark_rank. cbn [world_size global_rank].
  apply (together_lift n _ (fun _ => tt)).
  { intros i Hi. rewrite (wo_schema Hok), (wo_world Hok), Nat.eqb_refl. pose proof (wo_iterations Hok).
    by destruct (Nat.eqb_spec iterations 0); [lia|]. }
  apply (together_try n _ _ _ _ H). apply together_barrier; [lia|]. by apply together_ret.
Qed.
End Workload.

(** The workers of the in-memory runner measure the same. *)
Lemma in_memory_workers_together algorithm payload latency elapsed warmup iterations :
  payload_invalid algorithm payload n = false -> (payload < U64)%N ->
  (N.of_nat (warmup + iterations) <= 2 ^ 44)%N ->
  together n (fun i => in_memory_bench_worker (latency i) (elapsed i) warmup iterations algorithm
                         (payload_elements payload) (mkRank i n))
    (fun i => Ok (samples latency i (N.of_nat warmup) iterations,
                  wrap64 (N.of_nat iterations * all_reduce_sent algorithm n i payload))).
Proof.
  intros Hp Hfits Hs.
  destruct (warm_up_together algorithm payload Hp Hfits 0 0 warmup (fun i => with_observer (mkRank i n) (elapsed i)))
    as (nc1 & H1 & Hnc1); [by intros i Hi; split_and!|lia|].
  destruct (measure_together algorithm payload Hp Hfits latency (N.of_nat warmup) iterations (fun _ _ => Ok tt)
    (fun _ => tt) (fun i => (take_traces (nc1 i)).2)) as (nc2 & H2 & Hnc2);
    [done|by eapply at_sequence_fresh|lia|].
  unfold in_memory_bench_worker. apply (together_try n _ _ _ _ H1). apply (together_try n _ _ _ _ H2).
  apply together_ret. intros i Hi. destruct (Hnc2 i Hi) as (_ & _ & Hl & Hsent). by rewrite (sent_sum _ _ _ Hl Hsent).
Qed.
End Ranks.

(** ** Aggregation *)

Lemma join_mapM {A B} (f : A -> Join B) g l : (forall x, x ∈ l -> f x = JoinOk (g x)) -> mapM f l = JoinOk (map g l).
Proof.
  induction l as [|x l IH]; intros Hf; [done|]. cbn. rewrite Hf by left. cbn.
  rewrite IH by (intros y Hy; apply Hf; by right). done.
Qed.
Lemma join_mapM_if {A B} (f : A -> Join B) g (b : A -> bool) e l :
  (forall x, x ∈ l -> f x = if b x then JoinOk (g x) else JoinErr e) ->
  mapM f l = if forallb b l then JoinOk (map g l) else JoinErr e.
Proof.
  induction l as [|x l IH]; intros Hf; [done|]. cbn. rewrite Hf by left. destruct (b x); [|done]. cbn.
  rewrite IH by (intros y Hy; apply Hf; by right). by destruct (forallb b l).
Qed.

Definition no_case : CollectiveBenchmarkRankCase := mkRankCase CentralizedAllReduce 0 [] 0 [].
(** The case [k] of a rank, and what identifies it. *)
Definition case_at (k : nat) (rank : CollectiveBenchmarkRankReport) : CollectiveBenchmarkRankCase :=
  nth k (br_cases rank) no_case.
Definition identity (case : CollectiveBenchmarkRankCase) : AllReduceAlgorithm * N :=
  (rc_algorithm case, rc_payload_bytes case).

Lemma index_nth {A} (l : list A) i d : i < length l -> index l i = JoinOk (nth i l d).
Proof.
  intros Hi. unfold index. destruct (nth_lookup_or_length l i d) as [E|]; [by rewrite E|lia].
Qed.

Section Aggregate.
Context (manifest : CollectiveBenchmarkManifest).
#[local] Abbreviation iterations := (bm_iterations manifest).
#[local] Abbreviation case_count := (length (bm_algorithms manifest) * length (bm_sizes manifest)).

(** The slowest rank of each iteration of a case, in ascending order. *)
Definition slowest (rows : list (list N)) : list N :=
  sort_by N.leb (map (fun j => foldr N.max 0%N (map (fun row => nth j row 0%N) rows)) (seq 0 iterations)).
Definition summarise (cases : list CollectiveBenchmarkRankCase) (first : CollectiveBenchmarkRankCase)
  : CollectiveBenchmarkCase :=
  let maximums := slowest (map latencies_ns cases) in
  case_metrics (rc_algorithm first) (rc_payload_bytes first) iterations maximums
    (sum64 maximums / N.of_nat iterations)%N (sum64 (map rc_sent_bytes cases)).

(** A rank report of the right form. *)
Definition rank_complete (rank : CollectiveBenchmarkRankReport) : bool :=
  (br_schema_version rank =? 1)%N && (length (br_cases rank) =? case_count) &&
  forallb (fun case => length (latencies_ns case) =? iterations) (br_cases rank).

Lemma maximum_latencies_ok rows : Forall (fun row => length row = iterations) rows ->
  maximum_latencies iterations rows = JoinOk (slowest rows).
Proof.
  intros Hrows. unfold maximum_latencies.
  rewrite (join_mapM _ (fun j => foldr N.max 0%N (map (fun row => nth j row 0%N) rows))); [done|].
  intros j [_ Hj]%elem_of_seq. rewrite (join_mapM _ (fun row => nth j row 0%N)); [done|].
  intros row Hrow. rewrite List.Forall_forall in Hrows. apply index_nth.
  rewrite (Hrows row) by (by apply list_elem_of_In). done.
Qed.

Lemma different_cases k (first : CollectiveBenchmarkRankCase) ranks :
  existsb (fun case => negb (bool_decide (rc_algorithm case = rc_algorithm first))
             || negb (rc_payload_bytes case =? rc_payload_bytes first)%N) (map (case_at k) ranks) =
  negb (forallb (fun rank => bool_decide (identity (case_at k rank) = identity first)) ranks).
Proof.
  induction ranks as [|rank ranks IH]; [done|]. cbn. rewrite IH, negb_andb. f_equal. unfold identity.
  destruct (N.eqb_spec (rc_payload_bytes (case_at k rank)) (rc_payload_bytes first)); repeat case_bool_decide; try done; exfalso; naive_solver congruence.
Qed.

Lemma aggregate_case_ok first ranks k :
  0 < iterations -> k < case_count -> Forall (fun rank => rank_complete rank = true) (first :: ranks) ->
  aggregate_case manifest (first :: ranks) k =
  if forallb (fun rank => bool_decide (identity (case_at k rank) = identity (case_at k first))) (first :: ranks)
  then JoinOk (summarise (map (case_at k) (first :: ranks)) (case_at k first))
  else JoinErr (Collective "benchmark ranks emitted inconsistent case identities").
Proof.
  intros Hi Hk Hall. set (all := first :: ranks) in *.
  assert (forall rank, rank ∈ all -> index (br_cases rank) k = JoinOk (case_at k rank) /\
    length (latencies_ns (case_at k rank)) = iterations) as Hindex.
  { intros rank Hr. rewrite List.Forall_forall in Hall. specialize (Hall rank ltac:(by apply list_elem_of_In)).
    apply andb_true_iff in Hall as [[_ Hl%Nat.eqb_eq]%andb_true_iff Hs]. rewrite forallb_forall in Hs.
    split; [apply index_nth; lia|]. apply Nat.eqb_eq, Hs, nth_In. lia. }
  unfold aggregate_case. cbn [index lookup list_lookup mbind join_bind all].
  destruct (Hindex first) as [-> _]; [by left|]. cbn [mbind join_bind]. fold all.
  rewrite (join_mapM _ (case_at k)) by (intros; by apply Hindex). cbn [mbind join_bind].
  rewrite different_cases.
  destruct (forallb _ all); [|done]. cbn [negb reject_if of_result mbind join_bind].
  rewrite maximum_latencies_ok.
  - cbn [mbind join_bind]. unfold divide. destruct (N.eqb_spec (N.of_nat iterations) 0); [lia|]. done.
  - apply Forall_map, Forall_map, List.Forall_forall. intros rank Hr%list_elem_of_In. by apply Hindex.
Qed.

(** The reports in rank order, summarised. *)
Definition summary_report (ranks : list CollectiveBenchmarkRankReport) (resources : CollectiveBenchmarkResources)
  : CollectiveBenchmarkReport :=
  mkBenchReport 1 "tcp" "native" (bm_world_size manifest) (bm_warmup manifest) iterations
    (map (fun k => summarise (map (case_at k) ranks) (case_at k (hd (mkBenchRank 0 0 [] false) ranks))) (seq 0 case_count))
    (Some resources) ranks (forallb br_success ranks).

(** The reports a complete benchmark of this manifest has. *)
Record complete_reports (ranks : list CollectiveBenchmarkRankReport) : Prop := mkComplete
  { cr_ranks : map br_rank ranks ≡ₚ seq 0 (bm_world_size manifest);
    cr_form : forall rank, rank ∈ ranks -> rank_complete rank = true;
    cr_cases : forall rank rank' k, rank ∈ ranks -> rank' ∈ ranks -> k < case_count ->
      identity (case_at k rank) = identity (case_at k rank') }.

Lemma rank_order k ranks :
  existsb id (imap (fun rank report => negb (br_rank report =? k + rank)) ranks) =
  negb (bool_decide (map br_rank ranks = seq k (length ranks))).
Proof.
  revert k. induction ranks as [|report ranks IH]; intros k; [done|]. rewrite imap_cons. cbn [existsb map seq length].
  rewrite (imap_ext _ (fun rank report => negb (br_rank report =? S k + rank))) by (intros; cbn; do 2 f_equal; lia).
  rewrite IH, Nat.add_0_r. unfold id. destruct (Nat.eqb_spec (br_rank report) k); repeat case_bool_decide; try done;
    exfalso; naive_solver congruence.
Qed.

Lemma existsb_negb {A} (f : A -> bool) l : existsb (fun x => negb (f x)) l = negb (forallb f l).
Proof. induction l as [|x l IH]; [done|]. cbn. by rewrite IH, negb_andb. Qed.
Lemma bad_samples ranks :
  existsb (fun rank => negb (br_schema_version rank =? 1)%N
             || existsb (fun case => negb (length (latencies_ns case) =? iterations)) (br_cases rank)) ranks =
  negb (forallb (fun rank => (br_schema_version rank =? 1)%N &&
                   forallb (fun case => length (latencies_ns case) =? iterations) (br_cases rank)) ranks).
Proof. induction ranks as [|r ranks IH]; [done|]. cbn. by rewrite IH, existsb_negb, !negb_andb. Qed.
Lemma Forall_complete ranks :
  forallb rank_complete ranks =
  forallb (fun rank => length (br_cases rank) =? case_count) ranks &&
  forallb (fun rank => (br_schema_version rank =? 1)%N &&
             forallb (fun case => length (latencies_ns case) =? iterations) (br_cases rank)) ranks.
Proof.
  induction ranks as [|r ranks IH]; [done|]. cbn [forallb]. rewrite IH. unfold rank_complete.
  destruct (br_schema_version r =? 1)%N, (length (br_cases r) =? case_count), (forallb _ (br_cases r));
    cbn [andb]; by rewrite ?andb_false_r.
Qed.

(** Whether the reports, in rank order, are complete. *)
Definition reports_complete (ranks : list CollectiveBenchmarkRankReport) : bool :=
  bool_decide (map br_rank ranks = seq 0 (bm_world_size manifest)) && forallb rank_complete ranks &&
  forallb (fun k => forallb (fun rank => bool_decide (identity (case_at k rank) =
    identity (case_at k (hd (mkBenchRank 0 0 [] false) ranks)))) ranks) (seq 0 case_count).

Lemma aggregate_verdict ranks resources : 0 < bm_world_size manifest -> 0 < iterations ->
  let sorted := sort_by_key br_rank ranks in
  if reports_complete sorted
  then aggregate_all_reduce_benchmark manifest ranks resources = JoinOk (summary_report sorted resources)
  else exists message, aggregate_all_reduce_benchmark manifest ranks resources = JoinErr (Collective message).
Proof.
  intros Hw Hi sorted. unfold aggregate_all_reduce_benchmark, reports_complete. fold sorted.
  rewrite (rank_order 0). destruct (Nat.eqb_spec (length sorted) (bm_world_size manifest)) as [Hl|Hl]; cycle 1.
  { cbn [negb orb reject_if of_result mbind join_bind]. rewrite bool_decide_eq_false_2; [by eexists|].
    intros E. apply (f_equal length) in E. by rewrite length_map, length_seq in E. }
  rewrite <- Hl. cbn [negb orb]. case_bool_decide as Hr; cbn [negb reject_if of_result mbind join_bind andb]; [|by eexists].
  rewrite Forall_complete. rewrite existsb_negb.
  destruct (forallb (fun rank => length (br_cases rank) =? case_count) sorted) eqn:Ec;
    cbn [negb reject_if of_result mbind join_bind andb]; [|by eexists].
  rewrite bad_samples. destruct (forallb (fun rank => (_ =? 1)%N && _) sorted) eqn:Es;
    cbn [negb reject_if of_result mbind join_bind andb]; [|by eexists].
  assert (Forall (fun rank => rank_complete rank = true) sorted) as Hall.
  { apply List.Forall_forall, forallb_forall. by rewrite Forall_complete, Ec, Es. }
  destruct sorted as [|first rest] eqn:E; [cbn in Hl; lia|]. cbn [hd].
  rewrite (join_mapM_if _ (fun k => summarise (map (case_at k) (first :: rest)) (case_at k first))
    (fun k => forallb (fun rank => bool_decide (identity (case_at k rank) = identity (case_at k first))) (first :: rest))
    (Collective "benchmark ranks emitted inconsistent case identities")).
  - destruct (forallb _ (seq 0 case_count)); [|by eexists]. unfold summary_report. by rewrite <- Hl.
  - intros k [_ Hk]%elem_of_seq. by apply aggregate_case_ok.
Qed.

Lemma reports_complete_spec ranks : 0 < bm_world_size manifest ->
  reports_complete (sort_by_key br_rank ranks) = true <-> complete_reports ranks.
Proof.
  intros Hw. unfold reports_complete. rewrite !andb_true_iff, bool_decide_eq_true, !forallb_forall.
  assert (forall rank, In rank (sort_by_key br_rank ranks) <-> rank ∈ ranks) as Hin.
  { intros rank. rewrite <- list_elem_of_In. by rewrite sort_by_key_perm. }
  split.
  - intros [[Hr Hc] Hi]. split.
    + rewrite <- Hr. symmetry. apply Permutation_map, sort_by_key_perm.
    + intros rank Hrank. by apply Hc, Hin.
    + intros rank rank' k H1 H2 Hk. specialize (Hi k ltac:(apply in_seq; lia)). rewrite forallb_forall in Hi.
      transitivity (identity (case_at k (hd (mkBenchRank 0 0 [] false) (sort_by_key br_rank ranks)))); [|symmetry];
        by apply (bool_decide_eq_true_1 _), Hi, Hin.
  - intros [Hr Hc Hi]. split; [split|].
    + by apply sort_by_key_seq.
    + intros rank Hrank. by apply Hc, Hin.
    + intros k [_ Hk]%in_seq. apply forallb_forall. intros rank Hrank. apply bool_decide_eq_true.
      apply Hi; [by apply Hin| |done]. apply Hin. destruct (sort_by_key br_rank ranks); [done|by left].
Qed.
End Aggregate.

(** ** The bytes on the wire *)

Lemma sum_sent algorithm n payload : 0 < n -> payload_invalid algorithm payload n = false ->
  sumN (map (fun i => all_reduce_sent algorithm n i payload) (seq 0 n)) = (N.of_nat (2 * (n - 1)) * payload)%N.
Proof.
  intros Hn Hp. destruct (payload_elements_bytes n algorithm payload Hp) as [Hb Hmod]. destruct algorithm.
  - rewrite (seq_positive n) by done. cbn [map sumN all_reduce_sent Nat.eqb].
    rewrite (map_ext_in _ (fun _ => payload)), map_const_seq, sumN_replicate; [lia|].
    intros i [Hi _]%in_seq. unfold all_reduce_sent. by destruct (Nat.eqb_spec i 0); [lia|].
  - specialize (Hmod eq_refl). apply Nat.Div0.mod_divides in Hmod as [c Hc]. rewrite Hc in Hb.
    unfold all_reduce_sent. rewrite map_const_seq, sumN_replicate, <- Hb.
    replace (N.of_nat (n * c) * 4)%N with (N.of_nat c * 4 * N.of_nat n)%N by lia. rewrite N.div_mul by lia. lia.
Qed.

(** A case of the in-memory runner: the statistics of the slowest worker, and the
    bytes of all workers. *)
Lemma in_memory_case_reports latency n timeout warmup iterations algorithm payload :
  0 < n -> payload_invalid algorithm payload n = false ->
  let rows := map (fun i => samples latency i (N.of_nat warmup) iterations) (seq 0 n) in
  exists maximums, maximum_latencies iterations rows = JoinOk maximums /\
    in_memory_case n timeout iterations
      (fun algorithm payload i => JoinOk (samples latency i (N.of_nat warmup) iterations,
                                          wrap64 (N.of_nat iterations * all_reduce_sent algorithm n i payload)))
      algorithm payload =
    JoinOk (case_metrics algorithm payload iterations maximums
              (sum64 maximums / N.max (N.of_nat iterations) 1)%N
              (wrap64 (N.of_nat iterations * (N.of_nat (2 * (n - 1)) * payload)))).
Proof.
  intros Hn Hp rows.
  pose proof (maximum_latencies_ok (mkBenchManifest 1 "" n [] [] warmup iterations) rows) as Hm.
  cbn [bm_iterations] in Hm. specialize (Hm ltac:(apply Forall_map, List.Forall_forall; intros i _;
    unfold samples; by rewrite length_map, length_seq)).
  eexists. split; [exact Hm|]. unfold in_memory_case, payload_checked.
  destruct (Nat.eqb_spec n 0); [lia|]. rewrite orb_true_r, Hp. cbn [reject_if of_result mbind join_bind].
  rewrite (run_in_memory_all n timeout (fun i => (samples latency i (N.of_nat warmup) iterations,
    wrap64 (N.of_nat iterations * all_reduce_sent algorithm n i payload)))) by done. cbn [of_result mbind join_bind]. rewrite !map_map. cbn [fst snd].
  fold rows. rewrite Hm. cbn [mbind join_bind]. unfold divide.
  destruct (N.eqb_spec (N.max (N.of_nat iterations) 1) 0); [lia|]. cbn [mbind join_bind]. do 2 f_equal.
  rewrite <- (map_map (fun i => N.of_nat iterations * all_reduce_sent algorithm n i payload)%N wrap64).
  by rewrite sum64_wrapped, sumN_map_scale, sum_sent.
Qed.

Section Correct.
Context {FO : FloatOps} {EI : ExactIntegers} (n : nat) (latency : nat -> N -> Duration)
  (manifest : CollectiveBenchmarkManifest).
#[local] Abbreviation iterations := (bm_iterations manifest).
#[local] Abbreviation all_work := (work manifest).

Lemma work_length : length all_work = length (bm_algorithms manifest) * length (bm_sizes manifest).
Proof.
  unfold work. induction (bm_algorithms manifest) as [|a l IH]; [done|]. cbn [flat_map].
  rewrite length_app, length_map, IH. done.
Qed.
Lemma work_payload k algorithm payload : workload_ok n manifest -> all_work !! k = Some (algorithm, payload) ->
  payload_invalid algorithm payload n = false /\ (payload < U64)%N.
Proof.
  intros Hok Hk%list_elem_of_lookup_2%list_elem_of_In. unfold work in Hk.
  apply in_flat_map in Hk as (a & Ha & (p & [= -> ->] & Hp)%in_map_iff).
  destruct (wo_payloads _ _ Hok algorithm payload) as [H1 H2]; [by apply list_elem_of_In..|]. split; [done|].
  exact (transportable_small payload H2).
Qed.

(** What the report says of case [k]: the slowest rank of each measured
    iteration, its mean and percentiles, and the bytes of all ranks. *)
Definition case_reported (k : nat) (algorithm : AllReduceAlgorithm) (payload : N) (case : CollectiveBenchmarkCase) : Prop :=
  let slowest := sort_by N.leb (map (fun j =>
    foldr N.max 0%N (map (fun i => ns (latency i (case_start manifest k + N.of_nat (bm_warmup manifest) + N.of_nat j)%N))
                       (seq 0 n))) (seq 0 iterations)) in
  bc_algorithm case = algorithm /\ bc_payload_bytes case = payload /\ bc_iterations case = iterations /\
  mean_latency_ns case = (sum64 slowest / N.of_nat iterations)%N /\
  p50_latency_ns case = percentile slowest 50 /\ p95_latency_ns case = percentile slowest 95 /\
  effective_payload_bytes_per_second case = payload_rate payload (mean_latency_ns case) /\
  observed_wire_bytes case = wrap64 (N.of_nat iterations * (N.of_nat (2 * (n - 1)) * payload)).

Context (reports : nat -> CollectiveBenchmarkRankReport).
Hypothesis Hn : 0 < n <= 257.
Hypothesis Hok : workload_ok n manifest.
Hypothesis Hreports : forall i, i < n -> rank_measured n latency manifest i (reports i).
#[local] Abbreviation ranks := (map reports (seq 0 n)).

Lemma report_case i k algorithm payload : i < n -> all_work !! k = Some (algorithm, payload) ->
  case_measured n latency manifest i k algorithm payload (case_at k (reports i)).
Proof.
  intros Hi Hk. destruct (Hreports i Hi) as (_ & _ & _ & Hl & Hc). apply Hc; [done|].
  unfold case_at. destruct (nth_lookup_or_length (br_cases (reports i)) k no_case); [done|].
  apply lookup_lt_Some in Hk. lia.
Qed.

Lemma ranks_complete : complete_reports manifest ranks.
Proof.
  split.
  - rewrite (wo_world _ _ Hok), map_map. rewrite (map_ext_in _ (fun i => i)), map_id; [done|].
    intros i [_ Hi]%in_seq. by apply Hreports.
  - intros rank Hr. apply list_elem_of_In, in_map_iff in Hr as (i & <- & [_ Hi]%in_seq).
    destruct (Hreports i Hi) as (Hs & _ & _ & Hl & Hc). unfold rank_complete.
    rewrite Hs, Hl, work_length, Nat.eqb_refl. cbn [andb]. apply forallb_forall. intros case Hcase.
    apply list_elem_of_In, list_elem_of_lookup in Hcase as [k Hk].
    destruct (all_work !! k) as [[a p]|] eqn:Hw.
    + destruct (Hc k a p case Hw Hk) as (_ & _ & -> & _). unfold samples. by rewrite length_map, length_seq, Nat.eqb_refl.
    + apply lookup_ge_None in Hw. apply lookup_lt_Some in Hk. lia.
  - intros rank rank' k Hr Hr' Hk. rewrite <- work_length in Hk. apply lookup_lt_is_Some in Hk as [[a p] Hk].
    apply list_elem_of_In, in_map_iff in Hr as (i & <- & [_ Hi]%in_seq), Hr' as (i' & <- & [_ Hi']%in_seq).
    destruct (report_case i k a p Hi Hk) as (H1 & H2 & _), (report_case i' k a p Hi' Hk) as (H3 & H4 & _).
    unfold identity. by rewrite H1, H2, H3, H4.
Qed.

Lemma summarised k algorithm payload : all_work !! k = Some (algorithm, payload) ->
  case_reported k algorithm payload (summarise manifest (map (case_at k) ranks) (case_at k (hd (mkBenchRank 0 0 [] false) ranks))).
Proof.
  intros Hk. destruct (work_payload k _ _ Hok Hk) as [Hp _].
  assert (hd (mkBenchRank 0 0 [] false) ranks = reports 0) as -> by (rewrite (seq_positive n) by lia; done).
  destruct (report_case 0 k _ _ ltac:(lia) Hk) as (H1 & H2 & _).
  set (start := (case_start manifest k + N.of_nat (bm_warmup manifest))%N).
  assert (map latencies_ns (map (case_at k) ranks) = map (fun i => samples latency i start iterations) (seq 0 n)) as Hrows.
  { rewrite !map_map. apply map_ext_in. intros i [_ Hi]%in_seq. by destruct (report_case i k _ _ Hi Hk) as (_ & _ & ? & _). }
  assert (map rc_sent_bytes (map (case_at k) ranks) =
          map wrap64 (map (fun i => N.of_nat iterations * all_reduce_sent algorithm n i payload)%N (seq 0 n))) as Hsent.
  { rewrite !map_map. apply map_ext_in. intros i [_ Hi]%in_seq. by destruct (report_case i k _ _ Hi Hk) as (_ & _ & _ & _ & ?). }
  unfold summarise. rewrite H1, H2, Hrows, Hsent, sum64_wrapped, sumN_map_scale, sum_sent by (done || lia).
  assert (slowest manifest (map (fun i => samples latency i start iterations) (seq 0 n)) =
    sort_by N.leb (map (fun j => foldr N.max 0%N (map (fun i => ns (latency i (start + N.of_nat j)%N)) (seq 0 n)))
      (seq 0 iterations))) as Hslow.
  { unfold slowest. f_equal. apply map_ext_in. intros j [_ Hj]%in_seq. rewrite map_map. f_equal. apply map_ext.
    intros i. unfold samples. rewrite (nth_indep _ _ (ns (latency i (start + N.of_nat 0)%N))) by (by rewrite length_map, length_seq).
    by rewrite (map_nth (fun j => ns (latency i (start + N.of_nat j)%N))), seq_nth. }
  rewrite Hslow. unfold case_metrics, case_reported. fold start. by split_and!.
Qed.

(** The reports in any order are aggregated. *)
Definition aggregated (report : CollectiveBenchmarkReport) : Prop :=
  bench_success report = true /\ bench_ranks report = ranks /\
  length (bench_cases report) = length all_work /\
  forall k algorithm payload case, all_work !! k = Some (algorithm, payload) ->
    bench_cases report !! k = Some case -> case_reported k algorithm payload case.

Lemma reports_aggregated given resources : given ≡ₚ ranks ->
  exists report, aggregate_all_reduce_benchmark manifest given resources = JoinOk report /\ aggregated report /\
    bench_resources report = Some resources.
Proof.
  intros Hperm. destruct ranks_complete as [C1 C2 C3].
  assert (0 < bm_world_size manifest) as Hw by (rewrite (wo_world _ _ Hok); lia).
  assert (map br_rank ranks = seq 0 n) as Hseq.
  { rewrite map_map. rewrite (map_ext_in _ (fun i => i)), map_id; [done|]. intros i [_ Hi]%in_seq. by apply Hreports. }
  assert (sort_by_key br_rank given = ranks) as Hsort.
  { rewrite (sort_by_key_unique _ given _ Hperm).
    - apply (sort_by_key_ordered _ _ 0). by rewrite length_map, length_seq.
    - eapply (NoDup_Permutation_proper _ (map br_rank ranks)); [by rewrite Hperm|]. rewrite Hseq. apply NoDup_seq. }
  pose proof (aggregate_verdict manifest given resources Hw (wo_iterations _ _ Hok)) as Hv.
  cbv beta zeta in Hv. rewrite (proj2 (reports_complete_spec manifest given Hw)) in Hv.
  2: { split; [by rewrite Hperm|..]; intros *; rewrite ?Hperm; auto. }
  rewrite Hsort in Hv. eexists. split; [exact Hv|]. split; [split_and!|done].
  - cbn. apply forallb_forall. intros x (i & <- & [_ Hi]%in_seq)%in_map_iff. by apply Hreports.
  - done.
  - cbn. by rewrite length_map, length_seq, work_length.
  - intros k a p case Hk Hcase. cbn in Hcase. apply list_lookup_fmap_Some_1 in Hcase as (k' & -> & [-> _]%lookup_seq).
    cbn [Nat.add]. by apply summarised.
Qed.
End Correct.

(** ** The theorems *)

(** A benchmark over up to 257 ranks whose payloads are valid and fit the frames
    of the transport, with at most
    [2^44] all-reduces: on every schedule all ranks end, each with the sums right,
    the latencies of the measured iterations alone and the bytes it sent; and
    the reports, in whatever order they arrive, are aggregated into a
    successful report whose cases follow the manifest, with the statistics of the
    slowest rank per iteration and the same bytes on the wire for both
    algorithms, twice the payload per rank but one. *)
Lemma benchmark_measures {FO : FloatOps} {EI : ExactIntegers} n latency elapsed manifest resources :
  0 < n <= 257 -> workload_ok n manifest ->
  exists reports,
    always_returns (world_of n (fun i => run_all_reduce_benchmark_rank (latency i) (elapsed i) (mkRank i n) manifest))
      (map (fun i => Ok (reports i)) (seq 0 n)) /\
    (forall i, i < n -> rank_measured n latency manifest i (reports i)) /\
    forall ranks, ranks ≡ₚ map reports (seq 0 n) -> exists report,
      aggregate_all_reduce_benchmark manifest ranks resources = JoinOk report /\
      aggregated n latency manifest reports report.
Proof.
  intros Hn Hok. destruct (benchmark_ranks_together n Hn latency elapsed manifest Hok) as (reports & Ht & Hr).
  exists reports. split; [by apply together_returns|]. split; [done|]. intros ranks Hperm.
  destruct (reports_aggregated n latency manifest reports Hn Hok Hr ranks resources Hperm) as (report & H1 & H2 & _). eauto.
Qed.

(** Aggregation accepts exactly the reports of a complete benchmark - one per
    rank, of the manifest's schema, cases and samples, with the same cases on
    all ranks - in any order, and otherwise fails with an error; it does not
    panic on a manifest with ranks and iterations. *)
Theorem aggregation_exact manifest ranks resources :
  0 < bm_world_size manifest -> 0 < bm_iterations manifest ->
  (complete_reports manifest ranks ->
   aggregate_all_reduce_benchmark manifest ranks resources =
   JoinOk (summary_report manifest (sort_by_key br_rank ranks) resources)) /\
  (~ complete_reports manifest ranks ->
   exists message, aggregate_all_reduce_benchmark manifest ranks resources = JoinErr (Collective message)).
Proof.
  intros Hw Hi. pose proof (aggregate_verdict manifest ranks resources Hw Hi) as Hv. cbv beta zeta in Hv.
  rewrite <- (reports_complete_spec manifest ranks Hw). by destruct (reports_complete manifest _).
Qed.

(** *** Percentiles *)

(** The percentile of the sorted samples is a sample, that share of the samples
    is at most it, and the remaining share at least. *)
Lemma percentile_correct l percent : l <> [] -> percent <= 100 ->
  let value := percentile (sort_by N.leb l) percent in
  value ∈ l /\
  percent * length l <= 100 * length (filter (fun x => (x <= value)%N) l) /\
  (100 - percent) * (length l - 1) < 100 * length (filter (fun x => (value <= x)%N) l).
Proof.
  intros Hne Hp value. unfold value, percentile. clear value.
  pose proof (sort_by_perm N.leb l) as Hperm. pose proof (sort_N_sorted l) as Hs.
  set (s := sort_by N.leb l) in *. assert (length s = length l) as Hl by (by rewrite Hperm).
  assert (0 < length l) as Hpos by (destruct l; [done|cbn; lia]). rewrite Hl.
  pose proof (Nat.div_mod_eq ((length l - 1) * percent + 99) 100) as Hdiv.
  pose proof (Nat.mod_upper_bound ((length l - 1) * percent + 99) 100 ltac:(lia)) as Hmod.
  set (i := ((length l - 1) * percent + 99) / 100) in *.
  assert (i < length s) as Hi by nia.
  apply lookup_lt_is_Some in Hi as [v Hv]. rewrite Hv. change (default 0%N (Some v)) with v.
  pose proof (take_drop_middle s i v Hv) as Hsplit.
  assert (forall P : N -> Prop, forall `{!forall x, Decision (P x)}, length (filter P l) = length (filter P s)) as Hf
    by (intros P HP; by rewrite Hperm).
  rewrite !Hf. destruct (sorted_around s i v Hs Hv) as [H1 H2].
  split; [rewrite <- Hperm; by eapply list_elem_of_lookup_2|].
  assert (percent * length l = (length l - 1) * percent + percent) by nia.
  assert ((100 - percent) * (length l - 1) = 100 * (length l - 1) - (length l - 1) * percent) by nia.
  assert ((length l - 1) * percent <= 100 * (length l - 1)) by nia.
  pose proof (lookup_lt_Some _ _ _ Hv). rewrite Hl in *. clearbody i.
  generalize dependent ((length l - 1) * percent). lia.
Qed.

(** ** A benchmark of two ranks *)
#[local] Existing Instance binary32.
Definition duo_benchmark : CollectiveBenchmarkManifest :=
  mkBenchManifest 1 "demo" 2 [8; 16]%N [CentralizedAllReduce; RingAllReduce] 1 2.
Definition duo_latency (i : nat) (s : N) : Duration := (10 * N.of_nat i + s)%N.
Definition no_resources : CollectiveBenchmarkResources := mkBenchResources 0 0 0 0 0 0 0 0.

Lemma duo_workload : workload_ok 2 duo_benchmark.
Proof.
  split; [done|done|cbn; lia| |by vm_compute].
  intros algorithm payload Ha Hp. cbn in Ha, Hp. set_unfold. destruct_or!; subst; by vm_compute.
Qed.

Lemma benchmark_measures_witness : exists reports,
  always_returns (world_of 2 (fun i => run_all_reduce_benchmark_rank (duo_latency i) (fun _ => 0%N) (mkRank i 2) duo_benchmark))
    (map (fun i => Ok (reports i)) (seq 0 2)).
Proof.
  destruct (benchmark_measures 2 duo_latency (fun _ _ => 0%N) duo_benchmark no_resources)
    as (reports & H & _); [lia|exact duo_workload|]. exists reports. exact H.
Defined.

(** The reports of the unit test of the source, and an incomplete set. *)
Definition test_manifest : CollectiveBenchmarkManifest := mkBenchManifest 1 "test" 2 [4096]%N [RingAllReduce] 1 2.
Definition test_rank (rank : nat) (latencies : list N) : CollectiveBenchmarkRankReport :=
  mkBenchRank 1 rank [mkRankCase RingAllReduce 4096 latencies 8192 []] true.

Lemma aggregation_exact_witness :
  (exists report, aggregate_all_reduce_benchmark test_manifest [test_rank 1 [20; 30]; test_rank 0 [10; 40]]%N no_resources
    = JoinOk report /\
    map (fun c => (mean_latency_ns c, p50_latency_ns c, observed_wire_bytes c)) (bench_cases report) = [(30, 40, 16384)%N] /\
    map br_rank (bench_ranks report) = [0; 1]) /\
  exists message, aggregate_all_reduce_benchmark test_manifest [test_rank 0 [10]; test_rank 1 [20; 30]]%N no_resources
    = JoinErr (Collective message).
Proof.
  split.
  - eexists. split; [apply aggregation_exact; [cbn; lia..|]|split; by vm_compute].
    apply reports_complete_spec; [cbn; lia|by vm_compute].
  - apply aggregation_exact; [cbn; lia..|]. intros H%reports_complete_spec; [|cbn; lia]. by vm_compute in H.
Defined.

Lemma percentile_correct_witness :
  let value := percentile (sort_by N.leb [30; 10; 40; 20]%N) 50 in
  value = 30%N /\ 50 * 4 <= 100 * length (filter (fun x => (x <= value)%N) [30; 10; 40; 20]%N).
Proof. split; [reflexivity|]. apply (percentile_correct [30; 10; 40; 20]%N 50); [done|lia]. Defined.
