(* ===== verification/Docker.v ===== *)
(** * Docker commands and the resources of a run

    Models the part of [crates/cli/src/launch.rs] every Docker command of the
    program shares: running [docker], the image, the guard [DockerResources] whose
    [Drop] releases what a run holds, and the loop that waits for the containers.
    The daemon is an argument that answers a command after the commands before
    it; the trace holds the commands of the main thread.  [leftover] replays a
    trace and says what the run still owns. *)
From S2P Require Import Prelude Text Rank Registry Memory Launch.

(** ** Sessions *)

Abbreviation command := (list string).

(** [struct Output]: the exit status and the two streams. *)
Record Output : Type := mkOutput { status_success : bool; stdout : string; stderr : string }.

(** [struct DockerResources]. *)
Record DockerResources : Type := mkResources { network : string; containers : list string; keep : bool }.

(** What a run has done: the commands it issued, the [INTERRUPTED] flag and the
    guard it holds. *)
Record session : Type := mkSession
  { issued : list command; interrupted : bool; held : DockerResources }.

(** A run fails, or waits for something that does not come. *)
Inductive stop : Type := Failed (source : LaunchError) | Blocked.

Definition docking (A : Type) : Type := session -> result stop A * session.
#[global] Instance docking_ret : MRet docking := fun A a s => (Ok a, s).
#[global] Instance docking_bind : MBind docking := fun A B f m s =>
  match m s with (Ok a, s') => f a s' | (Err e, s') => (Err e, s') end.

Definition fail {A} (e : LaunchError) : docking A := fun s => (Err (Failed e), s).
Definition attempt {A} (r : lresult A) : docking A := fun s => (map_err Failed r, s).
Definition get_held : docking DockerResources := fun s => (Ok (held s), s).
Definition set_held (r : DockerResources) : docking unit :=
  fun s => (Ok tt, mkSession (issued s) (interrupted s) r).
Definition set_interrupted (b : bool) : docking unit :=
  fun s => (Ok tt, mkSession (issued s) b (held s)).
Definition is_interrupted : docking bool := fun s => (Ok (interrupted s), s).

Lemma bind_ok {A B} (m : docking A) (f : A -> docking B) a s s1 :
  m s = (Ok a, s1) -> (m ≫= f) s = f a s1.
Proof. intros H. unfold mbind, docking_bind. by rewrite H. Qed.
Lemma attempt_ok {A} (r : lresult A) a s : r = Ok a -> attempt r s = (Ok a, s).
Proof. by intros ->. Qed.

Section Daemon.
(** What [docker] answers after the commands issued so far; [None] when it
    cannot be executed. *)
Variable docker : list command -> command -> option Output.

(** [docker_output]. *)
Definition docker_output (arguments : command) : docking Output := fun s =>
  let s' := mkSession (issued s ++ [arguments]) (interrupted s) (held s) in
  match docker (issued s) arguments with
  | Some output => (Ok output, s')
  | None => (Err (Failed (DockerNotExecuted arguments)), s')
  end.

(** [let _ = docker_output(..)]. *)
Definition docker_quiet (arguments : command) : docking unit := fun s =>
  (Ok tt, (docker_output arguments s).2).

(** [docker_checked]. *)
Definition docker_checked (arguments : command) : docking Output :=
  output ← docker_output arguments;
  if status_success output then mret output else fail (DockerFailed arguments).

Fixpoint for_each (l : list string) (f : string -> docking unit) : docking unit :=
  match l with [] => mret tt | x :: l => _ ← f x; for_each l f end.

(** [stop_containers]. *)
Definition stop_containers (names : list string) : docking unit :=
  for_each names (fun name => docker_quiet ["kill"; name]).

(** [DockerResources::cleanup]: drains the containers, takes the network. *)
Definition cleanup : docking unit :=
  self ← get_held;
  if keep self then mret tt else
  _ ← for_each (containers self) (fun name => docker_quiet ["rm"; "--force"; name]);
  _ ← (if String.eqb (network self) "" then mret tt
       else docker_quiet ["network"; "rm"; network self]);
  set_held (mkResources "" [] (keep self)).

(** [Drop for DockerResources]. *)
Definition drop_resources : docking unit :=
  self ← get_held;
  if keep self then stop_containers (containers self) else cleanup.

(** The scope of a guard: it is dropped on every exit. *)
Definition with_resources {A} (r : DockerResources) (body : docking A) : docking A := fun s =>
  match body (mkSession (issued s) (interrupted s) r) with
  | (Err Blocked, s') => (Err Blocked, s')
  | (result, s') => (result, (drop_resources s').2)
  end.

(** [docker_resources.containers.push(name)]. *)
Definition push_container (name : string) : docking unit :=
  self ← get_held; set_held (mkResources (network self) (containers self ++ [name]) (keep self)).

(** [docker_engine_info], given what parsing the JSON of [docker info] gives. *)
Definition docker_engine_info (parse : string -> option DockerInfoJson) : docking DockerEngineReport :=
  output ← docker_checked ["info"; "--format"; "{{json .}}"];
  info ← attempt (ok_or (parse (stdout output)) DockerInfoUnreadable);
  attempt (engine_of_info info).

(** [ensure_image]; [dockerfile] says whether the build context has one. *)
Definition ensure_image (image context : string) (dockerfile rebuild : bool) : docking unit :=
  _ ← attempt (reject_if (blank image) EmptyImageName);
  present ← docker_output ["image"; "inspect"; image];
  if status_success present && negb rebuild then mret tt else
  _ ← attempt (reject_if (negb dockerfile) (NoDockerfile context));
  output ← docker_output (["build"; "--tag"; image] ++ (if rebuild then ["--no-cache"] else []) ++ [context]);
  attempt (reject_if (negb (status_success output)) ImageBuildFailed).

(** The network of a run. *)
Definition create_network (run_id : string) : docking Output :=
  docker_checked ["network"; "create"; "--label"; RUN_LABEL +:+ "=" +:+ run_id; network_name run_id].

(** ** Waiting *)

(** What the waiting thread of [wait_for_containers] sees: the outcome of one
    [docker wait], 100 ms without one, all senders gone, or Ctrl-C. *)
Inductive wait_event : Type :=
| Waited (rank : nat) (output : option Output) | Timeout | Disconnected | Interrupt.

Definition wait_code (output : Output) : Z := default (-1)%Z (parse_i32 (trim (from_utf8_lossy (stdout output)))).

(** The end of the loop: the flag is read once more. *)
Definition wait_finish (exit_codes : list Z) (events : list wait_event) : docking (list Z) :=
  i ← is_interrupted;
  if i || match events with Interrupt :: _ => true | _ => false end then fail LaunchInterrupted
  else mret exit_codes.

(** The head of an iteration. *)
Definition wait_head (names : list string) (stopped : bool) : docking bool :=
  i ← is_interrupted;
  if i && negb stopped then _ ← stop_containers names; mret true else mret stopped.

(** The loop, from its [recv_timeout] on. *)
Fixpoint wait_loop (names : list string) (events : list wait_event) (remaining : nat)
  (exit_codes : list Z) (stopped : bool) : docking (list Z) :=
  match events with
  | [] => fun s => (Err Blocked, s)
  | Interrupt :: events => _ ← set_interrupted true; wait_loop names events remaining exit_codes stopped
  | Timeout :: events =>
      stopped ← wait_head names stopped; wait_loop names events remaining exit_codes stopped
  | Disconnected :: events => wait_finish exit_codes events
  | Waited rank output :: events =>
      match output with
      | None => fail (DockerNotExecuted ["wait"; default "" (names !! rank)])
      | Some output =>
          let code := wait_code output in
          let exit_codes := <[rank := code]> exit_codes in
          stopped ← (if negb (code =? 0)%Z && negb stopped then _ ← stop_containers names; mret true
                     else mret stopped);
          if remaining =? 1 then wait_finish exit_codes events else
          stopped ← wait_head names stopped;
          wait_loop names events (remaining - 1) exit_codes stopped
      end
  end.

(** [wait_for_containers]. *)
Definition wait_for_containers (names : list string) (events : list wait_event) : docking (list Z) :=
  let exit_codes := replicate (length names) (-1)%Z in
  if length names =? 0 then wait_finish exit_codes events else
  stopped ← wait_head names false; wait_loop names events (length names) exit_codes stopped.
End Daemon.

(** ** What a run may leave behind

    The specification side: a trace of commands is replayed with the daemon's
    answers.  A resource may exist from the moment its [docker run] or [docker
    network create] is issued, whatever the answer, until the daemon confirms its
    [docker rm --force] or [docker network rm]. *)
Inductive resource : Type := Container (name : string) | Network (name : string).
#[global] Instance resource_eq_dec : EqDecision resource.
Proof. solve_decision. Defined.

Definition acquires (c : command) : option resource :=
  if bool_decide (firstn 3 c = ["run"; "--detach"; "--name"]) then Container <$> c !! 3
  else if bool_decide (firstn 2 c = ["network"; "create"]) then Network <$> c !! 4 else None.
Definition releases (c : command) : option resource :=
  if bool_decide (firstn 2 c = ["rm"; "--force"]) then Container <$> c !! 2
  else if bool_decide (firstn 2 c = ["network"; "rm"]) then Network <$> c !! 2 else None.

Definition owned (r : DockerResources) : list resource :=
  (if String.eqb (network r) "" then [] else [Network (network r)]) ++ map Container (containers r).

Section Ownership.
Variable docker : list command -> command -> option Output.

(** The daemon carried the command out. *)
Definition confirmed (past : list command) (c : command) : bool :=
  match docker past c with Some o => status_success o | None => false end.

Definition effect (past : list command) (c : command) (live : list resource) : list resource :=
  match acquires c, releases c with
  | Some r, _ => live ++ [r]
  | None, Some r => if confirmed past c then filter (fun r' => r' <> r) live else live
  | None, None => live
  end.
Fixpoint leftover_from (past cmds : list command) (live : list resource) : list resource :=
  match cmds with
  | [] => live
  | c :: cmds => leftover_from (past ++ [c]) cmds (effect past c live)
  end.
Definition leftover (cmds : list command) : list resource := leftover_from [] cmds [].

Lemma leftover_snoc cmds c : leftover (cmds ++ [c]) = effect cmds c (leftover cmds).
Proof.
  unfold leftover. enough (forall past live,
    leftover_from past (cmds ++ [c]) live = effect (past ++ cmds) c (leftover_from past cmds live)) as H
    by apply H.
  induction cmds as [|c' cmds IH]; intros past live; cbn; [by rewrite app_nil_r|].
  by rewrite IH, <- app_assoc.
Qed.

(** The output of [docker run] names no container. *)
Definition unnamed (o : Output) : bool :=
  match from_utf8 (stdout o) with Some id => String.eqb (trim id) "" | None => true end.

(** What is out of the program's hands: a resource whose creation or removal the
    daemon did not confirm, and a container it started without printing an
    identifier. *)
Inductive lost : list command -> resource -> Prop :=
| Unconfirmed past c rest r :
    acquires c = Some r \/ releases c = Some r -> confirmed past c = false -> lost (past ++ c :: rest) r
| Unnamed past c rest name o :
    acquires c = Some (Container name) -> docker past c = Some o -> unnamed o = true ->
    lost (past ++ c :: rest) (Container name).

Definition grows (s s' : session) : Prop := exists more, issued s' = issued s ++ more.
#[global] Instance grows_preorder : PreOrder grows.
Proof.
  split; [intros s; exists []; by rewrite app_nil_r|].
  intros s1 s2 s3 [m1 E1] [m2 E2]. exists (m1 ++ m2). by rewrite E2, E1, app_assoc.
Qed.

Lemma lost_grows s s' r : grows s s' -> lost (issued s) r -> lost (issued s') r.
Proof.
  intros [more ->]. destruct 1; rewrite <- app_assoc, <- app_comm_cons; [by constructor|by econstructor].
Qed.

(** The guard of a session holds what the run may own, but for what is lost. *)
Definition tidy (s : session) : Prop :=
  (forall r, r ∈ owned (held s) -> r ∈ leftover (issued s)) /\
  forall r, r ∈ leftover (issued s) -> r ∈ owned (held s) \/ lost (issued s) r.

(** Operations that keep the guard exact, and operations that own nothing. *)
Definition guards {A} (k : bool) (m : docking A) : Prop :=
  forall s, tidy s -> keep (held s) = k -> tidy (m s).2 /\ keep (held (m s).2) = k.
Definition neutral {A} (m : docking A) : Prop :=
  forall s, leftover (issued (m s).2) = leftover (issued s) /\ held (m s).2 = held s /\ grows s (m s).2.

Lemma tidy_neutral s s' : leftover (issued s') = leftover (issued s) -> held s' = held s -> grows s s' ->
  tidy s -> tidy s'.
Proof.
  intros E1 E2 Hg [H1 H2]. unfold tidy. rewrite E1, E2. split; [done|].
  intros r Hr. destruct (H2 r Hr); [by left|]. right. by eapply lost_grows.
Qed.
Lemma neutral_guards {A} k (m : docking A) : neutral m -> guards k m.
Proof.
  intros H s Hs Hk. destruct (H s) as (H1 & H2 & H3). split; [by eapply tidy_neutral|by rewrite H2].
Qed.

Lemma neutral_silent {A} (m : docking A) :
  (forall s, issued (m s).2 = issued s /\ held (m s).2 = held s) -> neutral m.
Proof. intros H s. destruct (H s) as [E1 E2]. unfold grows. rewrite E1, E2. split_and!; [done..|]. exists []. by rewrite app_nil_r. Qed.
Lemma neutral_ret {A} (a : A) : neutral (mret a).
Proof. by apply neutral_silent. Qed.
Lemma neutral_fail {A} e : neutral (@fail A e).
Proof. by apply neutral_silent. Qed.
Lemma neutral_blocked {A} : neutral (fun s => (@Err stop A Blocked, s)).
Proof. by apply neutral_silent. Qed.
Lemma neutral_attempt {A} (r : lresult A) : neutral (attempt r).
Proof. by apply neutral_silent. Qed.
Lemma neutral_interrupted : neutral is_interrupted.
Proof. by apply neutral_silent. Qed.
Lemma neutral_set_interrupted b : neutral (set_interrupted b).
Proof. by apply neutral_silent. Qed.
Lemma neutral_get : neutral get_held.
Proof. by apply neutral_silent. Qed.
Lemma neutral_bind {A B} (m : docking A) (f : A -> docking B) :
  neutral m -> (forall a, neutral (f a)) -> neutral (m ≫= f).
Proof.
  intros Hm Hf s. unfold mbind, docking_bind. destruct (Hm s) as (H1 & H2 & H3).
  destruct (m s) as [[a|e] s']; [|done]. destruct (Hf a s') as (H4 & H5 & H6). cbn in *.
  rewrite H4, H5. split_and!; [done..|]. by transitivity s'.
Qed.
Lemma output_issues c s : issued (docker_output docker c s).2 = issued s ++ [c] /\ held (docker_output docker c s).2 = held s.
Proof. unfold docker_output. by destruct (docker _ _). Qed.
Lemma output_grows c s : grows s (docker_output docker c s).2.
Proof. exists [c]. apply output_issues. Qed.
Lemma neutral_output c : acquires c = None -> releases c = None -> neutral (docker_output docker c).
Proof.
  intros Ha Hr s. destruct (output_issues c s) as [E1 E2]. split_and!; [|done|apply output_grows].
  rewrite E1, leftover_snoc. unfold effect. by rewrite Ha, Hr.
Qed.
Lemma neutral_quiet c : acquires c = None -> releases c = None -> neutral (docker_quiet docker c).
Proof. intros Ha Hr s. exact (neutral_output c Ha Hr s). Qed.
Lemma neutral_checked c : acquires c = None -> releases c = None -> neutral (docker_checked docker c).
Proof.
  intros Ha Hr. apply neutral_bind; [by apply neutral_output|]. intros o.
  destruct (status_success o); [apply neutral_ret|apply neutral_fail].
Qed.
Lemma neutral_for_each l f : (forall x, neutral (f x)) -> neutral (for_each l f).
Proof. intros H. induction l as [|x l IH]; cbn; [apply neutral_ret|]. by apply neutral_bind. Qed.
Lemma neutral_stop names : neutral (stop_containers docker names).
Proof. apply neutral_for_each. intros x. by apply neutral_quiet. Qed.

Lemma guards_bind {A B} k (m : docking A) (f : A -> docking B) :
  guards k m -> (forall a, guards k (f a)) -> guards k (m ≫= f).
Proof.
  intros Hm Hf s Hs Hk. unfold mbind, docking_bind. destruct (Hm s Hs Hk) as [Ht Hk'].
  destruct (m s) as [[a|e] s']; [|done]. exact (Hf a s' Ht Hk').
Qed.
End Ownership.

Create HintDb docker.
#[export] Hint Resolve neutral_ret neutral_fail neutral_blocked neutral_attempt neutral_interrupted neutral_set_interrupted
  neutral_get neutral_stop : docker.
#[export] Hint Resolve neutral_guards | 5 : docker.

(** Splits a sequence of operations. *)
Ltac neutral_step :=
  match goal with
  | |- neutral _ (_ ≫= _) => apply neutral_bind; [|intros ?]
  | |- neutral _ (docker_output _ _) => by apply neutral_output
  | |- neutral _ (docker_checked _ _) => by apply neutral_checked
  | |- neutral _ (docker_quiet _ _) => by apply neutral_quiet
  | |- neutral _ (if ?b then _ else _) => destruct b
  | |- neutral _ (match ?o with _ => _ end) => destruct o
  | |- neutral _ _ => solve [auto with docker]
  end.
Ltac neutral_auto := repeat neutral_step.

Section Guard.
Variable docker : list command -> command -> option Output.

Lemma neutral_engine_info parse : neutral docker (docker_engine_info docker parse).
Proof. unfold docker_engine_info. neutral_auto. Qed.
Lemma neutral_ensure_image image context dockerfile rebuild :
  neutral docker (ensure_image docker image context dockerfile rebuild).
Proof. unfold ensure_image. neutral_auto. Qed.
Lemma neutral_wait_finish codes events : neutral docker (wait_finish codes events).
Proof. unfold wait_finish. neutral_auto. Qed.
Lemma neutral_wait_head names stopped : neutral docker (wait_head docker names stopped).
Proof. unfold wait_head. neutral_auto. Qed.
#[local] Hint Resolve neutral_wait_finish neutral_wait_head : docker.
Lemma neutral_wait_loop names events remaining codes stopped :
  neutral docker (wait_loop docker names events remaining codes stopped).
Proof.
  revert remaining codes stopped. induction events as [|[rank [o|]| | |] events IH]; intros; cbn [wait_loop];
    neutral_auto.
Qed.
#[local] Hint Resolve neutral_wait_loop : docker.
Lemma neutral_wait names events : neutral docker (wait_for_containers docker names events).
Proof. unfold wait_for_containers. neutral_auto. Qed.

(** Stopping a list of containers: one [docker kill] for each, whatever it answers. *)
Lemma stop_containers_run names s :
  stop_containers docker names s =
  (Ok tt, mkSession (issued s ++ map (fun name => ["kill"; name]) names) (interrupted s) (held s)).
Proof.
  unfold stop_containers. revert s. induction names as [|name names IH]; intros s.
  - cbn. rewrite app_nil_r. by destruct s.
  - cbn [for_each map]. unfold mbind, docking_bind. cbn [docker_quiet fst snd]. rewrite IH.
    unfold docker_output. destruct (docker _ _); cbn; by rewrite <- app_assoc.
Qed.

(** A removal whose answer is ignored: what remains was there before, and the
    resource itself remains only when the daemon did not confirm. *)
Lemma remove_one c r s : acquires c = None -> releases c = Some r ->
  let s' := (docker_quiet docker c s).2 in
  held s' = held s /\ grows s s' /\
  forall x, x ∈ leftover docker (issued s') -> x ∈ leftover docker (issued s) /\ (x = r -> lost docker (issued s') x).
Proof.
  intros Ha Hr. cbn [docker_quiet snd]. destruct (output_issues docker c s) as [E1 E2].
  split; [done|]. split; [apply output_grows|]. intros x. rewrite E1, leftover_snoc. unfold effect. rewrite Ha, Hr.
  destruct (confirmed docker (issued s) c) eqn:Ec.
  - intros [Hne Hx]%list_elem_of_filter. done.
  - intros Hx. split; [done|]. intros ->. apply Unconfirmed; [by right|done].
Qed.

(** Releasing a list of containers. *)
Lemma remove_all names s :
  let '(res, s') := for_each names (fun name => docker_quiet docker ["rm"; "--force"; name]) s in
  res = Ok tt /\ held s' = held s /\ grows s s' /\
  forall x, x ∈ leftover docker (issued s') ->
    x ∈ leftover docker (issued s) /\ (x ∈ map Container names -> lost docker (issued s') x).
Proof.
  revert s. induction names as [|name names IH]; intros s.
  - cbn. split_and!; [done..|]. intros x Hx. split; [done|]. by intros ?%not_elem_of_nil.
  - cbn [for_each]. unfold mbind, docking_bind.
    destruct (remove_one ["rm"; "--force"; name] (Container name) s eq_refl eq_refl) as (E1 & G1 & L1).
    change (docker_quiet docker ["rm"; "--force"; name] s)
      with (@Ok stop unit tt, (docker_quiet docker ["rm"; "--force"; name] s).2).
    set (s1 := (docker_quiet _ _ s).2) in *. cbv beta iota. specialize (IH s1).
    destruct (for_each names _ s1) as [res s']. destruct IH as (-> & E2 & G2 & L2).
    split_and!; [done|congruence|by transitivity s1|].
    intros x Hx. destruct (L2 x Hx) as [Hx1 Hl2]. destruct (L1 x Hx1) as [Hx0 Hl1].
    split; [done|]. intros [->|Hin]%elem_of_cons; [|by apply Hl2].
    eapply lost_grows; [exact G2|by apply Hl1].
Qed.

(** Dropping an exact guard removes what it holds, as far as the daemon confirms. *)
Lemma cleanup_releases s : tidy docker s -> keep (held s) = false ->
  let '(res, s') := cleanup docker s in
  res = Ok tt /\ held s' = mkResources "" [] false /\
  forall r, r ∈ leftover docker (issued s') -> lost docker (issued s') r.
Proof.
  intros [_ Ht] Hk. unfold cleanup, get_held, mbind, docking_bind. rewrite Hk.
  pose proof (remove_all (containers (held s)) s) as H.
  destruct (for_each _ _ s) as [res s1]. destruct H as (-> & E1 & G1 & L1).
  destruct (String.eqb (network (held s)) "") eqn:En.
  - cbn. split_and!; [done..|]. intros r Hr. destruct (L1 r Hr) as [Hr0 Hl].
    destruct (Ht r Hr0) as [Hin|Hlost]; [|by eapply lost_grows].
    apply Hl. unfold owned in Hin. by rewrite En in Hin.
  - destruct (remove_one ["network"; "rm"; network (held s)] (Network (network (held s))) s1 eq_refl eq_refl) as (E2 & G2 & L2).
    change (docker_quiet docker ["network"; "rm"; network (held s)] s1)
      with (@Ok stop unit tt, (docker_quiet docker ["network"; "rm"; network (held s)] s1).2).
    set (s2 := (docker_quiet _ _ s1).2) in *. cbn. split_and!; [done..|].
    intros r Hr. destruct (L2 r Hr) as [Hr1 Hl2]. destruct (L1 r Hr1) as [Hr0 Hl1].
    destruct (Ht r Hr0) as [Hin|Hlost].
    + unfold owned in Hin. rewrite En in Hin. apply elem_of_cons in Hin as [Hn|Hc]; [by apply Hl2|].
      eapply lost_grows; [exact G2|]. by apply Hl1.
    + eapply (lost_grows docker s); [by transitivity s1|done].
Qed.

Lemma cleanup_tidy s : tidy docker s -> keep (held s) = false ->
  exists s', cleanup docker s = (Ok tt, s') /\ tidy docker s' /\ keep (held s') = false.
Proof.
  intros Hs Hk. pose proof (cleanup_releases s Hs Hk) as H. destruct (cleanup docker s) as [res s'].
  destruct H as (-> & E & L). exists s'. split; [done|]. unfold tidy. rewrite E. split; [|done].
  split; [by intros r ?%not_elem_of_nil|]. intros r Hr. right. by apply L.
Qed.

Lemma cleanup_guards : guards docker false (cleanup docker).
Proof. intros s Hs Hk. by destruct (cleanup_tidy s Hs Hk) as (s' & -> & H). Qed.

(** Starting a container: unless its output names no container, it is accepted
    and the guard takes the name. *)
Lemma acquire_guards {A B} k c name (check : Output -> lresult B) (f : B -> docking A) :
  (forall o, unnamed o = false -> exists id, check o = Ok id) ->
  acquires c = Some (Container name) -> (forall id, guards docker k (f id)) ->
  guards docker k (output ← docker_checked docker c; id ← attempt (check output); _ ← push_container name; f id).
Proof.
  intros Hcheck Ha Hf s [Hs1 Hs2] Hk.
  assert (leftover docker (issued s ++ [c]) = leftover docker (issued s) ++ [Container name]) as El
    by (rewrite leftover_snoc; unfold effect; by rewrite Ha).
  assert (grows s (mkSession (issued s ++ [c]) (interrupted s) (held s))) as Hg by (by exists [c]).
  assert (lost docker (issued s ++ [c]) (Container name) ->
    tidy docker (mkSession (issued s ++ [c]) (interrupted s) (held s)) /\ keep (held s) = k) as Hlost.
  { intros Hl. split; [|done]. unfold tidy. cbn [issued held]. rewrite El. split.
    - intros r Hr. apply elem_of_app. left. by apply Hs1.
    - intros r [Hr|Hr]%elem_of_app; [|apply list_elem_of_singleton in Hr as ->; by right].
      destruct (Hs2 r Hr); [by left|right]. by apply (lost_grows docker s _ r Hg). }
  unfold docker_checked, docker_output, mbind, docking_bind.
  destruct (docker (issued s) c) as [o|] eqn:E; cbn [fst snd].
  2:{ apply Hlost, Unconfirmed; [by left|]. unfold confirmed. by rewrite E. }
  destruct (status_success o) eqn:Eo; cbn [mret docking_ret fail fst snd].
  2:{ apply Hlost, Unconfirmed; [by left|]. unfold confirmed. by rewrite E. }
  unfold attempt. destruct (check o) as [id|e] eqn:Ec; cbn [map_err fst snd].
  2:{ apply Hlost. apply (Unnamed docker (issued s) c [] name o Ha E).
      destruct (unnamed o) eqn:Eu; [done|]. destruct (Hcheck o Eu) as [id Hid]. congruence. }
  unfold push_container, get_held, set_held, mbind, docking_bind. cbn [held issued interrupted].
  apply Hf; [|done]. unfold tidy. cbn [issued held]. rewrite El. unfold owned. cbn [network containers].
  rewrite map_app, app_assoc. cbn [map]. fold (owned (held s)). split.
  - intros r [Hr|Hr]%elem_of_app; apply elem_of_app; [left; by apply Hs1|by right].
  - intros r [Hr|Hr]%elem_of_app; [|left; apply elem_of_app; by right].
    destruct (Hs2 r Hr); [left; apply elem_of_app; by left|right]. by apply (lost_grows docker s _ r Hg).
Qed.

(** The launchers read the identifier as text. *)
Lemma start_guards {A} k c name (f : string -> docking A) :
  acquires c = Some (Container name) -> (forall id, guards docker k (f id)) ->
  guards docker k (output ← docker_checked docker c;
                   id ← attempt (ok_or (from_utf8 (stdout output)) NonUtf8ContainerId);
                   _ ← push_container name; f id).
Proof.
  apply acquire_guards. intros o Ho. unfold unnamed in Ho.
  destruct (from_utf8 (stdout o)) as [id|]; [by exists id|done].
Qed.

Lemma cleanup_ok s : exists s', cleanup docker s = (Ok tt, s').
Proof.
  unfold cleanup, get_held. erewrite bind_ok by reflexivity. destruct (keep (held s)); [by eexists|].
  pose proof (remove_all (containers (held s)) s) as H.
  destruct (for_each _ _ s) as [r s1] eqn:E. destruct H as [-> _]. erewrite bind_ok by exact E.
  by destruct (String.eqb _ _); eexists.
Qed.

(** A run that owns nothing, and what it leaves: only what is lost, unless it was
    asked to keep its containers, which are then in the guard and stopped last. *)
Definition fresh (k : bool) (s : session) : Prop :=
  leftover docker (issued s) = [] /\ held s = mkResources "" [] k.
Definition released (k : bool) (s : session) : Prop :=
  if k then
    tidy docker s /\
    exists before, issued s = before ++ map (fun name => ["kill"; name]) (containers (held s))
  else forall r, r ∈ leftover docker (issued s) -> lost docker (issued s) r.

(** When the daemon confirms every creation, with an identifier, and every
    removal, nothing is lost: a run that keeps nothing leaves nothing. *)
Lemma released_serves s :
  (forall past c, confirmed docker past c = true) -> (forall past c o, docker past c = Some o -> unnamed o = false) ->
  released false s -> leftover docker (issued s) = [].
Proof.
  intros Hc Hn Hr. destruct (leftover docker (issued s)) as [|r l] eqn:E; [done|].
  assert (lost docker (issued s) r) as Hl by (apply Hr; rewrite E; left).
  destruct Hl as [past c rest r _ Hf|past c rest name o _ Ho Hu]; [by rewrite Hc in Hf|].
  by rewrite (Hn _ _ _ Ho) in Hu.
Qed.

Lemma fresh_tidy k s : fresh k s -> tidy docker s.
Proof.
  intros [H1 H2]. unfold tidy. rewrite H1, H2. split; [by intros r ?%not_elem_of_nil|].
  by intros r ?%not_elem_of_nil.
Qed.

Lemma fresh_released k s : fresh k s -> released k s.
Proof.
  intros H. pose proof H as [H1 H2]. destruct k; unfold released.
  - split; [by eapply fresh_tidy|]. rewrite H2. exists (issued s). by rewrite app_nil_r.
  - rewrite H1. by intros r ?%not_elem_of_nil.
Qed.

Lemma with_resources_releases {A} r (body : docking A) s res s' :
  guards docker (keep r) body -> tidy docker (mkSession (issued s) (interrupted s) r) ->
  with_resources docker r body s = (res, s') -> res <> Err Blocked -> released (keep r) s'.
Proof.
  intros Hbody Hs. unfold with_resources.
  destruct (Hbody (mkSession (issued s) (interrupted s) r)) as [Ht Hk]; [done|done|].
  destruct (body _) as [res' s1]. cbn [snd] in *.
  assert (released (keep r) (drop_resources docker s1).2) as Hd.
  { unfold drop_resources, get_held, mbind, docking_bind. rewrite Hk. destruct (keep r).
    - pose proof (neutral_stop docker (containers (held s1)) s1) as (E1 & E2 & G).
      unfold released. split; [by apply (tidy_neutral docker s1)|].
      rewrite stop_containers_run. cbn [snd held issued]. by eexists.
    - pose proof (cleanup_releases s1 Ht Hk) as H. destruct (cleanup docker s1). by destruct H as (_ & _ & H). }
  destruct res' as [a|[e|]]; intros [= <- <-] Hne; done || exact Hd.
Qed.

(** The steps of a run before it owns anything, and its scope. *)
Lemma fresh_bind {A B} k (m : docking A) (f : A -> docking B) s res s' :
  neutral docker m -> fresh k s ->
  (forall a s1, fresh k s1 -> f a s1 = (res, s') -> released k s') ->
  (m ≫= f) s = (res, s') -> released k s'.
Proof.
  intros Hm [H1 H2] Hf. unfold mbind, docking_bind. destruct (Hm s) as (E1 & E2 & _).
  assert (fresh k (m s).2) as Hs by (split; congruence).
  destruct (m s) as [[a|e] s1]; [by apply Hf|]. intros [= _ <-]. by apply fresh_released.
Qed.

Lemma scope_releases {A} k run_id (body : docking A) s res s' :
  guards docker k body -> fresh k s ->
  (_ ← create_network docker run_id;
   with_resources docker (mkResources (network_name run_id) [] k) body) s = (res, s') ->
  res <> Err Blocked -> released k s'.
Proof.
  intros Hb [H1 H2]. unfold create_network, docker_checked, docker_output, mbind, docking_bind.
  set (c := ["network"; "create"; "--label"; RUN_LABEL +:+ "=" +:+ run_id; network_name run_id]).
  assert (leftover docker (issued s ++ [c]) = [Network (network_name run_id)]) as El.
  { rewrite leftover_snoc, H1. done. }
  assert (confirmed docker (issued s) c = false ->
    released k (mkSession (issued s ++ [c]) (interrupted s) (held s))) as Hfailed.
  { intros Hc. assert (lost docker (issued s ++ [c]) (Network (network_name run_id))) as Hl
      by (apply Unconfirmed; [by left|done]).
    destruct k; unfold released, tidy; cbn [issued held]; rewrite El, ?H2.
    - split; [split; [by intros r ?%not_elem_of_nil|]|].
      + intros r ->%list_elem_of_singleton. by right.
      + eexists. cbn. by rewrite app_nil_r.
    - intros r ->%list_elem_of_singleton. exact Hl. }
  destruct (docker (issued s) c) as [o|] eqn:E; unfold confirmed in Hfailed; rewrite E in Hfailed.
  - cbn [fst snd]. destruct (status_success o); cbn [mret docking_ret fail].
    + intros H Hne. eapply (with_resources_releases (mkResources (network_name run_id) [] k));
        [exact Hb| |exact H|exact Hne]. unfold tidy. cbn [issued held]. rewrite El. unfold owned.
      cbn [network containers map]. rewrite app_nil_r.
      destruct (String.eqb_spec (network_name run_id) "") as [Hempty|_]; [done|]. split; [done|]. by left.
    + intros [= <- <-] _. by apply Hfailed.
  - intros [= <- <-] _. by apply Hfailed.
Qed.

(** ** The wait ends *)

Definition is_report (e : wait_event) : bool := match e with Waited _ _ => true | _ => false end.

Definition returns {A} (m : docking A) : Prop := forall s, (m s).1 <> Err Blocked.
Lemma returns_bind {A B} (m : docking A) (f : A -> docking B) :
  returns m -> (forall a, returns (f a)) -> returns (m ≫= f).
Proof.
  intros Hm Hf s. unfold mbind, docking_bind. specialize (Hm s).
  destruct (m s) as [[a|e] s']; [apply Hf|]. intros [= ->]. by apply Hm.
Qed.
Lemma returns_for_each l f : (forall x, returns (f x)) -> returns (for_each l f).
Proof. intros H. induction l as [|x l IH]; cbn; [done|]. by apply returns_bind. Qed.
Lemma returns_stop names : returns (stop_containers docker names).
Proof. by apply returns_for_each. Qed.
Lemma returns_finish codes events : returns (wait_finish codes events).
Proof. apply returns_bind; [done|]. intros i. by destruct (_ || _). Qed.
Lemma returns_head names stopped : returns (wait_head docker names stopped).
Proof.
  apply returns_bind; [done|]. intros i. destruct (_ && _); [|done].
  apply returns_bind; [apply returns_stop|done].
Qed.

Lemma wait_loop_returns names events remaining codes stopped :
  0 < remaining <= length (filter is_report events) ->
  returns (wait_loop docker names events remaining codes stopped).
Proof.
  revert remaining codes stopped. induction events as [|e events IH]; intros remaining codes stopped H.
  - cbn in H. lia.
  - destruct e as [rank [o|]| | |]; cbn [wait_loop].
    + rewrite filter_cons_True in H by done. cbn [length] in H.
      apply returns_bind.
      { destruct (_ && _); [|done]. apply returns_bind; [apply returns_stop|done]. }
      intros stopped'. destruct (Nat.eqb_spec remaining 1); [apply returns_finish|].
      apply returns_bind; [apply returns_head|]. intros stopped2. apply IH. lia.
    + done.
    + apply returns_bind; [apply returns_head|]. intros stopped'. by apply IH.
    + apply returns_finish.
    + apply returns_bind; [done|]. intros ?. by apply IH.
Qed.

(** As many outcomes as containers end the wait, whatever comes between. *)
Lemma wait_returns names events :
  length names <= length (filter is_report events) -> returns (wait_for_containers docker names events).
Proof.
  intros H. unfold wait_for_containers. destruct (Nat.eqb_spec (length names) 0); [apply returns_finish|].
  apply returns_bind; [apply returns_head|]. intros stopped. apply wait_loop_returns. lia.
Qed.
Lemma returns_checked c : returns (docker_checked docker c).
Proof.
  apply returns_bind; [|intros o; by destruct (status_success o)].
  intros s. unfold docker_output. by destruct (docker _ _).
Qed.
Lemma returns_output c : returns (docker_output docker c).
Proof. intros s. unfold docker_output. by destruct (docker _ _). Qed.
Lemma returns_attempt {A} (r : lresult A) : returns (attempt r).
Proof. intros s. by destruct r. Qed.
Lemma returns_cleanup : returns (cleanup docker).
Proof.
  apply returns_bind; [done|]. intros self. destruct (keep self); [done|].
  apply returns_bind; [by apply returns_for_each|]. intros _.
  apply returns_bind; [by destruct (String.eqb _ _)|done].
Qed.
Lemma returns_engine_info parse : returns (docker_engine_info docker parse).
Proof.
  apply returns_bind; [apply returns_checked|]. intros o.
  apply returns_bind; [apply returns_attempt|]. intros info. apply returns_attempt.
Qed.
Lemma returns_ensure_image image context dockerfile rebuild :
  returns (ensure_image docker image context dockerfile rebuild).
Proof.
  apply returns_bind; [apply returns_attempt|]. intros _.
  apply returns_bind; [apply returns_output|]. intros o. destruct (_ && _); [done|].
  apply returns_bind; [apply returns_attempt|]. intros _.
  apply returns_bind; [apply returns_output|]. intros o'. apply returns_attempt.
Qed.
Lemma with_resources_returns {A} r (body : docking A) s :
  (body (mkSession (issued s) (interrupted s) r)).1 <> Err Blocked ->
  (with_resources docker r body s).1 <> Err Blocked.
Proof. unfold with_resources. by destruct (body _) as [[a|[e|]] s1]. Qed.
End Guard.
