(* ===== verification/LaunchRun.v ===== *)
(** * A Docker launch

    Models [run_launch] of [crates/cli/src/launch.rs]: the checks, the network and
    the containers of the ranks, the wait, the rank reports and their verdict, in
    the scope of the guard of [Docker.v].  The schedule of the waiting threads is
    an argument. *)
From S2P Require Import Prelude Sorting Text Rank Packet InMemory Tcp World Tensor Float Registry Memory Launch Docker RingExchange.

(** [struct LaunchRequest], without the choice of the output format. *)
Record LaunchRequest : Type := mkLaunch
  { nproc : nat; total_cpus : CpuAmount; total_memory : string; image : string;
    build_context : string; rebuild : bool; launch_run_id : option string;
    startup_timeout : Duration; operation_timeout : Duration; keep_containers : bool }.

(** [struct ContainerRankReport]. *)
Record ContainerRankReport : Type := mkRankReport
  { container_rank : nat; reported_name : string; container_id : string; exit_code : Z;
    container_report : option RankProcessReport; container_error : option string }.

(** [struct DockerLaunchReport]. *)
Record DockerLaunchReport : Type := mkLaunchReport
  { launch_schema_version : N; report_run_id : string; launcher : string; launch_backend : string;
    launch_pattern : string; launch_world_size : nat; launch_image : string;
    launch_engine : DockerEngineReport; launch_resources : ResourcePlan;
    launch_ranks : list ContainerRankReport; launch_success : bool }.

Section Launch.
Variable docker : list command -> command -> option Output.
(** [serde_json] on the output of [docker info] and of a rank. *)
Variable parse_info : string -> option DockerInfoJson.
Variable parse_report : string -> option RankProcessReport.

(** The loop that starts the ranks. *)
Fixpoint start_ranks (arguments : nat -> string -> command) (run_id : string) (ranks : list nat)
  : docking (list (nat * string * string)) :=
  match ranks with
  | [] => mret []
  | rank :: ranks =>
      let name := container_name run_id rank in
      output ← docker_checked docker (arguments rank name);
      id ← attempt (ok_or (from_utf8 (stdout output)) NonUtf8ContainerId);
      _ ← push_container name;
      rest ← start_ranks arguments run_id ranks;
      mret ((rank, name, trim id) :: rest)
  end.

(** The record of one rank, from its logs and its exit code. *)
Definition rank_record (exit_codes : list Z) (identity : nat * string * string) : docking ContainerRankReport :=
  let '(rank, name, id) := identity in
  logs ← docker_output docker ["logs"; name];
  let stderr := trim (from_utf8_lossy (stderr logs)) in
  let stdout := trim (from_utf8_lossy (stdout logs)) in
  let report := if String.eqb stdout "" then None else parse_report stdout in
  let code := default (-1)%Z (exit_codes !! rank) in
  let error :=
    if (code =? 0)%Z && match report with Some r => process_success r | None => false end then None
    else if negb (String.eqb stderr "") then Some stderr
    else if negb (String.eqb stdout "") && match report with Some _ => false | None => true end
    then Some ("rank emitted invalid JSON: " +:+ stdout)
    else Some ("container exited with code " +:+ pretty code) in
  mret (mkRankReport rank name id code report error).

Fixpoint rank_records (exit_codes : list Z) (identities : list (nat * string * string))
  : docking (list ContainerRankReport) :=
  match identities with
  | [] => mret []
  | i :: l => r ← rank_record exit_codes i; rs ← rank_records exit_codes l; mret (r :: rs)
  end.

Definition sort_by_rank : list ContainerRankReport -> list ContainerRankReport := sort_by_key container_rank.

Definition rank_succeeded (world_size : nat) (rank : ContainerRankReport) : bool :=
  (exit_code rank =? 0)%Z && match container_error rank with None => true | Some _ => false end
  && match container_report rank with
     | Some report =>
         process_success report
         && match process_verification report with Passed => true | NotVerified => false end
         && (length (process_peers report) =? world_size)
     | None => false
     end.

(** The scope of the guard: from the first container to the report. *)
Definition launch_scope (request : LaunchRequest) (run_id : string) (engine : DockerEngineReport)
  (resources : ResourcePlan) (events : list wait_event) : docking DockerLaunchReport :=
  self ← get_held;
  identities ← start_ranks
    (fun rank name => container_arguments (image request) (network self) name run_id rank (nproc request)
       resources (startup_timeout request) (operation_timeout request)) run_id (seq 0 (nproc request));
  self ← get_held;
  exit_codes ← wait_for_containers docker (containers self) events;
  ranks ← rank_records exit_codes identities;
  let ranks := sort_by_rank ranks in
  let success := forallb (rank_succeeded (nproc request)) ranks in
  let report := mkLaunchReport 1 run_id "docker_cli" "tcp" "ring" (nproc request) (image request)
                  engine resources ranks success in
  self ← get_held;
  _ ← (if keep self then mret tt else cleanup docker);
  mret report.

(** [run_launch], up to the report it prints.  [new_run_id] is [default_run_id()],
    [handler] the outcome of installing the interrupt handler. *)
Definition run_launch (request : LaunchRequest) (new_run_id : string) (handler : lresult unit)
  (dockerfile : bool) (events : list wait_event) : docking DockerLaunchReport :=
  _ ← attempt (validate_world_size (nproc request));
  _ ← attempt (reject_if ((startup_timeout request =? 0)%N || (operation_timeout request =? 0)%N) ZeroTimeout);
  memory ← attempt (map_err LaunchRuntime (parse_byte_size (total_memory request)));
  engine ← docker_engine_info docker parse_info;
  resources ← attempt (plan_resources (nproc request) (total_cpus request) memory engine);
  let run_id := default new_run_id (launch_run_id request) in
  _ ← attempt (validate_run_id run_id);
  _ ← attempt handler;
  _ ← set_interrupted false;
  _ ← ensure_image docker (image request) (build_context request) dockerfile (rebuild request);
  _ ← create_network docker run_id;
  with_resources docker (mkResources (network_name run_id) [] (keep_containers request))
    (launch_scope request run_id engine resources events).

(** What [run_launch] returns after it has printed the report. *)
Definition launch_exit (report : DockerLaunchReport) : lresult unit :=
  reject_if (negb (launch_success report)) TopologyFailed.

(** ** Nothing is left behind *)

Lemma start_ranks_guards k arguments run_id ranks :
  (forall rank name, acquires (arguments rank name) = Some (Container name)) ->
  guards docker k (start_ranks arguments run_id ranks).
Proof.
  intros Ha. induction ranks as [|rank ranks IH]; cbn [start_ranks]; [auto with docker|].
  apply start_guards; [apply Ha|]. intros id.
  apply guards_bind; [exact IH|]. intros rest. auto with docker.
Qed.

Lemma rank_records_neutral codes identities : neutral docker (rank_records codes identities).
Proof.
  induction identities as [|[[rank name] id] l IH]; cbn [rank_records]; [auto with docker|].
  unfold rank_record. neutral_auto.
Qed.

Lemma launch_scope_guards request run_id engine resources events :
  guards docker (keep_containers request) (launch_scope request run_id engine resources events).
Proof.
  unfold launch_scope. apply guards_bind; [auto with docker|]. intros self.
  apply guards_bind; [by apply start_ranks_guards|]. intros identities.
  apply guards_bind; [auto with docker|]. intros self'.
  apply guards_bind; [by apply neutral_guards, neutral_wait|]. intros codes.
  apply guards_bind; [by apply neutral_guards, rank_records_neutral|]. intros ranks s Hs Hk.
  unfold get_held, mbind, docking_bind. rewrite <- Hk. destruct (keep (held s)) eqn:E; [by split|].
  by destruct (cleanup_tidy docker s Hs E) as (s' & -> & H).
Qed.

(** ** It returns *)
Lemma returns_start arguments run_id ranks : returns (start_ranks arguments run_id ranks).
Proof.
  induction ranks as [|rank ranks IH]; cbn [start_ranks]; [done|].
  apply returns_bind; [apply returns_checked|]. intros o.
  apply returns_bind; [apply returns_attempt|]. intros id.
  apply returns_bind; [done|]. intros _. by apply returns_bind.
Qed.
Lemma returns_records codes identities : returns (rank_records codes identities).
Proof.
  induction identities as [|[[rank name] id] l IH]; cbn [rank_records]; [done|].
  apply returns_bind; [|intros r; by apply returns_bind].
  unfold rank_record. apply returns_bind; [apply returns_output|]. done.
Qed.

(** The guard names the containers that were started, in order. *)
Lemma checked_held c s : held (docker_checked docker c s).2 = held s.
Proof.
  unfold docker_checked, docker_output, mbind, docking_bind.
  destruct (docker _ _) as [o|]; [|done]. cbn. by destruct (status_success o).
Qed.
Lemma start_ranks_held arguments run_id ranks s ids s' :
  start_ranks arguments run_id ranks s = (Ok ids, s') ->
  containers (held s') = containers (held s) ++ map (container_name run_id) ranks.
Proof.
  revert s ids s'. induction ranks as [|rank ranks IH]; intros s ids s'; cbn [start_ranks].
  { intros [= _ <-]. by rewrite app_nil_r. }
  unfold mbind at 1, docking_bind at 1. pose proof (checked_held (arguments rank (container_name run_id rank)) s) as Hh.
  destruct (docker_checked _ _ s) as [[o|e] s1]; [|done]. cbn [snd] in Hh.
  destruct (from_utf8 (stdout o)) as [id|]; [|done].
  unfold attempt, push_container, get_held, set_held, mbind, docking_bind. cbn [ok_or map_err held].
  match goal with |- context [start_ranks arguments run_id ranks ?x] => set (s2 := x) end.
  destruct (start_ranks arguments run_id ranks s2) as [[rest|e] s3] eqn:E; [|done].
  intros [= _ <-]. apply IH in E. rewrite E. subst s2. cbn [held containers]. rewrite Hh.
  by rewrite <- app_assoc.
Qed.

Lemma launch_scope_returns request run_id engine resources events s :
  containers (held s) = [] -> nproc request <= length (filter is_report events) ->
  (launch_scope request run_id engine resources events s).1 <> Err Blocked.
Proof.
  intros Hc Hn. unfold launch_scope, get_held. unfold mbind at 1 2 3, docking_bind at 1 2 3.
  match goal with |- context [start_ranks ?a run_id ?l s] =>
    pose proof (returns_start a run_id l s) as Hr;
    destruct (start_ranks a run_id l s) as [[ids|e] s1] eqn:E end; [|intros [= ->]; by apply Hr].
  apply start_ranks_held in E. rewrite Hc in E. cbn [app] in E.
  apply returns_bind.
  { apply wait_returns. by rewrite E, length_map, length_seq. }
  intros codes. apply returns_bind; [apply returns_records|]. intros ranks.
  apply returns_bind; [done|]. intros self. apply returns_bind; [|done].
  destruct (keep self); [done|apply returns_cleanup].
Qed.

(** C15: a launch releases what it holds on every path.  Whatever the Docker
    daemon answers to each command, whatever order the containers end in and
    whenever Ctrl-C comes, when a launch returns - with its report or with an
    error - nothing of its containers and network may remain but what is [lost]:
    what the daemon did not confirm the creation or the removal of, and a
    container it started without printing an identifier.  With a daemon that
    confirms every command nothing remains ([Docker.released_serves]).  Asked to
    keep the containers, it has stopped them last and its guard knows all that
    may remain.  As long as each docker command itself returns, it returns once
    Docker has reported the end of as many containers as there are ranks. *)
Theorem launch_leaves_nothing request new_run_id handler dockerfile events i :
  let '(res, s) := run_launch request new_run_id handler dockerfile events
                     (mkSession [] i (mkResources "" [] (keep_containers request))) in
  (res <> Err Blocked -> released docker (keep_containers request) s) /\
  (nproc request <= length (filter is_report events) -> res <> Err Blocked).
Proof.
  destruct (run_launch _ _ _ _ _ _) as [res s] eqn:E. split.
  - intros Hne. revert E. unfold run_launch.
    assert (fresh docker (keep_containers request) (mkSession [] i (mkResources "" [] (keep_containers request))))
      as Hf by done.
    revert Hf. generalize (mkSession [] i (mkResources "" [] (keep_containers request))). intros s0 Hf.
    do 9 (eapply fresh_bind; [auto using neutral_engine_info, neutral_ensure_image with docker|exact Hf|];
      clear s0 Hf; intros ? s0 Hf).
    intros H. eapply scope_releases; [apply launch_scope_guards|exact Hf|exact H|exact Hne].
  - intros Hn. replace res with (run_launch request new_run_id handler dockerfile events
      (mkSession [] i (mkResources "" [] (keep_containers request)))).1 by (by rewrite E).
    unfold run_launch.
    do 9 (apply returns_bind; [solve [done|auto using returns_attempt, returns_engine_info, returns_ensure_image]|intros ?]).
    apply returns_bind; [apply returns_checked|]. intros o s0. apply with_resources_returns.
    by apply launch_scope_returns.
Qed.

(** ** The verdict *)

(** A daemon whose commands succeed, and ranks that end with code 0 in some
    order, without Ctrl-C. *)
Definition serves : Prop := forall past c, exists o, docker past c = Some o /\ status_success o = true.
(** Docker prints container identifiers as text. *)
Hypothesis Htext : forall past c o, docker past c = Some o -> from_utf8 (stdout o) = Some (stdout o).

Definition calm (e : wait_event) : Prop :=
  match e with Waited _ (Some o) => wait_code o = 0%Z | Timeout => True | _ => False end.
Definition reported (e : wait_event) : list nat := match e with Waited rank _ => [rank] | _ => [] end.

Lemma checked_serves c s : serves -> exists o,
  docker (issued s) c = Some o /\ status_success o = true /\
  docker_checked docker c s = (Ok o, mkSession (issued s ++ [c]) (interrupted s) (held s)).
Proof.
  intros Hs. destruct (Hs (issued s) c) as (o & E & Eo). exists o. split; [done|]. split; [done|].
  unfold docker_checked, docker_output, mbind, docking_bind. rewrite E. cbn. by rewrite Eo.
Qed.

Lemma engine_info_serves info engine s : serves ->
  (forall past o, docker past ["info"; "--format"; "{{json .}}"] = Some o -> parse_info (stdout o) = Some info) ->
  engine_of_info info = Ok engine -> exists s1, docker_engine_info docker parse_info s = (Ok engine, s1).
Proof.
  intros Hs Hinfo He. unfold docker_engine_info.
  destruct (checked_serves ["info"; "--format"; "{{json .}}"] s Hs) as (o & Eo & _ & Hc).
  erewrite bind_ok by exact Hc. erewrite bind_ok by (apply attempt_ok; by rewrite (Hinfo _ _ Eo)).
  eexists. by apply attempt_ok.
Qed.
Lemma ensure_image_serves image context dockerfile s : serves -> blank image = false -> exists s1,
  ensure_image docker image context dockerfile false s = (Ok tt, s1) /\ interrupted s1 = interrupted s.
Proof.
  intros Hs Hb. unfold ensure_image. rewrite Hb. erewrite bind_ok by (by apply attempt_ok).
  destruct (Hs (issued s) ["image"; "inspect"; image]) as (o & Eo & Es).
  erewrite bind_ok by (unfold docker_output; rewrite Eo; reflexivity). rewrite Es. by eexists.
Qed.

Lemma start_ranks_serves arguments run_id ranks s : serves ->
  exists ids s', start_ranks arguments run_id ranks s = (Ok ids, s') /\
    map fst ids = map (fun r => (r, container_name run_id r)) ranks /\ interrupted s' = interrupted s.
Proof.
  intros Hs. revert s. induction ranks as [|rank ranks IH]; intros s; cbn [start_ranks]; [by exists [], s|].
  destruct (checked_serves (arguments rank (container_name run_id rank)) s Hs) as (o & E & _ & Hc).
  unfold mbind at 1, docking_bind at 1. rewrite Hc. rewrite (Htext _ _ _ E).
  unfold attempt, push_container, get_held, set_held, mbind, docking_bind. cbn [ok_or map_err held issued interrupted].
  match goal with |- context [start_ranks arguments run_id ranks ?x] => destruct (IH x) as (ids & s' & -> & H1 & H2) end.
  exists ((rank, container_name run_id rank, trim (stdout o)) :: ids), s'. cbn. by rewrite H1.
Qed.

Lemma wait_head_calm names stopped s : interrupted s = false -> wait_head docker names stopped s = (Ok stopped, s).
Proof. intros Hi. unfold wait_head, is_interrupted, mbind, docking_bind. by rewrite Hi. Qed.

Lemma wait_loop_calm names events codes stopped s n :
  interrupted s = false -> Forall calm events -> flat_map reported events <> [] ->
  NoDup (flat_map reported events) -> length codes = n ->
  (forall i, i ∈ flat_map reported events -> i < n) ->
  (forall i, i < n -> i ∉ flat_map reported events -> codes !! i = Some 0%Z) ->
  wait_loop docker names events (length (flat_map reported events)) codes stopped s = (Ok (replicate n 0%Z), s).
Proof.
  intros Hi. revert codes stopped. induction events as [|e events IH]; intros codes stopped Hc Hne Hnd Hl Hlt Hz; [done|].
  apply List.Forall_cons_iff in Hc as [He Hc].
  destruct e as [rank [o|]| | |]; try done; cbn [wait_loop].
  - cbn [calm] in He. rewrite He. cbn [Z.eqb negb andb].
    change (flat_map reported (Waited rank (Some o) :: events)) with (rank :: flat_map reported events) in *.
    apply list.NoDup_cons in Hnd as [Hn Hnd]. cbn [length]. unfold mbind at 1, docking_bind at 1. cbn [mret docking_ret].
    assert (forall i, i < n -> i ∉ flat_map reported events -> <[rank := 0%Z]> codes !! i = Some 0%Z) as Hz'.
    { intros i Hin Hr. destruct (decide (i = rank)) as [->|Hd].
      - apply list_lookup_insert_eq. by rewrite Hl.
      - rewrite list_lookup_insert_ne by done. apply Hz; [done|]. by apply not_elem_of_cons. }
    assert (length (<[rank := 0%Z]> codes) = n) as Hl' by (by rewrite length_insert).
    destruct (Nat.eqb_spec (S (length (flat_map reported events))) 1) as [E|E].
    + assert (flat_map reported events = []) as Er by (destruct (flat_map _ _); done).
      assert (match events with Interrupt :: _ => true | _ => false end = false) as Ef
        by (destruct events as [|[] ?]; try done; by apply List.Forall_cons_iff in Hc as [? _]).
      unfold wait_finish, is_interrupted, mbind, docking_bind. rewrite Hi, Ef.
      enough (<[rank := 0%Z]> codes = replicate n 0%Z) as -> by done.
      apply list_eq_same_length with n; [by rewrite length_replicate|done|].
      intros i x y Hin Hx Hy. rewrite (Hz' i Hin) in Hx by (by rewrite Er; apply not_elem_of_nil).
      apply lookup_replicate in Hy as [-> _]. by injection Hx.
    + unfold mbind, docking_bind. rewrite wait_head_calm by done. rewrite Nat.sub_succ, Nat.sub_0_r.
      apply IH; auto; [intros Er; by rewrite Er in E|]. intros i Hin. apply Hlt. by right.
  - change (flat_map reported (Timeout :: events)) with (flat_map reported events) in *.
    unfold mbind, docking_bind. rewrite wait_head_calm by done.
    by apply IH; auto.
Qed.

Lemma wait_calm names events n s :
  interrupted s = false -> 0 < n -> length names = n -> Forall calm events -> flat_map reported events ≡ₚ seq 0 n ->
  wait_for_containers docker names events s = (Ok (replicate n 0%Z), s).
Proof.
  intros Hi Hn Hl Hcalm Hperm.
  assert (length (flat_map reported events) = n) as Hlen by (by rewrite Hperm, length_seq).
  unfold wait_for_containers. rewrite Hl.
  destruct (Nat.eqb_spec n 0) as [Hz|_]; [lia|]. erewrite bind_ok by (by apply wait_head_calm).
  pose proof (wait_loop_calm names events (replicate n (-1)%Z) false s n) as H.
  rewrite Hlen in H. apply H; [done..| | |by apply length_replicate| |].
  - intros E. rewrite E in Hlen. cbn in Hlen. lia.
  - rewrite Hperm. apply NoDup_seq.
  - intros i Hin. rewrite Hperm in Hin. apply elem_of_seq in Hin. lia.
  - intros i Hin Hni. destruct Hni. rewrite Hperm. apply elem_of_seq. lia.
Qed.

(** The report rank [i] prints is read back from its log. *)
Definition printed (report : nat -> RankProcessReport) (run_id : string) (n : nat) : Prop :=
  forall past i, i < n -> exists logs, docker past ["logs"; container_name run_id i] = Some logs /\
    trim (from_utf8_lossy (stdout logs)) <> "" /\
    parse_report (trim (from_utf8_lossy (stdout logs))) = Some (report i).

Lemma rank_records_good report run_id n codes l s :
  printed report run_id n -> codes = replicate n 0%Z ->
  (forall i, i < n -> process_success (report i) = true) ->
  map fst l = map (fun r => (r, container_name run_id r)) (map (fun x => x.1.1) l) ->
  Forall (fun x => x.1.1 < n) l ->
  exists s', rank_records codes l s =
    (Ok (map (fun x => mkRankReport x.1.1 x.1.2 x.2 0 (Some (report x.1.1)) None) l), s') /\ held s' = held s.
Proof.
  intros Hp -> Hs. revert s. induction l as [|[[rank name] id] l IH]; intros s Hl Hlt; cbn [rank_records map].
  { by exists s. }
  apply List.Forall_cons_iff in Hlt as [Hr Hlt]. injection Hl as -> Hl. cbn [fst snd] in *.
  destruct (Hp (issued s) rank Hr) as (logs & E & Hne & Hparse).
  unfold rank_record, docker_output, mbind, docking_bind. rewrite E. cbn [mret docking_ret fst snd].
  destruct (IH (mkSession (issued s ++ [["logs"; container_name run_id rank]]) (interrupted s) (held s)) Hl Hlt)
    as (s' & -> & Hh).
  exists s'. split; [|exact Hh].
  rewrite lookup_replicate_2 by done. apply String.eqb_neq in Hne. rewrite Hne, Hparse. cbn [default].
  by rewrite Hs.
Qed.

Section Success.
Variables (request : LaunchRequest) (new_run_id : string) (events : list wait_event)
  (info : DockerInfoJson) (engine : DockerEngineReport) (memory : N) (p : ResourcePlan)
  (report : nat -> RankProcessReport).
#[local] Abbreviation n := (nproc request).
#[local] Abbreviation run_id := (default new_run_id (launch_run_id request)).
Hypothesis Hserves : serves.
Hypothesis Hinfo : forall past o, docker past ["info"; "--format"; "{{json .}}"] = Some o -> parse_info (stdout o) = Some info.
Hypothesis Hengine : engine_of_info info = Ok engine.
Hypothesis Hplan : plan_resources n (total_cpus request) memory engine = Ok p.
Hypothesis Hevents : Forall calm events /\ flat_map reported events ≡ₚ seq 0 n.
Hypothesis Hprinted : printed report run_id n.
Hypothesis Hreport : forall i, i < n ->
  process_success (report i) = true /\ process_verification (report i) = Passed /\ length (process_peers (report i)) = n.

Lemma scope_succeeds s : containers (held s) = [] -> interrupted s = false -> 0 < n ->
  exists r s', launch_scope request run_id engine p events s = (Ok r, s') /\ launch_success r = true /\
    map container_report (launch_ranks r) = map (fun i => Some (report i)) (seq 0 n).
Proof.
  intros Hc Hi Hn. unfold launch_scope. erewrite bind_ok by reflexivity.
  match goal with |- context [start_ranks ?a _ _] =>
    destruct (start_ranks_serves a run_id (seq 0 n) s Hserves) as (ids & s1 & Hstart & Hids & Hi1) end.
  erewrite bind_ok by exact Hstart. apply start_ranks_held in Hstart. rewrite Hc in Hstart. cbn [app] in Hstart.
  erewrite bind_ok by reflexivity. rewrite Hi in Hi1.
  destruct Hevents as [Hcalm Hperm].
  assert (wait_for_containers docker (containers (held s1)) events s1 = (Ok (replicate n 0%Z), s1)) as Hwait.
  { apply wait_calm; [done|lia|by rewrite Hstart, length_map, length_seq|done..]. }
  erewrite bind_ok by exact Hwait.
  assert (map (fun x => x.1.1) ids = seq 0 n) as Hranks.
  { apply (f_equal (map fst)) in Hids. rewrite !map_map in Hids. cbn in Hids. by rewrite Hids, map_id. }
  destruct (rank_records_good report run_id n _ ids s1 Hprinted eq_refl) as (s2 & Hrec & _).
  { intros i Hin. by apply Hreport. }
  { by rewrite Hranks. }
  { apply Forall_map with (f := fun x : nat * string * string => x.1.1) (P := fun r => r < n).
    rewrite Hranks. apply List.Forall_forall. intros i Hin%in_seq. lia. }
  erewrite bind_ok by exact Hrec. erewrite bind_ok by reflexivity.
  set (records := map _ ids). 
  assert (map container_rank records = seq 0 (length records)) as Hsorted.
  { subst records. rewrite map_map, length_map. cbn. rewrite Hranks. f_equal.
    by rewrite <- (length_map (fun x => x.1.1)), Hranks, length_seq. }
  unfold sort_by_rank. rewrite (sort_by_key_ordered _ records 0 Hsorted).
  assert (exists s3, (if keep (held s2) then mret tt else cleanup docker) s2 = (Ok tt, s3)) as [s3 H3].
  { destruct (keep (held s2)); [by exists s2|apply cleanup_ok]. }
  erewrite bind_ok by exact H3. eexists _, _. split; [reflexivity|]. cbn [launch_success launch_ranks]. split.
  - apply forallb_forall. intros r ([[i name] id] & <- & Hin)%in_map_iff.
    assert (i < n) as Hlt.
    { assert (i ∈ seq 0 n) as H%elem_of_seq; [|lia]. rewrite <- Hranks. apply list_elem_of_In, in_map_iff.
      by exists (i, name, id). }
    unfold rank_succeeded. cbn. destruct (Hreport i Hlt) as (-> & -> & ->). by rewrite Nat.eqb_refl.
  - subst records. rewrite map_map. cbn. by rewrite <- Hranks, map_map.
Qed.

(** What the launcher asks for before it starts anything. *)
Hypothesis Htimeouts : startup_timeout request <> 0%N /\ operation_timeout request <> 0%N.
Hypothesis Hmemory : parse_byte_size (total_memory request) = Ok memory.
Hypothesis Hrun_id : validate_run_id run_id = Ok tt.
Hypothesis Himage : blank (image request) = false /\ rebuild request = false.

(** A launch succeeds when its ranks do.  If Docker carries out its commands,
    the engine has the resources, the containers end with code 0 in some order,
    without Ctrl-C, and each rank's log is the report of a rank that passed its
    verification and its exchange with all peers, the launcher returns a report
    with success, holding the reports of the ranks in rank order. *)
Theorem docker_launch_succeeds dockerfile i : exists r s',
  run_launch request new_run_id (Ok tt) dockerfile events
    (mkSession [] i (mkResources "" [] (keep_containers request))) = (Ok r, s') /\
  launch_exit r = Ok tt /\ map container_report (launch_ranks r) = map (fun i => Some (report i)) (seq 0 n).
Proof.
  destruct (plan_resources_bounds _ _ _ _ _ Hplan) as [Hw Hn].
  unfold run_launch. erewrite bind_ok by (by apply attempt_ok).
  erewrite bind_ok.
  2:{ apply (attempt_ok _ tt), reject_if_Ok, orb_false_iff. destruct Htimeouts. by rewrite !N.eqb_neq. }
  erewrite bind_ok by (apply attempt_ok; by rewrite Hmemory).
  match goal with |- context [mkSession [] i ?h] => destruct (engine_info_serves info engine (mkSession [] i h) Hserves Hinfo Hengine) as [s1 H1] end.
  erewrite bind_ok by exact H1. erewrite bind_ok by (by apply attempt_ok).
  erewrite bind_ok by (by apply attempt_ok). erewrite bind_ok by (by apply attempt_ok).
  erewrite bind_ok by reflexivity.
  destruct Himage as [Hb Hrebuild]. rewrite Hrebuild.
  destruct (ensure_image_serves (image request) (build_context request) dockerfile
    (mkSession (issued s1) false (held s1)) Hserves Hb) as (s2 & H2 & Hi2). erewrite bind_ok by exact H2. unfold create_network.
  destruct (checked_serves ["network"; "create"; "--label"; RUN_LABEL +:+ "=" +:+ run_id; network_name run_id]
    s2 Hserves) as (o & _ & _ & Hc).
  erewrite bind_ok by exact Hc. unfold with_resources.
  match goal with |- context [launch_scope _ _ _ _ _ ?s] =>
    destruct (scope_succeeds s eq_refl Hi2 Hn) as (r & s3 & -> & Hr & Hreports) end.
  eexists r, _. split; [reflexivity|]. split; [|exact Hreports]. unfold launch_exit. by rewrite Hr.
Qed.
End Success.
End Launch.
