(* ===== verification/LaunchExamples.v ===== *)
(** * Concrete Docker launches

    Two ranks with a daemon that serves every command, and with one that cannot
    start the second rank. *)
From S2P Require Import Prelude Text Rank Packet Wire InMemory Tcp World Tensor Float Registry Memory Launch Docker RingExchange LaunchRun.

Definition duo_request : LaunchRequest :=
  mkLaunch 2 (mkCpuAmount 1000) "512MiB" "dlir:test" "." false (Some "demo") 30000000000 30000000000 false.
Definition duo_info : DockerInfoJson := mkInfo "27.0" "Linux" "x86_64" "2" 8 (16 * 1024 * MIB).

Definition duo_name (i : nat) : string := container_name "demo" i.
Definition duo_docker (past : list command) (c : command) : option Output :=
  Some (mkOutput true
    (if bool_decide (c = ["logs"; duo_name 0]) then duo_name 0
     else if bool_decide (c = ["logs"; duo_name 1]) then duo_name 1 else "0123456789ab") "").
Definition duo_peers : list PeerInfo := [mkPeerInfo 0 "rank-0:29501"; mkPeerInfo 1 "rank-1:29501"].
Definition duo_report (i : nat) : RankProcessReport :=
  launch_report "demo" 2 duo_plan duo_cgroup duo_peers (N.of_nat i) i.
Definition duo_parse (text : string) : option RankProcessReport :=
  if String.eqb text (duo_name 0) then Some (duo_report 0)
  else if String.eqb text (duo_name 1) then Some (duo_report 1) else None.

(** Rank 1 ends first. *)
Definition exited : option Output := Some (mkOutput true (line "0") "").
Definition duo_events : list wait_event := [Waited 1 exited; Timeout; Waited 0 exited].

Lemma duo_text past c o : duo_docker past c = Some o -> from_utf8 (stdout o) = Some (stdout o).
Proof. unfold duo_docker. intros [= <-]. cbn [stdout]. repeat case_bool_decide; by vm_compute. Qed.

Definition start_session (interrupted : bool) : session := mkSession [] interrupted (mkResources "" [] false).

Lemma docker_launch_succeeds_witness : exists r s',
  run_launch duo_docker (fun _ => Some duo_info) duo_parse duo_request "" (Ok tt) false duo_events
    (start_session false) = (Ok r, s') /\
  launch_exit r = Ok tt /\ map container_report (launch_ranks r) = map (fun i => Some (duo_report i)) (seq 0 2).
Proof.
  apply (docker_launch_succeeds duo_docker (fun _ => Some duo_info) duo_parse duo_text duo_request ""
    duo_events duo_info duo_engine (512 * MIB)%N duo_plan duo_report).
  - intros past c. eexists. split; [reflexivity|]. reflexivity.
  - reflexivity.
  - vm_compute. reflexivity.
  - vm_compute. reflexivity.
  - split; [by repeat constructor|]. cbn. apply perm_swap.
  - intros past i Hi. eexists. split; [reflexivity|].
    destruct i as [|[|i]]; [by vm_compute..|cbn in Hi; lia].
  - intros i Hi. destruct i as [|[|i]]; [by vm_compute..|cbn in Hi; lia].
  - by vm_compute.
  - vm_compute. reflexivity.
  - vm_compute. reflexivity.
  - by vm_compute.
Defined.

(** The second container does not start, and the daemon refuses to remove the
    first: they are what may remain.  The network is gone. *)
Definition broken_docker (past : list command) (c : command) : option Output :=
  Some (mkOutput (negb (bool_decide (c !! 3 = Some (duo_name 1) \/ c = ["rm"; "--force"; duo_name 0])))
    "0123456789ab" "").

Definition broken_run : result stop DockerLaunchReport * session :=
  run_launch broken_docker (fun _ => Some duo_info) duo_parse duo_request "" (Ok tt) false [] (start_session false).

Lemma launch_leaves_nothing_witness :
  match broken_run.1 with Err (Failed (DockerFailed _)) => True | _ => False end /\
  leftover broken_docker (firstn 4 (issued broken_run.2)) = [Network (network_name "demo"); Container (duo_name 0)] /\
  leftover broken_docker (issued broken_run.2) = [Container (duo_name 0); Container (duo_name 1)] /\
  released broken_docker false broken_run.2.
Proof.
  split; [by vm_compute|]. split; [vm_compute; reflexivity|]. split; [vm_compute; reflexivity|].
  pose proof (launch_leaves_nothing broken_docker (fun _ => Some duo_info) duo_parse
    duo_request "" (Ok tt) false [] false) as H.
  change (let '(res, s) := broken_run in (res <> Err Blocked -> released broken_docker false s) /\
    (2 <= 0 -> res <> Err Blocked)) in H.
  assert (broken_run.1 <> Err Blocked) as Hne by (by vm_compute).
  destruct broken_run as [res s]. by apply H.
Defined.

(** A daemon that confirms everything: nothing remains of the run. *)
Example served_launch_leaves_nothing :
  leftover duo_docker (issued (run_launch duo_docker (fun _ => Some duo_info) duo_parse duo_request "" (Ok tt)
    false duo_events (start_session false)).2) = [].
Proof. vm_compute. reflexivity. Qed.

(** Ctrl-C while the ranks run: both containers are killed, then removed. *)
Example interrupted_launch :
  let '(res, s) := run_launch duo_docker (fun _ => Some duo_info) duo_parse duo_request "" (Ok tt) false
    [Timeout; Interrupt; Timeout; Waited 0 exited; Waited 1 exited] (start_session false) in
  res = Err (Failed LaunchInterrupted) /\
  skipn 5 (issued s) = [["kill"; duo_name 0]; ["kill"; duo_name 1]; ["rm"; "--force"; duo_name 0];
                        ["rm"; "--force"; duo_name 1]; ["network"; "rm"; network_name "demo"]].
Proof. vm_compute. split; reflexivity. Qed.
