(* ===== verification/BenchmarkLaunch.v ===== *)
(** * The benchmark command

    Models [crates/cli/src/benchmark.rs]: [run_collective_bench] from the request
    to its report, in the scope of the guard of [Docker.v], and the process of a
    rank.  A panic unwinds like an error, through the guard's [Drop].  The daemon
    answers [docker wait] when the container has ended. *)
From Stdlib Require Import Strings.Ascii.
From S2P Require Import Prelude Sorting Text Rank Packet InMemory Tcp World Tensor Float Registry Memory.
From S2P Require Import Collective Launch RingExchange Benchmark Docker LaunchRun Llama Artifacts.

(** [struct CollectiveBenchRequest], without the choice of output. *)
Record CollectiveBenchRequest : Type := mkBenchRequest
  { bq_nproc : nat; bq_total_cpus : CpuAmount; bq_total_memory : string;
    bq_algorithms : list AllReduceAlgorithm; bq_sizes : string; bq_warmup : nat; bq_iterations : nat;
    bq_image : string; bq_build_context : string; bq_rebuild : bool; bq_run_id : option string;
    bq_startup_timeout : Duration; bq_operation_timeout : Duration; bq_keep_containers : bool }.

Definition BENCHMARK_MANIFEST : string := "/opt/dlir/request/benchmark.json".

(** The checks before any Docker resource is created. *)
Definition check_payload (world_size : nat) (algorithm : AllReduceAlgorithm) (size : N) : lresult unit :=
  reject_if ((size =? 0)%N || negb (size mod 4 =? 0)%N
             || (bool_decide (algorithm = RingAllReduce) && negb (size / 4 mod N.of_nat world_size =? 0)%N))
    (InvalidPayload size (algorithm_debug algorithm) world_size).
Fixpoint check_all {A} (check : A -> lresult unit) (l : list A) : lresult unit :=
  match l with [] => Ok tt | a :: l => _ ← check a; check_all check l end.
Definition check_payloads (manifest : CollectiveBenchmarkManifest) : lresult unit :=
  check_all (fun algorithm => check_all (check_payload (bm_world_size manifest) algorithm) (bm_sizes manifest))
    (bm_algorithms manifest).

(** The payload sizes and the memory of a request. *)
Definition parse_bench (request : CollectiveBenchRequest) : lresult (list N * N) :=
  _ ← reject_if (negb ((2 <=? bq_nproc request) && (bq_nproc request <=? 64)) || (bq_iterations request =? 0))
        BenchmarkBounds;
  sizes ← map_err LaunchRuntime (mapM parse_byte_size (split_on ","%char (bq_sizes request)));
  _ ← reject_if (match sizes with [] => true | _ => false end) NoPayloadSize;
  total_memory ← map_err LaunchRuntime (parse_byte_size (bq_total_memory request));
  Ok (sizes, total_memory).

Definition bench_manifest (request : CollectiveBenchRequest) (run_id : string) (sizes : list N)
  : CollectiveBenchmarkManifest :=
  mkBenchManifest 1 run_id (bq_nproc request) sizes (bq_algorithms request) (bq_warmup request) (bq_iterations request).

(** [container_arguments]; [manifest] is the displayed path of the manifest. *)
Definition bench_container_arguments (image network name run_id : string) (rank world_size : nat)
  (resources : ResourcePlan) (startup operation : Duration) (manifest : string) : list string :=
  let rank_text := pretty (N.of_nat rank) in
  ["run"; "--detach"; "--name"; name; "--network"; network; "--network-alias";
   "rank-" +:+ rank_text; "--label"; RUN_LABEL +:+ "=" +:+ run_id;
   "--cpus"; format_cpu (per_rank_cpu_millis resources);
   "--memory"; pretty (per_rank_memory_bytes resources) +:+ "b";
   "--memory-swap"; pretty (per_rank_memory_bytes resources) +:+ "b";
   "--mount"; "type=bind,source=" +:+ manifest +:+ ",target=" +:+ BENCHMARK_MANIFEST +:+ ",readonly";
   image; "rank"; "--workload"; "collective-benchmark"; "--benchmark-manifest"; BENCHMARK_MANIFEST;
   "--rank"; rank_text; "--world-size"; pretty (N.of_nat world_size);
   "--run-id"; run_id; "--rendezvous-addr"; "rank-0:" +:+ pretty RENDEZVOUS_PORT;
   "--listen-addr"; "0.0.0.0:" +:+ pretty PEER_PORT;
   "--advertise-addr"; "rank-" +:+ rank_text +:+ ":" +:+ pretty PEER_PORT;
   "--startup-timeout-seconds"; seconds startup;
   "--operation-timeout-seconds"; seconds operation;
   "--expected-cpu-millis"; pretty (per_rank_cpu_millis resources);
   "--expected-memory-bytes"; pretty (per_rank_memory_bytes resources)]
  ++ (if Nat.eqb rank 0 then ["--rendezvous-bind-addr"; "0.0.0.0:" +:+ pretty RENDEZVOUS_PORT] else []).

(** [benchmark_resources]. *)
Definition benchmark_resources (engine : DockerEngineReport) (resources : ResourcePlan) : CollectiveBenchmarkResources :=
  mkBenchResources (engine_cpu_millis engine) (engine_memory_bytes engine)
    (requested_cpu_millis resources) (requested_memory_bytes resources)
    (per_rank_cpu_millis resources) (per_rank_memory_bytes resources)
    (unused_cpu_millis resources) (unused_memory_bytes resources).

Definition of_join {A} (m : Join A) : lresult A :=
  match m with
  | JoinOk a => Ok a
  | JoinErr e => Err (LaunchCollectives e)
  | JoinPanic message => Err (LaunchPanicked message)
  end.

Section Command.
Variable docker : list command -> command -> option Output.
(** [serde_json] on the output of [docker info] and on a line of a rank. *)
Variable parse_info : string -> option DockerInfoJson.
Variable parse_rank : string -> option CollectiveBenchmarkRankReport.
(** Writes the manifest to a new directory and gives its displayed path. *)
Variable write_manifest : CollectiveBenchmarkManifest -> lresult string.
(** Writes or prints the report. *)
Variable write_output : CollectiveBenchmarkReport -> lresult unit.

(** The loop that starts the ranks. *)
Fixpoint start_bench_ranks (arguments : nat -> string -> command) (run_id : string) (ranks : list nat)
  : docking unit :=
  match ranks with
  | [] => mret tt
  | rank :: ranks =>
      let name := container_name run_id rank in
      _ ← docker_checked docker (arguments rank name);
      _ ← push_container name;
      start_bench_ranks arguments run_id ranks
  end.

(** One container: its exit code, and the first line of its log that is a report. *)
Definition bench_rank_result (rank : nat) (name : string)
  : docking (string + CollectiveBenchmarkRankReport) :=
  waited ← docker_output docker ["wait"; name];
  let code := wait_code waited in
  logs ← docker_output docker ["logs"; name];
  mret (if negb (code =? 0)%Z
        then inl ("rank " +:+ pretty (N.of_nat rank) +:+ " exited with status " +:+ pretty code)
        else match omap parse_rank (lines (from_utf8_lossy (stdout logs))) with
             | report :: _ => inr report
             | [] => inl ("rank " +:+ pretty (N.of_nat rank) +:+ " emitted no benchmark report")
             end).

(** The loop over the containers: the reports and the failures. *)
Fixpoint collect_bench (rank : nat) (names : list string) (ranks : list CollectiveBenchmarkRankReport)
  (failures : list string) : docking (list CollectiveBenchmarkRankReport * list string) :=
  match names with
  | [] => mret (ranks, failures)
  | name :: names =>
      r ← bench_rank_result rank name;
      match r with
      | inl failure => collect_bench (S rank) names ranks (failures ++ [failure])
      | inr report => collect_bench (S rank) names (ranks ++ [report]) failures
      end
  end.

(** The scope of the guard. *)
Definition bench_scope (request : CollectiveBenchRequest) (run_id : string)
  (manifest : CollectiveBenchmarkManifest) (engine : DockerEngineReport) (resources : ResourcePlan)
  (manifest_path : string) : docking CollectiveBenchmarkReport :=
  self ← get_held;
  _ ← start_bench_ranks
    (fun rank name => bench_container_arguments (bq_image request) (network self) name run_id rank (bq_nproc request)
       resources (bq_startup_timeout request) (bq_operation_timeout request) manifest_path) run_id
    (seq 0 (bq_nproc request));
  self ← get_held;
  r ← collect_bench 0 (containers self) [] [];
  _ ← attempt (reject_if (negb (bool_decide (r.2 = []))) (BenchmarkFailed r.2));
  report ← attempt (of_join (aggregate_all_reduce_benchmark manifest r.1 (benchmark_resources engine resources)));
  _ ← attempt (write_output report);
  _ ← (if bq_keep_containers request then mret tt else cleanup docker);
  mret report.

(** [run_collective_bench], up to the verdict of its report.  [new_run_id] is
    [default_run_id()], [handler] the outcome of installing the interrupt handler. *)
Definition run_collective_bench (request : CollectiveBenchRequest) (new_run_id : string) (handler : lresult unit)
  (dockerfile : bool) : docking CollectiveBenchmarkReport :=
  parsed ← attempt (parse_bench request);
  engine ← docker_engine_info docker parse_info;
  resources ← attempt (plan_resources (bq_nproc request) (bq_total_cpus request) parsed.2 engine);
  let run_id := default new_run_id (bq_run_id request) in
  _ ← attempt (validate_run_id run_id);
  let manifest := bench_manifest request run_id parsed.1 in
  _ ← attempt (check_payloads manifest);
  manifest_path ← attempt (write_manifest manifest);
  _ ← attempt handler;
  _ ← set_interrupted false;
  _ ← ensure_image docker (bq_image request) (bq_build_context request) dockerfile (bq_rebuild request);
  _ ← create_network docker run_id;
  with_resources docker (mkResources (network_name run_id) [] (bq_keep_containers request))
    (bench_scope request run_id manifest engine resources manifest_path).

(** What [run_collective_bench] returns for its report. *)
Definition bench_exit (report : CollectiveBenchmarkReport) : lresult unit :=
  reject_if (negb (bench_success report)) BenchmarkIncorrect.
End Command.

(** ** The process of a rank *)
Section Process.
Context {FO : FloatOps}.

(** [run_collective_benchmark_rank_process] up to the report it prints, once its
    transport is connected: the cgroup files are [read] before and [read_after]
    the workload, the clocks are those of [Benchmark.v]. *)
Definition run_collective_benchmark_rank_process (rank_request : RankRequest)
  (manifest_file : lresult CollectiveBenchmarkManifest) (read read_after : string -> option string)
  (latency elapsed : N -> Duration) : lproc CollectiveBenchmarkRankReport :=
  (manifest ⟵ lift manifest_file;
   _ ⟵ lift (verify_resources (observe_cgroup_resources read)
               (request_cpu_millis rank_request) (request_memory_bytes rank_request));
   rank ⟵ lift (map_err LaunchCollectives (Ranks.new (request_rank rank_request) (request_world_size rank_request)));
   report ⟵ lcomm (run_all_reduce_benchmark_rank latency elapsed rank manifest);
   _ ⟵ lift (verify_resources (observe_cgroup_resources read_after)
               (request_cpu_millis rank_request) (request_memory_bytes rank_request));
   lift (Ok report))%proc.
End Process.
