(* ===== verification/BenchmarkLaunchProofs.v ===== *)
(** * The benchmark command releases what it holds and measures

    The command of [BenchmarkLaunch.v] over the ranks of [BenchmarkProofs.v]; at the
    end two ranks of half a CPU with a daemon that serves every command, and with
    one that does not start the second container and refuses a removal. *)
From Stdlib Require Import Strings.Ascii.
From S2P Require Import Prelude Sorting Text Rank Packet InMemory Tcp World Tensor Float FloatExact Registry Memory.
From S2P Require Import Collective CollectiveWorld Launch RingExchange Benchmark BenchmarkProofs Docker LaunchRun BenchmarkLaunch.

Section Command.
Variable docker : list command -> command -> option Output.
Variable parse_info : string -> option DockerInfoJson.
Variable parse_rank : string -> option CollectiveBenchmarkRankReport.
Variable write_manifest : CollectiveBenchmarkManifest -> lresult string.
Variable write_output : CollectiveBenchmarkReport -> lresult unit.

Lemma start_bench_ranks_guards k arguments run_id ranks :
  (forall rank name, acquires (arguments rank name) = Some (Container name)) ->
  guards docker k (start_bench_ranks docker arguments run_id ranks).
Proof.
  intros Ha. induction ranks as [|rank ranks IH]; cbn [start_bench_ranks]; [auto with docker|].
  apply (acquire_guards docker k _ _ (fun _ => Ok tt) (fun _ => start_bench_ranks docker arguments run_id ranks));
    [by exists tt|apply Ha|done].
Qed.

Lemma collect_bench_neutral rank names ranks failures :
  neutral docker (collect_bench docker parse_rank rank names ranks failures).
Proof.
  revert rank ranks failures. induction names as [|name names IH]; intros; cbn [collect_bench]; [auto with docker|].
  apply neutral_bind; [unfold bench_rank_result; neutral_auto|]. intros [failure|report]; apply IH.
Qed.

Lemma bench_scope_guards request run_id manifest engine resources path :
  guards docker (bq_keep_containers request)
    (bench_scope docker parse_rank write_output request run_id manifest engine resources path).
Proof.
  unfold bench_scope. apply guards_bind; [auto with docker|]. intros self.
  apply guards_bind; [by apply start_bench_ranks_guards|]. intros _.
  apply guards_bind; [auto with docker|]. intros self'.
  apply guards_bind; [apply neutral_guards, collect_bench_neutral|]. intros r.
  apply guards_bind; [auto with docker|]. intros _. apply guards_bind; [auto with docker|]. intros report.
  apply guards_bind; [auto with docker|]. intros _.
  apply guards_bind; [|auto with docker].
  destruct (bq_keep_containers request); [auto with docker|apply cleanup_guards].
Qed.

Lemma returns_start_bench arguments run_id ranks : returns (start_bench_ranks docker arguments run_id ranks).
Proof.
  induction ranks as [|rank ranks IH]; cbn [start_bench_ranks]; [done|].
  apply returns_bind; [apply returns_checked|]. intros _. by apply returns_bind.
Qed.
Lemma returns_collect_bench rank names ranks failures : returns (collect_bench docker parse_rank rank names ranks failures).
Proof.
  revert rank ranks failures. induction names as [|name names IH]; intros; cbn [collect_bench]; [done|].
  apply returns_bind; [|intros [failure|report]; apply IH].
  unfold bench_rank_result. apply returns_bind; [apply returns_output|]. intros waited.
  apply returns_bind; [apply returns_output|done].
Qed.

(** C18: A benchmark releases what it holds on every path.  Whatever the daemon and
    the file system answer and whatever the ranks print, when the command returns
    nothing of its containers and network may remain but what is [lost], as for the
    plain launch.  It waits for nothing but its docker commands - [docker wait]
    among them, whose answer is the end of a container - so it returns as long as
    each of them does. *)
Theorem benchmark_leaves_nothing request new_run_id handler dockerfile i :
  let '(res, s) := run_collective_bench docker parse_info parse_rank write_manifest write_output request new_run_id handler dockerfile
                     (mkSession [] i (mkResources "" [] (bq_keep_containers request))) in
  res <> Err Blocked /\ released docker (bq_keep_containers request) s.
Proof.
  destruct (run_collective_bench _ _ _ _ _ _ _ _ _ _) as [res s] eqn:E.
  assert (res <> Err Blocked) as Hne.
  { replace res with (run_collective_bench docker parse_info parse_rank write_manifest write_output request new_run_id handler dockerfile
      (mkSession [] i (mkResources "" [] (bq_keep_containers request)))).1 by (by rewrite E).
    unfold run_collective_bench.
    do 9 (apply returns_bind; [solve [done|auto using returns_attempt, returns_engine_info, returns_ensure_image]|intros ?]).
    apply returns_bind; [apply returns_checked|]. intros o s0. apply with_resources_returns.
    unfold bench_scope. do 2 (apply returns_bind; [solve [done|apply returns_start_bench]|intros ?]).
    do 5 (apply returns_bind; [solve [done|apply returns_collect_bench|apply returns_attempt]|intros ?]).
    apply returns_bind; [|done]. destruct (bq_keep_containers request); [done|apply returns_cleanup]. }
  split; [done|]. revert E. unfold run_collective_bench.
  assert (fresh docker (bq_keep_containers request) (mkSession [] i (mkResources "" [] (bq_keep_containers request))))
    as Hf by done.
  revert Hf. generalize (mkSession [] i (mkResources "" [] (bq_keep_containers request))). intros s0 Hf.
  do 9 (eapply fresh_bind; [auto using neutral_engine_info, neutral_ensure_image with docker|exact Hf|];
    clear s0 Hf; intros ? s0 Hf).
  intros H. eapply scope_releases; [apply bench_scope_guards|exact Hf|exact H|exact Hne].
Qed.
End Command.

(** ** The ranks of the command *)

Lemma check_all_Ok {A} (check : A -> lresult unit) l : check_all check l = Ok tt <-> forall a, a ∈ l -> check a = Ok tt.
Proof.
  induction l as [|a l IH]; cbn [check_all].
  { split; [|done]. intros _ a H. by apply not_elem_of_nil in H. }
  split.
  - intros H b. apply bind_Ok in H as ([] & Ha & H). rewrite elem_of_cons. intros [->|Hb]; [done|by apply IH].
  - intros H. rewrite H by left. apply IH. intros b Hb. apply H. by right.
Qed.

(** The command and its ranks check the same. *)
Lemma check_payload_valid n algorithm size :
  check_payload n algorithm size = Ok tt -> payload_invalid algorithm size n = false.
Proof.
  unfold check_payload. intros H%reject_if_Ok. unfold payload_invalid.
  apply orb_false_iff in H as [H1 H2]. rewrite H1. cbn [orb]. destruct algorithm; [done|]. cbn [bool_decide] in *.
  rewrite bool_decide_eq_true_2 in * by done. cbn [andb] in *. apply negb_false_iff in H2. apply negb_false_iff, Nat.eqb_eq.
  apply N.eqb_eq in H2. unfold payload_elements. apply (f_equal N.to_nat) in H2.
  by rewrite N2Nat.inj_mod, Nat2N.id in H2.
Qed.

Section Whole.
Context {FO : FloatOps} {EI : ExactIntegers} (request : CollectiveBenchRequest) (new_run_id : string)
  (info : DockerInfoJson) (engine : DockerEngineReport) (sizes : list N) (memory : N) (p : ResourcePlan)
  (read read_after : nat -> string -> option string) (latency elapsed : nat -> N -> Duration).
#[local] Abbreviation n := (bq_nproc request).
#[local] Abbreviation run_id := (default new_run_id (bq_run_id request)).
#[local] Abbreviation manifest := (bench_manifest request run_id sizes).
#[local] Abbreviation limited := (fun read =>
  enforced read (per_rank_cpu_millis p * 100)%N 100000%N (per_rank_memory_bytes p)).

(** A request the host can serve, of payloads a rank's transport takes in a frame,
    its limits enforced on every rank. *)
Record bench_request_ok : Prop := mkBenchRequestOk
  { bo_parse : parse_bench request = Ok (sizes, memory);
    bo_engine : engine_of_info info = Ok engine;
    bo_bounds : (engine_cpu_millis engine * 100000 < U64)%N /\ (engine_memory_bytes engine < U64)%N;
    bo_plan : plan_resources n (bq_total_cpus request) memory engine = Ok p;
    bo_run_id : validate_run_id run_id = Ok tt;
    bo_payloads : check_payloads manifest = Ok tt;
    bo_frames : Forall transportable sizes;
    bo_image : blank (bq_image request) = false /\ bq_rebuild request = false;
    bo_count : (case_start manifest (length (work manifest)) <= 2 ^ 44)%N;
    bo_limits : forall i, i < n -> limited (read i) /\ limited (read_after i) }.
Hypothesis Hok : bench_request_ok.

Lemma bench_ranks : 2 <= n <= 64 /\ 0 < bq_iterations request.
Proof.
  pose proof (bo_parse Hok) as H. unfold parse_bench in H.
  apply bind_Ok in H as (_ & H%reject_if_Ok & _). apply orb_false_iff in H as [H1 H2].
  apply negb_false_iff, andb_true_iff in H1 as [H1%Nat.leb_le H3%Nat.leb_le]. apply Nat.eqb_neq in H2. lia.
Qed.

Lemma bench_workload : workload_ok n manifest.
Proof.
  pose proof bench_ranks. split; [done|done|cbn; lia| |exact (bo_count Hok)].
  intros algorithm payload Ha Hp. cbn in Ha, Hp. pose proof (bo_payloads Hok) as Hc. unfold check_payloads in Hc.
  rewrite check_all_Ok in Hc. specialize (Hc algorithm Ha). rewrite check_all_Ok in Hc. split.
  - by apply check_payload_valid, Hc.
  - exact (proj1 (list.Forall_forall _ _) (bo_frames Hok) payload Hp).
Qed.

(** The process of rank [i]. *)
Definition bench_process (i : nat) : lproc CollectiveBenchmarkRankReport :=
  run_collective_benchmark_rank_process (launch_request run_id n p i) (Ok manifest) (read i) (read_after i)
    (latency i) (elapsed i).

Lemma bench_processes_together :
  exists reports, together n bench_process (fun i => Ok (reports i)) /\
    forall i, i < n -> rank_measured n latency manifest i (reports i).
Proof.
  pose proof bench_ranks.
  destruct (benchmark_ranks_together n ltac:(lia) latency elapsed manifest bench_workload) as (reports & Ht & Hr).
  exists reports. split; [|done]. unfold bench_process, run_collective_benchmark_rank_process, launch_request.
  cbn [request_rank request_world_size request_cpu_millis request_memory_bytes].
  assert (forall read, limited read -> verify_resources (observe_cgroup_resources read)
    (Some (per_rank_cpu_millis p)) (Some (per_rank_memory_bytes p)) = Ok Passed) as Hv
    by (intros f Hf; eapply plan_limits; [exact (bo_bounds Hok)|exact (bo_plan Hok)|exact Hf]).
  apply (together_lift n _ (fun _ => manifest)); [done|].
  apply (together_lift n _ (fun _ => Passed)); [intros i Hi; by apply Hv, (bo_limits Hok)|].
  apply (together_lift n _ (fun i => mkRank i n)); [intros i Hi; by rewrite Ranks.rank_new_ok|].
  apply (together_try n _ reports); [by apply together_err|].
  apply (together_lift n _ (fun _ => Passed)); [intros i Hi; by apply Hv, (bo_limits Hok)|].
  by apply together_ret.
Qed.

(** A daemon under which the containers end with code 0 and their logs have the
    reports. *)
Definition bench_printed (docker : list command -> command -> option Output)
  (parse_rank : string -> option CollectiveBenchmarkRankReport) (reports : nat -> CollectiveBenchmarkRankReport) : Prop :=
  forall past i, i < n -> exists waited logs rest,
    docker past ["wait"; container_name run_id i] = Some waited /\ wait_code waited = 0%Z /\
    docker past ["logs"; container_name run_id i] = Some logs /\
    omap parse_rank (lines (from_utf8_lossy (stdout logs))) = reports i :: rest.

Section Success.
Variable docker : list command -> command -> option Output.
Variable parse_info : string -> option DockerInfoJson.
Variable parse_rank : string -> option CollectiveBenchmarkRankReport.
Variable write_manifest : CollectiveBenchmarkManifest -> lresult string.
Variable write_output : CollectiveBenchmarkReport -> lresult unit.
Variables (reports : nat -> CollectiveBenchmarkRankReport) (path : string).
Hypothesis Hserves : serves docker.
Hypothesis Hprinted : bench_printed docker parse_rank reports.

Lemma start_bench_serves arguments ranks s :
  exists s', start_bench_ranks docker arguments run_id ranks s = (Ok tt, s') /\
    containers (held s') = containers (held s) ++ map (container_name run_id) ranks.
Proof.
  revert s. induction ranks as [|rank ranks IH]; intros s; cbn [start_bench_ranks].
  { exists s. by rewrite app_nil_r. }
  destruct (checked_serves docker (arguments rank (container_name run_id rank)) s Hserves) as (o & _ & _ & Hc).
  erewrite bind_ok by exact Hc. unfold push_container, get_held, set_held.
  erewrite bind_ok by reflexivity.
  match goal with |- context [start_bench_ranks docker arguments run_id ranks ?x] => destruct (IH x) as (s' & -> & H) end.
  exists s'. split; [done|]. rewrite H. cbn. by rewrite <- app_assoc.
Qed.

Lemma collect_bench_serves k count given failures s : k + count <= n ->
  exists s', collect_bench docker parse_rank k (map (container_name run_id) (seq k count)) given failures s =
    (Ok (given ++ map reports (seq k count), failures), s') /\ held s' = held s.
Proof.
  revert k given s. induction count as [|count IH]; intros k given s Hk; cbn [seq map collect_bench].
  { exists s. by rewrite app_nil_r. }
  unfold bench_rank_result, docker_output.
  destruct (Hprinted (issued s) k ltac:(lia)) as (waited & _ & _ & Hw & Hcode & _).
  destruct (Hprinted (issued s ++ [["wait"; container_name run_id k]]) k ltac:(lia)) as (_ & logs & rest & _ & _ & Hlogs & Hparse).
  erewrite bind_ok; cycle 1.
  { erewrite bind_ok by (rewrite Hw; reflexivity). erewrite bind_ok by (cbn [issued]; rewrite Hlogs; reflexivity).
    reflexivity. }
  cbv beta. rewrite Hcode, Hparse. cbn [Z.eqb negb]. match goal with |- context [collect_bench _ _ _ _ _ _ ?x] => destruct (IH (S k) (given ++ [reports k]) x ltac:(lia)) as (s' & -> & Hh) end.
  exists s'. split; [by rewrite <- app_assoc|exact Hh].
Qed.

Lemma bench_succeeds dockerfile s :
  (forall past o, docker past ["info"; "--format"; "{{json .}}"] = Some o -> parse_info (stdout o) = Some info) ->
  write_manifest manifest = Ok path -> (forall report, write_output report = Ok tt) ->
  (forall i, i < n -> rank_measured n latency manifest i (reports i)) ->
  exists report s',
    run_collective_bench docker parse_info parse_rank write_manifest write_output request new_run_id (Ok tt) dockerfile s = (Ok report, s') /\
    aggregated n latency manifest reports report /\ bench_resources report = Some (benchmark_resources engine p).
Proof.
  intros Hinfo Hpath Hwrite Hr. pose proof bench_ranks as [Hn _].
  destruct (reports_aggregated n latency manifest reports ltac:(lia) bench_workload Hr (map reports (seq 0 n))
    (benchmark_resources engine p) ltac:(done)) as (report & Hagg & Hreport & Hres).
  unfold run_collective_bench. erewrite bind_ok by (apply attempt_ok; exact (bo_parse Hok)). cbn [fst snd].
  destruct (engine_info_serves docker parse_info info engine s Hserves Hinfo (bo_engine Hok)) as [s1 H1].
  erewrite bind_ok by exact H1. erewrite bind_ok by (apply attempt_ok; exact (bo_plan Hok)).
  erewrite bind_ok by (apply attempt_ok; exact (bo_run_id Hok)).
  erewrite bind_ok by (apply attempt_ok; exact (bo_payloads Hok)).
  erewrite bind_ok by (by apply attempt_ok). erewrite bind_ok by (by apply attempt_ok). erewrite bind_ok by reflexivity.
  destruct (bo_image Hok) as [Hb Hrebuild]. rewrite Hrebuild.
  destruct (ensure_image_serves docker (bq_image request) (bq_build_context request) dockerfile
    (mkSession (issued s1) false (held s1)) Hserves Hb) as (s2 & H2 & _). erewrite bind_ok by exact H2. unfold create_network.
  destruct (checked_serves docker ["network"; "create"; "--label"; RUN_LABEL +:+ "=" +:+ run_id; network_name run_id]
    s2 Hserves) as (o & _ & _ & Hc). erewrite bind_ok by exact Hc. unfold with_resources, bench_scope.
  erewrite bind_ok by reflexivity.
  match goal with |- context [mbind _ (start_bench_ranks docker ?a _ _) ?x] =>
    destruct (start_bench_serves a (seq 0 n) x) as (s3 & Hstart & Hheld) end.
  erewrite bind_ok by exact Hstart. erewrite bind_ok by reflexivity. rewrite Hheld. cbn [held containers app].
  destruct (collect_bench_serves 0 n [] [] s3 ltac:(lia)) as (s4 & Hcollect & _). erewrite bind_ok by exact Hcollect.
  cbn [fst snd app]. erewrite bind_ok by (by apply attempt_ok).
  erewrite bind_ok by (apply attempt_ok; rewrite Hagg; reflexivity). erewrite bind_ok by (apply attempt_ok, Hwrite).
  destruct (bq_keep_containers request).
  - eexists report, _. by split_and!.
  - destruct (cleanup_ok docker s4) as [s5 H5]. erewrite bind_ok by exact H5. eexists report, _. by split_and!.
Qed.
End Success.
End Whole.

(** C19: A benchmark command measures what its ranks do: for a request the host can
    serve, whose payloads fit the largest frame of the ranks' transports, under every schedule the processes of the ranks end with their
    reports, and when the containers end with code 0 and these reports in their
    logs, the command returns a successful report with the ranks in order, whose
    cases have the statistics of the slowest rank and the bytes of the
    algorithm. *)
Theorem benchmark_command_measures {FO : FloatOps} {EI : ExactIntegers} request new_run_id info engine sizes memory p
  read read_after latency elapsed :
  bench_request_ok request new_run_id info engine sizes memory p read read_after ->
  let n := bq_nproc request in
  let run_id := default new_run_id (bq_run_id request) in
  let manifest := bench_manifest request run_id sizes in
  exists reports,
    always_returns (world_of n (bench_process request new_run_id sizes p read read_after latency elapsed))
      (map (fun i => Ok (reports i)) (seq 0 n)) /\
    forall docker parse_info parse_rank write_manifest write_output path dockerfile s,
      serves docker -> bench_printed request new_run_id docker parse_rank reports ->
      (forall past o, docker past ["info"; "--format"; "{{json .}}"] = Some o -> parse_info (stdout o) = Some info) ->
      write_manifest manifest = Ok path -> (forall report, write_output report = Ok tt) ->
      exists report s',
        run_collective_bench docker parse_info parse_rank write_manifest write_output request new_run_id (Ok tt) dockerfile s =
          (Ok report, s') /\
        bench_exit report = Ok tt /\ aggregated n latency manifest reports report /\
        bench_resources report = Some (benchmark_resources engine p).
Proof.
  intros Hok n run_id manifest.
  destruct (bench_processes_together request new_run_id info engine sizes memory p read read_after latency elapsed Hok)
    as (reports & Ht & Hr).
  exists reports. split; [by apply together_returns|]. intros docker parse_info parse_rank write_manifest
    write_output path dockerfile s Hserves Hprinted Hinfo Hpath Hwrite.
  destruct (bench_succeeds request new_run_id info engine sizes memory p read read_after latency Hok docker parse_info
    parse_rank write_manifest write_output reports path Hserves Hprinted dockerfile s Hinfo Hpath Hwrite Hr) as (report & s' & H1 & H2 & H3).
  exists report, s'. split; [exact H1|]. split; [|by split]. unfold bench_exit. by rewrite (proj1 H2).
Qed.

(** ** Concrete commands *)
From S2P Require Import LaunchExamples.

#[local] Existing Instance binary32.

Definition bench_request (sizes : string) : CollectiveBenchRequest :=
  mkBenchRequest 2 (mkCpuAmount 1000) "512MiB" [CentralizedAllReduce; RingAllReduce] sizes 1 3 "dlir:test" "." false
    (Some "demo") 30000000000 30000000000 false.
Definition bench_docker (past : list command) (c : command) : option Output :=
  Some (mkOutput true
    (if bool_decide (c = ["logs"; duo_name 0]) then line "starting" +:+ line (duo_name 0)
     else if bool_decide (c = ["logs"; duo_name 1]) then line (duo_name 1)
     else if bool_decide (firstn 1 c = ["wait"]) then line "0" else "0123456789ab") "").
Definition bench_parse (reports : nat -> CollectiveBenchmarkRankReport) (text : string)
  : option CollectiveBenchmarkRankReport :=
  if String.eqb text (duo_name 0) then Some (reports 0)
  else if String.eqb text (duo_name 1) then Some (reports 1) else None.

Lemma duo_bench_ok :
  bench_request_ok (bench_request "1KiB,64KiB") "" duo_info duo_engine [1024; 65536]%N (512 * MIB)%N duo_plan
    (fun _ => duo_cgroup) (fun _ => duo_cgroup).
Proof.
  split; [vm_compute; reflexivity|vm_compute; reflexivity|by vm_compute|vm_compute; reflexivity|vm_compute; reflexivity
    |vm_compute; reflexivity|repeat constructor; by vm_compute|by vm_compute|by vm_compute|].
  intros i _. split; by apply enforced_v2.
Qed.

Lemma benchmark_command_measures_witness : exists reports report s',
  always_returns (world_of 2 (bench_process (bench_request "1KiB,64KiB") "" [1024; 65536]%N duo_plan
      (fun _ => duo_cgroup) (fun _ => duo_cgroup) duo_latency (fun _ _ => 0%N)))
    (map (fun i => Ok (reports i)) (seq 0 2)) /\
  run_collective_bench bench_docker (fun _ => Some duo_info) (bench_parse reports) (fun _ => Ok "/tmp/benchmark.json") (fun _ => Ok tt)
    (bench_request "1KiB,64KiB") "" (Ok tt) false (start_session false) = (Ok report, s') /\
  bench_exit report = Ok tt.
Proof.
  destruct (benchmark_command_measures _ _ _ _ _ _ _ _ _ duo_latency (fun _ _ => 0%N) duo_bench_ok) as (reports & H & Hall).
  destruct (Hall bench_docker (fun _ => Some duo_info) (bench_parse reports) (fun _ => Ok "/tmp/benchmark.json") (fun _ => Ok tt)
    "/tmp/benchmark.json" false (start_session false)) as (report & s' & Hrun & Hexit & _).
  - intros past c. eexists. split; [reflexivity|]. reflexivity.
  - intros past i Hi. destruct i as [|[|i]]; [do 3 eexists; split_and!; [reflexivity|vm_compute; reflexivity..]..|].
    cbn in Hi. lia.
  - reflexivity.
  - reflexivity.
  - reflexivity.
  - exists reports, report, s'. split; [exact H|]. split; [exact Hrun|exact Hexit].
Defined.

(** A payload the ring cannot split is refused before any container is started. *)
Example odd_payload :
  run_collective_bench bench_docker (fun _ => Some duo_info) (fun _ => None) (fun _ => Ok "/tmp/benchmark.json") (fun _ => Ok tt)
    (bench_request "1KiB,12B") "" (Ok tt) false (start_session false) =
  (Err (Failed (InvalidPayload 12 "Ring" 2)),
   mkSession [["info"; "--format"; "{{json .}}"]] false (mkResources "" [] false)).
Proof. vm_compute. reflexivity. Qed.

(** A container that does not start, under a daemon that refuses to remove the
    first: they are what may remain. *)
Definition broken_bench : result stop CollectiveBenchmarkReport * session :=
  run_collective_bench broken_docker (fun _ => Some duo_info) (fun _ => None)
    (fun _ => Ok "/tmp/benchmark.json") (fun _ => Ok tt) (bench_request "1KiB") "" (Ok tt) false (start_session false).
Lemma benchmark_leaves_nothing_witness :
  match broken_bench.1 with Err (Failed (DockerFailed _)) => True | _ => False end /\
  skipn 5 (issued broken_bench.2) = [["rm"; "--force"; duo_name 0]; ["network"; "rm"; network_name "demo"]] /\
  leftover broken_docker (issued broken_bench.2) = [Container (duo_name 0); Container (duo_name 1)] /\
  released broken_docker false broken_bench.2.
Proof.
  split; [by vm_compute|]. split; [vm_compute; reflexivity|]. split; [vm_compute; reflexivity|].
  pose proof (benchmark_leaves_nothing broken_docker (fun _ => Some duo_info) (fun _ => None)
    (fun _ => Ok "/tmp/benchmark.json") (fun _ => Ok tt) (bench_request "1KiB") "" (Ok tt) false false) as H.
  change (let '(res, s) := broken_bench in res <> Err Blocked /\ released broken_docker false s) in H.
  destruct broken_bench as [res s]. apply H.
Defined.

(** A payload of 256 MiB passes the checks of the command, and no frame takes it. *)
Example largest_payload :
  parse_bench (bench_request "256MiB") = Ok ([268435456]%N, 512 * MIB)%N /\
  check_payloads (bench_manifest (bench_request "256MiB") "demo" [268435456]%N) = Ok tt /\ ~ transportable 268435456.
Proof. split; [vm_compute; reflexivity|]. split; [vm_compute; reflexivity|]. by vm_compute. Qed.
