(* ===== verification/Collect.v ===== *)
(** * Streams of rank records

    Models [crates/pipeline/src/event.rs] and the collectors of
    [crates/cli/src/pipeline.rs] and [crates/cli/src/tensor.rs]: each rank numbers
    its events and prints them, with its report last; the launcher receives the
    lines of all containers in some interleaving, checks the numbering and gathers
    reports and exit codes.  The schedule of messages is an argument; commands to
    Docker are those of [Docker.v]. *)
From S2P Require Import Prelude Text Rank Registry Memory Protocol Report Launch Docker.

(** ** Events of a rank *)

(** [struct PipelineEvent], [struct ReceivedPipelineEvent]. *)
Record PipelineEvent : Type := mkPipelineEvent
  { pe_schema_version : N; pe_run_id : string; pe_request_id : string; published_event : RunEvent }.
Record ReceivedPipelineEvent : Type := mkReceived { receive_sequence : N; published : PipelineEvent }.

(** [struct EventRecorder] of the pipeline, without its clock; what the sink was
    given is what it recorded. *)
Record RankRecorder : Type := mkRankRecorder
  { recorder_rank : nat; recorder_sequence : N; recorder_run_id : string; recorder_request_id : string;
    recorded : list PipelineEvent }.
Definition rank_recorder_new (rank : nat) (run_id request_id : string) : RankRecorder :=
  mkRankRecorder rank 0 run_id request_id [].
Definition rank_emit (kind : RunEventKind) (self : RankRecorder) : RankRecorder :=
  mkRankRecorder (recorder_rank self) (add64 (recorder_sequence self) 1) (recorder_run_id self)
    (recorder_request_id self)
    (recorded self ++ [mkPipelineEvent 1 (recorder_run_id self) (recorder_request_id self)
                         (mkEvent (recorder_sequence self) (recorder_rank self) kind)]).

(** The sample a rank process appends after its run: it is numbered by the length
    of what was recorded. *)
Definition final_sample (run_id request_id : string) (rank : nat) (current limit : option N)
  (events : list PipelineEvent) : PipelineEvent :=
  mkPipelineEvent 1 run_id request_id (mkEvent (N.of_nat (length events)) rank (MemorySample current limit)).
Definition append_final_memory_sample (run_id request_id : string) (rank : nat) (current limit : option N)
  (events : list PipelineEvent) : list PipelineEvent :=
  events ++ [final_sample run_id request_id rank current limit events].

(** ** Messages to the launcher *)
Section Collector.
(** The report of a rank, and the rank it names. *)
Context {R : Type} (rank_of : R -> nat).

(** [enum PipelineStreamRecord], [enum HostMessage]. *)
Inductive StreamRecord : Type := EventRecord (event : PipelineEvent) | ResultRecord (result : R).
Inductive HostMessage : Type :=
| Record_ (rank : nat) (record : StreamRecord)
| LogLine (rank : nat) (line : string)
| StreamEnded (rank : nat)
| ContainerExit (rank : nat) (code : Z).

(** [follow_container]: a line of a rank's standard output, given what [serde_json]
    makes of it, and all of its lines; and the code of [wait_container]. *)
Definition stream_line (parse : string -> result string StreamRecord) (rank : nat) (line : string) : HostMessage :=
  match parse line with
  | Ok record => Record_ rank record
  | Err error => LogLine rank ("invalid rank JSON: " +:+ error +:+ ": " +:+ line)
  end.
Definition followed (parse : string -> result string StreamRecord) (rank : nat) (lines : list string)
  : list HostMessage :=
  map (stream_line parse rank) lines ++ [StreamEnded rank].
Definition waited_code (output : option Output) : Z :=
  default (-1)%Z (output ← output; value ← from_utf8 (stdout output); parse_i32 (trim value)).

(** What the receiver sees: a message, 100 ms without one, all senders gone, or
    Ctrl-C. *)
Inductive Arrival : Type := Message (m : HostMessage) | Silence | Hangup | CtrlC.

(** [struct Collected], and the variables of the loop. *)
Record Collected : Type := mkCollected
  { collected_ranks : list (option R); collected_events : list ReceivedPipelineEvent;
    collected_exit_codes : list (option Z); failures : list string }.
Record CollectState : Type := mkCollect
  { so_far : Collected; sequences : list N; ended : list bool; exited : list bool; stopped : bool }.

Definition collect_start (world_size : nat) : CollectState :=
  mkCollect (mkCollected (replicate world_size None) [] (replicate world_size None) [])
    (replicate world_size 0%N) (replicate world_size false) (replicate world_size false) false.

Definition add_failure (text : string) (c : Collected) : Collected :=
  mkCollected (collected_ranks c) (collected_events c) (collected_exit_codes c) (failures c ++ [text]).
Definition receive_event (e : PipelineEvent) (c : Collected) : Collected :=
  mkCollected (collected_ranks c)
    (collected_events c ++ [mkReceived (N.of_nat (length (collected_events c))) e])
    (collected_exit_codes c) (failures c).
Definition put_result (rank : nat) (r : R) (c : Collected) : Collected :=
  mkCollected (<[rank := Some r]> (collected_ranks c)) (collected_events c) (collected_exit_codes c) (failures c).
Definition put_exit (rank : nat) (code : Z) (c : Collected) : Collected :=
  mkCollected (collected_ranks c) (collected_events c) (<[rank := Some code]> (collected_exit_codes c)) (failures c).

Definition rank_text (rank : nat) : string := "rank " +:+ pretty (N.of_nat rank).
Fixpoint starts_with (prefix s : string) : bool :=
  match prefix, s with
  | EmptyString, _ => true
  | String a prefix, String b s => Ascii.eqb a b && starts_with prefix s
  | _, _ => false
  end.

Variable docker : list command -> command -> option Output.
Variable names : list string.

(** The [match] of [collect_rank_streams] of the pipeline. *)
Definition on_message (m : HostMessage) (st : CollectState) : docking CollectState :=
  let c := so_far st in
  match m with
  | Record_ rank (EventRecord e) =>
      let expected := default 0%N (sequences st !! rank) in
      let sequence := event_sequence (published_event e) in
      if negb (event_rank (published_event e) =? rank) || negb (sequence =? expected)%N
      then mret (mkCollect (receive_event e (add_failure (rank_text rank +:+ " event sequence "
             +:+ pretty sequence +:+ ", expected " +:+ pretty expected) c))
             (sequences st) (ended st) (exited st) (stopped st))
      else mret (mkCollect (receive_event e c) (<[rank := add64 expected 1]> (sequences st))
             (ended st) (exited st) (stopped st))
  | Record_ rank (ResultRecord result) =>
      let c := if negb (rank_of result =? rank)
               then add_failure (rank_text rank +:+ " stream reported result for "
                      +:+ rank_text (rank_of result)) c
               else put_result rank result c in
      mret (mkCollect c (sequences st) (ended st) (exited st) (stopped st))
  | LogLine rank line =>
      let c := if starts_with "invalid rank JSON" line
               then add_failure (rank_text rank +:+ ": " +:+ line) c else c in
      mret (mkCollect c (sequences st) (ended st) (exited st) (stopped st))
  | StreamEnded rank =>
      mret (mkCollect c (sequences st) (<[rank := true]> (ended st)) (exited st) (stopped st))
  | ContainerExit rank code =>
      let c := put_exit rank code c in
      let exited := <[rank := true]> (exited st) in
      if negb (code =? 0)%Z && negb (stopped st)
      then
        _ ← stop_containers docker names;
        mret (mkCollect (add_failure (rank_text rank +:+ " exited with code " +:+ pretty code) c)
                (sequences st) (ended st) exited true)
      else mret (mkCollect c (sequences st) (ended st) exited (stopped st))
  end.

(** The condition of the [while]. *)
Definition waiting (st : CollectState) : bool := existsb negb (ended st) || existsb negb (exited st).

(** After the loop. *)
Definition missing_reports (c : Collected) : list string :=
  omap (fun p : nat * option R => let '(rank, r) := p in match r with
                          | None => Some (rank_text rank +:+ " emitted no final report")
                          | Some _ => None
                          end) (zip (seq 0 (length (collected_ranks c))) (collected_ranks c)).
Definition collect_finish (st : CollectState) : docking Collected :=
  i ← is_interrupted;
  let c := if i : bool then add_failure "pipeline launch interrupted" (so_far st) else so_far st in
  mret (mkCollected (collected_ranks c) (collected_events c) (collected_exit_codes c)
          (failures c ++ missing_reports c)).

(** The head of an iteration. *)
Definition collect_head (st : CollectState) : docking CollectState :=
  i ← is_interrupted;
  if i && negb (stopped st)
  then _ ← stop_containers docker names;
       mret (mkCollect (so_far st) (sequences st) (ended st) (exited st) true)
  else mret st.

(** The loop, from its [recv_timeout] on. *)
Fixpoint collect_loop (arrivals : list Arrival) (st : CollectState) : docking Collected :=
  match arrivals with
  | [] => fun s => (Err Blocked, s)
  | CtrlC :: arrivals => _ ← set_interrupted true; collect_loop arrivals st
  | Silence :: arrivals => st ← collect_head st; collect_loop arrivals st
  | Hangup :: _ => collect_finish st
  | Message m :: arrivals =>
      st ← on_message m st;
      if waiting st then st ← collect_head st; collect_loop arrivals st else collect_finish st
  end.

(** [collect_rank_streams] of the pipeline. *)
Definition collect_rank_streams (world_size : nat) (arrivals : list Arrival) : docking Collected :=
  let st := collect_start world_size in
  if waiting st then st ← collect_head st; collect_loop arrivals st else collect_finish st.

(** ** The tensor command's collector *)

(** The variables of its loop: the counters of ended streams and exits. *)
Record TensorCollect : Type := mkTensorCollect
  { t_so_far : Collected; expected_sequence : list N; t_ended : nat; t_exited : nat }.

Definition tensor_message (m : HostMessage) (st : TensorCollect) : docking TensorCollect :=
  let c := t_so_far st in
  match m with
  | Record_ rank (EventRecord e) =>
      let expected := default 0%N (expected_sequence st !! rank) in
      let sequence := event_sequence (published_event e) in
      let c := if negb (event_rank (published_event e) =? rank) || negb (sequence =? expected)%N
               then add_failure (rank_text rank +:+ " event sequence mismatch: expected "
                      +:+ pretty expected +:+ ", got " +:+ pretty sequence) c
               else c in
      mret (mkTensorCollect (receive_event e c)
              (<[rank := N.min (sequence + 1) U64_MAX]> (expected_sequence st)) (t_ended st) (t_exited st))
  | Record_ rank (ResultRecord result) =>
      mret (mkTensorCollect (put_result rank result c) (expected_sequence st) (t_ended st) (t_exited st))
  | LogLine _ _ => mret st
  | StreamEnded rank =>
      let c := match collected_ranks c !! rank with
               | Some (Some _) => c
               | _ => add_failure (rank_text rank +:+ " stream ended without a result") c
               end in
      mret (mkTensorCollect c (expected_sequence st) (S (t_ended st)) (t_exited st))
  | ContainerExit rank code =>
      let c := put_exit rank code c in
      if negb (code =? 0)%Z
      then
        _ ← stop_containers docker names;
        mret (mkTensorCollect (add_failure (rank_text rank +:+ " exited with status " +:+ pretty code) c)
                (expected_sequence st) (t_ended st) (S (t_exited st)))
      else mret (mkTensorCollect c (expected_sequence st) (t_ended st) (S (t_exited st)))
  end.

(** [for message in receiver]: the loop blocks until a message comes, so the
    100 ms of the other collector do not exist here. *)
Fixpoint tensor_loop (world_size : nat) (arrivals : list Arrival) (st : TensorCollect) : docking Collected :=
  match arrivals with
  | [] => fun s => (Err Blocked, s)
  | CtrlC :: arrivals => _ ← set_interrupted true; tensor_loop world_size arrivals st
  | Silence :: arrivals => tensor_loop world_size arrivals st
  | Hangup :: _ => mret (t_so_far st)
  | Message m :: arrivals =>
      st ← tensor_message m st;
      if (t_ended st =? world_size) && (t_exited st =? world_size) then mret (t_so_far st)
      else tensor_loop world_size arrivals st
  end.

(** [collect_rank_streams] of the tensor command. *)
Definition collect_tensor_streams (world_size : nat) (arrivals : list Arrival) : docking Collected :=
  tensor_loop world_size arrivals
    (mkTensorCollect (so_far (collect_start world_size)) (replicate world_size 0%N) 0 0).
End Collector.
