(* ===== verification/CollectProofs.v ===== *)
(** * What the collectors establish

    The collectors of [Collect.v] are correct and complete: orderly streams in any
    interleaving are gathered without a complaint, and a collection without a
    complaint has seen orderly streams.  The collector owns nothing and returns once
    every container has ended; the two collectors differ on Ctrl-C. *)
From S2P Require Import Prelude Text Rank Registry Memory Protocol Report Launch Docker Collect.

(** ** Orderly streams *)

Definition message_rank {R} (m : @HostMessage R) : nat :=
  match m with Record_ r _ | LogLine r _ | StreamEnded r | ContainerExit r _ => r end.
Definition stream_message {R} (i : nat) (m : @HostMessage R) : bool :=
  match m with Record_ r _ | StreamEnded r => r =? i | _ => false end.
Definition exit_message {R} (i : nat) (m : @HostMessage R) : bool :=
  match m with ContainerExit r _ => r =? i | _ => false end.

(** Events numbered from zero by one rank. *)
Definition numbered (i : nat) (es : list PipelineEvent) : Prop :=
  (N.of_nat (length es) < U64)%N /\
  forall k e, es !! k = Some e ->
    event_sequence (published_event e) = N.of_nat k /\ event_rank (published_event e) = i.

Lemma numbered_snoc i es e :
  (N.of_nat (S (length es)) < U64)%N -> numbered i es ->
  event_sequence (published_event e) = N.of_nat (length es) -> event_rank (published_event e) = i ->
  numbered i (es ++ [e]).
Proof.
  intros Hb Hn Hs Hr. split; [rewrite length_app; cbn; lia|]. intros k e' Hk.
  apply lookup_app_Some in Hk as [Hk|[Hk He]]; [by apply Hn|].
  apply list_lookup_singleton_Some in He as [Hz <-]. rewrite Hs. split; [lia|done].
Qed.

(** The sample after the run keeps the numbering. *)
Lemma final_sample_numbered run_id request_id i current limit es :
  (N.of_nat (S (length es)) < U64)%N -> numbered i es ->
  numbered i (append_final_memory_sample run_id request_id i current limit es).
Proof. intros. by apply numbered_snoc. Qed.

(** A recorder numbers what it emits. *)
Lemma rank_emit_numbered kinds rank run_id request_id :
  (N.of_nat (length kinds) < U64)%N ->
  numbered rank (recorded (fold_left (fun r k => rank_emit k r) kinds (rank_recorder_new rank run_id request_id))).
Proof.
  intros Hb.
  assert (forall kinds r, recorder_sequence r = N.of_nat (length (recorded r)) ->
    (N.of_nat (length (recorded r) + length kinds) < U64)%N -> numbered (recorder_rank r) (recorded r) ->
    numbered (recorder_rank r) (recorded (fold_left (fun r k => rank_emit k r) kinds r))) as H.
  { clear. induction kinds as [|kind kinds IH]; intros r Hs Hl Hn; [done|]. cbn [fold_left length] in *.
    apply (IH (rank_emit kind r)); cbn [rank_emit recorder_sequence recorder_rank recorded].
    - rewrite add64_small, Hs, length_app by lia. cbn. lia.
    - rewrite length_app. cbn. lia.
    - apply numbered_snoc; cbn [published_event event_sequence event_rank]; [lia|done..]. }
  apply (H kinds (rank_recorder_new rank run_id request_id)); [done|done|]. by split.
Qed.

(** The messages of a schedule. *)
Definition messages {R} (arrivals : list (@Arrival R)) : list HostMessage :=
  omap (fun a => match a with Message m => Some m | _ => None end) arrivals.
Definition undisturbed {R} (a : @Arrival R) : Prop := match a with Message _ | Silence => True | _ => False end.

(** The events a collection has of one rank. *)
Definition received_from (i : nat) (evs : list ReceivedPipelineEvent) : list PipelineEvent :=
  filter (fun e => event_rank (published_event e) = i) (map published evs).

Lemma insert_map_seq {A} n i (x : A) f :
  i < n -> <[i := x]> (map f (seq 0 n)) = map (fun j => if decide (j = i) then x else f j) (seq 0 n).
Proof.
  intros Hi. apply list_eq. intros j. destruct (decide (j = i)) as [->|Hj].
  - rewrite list_lookup_insert_eq by (by rewrite length_map, length_seq).
    rewrite list_lookup_fmap, lookup_seq_lt by done. cbn. by rewrite decide_True.
  - rewrite list_lookup_insert_ne by done. rewrite !list_lookup_fmap.
    destruct (decide (j < n)).
    + rewrite lookup_seq_lt by done. cbn. by rewrite decide_False.
    + by rewrite lookup_seq_ge by lia.
Qed.
Lemma lookup_map_seq {A} n i (f : nat -> A) : i < n -> map f (seq 0 n) !! i = Some (f i).
Proof. intros Hi. by rewrite list_lookup_fmap, lookup_seq_lt. Qed.

(** A filtered list, counted by the value of [f]. *)
Lemma length_filter_by {A} (p : A -> bool) (f : A -> nat) n l :
  (forall x, x ∈ l -> p x = true -> f x < n) ->
  length (filter p l) = list_sum (map (fun i => length (filter (fun x => p x && (f x =? i)) l)) (seq 0 n)).
Proof.
  assert (forall j n, j < n -> forall g : nat -> nat,
    list_sum (map (fun i => (if j =? i then 1 else 0) + g i) (seq 0 n)) = S (list_sum (map g (seq 0 n)))) as Hone.
  { clear. intros j n Hj g. induction n as [|n IH]; [lia|]. rewrite seq_S, !map_app, !list_sum_app. cbn [map list_sum Nat.add fold_right].
    destruct (Nat.eqb_spec j n) as [->|Hne]; [|rewrite IH by lia; lia].
    assert (map (fun i => (if n =? i then 1 else 0) + g i) (seq 0 n) = map g (seq 0 n)) as ->; [|cbn; lia].
    apply map_ext_in. intros i Hi%in_seq. destruct (Nat.eqb_spec n i); [lia|done]. }
  induction l as [|x l IH]; intros Hl.
  - cbn. clear. generalize (seq 0 n). intros s. induction s as [|i s IH]; [done|exact IH].
  - assert (forall q : A -> bool, length (filter q (x :: l)) = (if q x then 1 else 0) + length (filter q l)) as Hc.
    { intros q. destruct (q x) eqn:E; [by rewrite filter_cons_True by (by rewrite E)|].
      by rewrite filter_cons_False by (rewrite E; by intros []). }
    rewrite Hc, IH by (intros y Hy; apply Hl; by right). rewrite (map_ext _ _ (fun i => Hc (fun x => p x && (f x =? i)))).
    destruct (p x) eqn:E; [|done]. cbn [andb]. by rewrite (Hone (f x)) by (apply Hl; [left|done]).
Qed.

(** Ends and exits in a list of messages. *)
Definition is_end {R} (m : @HostMessage R) : bool := match m with StreamEnded _ => true | _ => false end.
Definition is_exit {R} (m : @HostMessage R) : bool := match m with ContainerExit _ _ => true | _ => false end.
Definition count {R} (p : @HostMessage R -> bool) (ms : list HostMessage) : nat := length (filter p ms).

Lemma count_cons {R} p (m : @HostMessage R) ms : count p (m :: ms) = (if p m then 1 else 0) + count p ms.
Proof.
  unfold count. destruct (p m) eqn:E; [by rewrite filter_cons_True by (by rewrite E)|].
  by rewrite filter_cons_False by (rewrite E; by intros []).
Qed.

Section Orderly.
Context {R : Type} (rank_of : R -> nat) (docker : list command -> command -> option Output)
  (names : list string) (n : nat) (report : nat -> R) (events_of : nat -> list PipelineEvent).
Hypothesis Hreport : forall i, i < n -> rank_of (report i) = i.
Hypothesis Hnumbered : forall i, i < n -> numbered i (events_of i).

(** What a rank's stream holds: its events, its report, its end. *)
Definition stream (i : nat) : list (@HostMessage R) :=
  map (fun e => Record_ i (EventRecord e)) (events_of i) ++ [Record_ i (ResultRecord (report i)); StreamEnded i].

(** A rank that prints its events and then its report, in JSON that reads back. *)
Lemma followed_stream parse (print : @StreamRecord R -> string) i :
  (forall record, parse (print record) = Ok record) ->
  followed parse i (map print (map EventRecord (events_of i) ++ [ResultRecord (report i)])) = stream i.
Proof.
  intros H. unfold followed, stream. rewrite map_map, map_app, map_map, <- app_assoc. cbn [map app].
  unfold stream_line. rewrite H. f_equal. apply map_ext. intros e. by rewrite H.
Qed.

(** An interleaving of such streams, of one exit with code 0 for each container
    and of log lines. *)
Record orderly (ms : list (@HostMessage R)) : Prop :=
  mkOrderly
  { o_ranks : forall m, m ∈ ms -> message_rank m < n;
    o_streams : forall i, i < n -> filter (stream_message i) ms = stream i;
    o_exits : forall i, i < n -> filter (exit_message i) ms = [ContainerExit i 0];
    o_logs : forall r line, LogLine r line ∈ ms -> starts_with "invalid rank JSON" line = false }.

(** The state when [k i] messages of stream [i] have come, and the exits [b]. *)
Definition progress (k : nat -> nat) (b : nat -> bool) (evs : list ReceivedPipelineEvent) : CollectState :=
  let each {A} (f : nat -> A) := map f (seq 0 n) in
  mkCollect
    (mkCollected (each (fun i => if length (events_of i) <? k i then Some (report i) else None)) evs
       (each (fun i => if b i then Some 0%Z else None)) [])
    (each (fun i => N.of_nat (Nat.min (k i) (length (events_of i)))))
    (each (fun i => k i =? length (events_of i) + 2)) (each b) false.

Definition bump (r : nat) (k : nat -> nat) (i : nat) : nat := if decide (i = r) then S (k r) else k i.

Lemma stream_length i : length (stream i) = length (events_of i) + 2.
Proof. unfold stream. by rewrite length_app, length_map. Qed.

Lemma stream_lookup i j m : stream i !! j = Some m ->
  (exists e, m = Record_ i (EventRecord e) /\ events_of i !! j = Some e) \/
  (m = Record_ i (ResultRecord (report i)) /\ j = length (events_of i)) \/
  (m = StreamEnded i /\ j = length (events_of i) + 1).
Proof.
  unfold stream. intros [Hm|[Hl Hm]]%lookup_app_Some.
  - apply list_lookup_fmap_Some in Hm as (e & -> & He). left. by exists e.
  - rewrite length_map in Hl, Hm. right.
    destruct (j - length (events_of i)) as [|[|d]] eqn:E; cbn in Hm; [left|right|done];
      injection Hm as <-; split; done || lia.
Qed.

(** Equal states, rank by rank. *)
Ltac each_rank :=
  rewrite ?insert_map_seq by done; apply map_ext_in; intros ? ?%in_seq; unfold bump;
  repeat (case_decide; subst); try done;
  repeat match goal with
  | |- context [?a <? ?b] => destruct (Nat.ltb_spec a b)
  | |- context [?a =? ?b] => destruct (Nat.eqb_spec a b)
  end; try done; try lia.

Lemma progress_eq k (b : nat -> bool) evs ranks exits seqs en ex s :
  ranks = map (fun i => if length (events_of i) <? k i then Some (report i) else None) (seq 0 n) ->
  exits = map (fun i => if b i then Some 0%Z else None) (seq 0 n) ->
  seqs = map (fun i => N.of_nat (Nat.min (k i) (length (events_of i)))) (seq 0 n) ->
  en = map (fun i => k i =? length (events_of i) + 2) (seq 0 n) -> ex = map b (seq 0 n) ->
  (mret (mkCollect (mkCollected ranks evs exits []) seqs en ex false) : docking CollectState) s
  = (Ok (progress k b evs), s).
Proof. by intros -> -> -> -> ->. Qed.

Lemma stream_step r m k b evs s :
  r < n -> stream r !! k r = Some m -> (forall i, i < n -> received_from i evs = firstn (k i) (events_of i)) ->
  exists evs', on_message rank_of docker names m (progress k b evs) s = (Ok (progress (bump r k) b evs'), s) /\
    forall i, i < n -> received_from i evs' = firstn (bump r k i) (events_of i).
Proof.
  intros Hr Hm Hevs. destruct (Hnumbered r Hr) as [Hsmall Hnum].
  apply stream_lookup in Hm as [(e & -> & He)|[[-> Hk]|[-> Hk]]]; cbn [on_message].
  - destruct (Hnum _ _ He) as [Hs Hrank]. pose proof (lookup_lt_Some _ _ _ He) as Hlt.
    cbn [progress sequences so_far]. rewrite lookup_map_seq by done. cbn [from_option]. unfold Datatypes.id.
    rewrite Hs, Hrank, Nat.eqb_refl, Nat.min_l, N.eqb_refl by lia. cbn [negb orb].
    eexists. split; [apply progress_eq; cbn [collected_ranks collected_exit_codes]; each_rank|].
    + rewrite add64_small by lia. lia.
    + intros i Hi. unfold received_from, bump. cbn [collected_events]. rewrite map_app, list.filter_app. cbn [map published].
      specialize (Hevs i Hi). unfold received_from in Hevs. rewrite Hevs. case_decide as Hir; [subst i|].
      * rewrite filter_cons_True by done. cbn [filter list_filter]. symmetry. by apply take_S_r.
      * rewrite filter_cons_False by congruence. by rewrite app_nil_r.
  - rewrite (Hreport r Hr), Nat.eqb_refl. cbn [negb].
    exists evs. split; [apply progress_eq; cbn [put_result progress so_far collected_ranks collected_exit_codes]; each_rank|].
    intros i Hi. rewrite Hevs by done. unfold bump. case_decide; [subst i|done]. rewrite !firstn_all2; done || lia.
  - exists evs. split; [apply progress_eq; cbn [ended progress]; each_rank|].
    intros i Hi. rewrite Hevs by done. unfold bump. case_decide; [subst i|done]. rewrite !firstn_all2; done || lia.
Qed.

Lemma exit_step r k b evs s : r < n ->
  on_message rank_of docker names (ContainerExit r 0) (progress k b evs) s
  = (Ok (progress k (fun i => if decide (i = r) then true else b i) evs), s).
Proof.
  intros Hr. cbn [on_message Z.eqb negb andb].
  apply progress_eq; cbn [put_exit progress so_far collected_ranks collected_exit_codes exited]; each_rank.
Qed.

Lemma waiting_progress k b evs :
  waiting (progress k b evs) = false <->
  forall i, i < n -> k i = length (events_of i) + 2 /\ b i = true.
Proof.
  unfold waiting. cbn [progress ended exited]. rewrite orb_false_iff. split.
  - intros [He Hx] i Hi.
    assert (forall f, existsb negb (map f (seq 0 n)) = false -> f i = true) as H.
    { intros f Hf. apply not_true_iff_false in Hf. destruct (f i) eqn:E; [done|]. destruct Hf.
      apply existsb_exists. exists false. split; [|done]. apply in_map_iff. exists i. split; [done|]. apply in_seq. lia. }
    split; [|by apply H]. by apply H, Nat.eqb_eq in He.
  - intros H. assert (forall f, (forall i, i < n -> f i = true) -> existsb negb (map f (seq 0 n)) = false) as Hf.
    { intros f Hf. apply not_true_iff_false. intros (x & (i & <- & Hi%in_seq)%in_map_iff & Hx)%existsb_exists.
      by rewrite Hf in Hx by lia. }
    split; apply Hf; intros i Hi; destruct (H i Hi); [by apply Nat.eqb_eq|done].
Qed.

(** What is gathered when everything has come. *)
Definition gathered (evs : list ReceivedPipelineEvent) : Collected :=
  mkCollected (map (fun i => Some (report i)) (seq 0 n)) evs (replicate n (Some 0%Z)) [].

Lemma finish_progress k b evs s : interrupted s = false ->
  (forall i, i < n -> k i = length (events_of i) + 2 /\ b i = true) ->
  collect_finish (progress k b evs) s = (Ok (gathered evs), s).
Proof.
  intros Hs Hall. unfold collect_finish, is_interrupted, mbind, docking_bind. rewrite Hs.
  cbn [progress so_far collected_ranks collected_events collected_exit_codes failures app].
  assert (map (fun i => if length (events_of i) <? k i then Some (report i) else None) (seq 0 n)
    = map (fun i => Some (report i)) (seq 0 n)) as ->.
  { apply map_ext_in. intros i Hi%in_seq. destruct (Hall i) as [-> _]; [lia|].
    destruct (Nat.ltb_spec (length (events_of i)) (length (events_of i) + 2)); [done|lia]. }
  assert (map (fun i => if b i then Some 0%Z else None) (seq 0 n) = replicate n (Some 0%Z)) as ->.
  { rewrite <- (length_seq n 0) at 2. assert (forall l, (forall i, i ∈ l -> b i = true) ->
      map (fun i => if b i then Some 0%Z else None) l = replicate (length l) (Some 0%Z)) as H.
    { induction l as [|i l IH]; intros Hl; [done|]. cbn. rewrite (Hl i) by left. f_equal. apply IH.
      intros j Hj. apply Hl. by right. }
    apply H. intros i Hi%elem_of_seq. apply Hall. lia. }
  assert (missing_reports (gathered evs) = []) as Hmiss; [|unfold gathered in *; by rewrite Hmiss].
  unfold missing_reports, gathered. cbn [collected_ranks]. rewrite length_map, length_seq.
  generalize (seq 0 n). intros l. induction l as [|i l IH]; [done|]. exact IH.
Qed.

(** What is still to come. *)
Record remaining (ms : list (@HostMessage R)) (k : nat -> nat) (b : nat -> bool)
  (evs : list ReceivedPipelineEvent) : Prop :=
  mkRemaining
  { r_ranks : forall m, m ∈ ms -> message_rank m < n;
    r_streams : forall i, i < n -> k i <= length (stream i) /\
      filter (stream_message i) ms = skipn (k i) (stream i);
    r_exits : forall i, i < n -> filter (exit_message i) ms = if b i then [] else [ContainerExit i 0];
    r_logs : forall r line, LogLine r line ∈ ms -> starts_with "invalid rank JSON" line = false;
    r_events : forall i, i < n -> received_from i evs = firstn (k i) (events_of i) }.

Lemma message_step m ms k b evs s : remaining (m :: ms) k b evs ->
  exists k' b' evs', on_message rank_of docker names m (progress k b evs) s = (Ok (progress k' b' evs'), s) /\
    remaining ms k' b' evs'.
Proof.
  intros [Hr Hs Hx Hl He]. pose proof (Hr m ltac:(left)) as Hrank.
  assert (forall i, i < n -> filter (stream_message i) (m :: ms) = if stream_message i m then m :: filter (stream_message i) ms else filter (stream_message i) ms) as Hfs.
  { intros i _. destruct (stream_message i m) eqn:E; [by rewrite filter_cons_True by (by rewrite E)|].
    by rewrite filter_cons_False by (rewrite E; by intros []). }
  assert (forall i, i < n -> filter (exit_message i) (m :: ms) = if exit_message i m then m :: filter (exit_message i) ms else filter (exit_message i) ms) as Hfx.
  { intros i _. destruct (exit_message i m) eqn:E; [by rewrite filter_cons_True by (by rewrite E)|].
    by rewrite filter_cons_False by (rewrite E; by intros []). }
  assert (forall m', m' ∈ ms -> message_rank m' < n) as Hr' by (intros m' Hm'; apply Hr; by right).
  assert (forall r line, LogLine r line ∈ ms -> starts_with "invalid rank JSON" line = false) as Hl'
    by (intros r line Hm'; apply (Hl r); by right).
  assert ((exists r, stream_message r m = true /\ message_rank m = r /\ forall i, exit_message i m = false) \/
    (exists r line, m = LogLine r line) \/ (exists r c, m = ContainerExit r c)) as [(r & Hm & <- & Hno)|[(r & line & ->)|(r & c & ->)]].
  { destruct m as [r rec|r line|r|r c]; [left; exists r|right; left; by eexists _, _|left; exists r|right; right; by eexists _, _];
      cbn; rewrite Nat.eqb_refl; done. }
  - destruct (Hs _ Hrank) as [Hk Hf]. rewrite Hfs, Hm in Hf by done.
    assert (stream (message_rank m) !! k (message_rank m) = Some m) as Hlook.
    { rewrite <- (Nat.add_0_r (k _)), <- lookup_drop, <- Hf. done. }
    destruct (stream_step _ m k b evs s Hrank Hlook He) as (evs' & Hstep & Hevs').
    exists (bump (message_rank m) k), b, evs'. split; [exact Hstep|]. split; try done.
    + intros i Hi. unfold bump. case_decide as Hir.
      * subst i. split; [by apply lookup_lt_Some in Hlook|].
        rewrite (drop_S _ m) in Hf by exact Hlook. by injection Hf as Hf.
      * destruct (Hs i Hi) as [Hki Hfi]. split; [done|]. rewrite <- Hfi, Hfs by done.
        destruct (stream_message i m) eqn:E; [|done]. exfalso. apply Hir. destruct m; cbn in *; try done; by apply Nat.eqb_eq in E.
    + intros i Hi. by rewrite <- Hx, Hfx, Hno by done.
  - exists k, b, evs. split.
    + cbn [on_message]. by rewrite (Hl r line) by left.
    + by split.
  - pose proof (Hx _ Hrank) as Hex. rewrite Hfx in Hex by done. cbn [exit_message message_rank] in *. rewrite Nat.eqb_refl in Hex.
    destruct (b r) eqn:Eb; [done|]. injection Hex as -> Hrest.
    exists k, (fun i => if decide (i = r) then true else b i), evs. split; [by apply exit_step|]. split; try done.
    intros i Hi. cbv beta. case_decide as Hir; [by subst|]. rewrite <- Hx, Hfx by done. cbn.
      by destruct (Nat.eqb_spec r i).
Qed.

Lemma remaining_done k b evs : remaining [] k b evs ->
  forall i, i < n -> k i = length (events_of i) + 2 /\ b i = true.
Proof.
  intros [_ Hs Hx _ _] i Hi. destruct (Hs i Hi) as [Hk Hf]. symmetry in Hf. apply skipn_all_iff in Hf.
  rewrite stream_length in *. split; [lia|]. specialize (Hx i Hi). by destruct (b i).
Qed.

Lemma finish_remaining ms k b evs s : remaining ms k b evs -> interrupted s = false ->
  (forall i, i < n -> k i = length (events_of i) + 2 /\ b i = true) ->
  collect_finish (progress k b evs) s = (Ok (gathered evs), s) /\
  forall i, i < n -> received_from i evs = events_of i.
Proof.
  intros H Hs Hall. split; [by apply finish_progress|]. intros i Hi. rewrite (r_events _ _ _ _ H) by done.
  destruct (Hall i Hi) as [-> _]. apply firstn_all2. lia.
Qed.

Lemma collect_head_calm (st : @CollectState R) s : interrupted s = false -> collect_head docker names st s = (Ok st, s).
Proof. intros Hs. unfold collect_head, is_interrupted, mbind, docking_bind. by rewrite Hs. Qed.

Lemma collect_loop_orderly arrivals k b evs s : interrupted s = false ->
  Forall undisturbed arrivals -> remaining (messages arrivals) k b evs -> waiting (progress k b evs) = true ->
  exists evs', collect_loop rank_of docker names arrivals (progress k b evs) s = (Ok (gathered evs'), s) /\
    forall i, i < n -> received_from i evs' = events_of i.
Proof.
  intros Hs. revert k b evs. induction arrivals as [|a arrivals IH]; intros k b evs Hu Hr Hw.
  - pose proof (remaining_done _ _ _ Hr) as Hd. apply waiting_progress with (evs := evs) in Hd. by rewrite Hd in Hw.
  - apply List.Forall_cons_iff in Hu as [Ha Hu]. destruct a as [m| | |]; try done; cbn [collect_loop].
    + destruct (message_step m (messages arrivals) k b evs s Hr) as (k' & b' & evs' & Hstep & Hr').
      erewrite bind_ok by exact Hstep. destruct (waiting (progress k' b' evs')) eqn:Hw'.
      * erewrite bind_ok by (by apply collect_head_calm). by apply IH.
      * exists evs'. eapply finish_remaining; [exact Hr'|done|]. exact (proj1 (waiting_progress _ _ _) Hw').
    + erewrite bind_ok by (by apply collect_head_calm). by apply IH.
Qed.

Lemma start_remaining ms : orderly ms -> remaining ms (fun _ => 0) (fun _ => false) [].
Proof.
  intros [Ho1 Ho2 Ho3 Ho4]. apply mkRemaining; [done| |done..]. intros i Hi. split; [lia|by apply Ho2].
Qed.
Lemma start_progress : collect_start n = progress (fun _ => 0) (fun _ => false) [].
Proof.
  assert (forall A (x : A), replicate n x = map (fun _ => x) (seq 0 n)) as Hrep.
  { intros A x. rewrite <- (length_seq n 0) at 1. generalize (seq 0 n). intros l. induction l; cbn; congruence. }
  unfold collect_start, progress. rewrite !Hrep. f_equal.
  apply map_ext. intros i. destruct (Nat.eqb_spec 0 (length (events_of i) + 2)); [lia|done].
Qed.

Lemma collect_orderly arrivals s : interrupted s = false ->
  Forall undisturbed arrivals -> orderly (messages arrivals) ->
  exists evs, collect_rank_streams rank_of docker names n arrivals s = (Ok (gathered evs), s) /\
    forall i, i < n -> received_from i evs = events_of i.
Proof.
  intros Hs Hu Ho. pose proof (start_remaining _ Ho) as Hr.
  unfold collect_rank_streams. rewrite start_progress. destruct (waiting _) eqn:Hw.
  - erewrite bind_ok by (by apply collect_head_calm). by apply collect_loop_orderly.
  - exists []. eapply finish_remaining; [exact Hr|done|]. exact (proj1 (waiting_progress _ _ _) Hw).
Qed.

(** Orderly streams are collected.  Whatever the order in which the lines,
    the ends and the exits of the containers reach the launcher, when each
    container's stream is its numbered events, then its report, then its end, and
    every exit code is 0, the collector returns the reports of the ranks in rank
    order, code 0 for each, each rank's events in order, and no failure; it sends
    Docker no command. *)
Theorem streams_collected arrivals s : interrupted s = false ->
  Forall undisturbed arrivals -> orderly (messages arrivals) ->
  exists c, collect_rank_streams rank_of docker names n arrivals s = (Ok c, s) /\
    collected_ranks c = map (fun i => Some (report i)) (seq 0 n) /\
    collected_exit_codes c = replicate n (Some 0%Z) /\ failures c = [] /\
    forall i, i < n -> received_from i (collected_events c) = events_of i.
Proof.
  intros Hs Hu Ho. destruct (collect_orderly arrivals s Hs Hu Ho) as (evs & H & He).
  by exists (gathered evs).
Qed.
(** ** The same streams in the tensor command's collector *)

Definition in_tensor (st : @CollectState R) (e x : nat) : @TensorCollect R :=
  mkTensorCollect (so_far st) (sequences st) e x.

Lemma ok_inj {A} (a b : A) (s s' : session) : (Ok a, s) = (Ok b : result stop A, s') -> a = b.
Proof. by intros [= -> _]. Qed.

Lemma tensor_message_step m ms k b evs s e x : remaining (m :: ms) k b evs ->
  exists k' b' evs', tensor_message docker names m (in_tensor (progress k b evs) e x) s
    = (Ok (in_tensor (progress k' b' evs') ((if is_end m then 1 else 0) + e) ((if is_exit m then 1 else 0) + x)), s) /\
    remaining ms k' b' evs'.
Proof.
  intros Hrem. destruct (message_step m ms k b evs s Hrem) as (k' & b' & evs' & E & Hrem').
  exists k', b', evs'. split; [|exact Hrem']. destruct Hrem as [Hr Hs Hx Hl He].
  pose proof (Hr m ltac:(left)) as Hrank.
  assert (stream_message (message_rank m) m = true -> stream (message_rank m) !! k (message_rank m) = Some m) as Hat.
  { intros Hm. destruct (Hs _ Hrank) as [_ Hf]. rewrite filter_cons_True in Hf by (by rewrite Hm).
    by rewrite <- (Nat.add_0_r (k _)), <- lookup_drop, <- Hf. }
  destruct m as [r [v|v]|r line|r|r c]; cbn [message_rank stream_message] in *;
    rewrite ?Nat.eqb_refl in Hat; 
    try (specialize (Hat eq_refl); apply stream_lookup in Hat as [(v' & [= ->] & Hv)|[[[=] Hk]|[[=] Hk]]]).
  - destruct (Hnumbered r Hrank) as [Hsmall Hnum]. destruct (Hnum _ _ Hv) as [Hseq Hrk].
    pose proof (lookup_lt_Some _ _ _ Hv). cbn [on_message tensor_message in_tensor expected_sequence t_so_far] in *.
    cbn [progress sequences so_far] in *. rewrite lookup_map_seq in * by done. cbn [from_option] in *. unfold Datatypes.id in *.
    rewrite Hseq, Hrk, Nat.eqb_refl, Nat.min_l, N.eqb_refl in * by lia. cbn [negb orb] in *.
    apply ok_inj in E. unfold in_tensor. rewrite <- E. cbn [so_far sequences is_end is_exit Nat.add].
    rewrite add64_small by lia. rewrite N.min_l; [done|]. unfold U64_MAX, U64 in *. lia.
  - subst v. cbn [on_message tensor_message in_tensor t_so_far] in *. rewrite Hreport, Nat.eqb_refl in E by done.
    apply ok_inj in E. unfold in_tensor. by rewrite <- E.
  - cbn [on_message tensor_message] in *. rewrite (Hl r line) in E by left. apply ok_inj in E.
    unfold in_tensor. by rewrite <- E.
  - cbn [on_message tensor_message in_tensor t_so_far] in *. apply ok_inj in E. unfold in_tensor. rewrite <- E.
    cbn [so_far sequences progress collected_ranks]. rewrite lookup_map_seq by done.
    destruct (Nat.ltb_spec (length (events_of r)) (k r)); [done|lia].
  - specialize (Hx _ Hrank). rewrite filter_cons_True in Hx by (by cbn; rewrite Nat.eqb_refl).
    assert (c = 0%Z) as -> by (by destruct (b r); [|injection Hx]).
    cbn [on_message tensor_message in_tensor t_so_far Z.eqb negb andb] in *. apply ok_inj in E.
    unfold in_tensor. by rewrite <- E.
Qed.
(** The counters say how much is still to come. *)
Lemma ends_to_come ms k b evs : remaining ms k b evs ->
  (count is_end ms = 0 /\ count is_exit ms = 0 <->
   forall i, i < n -> k i = length (events_of i) + 2 /\ b i = true).
Proof.
  intros [Hr Hs Hx Hl He]. split.
  - intros [H1 H2] i Hi. apply nil_length_inv in H1, H2. destruct (Hs i Hi) as [Hk Hf]. split.
    + rewrite stream_length in Hk. destruct (decide (k i = length (events_of i) + 2)) as [|Hne]; [done|exfalso].
      assert (StreamEnded i ∈ filter (stream_message i) ms) as Hin.
      { rewrite Hf. apply list_elem_of_lookup. exists (length (events_of i) + 1 - k i). rewrite lookup_drop.
        replace (k i + (length (events_of i) + 1 - k i)) with (length (events_of i) + 1) by lia.
        unfold stream. rewrite lookup_app_r by (rewrite length_map; lia). rewrite length_map.
        by replace (length (events_of i) + 1 - length (events_of i)) with 1 by lia. }
      apply list_elem_of_filter in Hin as [_ Hin]. assert (StreamEnded i ∈ filter is_end ms) as Hin'
        by (by apply list_elem_of_filter). rewrite H1 in Hin'. by apply elem_of_nil in Hin'.
    + destruct (b i) eqn:Eb; [done|exfalso]. specialize (Hx i Hi). rewrite Eb in Hx.
      assert (ContainerExit i 0 ∈ filter (exit_message i) ms) as Hin by (rewrite Hx; left).
      apply list_elem_of_filter in Hin as [_ Hin]. assert (ContainerExit i 0 ∈ filter is_exit ms) as Hin'
        by (by apply list_elem_of_filter). rewrite H2 in Hin'. by apply elem_of_nil in Hin'.
  - intros Hall. unfold count. split; apply length_zero_iff_nil, filter_nothing; intros m Hm Hp;
      pose proof (Hr m Hm) as Hi; destruct (Hall _ Hi) as [Hk Hb].
    + destruct (Hs _ Hi) as [_ Hf]. rewrite Hk, drop_ge in Hf by (by rewrite stream_length).
      destruct m as [| |r|]; try done. cbn [message_rank] in *.
      assert (StreamEnded r ∈ filter (stream_message r) ms) as Hin
        by (apply list_elem_of_filter; split; [cbn; by rewrite Nat.eqb_refl|done]).
      rewrite Hf in Hin. by apply elem_of_nil in Hin.
    + specialize (Hx _ Hi). rewrite Hb in Hx. destruct m as [| | |r c]; try done. cbn [message_rank] in *.
      assert (ContainerExit r c ∈ filter (exit_message r) ms) as Hin
        by (apply list_elem_of_filter; split; [cbn; by rewrite Nat.eqb_refl|done]).
      rewrite Hx in Hin. by apply elem_of_nil in Hin.
Qed.

Lemma progress_gathered k b evs : (forall i, i < n -> k i = length (events_of i) + 2 /\ b i = true) ->
  so_far (progress k b evs) = gathered evs.
Proof.
  intros Hall. pose proof (finish_progress k b evs (mkSession [] false (mkResources "" [] false)) eq_refl Hall) as H.
  unfold collect_finish, is_interrupted in H. erewrite bind_ok in H by reflexivity. apply ok_inj in H.
  unfold gathered in *. injection H as H1 H2 H3. unfold progress in *. cbn [so_far] in *. f_equal; [exact H1|exact H2].
Qed.

Lemma tensor_loop_orderly arrivals k b evs e x s :
  Forall undisturbed arrivals -> remaining (messages arrivals) k b evs ->
  e + count is_end (messages arrivals) = n -> x + count is_exit (messages arrivals) = n ->
  (e =? n) && (x =? n) = false ->
  exists evs', tensor_loop docker names n arrivals (in_tensor (progress k b evs) e x) s = (Ok (gathered evs'), s) /\
    forall i, i < n -> received_from i evs' = events_of i.
Proof.
  revert k b evs e x. induction arrivals as [|a arrivals IH]; intros k b evs e x Hu Hr He Hx Hw.
  - cbn in He, Hx. rewrite Nat.add_0_r in He, Hx. by rewrite He, Hx, Nat.eqb_refl in Hw.
  - apply List.Forall_cons_iff in Hu as [Ha Hu]. destruct a as [m| | |]; try done; cbn [tensor_loop]; [|by apply IH].
    cbn [messages omap list_omap] in Hr, He, Hx. rewrite count_cons in He, Hx. fold (messages arrivals) in Hr, He, Hx.
    destruct (tensor_message_step m (messages arrivals) k b evs s e x Hr) as (k' & b' & evs' & Hstep & Hr').
    erewrite bind_ok by exact Hstep. cbn [in_tensor t_ended t_exited].
    destruct (((if is_end m then 1 else 0) + e =? n) && ((if is_exit m then 1 else 0) + x =? n)) eqn:Hw'.
    + apply andb_true_iff in Hw' as [H1%Nat.eqb_eq H2%Nat.eqb_eq]. exists evs'.
      assert (forall i, i < n -> k' i = length (events_of i) + 2 /\ b' i = true) as Hall
        by (apply (ends_to_come _ _ _ _ Hr'); lia).
      cbn [in_tensor t_so_far]. rewrite (progress_gathered _ _ _ Hall). split; [done|].
      intros i Hi. rewrite (r_events _ _ _ _ Hr') by done. destruct (Hall i Hi) as [-> _]. apply firstn_all2. lia.
    + apply IH; [done|done|lia|lia|done].
Qed.
(** As many ends and exits as ranks. *)
Lemma orderly_counts ms : orderly ms -> count is_end ms = n /\ count is_exit ms = n.
Proof.
  intros [Ho1 Ho2 Ho3 _].
  assert (forall p, (forall i, i < n -> length (filter (fun m => p m && (message_rank m =? i)) ms) = 1) ->
    count p ms = n) as Hcount.
  { intros p Hp. unfold count. rewrite (length_filter_by p message_rank n) by (intros m Hm _; by apply Ho1).
    rewrite (map_ext_in _ (fun _ => 1)) by (intros i Hi%in_seq; apply Hp; lia).
    clear. rewrite <- (length_seq n 0) at 2. generalize (seq 0 n). intros l. induction l as [|i l IH]; [done|]. exact (f_equal S IH). }
  split; apply Hcount; intros i Hi.
  - replace (filter (fun m => is_end m && (message_rank m =? i)) ms) with (filter is_end (filter (stream_message i) ms)).
    + rewrite Ho2 by done. unfold stream. rewrite list.filter_app, filter_nothing; [done|].
      intros m (e & -> & _)%list_elem_of_fmap [].
    + rewrite list_filter_filter. apply list_filter_iff. intros m.
      destruct m as [r ?|r ?|r|r ?]; cbn; destruct (r =? i); naive_solver.
  - replace (filter (fun m => is_exit m && (message_rank m =? i)) ms) with (filter (exit_message i) ms); [by rewrite Ho3|].
    apply list_filter_iff. intros m. destruct m; cbn; done.
Qed.

Lemma tensor_collect_orderly arrivals s : 0 < n ->
  Forall undisturbed arrivals -> orderly (messages arrivals) ->
  exists evs, collect_tensor_streams docker names n arrivals s = (Ok (gathered evs), s) /\
    forall i, i < n -> received_from i evs = events_of i.
Proof.
  intros Hn Hu Ho. destruct (orderly_counts _ Ho) as [H1 H2]. unfold collect_tensor_streams.
  rewrite start_progress.
  assert (replicate n 0%N = sequences (progress (fun _ => 0) (fun _ => false) [])) as ->
    by (rewrite <- start_progress; done).
  apply (tensor_loop_orderly arrivals (fun _ => 0) (fun _ => false) [] 0 0); [done|by apply start_remaining|done|done|].
  destruct (Nat.eqb_spec 0 n); [lia|done].
Qed.
End Orderly.

(** ** A collection without a complaint *)

Section Sound.
Context {R : Type} (rank_of : R -> nat) (docker : list command -> command -> option Output)
  (names : list string) (n : nat).

(** What holds of the loop's variables. *)
Record consistent (st : @CollectState R) (s : session) : Prop :=
  mkConsistent
  { c_ranks : length (collected_ranks (so_far st)) = n;
    c_sequences : length (sequences st) = n;
    c_receive : forall k e, collected_events (so_far st) !! k = Some e -> receive_sequence e = N.of_nat k;
    c_numbered : failures (so_far st) = [] -> forall i, i < n ->
      sequences st !! i = Some (N.of_nat (length (received_from i (collected_events (so_far st))))) /\
      forall k e, received_from i (collected_events (so_far st)) !! k = Some e ->
        event_sequence (published_event e) = N.of_nat k;
    c_reports : forall i r, collected_ranks (so_far st) !! i = Some (Some r) -> rank_of r = i;
    c_exits : failures (so_far st) = [] -> forall i code,
      collected_exit_codes (so_far st) !! i = Some (Some code) -> code = 0%Z \/ stopped st = true;
    c_stopped : failures (so_far st) = [] -> stopped st = true -> interrupted s = true }.

Lemma received_from_snoc i evs k e :
  received_from i (evs ++ [mkReceived k e]) =
  received_from i evs ++ (if decide (event_rank (published_event e) = i) then [e] else []).
Proof.
  unfold received_from. rewrite map_app, list.filter_app. done.
Qed.
Lemma received_from_length i evs : length (received_from i evs) <= length evs.
Proof. unfold received_from. etrans; [apply length_filter|]. by rewrite length_map. Qed.

Lemma receive_in_order evs e k x :
  (forall k e, evs !! k = Some e -> receive_sequence e = N.of_nat k) ->
  (evs ++ [mkReceived (N.of_nat (length evs)) e]) !! k = Some x -> receive_sequence x = N.of_nat k.
Proof.
  intros H [Hx|[Hl Hx]]%lookup_app_Some; [by apply H|].
  apply list_lookup_singleton_Some in Hx as [Hz <-]. cbn. f_equal. lia.
Qed.

Lemma nil_snoc {A} (l : list A) x : l ++ [x] = [] -> False.
Proof. by destruct l. Qed.

(** An event that continues its rank's numbering. *)
Lemma event_consistent st s rank e :
  rank < n -> (N.of_nat (length (collected_events (so_far st))) + 1 < U64)%N -> consistent st s ->
  event_rank (published_event e) = rank ->
  event_sequence (published_event e) = default 0%N (sequences st !! rank) ->
  consistent (mkCollect (receive_event e (so_far st))
    (<[rank := add64 (default 0%N (sequences st !! rank)) 1]> (sequences st)) (ended st) (exited st) (stopped st)) s.
Proof.
  intros Hr Hb [H1 H2 H3 H4 H5 H6 H7] He Hs.
  split; cbn [so_far receive_event collected_ranks collected_events collected_exit_codes failures sequences stopped]; try done.
  - by rewrite length_insert.
  - intros k x. by apply receive_in_order.
  - intros Hf i Hi. destruct (H4 Hf i Hi) as [Hseq Hnum]. rewrite received_from_snoc.
    pose proof (received_from_length i (collected_events (so_far st))).
    destruct (decide (event_rank (published_event e) = i)) as [E|E].
    + assert (i = rank) as -> by congruence. rewrite Hseq in *. cbn [default from_option] in *.
      unfold Datatypes.id in *. rewrite list_lookup_insert_eq by lia. split.
      * rewrite add64_small by lia. rewrite length_app. cbn. f_equal. lia.
      * intros k x [Hx|[Hl Hx]]%lookup_app_Some; [by apply Hnum|].
        apply list_lookup_singleton_Some in Hx as [Hz <-]. rewrite Hs. f_equal. lia.
    + rewrite app_nil_r, list_lookup_insert_ne by congruence. done.
Qed.

Lemma message_consistent m st s : message_rank m < n ->
  (N.of_nat (length (collected_events (so_far st))) + 1 < U64)%N -> consistent st s ->
  exists st' s', on_message rank_of docker names m st s = (Ok st', s') /\ consistent st' s' /\
    length (collected_events (so_far st')) <= S (length (collected_events (so_far st))).
Proof.
  intros Hm Hb Hc. pose proof Hc as [H1 H2 H3 H4 H5 H6 H7].
  destruct m as [rank [e|r]|rank line|rank|rank code]; cbn [on_message message_rank] in *.
  - destruct (Nat.eqb_spec (event_rank (published_event e)) rank) as [Er|Er];
    [destruct (N.eqb_spec (event_sequence (published_event e)) (default 0%N (sequences st !! rank))) as [Es|Es]|];
      cbn [negb orb]; eexists _, s; (split; [reflexivity|]).
    + split; [by apply event_consistent|]. cbn. rewrite length_app. cbn. lia.
    + split; [|cbn; rewrite length_app; cbn; lia].
      split; cbn; try done; try (by intros []%nil_snoc); intros k x; by apply receive_in_order.
    + split; [|cbn; rewrite length_app; cbn; lia].
      split; cbn; try done; try (by intros []%nil_snoc); intros k x; by apply receive_in_order.
  - eexists _, s. split; [reflexivity|]. destruct (Nat.eqb_spec (rank_of r) rank) as [E|E]; cbn [negb];
      (split; [|cbn; lia]).
    + split; cbn; try done; [by rewrite length_insert|].
      intros i r' Hl. destruct (decide (i = rank)) as [->|Hne].
      * rewrite list_lookup_insert_eq in Hl by lia. by injection Hl as <-.
      * rewrite list_lookup_insert_ne in Hl by done. by apply H5.
    + split; cbn; try done; try (by intros []%nil_snoc).
  - eexists _, s. split; [reflexivity|]. destruct (starts_with _ _); (split; [|cbn; lia]); [|by destruct st].
    split; cbn; try done; try (by intros []%nil_snoc).
  - eexists _, s. split; [reflexivity|]. split; [by split|cbn; lia].
  - destruct (Z.eqb_spec code 0) as [->|Hne]; cbn [negb andb]; [|destruct (stopped st) eqn:Est; cbn [negb]].
    3:{ erewrite bind_ok by apply stop_containers_run. eexists _, _. split; [reflexivity|].
        split; [|cbn; lia]. split; cbn; try done; try (by intros []%nil_snoc). }
    all: eexists _, s; (split; [reflexivity|]); (split; [|cbn; lia]); split; cbn; try done.
    all: intros Hf i c Hl; destruct (decide (i = rank)) as [->|Hir];
      [|rewrite list_lookup_insert_ne in Hl by done; by apply (H6 Hf i)].
    + apply list_lookup_insert_Some in Hl as [(_ & [= <-] & _)|[? _]]; [by left|done].
    + by right.
Qed.

Lemma head_consistent st s : consistent st s ->
  exists st' s', collect_head docker names st s = (Ok st', s') /\ consistent st' s' /\ so_far st' = so_far st.
Proof.
  intros Hc. unfold collect_head, is_interrupted. erewrite bind_ok by reflexivity.
  destruct (interrupted s && negb (stopped st)) eqn:E; [|by exists st, s].
  apply andb_true_iff in E as [Ei _]. erewrite bind_ok by apply stop_containers_run.
  eexists _, _. split; [reflexivity|]. split; [|done]. destruct Hc. split; cbn; try done. by right.
Qed.

(** What a collection without a complaint says. *)
Definition clean (c : @Collected R) : Prop :=
  forall i, i < n ->
    (exists r, collected_ranks c !! i = Some (Some r) /\ rank_of r = i) /\
    numbered i (received_from i (collected_events c)) /\
    forall code, collected_exit_codes c !! i = Some (Some code) -> code = 0%Z.

Lemma missing_none (ranks : list (option R)) k :
  omap (fun p : nat * option R => let '(rank, r) := p in match r with
          | None => Some (rank_text rank +:+ " emitted no final report") | Some _ => None end)
    (zip (seq k (length ranks)) ranks) = [] ->
  forall i, i < length ranks -> exists r, ranks !! i = Some (Some r).
Proof.
  revert k. induction ranks as [|r ranks IH]; intros k H i Hi; cbn in *; [lia|].
  destruct r as [r|]; [|done]. destruct i as [|i]; [by exists r|]. apply (IH (S k) H). lia.
Qed.

Lemma finish_sound st s c s' : consistent st s -> (N.of_nat (length (collected_events (so_far st))) < U64)%N ->
  collect_finish st s = (Ok c, s') ->
  (forall k e, collected_events c !! k = Some e -> receive_sequence e = N.of_nat k) /\
  (failures c = [] -> clean c /\ interrupted s' = false).
Proof.
  intros [H1 H2 H3 H4 H5 H6 H7] Hb. unfold collect_finish, is_interrupted. erewrite bind_ok by reflexivity.
  destruct (interrupted s) eqn:Ei; intros [= <- <-]; cbn; (split; [done|]).
  - intros Hf. apply app_nil in Hf as [[]%nil_snoc _].
  - intros [Hf Hm]%app_nil. split; [|done]. intros i Hi. split_and!.
    + destruct (missing_none _ 0 Hm i) as [r Hr]; [lia|]. exists r. split; [done|]. by apply H5.
    + destruct (H4 Hf i Hi) as [_ Hn]. split.
      * pose proof (received_from_length i (collected_events (so_far st))). eapply N.le_lt_trans; [|exact Hb]. cbn [collected_events]. lia.
      * intros k e He. split; [by apply Hn|]. apply list_elem_of_lookup_2 in He.
        unfold received_from in He. by apply list_elem_of_filter in He as [? _].
    + intros code Hl. destruct (H6 Hf i code Hl) as [?|Hs]; [done|]. pose proof (H7 Hf Hs). congruence.
Qed.

Lemma loop_sound arrivals st s c s' : consistent st s ->
  Forall (fun m => message_rank m < n) (messages arrivals) ->
  (N.of_nat (length (collected_events (so_far st)) + length arrivals) < U64)%N ->
  collect_loop rank_of docker names arrivals st s = (Ok c, s') ->
  (forall k e, collected_events c !! k = Some e -> receive_sequence e = N.of_nat k) /\
  (failures c = [] -> clean c /\ interrupted s' = false).
Proof.
  revert st s. induction arrivals as [|a arrivals IH]; intros st s Hc Hm Hb; [done|].
  cbn [length] in Hb. destruct a as [m| | |]; cbn [collect_loop].
  - apply List.Forall_cons_iff in Hm as [Hm Hms].
    destruct (message_consistent m st s) as (st1 & s1 & E & Hc1 & Hl); [done|lia|done|].
    erewrite bind_ok by exact E. destruct (waiting st1); [|apply finish_sound; [done|lia]].
    destruct (head_consistent st1 s1 Hc1) as (st2 & s2 & E2 & Hc2 & Es).
    erewrite bind_ok by exact E2. apply IH; [done|done|]. rewrite Es. lia.
  - destruct (head_consistent st s Hc) as (st2 & s2 & E2 & Hc2 & Es).
    erewrite bind_ok by exact E2. apply IH; [done|done|]. rewrite Es. lia.
  - apply finish_sound; [done|lia].
  - erewrite bind_ok by reflexivity. apply IH; [|done|cbn; lia]. destruct Hc. by split.
Qed.

(** C14: a collection without a complaint is a correct run.  For every schedule of
    messages, silences and Ctrl-C, the launcher numbers what it receives in the
    order it receives it, and when it lists no failure then every rank delivered
    its own report, the events of every rank came numbered 0, 1, 2, ... without a
    gap, no container exited with a code other than 0, and there was no
    interruption. *)
Theorem clean_collection_sound arrivals s c s' :
  Forall (fun m => message_rank m < n) (messages arrivals) -> (N.of_nat (length arrivals) < U64)%N ->
  collect_rank_streams rank_of docker names n arrivals s = (Ok c, s') ->
  (forall k e, collected_events c !! k = Some e -> receive_sequence e = N.of_nat k) /\
  (failures c = [] -> clean c /\ interrupted s' = false).
Proof.
  intros Hm Hb. unfold collect_rank_streams.
  assert (consistent (collect_start n) s) as Hc.
  { split; cbn; try done; try by rewrite length_replicate.
    - intros _ i Hi. split; [by apply lookup_replicate_2|done].
    - by intros i r [? _]%lookup_replicate.
    - by intros _ i c' [? _]%lookup_replicate. }
  destruct (waiting (collect_start n)); [|apply finish_sound; [done|cbn; lia]].
  destruct (head_consistent _ s Hc) as (st2 & s2 & E2 & Hc2 & Es).
  erewrite bind_ok by exact E2. apply loop_sound; [done|done|]. rewrite Es. exact Hb.
Qed.
End Sound.

(** ** Ctrl-C *)

Section CtrlC.
Context {R : Type} (rank_of : R -> nat) (docker : list command -> command -> option Output)
  (names : list string) (world_size : nat).

(** The pipeline's collector stops the containers within the next 100 ms without
    a message, once. *)
Lemma interrupt_stops_containers arrivals st s : stopped st = false ->
  collect_loop rank_of docker names (CtrlC :: Silence :: arrivals) st s =
  collect_loop rank_of docker names arrivals
    (mkCollect (so_far st) (sequences st) (ended st) (exited st) true)
    (mkSession (issued s ++ map (fun name => ["kill"; name]) names) true (held s)).
Proof.
  intros Hs. cbn [collect_loop]. erewrite bind_ok by reflexivity. unfold collect_head, is_interrupted.
  erewrite bind_ok; [reflexivity|]. erewrite bind_ok by reflexivity. cbn [interrupted]. rewrite Hs.
  cbn [andb negb]. by erewrite bind_ok by apply stop_containers_run.
Qed.

Definition not_ctrl_c (a : @Arrival R) : bool := match a with CtrlC => false | _ => true end.
Definition same_but_flag (s s' : session) : Prop := issued s = issued s' /\ held s = held s'.

Lemma tensor_message_flag m (st : @TensorCollect R) s s' : same_but_flag s s' ->
  (tensor_message docker names m st s).1 = (tensor_message docker names m st s').1 /\
  same_but_flag (tensor_message docker names m st s).2 (tensor_message docker names m st s').2.
Proof.
  intros [H1 H2]. destruct m as [rank [e|r]|rank line|rank|rank code]; cbn [tensor_message]; try done.
  destruct (negb (code =? 0)%Z); [|done]. erewrite !bind_ok by apply stop_containers_run.
  split; [done|]. split; cbn; by rewrite ?H1, ?H2.
Qed.

(** The tensor command's collector does not read the flag its launcher installs a
    handler for: with and without Ctrl-C it returns the same and issues the same
    commands. *)
Theorem tensor_collector_ignores_interrupt arrivals s :
  let with_c := collect_tensor_streams docker names world_size arrivals s in
  let without := collect_tensor_streams docker names world_size (filter not_ctrl_c arrivals) s in
  with_c.1 = without.1 /\ issued with_c.2 = issued without.2.
Proof.
  unfold collect_tensor_streams.
  enough (forall arrivals st s s', same_but_flag s s' ->
    let x := tensor_loop docker names world_size arrivals st s in
    let y := tensor_loop docker names world_size (filter not_ctrl_c arrivals) st s' in
    x.1 = y.1 /\ same_but_flag x.2 y.2) as H.
  { destruct (H arrivals (mkTensorCollect (so_far (collect_start world_size)) (replicate world_size 0%N) 0 0) s s)
      as [E [Ei _]]; done. }
  clear. intros arrivals. induction arrivals as [|a arrivals IH]; intros st s s' Hs; [done|].
  destruct a as [m| | |].
  - rewrite filter_cons_True by done. cbn [tensor_loop]. unfold mbind, docking_bind.
    destruct (tensor_message_flag m st s s' Hs) as [E1 E2].
    destruct (tensor_message docker names m st s) as [r1 s1].
    destruct (tensor_message docker names m st s') as [r2 s2]. cbn [fst snd] in *. subst r2.
    destruct r1 as [st'|e]; [|done]. destruct (_ && _); [done|]. by apply IH.
  - rewrite filter_cons_True by done. cbn [tensor_loop]. by apply IH.
  - rewrite filter_cons_True by done. done.
  - rewrite filter_cons_False by (intros []). cbn [tensor_loop]. erewrite bind_ok by reflexivity.
    apply IH. destruct Hs. by split.
Qed.
End CtrlC.

(** ** The collector owns nothing and returns *)
Section Collecting.
Context {R : Type} (rank_of : R -> nat) (docker : list command -> command -> option Output)
  (names : list string) (n : nat).

Lemma neutral_on_message m st : neutral docker (on_message rank_of docker names m st).
Proof. destruct m as [rank [e|r]|rank line|rank|rank code]; cbn [on_message]; cbv zeta; neutral_auto. Qed.
Lemma neutral_collect_head st : neutral docker (@collect_head R docker names st).
Proof. unfold collect_head. neutral_auto. Qed.
Lemma neutral_collect_finish st : neutral docker (@collect_finish R st).
Proof. unfold collect_finish. neutral_auto. Qed.
#[local] Hint Resolve neutral_on_message neutral_collect_head neutral_collect_finish : docker.
Lemma neutral_collect_loop arrivals st : neutral docker (collect_loop rank_of docker names arrivals st).
Proof.
  revert st. induction arrivals as [|[m| | |] arrivals IH]; intros st; cbn [collect_loop]; [done|..];
    repeat (neutral_step || apply IH).
Qed.
#[local] Hint Resolve neutral_collect_loop : docker.
Lemma neutral_collect arrivals : neutral docker (collect_rank_streams rank_of docker names n arrivals).
Proof. unfold collect_rank_streams. neutral_auto. Qed.

(** A schedule in which every container's stream ends and its exit is reported,
    or all senders are gone. *)
Definition comes_to_end (arrivals : list (@Arrival R)) : Prop :=
  Hangup ∈ arrivals \/ forall i, i < n ->
    StreamEnded i ∈ messages arrivals /\ exists code, ContainerExit i code ∈ messages arrivals.

(** What the loop has seen, and what is still to come. *)
Definition ending (arrivals : list (@Arrival R)) (st : @CollectState R) : Prop :=
  length (ended st) = n /\ length (exited st) = n /\
  (Hangup ∈ arrivals \/ forall i, i < n ->
     (ended st !! i = Some true \/ StreamEnded i ∈ messages arrivals) /\
     (exited st !! i = Some true \/ exists code, ContainerExit i code ∈ messages arrivals)).

Lemma stop_st st s : exists s', (
  _ ← stop_containers docker names; mret st : docking (@CollectState R)) s = (Ok st, s').
Proof. erewrite bind_ok by apply stop_containers_run. by eexists. Qed.

Lemma head_ending arrivals st s : ending arrivals st ->
  exists st' s', collect_head docker names st s = (Ok st', s') /\ ending arrivals st'.
Proof.
  intros H. unfold collect_head, is_interrupted. erewrite bind_ok by reflexivity.
  destruct (_ && _); [|by eexists _, _]. erewrite bind_ok by apply stop_containers_run. by eexists _, _.
Qed.

Lemma insert_true (l : list bool) r i : l !! i = Some true -> <[r := true]> l !! i = Some true.
Proof.
  intros H. destruct (decide (r = i)) as [->|]; [|by rewrite list_lookup_insert_ne].
  rewrite list_lookup_insert_eq; [done|]. by eapply lookup_lt_Some.
Qed.

Lemma message_ending m arrivals st s : ending (Message m :: arrivals) st ->
  exists st' s', on_message rank_of docker names m st s = (Ok st', s') /\ ending arrivals st'.
Proof.
  intros (H1 & H2 & H3).
  assert (Hangup ∈ arrivals \/ forall i, i < n ->
    (ended st !! i = Some true \/ StreamEnded i = m \/ StreamEnded i ∈ messages arrivals) /\
    (exited st !! i = Some true \/ (exists code, ContainerExit i code = m) \/
     exists code, ContainerExit i code ∈ messages arrivals)) as H4.
  { destruct H3 as [H3|H3]; [left; apply elem_of_cons in H3 as [?|?]; done|right]. intros i Hi.
    destruct (H3 i Hi) as [He Hx]. cbn [messages omap list_omap] in He, Hx. setoid_rewrite elem_of_cons in He.
    setoid_rewrite elem_of_cons in Hx. split; [tauto|]. destruct Hx as [?|(code & [?|?])]; eauto. }
  clear H3. assert (forall st', length (ended st') = n -> length (exited st') = n ->
    (forall i, ended st !! i = Some true -> ended st' !! i = Some true) ->
    (forall i, exited st !! i = Some true -> exited st' !! i = Some true) ->
    (forall i, i < n -> StreamEnded i = m -> ended st' !! i = Some true) ->
    (forall i code, i < n -> ContainerExit i code = m -> exited st' !! i = Some true) -> ending arrivals st') as Hgo.
  { intros st' L1 L2 K1 K2 K3 K4. split; [done|]. split; [done|]. destruct H4 as [H4|H4]; [by left|right].
    intros i Hi. destruct (H4 i Hi) as [[?|[?|?]] [?|[[code ?]|?]]]; split; eauto. }
  destruct m as [rank [e|r]|rank line|rank|rank code]; cbn [on_message]; cbv zeta.
  - destruct (_ || _); eexists _, _; (split; [reflexivity|]); by apply Hgo.
  - eexists _, _. split; [reflexivity|]. by apply Hgo.
  - eexists _, _. split; [reflexivity|]. by apply Hgo.
  - eexists _, _. split; [reflexivity|]. apply Hgo; cbn; try done.
    + by rewrite length_insert.
    + intros i. apply insert_true.
    + intros i Hi [= ->]. apply list_lookup_insert_eq. lia.
  - destruct (_ && _); [erewrite bind_ok by apply stop_containers_run|];
      eexists _, _; (split; [reflexivity|]); apply Hgo; cbn; try done;
      try (by rewrite length_insert); try (intros i; apply insert_true);
      intros i c Hi [= -> _]; apply list_lookup_insert_eq; lia.
Qed.

Lemma ending_done st : ending [] st -> waiting st = false.
Proof.
  intros (H1 & H2 & [H|H]); [by apply elem_of_nil in H|]. unfold waiting.
  assert (forall l, length l = n -> (forall i, i < n -> l !! i = Some true) -> existsb negb l = false) as Hf.
  { intros l Hl Ha. apply not_true_iff_false. intros (b & Hb & Hn)%existsb_exists.
    apply list_elem_of_In, list_elem_of_lookup in Hb as [i Hi]. pose proof (lookup_lt_Some _ _ _ Hi).
    rewrite Ha in Hi by lia. by injection Hi as <-. }
  rewrite !Hf; try done; intros i Hi; destruct (H i Hi) as [[?|Hn] [?|[? Hx]]]; try done;
    first [by apply elem_of_nil in Hn|by apply elem_of_nil in Hx].
Qed.

Lemma finish_returns (st : @CollectState R) s : (collect_finish st s).1 <> Err Blocked.
Proof. done. Qed.

Lemma loop_returns arrivals st s : ending arrivals st -> waiting st = true ->
  (collect_loop rank_of docker names arrivals st s).1 <> Err Blocked.
Proof.
  revert st s. induction arrivals as [|a arrivals IH]; intros st s He Hw.
  - apply ending_done in He. congruence.
  - assert (forall b, a = b -> b <> Hangup -> messages [b] = [] -> ending arrivals st) as Hskip.
    { intros b -> Hb Hm. destruct He as (H1 & H2 & H3). split; [done|]. split; [done|].
      destruct b; try done; (destruct H3 as [H3|H3]; [left; by apply elem_of_cons in H3 as [?|?]|by right]). }
    assert (forall st s, ending arrivals st -> waiting st = true ->
      ((st ← collect_head docker names st; collect_loop rank_of docker names arrivals st) s).1 <> Err Blocked) as Hhead.
    { intros st1 s1 He1 Hw1. unfold collect_head, is_interrupted.
      unfold mbind at 1, docking_bind at 1. unfold mbind at 1, docking_bind at 1.
      destruct (_ && _); [|by apply IH]. unfold mbind at 1, docking_bind at 1.
      rewrite stop_containers_run. by apply IH. }
    destruct a as [m| | |]; cbn [collect_loop].
    + destruct (message_ending m arrivals st s He) as (st1 & s1 & E & He1). erewrite bind_ok by exact E.
      destruct (waiting st1) eqn:Hw1; [by apply Hhead|done].
    + apply Hhead; [by apply (Hskip Silence)|done].
    + done.
    + erewrite bind_ok by reflexivity. apply IH; [by apply (Hskip CtrlC)|done].
Qed.

Lemma collect_returns arrivals s : comes_to_end arrivals ->
  (collect_rank_streams rank_of docker names n arrivals s).1 <> Err Blocked.
Proof.
  intros H. unfold collect_rank_streams.
  assert (ending arrivals (collect_start n)) as He.
  { split; [apply length_replicate|]. split; [apply length_replicate|]. destruct H as [H|H]; [by left|right].
    intros i Hi. destruct (H i Hi). auto. }
  destruct (waiting (collect_start n)) eqn:Hw; [|done].
  destruct (head_ending arrivals (collect_start n) s He) as (st & s' & E & He').
  assert (waiting st = true) as Hw'.
  { revert E. unfold collect_head, is_interrupted. erewrite bind_ok by reflexivity.
    destruct (_ && _); [erewrite bind_ok by apply stop_containers_run|]; by intros [= <- _]. }
  erewrite bind_ok by exact E. by apply loop_returns.
Qed.
End Collecting.

(** ** The tensor command's collector *)

Section TensorCollecting.
Context {R : Type} (docker : list command -> command -> option Output) (names : list string) (n : nat).

Lemma neutral_tensor_message m (st : @TensorCollect R) : neutral docker (tensor_message docker names m st).
Proof. destruct m as [rank [e|r]|rank line|rank|rank code]; cbn [tensor_message]; cbv zeta; neutral_auto. Qed.
#[local] Hint Resolve neutral_tensor_message : docker.
Lemma neutral_tensor_loop arrivals (st : @TensorCollect R) : neutral docker (tensor_loop docker names n arrivals st).
Proof.
  revert st. induction arrivals as [|[m| | |] arrivals IH]; intros st; cbn [tensor_loop]; [done|..];
    repeat (neutral_step || apply IH).
Qed.
Lemma neutral_tensor_collect (arrivals : list (@Arrival R)) :
  neutral docker (collect_tensor_streams docker names n arrivals).
Proof. apply neutral_tensor_loop. Qed.

(** A schedule with as many ends and exits as there are ranks, or all senders gone. *)
Definition tensor_comes_to_end (arrivals : list (@Arrival R)) : Prop :=
  0 < n /\ (Hangup ∈ arrivals \/ count is_end (messages arrivals) = n /\ count is_exit (messages arrivals) = n).

Lemma tensor_message_counts m (st : @TensorCollect R) s : exists st' s',
  tensor_message docker names m st s = (Ok st', s') /\
  t_ended st' = (if is_end m then 1 else 0) + t_ended st /\ t_exited st' = (if is_exit m then 1 else 0) + t_exited st.
Proof.
  destruct m as [rank [e|r]|rank line|rank|rank code]; cbn [tensor_message]; cbv zeta; try (by eexists _, _).
  destruct (negb _); [erewrite bind_ok by apply stop_containers_run|]; by eexists _, _.
Qed.

Lemma tensor_loop_returns arrivals (st : @TensorCollect R) s :
  (t_ended st =? n) && (t_exited st =? n) = false ->
  Hangup ∈ arrivals \/
    t_ended st + count is_end (messages arrivals) = n /\ t_exited st + count is_exit (messages arrivals) = n ->
  (tensor_loop docker names n arrivals st s).1 <> Err Blocked.
Proof.
  revert st s. induction arrivals as [|a arrivals IH]; intros st s Hw He.
  - destruct He as [He|[H1 H2]]; [by apply elem_of_nil in He|]. cbn in H1, H2.
    rewrite Nat.add_0_r in H1, H2. by rewrite H1, H2, Nat.eqb_refl in Hw.
  - assert (forall b, a = b -> b <> Hangup -> messages [b] = [] -> Hangup ∈ arrivals \/
      t_ended st + count is_end (messages arrivals) = n /\ t_exited st + count is_exit (messages arrivals) = n) as Hskip.
    { intros b -> Hb Hm. destruct He as [He|He]; [left; by apply elem_of_cons in He as [?|?]|right].
      by destruct b. }
    destruct a as [m| | |]; cbn [tensor_loop]; [|apply IH; [done|by apply (Hskip Silence)]|done|].
    + destruct (tensor_message_counts m st s) as (st' & s' & E & E1 & E2). erewrite bind_ok by exact E.
      destruct ((t_ended st' =? n) && (t_exited st' =? n)) eqn:Hw'; [done|]. apply IH; [done|].
      destruct He as [He|He]; [left; by apply elem_of_cons in He as [?|?]|right].
      cbn [messages omap list_omap] in He. rewrite !count_cons in He. rewrite E1, E2. unfold messages. lia.
    + erewrite bind_ok by reflexivity. apply IH; [done|by apply (Hskip CtrlC)].
Qed.

Lemma tensor_collect_returns arrivals s : tensor_comes_to_end arrivals ->
  (collect_tensor_streams docker names n arrivals s).1 <> Err Blocked.
Proof.
  intros H. unfold collect_tensor_streams. destruct H as [Hn [H|[H1 H2]]].
  - by apply tensor_loop_returns; [cbn [t_ended t_exited]; destruct (Nat.eqb_spec 0 n); [lia|done]|left].
  - apply tensor_loop_returns; [cbn [t_ended t_exited]; destruct (Nat.eqb_spec 0 n); [lia|done]|by right].
Qed.
End TensorCollecting.

(** ** Two ranks *)

Definition duo_events (i : nat) : list PipelineEvent :=
  recorded (rank_emit ModelLoadFinished (rank_emit ModelLoadStarted (rank_recorder_new i "run" "request"))).
Definition duo_arrivals : list (@Arrival nat) :=
  Silence :: map Message
    ((Record_ 1 ∘ EventRecord <$> duo_events 1) ++ [LogLine 0 "loading"; Record_ 1 (ResultRecord 1)]
     ++ (Record_ 0 ∘ EventRecord <$> duo_events 0) ++ [ContainerExit 1 0; Record_ 0 (ResultRecord 0);
        StreamEnded 0; StreamEnded 1]) ++ [Silence; Message (ContainerExit 0 0)].
Definition duo_session : session := mkSession [] false (mkResources "" [] false).
Definition no_docker (past : list command) (c : command) : option Output := None.

Lemma duo_numbered i : i < 2 -> numbered i (duo_events i).
Proof.
  intros _. split; [reflexivity|]. intros [|[|k]] e; cbn; [by intros [= <-]|by intros [= <-]|done].
Qed.

Lemma streams_collected_witness : exists c,
  collect_rank_streams Datatypes.id no_docker [] 2 duo_arrivals duo_session = (Ok c, duo_session) /\
  collected_ranks c = [Some 0; Some 1] /\ failures c = [].
Proof.
  destruct (streams_collected Datatypes.id no_docker [] 2 Datatypes.id duo_events (fun _ _ => eq_refl)
    duo_numbered duo_arrivals duo_session eq_refl) as (c & H1 & H2 & H3 & H4 & H5).
  - repeat constructor.
  - split.
    + intros m Hm. apply list_elem_of_In in Hm. revert m Hm.
      apply (List.Forall_forall (fun m => message_rank m < 2)). repeat constructor.
    + intros i Hi. by repeat (destruct i as [|i]; [reflexivity|]; try lia).
    + intros i Hi. by repeat (destruct i as [|i]; [reflexivity|]; try lia).
    + intros r line Hin. vm_compute in Hin. repeat (apply elem_of_cons in Hin as [Hin|Hin]; [try discriminate|]).
      * injection Hin as _ ->. reflexivity.
      * by apply not_elem_of_nil in Hin.
  - exists c. split; [exact H1|]. split; [exact H2|exact H4].
Defined.

Lemma clean_collection_sound_witness : exists c s',
  collect_rank_streams Datatypes.id no_docker [] 2 duo_arrivals duo_session = (Ok c, s') /\
  clean Datatypes.id 2 c /\ interrupted s' = false.
Proof.
  eexists _, _. split; [vm_compute; reflexivity|].
  refine (proj2 (clean_collection_sound Datatypes.id no_docker [] 2 duo_arrivals duo_session _ _ _ _ _) _).
  - repeat constructor.
  - vm_compute. reflexivity.
  - vm_compute. reflexivity.
  - reflexivity.
Defined.
