(* ===== verification/Dashboard.v ===== *)
(** * The dashboard

    Models [crates/tui/src/lib.rs] without the drawing: the reduction of rank
    events to a state, the loop that receives them and reads keys, and the
    terminal it takes and gives back.  An event comes with its clock readings;
    what the channel, the drawing and the keyboard give is a list of steps. *)
From Stdlib Require Import Strings.Ascii.
From S2P Require Import Prelude Text Rank Registry Memory Partition Shard Protocol Report Collect.

(** ** State *)

(** A published event with its [elapsed_ns] and its [duration_ns], where it has one. *)
Record TimedEvent : Type := mkTimed { timed : PipelineEvent; elapsed_ns : N; duration_ns : N }.

(** [struct RankView]. *)
Record RankView : Type := mkView
  { view_rank : nat; view_layers : string; view_phase : string; view_layer : option nat; view_state : string;
    view_compute_ns : N; view_communication_ns : N; view_logical_memory : N;
    view_memory_current : option N; view_memory_limit : option N; view_phase_started : option N }.

(** [struct DashboardState]. *)
Record DashboardState : Type := mkDashboard
  { ds_model : string; ds_backend : string; ds_world_size : nat; ds_tensor_parallel : nat;
    ds_pipeline_parallel : nat; ds_expert_parallel : nat; ds_all_reduce : option string;
    ds_assignment_label : string; ds_ranks : list RankView; ds_prefill_ns : option N; ds_decode_ns : option N;
    ds_first_token_ns : option N; ds_communication_bytes : N; ds_generated_tokens : N; ds_recent : list string;
    ds_decode_total : N; ds_decode_count : N; ds_prefill_started : option N }.

Definition new_view (rank : nat) (layers : string) (logical : N) (limit : option N) : RankView :=
  mkView rank layers "startup" None "WAITING" 0 0 logical None limit None.

(** [DashboardState::new]. *)
Definition dashboard_new (model : string) (assignments : list StageAssignment) (memory : list StageMemoryPlan)
  : DashboardState :=
  let ranks := zip_with (fun assignment memory =>
    new_view (N.to_nat (stage_rank assignment))
      (pretty (layer_start assignment) +:+ ".." +:+ pretty (layer_end assignment))
      (sp_persistent_bytes memory) (Some (sp_budget_bytes memory))) assignments memory in
  mkDashboard model "tcp" (length assignments) 1 (length assignments) 1 None "Layers" ranks
    None None None 0 0 [] 0 0 None.

(** [DashboardState::new_tensor]. *)
Definition range_text (name : string) (r : ShardRange) : string :=
  name +:+ pretty (range_start r) +:+ ".." +:+ pretty (range_end r).
Definition dashboard_new_tensor (model : string) (memory : list TensorParallelMemoryPlan) (all_reduce : string)
  : DashboardState :=
  let ranks := map (fun memory =>
    let shard := tm_shard memory in
    new_view (N.to_nat (tm_rank memory))
      (range_text "V" (vocabulary shard) +:+ " " +:+ range_text "Q" (query_heads shard) +:+ " "
       +:+ range_text "K" (kv_heads shard) +:+ " " +:+ range_text "I" (Shard.intermediate shard))
      (tm_persistent_bytes memory) (tm_budget_bytes memory)) memory in
  mkDashboard model "native/tcp" (length memory) (length memory) 1 1 (Some all_reduce) "Tensor shards" ranks
    None None None 0 0 [] 0 0 None.

(** ** Assignments to fields *)
Definition set_phase (phase : string) (v : RankView) : RankView :=
  mkView (view_rank v) (view_layers v) phase (view_layer v) (view_state v) (view_compute_ns v)
    (view_communication_ns v) (view_logical_memory v) (view_memory_current v) (view_memory_limit v) (view_phase_started v).
Definition set_layer (layer : nat) (v : RankView) : RankView :=
  mkView (view_rank v) (view_layers v) (view_phase v) (Some layer) (view_state v) (view_compute_ns v)
    (view_communication_ns v) (view_logical_memory v) (view_memory_current v) (view_memory_limit v) (view_phase_started v).
Definition set_state (state : string) (v : RankView) : RankView :=
  mkView (view_rank v) (view_layers v) (view_phase v) (view_layer v) state (view_compute_ns v)
    (view_communication_ns v) (view_logical_memory v) (view_memory_current v) (view_memory_limit v) (view_phase_started v).
Definition set_compute (ns : N) (v : RankView) : RankView :=
  mkView (view_rank v) (view_layers v) (view_phase v) (view_layer v) (view_state v) ns
    (view_communication_ns v) (view_logical_memory v) (view_memory_current v) (view_memory_limit v) (view_phase_started v).
Definition set_communication (ns : N) (v : RankView) : RankView :=
  mkView (view_rank v) (view_layers v) (view_phase v) (view_layer v) (view_state v) (view_compute_ns v)
    ns (view_logical_memory v) (view_memory_current v) (view_memory_limit v) (view_phase_started v).
Definition set_memory (current limit : option N) (v : RankView) : RankView :=
  mkView (view_rank v) (view_layers v) (view_phase v) (view_layer v) (view_state v) (view_compute_ns v)
    (view_communication_ns v) (view_logical_memory v) current limit (view_phase_started v).
Definition set_started (ns : N) (v : RankView) : RankView :=
  mkView (view_rank v) (view_layers v) (view_phase v) (view_layer v) (view_state v) (view_compute_ns v)
    (view_communication_ns v) (view_logical_memory v) (view_memory_current v) (view_memory_limit v) (Some ns).

Definition with_ranks (ranks : list RankView) (s : DashboardState) : DashboardState :=
  mkDashboard (ds_model s) (ds_backend s) (ds_world_size s) (ds_tensor_parallel s) (ds_pipeline_parallel s)
    (ds_expert_parallel s) (ds_all_reduce s) (ds_assignment_label s) ranks (ds_prefill_ns s) (ds_decode_ns s)
    (ds_first_token_ns s) (ds_communication_bytes s) (ds_generated_tokens s) (ds_recent s) (ds_decode_total s)
    (ds_decode_count s) (ds_prefill_started s).
Definition with_prefill (prefill started : option N) (s : DashboardState) : DashboardState :=
  mkDashboard (ds_model s) (ds_backend s) (ds_world_size s) (ds_tensor_parallel s) (ds_pipeline_parallel s)
    (ds_expert_parallel s) (ds_all_reduce s) (ds_assignment_label s) (ds_ranks s) prefill (ds_decode_ns s)
    (ds_first_token_ns s) (ds_communication_bytes s) (ds_generated_tokens s) (ds_recent s) (ds_decode_total s)
    (ds_decode_count s) started.
Definition with_decode (decode : option N) (total count : N) (s : DashboardState) : DashboardState :=
  mkDashboard (ds_model s) (ds_backend s) (ds_world_size s) (ds_tensor_parallel s) (ds_pipeline_parallel s)
    (ds_expert_parallel s) (ds_all_reduce s) (ds_assignment_label s) (ds_ranks s) (ds_prefill_ns s) decode
    (ds_first_token_ns s) (ds_communication_bytes s) (ds_generated_tokens s) (ds_recent s) total
    count (ds_prefill_started s).
Definition with_tokens (tokens : N) (first : option N) (s : DashboardState) : DashboardState :=
  mkDashboard (ds_model s) (ds_backend s) (ds_world_size s) (ds_tensor_parallel s) (ds_pipeline_parallel s)
    (ds_expert_parallel s) (ds_all_reduce s) (ds_assignment_label s) (ds_ranks s) (ds_prefill_ns s) (ds_decode_ns s)
    first (ds_communication_bytes s) tokens (ds_recent s) (ds_decode_total s)
    (ds_decode_count s) (ds_prefill_started s).
Definition with_communication (bytes : N) (s : DashboardState) : DashboardState :=
  mkDashboard (ds_model s) (ds_backend s) (ds_world_size s) (ds_tensor_parallel s) (ds_pipeline_parallel s)
    (ds_expert_parallel s) (ds_all_reduce s) (ds_assignment_label s) (ds_ranks s) (ds_prefill_ns s) (ds_decode_ns s)
    (ds_first_token_ns s) bytes (ds_generated_tokens s) (ds_recent s) (ds_decode_total s)
    (ds_decode_count s) (ds_prefill_started s).
Definition with_recent (recent : list string) (s : DashboardState) : DashboardState :=
  mkDashboard (ds_model s) (ds_backend s) (ds_world_size s) (ds_tensor_parallel s) (ds_pipeline_parallel s)
    (ds_expert_parallel s) (ds_all_reduce s) (ds_assignment_label s) (ds_ranks s) (ds_prefill_ns s) (ds_decode_ns s)
    (ds_first_token_ns s) (ds_communication_bytes s) (ds_generated_tokens s) recent (ds_decode_total s)
    (ds_decode_count s) (ds_prefill_started s).

(** ** Reduction *)

(** [u64::saturating_add], [saturating_sub]. *)
Definition sat_add (a b : N) : N := N.min (a + b) U64_MAX.
Definition sat_sub (a b : N) : N := (a - b)%N.

(** [str::to_ascii_uppercase]. *)
Definition ascii_upper (c : ascii) : ascii :=
  if ((97 <=? N_of_ascii c) && (N_of_ascii c <=? 122))%N then ascii_of_N (N_of_ascii c - 32) else c.
Fixpoint to_ascii_uppercase (s : string) : string :=
  match s with EmptyString => EmptyString | String c t => String (ascii_upper c) (to_ascii_uppercase t) end.

(** [phase_name]. *)
Definition phase_name (phase : ExecutionPhase) : string :=
  match phase with Prefill => "prefill" | Decode => "decode" end.

(** [DashboardState::push_recent]. *)
Definition push_recent (line : string) (s : DashboardState) : DashboardState :=
  let recent := ds_recent s ++ [line] in
  with_recent (if 5 <? length recent then tail recent else recent) s.

Definition add_communication (bytes : N) (s : DashboardState) : DashboardState :=
  with_communication (sat_add (ds_communication_bytes s) bytes) s.

(** What an event does to the view of its rank. *)
Definition view_apply (e : TimedEvent) (v : RankView) : RankView :=
  match event_kind (published_event (timed e)) with
  | ModelLoadStarted => set_state "LOADING" v
  | ModelLoadFinished => set_state "READY" v
  | LayerStarted layer phase _ => set_state "COMPUTE" (set_phase (phase_name phase) (set_layer layer v))
  | LayerCompleted layer _ _ => set_state "READY" (set_compute (duration_ns e) (set_layer layer v))
  | TensorSent _ _ _ _ _ _ => set_state "SEND" (set_communication (duration_ns e) v)
  | TensorReceived _ _ _ _ _ _ => set_state "RECV" (set_communication (duration_ns e) v)
  | ControlSent _ _ _ _ _ => set_state "SEND CTRL" (set_communication (duration_ns e) v)
  | ControlReceived _ _ _ _ _ => set_state "RECV CTRL" (set_communication (duration_ns e) v)
  | CollectiveStarted _ _ => set_state "BARRIER" v
  | CollectiveCompleted _ _ => set_state "READY" v
  | TensorCollectiveStarted collective _ sequence _ =>
      set_state (to_ascii_uppercase collective +:+ " #" +:+ pretty sequence) v
  | TensorCollectiveCompleted _ _ _ _ => set_communication (duration_ns e) (set_state "READY" v)
  | MemorySample current limit => set_memory current limit v
  | PrefillStarted _ => set_started (elapsed_ns e) (set_phase "prefill" v)
  | PrefillFinished => set_state "READY" v
  | DecodeStepStarted _ => set_started (elapsed_ns e) (set_phase "decode" v)
  | DecodeStepFinished _ => set_state "READY" v
  | GenerationFinished _ => set_state "DONE" v
  | TokenGenerated _ _ | ArtifactResolutionStarted | ArtifactResolutionFinished => v
  end.

(** What it does to the rest of the state, given the view before it. *)
Definition state_apply (rank : nat) (v : RankView) (e : TimedEvent) (s : DashboardState) : DashboardState :=
  let rank_text := "rank " +:+ pretty (N.of_nat rank) in
  match event_kind (published_event (timed e)) with
  | TensorSent _ _ _ _ _ bytes | ControlSent _ _ _ _ bytes => add_communication bytes s
  | TensorCollectiveStarted collective algorithm sequence _ =>
      push_recent (rank_text +:+ ": " +:+ algorithm +:+ " " +:+ collective +:+ " #" +:+ pretty sequence) s
  | TensorCollectiveCompleted collective _ sent_bytes _ =>
      push_recent (rank_text +:+ ": " +:+ collective +:+ " complete") (add_communication sent_bytes s)
  | PrefillStarted _ => if rank =? 0 then with_prefill (ds_prefill_ns s) (Some (elapsed_ns e)) s else s
  | PrefillFinished =>
      if rank =? 0
      then with_prefill ((fun started => sat_sub (elapsed_ns e) started) <$> view_phase_started v) (ds_prefill_started s) s
      else s
  | DecodeStepFinished _ =>
      if rank =? 0 then
        let duration := default 0%N ((fun started => sat_sub (elapsed_ns e) started) <$> view_phase_started v) in
        let total := sat_add (ds_decode_total s) duration in
        let count := sat_add (ds_decode_count s) 1 in
        with_decode (Some (total / count)%N) total count s
      else s
  | TokenGenerated token_id _ =>
      let first := if (rank =? 0) && match ds_first_token_ns s with None => true | Some _ => false end
                   then (fun started => sat_sub (elapsed_ns e) started) <$> ds_prefill_started s
                   else ds_first_token_ns s in
      push_recent (rank_text +:+ " generated token " +:+ pretty token_id)
        (with_tokens (add64 (ds_generated_tokens s) 1) first s)
  | GenerationFinished stop_reason => push_recent (rank_text +:+ " finished: " +:+ stop_reason_display stop_reason) s
  | _ => s
  end.

(** [DashboardState::apply]. *)
Definition dashboard_apply (s : DashboardState) (e : TimedEvent) : DashboardState :=
  let rank := event_rank (published_event (timed e)) in
  match ds_ranks s !! rank with
  | None => push_recent ("ignored event from unknown rank " +:+ pretty (N.of_nat rank)) s
  | Some v => state_apply rank v e (with_ranks (<[rank := view_apply e v]> (ds_ranks s)) s)
  end.

(** ** The loop *)

(** [enum DashboardExit], and the keys that end the loop. *)
Inductive DashboardExit : Type := Finished | Disabled | Interrupted.
Record KeyPress : Type := mkKey { press : bool; is_quit : bool; is_c : bool; control : bool }.

(** [event::poll] and [event::read]. *)
Inductive polled : Type := NoKey | OtherInput | Key (key : KeyPress) | PollFailed (message : string).

(** A step: an event, the end of the producer and its last frame, all senders
    gone, or no message, a frame and the keyboard. *)
Inductive dashboard_step : Type :=
| ReceivedEvent (e : TimedEvent) | ReceivedFinished (drawn : result string unit)
| ReceivedDisconnected | ReceivedNothing (drawn : result string unit) (input : polled).

Definition key_exit (key : KeyPress) : option DashboardExit :=
  if press key && is_quit key then Some Disabled
  else if press key && is_c key && control key then Some Interrupted else None.

(** The two loops of [run_dashboard]; [None] when they still run. *)
Fixpoint dashboard_loop (s : DashboardState) (steps : list dashboard_step)
  : DashboardState * option (result string DashboardExit) :=
  match steps with
  | [] => (s, None)
  | ReceivedEvent e :: steps => dashboard_loop (dashboard_apply s e) steps
  | ReceivedFinished drawn :: _ => (s, Some (_ ← drawn; Ok Finished))
  | ReceivedDisconnected :: _ => (s, Some (Ok Finished))
  | ReceivedNothing drawn input :: steps =>
      match drawn, input with
      | Err e, _ => (s, Some (Err e))
      | Ok _, PollFailed e => (s, Some (Err e))
      | Ok _, Key key =>
          match key_exit key with Some exit => (s, Some (Ok exit)) | None => dashboard_loop s steps end
      | Ok _, _ => dashboard_loop s steps
      end
  end.

(** ** The terminal *)

(** What [TerminalGuard] changes. *)
Record TerminalModes : Type := mkModes { raw_mode : bool; alternate_screen : bool }.

(** [TerminalGuard::enter], given what its three calls return; giving raw mode
    back, here and in the drop, is taken to work: its result is ignored. *)
Definition terminal_enter (raw alternate terminal : result string unit) (t : TerminalModes)
  : result string unit * TerminalModes :=
  match raw with
  | Err e => (Err e, t)
  | Ok _ =>
      let t := mkModes true (alternate_screen t) in
      match alternate with
      | Err e => (Err e, mkModes false (alternate_screen t))
      | Ok _ =>
          let t := mkModes (raw_mode t) true in
          (terminal, t)
      end
  end.

(** [Drop for TerminalGuard]. *)
Definition terminal_drop (t : TerminalModes) : TerminalModes := mkModes false false.

(** [run_dashboard]: the guard is dropped on every exit of the loop. *)
Definition run_dashboard (raw alternate terminal : result string unit) (s : DashboardState)
  (steps : list dashboard_step) (t : TerminalModes)
  : DashboardState * option (result string DashboardExit) * TerminalModes :=
  match terminal_enter raw alternate terminal t with
  | (Err e, t) => (s, Some (Err e), t)
  | (Ok _, t) =>
      let (s, exit) := dashboard_loop s steps in
      (s, exit, match exit with Some _ => terminal_drop t | None => t end)
  end.
