(* ===== verification/DashboardProofs.v ===== *)
(** * The dashboard's reducer, loop and terminal

    Events of different ranks commute; the totals are sums over the events; the
    loop returns for its stated reasons and the guard gives the terminal back.
    The witnesses run two ranks. *)
From S2P Require Import Prelude Text Rank Registry Memory Partition Shard Protocol Report Collect Dashboard.

(** ** The order of events of different ranks does not matter

    States are compared up to the recent lines. *)
Definition same_state (s s' : DashboardState) : Prop := with_recent [] s = with_recent [] s'.
#[global] Instance same_state_equivalence : Equivalence same_state.
Proof. unfold same_state. split; [done|by intros ? ? ?|intros ? ? ?; congruence]. Qed.

Lemma same_recent s recent : same_state (with_recent recent s) s.
Proof. done. Qed.
Lemma same_push line s : same_state (push_recent line s) s.
Proof. done. Qed.

(** The part of the state rank 0 moves: prefill, decode and the first token. *)
Record Head : Type := mkHead
  { h_prefill : option N; h_started : option N; h_decode : option N; h_total : N; h_count : N; h_first : option N }.
Definition head_of (s : DashboardState) : Head :=
  mkHead (ds_prefill_ns s) (ds_prefill_started s) (ds_decode_ns s) (ds_decode_total s) (ds_decode_count s)
    (ds_first_token_ns s).
Definition head_apply (v : RankView) (e : TimedEvent) (h : Head) : Head :=
  match event_kind (published_event (timed e)) with
  | PrefillStarted _ => mkHead (h_prefill h) (Some (elapsed_ns e)) (h_decode h) (h_total h) (h_count h) (h_first h)
  | PrefillFinished =>
      mkHead ((fun started => sat_sub (elapsed_ns e) started) <$> view_phase_started v) (h_started h) (h_decode h)
        (h_total h) (h_count h) (h_first h)
  | DecodeStepFinished _ =>
      let total := sat_add (h_total h) (default 0%N ((fun started => sat_sub (elapsed_ns e) started) <$> view_phase_started v)) in
      let count := sat_add (h_count h) 1 in
      mkHead (h_prefill h) (h_started h) (Some (total / count)%N) total count (h_first h)
  | TokenGenerated _ _ =>
      mkHead (h_prefill h) (h_started h) (h_decode h) (h_total h) (h_count h)
        (match h_first h with
         | None => (fun started => sat_sub (elapsed_ns e) started) <$> h_started h
         | Some _ => h_first h
         end)
  | _ => h
  end.

(** The bytes an event counts, and whether it is a token. *)
Definition sent_of (e : TimedEvent) : option N :=
  match event_kind (published_event (timed e)) with
  | TensorSent _ _ _ _ _ bytes | ControlSent _ _ _ _ bytes | TensorCollectiveCompleted _ _ bytes _ => Some bytes
  | _ => None
  end.
Definition is_token (e : TimedEvent) : bool :=
  match event_kind (published_event (timed e)) with TokenGenerated _ _ => true | _ => false end.
Definition rank_of (e : TimedEvent) : nat := event_rank (published_event (timed e)).

Definition with_totals (s : DashboardState) (ranks : list RankView) (bytes tokens : N) (h : Head) : DashboardState :=
  mkDashboard (ds_model s) (ds_backend s) (ds_world_size s) (ds_tensor_parallel s) (ds_pipeline_parallel s)
    (ds_expert_parallel s) (ds_all_reduce s) (ds_assignment_label s) ranks (h_prefill h) (h_decode h)
    (h_first h) bytes tokens [] (h_total h) (h_count h) (h_started h).

Definition counted_bytes (bytes : N) (e : TimedEvent) : N :=
  match sent_of e with Some sent => sat_add bytes sent | None => bytes end.
Definition counted_tokens (tokens : N) (e : TimedEvent) : N := if is_token e then add64 tokens 1 else tokens.

Lemma apply_known s e v : ds_ranks s !! rank_of e = Some v ->
  with_recent [] (dashboard_apply s e) =
  with_totals s (<[rank_of e := view_apply e v]> (ds_ranks s)) (counted_bytes (ds_communication_bytes s) e)
    (counted_tokens (ds_generated_tokens s) e)
    (if rank_of e =? 0 then head_apply v e (head_of s) else head_of s).
Proof.
  intros Hv. unfold dashboard_apply. fold (rank_of e). rewrite Hv.
  unfold state_apply, counted_bytes, counted_tokens, sent_of, is_token, head_apply.
  destruct (event_kind _); destruct (rank_of e =? 0); try reflexivity.
  destruct s as [? ? ? ? ? ? ? ? ? ? ? first]. by destruct first.
Qed.

Lemma apply_unknown s e : ds_ranks s !! rank_of e = None -> same_state (dashboard_apply s e) s.
Proof. intros Hv. unfold dashboard_apply. fold (rank_of e). by rewrite Hv. Qed.

Lemma same_fields s s' : same_state s s' -> ds_ranks s = ds_ranks s' /\
  (forall ranks bytes tokens h, with_totals s ranks bytes tokens h = with_totals s' ranks bytes tokens h) /\
  ds_communication_bytes s = ds_communication_bytes s' /\ ds_generated_tokens s = ds_generated_tokens s' /\
  head_of s = head_of s'.
Proof.
  destruct s, s'. unfold same_state, with_recent. cbn. intros [=]; subst. by split_and!.
Qed.

#[global] Instance dashboard_apply_proper : Proper (same_state ==> eq ==> same_state) dashboard_apply.
Proof.
  intros s s' Hs e _ <-. destruct (same_fields s s' Hs) as (H1 & H2 & H3 & H4 & H5).
  destruct (ds_ranks s !! rank_of e) as [v|] eqn:E.
  - unfold same_state. erewrite (apply_known s) by exact E. rewrite H1 in E. erewrite (apply_known s') by exact E.
    by rewrite H1, H2, H3, H4, H5.
  - transitivity s; [by apply apply_unknown|]. rewrite H1 in E. rewrite (apply_unknown s' e E). done.
Qed.

Lemma counted_bytes_comm bytes e e' :
  counted_bytes (counted_bytes bytes e) e' = counted_bytes (counted_bytes bytes e') e.
Proof. unfold counted_bytes, sat_add. destruct (sent_of e), (sent_of e'); lia. Qed.
Lemma counted_tokens_comm tokens e e' :
  counted_tokens (counted_tokens tokens e) e' = counted_tokens (counted_tokens tokens e') e.
Proof. unfold counted_tokens. by destruct (is_token e), (is_token e'). Qed.

Lemma apply_ranks s e : ds_ranks (dashboard_apply s e) =
  match ds_ranks s !! rank_of e with
  | Some v => <[rank_of e := view_apply e v]> (ds_ranks s)
  | None => ds_ranks s
  end.
Proof.
  destruct (ds_ranks s !! rank_of e) as [v|] eqn:E.
  - exact (f_equal ds_ranks (apply_known s e v E)).
  - exact (f_equal ds_ranks (apply_unknown s e E)).
Qed.

(** Events of different ranks commute. *)
Lemma apply_commutes s e e' : rank_of e <> rank_of e' ->
  same_state (dashboard_apply (dashboard_apply s e) e') (dashboard_apply (dashboard_apply s e') e).
Proof.
  intros Hne.
  destruct (ds_ranks s !! rank_of e) as [v|] eqn:E; cycle 1.
  { rewrite (apply_unknown s e E). symmetry. apply apply_unknown. rewrite apply_ranks.
    destruct (ds_ranks s !! rank_of e') as [v'|]; [by rewrite list_lookup_insert_ne|done]. }
  destruct (ds_ranks s !! rank_of e') as [v'|] eqn:E'; cycle 1.
  { rewrite (apply_unknown s e' E'). apply apply_unknown. rewrite apply_ranks, E. by rewrite list_lookup_insert_ne. }
  unfold same_state.
  rewrite (apply_known (dashboard_apply s e) e' v') by (rewrite apply_ranks, E; by rewrite list_lookup_insert_ne).
  rewrite (apply_known (dashboard_apply s e') e v) by (rewrite apply_ranks, E'; by rewrite list_lookup_insert_ne).
  assert (forall f v, ds_ranks s !! rank_of f = Some v -> same_state (dashboard_apply s f)
    (with_totals s (<[rank_of f := view_apply f v]> (ds_ranks s)) (counted_bytes (ds_communication_bytes s) f)
       (counted_tokens (ds_generated_tokens s) f) (if rank_of f =? 0 then head_apply v f (head_of s) else head_of s))) as Hf.
  { intros f w Hw. unfold same_state. rewrite (apply_known s f w Hw). done. }
  destruct (same_fields _ _ (Hf e v E)) as (H1 & H2 & H3 & H4 & H5).
  destruct (same_fields _ _ (Hf e' v' E')) as (H6 & H7 & H8 & H9 & H10).
  rewrite H1, H2, H3, H4, H5, H6, H7, H8, H9, H10. cbn [ds_ranks ds_communication_bytes ds_generated_tokens with_totals].
  rewrite counted_bytes_comm, counted_tokens_comm, list_insert_insert_ne by done.
  unfold with_totals at 1 3. cbn [ds_model ds_backend ds_world_size ds_tensor_parallel ds_pipeline_parallel
    ds_expert_parallel ds_all_reduce ds_assignment_label with_totals].
  destruct (Nat.eqb_spec (rank_of e) 0), (Nat.eqb_spec (rank_of e') 0); [congruence|..]; reflexivity.
Qed.

Definition of_rank (r : nat) (es : list TimedEvent) : list TimedEvent := filter (fun e => rank_of e = r) es.

Lemma apply_moves before e after s : Forall (fun e' => rank_of e' <> rank_of e) before ->
  same_state (foldl dashboard_apply s (before ++ e :: after)) (foldl dashboard_apply s (e :: before ++ after)).
Proof.
  revert s. induction before as [|e' before IH]; intros s H; [done|].
  apply List.Forall_cons_iff in H as [Hne H]. cbn [app foldl].
  transitivity (foldl dashboard_apply (dashboard_apply s e') (e :: before ++ after)); [by apply IH|].
  cbn [foldl]. generalize (before ++ after). intros l.
  assert (same_state (dashboard_apply (dashboard_apply s e') e) (dashboard_apply (dashboard_apply s e) e')) as Hc
    by (by apply apply_commutes).
  revert Hc. generalize (dashboard_apply (dashboard_apply s e') e), (dashboard_apply (dashboard_apply s e) e').
  induction l as [|e1 l IHl]; intros a b Hab; [done|]. cbn. apply IHl. by rewrite Hab.
Qed.

Lemma first_of_rank r e es es' : of_rank r es' = e :: es -> exists before after,
  es' = before ++ e :: after /\ Forall (fun e' => rank_of e' <> r) before /\ rank_of e = r /\ of_rank r after = es.
Proof.
  induction es' as [|e' es' IH]; [done|]. unfold of_rank in *. destruct (decide (rank_of e' = r)) as [Hr|Hr].
  - rewrite filter_cons_True by done. intros [= -> H]. exists [], es'. by split_and!.
  - rewrite filter_cons_False by done. intros H. destruct (IH H) as (before & after & -> & H1 & H2 & H3).
    exists (e' :: before), after. split; [done|]. split; [by constructor|done].
Qed.

(** C40: The state of the dashboard, its recent lines apart, depends only on what each
    rank published in its own order: however the launcher interleaves the ranks,
    the views, the times, the bytes and the tokens are the same. *)
Theorem dashboard_interleaving s es es' : (forall r, of_rank r es = of_rank r es') ->
  same_state (foldl dashboard_apply s es) (foldl dashboard_apply s es').
Proof.
  revert s es'. induction es as [|e es IH]; intros s es' H.
  - destruct es' as [|e' es']; [done|]. specialize (H (rank_of e')). unfold of_rank in H.
    by rewrite filter_cons_True in H.
  - pose proof (H (rank_of e)) as He. unfold of_rank at 1 in He. rewrite filter_cons_True in He by done.
    symmetry in He. destruct (first_of_rank _ _ _ _ He) as (before & after & -> & H1 & _ & H3).
    transitivity (foldl dashboard_apply s (e :: before ++ after)); [|symmetry; by apply apply_moves].
    cbn [foldl]. apply IH. intros r. specialize (H r). unfold of_rank in *.
    rewrite list.filter_app in *. destruct (decide (rank_of e = r)) as [Hr|Hr].
    + rewrite !filter_cons_True in H by done.
      rewrite (filter_nothing _ before) in H |- * by
        (intros x Hx Hxr; rewrite List.Forall_forall in H1; apply list_elem_of_In in Hx; apply (H1 x Hx); congruence).
      by injection H.
    + by rewrite !filter_cons_False in H.
Qed.

(** ** What stays within bounds *)

(** The rows of the table keep their ranks, assignments and planned memory. *)
Definition row_of (v : RankView) : nat * string * N := (view_rank v, view_layers v, view_logical_memory v).
Record dashboard_ok (rows : list (nat * string * N)) (s : DashboardState) : Prop := mkDashboardOk
  { do_rows : map row_of (ds_ranks s) = rows;
    do_recent : length (ds_recent s) <= 5;
    do_bytes : (ds_communication_bytes s <= U64_MAX)%N;
    do_decode : match ds_decode_ns s with
                | Some mean => (0 < ds_decode_count s <= U64_MAX)%N /\ mean = (ds_decode_total s / ds_decode_count s)%N
                | None => ds_decode_count s = 0%N
                end }.

Lemma view_keeps_row e v : row_of (view_apply e v) = row_of v.
Proof. unfold view_apply. by destruct (event_kind _). Qed.

Lemma push_ok rows line s : dashboard_ok rows s -> dashboard_ok rows (push_recent line s).
Proof.
  intros [H1 H2 H3 H4]. split; [done| |done..]. unfold push_recent. cbn [ds_recent with_recent].
  destruct (Nat.ltb_spec 5 (length (ds_recent s ++ [line]))) as [H|H]; [|done].
  rewrite length_app in H. cbn in H. destruct (ds_recent s) as [|x l]; cbn in *; [lia|]. rewrite length_app. cbn. lia.
Qed.

Lemma state_apply_ok rows rank v e s : dashboard_ok rows s -> dashboard_ok rows (state_apply rank v e s).
Proof.
  intros Hok. pose proof Hok as [H1 H2 H3 H4]. unfold state_apply.
  destruct (event_kind _); try done; try (by apply push_ok);
    try (destruct (rank =? 0); [|done]); try (apply push_ok); try (by split).
  - split; [done..| |done]. cbn. unfold sat_add. lia.
  - split; [done..| |done]. cbn. unfold sat_add. lia.
  - split; [done..| |done]. cbn. unfold sat_add. lia.
  - split; [done..|]. cbn. unfold sat_add. split; [|done]. unfold U64_MAX, U64. lia.
Qed.

(** From a new dashboard on: at most five recent lines, the rows of the plan, no
    overflow of the bytes, and a mean over at least one decode step. *)
Lemma dashboard_stays_ok rows s es : dashboard_ok rows s -> dashboard_ok rows (foldl dashboard_apply s es).
Proof.
  revert s. induction es as [|e es IH]; intros s Hs; [done|]. cbn [foldl]. apply IH.
  unfold dashboard_apply. destruct (ds_ranks s !! _) as [v|] eqn:E; [|by apply push_ok].
  apply state_apply_ok. destruct Hs as [H1 H2 H3 H4]. split; [|done..]. cbn [ds_ranks with_ranks].
  rewrite <- H1. apply list_eq. intros i. rewrite !list_lookup_fmap.
  destruct (decide (i = event_rank (published_event (timed e)))) as [->|Hne].
  - rewrite list_lookup_insert_eq by (by eapply lookup_lt_Some). rewrite E. cbn. by rewrite view_keeps_row.
  - by rewrite list_lookup_insert_ne.
Qed.

(** ** What the totals are *)
Definition known (s : DashboardState) (e : TimedEvent) : bool := rank_of e <? length (ds_ranks s).
Definition decode_finished (e : TimedEvent) : bool :=
  (rank_of e =? 0) && match event_kind (published_event (timed e)) with DecodeStepFinished _ => true | _ => false end.
Definition totals_of (s : DashboardState) : N * N * N :=
  (ds_communication_bytes s, ds_generated_tokens s, ds_decode_count s).
Definition totals_step (t : N * N * N) (e : TimedEvent) : N * N * N :=
  (counted_bytes t.1.1 e, counted_tokens t.1.2 e, if decode_finished e then sat_add t.2 1 else t.2).

Lemma apply_totals s e :
  totals_of (dashboard_apply s e) = if known s e then totals_step (totals_of s) e else totals_of s.
Proof.
  unfold known. destruct (ds_ranks s !! rank_of e) as [v|] eqn:E.
  - pose proof (lookup_lt_Some _ _ _ E) as Hl. apply Nat.ltb_lt in Hl. rewrite Hl.
    transitivity (totals_of (with_recent [] (dashboard_apply s e))); [done|]. rewrite (apply_known s e v E).
    unfold totals_step, decode_finished, head_apply. destruct (rank_of e =? 0); [|done]. by destruct (event_kind _).
  - pose proof (lookup_ge_None_1 _ _ E) as Hl. apply Nat.ltb_ge in Hl. rewrite Hl.
    exact (f_equal totals_of (apply_unknown s e E)).
Qed.

Lemma apply_length s e : length (ds_ranks (dashboard_apply s e)) = length (ds_ranks s).
Proof. rewrite apply_ranks. destruct (_ !! _); [by rewrite length_insert|done]. Qed.

Lemma totals_fold s es :
  totals_of (foldl dashboard_apply s es) = foldl totals_step (totals_of s) (filter (known s) es).
Proof.
  revert s. induction es as [|e es IH]; intros s; [done|]. cbn [foldl]. rewrite IH, apply_totals.
  rewrite (list_filter_iff (known (dashboard_apply s e)) (known s)) by (intros f; unfold known; by rewrite apply_length).
  rewrite filter_cons. destruct (decide _) as [E|E]; destruct (known s e); done.
Qed.

(** The sum of what a list adds, saturating or wrapping. *)
Lemma foldl_bytes bytes es : (bytes <= U64_MAX)%N ->
  foldl counted_bytes bytes es = N.min (bytes + sumN (omap sent_of es)) U64_MAX.
Proof.
  revert bytes. induction es as [|e es IH]; intros bytes Hb; [cbn; lia|]. cbn [foldl].
  unfold counted_bytes at 2, sat_add. cbn [omap list_omap]. destruct (sent_of e) as [sent|]; cbn [sumN]; rewrite IH; lia.
Qed.
Lemma foldl_tokens tokens es : foldl counted_tokens (wrap64 tokens) es = wrap64 (tokens + lenN (filter is_token es)).
Proof.
  revert tokens. induction es as [|e es IH]; intros tokens; cbn [foldl]; [by rewrite N.add_0_r|].
  unfold counted_tokens at 2. rewrite filter_cons. destruct (decide _) as [E|E]; destruct (is_token e); try done.
  unfold add64. rewrite wrap64_add_l, IH, lenN_cons. f_equal. lia.
Qed.
Lemma foldl_decodes count es : (count <= U64_MAX)%N ->
  foldl (fun count e => if decode_finished e then sat_add count 1 else count) count es =
  N.min (count + lenN (filter decode_finished es)) U64_MAX.
Proof.
  revert count. induction es as [|e es IH]; intros count Hc; cbn [foldl]; [unfold lenN; cbn; lia|].
  rewrite filter_cons. unfold sat_add at 2. destruct (decide _) as [E|E]; destruct (decode_finished e); try done; rewrite IH by lia;
    rewrite ?lenN_cons; lia.
Qed.
Lemma foldl_totals t es : foldl totals_step t es =
  (foldl counted_bytes t.1.1 es, foldl counted_tokens t.1.2 es,
   foldl (fun count e => if decode_finished e then sat_add count 1 else count) t.2 es).
Proof. revert t. induction es as [|e es IH]; intros [[? ?] ?]; [done|]. cbn [foldl]. by rewrite IH. Qed.

(** From a new dashboard on, whatever the events: the rows stay those of the plan, at
    most five lines are recent, the bytes are the sum of what the known ranks sent,
    saturating, the tokens are those they generated, wrapping, and the mean
    decode time is over exactly the steps rank 0 finished. *)
Theorem dashboard_totals s es :
  ds_recent s = [] -> ds_communication_bytes s = 0%N -> ds_generated_tokens s = 0%N ->
  ds_decode_ns s = None -> ds_decode_count s = 0%N ->
  let s' := foldl dashboard_apply s es in
  let seen := filter (known s) es in
  map row_of (ds_ranks s') = map row_of (ds_ranks s) /\ length (ds_recent s') <= 5 /\
  ds_communication_bytes s' = N.min (sumN (omap sent_of seen)) U64_MAX /\
  ds_generated_tokens s' = wrap64 (lenN (filter is_token seen)) /\
  ds_decode_count s' = N.min (lenN (filter decode_finished seen)) U64_MAX /\
  ds_decode_ns s' = (if (ds_decode_count s' =? 0)%N then None else Some (ds_decode_total s' / ds_decode_count s')%N).
Proof.
  intros Hr Hb Ht Hd Hc s' seen.
  assert (dashboard_ok (map row_of (ds_ranks s)) s') as [H1 H2 _ H3].
  { apply dashboard_stays_ok. split; [done|rewrite Hr; cbn; lia|rewrite Hb; apply N.le_0_l|by rewrite Hd]. }
  pose proof (totals_fold s es) as H. fold s' seen in H. unfold totals_of at 2 in H. rewrite Hb, Ht, Hc, foldl_totals in H.
  cbn [fst snd] in H. rewrite foldl_bytes, foldl_decodes in H by apply N.le_0_l.
  change (foldl counted_tokens 0%N seen) with (foldl counted_tokens (wrap64 0) seen) in H. rewrite foldl_tokens in H.
  injection H as Hb' Ht' Hc'. split_and!; try done.
  destruct (ds_decode_ns s') as [mean|]; [|by rewrite H3]. destruct H3 as [[H3 _] ->].
  destruct (N.eqb_spec (ds_decode_count s') 0); [lia|done].
Qed.

(** ** The loop and the terminal *)

(** What a step makes of the loop, and the events received. *)
Definition step_exit (step : dashboard_step) : option (result string DashboardExit) :=
  match step with
  | ReceivedEvent _ => None
  | ReceivedFinished drawn => Some (_ ← drawn; Ok Finished)
  | ReceivedDisconnected => Some (Ok Finished)
  | ReceivedNothing (Err e) _ => Some (Err e)
  | ReceivedNothing (Ok _) (PollFailed e) => Some (Err e)
  | ReceivedNothing (Ok _) (Key key) => Ok <$> key_exit key
  | ReceivedNothing (Ok _) _ => None
  end.
Definition events_of (steps : list dashboard_step) : list TimedEvent :=
  omap (fun step => match step with ReceivedEvent e => Some e | _ => None end) steps.

Lemma dashboard_loop_spec s steps : exists before after,
  steps = before ++ after /\ Forall (fun step => step_exit step = None) before /\
  dashboard_loop s steps = (foldl dashboard_apply s (events_of before), after !! 0 ≫= step_exit) /\
  (after <> [] -> after !! 0 ≫= step_exit <> None).
Proof.
  revert s. induction steps as [|step steps IH]; intros s; [by exists [], []|].
  destruct (step_exit step) as [exit|] eqn:E.
  - exists [], (step :: steps). split_and!; [done|done| |by cbn; rewrite E]. cbn. rewrite E.
    destruct step as [e|[[]|]| |[[]|] [| |key|]]; cbn in *; try done; try (by injection E as <-).
    destruct (key_exit key); [by injection E as <-|done].
  - destruct (IH (match step with ReceivedEvent e => dashboard_apply s e | _ => s end)) as (before & after & H1 & H2 & H3 & H4).
    exists (step :: before), after. split_and!; [by rewrite H1|by constructor| |done].
    destruct step as [e|[[]|]| |[[]|] [| |key|]]; cbn in *; try done. by destruct (key_exit key).
Qed.

(** The dashboard only watches: when it returns it has applied the events received
    until then, in their order, and it returns at the first step that ends it - the
    producer's end, a quit key, Ctrl-C or a failure - and for no other reason.  It gives the
    terminal back, except when the terminal cannot be opened after the alternate
    screen was entered: then raw mode and the alternate screen stay. *)
Lemma dashboard_returns raw alternate terminal s steps t :
  raw_mode t = false -> alternate_screen t = false ->
  let '(s', exit, t') := run_dashboard raw alternate terminal s steps t in
  (exit <> None -> (t' = t <-> ~ (is_ok raw = true /\ is_ok alternate = true /\ is_ok terminal = false))) /\
  (is_ok raw = true -> is_ok alternate = true -> is_ok terminal = false -> t' = mkModes true true) /\
  (is_ok raw = true -> is_ok alternate = true -> is_ok terminal = true -> exists before after,
     steps = before ++ after /\ Forall (fun step => step_exit step = None) before /\
     s' = foldl dashboard_apply s (events_of before) /\ exit = after !! 0 ≫= step_exit /\
     (after <> [] -> exit <> None)).
Proof.
  intros Hr Ha. destruct t as [r a]. cbn in Hr, Ha. subst r a.
  destruct (dashboard_loop_spec s steps) as (before & after & H1 & H2 & H3 & H4).
  unfold run_dashboard, terminal_enter. destruct raw as [[]|e1], alternate as [[]|e2], terminal as [[]|e3]; cbn;
    try rewrite H3; split_and!; intros; try done; try naive_solver.
  destruct (after !! 0 ≫= step_exit); naive_solver.
Qed.

(** ** Witnesses: two ranks *)
Definition demo_dashboard : DashboardState :=
  mkDashboard "demo" "tcp" 2 1 2 1 None "Layers"
    [new_view 0 "0..1" 64 (Some 100%N); new_view 1 "1..2" 64 (Some 100%N)] None None None 0 0 [] 0 0 None.
Definition demo_event (sequence : N) (rank : nat) (elapsed duration : N) (kind : RunEventKind) : TimedEvent :=
  mkTimed (mkPipelineEvent 1 "run" "request" (mkEvent sequence rank kind)) elapsed duration.
Definition rank0_events : list TimedEvent :=
  [ demo_event 0 0 100 0 (PrefillStarted 4); demo_event 1 0 150 10 (TensorSent 1 Activation Prefill 0 [1; 4; 8] 128);
    demo_event 2 0 180 0 (TokenGenerated 3 "x"); demo_event 3 0 200 0 PrefillFinished;
    demo_event 4 0 300 0 (DecodeStepStarted 1); demo_event 5 0 360 0 (DecodeStepFinished 1);
    demo_event 6 0 400 0 (DecodeStepStarted 2); demo_event 7 0 440 0 (DecodeStepFinished 2) ].
Definition rank1_events : list TimedEvent :=
  [ demo_event 0 1 9 0 ModelLoadStarted; demo_event 1 1 11 7 (ControlSent 0 DecisionPurpose Decode 1 24);
    demo_event 2 1 15 0 (GenerationFinished Eos) ].
Fixpoint alternate (es es' : list TimedEvent) : list TimedEvent :=
  match es, es' with e :: es, e' :: es' => e :: e' :: alternate es es' | [], es' => es' | es, [] => es end.

Lemma dashboard_interleaving_witness :
  same_state (foldl dashboard_apply demo_dashboard (rank0_events ++ rank1_events))
    (foldl dashboard_apply demo_dashboard (alternate rank0_events rank1_events)).
Proof.
  apply dashboard_interleaving. intros r. destruct r as [|[|r]]; [reflexivity|reflexivity|].
  unfold of_rank. symmetry. repeat (rewrite filter_cons_False by (cbn; lia)). reflexivity.
Defined.

Lemma dashboard_totals_witness :
  let s := foldl dashboard_apply demo_dashboard (alternate rank0_events rank1_events) in
  ds_communication_bytes s = 152%N /\ ds_generated_tokens s = 1%N /\ ds_decode_ns s = Some 50%N /\
  ds_prefill_ns s = Some 100%N /\ ds_first_token_ns s = Some 80%N.
Proof.
  destruct (dashboard_totals demo_dashboard (alternate rank0_events rank1_events)
    eq_refl eq_refl eq_refl eq_refl eq_refl) as (_ & _ & H1 & H2 & H3 & H4).
  split; [etransitivity; [exact H1|reflexivity]|]. split; [etransitivity; [exact H2|reflexivity]|].
  split; [etransitivity; [exact H4|rewrite H3; reflexivity]|]. split; reflexivity.
Defined.
