(* ===== verification/Observe.v ===== *)
(** * Observed processes

    A process that keeps a record while it runs: the record is a state beside the
    result, kept when the process fails.  Two relations speak of such a process:
    [observes], which says that forgetting the record leaves a given process - so
    whatever a world of those does, a world of observed ones does too - and
    [yields], which says what a process that succeeds has noted, whatever it
    receives. *)
From S2P Require Import Prelude Rank Packet Mailbox World.

(** ** Processes with a record *)
Section Observed.
Context {S E : Type}.

Definition oproc (A : Type) : Type := S -> proc (result E A * S).
Definition oret {A} (r : result E A) : oproc A := fun s => Ret (r, s).
Definition otry {A B} (m : oproc A) (f : A -> oproc B) : oproc B := fun s =>
  @mbind proc _ _ _ (fun x => match x.1 with Ok a => f a x.2 | Err e => Ret (Err e, x.2) end) (m s).
(** A process that does not look at the record, and a note in it. *)
Definition ocall {A} (m : proc (result E A)) : oproc A := fun s =>
  @mbind proc _ _ _ (fun r => Ret (r, s)) m.
Definition onote (f : S -> S) : oproc unit := fun s => Ret (Ok tt, f s).
End Observed.
Arguments oproc : clear implicits.
(** [?] on a process with another error. *)
Definition oerr {S E F A} (f : E -> F) (m : oproc S E A) : oproc S F A := fun s =>
  @mbind proc _ _ _ (fun x => Ret (map_err f x.1, x.2)) (m s).

Declare Scope observe_scope.
Delimit Scope observe_scope with observe.
Notation "x ⟸ m ; k" := (otry m (fun x => k))
  (at level 20, m at level 100, k at level 200, right associativity) : observe_scope.

(** ** Forgetting the record *)
Inductive erases {A S} : proc A -> proc (A * S) -> Prop :=
| erases_ret a s : erases (Ret a) (Ret (a, s))
| erases_send d m k k' : (forall r, erases (k r) (k' r)) -> erases (Send d m k) (Send d m k')
| erases_recv s t k k' : (forall r, erases (k r) (k' r)) -> erases (Recv s t k) (Recv s t k')
| erases_recv_control s t k k' : (forall r, erases (k r) (k' r)) -> erases (RecvControl s t k) (RecvControl s t k')
| erases_exchange d m s t k k' : (forall a b, erases (k a b) (k' a b)) -> erases (Exchange d m s t k) (Exchange d m s t k')
| erases_barrier k k' : (forall r, erases (k r) (k' r)) -> erases (Barrier k) (Barrier k').

Lemma erases_bind {A B S T} (p : proc A) (q : proc (A * S)) (f : A -> proc B) (g : A * S -> proc (B * T)) :
  erases p q -> (forall a s, erases (f a) (g (a, s))) -> erases (p ≫= f) (q ≫= g).
Proof. intros Hpq Hfg. induction Hpq; cbn [mbind proc_bind]; [by apply Hfg|constructor; auto..]. Qed.

Lemma erases_keep {A S} (p : proc A) (s : S) : erases p (@mbind proc _ _ _ (fun a => Ret (a, s)) p).
Proof. induction p; cbn [mbind proc_bind]; constructor; auto. Qed.

Definition observes {S E A} (p : proc (result E A)) (m : oproc S E A) : Prop := forall s, erases p (m s).

Section Observes.
Context {S E : Type}.

Lemma observes_ret {A} (r : result E A) : observes (lift r) (@oret S E A r).
Proof. intros s. constructor. Qed.
Lemma observes_try {A B} (p : proc (result E A)) (m : oproc S E A) f (g : A -> oproc S E B) :
  observes p m -> (forall a, observes (f a) (g a)) -> observes (try_bind p f) (otry m g).
Proof.
  intros Hp Hf s. unfold try_bind, otry. apply erases_bind; [apply Hp|].
  intros [a|e] s'; cbn; [apply Hf|constructor].
Qed.
Lemma observes_call {A} (p : proc (result E A)) : observes p (@ocall S E A p).
Proof. intros s. apply erases_keep. Qed.
Lemma observes_note {A} (p : proc (result E A)) f (m : oproc S E A) :
  observes p m -> observes p (otry (onote f) (fun _ => m)).
Proof. intros Hp s. apply Hp. Qed.
Lemma observes_step {A} (p : proc (result E A)) (m : oproc S E A) (f : A -> oproc S E A) :
  observes p m -> (forall a, observes (lift (Ok a)) (f a)) -> observes p (otry m f).
Proof.
  intros Hp Hf s. unfold otry. specialize (Hp s). induction Hp as [a s1| | | | |]; cbn [mbind proc_bind]; try (constructor; auto).
  destruct a as [a|e]; cbn; [apply Hf|constructor].
Qed.
Lemma observes_err {F A} (f : E -> F) (p : proc (result E A)) (m : oproc S E A) :
  observes p m -> observes (proc_err f p) (oerr f m).
Proof. intros Hp s. unfold proc_err, oerr. apply erases_bind; [apply Hp|]. intros r s'. constructor. Qed.
End Observes.

(** An observed rank can do what the rank it observes can. *)
Lemma erases_local {A S} r (p p' : proc A) a (q : proc (A * S)) :
  local r p a p' -> erases p q -> exists q', local r q a q' /\ erases p' q'.
Proof.
  intros Hl He. destruct Hl; inversion He; subst; eexists; (split; [econstructor; eassumption|]);
    try (constructor; auto); auto.
Qed.

Lemma erases_exec {A S} r (p : proc A) tr a (q : proc (A * S)) :
  exec r p tr (Ret a) -> erases p q -> exists s, exec r q tr (Ret (a, s)).
Proof.
  intros H. remember (Ret a) as e eqn:He. revert q. induction H as [p|p act p' tr p'' Hl _ IH|k tr p' _ IH]; intros q Hq; subst.
  - inversion Hq; subst. eexists. constructor.
  - destruct (erases_local _ _ _ _ _ Hl Hq) as (q' & Hl' & Hq'). destruct (IH eq_refl q' Hq') as (s & Hs).
    exists s. by econstructor.
  - inversion Hq; subst. destruct (IH eq_refl (k' (Ok tt)) ltac:(auto)) as (s & Hs). exists s. by constructor.
Qed.

(** A world of observed ranks does what the world of ranks does. *)
Lemma together_erases {A S} (s0 : S) n (op : nat -> proc A) (op' : nat -> proc (A * S)) res :
  together n op res -> (forall i, i < n -> erases (op i) (op' i)) ->
  exists s, together n op' (fun i => (res i, s i)).
Proof.
  intros (tr & Hex & Hd) He.
  destruct (finite_choice s0 n (fun i s => exec (mkRank i n) (op' i) (tr i) (Ret (res i, s)))) as (s & Hs).
  { intros i Hi. by apply (erases_exec _ _ _ _ _ (Hex i Hi)), He. }
  exists s, tr. by split.
Qed.

(** ** What holds at the ends *)
Fixpoint leaves {A} (P : A -> Prop) (p : proc A) : Prop :=
  match p with
  | Ret a => P a
  | Send _ _ k => forall r, leaves P (k r)
  | Recv _ _ k => forall r, leaves P (k r)
  | RecvControl _ _ k => forall r, leaves P (k r)
  | Exchange _ _ _ _ k => forall a b, leaves P (k a b)
  | Barrier k => forall r, leaves P (k r)
  end.

Lemma leaves_bind {A B} (P : A -> Prop) (Q : B -> Prop) p (f : A -> proc B) :
  leaves P p -> (forall a, P a -> leaves Q (f a)) -> leaves Q (p ≫= f).
Proof. intros Hp Hf. induction p; cbn [mbind proc_bind leaves] in *; auto. Qed.
Lemma leaves_any {A} (p : proc A) : leaves (fun _ => True) p.
Proof. induction p; cbn; auto. Qed.
Lemma leaves_mono {A} (P Q : A -> Prop) p : leaves P p -> (forall a, P a -> Q a) -> leaves Q p.
Proof. intros Hp H. induction p; cbn in *; auto. Qed.

Lemma leaves_local {A} r (P : A -> Prop) (p p' : proc A) a : local r p a p' -> leaves P p -> leaves P p'.
Proof. destruct 1; cbn; auto. Qed.
Lemma leaves_exec {A} r (P : A -> Prop) (p : proc A) tr a : exec r p tr (Ret a) -> leaves P p -> P a.
Proof.
  intros H. remember (Ret a) as e eqn:He. induction H as [p|p act p' tr p'' Hl _ IH|k tr p' _ IH]; intros Hp; subst.
  - exact Hp.
  - apply IH; [done|]. by eapply leaves_local.
  - apply IH; [done|]. apply Hp.
Qed.

(** What a process that succeeds has added to its record, note by note, whatever it
    receives. *)
Section Yields.
Context {S E Note : Type} (emit : Note -> S -> S).

Definition noted (notes : list Note) (s : S) : S := fold_left (fun s n => emit n s) notes s.
Definition yields {A} (m : oproc S E A) (K : A -> list Note -> Prop) : Prop := forall s,
  leaves (fun x => match x.1 with Ok a => exists notes, x.2 = noted notes s /\ K a notes | Err _ => True end) (m s).

Lemma noted_app xs ys s : noted (xs ++ ys) s = noted ys (noted xs s).
Proof. apply fold_left_app. Qed.
Lemma yields_ret {A} (r : result E A) (K : A -> list Note -> Prop) :
  (forall a, r = Ok a -> K a []) -> yields (oret r) K.
Proof. intros H s. destruct r as [a|e]; cbn; [exists []; by split; [|apply H]|done]. Qed.
Lemma yields_try {A B} (m : oproc S E A) (K : A -> list Note -> Prop) (f : A -> oproc S E B) (K' : B -> list Note -> Prop) :
  yields m K -> (forall a xs, K a xs -> yields (f a) (fun b ys => K' b (xs ++ ys))) -> yields (otry m f) K'.
Proof.
  intros Hm Hf s. unfold otry. eapply leaves_bind; [exact (Hm s)|].
  intros [[a|e] s'] H; cbn in *; [|done]. destruct H as (xs & -> & Ha).
  eapply leaves_mono; [apply (Hf a xs Ha)|]. intros [[b|e] s']; cbn; [|done].
  intros (ys & -> & Hb). exists (xs ++ ys). split; [by rewrite noted_app|done].
Qed.
Lemma yields_note {A} n (m : oproc S E A) (K : A -> list Note -> Prop) :
  yields m (fun a notes => K a (n :: notes)) -> yields (otry (onote (emit n)) (fun _ => m)) K.
Proof.
  intros H. apply (yields_try _ (fun _ xs => xs = [n])); [|by intros [] xs ->].
  intros s. exists [n]. by split.
Qed.
(** Pure steps, and processes that do not look at the record, add nothing. *)
Lemma yields_pure {A B} (r : result E A) (f : A -> oproc S E B) (K : B -> list Note -> Prop) :
  (forall a, r = Ok a -> yields (f a) K) -> yields (otry (oret r) f) K.
Proof.
  intros H. apply (yields_try _ (fun a xs => r = Ok a /\ xs = [])); [by apply yields_ret|].
  intros a xs (Hr & ->). by apply H.
Qed.
Lemma yields_call {A B} (m : proc (result E A)) (f : A -> oproc S E B) (K : B -> list Note -> Prop) :
  (forall a, yields (f a) K) -> yields (otry (ocall m) f) K.
Proof.
  intros H. apply (yields_try _ (fun a xs => xs = [])); [|intros a xs ->; apply H].
  intros s. unfold ocall. eapply leaves_bind; [apply leaves_any|]. intros [a|e] _; cbn; [by exists []|done].
Qed.
Lemma yields_mono {A} (m : oproc S E A) (K K' : A -> list Note -> Prop) :
  yields m K -> (forall a xs, K a xs -> K' a xs) -> yields m K'.
Proof.
  intros Hm H s. eapply leaves_mono; [apply (Hm s)|]. intros [[a|e] s']; cbn; [|done].
  intros (xs & -> & Ha). exists xs. auto.
Qed.
End Yields.
Lemma yields_err {S E F Note A} (emit : Note -> S -> S) (f : E -> F) (m : oproc S E A) K :
  yields emit m K -> yields emit (oerr f m) K.
Proof.
  intros Hm s. unfold oerr. eapply leaves_bind; [apply (Hm s)|]. by intros [[a|e] s'].
Qed.
