(* ===== verification/PipelineEvents.v ===== *)
(** * The events of a pipeline rank

    [run_pipeline_rank] of [crates/pipeline/src/runner.rs] once more, with the
    recorder it carries: every notification at its place, the observer of the
    stage's layers of [crates/runtime/src/model/llama.rs] included.  Durations are
    not part of the events.  [PipelineEventsProofs] relates these definitions to
    those of [Pipeline], which they observe. *)
From S2P Require Import Prelude Rank Packet Mailbox World Tensor Registry Memory Partition Protocol.
From S2P Require Import Report Cache Kernels Llama Artifacts Generation Pipeline Collect Observe.
Local Open Scope observe_scope.

(** Code of a rank that may emit events; [recorder.emit]. *)
Abbreviation eproc := (oproc RankRecorder PipelineError).
Definition record (kind : RunEventKind) : eproc unit := onote (rank_emit kind).

Section Observed.
Context {FO : FloatOps} {KE : Kernels} {HO : HostSystem} {RT : Runtime} {JC : JsonCodec PipelineControl}.

(** ** The layers of a stage *)
Section Layers.
Context (phase : ExecutionPhase) (step : N).

(** [RankLayerObserver]. *)
Definition layer_started (layer : nat) : eproc unit := record (LayerStarted layer phase step).
Definition layer_completed (layer : nat) : eproc unit := record (LayerCompleted layer phase step).

(** The loop of [LlamaStage::forward_hidden] with its observer. *)
Fixpoint observe_blocks (layer_start : nat) (blocks : list Block) (layer : nat) (hidden : Tensor) (position : nat)
  (rope : RotaryEmbedding) (cache : KvCache) : eproc (Tensor * KvCache) :=
  match blocks with
  | [] => oret (Ok (hidden, cache))
  | block :: blocks =>
      _ ⟸ layer_started (layer_start + layer);
      r ⟸ oret (runtime (block_forward block hidden position layer rope cache));
      _ ⟸ layer_completed (layer_start + layer);
      observe_blocks layer_start blocks (S layer) r.1 position rope r.2
  end.

(** [LlamaStage::forward_hidden], [LlamaStage::forward_tokens]. *)
Definition observe_hidden (self : LlamaStage) (hidden : Tensor) (position : nat) (cache : KvCache)
  : eproc (Tensor * KvCache) :=
  d ⟸ oret (runtime (candle (dims3 hidden)));
  let batch := d.1.1 in
  let sequence := d.1.2 in
  _ ⟸ oret (runtime (reject_if (negb (Nat.eqb batch 1) || Nat.eqb sequence 0)
    (InvalidConfig ("pipeline activation must have shape [1,S,H] with S>0, got " +:+ debug_dims (dims hidden)))));
  _ ⟸ oret (runtime (reject_if (negb (Nat.eqb (cache_layer_count cache) (length (stage_blocks self))))
    (InvalidConfig ("stage has " +:+ pretty (length (stage_blocks self)) +:+ " blocks but cache has "
                      +:+ pretty (cache_layer_count cache) +:+ " layers"))));
  _ ⟸ oret (runtime (reject_if (negb (Nat.eqb position (cache_len cache)))
    (InvalidConfig ("forward position " +:+ pretty position +:+ " does not match cache length "
                      +:+ pretty (cache_len cache)))));
  _ ⟸ oret (runtime (reject_if (Nat.ltb (cache_capacity cache) (position + sequence))
    (CacheCapacityExceeded (N.of_nat (position + sequence)) (N.of_nat (cache_capacity cache)))));
  observe_blocks (stage_start self) (stage_blocks self) 0 hidden position (stage_rope self) cache.
Definition observe_tokens (self : LlamaStage) (token_ids : Tensor) (position : nat) (cache : KvCache)
  : eproc (Tensor * KvCache) :=
  table ⟸ oret (runtime (ok_or (stage_embeddings self)
    (InvalidConfig "only the first pipeline stage accepts token IDs")));
  d ⟸ oret (runtime (candle (dims2 token_ids)));
  _ ⟸ oret (runtime (reject_if (negb (Nat.eqb d.1 1) || Nat.eqb d.2 0)
    (InvalidConfig ("pipeline token input must have shape [1,S] with S>0, got " +:+ debug_dims (dims token_ids)))));
  hidden ⟸ oret (runtime (candle (embedding table token_ids)));
  observe_hidden self hidden position cache.
End Layers.

(** ** Transfers *)

(** [observed_barrier]. *)
Definition observed_barrier (generation : N) : eproc unit :=
  _ ⟸ record (CollectiveStarted RBarrier generation);
  _ ⟸ ocall (comm barrier);
  record (CollectiveCompleted RBarrier generation).

(** [send_activation], [recv_activation], [send_control], [recv_control]. *)
Definition observe_send_activation (destination : nat) (tensor : Tensor) (phase : ExecutionPhase) (step : N)
  (communication : CommunicationReport) : eproc CommunicationReport :=
  bytes ⟸ oret (tensor_bytes tensor);
  tag ⟸ oret (activation_tag step);
  _ ⟸ ocall (comm (send_tensor destination tag tensor));
  _ ⟸ record (TensorSent destination Activation phase step (dims tensor) bytes);
  oret (Ok (tensor_sent bytes communication)).
Definition observe_recv_activation (source : nat) (phase : ExecutionPhase) (step : N)
  (communication : CommunicationReport) : eproc (Tensor * CommunicationReport) :=
  tag ⟸ oret (activation_tag step);
  tensor ⟸ ocall (comm (recv_tensor source tag));
  bytes ⟸ oret (tensor_bytes tensor);
  _ ⟸ record (TensorReceived source Activation phase step (dims tensor) bytes);
  oret (Ok (tensor, tensor_received bytes communication)).
Definition observe_send_control (destination : nat) (tag : presult MessageTag) (control : PipelineControl)
  (purpose : ControlPurpose) (phase : ExecutionPhase) (step : N) (communication : CommunicationReport)
  : eproc CommunicationReport :=
  tag ⟸ oret tag;
  bytes ⟸ oret (encode control);
  _ ⟸ ocall (comm (send_control destination tag bytes));
  _ ⟸ record (ControlSent destination purpose phase step (lenN bytes));
  oret (Ok (control_sent (lenN bytes) communication)).
Definition observe_recv_control (source : nat) (tag : presult MessageTag) (purpose : ControlPurpose)
  (phase : ExecutionPhase) (step : N) (communication : CommunicationReport)
  : eproc (PipelineControl * CommunicationReport) :=
  tag ⟸ oret tag;
  bytes ⟸ ocall (comm (recv_control source tag));
  control ⟸ oret (decode bytes);
  _ ⟸ record (ControlReceived source purpose phase step (lenN bytes));
  oret (Ok (control, control_received (lenN bytes) communication)).
Fixpoint observe_send_decisions (destinations : list nat) (phase : ExecutionPhase) (step : N)
  (decision : PipelineDecision) (communication : CommunicationReport) : eproc CommunicationReport :=
  match destinations with
  | [] => oret (Ok communication)
  | destination :: destinations =>
      c ⟸ observe_send_control destination (decision_tag step) (Decision step decision) DecisionPurpose phase step
            communication;
      observe_send_decisions destinations phase step decision c
  end.

(** ** The step loop *)
Section Loop.
Context (manifest : PipelineManifest) (config : ModelConfig) (assignment : StageAssignment)
  (stage : LlamaStage) (tokenizer : option Tokenizer) (resources : ResourceSnapshot).

Let rank : nat := N.to_nat (stage_rank assignment).
Let world : nat := N.to_nat (stage_world_size assignment).

Definition observe_stage (s : RankState) : eproc (Tensor * KvCache * CommunicationReport) :=
  let position := cache_len (rank_cache s) in
  let phase := phase_of (rank_step s) in
  if Nat.eqb rank 0
  then
    input ⟸ oret (step_input manifest s);
    r ⟸ observe_tokens phase (rank_step s) stage input position (rank_cache s);
    oret (Ok (r, communication s))
  else
    h ⟸ observe_recv_activation (rank - 1) phase (rank_step s) (communication s);
    _ ⟸ oret (validate_activation h.1 (N.to_nat (hidden_size config)) phase);
    r ⟸ observe_hidden phase (rank_step s) stage h.1 position (rank_cache s);
    oret (Ok (r, h.2)).

Definition observe_hand_over (hidden : Tensor) (step : N) (c : CommunicationReport) : eproc CommunicationReport :=
  if Nat.ltb (rank + 1) world
  then observe_send_activation (rank + 1) hidden (phase_of step) step c
  else
    token ⟸ oret (choose_token stage hidden);
    observe_send_control 0 (token_tag step) (Token step token) TokenFeedback (phase_of step) step c.

(** Rank 0's decision on a token. *)
Definition observe_decide (token : N) (s : RankState) : eproc (PipelineDecision * RankState) :=
  if (token =? eos_token_id config)%N then oret (Ok (Stop Eos, s))
  else
    let generated := rank_generated s ++ [token] in
    piece ⟸ oret (match tokenizer with
                  | Some tokenizer => map_err PipelineTokenizer (tokenizer_step tokenizer (rank_generated s) token)
                  | None => Err (PipelineTokenizer "rank 0 has decoder")
                  end);
    _ ⟸ record (TokenGenerated token (default "" piece));
    let s := mkRankState (rank_cache s) (communication s) generated (Some token) (rank_forwards s) (rank_step s) in
    oret (Ok (if (manifest_effective manifest <=? N.of_nat (length generated))%N
              then Stop (if (manifest_effective manifest <? manifest_requested manifest)%N
                         then ContextLimit else MaxNewTokens)
              else Continue, s)).

Definition observe_agree (s : RankState) : eproc (PipelineDecision * RankState) :=
  let step := rank_step s in
  let phase := phase_of step in
  if Nat.eqb rank 0
  then
    m ⟸ observe_recv_control (world - 1) (token_tag step) TokenFeedback phase step (communication s);
    token ⟸ oret (expect_token m.1 step);
    d ⟸ observe_decide token (with_communication m.2 s);
    c ⟸ observe_send_decisions (seq 1 (world - 1)) phase step d.1 (communication d.2);
    oret (Ok (d.1, with_communication c d.2))
  else
    m ⟸ observe_recv_control 0 (decision_tag step) DecisionPurpose phase step (communication s);
    decision ⟸ oret (expect_decision m.1 step);
    oret (Ok (decision, with_communication m.2 s)).

Definition sample : RunEventKind := MemorySample (memory_current_bytes resources) (memory_limit_bytes resources).

(** One iteration of the loop, from the event that begins the step to the sample
    that follows its end. *)
Definition step_begins (step : N) : RunEventKind :=
  match phase_of step with
  | Prefill => PrefillStarted (N.of_nat (length (prompt_token_ids manifest)))
  | Decode => DecodeStepStarted step
  end.
Definition step_ends (step : N) : RunEventKind :=
  match phase_of step with Prefill => PrefillFinished | Decode => DecodeStepFinished step end.
Definition observe_round (s : RankState) : eproc (PipelineDecision * RankState) :=
  let forwards := match phase_of (rank_step s) with
                  | Prefill => rank_forwards s | Decode => add64 (rank_forwards s) 1 end in
  _ ⟸ record (step_begins (rank_step s));
  f ⟸ observe_stage s;
  c ⟸ observe_hand_over f.1.1 (rank_step s) f.2;
  d ⟸ observe_agree (mkRankState f.1.2 c (rank_generated s) (previous_token s) forwards (rank_step s));
  _ ⟸ record (step_ends (rank_step s));
  _ ⟸ record sample;
  oret (Ok d).

(** The loop; [None] is out of fuel. *)
Fixpoint observe_loop (fuel : nat) (s : RankState) : eproc (option (StopReason * RankState)) :=
  match fuel with
  | O => oret (Ok None)
  | S fuel =>
      d ⟸ observe_round s;
      match d.1 with
      | Stop reason => oret (Ok (Some (reason, d.2)))
      | Continue =>
          observe_loop fuel (mkRankState (rank_cache d.2) (communication d.2) (rank_generated d.2)
                               (previous_token d.2) (rank_forwards d.2) (add64 (rank_step d.2) 1))
      end
  end.
End Loop.

(** ** The rank *)

(** The end of [run_pipeline_rank]: text, last barrier, report. *)
Definition observe_finish (manifest : PipelineManifest) (resources : ResourceSnapshot) (assignment : StageAssignment)
  (memory : StageMemoryPlan) (spec : ModelSpec) (tokenizer : option Tokenizer) (reason : StopReason) (s : RankState)
  : eproc (option PipelineRankReport) :=
  text ⟸ oret (complete tokenizer (rank_generated s));
  _ ⟸ record (GenerationFinished reason);
  _ ⟸ observed_barrier 1;
  bytes ⟸ oret (runtime (used_bytes (rank_cache s) (config spec) (dtype_bytes (manifest_dtype manifest))));
  oret (Ok (Some
    {| pr_rank := N.to_nat (stage_rank assignment);
       pr_assignment := assignment;
       pr_memory := memory;
       pr_resources := resources;
       pr_final_kv_cache_bytes := bytes;
       pr_communication := communication s;
       pr_decode_forward_count := rank_forwards s;
       pr_generated_tokens := rank_generated s;
       pr_completion := text;
       pr_stop_reason := reason;
       pr_barriers_passed := true;
       pr_success := true |})).

(** [run_pipeline_rank] from the admission on: the recorder is new. *)
Definition observe_rank (fuel : nat) (manifest : PipelineManifest) (resources : ResourceSnapshot)
  (assignment : StageAssignment) (memory : StageMemoryPlan) (spec : ModelSpec) : eproc (option PipelineRankReport) :=
  let sample := sample resources in
  _ ⟸ record sample;
  _ ⟸ record ModelLoadStarted;
  l ⟸ oret (load_stage manifest spec assignment);
  _ ⟸ record ModelLoadFinished;
  _ ⟸ record sample;
  _ ⟸ observed_barrier 0;
  tokenizer ⟸ oret (load_tokenizer manifest assignment);
  r ⟸ observe_loop manifest (config spec) assignment l.1 tokenizer resources fuel
        (mkRankState l.2 no_communication [] None 0 0);
  match r with
  | None => oret (Ok None)
  | Some (reason, s) => observe_finish manifest resources assignment memory spec tokenizer reason s
  end.

(** [run_pipeline_rank], with the recorder it ends with. *)
Definition run_observed_rank (fuel : nat) (rank : Rank) (manifest : PipelineManifest) (resources : ResourceSnapshot)
  : proc (presult (option PipelineRankReport) * RankRecorder) :=
  let recorder := rank_recorder_new (global_rank rank) (run_id manifest) (request_id manifest) in
  match admit_rank rank manifest resources with
  | Err e => Ret (Err e, recorder)
  | Ok a => observe_rank fuel manifest resources a.1.1 a.1.2 a.2 recorder
  end.
End Observed.
