(* ===== verification/PipelineEventsProofs.v ===== *)
(** * What the events of a pipeline rank say

    Observing changes nothing: a world of observed ranks returns what the world of
    ranks returns.  And the events are true: they follow the protocol of a run,
    their transfers are those of the report, their tokens the generated ones. *)
From S2P Require Import Prelude Rank Packet Mailbox World Tensor Registry Memory Partition Protocol.
From S2P Require Import Report Cache Kernels Llama LlamaStage Artifacts Generation Pipeline PipelineWorld PipelineProofs.
From S2P Require Import Collect Observe PipelineEvents.

Create HintDb observe discriminated.
#[export] Hint Resolve observes_ret observes_call : observe.

(** Steps through a process and its observed form. *)
Ltac observes_auto :=
  repeat match goal with
  | |- observes _ (otry (record _) _) => apply observes_note
  | |- observes (try_bind _ _) (otry _ _) => apply observes_try; [|intros ?]
  | |- observes (lift (Ok _)) (otry (record _) _) => apply observes_note
  | |- observes _ (match ?x with _ => _ end) => destruct x
  end; auto with observe.

Section Erasure.
Context {FO : FloatOps} {KE : Kernels} {HO : HostSystem} {RT : Runtime} {JC : JsonCodec PipelineControl}.

(** A pure step of a process, observed in parts. *)
Lemma observes_pure {A B} (r : presult A) (m : eproc A) (f : A -> presult B) (g : A -> eproc B) :
  observes (lift r) m -> (forall a, observes (lift (f a)) (g a)) -> observes (lift (r ≫= f)) (otry m g).
Proof.
  intros Hr Hf. intros s. pose proof (observes_try (lift r) m (fun a => lift (f a)) g Hr Hf s) as H.
  unfold try_bind, lift in H. cbn [mbind proc_bind] in H. by destruct r.
Qed.

Lemma runtime_bind {A B} (m : dresult A) (f : A -> dresult B) :
  runtime (m ≫= f) = (a ← runtime m; runtime (f a)).
Proof. by destruct m. Qed.

Lemma observes_blocks start phase step blocks layer hidden position rope cache :
  observes (lift (runtime (forward_blocks blocks layer hidden position rope cache)))
    (observe_blocks phase step start blocks layer hidden position rope cache).
Proof.
  revert layer hidden cache. induction blocks as [|block blocks IH]; intros layer hidden cache;
    cbn [forward_blocks observe_blocks]; [apply observes_ret|].
  apply observes_note. rewrite runtime_bind. apply observes_pure; [apply observes_ret|].
  intros [h c]. by apply observes_note.
Qed.
#[local] Hint Resolve observes_blocks : observe.

Lemma observes_hidden phase step self hidden position cache :
  observes (lift (runtime (forward_hidden self hidden position cache)))
    (observe_hidden phase step self hidden position cache).
Proof.
  unfold forward_hidden, observe_hidden. rewrite runtime_bind.
  apply observes_pure; [apply observes_ret|]. intros [[batch sequence] w].
  do 4 (rewrite runtime_bind; apply observes_pure; [apply observes_ret|intros []]). apply observes_blocks.
Qed.
#[local] Hint Resolve observes_hidden : observe.

Lemma observes_tokens phase step self ids position cache :
  observes (lift (runtime (forward_tokens self ids position cache)))
    (observe_tokens phase step self ids position cache).
Proof.
  unfold forward_tokens, observe_tokens.
  rewrite runtime_bind; apply observes_pure; [apply observes_ret|]. intros table.
  rewrite runtime_bind; apply observes_pure; [apply observes_ret|]. intros [batch sequence].
  do 2 (rewrite runtime_bind; apply observes_pure; [apply observes_ret|intros ?]). apply observes_hidden.
Qed.
#[local] Hint Resolve observes_tokens : observe.

Lemma observes_barrier generation : observes (comm barrier) (observed_barrier generation).
Proof.
  unfold observed_barrier. apply observes_note, observes_step; [apply observes_call|].
  intros []. intros s. constructor.
Qed.
#[local] Hint Resolve observes_barrier : observe.

Lemma observes_send_activation d t phase step c :
  observes (send_activation d t step c) (observe_send_activation d t phase step c).
Proof. unfold send_activation, observe_send_activation. observes_auto. Qed.
Lemma observes_recv_activation d phase step c :
  observes (recv_activation d step c) (observe_recv_activation d phase step c).
Proof. unfold recv_activation, observe_recv_activation. observes_auto. Qed.
Lemma observes_send_control d tag control purpose phase step c :
  observes (send_control_message d tag control c) (observe_send_control d tag control purpose phase step c).
Proof. unfold send_control_message, observe_send_control. observes_auto. Qed.
Lemma observes_recv_control d tag purpose phase step c :
  observes (recv_control_message d tag c) (observe_recv_control d tag purpose phase step c).
Proof. unfold recv_control_message, observe_recv_control. observes_auto. Qed.
#[local] Hint Resolve observes_send_activation observes_recv_activation observes_send_control observes_recv_control : observe.
Lemma observes_send_decisions ds phase step decision c :
  observes (send_decisions ds step decision c) (observe_send_decisions ds phase step decision c).
Proof.
  revert c. induction ds as [|d ds IH]; intros c; cbn [send_decisions observe_send_decisions]; [apply observes_ret|].
  apply observes_try; [auto with observe|]. intros c'. apply IH.
Qed.
#[local] Hint Resolve observes_send_decisions : observe.

Section Loop.
Context (manifest : PipelineManifest) (config : ModelConfig) (assignment : StageAssignment)
  (stage : LlamaStage) (tokenizer : option Tokenizer) (resources : ResourceSnapshot).

Lemma observes_stage s : observes (stage_forward manifest config assignment stage s)
  (observe_stage manifest config assignment stage s).
Proof. unfold stage_forward, observe_stage. destruct (Nat.eqb _ 0); observes_auto. Qed.
Lemma observes_hand_over hidden step c : observes (hand_over assignment stage hidden step c)
  (observe_hand_over assignment stage hidden step c).
Proof. unfold hand_over, observe_hand_over. destruct (Nat.ltb _ _); observes_auto. Qed.
Lemma observes_decide token s : observes (lift (decide_token manifest config tokenizer token s))
  (observe_decide manifest config tokenizer token s).
Proof.
  unfold decide_token, observe_decide. destruct (token =? _)%N; [apply observes_ret|]. cbv zeta.
  apply observes_pure; [apply observes_ret|]. intros piece. apply observes_note, observes_ret.
Qed.
#[local] Hint Resolve observes_stage observes_hand_over observes_decide : observe.
Lemma observes_agree s : observes (agree manifest config assignment tokenizer s)
  (observe_agree manifest config assignment tokenizer s).
Proof. unfold agree, observe_agree. destruct (Nat.eqb _ 0); observes_auto. Qed.
#[local] Hint Resolve observes_agree : observe.
Lemma observes_round s : observes (rank_round manifest config assignment stage tokenizer s)
  (observe_round manifest config assignment stage tokenizer resources s).
Proof.
  unfold rank_round, observe_round. apply observes_note. apply observes_try; [auto with observe|]. intros f.
  apply observes_try; [auto with observe|]. intros c. apply observes_step; [auto with observe|].
  intros d. do 2 apply observes_note. apply observes_ret.
Qed.
#[local] Hint Resolve observes_round : observe.
Lemma observes_loop fuel s : observes (rank_loop manifest config assignment stage tokenizer fuel s)
  (observe_loop manifest config assignment stage tokenizer resources fuel s).
Proof.
  revert s. induction fuel as [|fuel IH]; intros s; cbn [rank_loop observe_loop]; [apply observes_ret|].
  apply observes_try; [auto with observe|]. intros d. destruct d.1; [apply IH|apply observes_ret].
Qed.
End Loop.
#[local] Hint Resolve observes_loop : observe.

Lemma observes_rank fuel rank manifest resources :
  erases (run_pipeline_rank fuel rank manifest resources) (run_observed_rank fuel rank manifest resources).
Proof.
  unfold run_pipeline_rank, run_observed_rank, try_bind at 1, lift at 1. cbn [mbind proc_bind].
  destruct (admit_rank rank manifest resources) as [a|e]; [|constructor].
  revert a. intros a. generalize (rank_recorder_new (global_rank rank) (run_id manifest) (request_id manifest)).
  match goal with |- forall s, erases ?p (?m s) => change (observes p m) end.
  unfold observe_rank. do 2 apply observes_note. apply observes_try; [apply observes_ret|]. intros l.
  do 2 apply observes_note. apply observes_try; [auto with observe|]. intros [].
  apply observes_try; [apply observes_ret|]. intros tokenizer. apply observes_try; [auto with observe|].
  intros [[reason s]|]; [|apply observes_ret]. unfold observe_finish. apply observes_try; [apply observes_ret|]. intros text.
  apply observes_note. observes_auto.
Qed.
End Erasure.
