(* ===== verification/Transcript.v ===== *)
(** * What the events of a pipeline rank say

    The transcript of a successful run of a rank, computed from what its rounds
    handled, and the proof that the events of [PipelineEvents] are that transcript:
    their transfers add up to the report's communication, their tokens are the
    generated ones, their layers those of the assignment. *)
From S2P Require Import Prelude Rank Packet Mailbox World Tensor Registry Memory Partition Protocol.
From S2P Require Import Report Cache Kernels Llama LlamaStage Artifacts Generation GenerationProofs Shapes Pipeline PipelineWorld PipelineProofs.
From S2P Require Import Collect CollectProofs Observe PipelineEvents PipelineEventsProofs.
Local Open Scope observe_scope.

(** ** Transcripts *)

(** What a round handled: the activation that arrived and the one handed on, the
    token the last stage chose, the length of the message received, the decision,
    and what rank 0 announced. *)
Record RoundFacts : Type := mkRoundFacts
  { arrived : Tensor; handed : Tensor; chosen : N; heard : N; told : PipelineDecision;
    said : option (N * string) }.

(** The totals of a report that events account for. *)
Record Books : Type := mkBooks
  { books_communication : CommunicationReport; books_tokens : list N; books_forwards : N }.
Definition account (books : Books) (kind : RunEventKind) : Books :=
  let on f := mkBooks (f (books_communication books)) (books_tokens books) (books_forwards books) in
  match kind with
  | TensorSent _ _ _ _ _ bytes => on (tensor_sent bytes)
  | TensorReceived _ _ _ _ _ bytes => on (tensor_received bytes)
  | ControlSent _ _ _ _ bytes => on (control_sent bytes)
  | ControlReceived _ _ _ _ bytes => on (control_received bytes)
  | TokenGenerated token _ => mkBooks (books_communication books) (books_tokens books ++ [token]) (books_forwards books)
  | DecodeStepStarted _ => mkBooks (books_communication books) (books_tokens books) (add64 (books_forwards books) 1)
  | _ => books
  end.
Definition accounts (kinds : list RunEventKind) (books : Books) : Books := fold_left account kinds books.

Definition layer_events (start count : nat) (phase : ExecutionPhase) (step : N) : list RunEventKind :=
  flat_map (fun layer => [LayerStarted layer phase step; LayerCompleted layer phase step]) (seq start count).
Definition barrier_events (generation : N) : list RunEventKind :=
  [CollectiveStarted RBarrier generation; CollectiveCompleted RBarrier generation].

Section Transcript.
Context {FO : FloatOps} {KE : Kernels} {HO : HostSystem} {RT : Runtime} {JC : JsonCodec PipelineControl}.
Context (manifest : PipelineManifest) (assignment : StageAssignment) (resources : ResourceSnapshot).

Let rank : nat := N.to_nat (stage_rank assignment).
Let world : nat := N.to_nat (stage_world_size assignment).

Definition activation_bytes (tensor : Tensor) : N := match tensor_bytes tensor with Ok bytes => bytes | Err _ => 0 end.
Definition length_of (control : PipelineControl) : N :=
  match encode control with Ok bytes => lenN bytes | Err _ => 0 end.

Definition arrival_events (step : N) (facts : RoundFacts) : list RunEventKind :=
  if Nat.eqb rank 0 then []
  else [TensorReceived (rank - 1) Activation (phase_of step) step (dims (arrived facts)) (activation_bytes (arrived facts))].
Definition hand_over_events (step : N) (facts : RoundFacts) : list RunEventKind :=
  if Nat.ltb (rank + 1) world
  then [TensorSent (rank + 1) Activation (phase_of step) step (dims (handed facts)) (activation_bytes (handed facts))]
  else [ControlSent 0 TokenFeedback (phase_of step) step (length_of (Token step (chosen facts)))].
Definition announcement (facts : RoundFacts) : list RunEventKind :=
  match said facts with Some (token, piece) => [TokenGenerated token piece] | None => [] end.
Definition agreement_events (step : N) (facts : RoundFacts) : list RunEventKind :=
  if Nat.eqb rank 0
  then ControlReceived (world - 1) TokenFeedback (phase_of step) step (heard facts) :: announcement facts ++
       map (fun destination => ControlSent destination DecisionPurpose (phase_of step) step
                                 (length_of (Decision step (told facts)))) (seq 1 (world - 1))
  else [ControlReceived 0 DecisionPurpose (phase_of step) step (heard facts)].
Definition pipeline_round_events (step : N) (facts : RoundFacts) : list RunEventKind :=
  step_begins manifest step :: arrival_events step facts ++
  layer_events (N.to_nat (Partition.layer_start assignment)) (N.to_nat (layer_count assignment)) (phase_of step) step ++
  hand_over_events step facts ++ agreement_events step facts ++
  [step_ends step; sample resources].
Fixpoint rounds_events (step : N) (rounds : list RoundFacts) : list RunEventKind :=
  match rounds with
  | [] => []
  | facts :: rounds => pipeline_round_events step facts ++ rounds_events (add64 step 1) rounds
  end.
Definition transcript (reason : StopReason) (rounds : list RoundFacts) : list RunEventKind :=
  [sample resources; ModelLoadStarted; ModelLoadFinished; sample resources] ++ barrier_events 0 ++
  rounds_events 0 rounds ++ GenerationFinished reason :: barrier_events 1.

(** A round announces a token unless the token ends the text. *)
Definition honest (facts : RoundFacts) : Prop :=
  if Nat.eqb rank 0 then told facts = Stop Eos <-> said facts = None else said facts = None.
End Transcript.

Section Proofs.
Context {FO : FloatOps} {KE : Kernels} {HO : HostSystem} {RT : Runtime} {JC : JsonCodec PipelineControl}.

Lemma accounts_app xs ys books : accounts (xs ++ ys) books = accounts ys (accounts xs books).
Proof. apply fold_left_app. Qed.

(** Layers and barriers are not in the books. *)
Lemma accounts_layers start count phase step books : accounts (layer_events start count phase step) books = books.
Proof. revert start. induction count as [|count IH]; intros start; [done|]. apply IH. Qed.

(** ** Layers *)
Lemma stage_load_range vb dt config s e fs ls cap st :
  stage_load vb dt config s e fs ls cap = Ok st ->
  s < e /\ (N.of_nat e <= num_hidden_layers config)%N /\ stage_start st = s /\ length (stage_blocks st) = e - s.
Proof.
  unfold stage_load. intros H. apply bind_Ok in H as ([] & Hr%reject_if_Ok & H).
  apply orb_false_iff in Hr as [Hs%Nat.leb_gt He%N.ltb_ge].
  apply bind_Ok in H as (? & _ & H). apply bind_Ok in H as (bs & Hb & H).
  do 3 (apply bind_Ok in H as (? & _ & H)). injection H as <-. split_and!; [done..|].
  apply mapM_Forall2, Forall2_length in Hb. cbn. by rewrite <- Hb, length_seq.
Qed.

Abbreviation yields_events := (yields (E := PipelineError) rank_emit).

Lemma blocks_events phase step start blocks layer hidden position rope cache :
  yields_events (observe_blocks phase step start blocks layer hidden position rope cache)
    (fun _ ks => ks = layer_events (start + layer) (length blocks) phase step).
Proof.
  revert layer hidden cache. induction blocks as [|block blocks IH]; intros layer hidden cache; cbn [observe_blocks].
  - by apply yields_ret.
  - apply yields_note, yields_pure. intros [h c] _. apply yields_note. eapply yields_mono; [apply IH|].
    intros _ ks ->. by rewrite Nat.add_succ_r.
Qed.
Lemma hidden_events phase step st hidden position cache :
  yields_events (observe_hidden phase step st hidden position cache)
    (fun _ ks => ks = layer_events (stage_start st) (length (stage_blocks st)) phase step).
Proof.
  unfold observe_hidden. apply yields_pure. intros d _. do 4 (apply yields_pure; intros ? _).
  eapply yields_mono; [apply blocks_events|]. intros _ ks ->. by rewrite Nat.add_0_r.
Qed.
Lemma tokens_events phase step st ids position cache :
  yields_events (observe_tokens phase step st ids position cache)
    (fun _ ks => ks = layer_events (stage_start st) (length (stage_blocks st)) phase step).
Proof. unfold observe_tokens. do 4 (apply yields_pure; intros ? _). apply hidden_events. Qed.

(** ** Transfers *)
Lemma barrier_yields generation :
  yields_events (observed_barrier generation) (fun _ ks => ks = barrier_events generation).
Proof.
  unfold observed_barrier. apply yields_note, yields_call. intros _ s.
  exists [CollectiveCompleted RBarrier generation]. by split.
Qed.

Lemma send_activation_yields d t phase step c :
  yields_events (observe_send_activation d t phase step c)
    (fun c' ks => ks = [TensorSent d Activation phase step (dims t) (activation_bytes t)] /\ c' = tensor_sent (activation_bytes t) c).
Proof.
  unfold observe_send_activation. apply yields_pure. intros bytes Hb. apply yields_pure. intros tag _.
  apply yields_call. intros []. apply yields_note, yields_ret. unfold activation_bytes. rewrite Hb. by intros _ [= <-].
Qed.
Lemma recv_activation_yields d phase step c :
  yields_events (observe_recv_activation d phase step c)
    (fun r ks => ks = [TensorReceived d Activation phase step (dims r.1) (activation_bytes r.1)] /\
                 r.2 = tensor_received (activation_bytes r.1) c).
Proof.
  unfold observe_recv_activation. apply yields_pure. intros tag _. apply yields_call. intros t.
  apply yields_pure. intros bytes Hb. apply yields_note, yields_ret. intros _ [= <-]. unfold activation_bytes; cbn [fst snd].
  by rewrite Hb.
Qed.
Lemma send_control_yields d tag control purpose phase step c :
  yields_events (observe_send_control d tag control purpose phase step c)
    (fun c' ks => ks = [ControlSent d purpose phase step (length_of control)] /\ c' = control_sent (length_of control) c).
Proof.
  unfold observe_send_control. apply yields_pure. intros t _. apply yields_pure. intros bytes Hb.
  apply yields_call. intros []. apply yields_note, yields_ret. unfold length_of. rewrite Hb. by intros _ [= <-].
Qed.
Lemma recv_control_yields d tag purpose phase step c :
  yields_events (observe_recv_control d tag purpose phase step c)
    (fun r ks => exists heard, ks = [ControlReceived d purpose phase step heard] /\ r.2 = control_received heard c).
Proof.
  unfold observe_recv_control. apply yields_pure. intros t _. apply yields_call. intros bytes.
  apply yields_pure. intros control _. apply yields_note, yields_ret. intros _ [= <-]. by eexists.
Qed.
Lemma send_decisions_yields ds phase step decision c books :
  books_communication books = c ->
  yields_events (observe_send_decisions ds phase step decision c)
    (fun c' ks =>
       ks = map (fun d => ControlSent d DecisionPurpose phase step (length_of (Decision step decision))) ds /\
       accounts ks books = mkBooks c' (books_tokens books) (books_forwards books)).
Proof.
  revert c books. induction ds as [|d ds IH]; intros c books <-; cbn [observe_send_decisions].
  - apply yields_ret. intros ? [= <-]. split; [done|by destruct books].
  - eapply yields_try; [apply send_control_yields|]. intros c' xs (-> & ->).
    eapply yields_mono; [by apply (IH _ (account books (ControlSent d DecisionPurpose phase step (length_of (Decision step decision)))))|].
    intros c'' ys (-> & Ha). by split.
Qed.

(** ** Rounds *)
Definition books_of (s : RankState) : Books := mkBooks (communication s) (rank_generated s) (rank_forwards s).

Section Loop.
Context (manifest : PipelineManifest) (config : ModelConfig) (assignment : StageAssignment)
  (st : LlamaStage) (tokenizer : option Tokenizer) (resources : ResourceSnapshot).
Context (Hstart : stage_start st = N.to_nat (Partition.layer_start assignment))
  (Hcount : length (stage_blocks st) = N.to_nat (layer_count assignment)).

Let rank : nat := N.to_nat (stage_rank assignment).

Lemma stage_yields s :
  yields_events (observe_stage manifest config assignment st s) (fun f ks => exists tensor,
    (forall h c n d o, ks = arrival_events assignment (rank_step s) (mkRoundFacts tensor h c n d o) ++
      layer_events (N.to_nat (Partition.layer_start assignment)) (N.to_nat (layer_count assignment))
        (phase_of (rank_step s)) (rank_step s)) /\
    forall tokens forwards, accounts ks (mkBooks (communication s) tokens forwards) = mkBooks f.2 tokens forwards).
Proof.
  unfold observe_stage, arrival_events. fold rank. rewrite <- Hstart, <- Hcount. destruct (Nat.eqb rank 0).
  - apply yields_pure. intros input _. eapply yields_try; [apply tokens_events|]. intros r xs ->.
    apply yields_ret. intros _ [= <-]. exists input.
    rewrite app_nil_r. split; [done|]. intros. by rewrite accounts_layers.
  - eapply yields_try; [apply recv_activation_yields|]. intros h xs (-> & Hh). apply yields_pure. intros _ _.
    eapply yields_try; [apply hidden_events|]. intros r ys ->. apply yields_ret. intros _ [= <-].
    exists h.1. rewrite app_nil_r. split; [done|]. intros. rewrite accounts_app, accounts_layers. cbn.
    by rewrite Hh.
Qed.

Lemma hand_over_yields hidden step c :
  yields_events (observe_hand_over assignment st hidden step c) (fun c' ks => exists token,
    (forall a n d o, ks = hand_over_events assignment step (mkRoundFacts a hidden token n d o)) /\
    forall tokens forwards, accounts ks (mkBooks c tokens forwards) = mkBooks c' tokens forwards).
Proof.
  unfold observe_hand_over, hand_over_events. destruct (Nat.ltb _ _).
  - eapply yields_mono; [apply send_activation_yields|]. intros c' ks (-> & ->). by exists 0%N.
  - apply yields_pure. intros token _. eapply yields_mono; [apply send_control_yields|]. intros c' ks (-> & ->).
    by exists token.
Qed.

Lemma decide_yields token s :
  yields_events (observe_decide manifest config tokenizer token s) (fun r ks => exists o,
    (forall a h c n d, ks = announcement (mkRoundFacts a h c n d o)) /\ (r.1 = Stop Eos <-> o = None) /\
    accounts ks (books_of s) = books_of r.2 /\ rank_step r.2 = rank_step s).
Proof.
  unfold observe_decide. destruct (token =? _)%N.
  - apply yields_ret. intros _ [= <-]. exists None. by repeat split.
  - apply yields_pure. intros piece _. apply yields_note, yields_ret. intros _ [= <-].
    exists (Some (token, default "" piece)). repeat split; cbn; [|done].
    destruct (_ <=? _)%N; [|done]. by destruct (_ <? _)%N.
Qed.

Lemma agree_yields s :
  yields_events (observe_agree manifest config assignment tokenizer s) (fun r ks => exists n o,
    (forall a h c, ks = agreement_events assignment (rank_step s) (mkRoundFacts a h c n r.1 o)) /\
    (forall a h c, honest assignment (mkRoundFacts a h c n r.1 o)) /\
    accounts ks (books_of s) = books_of r.2 /\ rank_step r.2 = rank_step s).
Proof.
  unfold observe_agree, agreement_events, honest. fold rank. destruct (Nat.eqb rank 0).
  - eapply yields_try; [apply recv_control_yields|]. intros m xs (n & -> & Hm).
    apply yields_pure. intros token _. eapply yields_try; [apply decide_yields|]. intros d ys (o & Hys & Hd & Hb & Hs).
    eapply yields_try; [by apply (send_decisions_yields _ _ _ _ _ (books_of d.2))|]. intros c zs (-> & Hc).
    apply yields_ret. intros _ [= <-]. exists n, o. split_and!; cbn [fst snd].
    + intros a h c'. rewrite app_nil_r, (Hys a h c' n d.1). done.
    + intros. cbn. apply Hd.
    + rewrite app_nil_r, accounts_app. unfold books_of in *. cbn [with_communication communication rank_generated
        rank_forwards] in *. rewrite Hm in Hb. rewrite accounts_app. etrans; [|exact Hc].
      f_equal. exact Hb.
    + done.
  - eapply yields_try; [apply recv_control_yields|]. intros m xs (n & -> & Hm).
    apply yields_pure. intros decision _. apply yields_ret. intros _ [= <-]. exists n, None. repeat split.
    unfold books_of; cbn. by rewrite Hm.
Qed.

Lemma round_yields s :
  yields_events (observe_round manifest config assignment st tokenizer resources s) (fun r ks => exists facts,
    ks = pipeline_round_events manifest assignment resources (rank_step s) facts /\ honest assignment facts /\
    told facts = r.1 /\ accounts ks (books_of s) = books_of r.2 /\ rank_step r.2 = rank_step s).
Proof.
  unfold observe_round. apply yields_note. eapply yields_try; [apply stage_yields|]. intros f xs (t & Hxs & Hx).
  eapply yields_try; [apply hand_over_yields|]. intros c ys (token & Hys & Hy).
  eapply yields_try; [apply agree_yields|]. intros d zs (n & o & Hzs & Ho & Hz & Hs).
  do 2 apply yields_note. apply yields_ret. intros _ [= <-].
  exists (mkRoundFacts t f.1.1 token n d.1 o). split_and!; [|apply Ho|done| |done].
  - unfold pipeline_round_events. rewrite (Hxs f.1.1 token n d.1 o), (Hys t n d.1 o), (Hzs t f.1.1 token), <- !app_assoc. done.
  - cbn [accounts fold_left]. change (fold_left account ?l) with (accounts l).
    rewrite !accounts_app. cbn [books_of rank_forwards communication rank_generated rank_cache previous_token rank_step] in *.
    unfold books_of in *. cbn [rank_forwards communication rank_generated rank_step] in *.
    assert (account (mkBooks (communication s) (rank_generated s) (rank_forwards s)) (step_begins manifest (rank_step s))
      = mkBooks (communication s) (rank_generated s) (match phase_of (rank_step s) with
          | Prefill => rank_forwards s | Decode => add64 (rank_forwards s) 1 end)) as ->
      by (unfold step_begins; by destruct (phase_of _)).
    rewrite Hx, Hy, Hz. unfold step_ends. by destruct (phase_of _).
Qed.

Lemma loop_yields fuel s :
  yields_events (observe_loop manifest config assignment st tokenizer resources fuel s) (fun r ks =>
    forall reason s', r = Some (reason, s') -> exists rounds,
      ks = rounds_events manifest assignment resources (rank_step s) rounds /\ Forall (honest assignment) rounds /\
      (exists k, map told rounds = repeat Continue k ++ [Stop reason]) /\
      accounts ks (books_of s) = books_of s').
Proof.
  revert s. induction fuel as [|fuel IH]; intros s; cbn [observe_loop].
  - apply yields_ret. by intros _ [= <-].
  - eapply yields_try; [apply round_yields|]. intros d xs (facts & -> & Hh & Ht & Hb & Hs). destruct d.1 as [|why] eqn:Hd.
    + eapply yields_mono; [apply IH|]. cbn [rank_step books_of]. intros r ys H reason s' ->.
      destruct (H reason s' eq_refl) as (rounds & -> & Hr & (k & Hk) & Ha).
      exists (facts :: rounds). rewrite Hs. split_and!; [done|by constructor| |].
      * exists (S k). cbn. by rewrite Ht, Hk.
      * rewrite accounts_app, Hb. rewrite Hs in Ha. exact Ha.
    + apply yields_ret. intros _ [= <-] reason s' [= <- <-]. exists [facts]. split_and!.
      * done.
      * by repeat constructor.
      * exists 0. cbn. by rewrite Ht.
      * by rewrite app_nil_r.
Qed.
End Loop.

Lemma accounts_transcript manifest assignment resources reason rounds books :
  accounts (transcript manifest assignment resources reason rounds) books
  = accounts (rounds_events manifest assignment resources 0 rounds) books.
Proof. unfold transcript. by rewrite !accounts_app. Qed.

Lemma rank_yields fuel manifest resources assignment memory spec :
  spec_of (manifest_model manifest) = Some spec ->
  yields_events (observe_rank fuel manifest resources assignment memory spec) (fun r ks =>
    forall report, r = Some report -> exists rounds,
      ks = transcript manifest assignment resources (pr_stop_reason report) rounds /\
      Forall (honest assignment) rounds /\
      (exists k, map told rounds = repeat Continue k ++ [Stop (pr_stop_reason report)]) /\
      accounts ks (mkBooks no_communication [] 0)
      = mkBooks (pr_communication report) (pr_generated_tokens report) (pr_decode_forward_count report) /\
      pr_assignment report = assignment).
Proof.
  intros Hspec. unfold observe_rank. do 2 apply yields_note. apply yields_pure. intros [st kv] Hl.
  unfold load_stage in Hl. apply bind_Ok in Hl as (vb & _ & Hl). apply bind_Ok in Hl as (st' & Hst & Hl).
  apply bind_Ok in Hl as (kv' & _ & [= -> ->]).
  apply map_err_Ok, stage_load_range in Hst as (Hse & Hle & Hstart & Hlen).
  assert (length (stage_blocks st) = N.to_nat (layer_count assignment)) as Hlen'.
  { rewrite Hlen. destruct (registered_sizes _ _ Hspec) as (HL & _). unfold layer_count. rewrite sub64_small; lia. }
  do 2 apply yields_note. eapply yields_try; [apply barrier_yields|]. intros _ xs ->.
  apply yields_pure. intros tokenizer _.
  eapply yields_try; [by apply loop_yields|]. intros [[reason s]|] ys Hys; [|by apply yields_ret; intros _ [= <-]].
  destruct (Hys reason s eq_refl) as (rounds & -> & Hr & Hk & Ha).
  unfold observe_finish. apply yields_pure. intros text _. apply yields_note.
  eapply yields_try; [apply barrier_yields|]. intros _ zs ->.
  apply yields_pure. intros bytes _. apply yields_ret. intros _ [= <-] report [= <-]. exists rounds.
  cbn [pr_stop_reason pr_communication pr_generated_tokens pr_decode_forward_count rank_step] in *.
  rewrite !app_nil_r. split_and!; [done..| |done].
  change (accounts (transcript manifest assignment resources reason rounds) (mkBooks no_communication [] 0)
    = mkBooks (communication s) (rank_generated s) (rank_forwards s)).
  rewrite accounts_transcript. exact Ha.
Qed.

(** ** Whole runs *)
Definition kinds_of (recorder : RankRecorder) : list RunEventKind :=
  map (fun e => event_kind (published_event e)) (recorded recorder).

Lemma kinds_of_noted kinds recorder : kinds_of (noted rank_emit kinds recorder) = kinds_of recorder ++ kinds.
Proof.
  revert recorder. induction kinds as [|kind kinds IH]; intros recorder; [by rewrite app_nil_r|].
  etrans; [apply IH|]. unfold kinds_of, rank_emit. cbn [recorded]. rewrite map_app, <- app_assoc. done.
Qed.

(** What the recorder of a successful rank holds. *)
Definition recorded_run (rank : Rank) (manifest : PipelineManifest) (resources : ResourceSnapshot)
  (report : PipelineRankReport) (recorder : RankRecorder) : Prop := exists rounds,
  kinds_of recorder = transcript manifest (pr_assignment report) resources (pr_stop_reason report) rounds /\
  ((N.of_nat (length (kinds_of recorder)) < U64)%N -> numbered (global_rank rank) (recorded recorder)) /\
  accounts (kinds_of recorder) (mkBooks no_communication [] 0)
  = mkBooks (pr_communication report) (pr_generated_tokens report) (pr_decode_forward_count report) /\
  (exists k, map told rounds = repeat Continue k ++ [Stop (pr_stop_reason report)]) /\
  Forall (honest (pr_assignment report)) rounds.

Lemma admit_rank_spec rank manifest resources a :
  admit_rank rank manifest resources = Ok a -> spec_of (manifest_model manifest) = Some a.2.
Proof.
  unfold admit_rank. intros H. do 5 (apply bind_Ok in H as (? & _ & H)).
  apply bind_Ok in H as (spec & Hs & H). apply bind_Ok in H as (? & _ & [= <-]).
  unfold ok_or in Hs. destruct (spec_of _) as [sp|]; [by injection Hs as ->|discriminate].
Qed.

Lemma rank_records fuel rank manifest resources :
  leaves (fun x => match x.1 with Ok (Some report) => recorded_run rank manifest resources report x.2 | _ => True end)
    (run_observed_rank fuel rank manifest resources).
Proof.
  unfold run_observed_rank. destruct (admit_rank rank manifest resources) as [a|e] eqn:Ha; [|done].
  pose proof (admit_rank_spec _ _ _ _ Ha) as Hspec.
  eapply leaves_mono; [exact (rank_yields fuel manifest resources a.1.1 a.1.2 a.2 Hspec _)|].
  intros [[[report|]|e] recorder]; cbn [fst snd]; try done. intros (kinds & -> & H).
  destruct (H report eq_refl) as (rounds & Hk & Hh & Ht & Hb & Hassign). exists rounds. rewrite Hassign.
  rewrite kinds_of_noted. cbn [kinds_of rank_recorder_new recorded map app]. split_and!; try done.
  intros Hn. by apply rank_emit_numbered.
Qed.

(** C8: the events of a pipeline rank are true.  Whatever the world does, the
    recorder of a rank that returns a report holds exactly the transcript of a
    run: loading, the first barrier, one round after the other - each with its
    transfers and the layers of the rank's assignment, each layer started and
    completed in turn -, the reason, the last barrier; numbered without a gap.  The
    transfers, tokens and decode steps of these events add up to the report's
    communication, generated tokens and forward count; every round but the last
    was told to continue and the last to stop for the report's reason; and rank 0
    announces a token in every round but one that ends the text. *)
Theorem pipeline_events_true fuel rank manifest resources tr report recorder :
  exec rank (run_observed_rank fuel rank manifest resources) tr (Ret (Ok (Some report), recorder)) ->
  recorded_run rank manifest resources report recorder.
Proof. intros H. exact (leaves_exec _ _ _ _ _ H (rank_records fuel rank manifest resources)). Qed.

Context {KL : KernelLaws KE} {JL : JsonCodecLaws JC control_wf}.

(** C6: observing a pipeline changes nothing.  Under the hypotheses of
    [pipeline_generates], the ranks with their recorders always terminate with
    the same reports as without, the recorders hold those runs, and the tokens
    that rank 0's events announce are those of the single process. *)
Theorem observed_pipeline_generates n manifest spec resources tokenizer vb model kv fuel fuel' evs reason s text :
  let cap := N.to_nat (context_capacity manifest) in
  let effective := manifest_effective manifest in
  spec_of (manifest_model manifest) = Some spec -> manifest_dtype manifest = PF32 ->
  balanced spec (N.of_nat n) = Ok (partition manifest) ->
  (forall i, i < n -> exists plan, admitted manifest (resources i) i plan) ->
  from_mmaped_safetensors (checkpoint_path manifest) F32 = Ok vb -> well_formed_weights vb ->
  tokenizer_from_file (manifest_tokenizer_path manifest) = Ok tokenizer ->
  llama_load vb F32 (config spec) cap = Ok model -> cache_new (config spec) cap F32 Cpu = Ok kv ->
  (0 < effective < 2 ^ 60)%N -> N.to_nat effective <= fuel ->
  generate_tokens model tokenizer (eos_token_id (config spec)) (manifest_requested manifest) effective
    fuel' (prompt_token_ids manifest) kv evs = Some (Ok (reason, s)) ->
  tokenizer_decode tokenizer (generated s) = Ok text ->
  exists (reports : nat -> PipelineRankReport) (recorders : nat -> RankRecorder),
    always_returns
      (start (map (fun i => run_pipeline_rank fuel (mkRank i n) manifest (resources i)) (seq 0 n)))
      (map (fun i => Ok (Some (reports i))) (seq 0 n)) /\
    always_returns
      (start (map (fun i => run_observed_rank fuel (mkRank i n) manifest (resources i)) (seq 0 n)))
      (map (fun i => (Ok (Some (reports i)), recorders i)) (seq 0 n)) /\
    forall i, i < n ->
      recorded_run (mkRank i n) manifest (resources i) (reports i) (recorders i) /\
      books_tokens (accounts (kinds_of (recorders i)) (mkBooks no_communication [] 0))
      = if Nat.eqb i 0 then generated s else [].
Proof.
  intros cap effective Hspec Hdt Hpart Hadm Hvb Hwfw Htk Hload Hcache Heff Hfuel Hgen Htext.
  destruct (pipeline_world n manifest spec resources tokenizer vb model kv fuel fuel' evs reason s text)
    as (reports & Ht & Hr); try done.
  destruct (together_erases (rank_recorder_new 0 "" "") n _
    (fun i => run_observed_rank fuel (mkRank i n) manifest (resources i)) _ Ht) as (recorders & Ho).
  { intros i _. apply observes_rank. }
  exists reports, recorders. split_and!.
  - by apply (together_returns n (fun i => run_pipeline_rank fuel (mkRank i n) manifest (resources i))).
  - by apply (together_returns n (fun i => run_observed_rank fuel (mkRank i n) manifest (resources i))
                (fun i => (Ok (Some (reports i)), recorders i))).
  - intros i Hi. destruct Ho as (tr & Hex & _).
    pose proof (leaves_exec _ _ _ _ _ (Hex i Hi) (rank_records fuel (mkRank i n) manifest (resources i))) as Hrec.
    cbn [fst snd] in Hrec. split; [exact Hrec|]. destruct Hrec as (rounds & _ & _ & -> & _).
    cbn [books_tokens]. apply Hr. done.
Qed.
End Proofs.
