(* ===== verification/DashboardRun.v ===== *)
(** * What the dashboard shows of a pipeline

    The events of the ranks, in any interleaving, give the dashboard the totals of
    the ranks' reports. *)
From S2P Require Import Prelude Rank Packet Mailbox World Tensor Registry Memory Partition Protocol.
From S2P Require Import Report Cache Kernels Llama Artifacts Generation Pipeline Collect CollectProofs.
From S2P Require Import Observe PipelineEvents Transcript Dashboard DashboardProofs.

(** ** The books count every sum modulo the machine's width *)

(** The bytes a kind sends, as the dashboard counts them, by class. *)
Definition tensor_out (kind : RunEventKind) : N := match kind with TensorSent _ _ _ _ _ bytes => bytes | _ => 0 end.
Definition control_out (kind : RunEventKind) : N := match kind with ControlSent _ _ _ _ bytes => bytes | _ => 0 end.
Definition is_announcement (kind : RunEventKind) : bool := match kind with TokenGenerated _ _ => true | _ => false end.
Definition is_decode_start (kind : RunEventKind) : bool := match kind with DecodeStepStarted _ => true | _ => false end.
Definition is_decode_end (kind : RunEventKind) : bool := match kind with DecodeStepFinished _ => true | _ => false end.
Definition how_many (p : RunEventKind -> bool) (kinds : list RunEventKind) : N := lenN (filter p kinds).

Lemma how_many_cons p kind kinds : how_many p (kind :: kinds) = ((if p kind then 1 else 0) + how_many p kinds)%N.
Proof.
  unfold how_many. rewrite filter_cons. destruct (decide (p kind)) as [E|E]; destruct (p kind); try done.
  rewrite lenN_cons. lia.
Qed.

Lemma accounts_sums kinds books :
  let after := accounts kinds books in
  wrap64 (tensor_bytes_sent (books_communication after))
  = wrap64 (tensor_bytes_sent (books_communication books) + sumN (map tensor_out kinds)) /\
  wrap64 (control_bytes_sent (books_communication after))
  = wrap64 (control_bytes_sent (books_communication books) + sumN (map control_out kinds)) /\
  lenN (books_tokens after) = (lenN (books_tokens books) + how_many is_announcement kinds)%N /\
  wrap64 (books_forwards after) = wrap64 (books_forwards books + how_many is_decode_start kinds).
Proof.
  revert books. induction kinds as [|kind kinds IH]; intros books.
  - cbn zeta. unfold how_many, lenN. cbn -[N.add]. by rewrite !N.add_0_r.
  - destruct (IH (account books kind)) as (H1 & H2 & H3 & H4). cbn [map sumN]. rewrite !how_many_cons.
    change (accounts (kind :: kinds) books) with (accounts kinds (account books kind)). cbn zeta in *.
    rewrite H1, H2, H3, H4. clear.
    assert (forall a b c, wrap64 (add64 a b + c) = wrap64 (a + (b + c))) as Hw.
    { intros a b c. unfold add64. rewrite wrap64_add_l. f_equal. lia. }
    destruct kind; cbn -[wrap64 N.add]; unfold tensor_sent, control_sent; cbn -[wrap64 N.add]; rewrite ?Hw, ?N.add_0_l;
      try (split_and!; done).
    split_and!; try done. unfold lenN. rewrite length_app. cbn. lia.
Qed.

(** ** A transcript starts and ends the same steps, and holds no tensor collective *)
Definition plain (kind : RunEventKind) : bool :=
  match kind with
  | DecodeStepStarted _ | DecodeStepFinished _ | TensorCollectiveCompleted _ _ _ _ => false
  | _ => true
  end.
Definition no_collective (kind : RunEventKind) : bool :=
  match kind with TensorCollectiveCompleted _ _ _ _ => false | _ => true end.

Lemma how_many_app p xs ys : how_many p (xs ++ ys) = (how_many p xs + how_many p ys)%N.
Proof. induction xs as [|x xs IH]; [done|]. cbn [app]. rewrite !how_many_cons, IH. lia. Qed.
Lemma how_many_plain p kinds : (forall kind, plain kind = true -> p kind = false) ->
  forallb plain kinds = true -> how_many p kinds = 0%N.
Proof.
  intros Hp. induction kinds as [|kind kinds IH]; [done|]. cbn [forallb]. intros [H1 H2]%andb_true_iff.
  by rewrite how_many_cons, Hp, IH.
Qed.

Section Steps.
Context {FO : FloatOps} {KE : Kernels} {HO : HostSystem} {RT : Runtime} {JC : JsonCodec PipelineControl}.
Context (manifest : PipelineManifest) (assignment : StageAssignment) (resources : ResourceSnapshot).

Lemma plain_layers start count phase step : forallb plain (layer_events start count phase step) = true.
Proof. revert start. induction count as [|count IH]; intros start; [done|]. apply IH. Qed.
Lemma plain_controls f l : (forall x : nat, plain (f x) = true) -> forallb plain (map f l) = true.
Proof. intros H. induction l as [|x l IH]; [done|]. cbn. by rewrite H. Qed.

Lemma round_middle step facts : exists middle,
  pipeline_round_events manifest assignment resources step facts
  = step_begins manifest step :: middle ++ [step_ends step; sample resources] /\ forallb plain middle = true.
Proof.
  eexists. split; [unfold pipeline_round_events; rewrite !app_assoc; reflexivity|]. rewrite !forallb_app, plain_layers.
  unfold arrival_events, hand_over_events, agreement_events, announcement.
  destruct (Nat.eqb _ 0), (Nat.ltb _ _), (said facts) as [[? ?]|]; cbn; try done; by rewrite plain_controls.
Qed.

Lemma rounds_steps step rounds :
  let kinds := rounds_events manifest assignment resources step rounds in
  how_many is_decode_start kinds = how_many is_decode_end kinds /\ forallb no_collective kinds = true.
Proof.
  revert step. induction rounds as [|facts rounds IH]; intros step; [done|]. cbn [rounds_events]. cbn zeta.
  destruct (IH (add64 step 1)) as [H1 H2]. destruct (round_middle step facts) as (middle & -> & Hm).
  rewrite !how_many_app, H1, forallb_app, H2, !how_many_cons, !how_many_app.
  rewrite (how_many_plain is_decode_start middle), (how_many_plain is_decode_end middle) by (done || by intros []).
  cbn [forallb]. rewrite forallb_app.
  assert (forallb no_collective middle = true) as ->.
  { clear -Hm. induction middle as [|k l IH]; [done|]. cbn in *. apply andb_true_iff in Hm as [H1 H2].
    rewrite IH by done. by destruct k. }
  unfold step_begins, step_ends, sample. by destruct (phase_of step).
Qed.

Lemma transcript_steps reason rounds :
  let kinds := transcript manifest assignment resources reason rounds in
  how_many is_decode_start kinds = how_many is_decode_end kinds /\ forallb no_collective kinds = true.
Proof.
  unfold transcript. cbn zeta. destruct (rounds_steps 0 rounds) as [H1 H2].
  rewrite !how_many_app, !forallb_app, H1, H2. done.
Qed.
End Steps.

(** ** Sums over the ranks *)
Lemma sum_one x v (g : nat -> N) a k :
  sumN (map (fun r => (if Nat.eqb x r then v else 0) + g r)%N (seq a k))
  = ((if Nat.leb a x && Nat.ltb x (a + k) then v else 0) + sumN (map g (seq a k)))%N.
Proof.
  revert a. induction k as [|k IH]; intros a; cbn [seq map sumN].
  - destruct (Nat.leb_spec a x), (Nat.ltb_spec x (a + 0)); cbn; lia.
  - rewrite IH. destruct (Nat.eqb_spec x a), (Nat.leb_spec (S a) x), (Nat.ltb_spec x (S a + k)), (Nat.leb_spec a x),
      (Nat.ltb_spec x (a + S k)); cbn; lia.
Qed.
Lemma sum_by_rank (f : TimedEvent -> N) n es : Forall (fun e => rank_of e < n) es ->
  sumN (map f es) = sumN (map (fun r => sumN (map f (of_rank r es))) (seq 0 n)).
Proof.
  induction es as [|e es IH]; intros H.
  - cbn. generalize 0. induction n as [|n IHn]; intros a; [done|]. cbn. by rewrite <- IHn.
  - apply List.Forall_cons_iff in H as [He H]. cbn [map sumN]. rewrite (IH H).
    rewrite (map_ext (fun r => sumN (map f (of_rank r (e :: es))))
      (fun r => (if Nat.eqb (rank_of e) r then f e else 0) + sumN (map f (of_rank r es)))%N).
    + rewrite sum_one. destruct (Nat.ltb_spec (rank_of e) (0 + n)); [done|lia].
    + intros r. unfold of_rank. rewrite filter_cons.
      destruct (decide (rank_of e = r)) as [Hd|Hd], (Nat.eqb_spec (rank_of e) r); done.
Qed.

(** ** The totals *)
Lemma accounts_small kinds books :
  (tensor_bytes_sent (books_communication books) < U64)%N -> (control_bytes_sent (books_communication books) < U64)%N ->
  (books_forwards books < U64)%N ->
  let after := accounts kinds books in
  (tensor_bytes_sent (books_communication after) < U64)%N /\ (control_bytes_sent (books_communication after) < U64)%N /\
  (books_forwards after < U64)%N.
Proof.
  revert books. induction kinds as [|kind kinds IH]; intros books H1 H2 H3; [by split_and!|].
  apply (IH (account books kind)); destruct kind; cbn; try done; apply wrap64_lt.
Qed.

(** The bytes the dashboard counts for a kind. *)
Definition sent_kind (kind : RunEventKind) : N :=
  match kind with
  | TensorSent _ _ _ _ _ bytes | ControlSent _ _ _ _ bytes | TensorCollectiveCompleted _ _ bytes _ => bytes
  | _ => 0
  end.
Definition kind_of (e : TimedEvent) : RunEventKind := event_kind (published_event (timed e)).

Lemma sent_of_kind es : sumN (map (fun e => default 0%N (sent_of e)) es) = sumN (map (fun e => sent_kind (kind_of e)) es).
Proof. f_equal. apply map_ext. intros e. unfold sent_of, kind_of. by destruct (event_kind _). Qed.
Lemma sum_map_timed (f : RunEventKind -> N) es recorder : map timed es = recorded recorder ->
  sumN (map (fun e => f (kind_of e)) es) = sumN (map f (kinds_of recorder)).
Proof. intros H. unfold kinds_of. rewrite <- H, !map_map. done. Qed.
Lemma sum_how_many (p : RunEventKind -> bool) kinds : sumN (map (fun kind => if p kind then 1%N else 0%N) kinds) = how_many p kinds.
Proof. induction kinds as [|k l IH]; [done|]. cbn [map sumN]. by rewrite how_many_cons, IH. Qed.
Section Shown.
Context {FO : FloatOps} {KE : Kernels} {HO : HostSystem} {RT : Runtime} {JC : JsonCodec PipelineControl}.

Lemma sent_kind_sum kinds : forallb no_collective kinds = true ->
  sumN (map sent_kind kinds) = (sumN (map tensor_out kinds) + sumN (map control_out kinds))%N.
Proof.
  induction kinds as [|k l IH]; [done|]. cbn [forallb map sumN]. intros [Hk Hl]%andb_true_iff. rewrite (IH Hl).
  destruct k; try done; cbn [sent_kind tensor_out control_out]; lia.
Qed.

(** The totals of a report, and the sums over its events. *)
Lemma recorded_sums rank manifest resources report recorder :
  recorded_run rank manifest resources report recorder ->
  let kinds := kinds_of recorder in
  let c := pr_communication report in
  (sumN (map sent_kind kinds) < U64)%N -> (lenN kinds < U64)%N ->
  (tensor_bytes_sent c + control_bytes_sent c)%N = sumN (map sent_kind kinds) /\
  lenN (pr_generated_tokens report) = how_many is_announcement kinds /\
  pr_decode_forward_count report = how_many is_decode_end kinds.
Proof.
  intros (rounds & Hk & _ & Ha & _) kinds c. subst c. intros Hb Hl. fold kinds in Ha, Hk.
  destruct (accounts_sums kinds (mkBooks no_communication [] 0)) as (H1 & H2 & H3 & H4).
  destruct (accounts_small kinds (mkBooks no_communication [] 0) eq_refl eq_refl eq_refl) as (K1 & K2 & K3).
  rewrite Ha in *. cbn [books_communication books_tokens books_forwards no_communication tensor_bytes_sent
    control_bytes_sent] in *. change (lenN (@nil N)) with 0%N in H3. rewrite N.add_0_l in H1, H2, H3, H4.
  destruct (transcript_steps manifest (pr_assignment report) resources (pr_stop_reason report) rounds) as [Hs Hn].
  rewrite <- Hk in Hs, Hn. rewrite (sent_kind_sum _ Hn) in *.
  assert (how_many is_decode_start kinds <= lenN kinds)%N as Hle.
  { rewrite <- sum_how_many. clear. unfold lenN. induction kinds as [|k l IH]; [cbn; lia|].
    cbn [map sumN length]. destruct (is_decode_start k); lia. }
  rewrite !wrap64_small in H1, H2, H4 by lia. split_and!; [lia|done|lia].
Qed.

(** C10: the dashboard shows what the reports say.  Take the events that [n]
    pipeline ranks recorded in runs that succeeded, with clock readings of any
    kind and interleaved in any way.  As long as nothing overflows, a new
    dashboard of [n] ranks that has applied them shows as bytes what the reports
    count as sent, as tokens those generated, and as decode steps those of
    rank 0's report.  The bytes are those of tensors and of control messages: the
    comment on the field says logical tensor payload bytes, and the code adds both. *)
Theorem dashboard_shows_reports n manifest resources reports recorders s es :
  0 < n -> length (ds_ranks s) = n -> ds_communication_bytes s = 0%N -> ds_generated_tokens s = 0%N ->
  ds_decode_count s = 0%N ->
  (forall i, i < n -> recorded_run (mkRank i n) manifest (resources i) (reports i) (recorders i)) ->
  (forall i, i < n -> map timed (of_rank i es) = recorded (recorders i)) ->
  Forall (fun e => rank_of e < n) es -> (sumN (omap sent_of es) < U64)%N -> (lenN es < U64)%N ->
  let s' := foldl dashboard_apply s es in
  ds_communication_bytes s' = sumN (map (fun i => tensor_bytes_sent (pr_communication (reports i))
                                                  + control_bytes_sent (pr_communication (reports i)))%N (seq 0 n)) /\
  ds_generated_tokens s' = sumN (map (fun i => lenN (pr_generated_tokens (reports i))) (seq 0 n)) /\
  ds_decode_count s' = pr_decode_forward_count (reports 0).
Proof.
  intros Hn Hlen Hb0 Ht0 Hd0 Hrec Hes Hranks Hbytes Hcount s'.
  assert (filter (known s) es = es) as Hknown.
  { clear -Hranks Hlen. induction es as [|e es IH]; [done|]. apply List.Forall_cons_iff in Hranks as [He H].
    rewrite filter_cons_True by (unfold known; rewrite Hlen; destruct (Nat.ltb_spec (rank_of e) n); [done|lia]). by rewrite IH. }
  pose proof (totals_fold s es) as H. fold s' in H. unfold totals_of at 2 in H.
  rewrite Hb0, Ht0, Hd0, Hknown, foldl_totals in H. cbn [fst snd] in H.
  rewrite foldl_bytes, foldl_decodes in H by apply N.le_0_l.
  change (foldl counted_tokens 0%N es) with (foldl counted_tokens (wrap64 0) es) in H. rewrite foldl_tokens in H.
  injection H as -> -> ->. rewrite !N.add_0_l, !sum_filter. rewrite sum_omap in *.
  assert (forall (f : RunEventKind -> N) i, i < n ->
    sumN (map (fun e => f (kind_of e)) (of_rank i es)) = sumN (map f (kinds_of (recorders i)))) as Hf
    by (intros f i Hi; by apply sum_map_timed, Hes).
  assert (forall f : RunEventKind -> N, sumN (map (fun e => f (kind_of e)) es)
    = sumN (map (fun i => sumN (map f (kinds_of (recorders i)))) (seq 0 n))) as Hsum.
  { intros f. rewrite (sum_by_rank _ n) by done. by apply sum_ext, Hf. }
  assert (forall i, i < n -> (sumN (map sent_kind (kinds_of (recorders i))) < U64)%N /\
    (lenN (kinds_of (recorders i)) < U64)%N) as Hsmall.
  { intros i Hi. assert (i ∈ seq 0 n) as Hin by (apply elem_of_seq; lia). split.
    - eapply N.le_lt_trans; [exact (sum_le (fun i => sumN (map sent_kind (kinds_of (recorders i)))) _ i Hin)|].
      by rewrite <- Hsum, <- sent_of_kind.
    - rewrite <- sum_ones. eapply N.le_lt_trans;
        [exact (sum_le (fun i => sumN (map (fun _ => 1%N) (kinds_of (recorders i)))) _ i Hin)|].
      by rewrite <- Hsum, sum_ones. }
  pose proof (fun i Hi => recorded_sums _ _ _ _ _ (Hrec i Hi) (proj1 (Hsmall i Hi)) (proj2 (Hsmall i Hi))) as Hr.
  split_and!.
  - rewrite sent_of_kind, Hsum in *. rewrite N.min_l by (unfold U64_MAX; lia).
    apply sum_ext. intros i Hi. symmetry. apply Hr, Hi.
  - rewrite wrap64_small.
    + etrans; [exact (Hsum (fun kind => if is_announcement kind then 1%N else 0%N))|].
      apply sum_ext. intros i Hi. rewrite sum_how_many. symmetry. apply Hr, Hi.
    + rewrite <- sum_filter. eapply N.le_lt_trans; [|exact Hcount]. apply lenN_filter_le.
  - rewrite N.min_l.
    + rewrite (sum_by_rank _ n) by done.
      rewrite (sum_ext _ (fun i => if Nat.eqb i 0 then pr_decode_forward_count (reports 0) else 0%N)); [by apply sum_head|].
      intros i Hi. destruct (Nat.eqb_spec i 0) as [->|Hne].
      * rewrite (proj2 (proj2 (Hr 0 Hi))), <- sum_how_many, <- Hf by done. f_equal. apply map_ext_in.
        intros e He%list_elem_of_In. apply list_elem_of_filter in He as [He _]. unfold decode_finished. by rewrite He.
      * transitivity (sumN (map (fun _ : TimedEvent => 0%N) (of_rank i es))).
        -- f_equal. apply map_ext_in. intros e He%list_elem_of_In. apply list_elem_of_filter in He as [He _].
           unfold decode_finished. rewrite He. destruct (Nat.eqb_spec i 0); [done|done].
        -- clear. by induction (of_rank i es).
    + rewrite <- sum_filter. unfold U64_MAX. pose proof (lenN_filter_le decode_finished es). lia.
Qed.
End Shown.
