(* ===== verification/PipelineEventsExamples.v ===== *)
(** * A run with its events

    The pair of ranks of [PipelineExamples] with their recorders, a round
    evaluated, and a run of one round before a dashboard. *)
From S2P Require Import Prelude Rank Packet Mailbox World Tensor Registry Memory Partition Protocol.
From S2P Require Import Report Cache Kernels Llama LlamaStage Artifacts Generation GenerationProofs Shapes Pipeline PipelineWorld.
From S2P Require Import PipelineProofs ModelExamples PipelineExamples Collect CollectProofs Observe PipelineEvents PipelineEventsProofs.
From S2P Require Import Transcript Dashboard DashboardProofs DashboardRun.

#[local] Existing Instances flat_floats flat_kernels flat_laws byte_codec byte_codec_laws pair_host pair_runtime.

(** A decode step of the second of two ranks, with one layer. *)
Example second_rank_round resources :
  pipeline_round_events pair_manifest (mkStage 1 2 1 2 false true false) resources 3
    (mkRoundFacts (mkTensor Cpu F32 [1; 1; 2] []) (mkTensor Cpu F32 [1; 1; 2] []) 7 9 Continue None)
  = [DecodeStepStarted 3; TensorReceived 0 Activation Decode 3 [1; 1; 2] 8; LayerStarted 1 Decode 3;
     LayerCompleted 1 Decode 3; ControlSent 0 TokenFeedback Decode 3 13; ControlReceived 0 DecisionPurpose Decode 3 9;
     DecodeStepFinished 3; sample resources].
Proof. reflexivity. Qed.

Lemma pair_admitted i : i < 2 -> exists plan, admitted pair_manifest (pair_resources i) i plan.
Proof.
  intros Hi. exists pair_plan. split; [|split; [discriminate|by split; left]].
  destruct i as [|[|i]]; [done|done|lia].
Qed.

(** The premises of a run, and the run of the ranks without recorders. *)
Lemma pair_together : exists reports : nat -> PipelineRankReport,
  together 2 (fun i => run_pipeline_rank 1 (mkRank i 2) pair_manifest (pair_resources i))
    (fun i => Ok (Some (reports i))).
Proof.
  destruct (zero_model 2) as [model Hm]. destruct (zero_cache 2 ltac:(by left)) as [kv Hk].
  destruct (zero_run pair_tokenizer 0 recorder_new model kv (fun _ _ => eq_refl) Hm Hk) as (s & Hrun & _).
  destruct (pipeline_world 2 pair_manifest SMOLLM2 pair_resources pair_tokenizer zero_weights model kv
    1 1 recorder_new MaxNewTokens s "text" eq_refl eq_refl ltac:(by vm_compute) pair_admitted eq_refl zero_weights_wf
    eq_refl Hm Hk ltac:(cbn; lia) ltac:(cbn; lia) Hrun eq_refl) as (reports & Ht & _).
  by exists reports.
Qed.

Lemma pipeline_events_true_witness : exists tr report recorder,
  exec (mkRank 1 2) (run_observed_rank 1 (mkRank 1 2) pair_manifest (pair_resources 1)) tr
    (Ret (Ok (Some report), recorder)) /\
  recorded_run (mkRank 1 2) pair_manifest (pair_resources 1) report recorder.
Proof.
  destruct pair_together as (reports & Ht).
  destruct (together_erases (rank_recorder_new 0 "" "") 2 _
    (fun i => run_observed_rank 1 (mkRank i 2) pair_manifest (pair_resources i)) _ Ht) as (recorders & tr & Hex & _).
  { intros i _. apply observes_rank. }
  exists (tr 1), (reports 1), (recorders 1). split; [exact (Hex 1 ltac:(lia))|].
  apply (pipeline_events_true 1 _ _ _ (tr 1)). exact (Hex 1 ltac:(lia)).
Defined.

Lemma observed_pipeline_generates_witness : exists tokens recorders reports,
  always_returns
    (start (map (fun i => run_observed_rank 1 (mkRank i 2) pair_manifest (pair_resources i)) (seq 0 2)))
    (map (fun i => (Ok (Some (reports i)), recorders i)) (seq 0 2)) /\
  books_tokens (accounts (kinds_of (recorders 0)) (mkBooks no_communication [] 0)) = tokens /\
  recorded_run (mkRank 1 2) pair_manifest (pair_resources 1) (reports 1) (recorders 1).
Proof.
  destruct (zero_model 2) as [model Hm]. destruct (zero_cache 2 ltac:(by left)) as [kv Hk].
  destruct (zero_run pair_tokenizer 0 recorder_new model kv (fun _ _ => eq_refl) Hm Hk) as (s & Hrun & _).
  destruct (observed_pipeline_generates 2 pair_manifest SMOLLM2 pair_resources pair_tokenizer zero_weights model kv
    1 1 recorder_new MaxNewTokens s "text" eq_refl eq_refl ltac:(by vm_compute) pair_admitted eq_refl zero_weights_wf
    eq_refl Hm Hk ltac:(cbn; lia) ltac:(cbn; lia) Hrun eq_refl) as (reports & recorders & _ & Hret & Hrec).
  exists (generated s), recorders, reports. split; [exact Hret|].
  split; [apply (Hrec 0 ltac:(lia))|apply (Hrec 1 ltac:(lia))].
Defined.

(** ** A run of one round before a dashboard *)
Definition shown_tensor : Tensor := mkTensor Cpu F32 [1; 1; 2] [].
Definition shown_assignment (i : nat) : StageAssignment :=
  if Nat.eqb i 0 then mkStage 0 2 0 1 true false false else mkStage 1 2 1 2 false true false.
Definition shown_facts (i : nat) : RoundFacts :=
  if Nat.eqb i 0 then mkRoundFacts shown_tensor shown_tensor 0 13 (Stop MaxNewTokens) (Some (7%N, "t"))
  else mkRoundFacts shown_tensor shown_tensor 7 9 (Stop MaxNewTokens) None.
Definition shown_kinds (i : nat) : list RunEventKind :=
  transcript pair_manifest (shown_assignment i) (pair_resources i) MaxNewTokens [shown_facts i].
Definition shown_recorder (i : nat) : RankRecorder :=
  noted rank_emit (shown_kinds i) (rank_recorder_new i "run" "request").
Definition shown_report (i : nat) : PipelineRankReport :=
  let books := accounts (shown_kinds i) (mkBooks no_communication [] 0) in
  mkRankReport i (shown_assignment i) pair_plan (pair_resources i) 0 (books_communication books) (books_forwards books)
    (books_tokens books) "t" MaxNewTokens true true.
Definition shown_events : list TimedEvent :=
  let at_rank i := map (fun e => mkTimed e 5 1) (recorded (shown_recorder i)) in
  alternate (at_rank 0) (at_rank 1).

Lemma shown_recorded i : i < 2 ->
  recorded_run (mkRank i 2) pair_manifest (pair_resources i) (shown_report i) (shown_recorder i).
Proof.
  intros Hi. exists [shown_facts i]. unfold shown_recorder. rewrite kinds_of_noted. split_and!.
  - done.
  - intros Hl. by apply rank_emit_numbered.
  - change (kinds_of (rank_recorder_new i "run" "request") ++ shown_kinds i) with (shown_kinds i).
    cbn [shown_report pr_communication pr_generated_tokens pr_decode_forward_count]. by destruct (accounts _ _).
  - exists 0. by destruct i as [|[|i]].
  - constructor; [|constructor]. by destruct i as [|[|i]]; [|..|lia].
Qed.

Lemma dashboard_shows_reports_witness :
  let s := foldl dashboard_apply demo_dashboard shown_events in
  ds_communication_bytes s = 30%N /\ ds_generated_tokens s = 1%N /\ ds_decode_count s = 0%N.
Proof.
  destruct (dashboard_shows_reports 2 pair_manifest pair_resources shown_report shown_recorder demo_dashboard
    shown_events ltac:(lia) eq_refl eq_refl eq_refl eq_refl shown_recorded) as (H1 & H2 & H3).
  - intros i Hi. destruct i as [|[|i]]; [vm_compute; reflexivity..|lia].
  - apply List.Forall_forall. intros e He. assert (forallb (fun e => Nat.ltb (DashboardProofs.rank_of e) 2) shown_events = true)
      as Hall by (vm_compute; reflexivity).
    apply forallb_forall with (x := e) in Hall; [|done]. by apply Nat.ltb_lt.
  - vm_compute. reflexivity.
  - vm_compute. reflexivity.
  - split; [etransitivity; [exact H1|vm_compute; reflexivity]|].
    split; [etransitivity; [exact H2|vm_compute; reflexivity]|]. etransitivity; [exact H3|vm_compute; reflexivity].
Defined.
