(* ===== verification/TensorEvents.v ===== *)
(** * The events of a tensor rank

    [run_tensor_parallel_rank_observed] of [crates/tensor/src/runner.rs] once more,
    with its emitter: the observer of the collectives, that of the layers of
    [crates/runtime/src/model/tensor_parallel.rs], and every notification of the
    rank at its place.  The emitter numbers as the pipeline's recorder does and is
    that of [Collect].  [TensorEventsProofs] relates these definitions to
    [TensorRun]. *)
From S2P Require Import Prelude Rank Packet Tcp World Tensor Collective Registry Memory Shard Protocol.
From S2P Require Import Cache Kernels Llama Report Artifacts Generation Pipeline Parallel TensorLlama TensorRun.
From S2P Require Import Collect Observe.
Local Open Scope observe_scope.

(** Code of a tensor rank, and of its model, that may emit events. *)
Abbreviation tev := (oproc RankRecorder TensorParallelError).
Abbreviation dev := (oproc RankRecorder DlirError).
Definition emitted {E} (kind : RunEventKind) : oproc RankRecorder E unit := onote (rank_emit kind).

(** [CollectiveEventObserver]. *)
Definition algorithm_name (algorithm : CollectiveAlgorithm) : string :=
  match algorithm with
  | Direct => "Direct" | Centralized => "Centralized" | Pairwise => "Pairwise" | Ring => "Ring"
  end.
Definition collective_started (d : CollectiveDescriptor) : RunEventKind :=
  TensorCollectiveStarted (to_ascii_lowercase (kind_debug (kind d)))
    (to_ascii_lowercase (algorithm_name (algorithm d))) (sequence d) (input_shape d).
Definition collective_completed (t : CollectiveTrace) : RunEventKind :=
  TensorCollectiveCompleted (to_ascii_lowercase (kind_debug (kind (descriptor t)))) (sequence (descriptor t))
    (sent_bytes t) (received_bytes t).

Section Layers.
Context {FO : FloatOps} {KE : Kernels}.

(** ** Collectives *)

(** A collective operation with the observer told of both ends. *)
Definition observe_collective (self : NativeCollectives) (kind : CollectiveKind) (algorithm : CollectiveAlgorithm)
  (root axis : option nat) (tensor : Tensor) (body : N -> cproc (Tensor * N * N)) : dev (Tensor * NativeCollectives) :=
  match begin self kind algorithm root axis tensor with
  | (Err e, _) => oret (Err (DlirCollective e))
  | (Ok d, self) =>
      _ ⟸ emitted (collective_started d);
      r ⟸ oerr DlirCollective (ocall (body (sequence d)));
      _ ⟸ emitted (collective_completed (mkTrace d (Some (dims r.1.1)) r.1.2 r.2 (ns (elapsed self (sequence d)))));
      oret (Ok (r.1.1, Collective.finish self d (Some r.1.1) r.1.2 r.2))
  end.
Definition observe_all_gather (self : NativeCollectives) (tensor : Tensor) (axis : nat) :=
  observe_collective self AllGather Centralized (Some 0) (Some axis) tensor
    (all_gather_body (rank self) tensor axis).
Definition observe_all_reduce (self : NativeCollectives) (tensor : Tensor) (algorithm : AllReduceAlgorithm) :=
  observe_collective self AllReduce
    (match algorithm with CentralizedAllReduce => Centralized | RingAllReduce => Ring end)
    (if bool_decide (algorithm = CentralizedAllReduce) then Some 0 else None) None tensor
    (match algorithm with
     | CentralizedAllReduce => centralized_all_reduce (rank self) tensor
     | RingAllReduce => ring_all_reduce (rank self) tensor
     end).

(** ** Layers *)

(** [RowParallelLinear], [VocabParallelEmbedding], [ColumnParallelLinear]. *)
Definition observe_row (self : RowParallelLinear) (local_input : Tensor) (nc : NativeCollectives)
  : dev (Tensor * NativeCollectives) :=
  partial ⟸ oret (candle (linear (row_weight self) local_input));
  observe_all_reduce nc partial (row_algorithm self).
Definition observe_vocab (self : VocabParallelEmbedding) (token_ids : Tensor) (nc : NativeCollectives)
  : dev (Tensor * NativeCollectives) :=
  local ⟸ oret (vocab_local self token_ids);
  observe_all_reduce nc local (vocab_algorithm self).
Definition observe_column (self : ColumnParallelLinear) (input : Tensor) (nc : NativeCollectives)
  : dev (Tensor * NativeCollectives) :=
  local ⟸ oret (candle (linear (column_weight self) input));
  if gather_output self
  then
    axis ⟸ oret (match length (dims local) with
                 | O => Err (InvalidConfig "linear output cannot be scalar")
                 | S axis => Ok axis
                 end);
    r ⟸ observe_all_gather nc local axis;
    width ⟸ oret (candle (dim r.1 axis));
    _ ⟸ oret (reject_if (negb (Nat.eqb width (global_output_features self)))
      (InvalidConfig "column-parallel gather produced the wrong output width"));
    oret (Ok r)
  else oret (Ok (local, nc)).

(** [TensorParallelAttention], [TensorParallelMlp], [TensorParallelBlock]. *)
Definition observe_attention (self : TensorParallelAttention) (input : Tensor)
    (position layer : nat) (rope : RotaryEmbedding) (cache : KvCache) (nc : NativeCollectives)
  : dev (Tensor * KvCache * NativeCollectives) :=
  local ⟸ oret (attention_local self input position layer rope cache);
  r ⟸ observe_row (to_proj self) local.1 nc;
  oret (Ok (r.1, local.2, r.2)).
Definition observe_mlp (self : TensorParallelMlp) (input : Tensor) (nc : NativeCollectives)
  : dev (Tensor * NativeCollectives) :=
  local ⟸ oret (mlp_local self input);
  observe_row (tdown_proj self) local nc.
Definition observe_block (self : TensorParallelBlock) (input : Tensor) (position layer : nat)
    (rope : RotaryEmbedding) (cache : KvCache) (nc : NativeCollectives)
  : dev (Tensor * KvCache * NativeCollectives) :=
  normed ⟸ oret (candle (rms_norm (tinput_norm self) (tblock_eps self) input));
  a ⟸ observe_attention (tattention self) normed position layer rope cache nc;
  hidden ⟸ oret (candle (add input a.1.1));
  normed ⟸ oret (candle (rms_norm (tpost_norm self) (tblock_eps self) hidden));
  m ⟸ observe_mlp (tmlp self) normed a.2;
  result ⟸ oret (candle (add hidden m.1));
  oret (Ok (result, a.1.2, m.2)).

(** [LayerEventObserver]. *)
Definition tensor_layer_started (phase : ExecutionPhase) (step : N) (layer : nat) : dev unit :=
  emitted (LayerStarted layer phase step).
Definition tensor_layer_completed (phase : ExecutionPhase) (step : N) (layer : nat) : dev unit :=
  emitted (LayerCompleted layer phase step).

(** The loop of [forward_observed] with its observer, and the whole pass. *)
Fixpoint observe_tensor_blocks (phase : ExecutionPhase) (step : N) (blocks : list TensorParallelBlock) (layer : nat)
    (hidden : Tensor) (position : nat) (rope : RotaryEmbedding) (cache : KvCache) (nc : NativeCollectives)
  : dev (Tensor * KvCache * NativeCollectives) :=
  match blocks with
  | [] => oret (Ok (hidden, cache, nc))
  | block :: blocks =>
      _ ⟸ tensor_layer_started phase step layer;
      r ⟸ observe_block block hidden position layer rope cache nc;
      _ ⟸ tensor_layer_completed phase step layer;
      observe_tensor_blocks phase step blocks (S layer) r.1.1 position rope r.1.2 r.2
  end.
Definition observe_forward (phase : ExecutionPhase) (step : N) (self : TensorParallelLlama) (token_ids : Tensor)
    (position : nat) (cache : KvCache) (nc : NativeCollectives) : dev (Tensor * KvCache * NativeCollectives) :=
  sequence ⟸ oret (tensor_forward_checks self token_ids position cache nc);
  e ⟸ observe_vocab (tl_embeddings self) token_ids nc;
  b ⟸ observe_tensor_blocks phase step (tl_blocks self) 0 e.1 position (tl_rope self) cache e.2;
  last ⟸ oret (candle (hidden ← rms_norm (tl_final_norm self) (tl_norm_eps self) b.1.1;
                       index_axis hidden 1 (sequence - 1)));
  l ⟸ observe_column (tl_lm_head self) last b.2;
  logits ⟸ oret (candle (to_dtype F32 l.1));
  oret (Ok (logits, b.1.2, l.2)).
End Layers.

(** ** Steps *)
Section Steps.
Context {FO : FloatOps} {KE : Kernels} {JC : JsonCodec TokenDecision}.
Context (eos requested effective tensor_parallel : N) (rank : nat) (model : TensorParallelLlama)
  (prompt_tokens : N).

Fixpoint observe_send_bytes (peers : list nat) (tag : MessageTag) (phase : ExecutionPhase) (step : N)
    (bytes : list byte) : tev unit :=
  match peers with
  | [] => oret (Ok tt)
  | peer :: peers =>
      _ ⟸ ocall (tcomm (send_control peer tag bytes));
      _ ⟸ emitted (ControlSent peer TensorDecision phase step (lenN bytes));
      observe_send_bytes peers tag phase step bytes
  end.
Definition observe_step_decision (step : N) (logits : Tensor) : tev TokenDecision :=
  if Nat.eqb rank 0
  then
    token ⟸ oret (first_token logits);
    let decision := decision_of eos requested effective step token in
    bytes ⟸ oret (map_err TensorJson (to_vec decision));
    _ ⟸ observe_send_bytes (seq 1 (N.to_nat tensor_parallel - 1)) (tensor_decision_tag step) (phase_of step) step bytes;
    oret (Ok decision)
  else
    bytes ⟸ ocall (tcomm (recv_control 0 (tensor_decision_tag step)));
    _ ⟸ emitted (ControlReceived 0 TensorDecision (phase_of step) step (lenN bytes));
    oret (map_err TensorJson (from_slice bytes)).

(** One iteration of the loop, from the event that begins the step. *)
Definition tensor_step_begins (step : N) : RunEventKind :=
  if (step =? 0)%N then PrefillStarted prompt_tokens else DecodeStepStarted step.
Definition tensor_step_ends (step : N) : RunEventKind :=
  if (step =? 0)%N then PrefillFinished else DecodeStepFinished step.
Definition observe_token (d : TokenDecision) : tev unit :=
  if td_emit d && Nat.eqb rank 0 then emitted (TokenGenerated (td_token d) "") else oret (Ok tt).
Definition observe_tensor_step (step : N) (s : TensorRankState)
  : tev ((StopReason * TensorRankState) + TensorRankState) :=
  _ ⟸ emitted (tensor_step_begins step);
  r ⟸ oerr TensorRuntime (observe_forward (phase_of step) step model (ts_input s) (ts_position s) (ts_cache s) (ts_native s));
  let forwards := if (step =? 0)%N then ts_forwards s else add64 (ts_forwards s) 1 in
  d ⟸ observe_step_decision step r.1.1;
  _ ⟸ oret (reject_if (negb (td_step d =? step)%N) (InvalidRequest "stale token decision step"));
  let generated := if td_emit d then ts_generated s ++ [td_token d] else ts_generated s in
  _ ⟸ observe_token d;
  _ ⟸ emitted (tensor_step_ends step);
  if negb (td_continue d)
  then
    reason ⟸ oret (ok_or (td_stop_reason d) (InvalidRequest "terminal decision omitted stop reason"));
    oret (Ok (inl (reason, mkTensorState r.1.2 r.2 (ts_input s) (ts_position s) generated forwards)))
  else
    width ⟸ oret (tcandle (dim (ts_input s) 1));
    oret (Ok (inr (mkTensorState r.1.2 r.2 (token_tensor [td_token d]) (ts_position s + width)
                     generated forwards))).
Fixpoint observe_tensor_steps (remaining : nat) (step : N) (s : TensorRankState)
  : tev (option StopReason * TensorRankState) :=
  match remaining with
  | O => oret (Ok (None, s))
  | S remaining =>
      r ⟸ observe_tensor_step step s;
      match r with
      | inl (reason, s) => oret (Ok (Some reason, s))
      | inr s => observe_tensor_steps remaining (step + 1) s
      end
  end.
End Steps.

(** ** The rank *)
Section Run.
Context {FO : FloatOps} {KE : Kernels} {HO : HostSystem} {RT : Runtime} {SR : ShardedRuntime}
  {JC : JsonCodec TokenDecision}.

Definition emitted_barrier (generation : N) : tev unit :=
  _ ⟸ emitted (CollectiveStarted RBarrier generation);
  _ ⟸ ocall (tcomm barrier);
  emitted (CollectiveCompleted RBarrier generation).

(** Its end: last barrier, traces, text, report. *)
Definition observe_tensor_finish (rank : Rank) (manifest : TensorParallelManifest) (peers : list PeerInfo)
    (resources : ResourceSnapshot) (memory : TensorParallelMemoryPlan) (spec : ModelSpec) (tokenizer : option Tokenizer)
    (reason : StopReason) (s : TensorRankState) : tev TensorParallelRankReport :=
  _ ⟸ emitted (GenerationFinished reason);
  _ ⟸ emitted_barrier 1;
  let traces := (take_traces (ts_native s)).1 in
  completion ⟸ oret (tensor_completion tokenizer (ts_generated s));
  bytes ⟸ oret (truntime (used_bytes (ts_cache s) (local_config (config spec) (tm_tensor_parallel manifest)) 4));
  oret (Ok {| tp_schema_version := 1;
              tp_run_id := tm_run_id manifest;
              tp_request_id := tm_request_id manifest;
              tp_report_rank := global_rank rank;
              tp_peers := peers;
              tp_memory := memory;
              tp_resources := resources;
              tp_final_kv_cache_bytes := bytes;
              tp_collectives := traces;
              tp_sent_bytes := sum64 (map sent_bytes traces);
              tp_received_bytes := sum64 (map received_bytes traces);
              tp_generated_tokens := ts_generated s;
              tp_completion := completion;
              tp_stop_reason := reason;
              tp_decode_forward_count := ts_forwards s;
              tp_barriers_passed := true;
              tp_success := true |}).

(** [run_tensor_parallel_rank_observed] from the admission on: the emitter is new. *)
Definition observe_tensor_rank (rank : Rank) (manifest : TensorParallelManifest) (peers : list PeerInfo)
    (resources : ResourceSnapshot) (elapsed : N -> Duration) (memory : TensorParallelMemoryPlan) (spec : ModelSpec)
  : tev TensorParallelRankReport :=
  _ ⟸ emitted (MemorySample (memory_current_bytes resources) (memory_limit_bytes resources));
  _ ⟸ emitted ModelLoadStarted;
  l ⟸ oret (load_tensor_rank rank manifest spec);
  _ ⟸ emitted ModelLoadFinished;
  let collectives := with_observer rank elapsed in
  _ ⟸ emitted_barrier 0;
  tokenizer ⟸ oret (load_tensor_tokenizer rank manifest);
  r ⟸ observe_tensor_steps (eos_token_id (config spec)) (tm_requested manifest) (tm_effective manifest)
        (tm_tensor_parallel manifest) (global_rank rank) l.1 (lenN (tm_prompt_token_ids manifest))
        (N.to_nat (tm_effective manifest)) 0
        (mkTensorState l.2 collectives (token_tensor (tm_prompt_token_ids manifest)) 0 [] 0);
  reason ⟸ oret (ok_or r.1 (InvalidRequest "generation ended without a stop reason"));
  observe_tensor_finish rank manifest peers resources memory spec tokenizer reason r.2.

(** [run_tensor_parallel_rank_observed], with the emitter it ends with. *)
Definition run_observed_tensor_rank (rank : Rank) (manifest : TensorParallelManifest)
    (peers : list PeerInfo) (resources : ResourceSnapshot) (elapsed : N -> Duration)
  : proc (tresult TensorParallelRankReport * RankRecorder) :=
  let emitter := rank_recorder_new (global_rank rank) (tm_run_id manifest) (tm_request_id manifest) in
  match admit_tensor_rank rank manifest with
  | Err e => Ret (Err e, emitter)
  | Ok a => observe_tensor_rank rank manifest peers resources elapsed a.1 a.2 emitter
  end.
End Run.
