(* ===== verification/TensorEventsProofs.v ===== *)
(** * The events of a tensor rank, proved

    Observing a tensor rank changes nothing, and its events are a transcript of
    its run: the collectives are the traces of the report, at their places among
    the layers. *)
From S2P Require Import Prelude Rank Packet Tcp World Tensor Collective Registry Memory Shard Protocol.
From S2P Require Import Cache Kernels Llama Report Artifacts Generation Pipeline Parallel TensorLlama TensorRun.
From S2P Require Import Shapes GenerationProofs TensorShapes TensorWorld TensorProofs.
From S2P Require Import Collect CollectProofs Observe TensorEvents.
Local Open Scope observe_scope.

Create HintDb observe_tensor discriminated.

(** ** Erasure *)
Section Erasure.
Context {FO : FloatOps} {KE : Kernels}.

(** A process whose result is processed further, and its observed form. *)
Lemma erases_finish {X A S} (p : proc X) (f : X -> proc A) (g : X * S -> proc (A * S)) s :
  (forall x, erases (f x) (g (x, s))) ->
  erases (p ≫= f) (@mbind proc _ _ _ g (@mbind proc _ _ _ (fun x => Ret (x, s)) p)).
Proof. intros H. induction p; cbn [mbind proc_bind]; [apply H|constructor; auto..]. Qed.

Lemma observes_collective self kind algorithm root axis tensor body :
  observes (collective (run_collective self kind algorithm root axis tensor body Some))
    (observe_collective self kind algorithm root axis tensor body).
Proof.
  unfold collective, run_collective, observe_collective.
  destruct (begin self kind algorithm root axis tensor) as [[d|e] nc]; [|apply observes_ret].
  apply observes_note. intros s. unfold otry, oerr, ocall.
  induction (body (sequence d)) as [r| | | | |]; cbn [mbind proc_bind]; try (constructor; auto).
  destruct r as [[[a sent] received]|e]; constructor.
Qed.

Ltac observes_steps :=
  repeat match goal with
  | |- observes _ (otry (emitted _) _) => apply observes_note
  | |- observes (try_bind _ _) (otry _ _) => apply observes_try; [|intros ?]
  | |- observes (lift ?r) (oret ?r) => apply observes_ret
  | |- observes _ (if ?x then _ else _) => destruct x
  end; auto with observe_tensor.

Lemma observes_all_reduce nc tensor algorithm :
  observes (collective (all_reduce nc tensor Sum algorithm)) (observe_all_reduce nc tensor algorithm).
Proof. apply observes_collective. Qed.
Lemma observes_all_gather nc tensor axis :
  observes (collective (all_gather nc tensor axis)) (observe_all_gather nc tensor axis).
Proof. apply observes_collective. Qed.
#[local] Hint Resolve observes_all_reduce observes_all_gather : observe_tensor.

Lemma observes_row self input nc : observes (row_forward self input nc) (observe_row self input nc).
Proof. unfold row_forward, observe_row. observes_steps. Qed.
Lemma observes_vocab self ids nc : observes (vocab_forward self ids nc) (observe_vocab self ids nc).
Proof. unfold vocab_forward, observe_vocab. observes_steps. Qed.
Lemma observes_column self input nc : observes (column_forward self input nc) (observe_column self input nc).
Proof. unfold column_forward, observe_column. observes_steps. Qed.
#[local] Hint Resolve observes_row observes_vocab observes_column : observe_tensor.
Lemma observes_attention self input position layer rope cache nc :
  observes (tensor_attention_forward self input position layer rope cache nc)
    (observe_attention self input position layer rope cache nc).
Proof. unfold tensor_attention_forward, observe_attention. observes_steps. Qed.
Lemma observes_mlp self input nc : observes (tensor_mlp_forward self input nc) (observe_mlp self input nc).
Proof. unfold tensor_mlp_forward, observe_mlp. observes_steps. Qed.
#[local] Hint Resolve observes_attention observes_mlp : observe_tensor.
Lemma observes_block self input position layer rope cache nc :
  observes (tensor_block_forward self input position layer rope cache nc)
    (observe_block self input position layer rope cache nc).
Proof. unfold tensor_block_forward, observe_block. observes_steps. Qed.
#[local] Hint Resolve observes_block : observe_tensor.
Lemma observes_tensor_blocks phase step bs layer hidden position rope cache nc :
  observes (tensor_blocks_forward bs layer hidden position rope cache nc)
    (observe_tensor_blocks phase step bs layer hidden position rope cache nc).
Proof.
  revert layer hidden cache nc. induction bs as [|b bs IH]; intros layer hidden cache nc;
    cbn [tensor_blocks_forward observe_tensor_blocks]; [apply observes_ret|].
  apply observes_note, observes_try; [auto with observe_tensor|]. intros r. by apply observes_note.
Qed.
#[local] Hint Resolve observes_tensor_blocks : observe_tensor.
Lemma observes_forward phase step self ids position cache nc :
  observes (tensor_forward self ids position cache nc) (observe_forward phase step self ids position cache nc).
Proof.
  unfold tensor_forward, observe_forward, head_forward.
  apply observes_try; [apply observes_ret|intros sequence]. observes_steps.
Qed.
#[local] Hint Resolve observes_forward : observe_tensor.

Section Steps.
Context {JC : JsonCodec TokenDecision}.
Context (eos requested effective tensor_parallel : N) (rank : nat) (model : TensorParallelLlama)
  (prompt_tokens : N).

Lemma observes_send_bytes peers tag phase step bytes :
  observes (send_decision_bytes peers tag bytes) (observe_send_bytes peers tag phase step bytes).
Proof.
  induction peers as [|p ps IH]; cbn [send_decision_bytes observe_send_bytes]; [apply observes_ret|].
  apply observes_try; [apply observes_call|]. intros _. by apply observes_note.
Qed.
#[local] Hint Resolve observes_send_bytes : observe_tensor.
Lemma observes_step_decision step logits :
  observes (step_decision eos requested effective tensor_parallel rank step logits)
    (observe_step_decision eos requested effective tensor_parallel rank step logits).
Proof.
  unfold step_decision, observe_step_decision. destruct (Nat.eqb rank 0); [observes_steps|].
  apply observes_try; [apply observes_call|]. intros bytes. apply observes_note, observes_ret.
Qed.
#[local] Hint Resolve observes_step_decision : observe_tensor.
Lemma observes_tensor_step step s :
  observes (tensor_step eos requested effective tensor_parallel rank model step s)
    (observe_tensor_step eos requested effective tensor_parallel rank model prompt_tokens step s).
Proof.
  unfold tensor_step, observe_tensor_step. apply observes_note.
  apply observes_try; [apply observes_err; auto with observe_tensor|]. intros r.
  apply observes_try; [auto with observe_tensor|]. intros d. apply observes_try; [apply observes_ret|]. intros _.
  unfold observe_token. destruct (td_emit d && Nat.eqb rank 0).
  - do 2 apply observes_note. destruct (negb (td_continue d)); observes_steps.
  - match goal with |- observes ?p (otry (oret (Ok tt)) ?f) => change (observes p (f tt)) end.
    apply observes_note. destruct (negb (td_continue d)); observes_steps.
Qed.
#[local] Hint Resolve observes_tensor_step : observe_tensor.
Lemma observes_tensor_steps remaining step s :
  observes (tensor_steps eos requested effective tensor_parallel rank model remaining step s)
    (observe_tensor_steps eos requested effective tensor_parallel rank model prompt_tokens remaining step s).
Proof.
  revert step s. induction remaining as [|remaining IH]; intros step s; cbn [tensor_steps observe_tensor_steps];
    [apply observes_ret|].
  apply observes_try; [auto with observe_tensor|]. intros [[reason s']|s']; [apply observes_ret|apply IH].
Qed.
End Steps.
End Erasure.

Section Ranks.
Context {FO : FloatOps} {KE : Kernels} {HO : HostSystem} {RT : Runtime} {SR : ShardedRuntime}
  {JC : JsonCodec TokenDecision}.

Lemma observes_emitted_barrier generation : observes (tcomm barrier) (emitted_barrier generation).
Proof.
  unfold emitted_barrier. apply observes_note, observes_step; [apply observes_call|]. intros [] s. constructor.
Qed.

Lemma observes_tensor_rank rank manifest peers resources elapsed :
  erases (run_tensor_parallel_rank rank manifest peers resources elapsed)
    (run_observed_tensor_rank rank manifest peers resources elapsed).
Proof.
  unfold run_tensor_parallel_rank, run_observed_tensor_rank, try_bind at 1, lift at 1. cbn [mbind proc_bind].
  destruct (admit_tensor_rank rank manifest) as [a|e]; [|constructor].
  revert a. intros a. generalize (rank_recorder_new (global_rank rank) (tm_run_id manifest) (tm_request_id manifest)).
  match goal with |- forall s, erases ?p (?m s) => change (observes p m) end.
  unfold observe_tensor_rank. do 2 apply observes_note. apply observes_try; [apply observes_ret|]. intros l.
  apply observes_note. apply observes_try; [apply observes_emitted_barrier|]. intros [].
  apply observes_try; [apply observes_ret|]. intros tokenizer. apply observes_try; [apply observes_tensor_steps|].
  intros r. apply observes_try; [apply observes_ret|]. intros reason. unfold observe_tensor_finish. apply observes_note.
  apply observes_try; [apply observes_emitted_barrier|]. intros [].
  do 2 (apply observes_try; [apply observes_ret|]; intros ?). apply observes_ret.
Qed.
End Ranks.
