(* ===== verification/TensorTranscript.v ===== *)
(** * What the events of a tensor rank say

    The transcript of a successful run of a tensor rank, computed from the traces
    and decisions of its steps, and the proof that the events of [TensorEvents]
    are that transcript: the collectives they announce are the report's, numbered
    from 0, two in every layer and one at each end of a pass. *)
From S2P Require Import Prelude Rank Packet Tcp World Tensor Collective Registry Memory Shard Protocol.
From S2P Require Import Cache Kernels Llama Report Artifacts Generation Pipeline Parallel TensorLlama TensorRun.
From S2P Require Import Shapes GenerationProofs TensorShapes TensorWorld TensorProofs.
From S2P Require Import Collect CollectProofs Observe Transcript TensorEvents TensorEventsProofs.
Local Open Scope observe_scope.

(** ** Transcripts *)

(** What a step did: the collective of the embedding, those of attention and MLP
    in every layer, that of the head; the decision, and its length as received. *)
Record PassFacts : Type := mkPassFacts
  { opening : CollectiveTrace; layered : list (CollectiveTrace * CollectiveTrace); closing : CollectiveTrace;
    decided : TokenDecision; overheard : N }.
Definition pass_traces (facts : PassFacts) : list CollectiveTrace :=
  opening facts :: flat_map (fun p => [p.1; p.2]) (layered facts) ++ [closing facts].
Definition tokens_of (facts : PassFacts) : list N :=
  if td_emit (decided facts) then [td_token (decided facts)] else [].
Definition trace_events (t : CollectiveTrace) : list RunEventKind :=
  [collective_started (descriptor t); collective_completed t].
Fixpoint layered_events (phase : ExecutionPhase) (step : N) (layer : nat)
    (l : list (CollectiveTrace * CollectiveTrace)) : list RunEventKind :=
  match l with
  | [] => []
  | p :: l => LayerStarted layer phase step :: trace_events p.1 ++ trace_events p.2 ++
              LayerCompleted layer phase step :: layered_events phase step (S layer) l
  end.
Definition pass_events (phase : ExecutionPhase) (step : N) (facts : PassFacts) : list RunEventKind :=
  trace_events (opening facts) ++ layered_events phase step 0 (layered facts) ++ trace_events (closing facts).

(** The completions among events, and those of traces. *)
Definition completions (kinds : list RunEventKind) : list (N * N * N) :=
  omap (fun kind => match kind with
                    | TensorCollectiveCompleted _ sequence sent received => Some (sequence, sent, received)
                    | _ => None
                    end) kinds.
Definition completion (t : CollectiveTrace) : N * N * N := (sequence (descriptor t), sent_bytes t, received_bytes t).

Section Transcript.
Context {JC : JsonCodec TokenDecision}.
Context (rank : nat) (tensor_parallel prompt_tokens : N).

Definition decision_length (d : TokenDecision) : N := match to_vec d with Ok bytes => lenN bytes | Err _ => 0 end.
Definition decision_events (step : N) (facts : PassFacts) : list RunEventKind :=
  if Nat.eqb rank 0
  then map (fun peer => ControlSent peer TensorDecision (phase_of step) step (decision_length (decided facts)))
         (seq 1 (N.to_nat tensor_parallel - 1))
  else [ControlReceived 0 TensorDecision (phase_of step) step (overheard facts)].
Definition token_events (facts : PassFacts) : list RunEventKind :=
  if td_emit (decided facts) && Nat.eqb rank 0 then [TokenGenerated (td_token (decided facts)) ""] else [].
Definition tensor_round_events (step : N) (facts : PassFacts) : list RunEventKind :=
  tensor_step_begins prompt_tokens step :: pass_events (phase_of step) step facts ++
  decision_events step facts ++ token_events facts ++ [tensor_step_ends step].
Fixpoint tensor_rounds_events (step : N) (rounds : list PassFacts) : list RunEventKind :=
  match rounds with
  | [] => []
  | facts :: rounds => tensor_round_events step facts ++ tensor_rounds_events (step + 1) rounds
  end.
Definition tensor_transcript (resources : ResourceSnapshot) (reason : StopReason) (rounds : list PassFacts)
  : list RunEventKind :=
  [MemorySample (memory_current_bytes resources) (memory_limit_bytes resources); ModelLoadStarted; ModelLoadFinished] ++
  barrier_events 0 ++ tensor_rounds_events 0 rounds ++ GenerationFinished reason :: barrier_events 1.
End Transcript.

(** A pass over [layers] layers: sums, and one gathering at the end. *)
Definition pass_over (layers : nat) (facts : PassFacts) : Prop :=
  length (layered facts) = layers /\
  Forall (fun t => kind (descriptor t) = AllReduce)
    (opening facts :: flat_map (fun p => [p.1; p.2]) (layered facts)) /\
  kind (descriptor (closing facts)) = AllGather.

(** The collectives conducted between two states. *)
Definition conducted (nc : NativeCollectives) (ts : list CollectiveTrace) (nc' : NativeCollectives) : Prop :=
  traces nc' = traces nc ++ ts /\ Collective.next_sequence nc' = (Collective.next_sequence nc + lenN ts)%N /\
  forall i t, ts !! i = Some t -> sequence (descriptor t) = (Collective.next_sequence nc + N.of_nat i)%N.

Lemma conducted_nil nc : conducted nc [] nc.
Proof. split; [by rewrite app_nil_r|]. split; [unfold lenN; cbn; lia|]. intros i t H. by destruct i. Qed.
Lemma conducted_app nc xs nc1 ys nc2 : conducted nc xs nc1 -> conducted nc1 ys nc2 -> conducted nc (xs ++ ys) nc2.
Proof.
  intros (H1 & H2 & H3) (K1 & K2 & K3). split; [by rewrite K1, H1, app_assoc|].
  split; [rewrite K2, H2; unfold lenN; rewrite length_app; lia|]. intros i t Hi.
  apply lookup_app_Some in Hi as [Hi|[Hl Hi]]; [by apply H3|]. rewrite (K3 _ _ Hi), H2. unfold lenN. lia.
Qed.

(** ** Passes *)
Section Passes.
Context {FO : FloatOps} {KE : Kernels}.
Abbreviation tensor_yields := (yields rank_emit).

Lemma collective_yields nc kind' algorithm' root axis tensor body :
  tensor_yields (observe_collective nc kind' algorithm' root axis tensor body) (fun r ks => exists t,
    ks = trace_events t /\ kind (descriptor t) = kind' /\ conducted nc [t] r.2).
Proof.
  unfold observe_collective. destruct (begin nc kind' algorithm' root axis tensor) as [[d|e] nc1] eqn:Hb;
    [|by apply yields_ret].
  unfold begin in Hb. destruct (_ ← ensure_f32_cpu tensor; _) as [next|] eqn:Hn; [|done].
  apply bind_Ok in Hn as (? & _ & Hn%ok_or_Ok%checked_add_Some). destruct Hn as [-> _].
  destruct (_ ← collective_tag _ _ _ _; _) as [d'|] eqn:Hd; [|done]. injection Hb as -> <-.
  do 3 (apply bind_Ok in Hd as (? & _ & Hd)). apply bind_Ok in Hd as (bytes & _ & [= <-]).
  apply yields_note. eapply (yields_try _ _ (fun _ xs => xs = [])).
  { apply yields_err. intros s. unfold ocall. eapply leaves_bind; [apply leaves_any|].
    intros [a|e] _; cbn; [by exists []|done]. }
  intros r xs ->. apply yields_note, yields_ret. intros _ [= <-]. eexists (mkTrace _ _ _ _ _). split; [done|].
  split; [done|]. split; [done|]. split; [done|]. intros [|i] t Hi; [|done]. injection Hi as <-. cbn. lia.
Qed.
Lemma all_reduce_yields nc tensor algorithm' :
  tensor_yields (observe_all_reduce nc tensor algorithm') (fun r ks => exists t,
    ks = trace_events t /\ kind (descriptor t) = AllReduce /\ conducted nc [t] r.2).
Proof. apply collective_yields. Qed.
Lemma row_yields self input nc :
  tensor_yields (observe_row self input nc) (fun r ks => exists t,
    ks = trace_events t /\ kind (descriptor t) = AllReduce /\ conducted nc [t] r.2).
Proof. unfold observe_row. apply yields_pure. intros partial _. apply all_reduce_yields. Qed.
Lemma block_yields self input position layer rope cache nc :
  tensor_yields (observe_block self input position layer rope cache nc) (fun r ks => exists p,
    ks = trace_events p.1 ++ trace_events p.2 /\ kind (descriptor p.1) = AllReduce /\
    kind (descriptor p.2) = AllReduce /\ conducted nc [p.1; p.2] r.2).
Proof.
  unfold observe_block. apply yields_pure. intros normed _. eapply yields_try.
  { unfold observe_attention. apply yields_pure. intros local _. eapply yields_try; [apply row_yields|].
    intros r xs (t & -> & Hk & Hc). apply yields_ret. intros _ [= <-].
    instantiate (1 := fun r ks => exists t, ks = trace_events t /\ kind (descriptor t) = AllReduce /\ conducted nc [t] r.2).
    exists t. rewrite app_nil_r. by split. }
  intros a xs (t & -> & Hk & Hc). do 2 (apply yields_pure; intros ? _). eapply yields_try.
  { unfold observe_mlp. apply yields_pure. intros local _. apply row_yields. }
  intros m ys (u & -> & Hk' & Hc'). apply yields_pure. intros result _. apply yields_ret. intros _ [= <-].
  exists (t, u). rewrite app_nil_r. split_and!; try done. exact (conducted_app _ [t] _ [u] _ Hc Hc').
Qed.

Lemma layers_yields phase step bs layer hidden position rope cache nc :
  tensor_yields (observe_tensor_blocks phase step bs layer hidden position rope cache nc) (fun r ks => exists l,
    ks = layered_events phase step layer l /\ length l = length bs /\
    Forall (fun t => kind (descriptor t) = AllReduce) (flat_map (fun p => [p.1; p.2]) l) /\
    conducted nc (flat_map (fun p => [p.1; p.2]) l) r.2).
Proof.
  revert layer hidden cache nc. induction bs as [|b bs IH]; intros layer hidden cache nc; cbn [observe_tensor_blocks].
  - apply yields_ret. intros _ [= <-]. exists []. split_and!; [done..|apply conducted_nil].
  - apply yields_note. eapply yields_try; [apply block_yields|]. intros r xs (p & -> & H1 & H2 & Hc).
    apply yields_note. eapply yields_mono; [apply IH|]. intros r' ys (l & -> & Hl & Hf & Hc').
    exists (p :: l). cbn [layered_events flat_map length]. split_and!.
    + by rewrite <- app_assoc.
    + by rewrite Hl.
    + by repeat constructor.
    + exact (conducted_app _ [p.1; p.2] _ _ _ Hc Hc').
Qed.

(** A pass of a model whose head gathers. *)
Lemma forward_yields phase step self ids position cache nc :
  gather_output (tl_lm_head self) = true ->
  tensor_yields (observe_forward phase step self ids position cache nc) (fun r ks =>
    forall d n, exists e l h, let facts := mkPassFacts e l h d n in
    ks = pass_events phase step facts /\ pass_over (length (tl_blocks self)) facts /\
    conducted nc (pass_traces facts) r.2).
Proof.
  intros Hg. unfold observe_forward. apply yields_pure. intros sequence _. eapply yields_try.
  { unfold observe_vocab. apply yields_pure. intros local _. apply all_reduce_yields. }
  intros e xs (t & -> & Ht & Hc). eapply yields_try; [apply layers_yields|]. intros b ys (l & -> & Hl & Hf & Hc').
  apply yields_pure. intros last _. eapply yields_try.
  { unfold observe_column. rewrite Hg. apply yields_pure. intros local _. apply yields_pure. intros axis _.
    eapply yields_try; [apply collective_yields|]. intros r zs Hr. do 2 (apply yields_pure; intros ? _).
    apply yields_ret. intros _ [= <-]. rewrite app_nil_r. exact Hr. }
  intros h zs (u & -> & Hu & Hc''). apply yields_pure. intros logits _. apply yields_ret. intros _ [= <-] d n.
  exists t, l, u. rewrite app_nil_r. split_and!; [done| |].
  - split_and!; [done|by constructor|done].
  - exact (conducted_app _ [t] _ _ _ Hc (conducted_app _ _ _ [u] _ Hc' Hc'')).
Qed.
End Passes.

(** ** Steps *)
Section Steps.
Context {FO : FloatOps} {KE : Kernels} {JC : JsonCodec TokenDecision}.
Context (eos requested effective tensor_parallel : N) (rank : nat) (model : TensorParallelLlama)
  (prompt_tokens : N) (Hgather : gather_output (tl_lm_head model) = true).
Abbreviation tensor_yields := (yields rank_emit).

Lemma send_bytes_yields peers tag phase step bytes :
  tensor_yields (observe_send_bytes peers tag phase step bytes) (fun _ ks =>
    ks = map (fun peer => ControlSent peer TensorDecision phase step (lenN bytes)) peers).
Proof.
  induction peers as [|p ps IH]; cbn [observe_send_bytes]; [by apply yields_ret|].
  apply yields_call. intros _. apply yields_note. eapply yields_mono; [apply IH|]. by intros _ ks ->.
Qed.

Lemma decision_yields step logits :
  tensor_yields (observe_step_decision eos requested effective tensor_parallel rank step logits) (fun d ks =>
    exists n, forall e l h, ks = decision_events rank tensor_parallel step (mkPassFacts e l h d n)).
Proof.
  unfold observe_step_decision, decision_events. destruct (Nat.eqb rank 0).
  - apply yields_pure. intros token _. apply yields_pure. intros bytes Hb%map_err_Ok.
    eapply yields_try; [apply send_bytes_yields|]. intros _ xs ->. apply yields_ret. intros _ [= <-].
    exists 0%N. intros e l h. unfold decision_length. cbn [decided]. by rewrite Hb, app_nil_r.
  - apply yields_call. intros bytes. apply yields_note, yields_ret. intros d _. by exists (lenN bytes).
Qed.

(** The decision of a round moves the step on. *)
Definition decides (step : N) (facts : PassFacts) (r : (StopReason * TensorRankState) + TensorRankState) : Prop :=
  td_step (decided facts) = step /\
  match r with
  | inl (reason, _) => td_continue (decided facts) = false /\ td_stop_reason (decided facts) = Some reason
  | inr _ => td_continue (decided facts) = true
  end.
Definition state_of (r : (StopReason * TensorRankState) + TensorRankState) : TensorRankState :=
  match r with inl r => r.2 | inr s => s end.

Lemma step_yields step s :
  tensor_yields (observe_tensor_step eos requested effective tensor_parallel rank model prompt_tokens step s)
    (fun r ks => exists facts,
      ks = tensor_round_events rank tensor_parallel prompt_tokens step facts /\
      pass_over (length (tl_blocks model)) facts /\ decides step facts r /\
      conducted (ts_native s) (pass_traces facts) (ts_native (state_of r)) /\
      ts_generated (state_of r) = ts_generated s ++ tokens_of facts /\
      ts_forwards (state_of r) = if (step =? 0)%N then ts_forwards s else add64 (ts_forwards s) 1).
Proof.
  unfold observe_tensor_step. apply yields_note. eapply yields_try; [by apply yields_err, forward_yields|].
  intros f xs Hf. eapply yields_try; [apply decision_yields|]. intros d ys (n & Hys). 
  destruct (Hf d n) as (e & l & h & -> & Hp & Hc). specialize (Hys e l h).
  apply yields_pure. intros [] Hst%reject_if_Ok. apply negb_false_iff, N.eqb_eq in Hst.
  set (facts := mkPassFacts e l h d n) in *.
  eapply (yields_try _ _ (fun _ zs => zs = token_events rank facts)).
  { unfold observe_token, token_events. cbn [decided facts]. destruct (td_emit d && Nat.eqb rank 0).
    - intros s'. by exists [TokenGenerated (td_token d) ""].
    - by apply yields_ret. }
  intros _ zs ->. apply yields_note.
  assert (ts_generated s ++ tokens_of facts = if td_emit d then ts_generated s ++ [td_token d] else ts_generated s) as Hg.
  { unfold tokens_of. cbn [decided facts]. destruct (td_emit d); [done|apply app_nil_r]. }
  destruct (td_continue d) eqn:Hcont; cbn [negb].
  - apply yields_pure. intros width _. apply yields_ret. intros _ [= <-]. exists facts. cbn [state_of ts_native ts_generated ts_forwards].
    split_and!; [unfold tensor_round_events; by rewrite Hys|done|by split|done|done|done].
  - apply yields_pure. intros reason Hr%ok_or_Ok. apply yields_ret. intros _ [= <-]. exists facts.
    cbn [state_of fst snd ts_native ts_generated ts_forwards].
    split_and!; [unfold tensor_round_events; by rewrite Hys|done| |done|done|done].
    split; [done|by split].
Qed.

(** ** What a round adds up to *)
Lemma accounts_layered phase step layer l books : accounts (layered_events phase step layer l) books = books.
Proof.
  revert layer. induction l as [|p l IH]; intros layer; [done|]. cbn [layered_events].
  exact (IH (S layer)).
Qed.
Lemma accounts_controls phase step n peers books : exists c,
  accounts (map (fun peer => ControlSent peer TensorDecision phase step n) peers) books
  = mkBooks c (books_tokens books) (books_forwards books).
Proof.
  revert books. induction peers as [|p ps IH]; intros books; [exists (books_communication books); by destruct books|].
  exact (IH (account books (ControlSent p TensorDecision phase step n))).
Qed.
Lemma accounts_tensor_round step facts c tokens forwards : exists c',
  accounts (tensor_round_events rank tensor_parallel prompt_tokens step facts) (mkBooks c tokens forwards)
  = mkBooks c' (tokens ++ if Nat.eqb rank 0 then tokens_of facts else [])
      (if (step =? 0)%N then forwards else add64 forwards 1).
Proof.
  assert (exists c', accounts (decision_events rank tensor_parallel step facts)
    (mkBooks c tokens (if (step =? 0)%N then forwards else add64 forwards 1))
    = mkBooks c' tokens (if (step =? 0)%N then forwards else add64 forwards 1)) as (c' & Hc').
  { unfold decision_events. destruct (Nat.eqb rank 0); [|by eexists].
    destruct (accounts_controls (phase_of step) step (decision_length (decided facts))
      (seq 1 (N.to_nat tensor_parallel - 1)) (mkBooks c tokens (if (step =? 0)%N then forwards else add64 forwards 1)))
      as (c' & ->). by exists c'. }
  exists c'. unfold tensor_round_events. cbn [accounts fold_left]. change (fold_left account ?l) with (accounts l).
  assert (account (mkBooks c tokens forwards) (tensor_step_begins prompt_tokens step)
    = mkBooks c tokens (if (step =? 0)%N then forwards else add64 forwards 1)) as ->
    by (unfold tensor_step_begins; by destruct (step =? 0)%N).
  unfold pass_events. rewrite !accounts_app, accounts_layered.
  cbn [trace_events accounts fold_left account collective_started collective_completed].
  change (fold_left account ?l) with (accounts l). rewrite Hc'.
  unfold token_events, tokens_of, tensor_step_ends.
  destruct (td_emit (decided facts)), (Nat.eqb rank 0), (step =? 0)%N; cbn; by rewrite ?app_nil_r.
Qed.

Lemma completions_app xs ys : completions (xs ++ ys) = completions xs ++ completions ys.
Proof. apply omap_app. Qed.
Lemma completions_layered phase step layer l :
  completions (layered_events phase step layer l) = map completion (flat_map (fun p => [p.1; p.2]) l).
Proof.
  revert layer. induction l as [|p l IH]; intros layer; [done|]. cbn [layered_events flat_map map app].
  rewrite <- (IH (S layer)). done.
Qed.
Lemma completions_tensor_round step facts :
  completions (tensor_round_events rank tensor_parallel prompt_tokens step facts) = map completion (pass_traces facts).
Proof.
  assert (completions (decision_events rank tensor_parallel step facts ++ token_events rank facts ++ [tensor_step_ends step])
    = []) as Hn.
  { rewrite !completions_app. unfold decision_events, token_events, tensor_step_ends.
    assert (forall peers, completions (map (fun peer => ControlSent peer TensorDecision (phase_of step) step
      (decision_length (decided facts))) peers) = []) as Hp by (intros peers; by induction peers).
    destruct (Nat.eqb rank 0); rewrite ?Hp; destruct (td_emit _), (step =? 0)%N; done. }
  unfold tensor_round_events, pass_events, pass_traces.
  change (?x :: ?l) with ([x] ++ l) at 1. rewrite completions_app, completions_app, Hn, app_nil_r.
  rewrite !completions_app, completions_layered. cbn [map]. rewrite map_app.
  assert (completions [tensor_step_begins prompt_tokens step] = []) as ->
    by (unfold tensor_step_begins; by destruct (step =? 0)%N). done.
Qed.

(** Decisions step by step, the last of which ends the run. *)
Fixpoint concludes (step : N) (rounds : list PassFacts) (reason : StopReason) : Prop :=
  match rounds with
  | [] => False
  | facts :: rounds =>
      td_step (decided facts) = step /\
      if td_continue (decided facts) then concludes (step + 1) rounds reason
      else rounds = [] /\ td_stop_reason (decided facts) = Some reason
  end.

Lemma steps_yield remaining step s :
  tensor_yields (observe_tensor_steps eos requested effective tensor_parallel rank model prompt_tokens remaining step s)
    (fun r ks => forall reason, r.1 = Some reason -> exists rounds,
      ks = tensor_rounds_events rank tensor_parallel prompt_tokens step rounds /\
      Forall (pass_over (length (tl_blocks model))) rounds /\ concludes step rounds reason /\
      conducted (ts_native s) (flat_map pass_traces rounds) (ts_native r.2) /\
      ts_generated r.2 = ts_generated s ++ flat_map tokens_of rounds /\
      completions ks = map completion (flat_map pass_traces rounds) /\
      forall c tokens, exists c', accounts ks (mkBooks c tokens (ts_forwards s))
        = mkBooks c' (tokens ++ if Nat.eqb rank 0 then flat_map tokens_of rounds else []) (ts_forwards r.2)).
Proof.
  revert step s. induction remaining as [|remaining IH]; intros step s; cbn [observe_tensor_steps].
  - by apply yields_ret; intros _ [= <-].
  - eapply yields_try; [apply step_yields|]. intros r xs (facts & -> & Hp & (Hs & Hd) & Hc & Hg & Hf).
    destruct r as [[why s']|s']; cbn [state_of fst snd] in *.
    + apply yields_ret. intros _ [= <-] reason [= <-]. destruct Hd as [Hd Hr]. exists [facts].
      cbn [fst snd tensor_rounds_events flat_map concludes]. rewrite !app_nil_r, Hd. split_and!; try done.
      * by constructor.
      * apply completions_tensor_round.
      * intros c tokens. destruct (accounts_tensor_round step facts c tokens (ts_forwards s)) as (c' & Ha).
        exists c'. by rewrite Ha, Hf.
    + eapply yields_mono; [apply IH|]. intros r ys H reason Hr.
      destruct (H reason Hr) as (rounds & -> & HF & Hcon & Hc' & Hg' & Hcomp & Ha). exists (facts :: rounds).
      cbn [tensor_rounds_events flat_map concludes]. rewrite Hd. split_and!; try done.
      * by constructor.
      * exact (conducted_app _ _ _ _ _ Hc Hc').
      * by rewrite Hg', Hg, app_assoc.
      * by rewrite completions_app, completions_tensor_round, Hcomp, map_app.
      * intros c tokens. destruct (accounts_tensor_round step facts c tokens (ts_forwards s)) as (c1 & Ha1).
        destruct (Ha c1 (tokens ++ if Nat.eqb rank 0 then tokens_of facts else [])) as (c2 & Ha2).
        exists c2. rewrite accounts_app, Ha1, <- Hf, Ha2. f_equal. destruct (Nat.eqb rank 0); by rewrite <- ?app_assoc, ?app_nil_r.
Qed.
End Steps.

(** ** The rank *)
Section Run.
Context {FO : FloatOps} {KE : Kernels} {HO : HostSystem} {RT : Runtime} {SR : ShardedRuntime}
  {JC : JsonCodec TokenDecision}.

Lemma load_tensor_rank_shape rank manifest spec m kv :
  load_tensor_rank rank manifest spec = Ok (m, kv) ->
  gather_output (tl_lm_head m) = true /\ length (tl_blocks m) = N.to_nat (num_hidden_layers (config spec)).
Proof.
  unfold load_tensor_rank. intros H. apply bind_Ok in H as (vb & _ & H). apply bind_Ok in H as (parallel & _ & H).
  apply bind_Ok in H as (m' & Hm%map_err_Ok & H). apply bind_Ok in H as (kv' & _ & [= -> ->]).
  unfold load_sharded, load_from in Hm. do 3 (apply bind_Ok in Hm as (? & _ & Hm)).
  apply bind_Ok in Hm as (bs & Hb & Hm). do 2 (apply bind_Ok in Hm as (? & _ & Hm)).
  apply bind_Ok in Hm as (head & Hh & Hm). apply bind_Ok in Hm as (? & _ & [= <-]). split; cbn.
  - unfold head_from_weight, column_from_weight in Hh. apply bind_Ok in Hh as ([? ?] & _ & Hh).
    by apply bind_Ok in Hh as (? & _ & [= <-]).
  - apply mapM_Forall2, Forall2_length in Hb. by rewrite <- Hb, length_seq.
Qed.

Lemma emitted_barrier_yields generation :
  yields (E := TensorParallelError) rank_emit (emitted_barrier generation) (fun _ ks => ks = barrier_events generation).
Proof.
  unfold emitted_barrier. apply yields_note, yields_call. intros _ s.
  exists [CollectiveCompleted RBarrier generation]. by split.
Qed.

(** What the emitter of a successful tensor rank holds. *)
Definition recorded_tensor_run (rank : Rank) (manifest : TensorParallelManifest) (resources : ResourceSnapshot)
  (report : TensorParallelRankReport) (recorder : RankRecorder) : Prop := exists rounds layers,
  kinds_of recorder = tensor_transcript (global_rank rank) (tm_tensor_parallel manifest)
    (lenN (tm_prompt_token_ids manifest)) resources (tp_stop_reason report) rounds /\
  ((N.of_nat (length (kinds_of recorder)) < U64)%N -> numbered (global_rank rank) (recorded recorder)) /\
  num_hidden_layers <$> (config <$> spec_of (tm_model manifest)) = Some layers /\
  Forall (pass_over (N.to_nat layers)) rounds /\ concludes 0 rounds (tp_stop_reason report) /\
  tp_collectives report = flat_map pass_traces rounds /\
  (forall i t, tp_collectives report !! i = Some t -> sequence (descriptor t) = N.of_nat i) /\
  completions (kinds_of recorder) = map completion (tp_collectives report) /\
  tp_generated_tokens report = flat_map tokens_of rounds /\
  exists c, accounts (kinds_of recorder) (mkBooks no_communication [] 0)
    = mkBooks c (if Nat.eqb (global_rank rank) 0 then tp_generated_tokens report else [])
        (tp_decode_forward_count report).

Lemma tensor_rank_yields rank manifest peers resources elapsed memory spec :
  yields (E := TensorParallelError) rank_emit (observe_tensor_rank rank manifest peers resources elapsed memory spec)
    (fun report ks => exists rounds,
      ks = tensor_transcript (global_rank rank) (tm_tensor_parallel manifest) (lenN (tm_prompt_token_ids manifest))
             resources (tp_stop_reason report) rounds /\
      Forall (pass_over (N.to_nat (num_hidden_layers (config spec)))) rounds /\
      concludes 0 rounds (tp_stop_reason report) /\
      tp_collectives report = flat_map pass_traces rounds /\
      (forall i t, tp_collectives report !! i = Some t -> sequence (descriptor t) = N.of_nat i) /\
      completions ks = map completion (tp_collectives report) /\
      tp_generated_tokens report = flat_map tokens_of rounds /\
      exists c, accounts ks (mkBooks no_communication [] 0)
        = mkBooks c (if Nat.eqb (global_rank rank) 0 then tp_generated_tokens report else [])
            (tp_decode_forward_count report)).
Proof.
  unfold observe_tensor_rank. do 2 apply yields_note. apply yields_pure. intros [m kv] Hl.
  apply load_tensor_rank_shape in Hl as [Hgather Hlen]. apply yields_note.
  eapply yields_try; [apply emitted_barrier_yields|]. intros _ xs ->. apply yields_pure. intros tokenizer _.
  eapply yields_try; [by apply steps_yield|]. intros r ys Hys. apply yields_pure. intros reason Hr%ok_or_Ok.
  destruct (Hys reason Hr) as (rounds & -> & HF & Hcon & (Ht & _ & Hseq) & Hg & Hcomp & Ha). clear Hys.
  rewrite <- Hlen. unfold observe_tensor_finish. apply yields_note. eapply yields_try; [apply emitted_barrier_yields|]. intros _ zs ->.
  do 2 (apply yields_pure; intros ? _). apply yields_ret. intros _ [= <-]. exists rounds. rewrite !app_nil_r.
  cbn [tp_collectives tp_generated_tokens tp_decode_forward_count tp_stop_reason fst snd ts_native ts_generated
    ts_forwards with_observer traces Collective.next_sequence take_traces app fst] in *.
  split_and!; [done|done|done|done| | |done|].
  - intros i t Hi. rewrite Ht in Hi. rewrite (Hseq i t Hi). lia.
  - rewrite Ht, <- Hcomp. cbn [app]. cbn [completions omap list_omap].
    rewrite !completions_app. by rewrite app_nil_r.
  - destruct (Ha no_communication []) as (c & Hc). exists c. rewrite Hg.
    change (accounts (tensor_transcript (global_rank rank) (tm_tensor_parallel manifest)
      (lenN (tm_prompt_token_ids manifest)) resources reason rounds) (mkBooks no_communication [] 0)
      = mkBooks c (if Nat.eqb (global_rank rank) 0 then flat_map tokens_of rounds else []) (ts_forwards r.2)).
    unfold tensor_transcript. rewrite !accounts_app. etrans; [exact Hc|]. done.
Qed.

Lemma admit_tensor_rank_spec rank manifest a :
  admit_tensor_rank rank manifest = Ok a -> spec_of (tm_model manifest) = Some a.2.
Proof.
  unfold admit_tensor_rank. intros H. do 3 (apply bind_Ok in H as (? & _ & H)).
  by apply bind_Ok in H as (spec & Hs%ok_or_Ok & [= <-]).
Qed.

Lemma tensor_rank_records rank manifest peers resources elapsed :
  leaves (fun x => match x.1 with Ok report => recorded_tensor_run rank manifest resources report x.2 | Err _ => True end)
    (run_observed_tensor_rank rank manifest peers resources elapsed).
Proof.
  unfold run_observed_tensor_rank. destruct (admit_tensor_rank rank manifest) as [a|e] eqn:Ha; [|done].
  apply admit_tensor_rank_spec in Ha.
  eapply leaves_mono; [exact (tensor_rank_yields rank manifest peers resources elapsed a.1 a.2 _)|].
  intros [[report|e] recorder]; cbn [fst snd]; [|done].
  intros (kinds & -> & rounds & Hk & HF & Hcon & Hc & Hseq & Hcomp & Hg & Hacc).
  exists rounds, (num_hidden_layers (config a.2)). rewrite kinds_of_noted.
  cbn [kinds_of rank_recorder_new recorded map app]. rewrite Ha. split_and!; try done.
  intros Hn. by apply rank_emit_numbered.
Qed.

(** C9: the events of a tensor rank are true.  Whatever the world does, the
    emitter of a rank that returns a report holds exactly the transcript of a
    run: loading, the first barrier, one pass after the other - the collective of
    the embedding, two in every layer between its start and its completion, the
    gathering of the head -, each with its decision, the reason, the last
    barrier; numbered without a gap.  The collectives announced are those of the
    report, their sequence numbers are 0, 1, 2, ...; the decisions go on until the
    one that stops for the report's reason, and emit the report's tokens, which
    rank 0 announces; the decode steps are the report's. *)
Theorem tensor_events_true rank manifest peers resources elapsed tr report recorder :
  exec rank (run_observed_tensor_rank rank manifest peers resources elapsed) tr (Ret (Ok report, recorder)) ->
  recorded_tensor_run rank manifest resources report recorder.
Proof. intros H. exact (leaves_exec _ _ _ _ _ H (tensor_rank_records rank manifest peers resources elapsed)). Qed.

Context {KL : KernelLaws KE} {JL : JsonCodecLaws JC token_decision_wf}.

(** C7: observing tensor ranks changes nothing.  Under the hypotheses of
    [tensor_ranks_generate], the ranks with their emitters always terminate with
    the same reports as without, the emitters hold those runs, and rank 0's
    events announce the tokens of the greedy run, the others' none. *)
Theorem observed_tensor_generates n manifest spec budget peers resources elapsed file tokenizer m kv :
  let cfg := config spec in
  tm_schema_version manifest = 1%N -> tm_manifest_dtype manifest = PF32 ->
  tm_tensor_parallel manifest = N.of_nat n -> spec_of (tm_model manifest) = Some spec ->
  plan_spec (tm_model manifest) spec (N.of_nat n) (tm_capacity manifest) budget = Ok (tm_partition manifest) ->
  sharded_file (tm_checkpoint_path manifest) = Ok file -> registered_file spec file ->
  (forall i, i < n -> load_tensor_rank (mkRank i n) manifest spec = Ok (m i, kv i)) ->
  tokenizer_from_file (tm_tokenizer_path manifest) = Ok tokenizer ->
  (forall ids, exists text, tokenizer_decode tokenizer ids = Ok text) ->
  tm_prompt_token_ids manifest <> [] ->
  Forall (fun id => id < vocab_size cfg)%N (tm_prompt_token_ids manifest) ->
  (0 < tm_effective manifest)%N ->
  (lenN (tm_prompt_token_ids manifest) + tm_effective manifest <= tm_capacity manifest)%N ->
  exists reason tokens kv' (reports : nat -> TensorParallelRankReport) (recorders : nat -> RankRecorder),
    sharded_greedy n (tm_all_reduce manifest) m (eos_token_id cfg) (tm_requested manifest)
      (tm_effective manifest) (tm_prompt_token_ids manifest) 0 kv [] reason tokens kv' /\
    always_returns
      (world_of n (fun i => run_tensor_parallel_rank (mkRank i n) manifest (peers i) (resources i) (elapsed i)))
      (map (fun i => Ok (reports i)) (seq 0 n)) /\
    always_returns
      (world_of n (fun i => run_observed_tensor_rank (mkRank i n) manifest (peers i) (resources i) (elapsed i)))
      (map (fun i => (Ok (reports i), recorders i)) (seq 0 n)) /\
    forall i, i < n ->
      recorded_tensor_run (mkRank i n) manifest (resources i) (reports i) (recorders i) /\
      tp_stop_reason (reports i) = reason /\
      books_tokens (accounts (kinds_of (recorders i)) (mkBooks no_communication [] 0))
      = if Nat.eqb i 0 then tokens else [].
Proof.
  intros cfg Hv Hdt Htp Hspec Hplan Hvb Hwf Hload Htk Hdec Hne Hvoc Heff Hcap.
  destruct (tensor_world n manifest spec budget peers resources elapsed file tokenizer m kv)
    as (reason & tokens & kv' & text & reports & Hg & _ & _ & Htog & Hr); try done.
  destruct (together_erases (rank_recorder_new 0 "" "") n _
    (fun i => run_observed_tensor_rank (mkRank i n) manifest (peers i) (resources i) (elapsed i)) _ Htog)
    as (recorders & Ho).
  { intros i _. apply observes_tensor_rank. }
  exists reason, tokens, kv', reports, recorders. split; [done|]. split; [by apply together_returns|].
  split; [exact (together_returns n _ _ Ho)|]. intros i Hi. destruct Ho as (tr & Hex & _).
  pose proof (leaves_exec _ _ _ _ _ (Hex i Hi)
    (tensor_rank_records (mkRank i n) manifest (peers i) (resources i) (elapsed i))) as Hrec.
  cbn [fst snd] in Hrec. destruct (Hr i Hi) as (_ & _ & Hreason & Htok & _). split; [exact Hrec|]. split; [done|].
  destruct Hrec as (rounds & layers & _ & _ & _ & _ & _ & _ & _ & _ & _ & c & ->). cbn [books_tokens global_rank].
  by rewrite Htok.
Qed.
End Run.
