(* ===== verification/TensorEventsExamples.v ===== *)
(** * A tensor run with its events

    The three ranks of [TensorExamples] with their emitters, and a step
    evaluated. *)
From S2P Require Import Prelude Rank Packet Mailbox World Tensor Collective CollectiveWorld Registry Memory.
From S2P Require Import Shard Protocol Cache Kernels Llama LlamaStage Report Artifacts Generation.
From S2P Require Import GenerationProofs Shapes Pipeline PipelineWorld PipelineProofs PipelineExamples.
From S2P Require Import Parallel TensorLlama TensorShapes TensorWorld TensorRun TensorProofs TensorExamples.
From S2P Require Import Collect CollectProofs Observe Transcript TensorEvents TensorEventsProofs TensorTranscript.

#[local] Existing Instances flat_floats flat_kernels flat_laws pair_host pair_runtime decision_codec
  decision_codec_laws trio_shards.

(** The last step of rank 0 of two, over one layer. *)
Definition sum_trace (sequence : N) : CollectiveTrace :=
  mkTrace (mkDescriptor sequence AllReduce Ring None None [1; 1; 4] 16) (Some [1; 1; 4]) 16 16 0.
Example rank_0_step :
  tensor_round_events 0 2 5 1
    (mkPassFacts (sum_trace 4) [(sum_trace 5, sum_trace 6)]
       (mkTrace (mkDescriptor 7 AllGather Centralized (Some 0) (Some 1) [1; 4] 16) (Some [1; 8]) 32 16 0)
       (mkDecision 1 9 true false (Some MaxNewTokens)) 0)
  = [DecodeStepStarted 1;
     TensorCollectiveStarted "allreduce" "ring" 4 [1; 1; 4]; TensorCollectiveCompleted "allreduce" 4 16 16;
     LayerStarted 0 Decode 1;
     TensorCollectiveStarted "allreduce" "ring" 5 [1; 1; 4]; TensorCollectiveCompleted "allreduce" 5 16 16;
     TensorCollectiveStarted "allreduce" "ring" 6 [1; 1; 4]; TensorCollectiveCompleted "allreduce" 6 16 16;
     LayerCompleted 0 Decode 1;
     TensorCollectiveStarted "allgather" "centralized" 7 [1; 4]; TensorCollectiveCompleted "allgather" 7 32 16;
     ControlSent 1 TensorDecision Decode 1 15; TokenGenerated 9 ""; DecodeStepFinished 1].
Proof. reflexivity. Qed.

Lemma trio_prompt : Forall (fun id => id < vocab_size (config SMOLLM2))%N (tm_prompt_token_ids trio_manifest).
Proof. constructor; [|constructor]. vm_compute. reflexivity. Qed.
Lemma any_text (ids : list N) : exists text, tokenizer_decode pair_tokenizer ids = Ok text.
Proof. by eexists. Qed.

Lemma tensor_events_true_witness : exists tr report recorder,
  exec (mkRank 2 3) (run_observed_tensor_rank (mkRank 2 3) trio_manifest [] (trio_resources 2) (fun _ => 0%N)) tr
    (Ret (Ok report, recorder)) /\
  recorded_tensor_run (mkRank 2 3) trio_manifest (trio_resources 2) report recorder.
Proof.
  destruct (ok_choice 3 _ ltac:(lia) trio_model) as [model Hmodel]. destruct trio_cache as [kv Hkv].
  destruct (tensor_world 3 trio_manifest SMOLLM2 None (fun _ => []) trio_resources (fun _ _ => 0%N) smol_file
    pair_tokenizer model (fun _ => kv)) as (reason & tokens & kv' & text & reports & _ & _ & _ & Htog & _);
    try done; [exact smol_registered|intros i Hi; by apply (trio_loads model kv)|exact any_text|exact trio_prompt|].
  destruct (together_erases (rank_recorder_new 0 "" "") 3 _
    (fun i => run_observed_tensor_rank (mkRank i 3) trio_manifest [] (trio_resources i) (fun _ => 0%N)) _ Htog)
    as (recorders & tr & Hex & _).
  { intros i _. apply observes_tensor_rank. }
  exists (tr 2), (reports 2), (recorders 2). split; [exact (Hex 2 ltac:(lia))|].
  apply (tensor_events_true _ _ [] _ (fun _ => 0%N) (tr 2)). exact (Hex 2 ltac:(lia)).
Defined.

Lemma observed_tensor_generates_witness :
  exists tokens (reports : nat -> TensorParallelRankReport) (recorders : nat -> RankRecorder),
    always_returns
      (world_of 3 (fun i => run_observed_tensor_rank (mkRank i 3) trio_manifest [] (trio_resources i) (fun _ => 0%N)))
      [(Ok (reports 0), recorders 0); (Ok (reports 1), recorders 1); (Ok (reports 2), recorders 2)] /\
    books_tokens (accounts (kinds_of (recorders 0)) (mkBooks no_communication [] 0)) = tokens /\
    books_tokens (accounts (kinds_of (recorders 1)) (mkBooks no_communication [] 0)) = [].
Proof.
  destruct (ok_choice 3 _ ltac:(lia) trio_model) as [model Hmodel]. destruct trio_cache as [kv Hkv].
  destruct (observed_tensor_generates 3 trio_manifest SMOLLM2 None (fun _ => []) trio_resources (fun _ _ => 0%N)
    smol_file pair_tokenizer model (fun _ => kv)) as (reason & tokens & kv' & reports & recorders & _ & _ & Hret & Hrec);
    try done; [exact smol_registered|intros i Hi; by apply (trio_loads model kv)|exact any_text|exact trio_prompt|].
  exists tokens, reports, recorders. split; [exact Hret|].
  split; [apply (Hrec 0 ltac:(lia))|apply (Hrec 1 ltac:(lia))].
Defined.
