(* ===== verification/PipelineLaunch.v ===== *)
(** * The pipeline command

    Models [crates/cli/src/pipeline.rs]: the launcher's preparation of a request -
    checks, partition, prompt, resources, stage plans, manifest - the containers
    and streams of the ranks in the scope of the guard of [Docker.v], the report
    made of theirs, and the process a container runs around the rank of
    [Pipeline.v].  Clock readings and the dashboard's drawing are not part of the
    model; printing the report is an argument that answers. *)
From S2P Require Import Prelude Text Rank Packet World Tensor Registry Memory Partition Shard Protocol.
From S2P Require Import Report Cache Kernels Llama Artifacts Generation Launch Docker LaunchRun Collect.
From S2P Require Import Pipeline RingExchange.

(** ** The request *)

(** [struct PipelineLaunchRequest], without the path the report is written to. *)
Record PipelineLaunchRequest : Type := mkPipelineLaunch
  { pl_model : SupportedModelId; pl_dtype : PlanDType; pl_prompt : string; pl_max_new_tokens : N;
    pl_nproc : nat; pl_total_cpus : CpuAmount; pl_total_memory : string; pl_image : string;
    pl_build_context : string; pl_rebuild : bool; pl_run_id : option string;
    pl_startup_timeout : Duration; pl_operation_timeout : Duration; pl_tui : bool;
    pl_keep_containers : bool }.

Definition CONTAINER_MANIFEST : string := "/opt/dlir/request/pipeline.json".
Definition CONTAINER_CHECKPOINT : string := "/opt/dlir/artifacts/model.safetensors".
Definition CONTAINER_TOKENIZER : string := "/opt/dlir/artifacts/tokenizer.json".
Definition CONTAINER_CONFIG : string := "/opt/dlir/artifacts/config.json".
Definition CONTAINER_TOKENIZER_CONFIG : string := "/opt/dlir/artifacts/tokenizer_config.json".

(** [struct ArtifactMounts], as the texts the arguments show. *)
Record ArtifactMounts : Type := mkMounts
  { mount_manifest : string; mount_checkpoint : string; mount_tokenizer : string;
    mount_config : string; mount_tokenizer_config : string }.

(** [pipeline_container_arguments]. *)
Definition mount_arguments (mounts : ArtifactMounts) : list string :=
  flat_map (fun '(source, destination) =>
      ["--mount"; "type=bind,source=" +:+ source +:+ ",target=" +:+ destination +:+ ",readonly"])
    [(mount_manifest mounts, CONTAINER_MANIFEST); (mount_checkpoint mounts, CONTAINER_CHECKPOINT);
     (mount_tokenizer mounts, CONTAINER_TOKENIZER); (mount_config mounts, CONTAINER_CONFIG);
     (mount_tokenizer_config mounts, CONTAINER_TOKENIZER_CONFIG)].
Definition pipeline_container_arguments (image network name run_id : string) (rank world_size : nat)
  (resources : ResourcePlan) (startup_timeout operation_timeout : Duration) (mounts : ArtifactMounts)
  : list string :=
  let rank_text := pretty (N.of_nat rank) in
  ["run"; "--detach"; "--name"; name; "--network"; network; "--network-alias";
   "rank-" +:+ rank_text; "--label"; RUN_LABEL +:+ "=" +:+ run_id;
   "--cpus"; format_cpu (per_rank_cpu_millis resources);
   "--memory"; pretty (per_rank_memory_bytes resources) +:+ "b";
   "--memory-swap"; pretty (per_rank_memory_bytes resources) +:+ "b"]
  ++ mount_arguments mounts
  ++ [image; "rank"; "--workload"; "pipeline"; "--pipeline-manifest"; CONTAINER_MANIFEST;
      "--rank"; rank_text; "--world-size"; pretty (N.of_nat world_size);
      "--run-id"; run_id; "--rendezvous-addr"; "rank-0:" +:+ pretty RENDEZVOUS_PORT;
      "--listen-addr"; "0.0.0.0:" +:+ pretty PEER_PORT;
      "--advertise-addr"; "rank-" +:+ rank_text +:+ ":" +:+ pretty PEER_PORT;
      "--startup-timeout-seconds"; seconds startup_timeout;
      "--operation-timeout-seconds"; seconds operation_timeout;
      "--expected-cpu-millis"; pretty (per_rank_cpu_millis resources);
      "--expected-memory-bytes"; pretty (per_rank_memory_bytes resources)]
  ++ (if Nat.eqb rank 0 then ["--rendezvous-bind-addr"; "0.0.0.0:" +:+ pretty RENDEZVOUS_PORT] else []).

(** [struct PipelineResourcePlan], [pipeline_resource_report]. *)
Record PipelineResourcePlan : Type := mkPipelineResources
  { pp_engine_cpu_millis : N; pp_engine_memory_bytes : N; pp_requested_cpu_millis : N;
    pp_requested_memory_bytes : N; pp_per_rank_cpu_millis : N; pp_per_rank_memory_bytes : N;
    pp_unused_cpu_millis : N; pp_unused_memory_bytes : N }.
Definition pipeline_resource_report (engine : DockerEngineReport) (plan : ResourcePlan) : PipelineResourcePlan :=
  mkPipelineResources (engine_cpu_millis engine) (engine_memory_bytes engine) (requested_cpu_millis plan)
    (requested_memory_bytes plan) (per_rank_cpu_millis plan) (per_rank_memory_bytes plan)
    (unused_cpu_millis plan) (unused_memory_bytes plan).

(** [struct PipelineReport], without its timings. *)
Record PipelineReport : Type := mkPipelineReport
  { rep_schema_version : N; rep_run_id : string; rep_request_id : string; rep_model : SupportedModelId;
    rep_repository : string; rep_revision : string; rep_device : string; rep_dtype : PlanDType;
    rep_backend : string; rep_world_size : nat; rep_tensor_parallel : nat; rep_pipeline_parallel : nat;
    rep_expert_parallel : nat; rep_partition : PipelinePartition; rep_model_parameters : N;
    rep_materialized_parameters : N; rep_duplicated_parameters : N; rep_resources : PipelineResourcePlan;
    rep_prompt_tokens : N; rep_requested_max_new_tokens : N; rep_generated_tokens : list N;
    rep_completion : string; rep_stop_reason : StopReason; rep_ranks : list PipelineRankReport;
    rep_events : list ReceivedPipelineEvent; rep_communication_bytes : N; rep_failures : list string;
    rep_success : bool }.

Section Preparation.
Context {HO : HostSystem} {RT : Runtime}.

(** The artifacts and the prompt: what the pipeline and the tensor command resolve
    before they ask for resources. *)
Record ResolvedPrompt : Type := mkResolved
  { rp_repository : ArtifactRepository; rp_metadata : MetadataArtifacts; rp_tokens : list N;
    rp_effective : N; rp_capacity : N }.
Definition resolve_prompt (spec : ModelSpec) (prompt : string) (max_new_tokens : N) : lresult ResolvedPrompt :=
  repository ← map_err LaunchRuntime (repository_new spec);
  metadata ← map_err LaunchRuntime (download_metadata repository);
  _ ← map_err LaunchRuntime (validate_metadata spec metadata);
  tokenizer ← map_err LaunchTokenizer (tokenizer_from_file (tokenizer_path metadata));
  rendered ← map_err LaunchRuntime (render_prompt (prompt_template spec) prompt);
  tokens ← map_err LaunchTokenizer (tokenizer_encode tokenizer rendered);
  let count := N.of_nat (length tokens) in
  let context := max_position_embeddings (config spec) in
  _ ← reject_if ((count =? 0)%N || (context <=? count)%N) (PromptDoesNotFit count context);
  let effective := N.min max_new_tokens (context - count) in
  Ok (mkResolved repository metadata tokens effective (add64 count effective)).

(** The weights, resolved once on the host. *)
Definition resolve_weights (repository : ArtifactRepository) (spec : ModelSpec) : lresult PathBuf :=
  weights ← map_err LaunchRuntime (download_weights repository spec);
  _ ← map_err LaunchRuntime (validate_checkpoint spec weights);
  Ok weights.

(** The part of [run_pipeline] that looks at the request alone: the partition,
    the memory, the run and the prompt. *)
Record PreparedPrompt : Type := mkPreparedPrompt
  { pp_spec : ModelSpec; pp_partition : PipelinePartition; pp_memory : N; pp_run_id : string;
    pp_resolved : ResolvedPrompt }.
Definition pp_repository (p : PreparedPrompt) : ArtifactRepository := rp_repository (pp_resolved p).
Definition pp_metadata (p : PreparedPrompt) : MetadataArtifacts := rp_metadata (pp_resolved p).
Definition pp_tokens (p : PreparedPrompt) : list N := rp_tokens (pp_resolved p).
Definition pp_effective (p : PreparedPrompt) : N := rp_effective (pp_resolved p).
Definition pp_capacity (p : PreparedPrompt) : N := rp_capacity (pp_resolved p).

Definition prepare_prompt (request : PipelineLaunchRequest) (terminal : bool) (new_run_id : string)
  : lresult PreparedPrompt :=
  _ ← reject_if (pl_tui request && negb terminal) NotATerminal;
  _ ← reject_if ((pl_max_new_tokens request =? 0)%N || blank (pl_prompt request)) EmptyRequest;
  _ ← reject_if (negb (bool_decide (pl_dtype request = PF32))) OnlyF32;
  spec ← ok_or (spec_of (pl_model request))
    (LaunchRuntime (InvalidConfig "every model id must have a registry entry"));
  _ ← map_err LaunchRuntime (validate_cpu_dtype spec (pl_dtype request));
  partition ← map_err LaunchPipeline (balanced spec (N.of_nat (pl_nproc request)));
  total_memory ← map_err LaunchRuntime (parse_byte_size (pl_total_memory request));
  let run_id := default new_run_id (pl_run_id request) in
  _ ← validate_run_id run_id;
  a ← resolve_prompt spec (pl_prompt request) (pl_max_new_tokens request);
  Ok (mkPreparedPrompt spec partition total_memory run_id a).

(** The stage plans, refused when one does not fit. *)
Definition stage_plans (p : PreparedPrompt) (dtype : PlanDType) (resources : ResourcePlan)
  : lresult (list StageMemoryPlan) :=
  plans ← map_err LaunchPipeline (mapM (fun stage =>
    for_stage (pp_spec p) stage dtype (pp_capacity p) (per_rank_memory_bytes resources))
    (stages (pp_partition p)));
  match List.find (fun plan => bool_decide (sp_placement plan = DoesNotFit)) plans with
  | Some failed => Err (PlacementFailed (sp_rank failed) (sp_persistent_bytes failed) (sp_budget_bytes failed))
  | None => Ok plans
  end.

(** [PathBuf::from] of a container's path. *)
Variable path_of : string -> PathBuf.

(** The manifest of the ranks. *)
Definition manifest_of (request : PipelineLaunchRequest) (p : PreparedPrompt) (request_id : string)
  (plans : list StageMemoryPlan) (resources : ResourcePlan) : PipelineManifest :=
  mkManifest HO (pp_run_id p) request_id (pl_model request) (pl_dtype request) (pp_tokens p)
    (chars_count (pl_prompt request)) (pl_max_new_tokens request) (pp_effective p) (pp_capacity p)
    (path_of CONTAINER_CHECKPOINT) (path_of CONTAINER_TOKENIZER) (pp_partition p) plans
    (per_rank_cpu_millis resources) (per_rank_memory_bytes resources).

(** [ArtifactMounts::new], given [fs::canonicalize] and [Path::display]. *)
Variables (canonicalize : PathBuf -> lresult PathBuf) (display : PathBuf -> string).
Definition mounts_new (manifest : PathBuf) (metadata : MetadataArtifacts) (checkpoint : PathBuf)
  : lresult ArtifactMounts :=
  manifest ← canonicalize manifest;
  checkpoint ← canonicalize checkpoint;
  tokenizer ← canonicalize (tokenizer_path metadata);
  config ← canonicalize (config_path metadata);
  tokenizer_config ← canonicalize (tokenizer_config_path metadata);
  Ok (mkMounts (display manifest) (display checkpoint) (display tokenizer) (display config)
        (display tokenizer_config)).

(** ** The launch *)
Section Launch.
Variable docker : list command -> command -> option Output.
Variable parse_info : string -> option DockerInfoJson.
(** The run directory with the manifest in it; [serde_json] and the file system
    may fail. *)
Variable write_manifest : PipelineManifest -> lresult PathBuf.
(** The text and the summary on the terminal, and the report's file. *)
Variable print_report : PipelineReport -> lresult unit.

(** The ranks' reports in one, from [collected].  The mean of the decode passes is
    divided out before [then_some] looks at their number: none is a panic. *)
Definition pipeline_report (request : PipelineLaunchRequest) (p : PreparedPrompt) (request_id : string)
  (plans : list StageMemoryPlan) (engine : DockerEngineReport) (resources : ResourcePlan)
  (collected : Collected) : lresult PipelineReport :=
  let rank_zero := match collected_ranks collected with Some r :: _ => Some r | _ => None end in
  let ranks := omap Datatypes.id (collected_ranks collected) in
  let rank_zero_timing := List.find (fun r => Nat.eqb (pr_rank r) 0) ranks in
  let decode_forward_count := match rank_zero_timing with Some r => pr_decode_forward_count r | None => 0%N end in
  let materialized := sum64 (map materialized_parameters plans) in
  let n := pl_nproc request in
  let success := bool_decide (failures collected = []) && (length ranks =? n) && forallb pr_success ranks
    && forallb (fun code => bool_decide (code = Some 0%Z)) (collected_exit_codes collected) in
  _ ← reject_if (decode_forward_count =? 0)%N (LaunchPanicked "attempt to divide by zero");
  Ok
  {| rep_schema_version := 1; rep_run_id := pp_run_id p; rep_request_id := request_id;
     rep_model := pl_model request; rep_repository := repository (pp_spec p);
     rep_revision := revision (pp_spec p); rep_device := "cpu"; rep_dtype := pl_dtype request;
     rep_backend := "tcp"; rep_world_size := n; rep_tensor_parallel := 1; rep_pipeline_parallel := n;
     rep_expert_parallel := 1; rep_partition := pp_partition p;
     rep_model_parameters := expected_parameters (pp_spec p);
     rep_materialized_parameters := materialized;
     rep_duplicated_parameters := (materialized - expected_parameters (pp_spec p))%N;
     rep_resources := pipeline_resource_report engine resources;
     rep_prompt_tokens := N.of_nat (length (pp_tokens p));
     rep_requested_max_new_tokens := pl_max_new_tokens request;
     rep_generated_tokens := match rank_zero with Some r => pr_generated_tokens r | None => [] end;
     rep_completion := match rank_zero with Some r => pr_completion r | None => "" end;
     rep_stop_reason := match rank_zero with Some r => pr_stop_reason r | None => MaxNewTokens end;
     rep_ranks := ranks; rep_events := collected_events collected;
     rep_communication_bytes :=
       sum64 (map (fun r => add64 (tensor_bytes_sent (pr_communication r)) (control_bytes_sent (pr_communication r))) ranks);
     rep_failures := failures collected; rep_success := success |}.

(** The scope of the guard; [arrivals] is what the collector's thread sees - the
    dashboard's interruption among it - and [dashboard] how the dashboard ends. *)
Definition pipeline_scope (request : PipelineLaunchRequest) (p : PreparedPrompt) (request_id : string)
  (plans : list StageMemoryPlan) (engine : DockerEngineReport) (resources : ResourcePlan)
  (manifest_path weights : PathBuf) (arrivals : list Arrival) (dashboard : lresult unit)
  : docking PipelineReport :=
  mounts ← attempt (mounts_new manifest_path (pp_metadata p) weights);
  self ← get_held;
  identities ← start_ranks docker
    (fun rank name => pipeline_container_arguments (pl_image request) (network self) name (pp_run_id p) rank
       (pl_nproc request) resources (pl_startup_timeout request) (pl_operation_timeout request) mounts)
    (pp_run_id p) (seq 0 (pl_nproc request));
  self ← get_held;
  _ ← (if pl_tui request then attempt dashboard else mret tt);
  collected ← collect_rank_streams pr_rank docker (containers self) (pl_nproc request) arrivals;
  report ← attempt (pipeline_report request p request_id plans engine resources collected);
  _ ← attempt (print_report report);
  self ← get_held;
  _ ← (if pl_keep_containers request then mret tt else cleanup docker);
  mret report.

(** [run_pipeline], up to its verdict. *)
Definition run_pipeline (request : PipelineLaunchRequest) (terminal : bool) (new_run_id request_id : string)
  (handler : lresult unit) (dockerfile : bool) (arrivals : list Arrival) (dashboard : lresult unit)
  : docking PipelineReport :=
  p ← attempt (prepare_prompt request terminal new_run_id);
  engine ← docker_engine_info docker parse_info;
  resources ← attempt (plan_resources (pl_nproc request) (pl_total_cpus request) (pp_memory p) engine);
  plans ← attempt (stage_plans p (pl_dtype request) resources);
  weights ← attempt (resolve_weights (pp_repository p) (pp_spec p));
  manifest_path ← attempt (write_manifest (manifest_of request p request_id plans resources));
  _ ← attempt handler;
  _ ← set_interrupted false;
  _ ← ensure_image docker (pl_image request) (pl_build_context request) dockerfile (pl_rebuild request);
  _ ← create_network docker (pp_run_id p);
  with_resources docker (Docker.mkResources (network_name (pp_run_id p)) [] (pl_keep_containers request))
    (pipeline_scope request p request_id plans engine resources manifest_path weights arrivals dashboard).

(** The verdict of [run_pipeline] on the report it has printed. *)
Definition pipeline_exit (report : PipelineReport) : lresult unit :=
  reject_if (negb (rep_success report)) GenerationFailed.
End Launch.
End Preparation.
Arguments stage_plans {HO}.

(** ** The process of a rank *)

(** [resource_snapshot]. *)
Definition resource_snapshot (observed : ResourceObservation) : ResourceSnapshot :=
  Pipeline.mkResources (observed_cpu_millis observed) (observed_memory_current observed)
    (observed_memory_limit observed) (observed_cpuset_cpus observed) (observed_cgroup_version observed).

(** The report with the resources observed last. *)
Definition report_resources (resources : ResourceSnapshot) (r : PipelineRankReport) : PipelineRankReport :=
  {| pr_rank := pr_rank r; pr_assignment := pr_assignment r; pr_memory := pr_memory r;
     pr_resources := resources; pr_final_kv_cache_bytes := pr_final_kv_cache_bytes r;
     pr_communication := pr_communication r; pr_decode_forward_count := pr_decode_forward_count r;
     pr_generated_tokens := pr_generated_tokens r; pr_completion := pr_completion r;
     pr_stop_reason := pr_stop_reason r; pr_barriers_passed := pr_barriers_passed r;
     pr_success := pr_success r |}.

Section Process.
Context {FO : FloatOps} {KE : Kernels} {HO : HostSystem} {RT : Runtime} {JC : JsonCodec PipelineControl}.

(** [run_pipeline_rank_process] up to the record it prints, its transport being
    connected between the two parts: [manifest_file] is the schema version and the
    manifest read from the file, [read] and [read_after] the cgroup files before
    and after the run. *)
Definition admit_process (request : RankRequest) (manifest_file : lresult (N * PipelineManifest))
  (read : string -> option string) : lresult (PipelineManifest * Rank * ResourceSnapshot) :=
  m ← manifest_file;
  _ ← reject_if (negb (m.1 =? 1)%N) (UnsupportedSchema m.1);
  spec ← ok_or (spec_of (manifest_model m.2))
    (LaunchRuntime (InvalidConfig "every model id must have a registry entry"));
  _ ← map_err LaunchRuntime (validate_checkpoint spec (checkpoint_path m.2));
  rank ← map_err LaunchCollectives (Ranks.new (request_rank request) (request_world_size request));
  let observed := observe_cgroup_resources read in
  _ ← verify_resources observed (request_cpu_millis request) (request_memory_bytes request);
  Ok (m.2, rank, resource_snapshot observed).

Definition run_pipeline_rank_process (fuel : nat) (request : RankRequest)
  (manifest_file : lresult (N * PipelineManifest)) (read read_after : string -> option string)
  : lproc (option PipelineRankReport) :=
  (a ⟵ lift (admit_process request manifest_file read);
   r ⟵ proc_err LaunchPipeline (run_pipeline_rank fuel a.1.2 a.1.1 a.2);
   match r with
   | None => lift (Ok None)
   | Some report =>
       let final_observed := observe_cgroup_resources read_after in
       _ ⟵ lift (verify_resources final_observed (request_cpu_millis request) (request_memory_bytes request));
       lift (Ok (Some (report_resources (resource_snapshot final_observed) report)))
   end)%proc.
End Process.
