(* ===== verification/PipelineLaunchProofs.v ===== *)
(** * The pipeline command is safe and does what one process does

    A pipeline launch releases its containers and its network on every path,
    returns once every container has ended, and generates exactly what [generate]
    generates for the same request - or panics in the report of a run without a
    decode pass. *)
From S2P Require Import Prelude Text Rank Packet World Tensor Registry Memory Partition Protocol.
From S2P Require Import Report Cache Kernels Llama LlamaStage Artifacts Generation Launch Docker LaunchRun Collect CollectProofs.
From S2P Require Import Pipeline Shapes GenerationProofs PipelineProofs RingExchange PipelineLaunch.

(** ** Nothing is left behind *)
Section Launch.
Context {HO : HostSystem} {RT : Runtime}.
Context (path_of : string -> PathBuf) (canonicalize : PathBuf -> lresult PathBuf) (display : PathBuf -> string).
Context (docker : list command -> command -> option Output) (parse_info : string -> option DockerInfoJson)
  (write_manifest : PipelineManifest -> lresult PathBuf) (print_report : PipelineReport -> lresult unit).

Lemma neutral_dashboard (b : bool) (d : lresult unit) : neutral docker (if b then attempt d else mret tt).
Proof. destruct b; auto with docker. Qed.

Lemma pipeline_scope_guards request p request_id plans engine resources mp w arrivals dashboard :
  guards docker (pl_keep_containers request)
    (pipeline_scope canonicalize display docker print_report request p request_id plans engine resources mp w arrivals dashboard).
Proof.
  unfold pipeline_scope. apply guards_bind; [auto with docker|]. intros mounts.
  apply guards_bind; [auto with docker|]. intros self.
  apply guards_bind; [by apply start_ranks_guards|]. intros identities.
  apply guards_bind; [auto with docker|]. intros self'.
  apply guards_bind; [apply neutral_guards, neutral_dashboard|]. intros _.
  apply guards_bind; [apply neutral_guards, neutral_collect|]. intros collected.
  apply guards_bind; [auto with docker|]. intros report. apply guards_bind; [auto with docker|]. intros _.
  apply guards_bind; [auto with docker|]. intros self2.
  apply guards_bind; [|intros _; by auto with docker].
  destruct (pl_keep_containers request); [by auto with docker|apply cleanup_guards].
Qed.

Lemma pipeline_scope_returns request p request_id plans engine resources mp w arrivals dashboard :
  comes_to_end (pl_nproc request) arrivals ->
  returns (pipeline_scope canonicalize display docker print_report request p request_id plans engine resources mp w arrivals dashboard).
Proof.
  intros He. unfold pipeline_scope. apply returns_bind; [apply returns_attempt|]. intros mounts.
  apply returns_bind; [done|]. intros self. apply returns_bind; [apply returns_start|]. intros ids.
  apply returns_bind; [done|]. intros self'. apply returns_bind.
  { destruct (pl_tui request); [apply returns_attempt|done]. }
  intros _. apply returns_bind; [intros s; by apply collect_returns|]. intros c.
  apply returns_bind; [apply returns_attempt|]. intros report. apply returns_bind; [apply returns_attempt|]. intros _.
  apply returns_bind; [done|]. intros self2. apply returns_bind; [|done].
  destruct (pl_keep_containers request); [done|apply returns_cleanup].
Qed.

(** C16: a pipeline command releases what it holds on every path.  Whatever the
    Docker daemon, the hub and the file system answer, whatever the ranks print, in
    whatever order their lines, ends and exits arrive and whenever Ctrl-C comes,
    when a command ends - with a report, an error or the panic of [pipeline_report] -
    nothing of its containers and network may remain but what is [lost]: what the
    daemon did not confirm the creation or the removal of, and a container it
    started without printing an identifier.  Asked to keep the containers, it has
    stopped them last and its guard knows all that may remain.  As long as each
    docker command itself returns, it ends once every container's stream has ended
    and its exit is known. *)
Theorem pipeline_leaves_nothing request terminal new_run_id request_id handler dockerfile arrivals dashboard i :
  let '(res, s) := run_pipeline path_of canonicalize display docker parse_info write_manifest print_report request terminal
    new_run_id request_id handler dockerfile arrivals dashboard
    (mkSession [] i (Docker.mkResources "" [] (pl_keep_containers request))) in
  (res <> Err Blocked -> released docker (pl_keep_containers request) s) /\
  (comes_to_end (pl_nproc request) arrivals -> res <> Err Blocked).
Proof.
  destruct (run_pipeline _ _ _ _ _ _ _ _ _ _ _ _ _ _ _ _) as [res s] eqn:E. split.
  - intros Hne. revert E. unfold run_pipeline.
    assert (fresh docker (pl_keep_containers request)
      (mkSession [] i (Docker.mkResources "" [] (pl_keep_containers request)))) as Hf by done.
    revert Hf. generalize (mkSession [] i (Docker.mkResources "" [] (pl_keep_containers request))). intros s0 Hf.
    do 9 (eapply fresh_bind; [auto using neutral_engine_info, neutral_ensure_image with docker|exact Hf|];
      clear s0 Hf; intros ? s0 Hf).
    intros H. eapply scope_releases; [apply pipeline_scope_guards|exact Hf|exact H|exact Hne].
  - intros He. replace res with (run_pipeline path_of canonicalize display docker parse_info write_manifest print_report request
      terminal new_run_id request_id handler dockerfile arrivals dashboard
      (mkSession [] i (Docker.mkResources "" [] (pl_keep_containers request)))).1 by (by rewrite E).
    unfold run_pipeline.
    do 9 (apply returns_bind; [solve [done|auto using returns_attempt, returns_engine_info, returns_ensure_image]|intros ?]).
    apply returns_bind; [apply returns_checked|]. intros o s0. apply with_resources_returns.
    by apply pipeline_scope_returns.
Qed.
End Launch.

(** ** The launch and the single process *)

Section Same.
Context {HO : HostSystem} {RT : Runtime}.

(** The request a single process would get. *)
Definition alone (request : PipelineLaunchRequest) (budget : option MemoryBudget) : GenerationRequest :=
  Generation.mkRequest (pl_model request) (pl_dtype request) (pl_prompt request) (pl_max_new_tokens request) budget.

(** What a launcher resolves is what a single process resolves. *)
Lemma resolve_prompt_same greq spec repository tokenizer tokens effective memory evs :
  prepare greq recorder_new = Ok (spec, repository, tokenizer, tokens, effective, memory, evs) ->
  exists metadata,
    resolve_prompt spec (request_prompt greq) (request_max_new_tokens greq) =
    Ok (mkResolved repository metadata tokens effective (context_length memory)) /\
    repository_new spec = Ok repository /\ download_metadata repository = Ok metadata /\
    tokenizer_from_file (tokenizer_path metadata) = Ok tokenizer /\
    (request_max_new_tokens greq =? 0)%N = false /\ blank (request_prompt greq) = false /\
    validate_cpu_dtype spec (request_dtype greq) = Ok tt.
Proof.
  intros H. pose proof (prepare_Ok _ _ _ _ _ _ _ _ H) as Hp.
  destruct Hp as [Hspec _ _ Hroom _ Hmem _ _ _]. pose proof (context_small _ _ Hspec) as Hsmall.
  destruct (pe_inputs _ _ _ _ _ Hmem) as (_ & Hctx & _). unfold prepare in H.
  apply bind_Ok in H as (? & Hreq%reject_if_Ok & H). apply bind_Ok in H as (? & Hblank%reject_if_Ok & H).
  apply bind_Ok in H as (spec' & Hspec'%ok_or_Ok & H). apply bind_Ok in H as ([] & Hcpu & H).
  apply bind_Ok in H as (? & _ & H). apply bind_Ok in H as (repo & Hrepo & H).
  apply bind_Ok in H as (metadata & Hmeta & H). apply bind_Ok in H as ([] & Hvm & H).
  apply bind_Ok in H as (tk & Htk & H). apply bind_Ok in H as (rendered & Hren & H).
  apply bind_Ok in H as (toks & Henc & H). apply bind_Ok in H as (? & Hlen%reject_if_Ok & H).
  apply bind_Ok in H as ([eff mem] & Hpre & H). apply bind_Ok in H as (? & _ & H).
  injection H as -> -> -> -> -> -> _. apply map_err_Ok in Htk, Henc.
  unfold generation_memory_preflight in Hpre. apply bind_Ok in Hpre as (? & Hfit%reject_if_Ok & Hpre).
  apply bind_Ok in Hpre as (mem' & _ & [= <- _]).
  exists metadata. split; [|done]. unfold resolve_prompt. rewrite Hrepo. cbn [map_err]. rewrite Ok_bind, Hmeta. cbn [map_err].
  rewrite Ok_bind, Hvm. cbn [map_err]. rewrite Ok_bind, Htk. cbn [map_err]. rewrite Ok_bind, Hren.
  cbn [map_err]. rewrite Ok_bind, Henc. cbn [map_err]. rewrite Ok_bind, Hfit.
  destruct (N.eqb_spec (N.of_nat (length tokens)) 0) as [E|E].
  { apply Nat.eqb_neq in Hlen. lia. }
  cbn [orb reject_if]. rewrite Ok_bind. rewrite add64_small by (bool_prop; lia). by rewrite Hctx.
Qed.

(** What a prepared request has passed. *)
Lemma prepare_prompt_Ok request terminal new_run_id p : prepare_prompt request terminal new_run_id = Ok p ->
  pl_tui request && negb terminal = false /\ spec_of (pl_model request) = Some (pp_spec p) /\
  balanced (pp_spec p) (N.of_nat (pl_nproc request)) = Ok (pp_partition p) /\
  parse_byte_size (pl_total_memory request) = Ok (pp_memory p) /\
  pp_run_id p = default new_run_id (pl_run_id request) /\
  validate_run_id (default new_run_id (pl_run_id request)) = Ok tt /\
  resolve_prompt (pp_spec p) (pl_prompt request) (pl_max_new_tokens request) = Ok (pp_resolved p).
Proof.
  unfold prepare_prompt. intros H. apply bind_Ok in H as (? & Htui%reject_if_Ok & H).
  do 2 apply bind_Ok in H as (? & _ & H). apply bind_Ok in H as (spec & Hspec%ok_or_Ok & H).
  apply bind_Ok in H as (? & _ & H). apply bind_Ok in H as (part & Hpart%map_err_Ok & H).
  apply bind_Ok in H as (total & Htotal%map_err_Ok & H). apply bind_Ok in H as ([] & Hrun & H).
  by apply bind_Ok in H as (a & Ha & [= <-]).
Qed.
End Same.

(** The parts of a single process that generated. *)
Section Alone.
Context {FO : FloatOps} {KE : Kernels} {HO : HostSystem} {RT : Runtime}.

Record generated_alone (request : GenerationRequest) (rep : GenerationReport) (spec : ModelSpec)
  (repository : ArtifactRepository) (tokenizer : Tokenizer) (tokens : list N) (effective : N)
  (memory : RankMemoryPlan) (evs : EventRecorder) : Prop := mkAlone
  { ga_prepare : prepare request recorder_new = Ok (spec, repository, tokenizer, tokens, effective, memory, evs);
    ga_run : exists weights vb model kv evs' fuel s,
      download_weights repository spec = Ok weights /\ validate_checkpoint spec weights = Ok tt /\
      from_mmaped_safetensors weights (candle_dtype (request_dtype request)) = Ok vb /\
      llama_load vb (candle_dtype (request_dtype request)) (config spec) (N.to_nat (context_length memory)) = Ok model /\
      cache_new (config spec) (N.to_nat (context_length memory)) (candle_dtype (request_dtype request)) Cpu = Ok kv /\
      generate_tokens model tokenizer (eos_token_id (config spec)) (request_max_new_tokens request) effective
        fuel tokens kv evs' = Some (Ok (stop_reason rep, s)) /\
      generated s = generated_tokens rep /\
      (generated_tokens rep = [] /\ completion rep = "" \/
       tokenizer_decode tokenizer (generated_tokens rep) = Ok (completion rep)) }.

Lemma generate_parts request rep : generate request = Some (Ok rep) ->
  exists spec repository tokenizer tokens effective memory evs,
    generated_alone request rep spec repository tokenizer tokens effective memory evs.
Proof.
  unfold generate. destruct (prepare request recorder_new)
    as [[[[[[[spec repository] tokenizer] tokens] effective] memory] evs]|e] eqn:Hp; [|done].
  destruct (load _ _ _ _ _) as [[[model kv] evs']|e] eqn:Hl; [|done]. intros H.
  apply bind_Some in H as (r & Hr & H). injection H as H.
  apply bind_Ok in H as ([reason s] & -> & H). unfold finish_report in H.
  apply bind_Ok in H as (text & Htext & H). apply bind_Ok in H as (? & _ & [= <-]).
  unfold load in Hl. apply bind_Ok in Hl as (weights & Hw & Hl). apply bind_Ok in Hl as ([] & Hv & Hl).
  apply bind_Ok in Hl as (vb & Hvb%candle_Ok & Hl). apply bind_Ok in Hl as (m & Hm & Hl).
  apply bind_Ok in Hl as (c & Hc & [= <- <- <-]).
  exists spec, repository, tokenizer, tokens, effective, memory, evs. split; [done|].
  do 6 eexists. exists s. cbn [stop_reason generated_tokens completion]. split_and!; try done.
  destruct (generated s) as [|t l]; [left; split; [done|congruence]|right]. by apply map_err_Ok in Htext.
Qed.
End Alone.

(** ** The ranks of a launch *)
Section Ranks.
Context {FO : FloatOps} {KE : Kernels} {KL : KernelLaws KE} {HO : HostSystem} {RT : Runtime}.
Context {JC : JsonCodec PipelineControl} {JL : JsonCodecLaws JC control_wf}.
Context (path_of : string -> PathBuf).

(** The containers' paths show the files the launcher resolved and mounted. *)
Definition mounted (spec : ModelSpec) : Prop :=
  forall repository metadata weights, repository_new spec = Ok repository ->
    download_metadata repository = Ok metadata -> download_weights repository spec = Ok weights ->
    mmaped_safetensors (path_of CONTAINER_CHECKPOINT) = mmaped_safetensors weights /\
    from_mmaped_safetensors (path_of CONTAINER_CHECKPOINT) F32 = from_mmaped_safetensors weights F32 /\
    tokenizer_from_file (path_of CONTAINER_TOKENIZER) = tokenizer_from_file (tokenizer_path metadata).

Definition snapshot (read : string -> option string) : ResourceSnapshot :=
  resource_snapshot (observe_cgroup_resources read).

Lemma processes_together n fuel manifest spec run_id p read read_after reports :
  0 < n -> spec_of (manifest_model manifest) = Some spec ->
  validate_checkpoint spec (checkpoint_path manifest) = Ok tt ->
  (forall i, i < n ->
     verify_resources (observe_cgroup_resources (read i)) (Some (per_rank_cpu_millis p)) (Some (per_rank_memory_bytes p)) = Ok Passed /\
     verify_resources (observe_cgroup_resources (read_after i)) (Some (per_rank_cpu_millis p)) (Some (per_rank_memory_bytes p)) = Ok Passed) ->
  together n (fun i => run_pipeline_rank fuel (mkRank i n) manifest (snapshot (read i))) (fun i => Ok (Some (reports i))) ->
  together n (fun i => run_pipeline_rank_process fuel (launch_request run_id n p i) (Ok (1%N, manifest)) (read i) (read_after i))
    (fun i => Ok (Some (report_resources (snapshot (read_after i)) (reports i)))).
Proof.
  intros Hn Hspec Hck Hv Ht. unfold run_pipeline_rank_process.
  apply (together_lift n _ (fun i => (manifest, mkRank i n, snapshot (read i)))).
  { intros i Hi. destruct (Hv i Hi) as [Hv1 _]. unfold admit_process. rewrite Ok_bind. cbn [fst snd N.eqb Pos.eqb negb reject_if].
    rewrite Ok_bind, Hspec. cbn [ok_or]. rewrite Ok_bind, Hck. cbn [map_err]. rewrite Ok_bind.
    cbn [launch_request request_rank request_world_size request_cpu_millis request_memory_bytes].
    rewrite Ranks.rank_new_ok by done. cbn [map_err]. by rewrite Ok_bind, Hv1, Ok_bind. }
  apply (together_try n _ (fun i => Some (reports i))); [by apply together_err|].
  apply (together_lift n _ (fun _ => Passed)); [intros i Hi; by apply Hv|]. by apply together_ret.
Qed.

Lemma context_tiny model spec : spec_of model = Some spec ->
  (max_position_embeddings (config spec) < 2 ^ 60)%N.
Proof. destruct model; intros [= <-]; by vm_compute. Qed.

Lemma stage_plans_fit p dt resources plans : stage_plans p dt resources = Ok plans ->
  length plans = length (stages (pp_partition p)) /\ forall i plan, plans !! i = Some plan -> sp_placement plan <> DoesNotFit.
Proof.
  unfold stage_plans. intros H. apply bind_Ok in H as (plans' & Hm & H). apply map_err_Ok in Hm.
  destruct (List.find _ plans') as [?|] eqn:Hf; [done|]. injection H as <-. split.
  - clear Hf. revert plans' Hm. induction (stages (pp_partition p)) as [|a l IH]; intros plans' Hm; cbn in Hm.
    + by injection Hm as <-.
    + apply bind_Ok in Hm as (x & _ & Hm). apply bind_Ok in Hm as (xs & Hxs & [= <-]). cbn. f_equal. by apply IH.
  - intros i plan Hi. apply list_elem_of_lookup_2, list_elem_of_In in Hi.
    pose proof (find_none _ _ Hf _ Hi) as Hn. by apply bool_decide_eq_false in Hn.
Qed.

(** Weights have the contents their shapes say; no tokens decode to no text. *)
Definition readable : Prop :=
  (forall path vb, from_mmaped_safetensors path F32 = Ok vb -> well_formed_weights vb) /\
  (forall path tokenizer, tokenizer_from_file path = Ok tokenizer -> tokenizer_decode tokenizer [] = Ok "").

(** What a launcher needs before it starts a rank: an accepted request, an engine
    with the resources, stages that fit, an image. *)
Record launchable (request : PipelineLaunchRequest) (terminal : bool) (new_run_id : string)
  (p : PreparedPrompt) (engine : DockerEngineReport) (resources : ResourcePlan) (plans : list StageMemoryPlan)
  : Prop := mkLaunchable
  { la_dtype : pl_dtype request = PF32;
    la_prompt : prepare_prompt request terminal new_run_id = Ok p;
    la_engine : (engine_cpu_millis engine * 100000 < U64)%N /\ (engine_memory_bytes engine < U64)%N;
    la_resources : plan_resources (pl_nproc request) (pl_total_cpus request) (pp_memory p) engine = Ok resources;
    la_plans : stage_plans p PF32 resources = Ok plans;
    la_image : blank (pl_image request) = false /\ pl_rebuild request = false }.

(** The cgroups of the ranks enforce, before and after the run, what Docker derives
    from the plan. *)
Definition enforced_for (n : nat) (resources : ResourcePlan) (read : nat -> string -> option string) : Prop :=
  forall i, i < n -> enforced (read i) (per_rank_cpu_millis resources * 100)%N 100000%N (per_rank_memory_bytes resources).

(** What the launcher prepared is what the single process ran on. *)
Lemma launch_parts request terminal new_run_id budget rep p engine resources plans :
  launchable request terminal new_run_id p engine resources plans ->
  generate (alone request budget) = Some (Ok rep) ->
  exists tokenizer weights vb model kv evs fuel s,
    repository_new (pp_spec p) = Ok (pp_repository p) /\ download_metadata (pp_repository p) = Ok (pp_metadata p) /\
    tokenizer_from_file (tokenizer_path (pp_metadata p)) = Ok tokenizer /\
    download_weights (pp_repository p) (pp_spec p) = Ok weights /\
    validate_checkpoint (pp_spec p) weights = Ok tt /\ from_mmaped_safetensors weights F32 = Ok vb /\
    llama_load vb F32 (config (pp_spec p)) (N.to_nat (pp_capacity p)) = Ok model /\
    cache_new (config (pp_spec p)) (N.to_nat (pp_capacity p)) F32 Cpu = Ok kv /\
    generate_tokens model tokenizer (eos_token_id (config (pp_spec p))) (pl_max_new_tokens request)
      (pp_effective p) fuel (pp_tokens p) kv evs = Some (Ok (stop_reason rep, s)) /\
    generated s = generated_tokens rep /\ (0 < pp_effective p < 2 ^ 60)%N /\
    (generated_tokens rep = [] /\ completion rep = "" \/
     tokenizer_decode tokenizer (generated_tokens rep) = Ok (completion rep)).
Proof.
  intros [Hdt Hprep Hengine Hplan Hplans _] Hgen.
  destruct (prepare_prompt_Ok _ _ _ _ Hprep) as (_ & Hspec & _ & _ & _ & _ & Hpp).
  destruct (generate_parts _ _ Hgen) as (spec' & repository & tokenizer & tokens & effective & memory & evs &
    [Hp (weights & vb & model & kv & evs' & fuel & s & Hw & Hck & Hvb & Hm & Hc & Hg & Hs & Htext)]).
  pose proof (prepare_Ok _ _ _ _ _ _ _ _ Hp) as [Hspec' Hreq _ Hroom Heff Hmem _ _ _].
  cbn [alone request_model] in Hspec'. rewrite Hspec in Hspec'. injection Hspec' as Es. subst spec'.
  destruct (resolve_prompt_same _ _ _ _ _ _ _ _ Hp) as (metadata & Hpp' & Hrepo & Hmeta & Htk & _).
  cbn [alone request_dtype request_max_new_tokens request_prompt] in *. rewrite Hpp in Hpp'. injection Hpp' as Hpp'.
  rewrite Hdt in *. cbn [candle_dtype] in *.
  pose proof (context_tiny _ _ Hspec). unfold pp_repository, pp_metadata, pp_capacity, pp_effective, pp_tokens. rewrite Hpp'.
  cbn [rp_repository rp_metadata rp_tokens rp_effective rp_capacity].
  exists tokenizer, weights, vb, model, kv, evs', fuel, s. split_and!; done || lia.
Qed.

(** The ranks of a launch of a request that a single process has generated. *)
Lemma launched_ranks request terminal new_run_id request_id budget rep p engine resources plans
  read read_after fuel :
  let n := pl_nproc request in
  launchable request terminal new_run_id p engine resources plans ->
  generate (alone request budget) = Some (Ok rep) -> mounted (pp_spec p) -> readable ->
  enforced_for n resources read -> enforced_for n resources read_after ->
  N.to_nat (pp_effective p) <= fuel ->
  let manifest := manifest_of path_of request p request_id plans resources in
  exists reports : nat -> PipelineRankReport,
    together n (fun i => run_pipeline_rank_process fuel (launch_request (pp_run_id p) n resources i)
      (Ok (1%N, manifest)) (read i) (read_after i)) (fun i => Ok (Some (reports i))) /\
    forall i, i < n -> pr_rank (reports i) = i /\ pr_success (reports i) = true /\
      pr_stop_reason (reports i) = stop_reason rep /\
      pr_generated_tokens (reports i) = (if Nat.eqb i 0 then generated_tokens rep else []) /\
      pr_completion (reports i) = (if Nat.eqb i 0 then completion rep else "") /\
      pr_decode_forward_count (reports i) = decode_passes (stop_reason rep) (generated_tokens rep).
Proof.
  intros n Hl Hgen Hmount [Hwf Hempty] Hcg Hcg' Hfuel manifest.
  destruct (launch_parts _ _ _ _ _ _ _ _ _ Hl Hgen) as (tokenizer & weights & vb & model & kv & evs' & fuel' & s &
    Hrepo & Hmeta & Htk & Hw & Hck & Hvb & Hm & Hc & Hg & Hs & Heff & Htext).
  destruct Hl as [Hdt Hprep Hengine Hplan Hplans _].
  destruct (prepare_prompt_Ok _ _ _ _ Hprep) as (_ & Hspec & Hpart & _).
  destruct (Hmount _ _ _ Hrepo Hmeta Hw) as (Em & Ev & Et).
  destruct (balanced_ranks (pp_spec p) n (pp_partition p) (proj1 (registered_sizes _ _ Hspec)) Hpart) as (Hn & Hlen & _).
  destruct (stage_plans_fit _ _ _ _ Hplans) as [Hpl Hfit]. rewrite Hlen in Hpl.
  assert (exists text, tokenizer_decode tokenizer (generated s) = Ok text /\ text = completion rep) as (text & Hd & ->).
  { rewrite Hs. destruct Htext as [[-> ->]|Htext]; [|by eexists].
    exists "". split; [by eapply Hempty|done]. }
  destruct (pipeline_world n manifest (pp_spec p) (fun i => snapshot (read i)) tokenizer vb model kv fuel fuel' evs'
    (stop_reason rep) s (completion rep)) as (reports & Ht & Hr); try done.
  - intros i Hi. destruct (lookup_lt_is_Some_2 plans i) as [plan Hi']; [lia|]. exists plan.
    destruct (plan_limits n _ _ _ _ (read i) Hengine Hplan (Hcg i Hi)) as (_ & Ecpu & Emem).
    split; [exact Hi'|]. split; [by eapply Hfit|]. split; right; [exact Ecpu|exact Emem].
  - cbn [manifest manifest_of checkpoint_path]. by rewrite Ev.
  - by eapply Hwf.
  - cbn [manifest manifest_of manifest_tokenizer_path]. by rewrite Et.
  - exists (fun i => report_resources (snapshot (read_after i)) (reports i)). split.
    + apply (processes_together n fuel manifest (pp_spec p)); [lia|done| | |exact Ht].
      * cbn [manifest manifest_of checkpoint_path]. unfold validate_checkpoint in *. by rewrite Em.
      * intros i Hi. split; eapply plan_limits; eauto.
    + intros i Hi. rewrite <- Hs. by apply Hr.
Qed.
End Ranks.

(** ** The whole command *)
Section Whole.
Context {FO : FloatOps} {KE : Kernels} {KL : KernelLaws KE} {HO : HostSystem} {RT : Runtime}.
Context {JC : JsonCodec PipelineControl} {JL : JsonCodecLaws JC control_wf}.
Context (path_of : string -> PathBuf) (canonicalize : PathBuf -> lresult PathBuf) (display : PathBuf -> string).
Context (docker : list command -> command -> option Output) (parse_info : string -> option DockerInfoJson)
  (write_manifest : PipelineManifest -> lresult PathBuf) (print_report : PipelineReport -> lresult unit).
Hypothesis Htext : forall past c o, docker past c = Some o -> from_utf8 (stdout o) = Some (stdout o).
Hypothesis Hserves : serves docker.

Lemma delivered (reports : nat -> PipelineRankReport) l :
  omap Datatypes.id (map (fun i => Some (reports i)) l) = map reports l.
Proof. induction l; cbn; congruence. Qed.
Lemma first_report (reports : nat -> PipelineRankReport) n : 0 < n -> pr_rank (reports 0) = 0 ->
  List.find (fun r => Nat.eqb (pr_rank r) 0) (map reports (seq 0 n)) = Some (reports 0).
Proof. intros Hn H0. destruct n; [lia|]. cbn. by rewrite H0. Qed.

(** The report of ranks that all delivered theirs: one, when rank 0 took a decode
    pass, and a panic when it took none. *)
Lemma pipeline_report_panics request p request_id plans engine resources reports evs :
  0 < pl_nproc request -> pr_rank (reports 0) = 0 -> pr_decode_forward_count (reports 0) = 0%N ->
  pipeline_report request p request_id plans engine resources (gathered (pl_nproc request) reports evs)
  = Err (LaunchPanicked "attempt to divide by zero").
Proof.
  intros Hn H0 Hz. unfold pipeline_report. cbn [gathered collected_ranks].
  rewrite delivered, first_report by done. by rewrite Hz.
Qed.

Lemma pipeline_report_success request p request_id plans engine resources reports evs :
  let n := pl_nproc request in
  0 < n -> (forall i, i < n -> pr_rank (reports i) = i /\ pr_success (reports i) = true) ->
  pr_decode_forward_count (reports 0) <> 0%N ->
  exists r, pipeline_report request p request_id plans engine resources (gathered n reports evs) = Ok r /\
  rep_success r = true /\ rep_ranks r = map reports (seq 0 n) /\
  rep_generated_tokens r = pr_generated_tokens (reports 0) /\ rep_completion r = pr_completion (reports 0) /\
  rep_stop_reason r = pr_stop_reason (reports 0).
Proof.
  intros n Hn Hs Hd.
  assert (map (fun i => Some (reports i)) (seq 0 n) = Some (reports 0) :: map (fun i => Some (reports i)) (seq 1 (n - 1))) as Hhd.
  { destruct n; [lia|]. cbn. by rewrite Nat.sub_0_r. }
  unfold pipeline_report. cbn [gathered collected_ranks collected_exit_codes collected_events failures].
  rewrite delivered, first_report, Hhd by (done || apply Hs; lia). apply N.eqb_neq in Hd. rewrite Hd. cbn [reject_if]. rewrite Ok_bind.
  eexists. split; [reflexivity|]. cbn [rep_success rep_ranks rep_generated_tokens rep_completion rep_stop_reason].
  split_and!; try done. rewrite bool_decide_eq_true_2 by done. rewrite length_map, length_seq, Nat.eqb_refl. cbn [andb].
  apply andb_true_iff. split; apply forallb_forall.
  - intros x (i & <- & Hi%in_seq)%in_map_iff. apply Hs. lia.
  - intros x Hx%list_elem_of_In%elem_of_replicate_inv. by apply bool_decide_eq_true_2.
Qed.

(** The host's file system takes the manifest and the report, and resolves paths. *)
Definition files_work : Prop :=
  (forall manifest, exists path, write_manifest manifest = Ok path) /\ (forall path, exists p, canonicalize path = Ok p) /\
  forall report, print_report report = Ok tt.

Lemma pipeline_scope_collects request p request_id plans engine resources mp w mounts arrivals reports events_of s :
  let n := pl_nproc request in
  mounts_new canonicalize display mp (pp_metadata p) w = Ok mounts -> interrupted s = false ->
  (forall i, i < n -> pr_rank (reports i) = i) -> (forall i, i < n -> numbered i (events_of i)) ->
  Forall undisturbed arrivals -> orderly n reports events_of (messages arrivals) ->
  (forall report, print_report report = Ok tt) ->
  exists evs s', pipeline_scope canonicalize display docker print_report request p request_id plans engine resources mp w
      arrivals (Ok tt) s
    = (map_err Failed (pipeline_report request p request_id plans engine resources (gathered n reports evs)), s').
Proof.
  intros n Hm Hi Hr Hnum Hu Ho Hprint. unfold pipeline_scope. erewrite bind_ok by (by apply attempt_ok).
  erewrite bind_ok by reflexivity.
  match goal with |- context [start_ranks docker ?a ?r ?l] =>
    destruct (start_ranks_serves docker Htext a r l s Hserves) as (ids & s1 & Hstart & _ & Hi1) end.
  erewrite bind_ok by exact Hstart. erewrite bind_ok by reflexivity.
  erewrite bind_ok by (by destruct (pl_tui request)).
  destruct (collect_orderly pr_rank docker (containers (held s1)) n reports events_of Hr Hnum arrivals s1)
    as (evs & Hc & _); [congruence|done|done|].
  erewrite bind_ok by exact Hc. exists evs.
  destruct (pipeline_report _ _ _ _ _ _ _) as [report|e] eqn:Hreport; [|by eexists].
  erewrite bind_ok by (by apply attempt_ok). erewrite bind_ok by (apply attempt_ok, Hprint).
  erewrite bind_ok by reflexivity.
  assert (exists s2, (if pl_keep_containers request then mret tt else cleanup docker) s1 = (Ok tt, s2)) as [s2 H2].
  { destruct (pl_keep_containers request); [by exists s1|apply cleanup_ok]. }
  erewrite bind_ok by exact H2. by exists s2.
Qed.

Lemma mounts_exist mp metadata w : files_work -> exists mounts, mounts_new canonicalize display mp metadata w = Ok mounts.
Proof.
  intros (_ & Hc & _). unfold mounts_new.
  destruct (Hc mp) as [? ->], (Hc w) as [? ->], (Hc (tokenizer_path metadata)) as [? ->],
    (Hc (config_path metadata)) as [? ->], (Hc (tokenizer_config_path metadata)) as [? ->].
  rewrite !Ok_bind. by eexists.
Qed.

(** The command up to the scope of the guard. *)
Lemma run_pipeline_starts request terminal new_run_id request_id budget rep p info engine resources plans dockerfile
  arrivals dashboard s :
  launchable request terminal new_run_id p engine resources plans ->
  generate (alone request budget) = Some (Ok rep) ->
  (forall past o, docker past ["info"; "--format"; "{{json .}}"] = Some o -> parse_info (stdout o) = Some info) ->
  engine_of_info info = Ok engine -> files_work ->
  exists mp w s', interrupted s' = false /\
    run_pipeline path_of canonicalize display docker parse_info write_manifest print_report request terminal new_run_id request_id
      (Ok tt) dockerfile arrivals dashboard s =
    with_resources docker (Docker.mkResources (network_name (pp_run_id p)) [] (pl_keep_containers request))
      (pipeline_scope canonicalize display docker print_report request p request_id plans engine resources mp w arrivals dashboard) s'.
Proof.
  intros Hl Hgen Hinfo Hengine (Hw & _).
  destruct (launch_parts _ _ _ _ _ _ _ _ _ Hl Hgen) as (_ & weights & _ & _ & _ & _ & _ & _ & _ & _ & _ & Hdw & Hck & _).
  destruct Hl as [Hdt Hprep _ Hplan Hplans [Hblank Hrebuild]].
  destruct (Hw (manifest_of path_of request p request_id plans resources)) as [mp Hmp].
  unfold run_pipeline. erewrite bind_ok by (by apply attempt_ok).
  destruct (engine_info_serves docker parse_info info engine s Hserves Hinfo Hengine) as [s1 H1].
  erewrite bind_ok by exact H1. erewrite bind_ok by (by apply attempt_ok). rewrite Hdt.
  erewrite bind_ok by (by apply attempt_ok).
  erewrite bind_ok by (apply attempt_ok; unfold resolve_weights; rewrite Hdw; cbn [map_err]; by rewrite Ok_bind, Hck).
  erewrite bind_ok by (by apply attempt_ok). erewrite bind_ok by (by apply attempt_ok).
  erewrite bind_ok by reflexivity. rewrite Hrebuild.
  destruct (ensure_image_serves docker (pl_image request) (pl_build_context request) dockerfile
    (mkSession (issued s1) false (held s1)) Hserves Hblank) as (s2 & H2 & Hi2).
  erewrite bind_ok by exact H2. unfold create_network.
  match goal with |- context [docker_checked docker ?c] =>
    destruct (checked_serves docker c s2 Hserves) as (o & _ & _ & Hc) end.
  erewrite bind_ok by exact Hc. eexists mp, weights, _. split; [|reflexivity]. exact Hi2.
Qed.

(** C1: the pipeline command generates what one process generates.  Take a request
    that a single process answers with a report, and a Docker host that can take
    it: the request's resources fit the engine and every stage its share, each
    container's cgroup enforces what Docker derives from its arguments, and its
    paths show the files the launcher mounted.  Then the rank processes, on the
    manifest the launcher writes, all end with a report under every schedule,
    without deadlock; and however the lines of the containers interleave, the
    command returns a successful report that holds theirs in rank order and has
    the tokens, the text and the stop reason of the single process.  When the run
    has no decode pass - one token, or an end-of-sequence token at once - the
    command panics instead, dividing by the number of decode passes. *)
Theorem pipeline_launch_generates request terminal new_run_id request_id budget rep p info engine resources plans
  read read_after fuel dockerfile i :
  launchable request terminal new_run_id p engine resources plans ->
  generate (alone request budget) = Some (Ok rep) -> mounted path_of (pp_spec p) -> readable ->
  enforced_for (pl_nproc request) resources read -> enforced_for (pl_nproc request) resources read_after ->
  N.to_nat (pp_effective p) <= fuel ->
  (forall past o, docker past ["info"; "--format"; "{{json .}}"] = Some o -> parse_info (stdout o) = Some info) ->
  engine_of_info info = Ok engine -> files_work ->
  let n := pl_nproc request in
  let manifest := manifest_of path_of request p request_id plans resources in
  exists reports : nat -> PipelineRankReport,
    always_returns
      (world_of n (fun i => run_pipeline_rank_process fuel (launch_request (pp_run_id p) n resources i)
         (Ok (1%N, manifest)) (read i) (read_after i)))
      (map (fun i => Ok (Some (reports i))) (seq 0 n)) /\
    forall events_of arrivals,
      (forall i, i < n -> numbered i (events_of i)) -> Forall undisturbed arrivals ->
      orderly n reports events_of (messages arrivals) ->
      exists res s', run_pipeline path_of canonicalize display docker parse_info write_manifest print_report request
          terminal new_run_id request_id (Ok tt) dockerfile arrivals (Ok tt)
          (mkSession [] i (Docker.mkResources "" [] (pl_keep_containers request))) = (res, s') /\
        if (decode_passes (stop_reason rep) (generated_tokens rep) =? 0)%N
        then res = Err (Failed (LaunchPanicked "attempt to divide by zero"))
        else exists r, res = Ok r /\
          pipeline_exit r = Ok tt /\ rep_ranks r = map reports (seq 0 n) /\
          rep_generated_tokens r = generated_tokens rep /\ rep_completion r = completion rep /\
          rep_stop_reason r = stop_reason rep.
Proof.
  intros Hl Hgen Hmount Hread Hcg Hcg' Hfuel Hinfo Hengine Hfiles n manifest.
  destruct (launched_ranks path_of request terminal new_run_id request_id budget rep p engine resources plans
    read read_after fuel Hl Hgen Hmount Hread Hcg Hcg' Hfuel) as (reports & Ht & Hr). fold n manifest in Ht, Hr.
  exists reports. split; [by apply together_returns|]. intros events_of arrivals Hnum Hu Ho.
  destruct (run_pipeline_starts request terminal new_run_id request_id budget rep p info engine resources plans
    dockerfile arrivals (Ok tt) (mkSession [] i (Docker.mkResources "" [] (pl_keep_containers request)))
    Hl Hgen Hinfo Hengine Hfiles) as (mp & w & s' & Hi & ->).
  destruct (mounts_exist mp (pp_metadata p) w Hfiles) as [mounts Hm]. destruct Hfiles as (_ & _ & Hprint).
  assert (0 < n) as Hn by (by destruct (plan_resources_bounds _ _ _ _ _ (la_resources _ _ _ _ _ _ _ Hl))).
  unfold with_resources.
  match goal with |- context [pipeline_scope _ _ _ _ _ _ _ _ _ _ _ _ _ _ ?s] =>
    destruct (pipeline_scope_collects request p request_id plans engine resources mp w mounts arrivals reports events_of s
      Hm Hi (fun i Hi => proj1 (Hr i Hi)) Hnum Hu Ho Hprint) as (evs & s2 & ->) end.
  destruct (Hr 0 Hn) as (H0 & _ & H1 & H2 & H3 & H4).
  destruct (N.eqb_spec (decode_passes (stop_reason rep) (generated_tokens rep)) 0) as [Hz|Hz].
  { rewrite pipeline_report_panics; [|exact Hn|exact H0|congruence]. cbn [map_err]. by eexists _, _. }
  destruct (pipeline_report_success request p request_id plans engine resources reports evs Hn
    (fun i Hi => conj (proj1 (Hr i Hi)) (proj1 (proj2 (Hr i Hi)))) ltac:(congruence))
    as (r & Hreport & Hs & Hranks & Hg & Hc & Hreason).
  rewrite Hreport. cbn [map_err]. eexists _, _. split; [reflexivity|]. exists r. split; [done|].
  split; [unfold pipeline_exit; by rewrite Hs|].
  split; [exact Hranks|]. rewrite Hg, Hc, Hreason, H1, H2, H3. done.
Qed.
End Whole.
