(* ===== verification/PipelineLaunchExamples.v ===== *)
(** * A concrete pipeline launch

    Two ranks of SmolLM2 with zero weights on the Docker daemon of
    [LaunchExamples.v]; a launch of the same ranks in which one fails. *)
From S2P Require Import Prelude Text Rank Packet World Tensor Registry Memory Partition Protocol.
From S2P Require Import Report Cache Kernels Llama LlamaStage Artifacts Generation Launch Docker LaunchRun Collect CollectProofs.
From S2P Require Import Pipeline Shapes GenerationProofs PipelineProofs RingExchange LaunchExamples ModelExamples.
From S2P Require Import PipelineExamples PipelineLaunch PipelineLaunchProofs.

#[local] Existing Instances flat_floats flat_kernels flat_laws byte_codec byte_codec_laws.

(** A hub that serves the files of SmolLM2; its checkpoint is known by being valid. *)
Lemma valid_manifest : { m : Manifest | validate_tensor_metadata (HO := smol_host) SMOLLM2 m = Ok tt }.
Proof. exists smol_manifest. vm_compute. reflexivity. Qed.
#[local] Instance say_host : HostSystem :=
  {| PathBuf := string; api_new := Ok tt; repo_get _ _ file := Ok file; fs_read _ := Ok [];
     hub_config_from_slice _ :=
       Ok (mkHubConfig ["LlamaForCausalLM"] "llama" "silu" false false (config SMOLLM2) false);
     chat_template_from_slice _ := Ok (Some "<|im_start|><|im_end|>");
     mmaped_safetensors _ := Ok (proj1_sig valid_manifest);
     debug_config _ := ""; debug_marker m := m; debug_dtypes _ := ""; debug_names _ := "";
     debug_shapes _ := "" |}.

Definition zero_tokenizer : Tokenizer :=
  mkTokenizer (fun _ => Ok [5]%N) (fun ids => match ids with [] => Ok "" | _ => Ok "text" end) (fun _ _ => Ok (Some "t")).
#[local] Instance zero_runtime : Runtime :=
  {| tokenizer_from_file _ := Ok zero_tokenizer; from_mmaped_safetensors _ _ := Ok zero_weights |}.

(** A request for one or two tokens. *)
Definition say_request (count : N) : PipelineLaunchRequest :=
  mkPipelineLaunch SmolLm2_135MInstruct PF32 "Hello" count 2 (mkCpuAmount 1000) "2GiB" "dlir:test" "." false
    (Some "demo") 30000000000 30000000000 false false.

Definition say_prepared (count : N) : PreparedPrompt :=
  mkPreparedPrompt SMOLLM2 pair_partition (2 * 1024 * MIB) "demo"
    (mkResolved (mkRepository (repository SMOLLM2) (revision SMOLLM2))
       (mkMetadata say_host "config.json" "tokenizer.json" "tokenizer_config.json") [5]%N count (1 + count)).
Definition say_resources : ResourcePlan :=
  match plan_resources 2 (mkCpuAmount 1000) (2 * 1024 * MIB) duo_engine with Ok p => p | Err _ => duo_plan end.
Definition say_plans (count : N) : list StageMemoryPlan :=
  match stage_plans (say_prepared count) PF32 say_resources with Ok l => l | Err _ => [] end.

Lemma say_launchable count : count = 1%N \/ count = 2%N ->
  launchable (say_request count) false "" (say_prepared count) duo_engine say_resources (say_plans count).
Proof.
  intros [-> | ->]; (split; [reflexivity| | | | |]); [vm_compute; reflexivity|by vm_compute|vm_compute; reflexivity
    |vm_compute; reflexivity|by vm_compute|vm_compute; reflexivity|by vm_compute|vm_compute; reflexivity
    |vm_compute; reflexivity|by vm_compute].
Qed.

(** A single process answers the request with zeros. *)
Lemma say_generates count : count = 1%N \/ count = 2%N -> exists rep, generate (alone (say_request count) None) = Some (Ok rep) /\
  generated_tokens rep = replicate (N.to_nat count) 0%N /\ stop_reason rep = MaxNewTokens /\ completion rep = "text".
Proof.
  intros Hcount. destruct (zero_model (N.to_nat (1 + count))) as [model Hm].
  destruct (zero_cache (N.to_nat (1 + count)) ltac:(by destruct Hcount as [-> | ->]; [left|right])) as [kv Hk]. unfold generate.
  destruct (prepare (alone (say_request count) None) recorder_new) as [x|e] eqn:Hp;
    [|exfalso; destruct Hcount as [-> | ->]; vm_compute in Hp; discriminate].
  assert (exists memory evs, x = (SMOLLM2, pp_repository (say_prepared count), zero_tokenizer, [5]%N, count, memory, evs) /\
    context_length memory = (1 + count)%N) as (memory & evs & -> & Hctx).
  { destruct Hcount as [-> | ->]; vm_compute in Hp; injection Hp as <-; do 2 eexists; split; reflexivity. }
  unfold load. change (download_weights (HO := say_host) _ SMOLLM2) with (Ok "model.safetensors" : dresult string).
  rewrite Ok_bind.
  assert (validate_checkpoint (HO := say_host) SMOLLM2 "model.safetensors" = Ok tt) as -> by exact (proj2_sig valid_manifest).
  rewrite Ok_bind, Hctx. cbn [alone request_dtype say_request pl_dtype candle_dtype request_max_new_tokens pl_max_new_tokens].
  change (candle (from_mmaped_safetensors (Runtime := zero_runtime) "model.safetensors" F32)) with (Ok zero_weights : dresult VarBuilder).
  rewrite Ok_bind, Hm, Ok_bind, Hk, Ok_bind. change (eos_token_id (config SMOLLM2)) with 2%N.
  match goal with |- context [generate_tokens _ _ _ _ _ _ _ _ ?e] => set (events := e) end.
  assert (exists s, generate_tokens model zero_tokenizer 2 count count (S (N.to_nat count)) [5]%N kv events
    = Some (Ok (MaxNewTokens, s)) /\ generated s = replicate (N.to_nat count) 0%N) as (s & -> & Hs).
  { destruct Hcount as [-> | ->]; [by apply zero_run|by apply zero_run_two]. }
  cbn [mbind option_bind result_bind]. unfold finish_report. rewrite Hs.
  destruct Hcount as [-> | ->]; (eexists; split; [reflexivity|by split_and!]).
Qed.

(** The host's paths are their own texts. *)
Definition say_path (text : string) : PathBuf := text.
Definition say_text (path : PathBuf) : string := path.
Definition say_file (path : PathBuf) : lresult PathBuf := Ok path.
Definition say_write (manifest : PipelineManifest) : lresult PathBuf := Ok (say_path "/tmp/pipeline.json").
Definition say_print (report : PipelineReport) : lresult unit := Ok tt.

(** The cgroup of a rank. *)
Definition say_cgroup (path : string) : option string :=
  if String.eqb path "/sys/fs/cgroup/cpu.max" then Some (line "50000 100000")
  else if String.eqb path "/sys/fs/cgroup/memory.max" then Some (line "1073741824") else None.

(** The ranks print their reports; rank 1 exits before its stream ends. *)
Definition say_arrivals (reports : nat -> PipelineRankReport) : list Arrival :=
  map Message [Record_ 1 (ResultRecord (reports 1)); Record_ 0 (ResultRecord (reports 0)); LogLine 1 "done";
               ContainerExit 1 0; StreamEnded 1; StreamEnded 0; ContainerExit 0 0].

Lemma say_orderly reports : orderly 2 reports (fun _ => []) (messages (say_arrivals reports)).
Proof.
  split.
  - intros m Hm. apply list_elem_of_In in Hm. revert m Hm.
    apply (List.Forall_forall (fun m => message_rank m < 2)). repeat constructor.
  - intros i Hi. by repeat (destruct i as [|i]; [reflexivity|]; try lia).
  - intros i Hi. by repeat (destruct i as [|i]; [reflexivity|]; try lia).
  - intros r line Hin. cbn in Hin. repeat (apply elem_of_cons in Hin as [Hin|Hin]; [try discriminate|]).
    + by injection Hin as _ ->.
    + by apply elem_of_nil in Hin.
Qed.

#[local] Abbreviation say_run count reports :=
  (run_pipeline say_path say_file say_text duo_docker (fun _ => Some duo_info) say_write say_print
    (say_request count) false "" "request" (Ok tt) false (say_arrivals reports) (Ok tt) (start_session false)).

Lemma say_mounted : mounted say_path SMOLLM2.
Proof. intros repository metadata weights _ _ _. by split_and!. Qed.
Lemma say_readable : readable.
Proof. split; [intros path vb [= <-]; apply zero_weights_wf|by intros path tk [= <-]]. Qed.
Lemma say_enforced : enforced_for 2 say_resources (fun _ => say_cgroup).
Proof. intros i _. by apply enforced_v2; vm_compute. Qed.
Lemma say_files : files_work say_file say_write say_print.
Proof. split; [|split]; intros; [by eexists..|done]. Qed.
Lemma say_numbered i : i < 2 -> numbered i ((fun _ => []) i).
Proof. by split. Qed.

Lemma pipeline_launch_generates_witness : exists rep reports r s',
  generate (alone (say_request 2) None) = Some (Ok rep) /\
  always_returns
    (world_of 2 (fun i => run_pipeline_rank_process 2 (launch_request "demo" 2 say_resources i)
       (Ok (1%N, manifest_of say_path (say_request 2) (say_prepared 2) "request" (say_plans 2) say_resources))
       say_cgroup say_cgroup))
    (map (fun i => Ok (Some (reports i))) (seq 0 2)) /\
  say_run 2 reports = (Ok r, s') /\
  pipeline_exit r = Ok tt /\ rep_generated_tokens r = [0; 0]%N /\ rep_completion r = "text".
Proof.
  destruct (say_generates 2 ltac:(by right)) as (rep & Hrep & Ht & Hs & Hc).
  destruct (pipeline_launch_generates say_path say_file say_text duo_docker (fun _ => Some duo_info)
    say_write say_print duo_text (fun past c => ex_intro _ _ (conj eq_refl eq_refl))
    (say_request 2) false "" "request" None rep (say_prepared 2) duo_info duo_engine say_resources (say_plans 2)
    (fun _ => say_cgroup) (fun _ => say_cgroup) 2 false false (say_launchable 2 ltac:(by right)) Hrep
    say_mounted say_readable say_enforced say_enforced ltac:(reflexivity) ltac:(reflexivity)
    ltac:(vm_compute; reflexivity) say_files) as (reports & Hret & Hrun).
  destruct (Hrun (fun _ => []) (say_arrivals reports) say_numbered ltac:(repeat constructor) (say_orderly reports))
    as (res & s' & Hr & Hres).
  rewrite Ht, Hs in Hres. destruct Hres as (r & -> & Hexit & _ & Hg & Hcompletion & _).
  exists rep, reports, r, s'. rewrite Hg, Hcompletion. by split_and!.
Defined.

(** One token is generated in the first pass: the ranks succeed, and the command
    panics in its report. *)
Lemma single_token_panics : exists rep reports s',
  generate (alone (say_request 1) None) = Some (Ok rep) /\
  always_returns
    (world_of 2 (fun i => run_pipeline_rank_process 1 (launch_request "demo" 2 say_resources i)
       (Ok (1%N, manifest_of say_path (say_request 1) (say_prepared 1) "request" (say_plans 1) say_resources))
       say_cgroup say_cgroup))
    (map (fun i => Ok (Some (reports i))) (seq 0 2)) /\
  say_run 1 reports = (Err (Failed (LaunchPanicked "attempt to divide by zero")), s').
Proof.
  destruct (say_generates 1 ltac:(by left)) as (rep & Hrep & Ht & Hs & Hc).
  destruct (launched_ranks say_path (say_request 1) false "" "request" None rep (say_prepared 1) duo_engine say_resources
    (say_plans 1) (fun _ => say_cgroup) (fun _ => say_cgroup) 1 (say_launchable 1 ltac:(by left)) Hrep
    say_mounted say_readable say_enforced say_enforced ltac:(reflexivity)) as (reports & Hret & Hr).
  destruct (run_pipeline_starts say_path say_file say_text duo_docker (fun _ => Some duo_info)
    say_write say_print (fun past c => ex_intro _ _ (conj eq_refl eq_refl)) (say_request 1) false "" "request" None rep
    (say_prepared 1) duo_info duo_engine say_resources (say_plans 1) false (say_arrivals reports) (Ok tt)
    (start_session false) (say_launchable 1 ltac:(by left)) Hrep ltac:(reflexivity) ltac:(vm_compute; reflexivity)
    say_files) as (mp & w & s' & Hi & Hrun).
  destruct (mounts_exist say_file say_text say_write say_print mp (pp_metadata (say_prepared 1)) w say_files) as [mounts Hm].
  destruct (pipeline_scope_collects say_file say_text duo_docker say_print duo_text (fun past c => ex_intro _ _ (conj eq_refl eq_refl))
    (say_request 1) (say_prepared 1) "request" (say_plans 1) duo_engine say_resources mp w mounts (say_arrivals reports)
    reports (fun _ => []) (mkSession (issued s') (interrupted s') (Docker.mkResources (network_name "demo") [] false))
    Hm Hi (fun i Hi => proj1 (Hr i Hi)) say_numbered ltac:(repeat constructor) (say_orderly reports) ltac:(done))
    as (evs & s2 & Hscope).
  destruct (Hr 0 ltac:(cbn; lia)) as (H0 & _ & _ & _ & _ & Hd). rewrite Ht, Hs in Hd.
  rewrite pipeline_report_panics in Hscope by (cbn; lia || done). cbn [map_err] in Hscope.
  exists rep, reports. eexists. split; [exact Hrep|]. split; [by apply together_returns|].
  cbn [pl_keep_containers say_request] in Hrun. rewrite Hrun. unfold with_resources.
  cbn [pp_run_id say_prepared]. rewrite Hscope. reflexivity.
Qed.

(** The second container does not start: what the daemon refuses to remove, or may
    have created, is what may remain. *)
Definition no_report : list (@Arrival PipelineRankReport) :=
  map Message [ContainerExit 1 1; StreamEnded 1; StreamEnded 0; ContainerExit 0 1].
Lemma pipeline_leaves_nothing_witness :
  let '(res, s) := run_pipeline say_path say_file say_text broken_docker (fun _ => Some duo_info) say_write say_print
    (say_request 2) false "" "request" (Ok tt) false no_report (Ok tt) (start_session false) in
  res <> Err Blocked /\ released broken_docker false s.
Proof.
  pose proof (pipeline_leaves_nothing say_path say_file say_text broken_docker (fun _ => Some duo_info) say_write say_print
    (say_request 2) false "" "request" (Ok tt) false no_report (Ok tt) false) as H.
  change (start_session false) with (mkSession [] false (Docker.mkResources "" [] (pl_keep_containers (say_request 2)))).
  destruct (run_pipeline _ _ _ _ _ _ _ _ _ _ _ _ _ _ _ _) as [res s]. destruct H as [H1 H2].
  assert (res <> Err Blocked) as Hne; [|by split; [|apply H1]]. apply H2. right. intros i Hi.
  destruct i as [|[|i]]; [| |cbn in Hi; lia]; cbn; (split; [|exists 1%Z]); set_solver.
Defined.
