(* ===== verification/TensorLaunch.v ===== *)
(** * The tensor command

    Models [crates/cli/src/tensor.rs]: like [PipelineLaunch.v] for tensor-parallel
    ranks - the preparation of the request and its manifest, the containers, the
    collector of [Collect.v] that counts ends and exits, the report, and the
    process a container runs around the rank of [TensorRun.v].  Clock readings and
    the dashboard's drawing are not part of the model; printing the report is an
    argument that answers. *)
From S2P Require Import Prelude Sorting Text Rank Packet Tcp World Tensor Collective Registry Memory Shard Protocol.
From S2P Require Import Report Cache Kernels Llama Artifacts Generation Launch Docker LaunchRun Collect.
From S2P Require Import Pipeline RingExchange PipelineLaunch Parallel TensorLlama TensorRun.

(** [struct TensorLaunchRequest], without the path the report is written to. *)
Record TensorLaunchRequest : Type := mkTensorLaunch
  { tl_model : SupportedModelId; tl_tp : nat; tl_dtype : PlanDType; tl_prompt : string;
    tl_max_new_tokens : N; tl_total_cpus : CpuAmount; tl_total_memory : string;
    tl_all_reduce : AllReduceAlgorithm; tl_tui : bool; tl_image : string; tl_build_context : string;
    tl_rebuild : bool; tl_run_id : option string; tl_startup_timeout : Duration;
    tl_operation_timeout : Duration; tl_keep_containers : bool }.

Definition TENSOR_CONTAINER_MANIFEST : string := "/opt/dlir/request/tensor.json".

(** [struct ArtifactMounts], as the texts the arguments show. *)
Record TensorMounts : Type := mkTensorMounts
  { tmount_manifest : string; tmount_checkpoint : string; tmount_tokenizer : string }.

(** [tensor_container_arguments]. *)
Definition tensor_container_arguments (image network name run_id : string) (rank world_size : nat)
  (resources : ResourcePlan) (startup operation : Duration) (mounts : TensorMounts) : list string :=
  let rank_text := pretty (N.of_nat rank) in
  ["run"; "--detach"; "--name"; name; "--network"; network; "--network-alias";
   "rank-" +:+ rank_text; "--label"; RUN_LABEL +:+ "=" +:+ run_id;
   "--cpus"; format_cpu (per_rank_cpu_millis resources);
   "--memory"; pretty (per_rank_memory_bytes resources) +:+ "b";
   "--memory-swap"; pretty (per_rank_memory_bytes resources) +:+ "b"]
  ++ flat_map (fun '(source, target) =>
       ["--mount"; "type=bind,source=" +:+ source +:+ ",target=" +:+ target +:+ ",readonly"])
       [(tmount_manifest mounts, TENSOR_CONTAINER_MANIFEST); (tmount_checkpoint mounts, CONTAINER_CHECKPOINT);
        (tmount_tokenizer mounts, CONTAINER_TOKENIZER)]
  ++ [image; "rank"; "--workload"; "tensor"; "--tensor-manifest"; TENSOR_CONTAINER_MANIFEST;
      "--rank"; rank_text; "--world-size"; pretty (N.of_nat world_size);
      "--run-id"; run_id; "--rendezvous-addr"; "rank-0:" +:+ pretty RENDEZVOUS_PORT;
      "--listen-addr"; "0.0.0.0:" +:+ pretty PEER_PORT;
      "--advertise-addr"; "rank-" +:+ rank_text +:+ ":" +:+ pretty PEER_PORT;
      "--startup-timeout-seconds"; seconds startup; "--operation-timeout-seconds"; seconds operation;
      "--expected-cpu-millis"; pretty (per_rank_cpu_millis resources);
      "--expected-memory-bytes"; pretty (per_rank_memory_bytes resources)]
  ++ (if Nat.eqb rank 0 then ["--rendezvous-bind-addr"; "0.0.0.0:" +:+ pretty RENDEZVOUS_PORT] else []).

(** [struct TensorParallelResourcePlan], [resource_report]. *)
Record TensorParallelResourcePlan : Type := mkTensorResources
  { tr_engine_cpu_millis : N; tr_engine_memory_bytes : N; tr_requested_cpu_millis : N;
    tr_requested_memory_bytes : N; tr_per_rank_cpu_millis : N; tr_per_rank_memory_bytes : N;
    tr_unused_cpu_millis : N; tr_unused_memory_bytes : N }.
Definition resource_report (engine : DockerEngineReport) (plan : ResourcePlan) : TensorParallelResourcePlan :=
  mkTensorResources (engine_cpu_millis engine) (engine_memory_bytes engine) (requested_cpu_millis plan)
    (requested_memory_bytes plan) (per_rank_cpu_millis plan) (per_rank_memory_bytes plan)
    (unused_cpu_millis plan) (unused_memory_bytes plan).

(** [struct TensorParallelReport], without its duration. *)
Record TensorParallelReport : Type := mkTensorRunReport
  { tr_schema_version : N; tr_run_id : string; tr_request_id : string; tr_model : SupportedModelId;
    tr_repository : string; tr_revision : string; tr_dtype : PlanDType; tr_transport : string;
    tr_collective_backend : string; tr_all_reduce : AllReduceAlgorithm; tr_tensor_parallel : nat;
    tr_pipeline_parallel : nat; tr_expert_parallel : nat; tr_partition : TensorParallelPartition;
    tr_resources : TensorParallelResourcePlan; tr_prompt_tokens : N; tr_generated_tokens : list N;
    tr_completion : string; tr_stop_reason : StopReason; tr_ranks : list TensorParallelRankReport;
    tr_events : list ReceivedPipelineEvent; tr_communication_bytes : N; tr_failures : list string;
    tr_success : bool }.

Definition sort_reports : list TensorParallelRankReport -> list TensorParallelRankReport :=
  sort_by_key tp_report_rank.

Section Preparation.
Context {HO : HostSystem} {RT : Runtime}.

(** The part of [run_tensor] that looks at the request alone. *)
Record TensorPrepared : Type := mkTensorPrepared
  { tl_spec : ModelSpec; tl_memory : N; tl_resolved_id : string; tl_resolved : ResolvedPrompt }.
Definition prepare_tensor (request : TensorLaunchRequest) (terminal : bool) (new_run_id : string)
  : lresult TensorPrepared :=
  _ ← reject_if (tl_tui request && negb terminal) NotATerminal;
  _ ← reject_if (blank (tl_prompt request) || (tl_max_new_tokens request =? 0)%N) EmptyRequest;
  _ ← reject_if (negb (bool_decide (tl_dtype request = PF32))) OnlyF32;
  spec ← ok_or (spec_of (tl_model request))
    (LaunchRuntime (InvalidConfig "every model id must have a registry entry"));
  _ ← map_err LaunchRuntime (validate_cpu_dtype spec (tl_dtype request));
  total_memory ← map_err LaunchRuntime (parse_byte_size (tl_total_memory request));
  let run_id := default new_run_id (tl_run_id request) in
  _ ← validate_run_id run_id;
  a ← resolve_prompt spec (tl_prompt request) (tl_max_new_tokens request);
  Ok (mkTensorPrepared spec total_memory run_id a).

(** The partition, refused when a rank's part does not fit. *)
Definition tensor_partition (request : TensorLaunchRequest) (p : TensorPrepared) (resources : ResourcePlan)
  : lresult TensorParallelPartition :=
  partition ← map_err LaunchTensor (plan_spec (tl_model request) (tl_spec p) (N.of_nat (tl_tp request))
    (rp_capacity (tl_resolved p)) (Some (per_rank_memory_bytes resources)));
  _ ← map_err LaunchTensor (require_placement partition);
  Ok partition.

Variable path_of : string -> PathBuf.

(** The manifest of the ranks. *)
Definition tensor_manifest_of (request : TensorLaunchRequest) (p : TensorPrepared) (request_id : string)
  (partition : TensorParallelPartition) (resources : ResourcePlan) : TensorParallelManifest :=
  mkTensorManifest HO 1 (tl_resolved_id p) request_id (tl_model request) (tl_dtype request)
    (N.of_nat (tl_tp request)) (tl_all_reduce request) (rp_tokens (tl_resolved p)) (tl_max_new_tokens request)
    (rp_effective (tl_resolved p)) (rp_capacity (tl_resolved p)) (path_of CONTAINER_CHECKPOINT)
    (path_of CONTAINER_TOKENIZER) partition (per_rank_cpu_millis resources) (per_rank_memory_bytes resources).

Variables (canonicalize : PathBuf -> lresult PathBuf) (display : PathBuf -> string).
Definition tensor_mounts (manifest : PathBuf) (metadata : MetadataArtifacts) (checkpoint : PathBuf)
  : lresult TensorMounts :=
  manifest ← canonicalize manifest;
  checkpoint ← canonicalize checkpoint;
  tokenizer ← canonicalize (tokenizer_path metadata);
  Ok (mkTensorMounts (display manifest) (display checkpoint) (display tokenizer)).

(** ** The launch *)
Section Launch.
Variable docker : list command -> command -> option Output.
Variable parse_info : string -> option DockerInfoJson.
Variable write_manifest : TensorParallelManifest -> lresult PathBuf.
(** The report's file and the text on the terminal. *)
Variable print_report : TensorParallelReport -> lresult unit.

(** The loop that starts the ranks. *)
Fixpoint start_tensor_ranks (arguments : nat -> string -> command) (run_id : string) (ranks : list nat)
  : docking unit :=
  match ranks with
  | [] => mret tt
  | rank :: ranks =>
      let name := container_name run_id rank in
      output ← docker_checked docker (arguments rank name);
      id ← attempt (ok_or (from_utf8 (stdout output)) NonUtf8ContainerId);
      _ ← attempt (reject_if (String.eqb (trim id) "") (EmptyContainerId rank));
      _ ← push_container name;
      start_tensor_ranks arguments run_id ranks
  end.

(** The ranks' reports in one, from [collected]. *)
Definition tensor_report (request : TensorLaunchRequest) (p : TensorPrepared) (request_id : string)
  (partition : TensorParallelPartition) (engine : DockerEngineReport) (resources : ResourcePlan)
  (collected : Collected) : TensorParallelReport :=
  let ranks := sort_reports (omap Datatypes.id (collected_ranks collected)) in
  let rank_zero := List.find (fun r => tp_report_rank r =? 0) ranks in
  let n := tl_tp request in
  let success := bool_decide (failures collected = []) && (length ranks =? n) && forallb tp_success ranks
    && forallb (fun code => bool_decide (code = Some 0%Z)) (collected_exit_codes collected) in
  {| tr_schema_version := 1; tr_run_id := tl_resolved_id p; tr_request_id := request_id;
     tr_model := tl_model request; tr_repository := repository (tl_spec p);
     tr_revision := revision (tl_spec p); tr_dtype := tl_dtype request; tr_transport := "tcp";
     tr_collective_backend := "native"; tr_all_reduce := tl_all_reduce request;
     tr_tensor_parallel := n; tr_pipeline_parallel := 1; tr_expert_parallel := 1;
     tr_partition := partition; tr_resources := resource_report engine resources;
     tr_prompt_tokens := N.of_nat (length (rp_tokens (tl_resolved p)));
     tr_generated_tokens := match rank_zero with Some r => tp_generated_tokens r | None => [] end;
     tr_completion := match rank_zero with Some r => tp_completion r | None => "" end;
     tr_stop_reason := match rank_zero with Some r => tp_stop_reason r | None => MaxNewTokens end;
     tr_ranks := ranks; tr_events := collected_events collected;
     tr_communication_bytes := sum64 (map tp_sent_bytes ranks);
     tr_failures := failures collected; tr_success := success |}.

(** The scope of the guard, as in [PipelineLaunch.v]. *)
Definition tensor_scope (request : TensorLaunchRequest) (p : TensorPrepared) (request_id : string)
  (partition : TensorParallelPartition) (engine : DockerEngineReport) (resources : ResourcePlan)
  (manifest_path weights : PathBuf) (arrivals : list Arrival) (dashboard : lresult unit)
  : docking TensorParallelReport :=
  mounts ← attempt (tensor_mounts manifest_path (rp_metadata (tl_resolved p)) weights);
  self ← get_held;
  _ ← start_tensor_ranks
    (fun rank name => tensor_container_arguments (tl_image request) (network self) name (tl_resolved_id p) rank
       (tl_tp request) resources (tl_startup_timeout request) (tl_operation_timeout request) mounts)
    (tl_resolved_id p) (seq 0 (tl_tp request));
  self ← get_held;
  _ ← (if tl_tui request then attempt dashboard else mret tt);
  collected ← collect_tensor_streams docker (containers self) (tl_tp request) arrivals;
  let report := tensor_report request p request_id partition engine resources collected in
  _ ← attempt (print_report report);
  _ ← (if tl_keep_containers request then mret tt else cleanup docker);
  mret report.

(** [run_tensor], up to its verdict. *)
Definition run_tensor (request : TensorLaunchRequest) (terminal : bool) (new_run_id request_id : string)
  (handler : lresult unit) (dockerfile : bool) (arrivals : list Arrival) (dashboard : lresult unit)
  : docking TensorParallelReport :=
  p ← attempt (prepare_tensor request terminal new_run_id);
  engine ← docker_engine_info docker parse_info;
  resources ← attempt (plan_resources (tl_tp request) (tl_total_cpus request) (tl_memory p) engine);
  partition ← attempt (tensor_partition request p resources);
  weights ← attempt (resolve_weights (rp_repository (tl_resolved p)) (tl_spec p));
  manifest_path ← attempt (write_manifest (tensor_manifest_of request p request_id partition resources));
  _ ← attempt handler;
  _ ← set_interrupted false;
  _ ← ensure_image docker (tl_image request) (tl_build_context request) dockerfile (tl_rebuild request);
  _ ← create_network docker (tl_resolved_id p);
  with_resources docker (Docker.mkResources (network_name (tl_resolved_id p)) [] (tl_keep_containers request))
    (tensor_scope request p request_id partition engine resources manifest_path weights arrivals dashboard).

(** The verdict of [run_tensor] on the report it has printed. *)
Definition tensor_exit (report : TensorParallelReport) : lresult unit :=
  reject_if (negb (tr_success report)) GenerationFailed.
End Launch.
End Preparation.

(** ** The process of a rank *)

(** The report with the resources observed last. *)
Definition tensor_report_resources (resources : ResourceSnapshot) (r : TensorParallelRankReport)
  : TensorParallelRankReport :=
  {| tp_schema_version := tp_schema_version r; tp_run_id := tp_run_id r; tp_request_id := tp_request_id r;
     tp_report_rank := tp_report_rank r; tp_peers := tp_peers r; tp_memory := tp_memory r;
     tp_resources := resources; tp_final_kv_cache_bytes := tp_final_kv_cache_bytes r;
     tp_collectives := tp_collectives r; tp_sent_bytes := tp_sent_bytes r;
     tp_received_bytes := tp_received_bytes r; tp_generated_tokens := tp_generated_tokens r;
     tp_completion := tp_completion r; tp_stop_reason := tp_stop_reason r;
     tp_decode_forward_count := tp_decode_forward_count r; tp_barriers_passed := tp_barriers_passed r;
     tp_success := tp_success r |}.

Section Process.
Context {FO : FloatOps} {KE : Kernels} {HO : HostSystem} {RT : Runtime} {SR : ShardedRuntime}
  {JC : JsonCodec TokenDecision}.

(** [run_tensor_rank_process] up to the record it prints, with the arguments of
    [run_pipeline_rank_process]. *)
Definition admit_tensor_process (request : RankRequest) (manifest_file : lresult TensorParallelManifest)
  (read : string -> option string) : lresult (TensorParallelManifest * Rank * ResourceSnapshot) :=
  manifest ← manifest_file;
  spec ← ok_or (spec_of (tm_model manifest))
    (LaunchRuntime (InvalidConfig "every model id must have a registry entry"));
  _ ← map_err LaunchRuntime (validate_checkpoint spec (tm_checkpoint_path manifest));
  let observed := observe_cgroup_resources read in
  _ ← verify_resources observed (request_cpu_millis request) (request_memory_bytes request);
  rank ← map_err LaunchCollectives (Ranks.new (request_rank request) (request_world_size request));
  Ok (manifest, rank, resource_snapshot observed).

Definition run_tensor_rank_process (request : RankRequest) (manifest_file : lresult TensorParallelManifest)
  (read read_after : string -> option string) (peers : list PeerInfo) (elapsed : N -> Duration)
  : lproc TensorParallelRankReport :=
  (a ⟵ lift (admit_tensor_process request manifest_file read);
   report ⟵ proc_err LaunchTensor (run_tensor_parallel_rank a.1.2 a.1.1 peers a.2 elapsed);
   let final_observed := observe_cgroup_resources read_after in
   _ ⟵ lift (verify_resources final_observed (request_cpu_millis request) (request_memory_bytes request));
   lift (Ok (tensor_report_resources (resource_snapshot final_observed) report)))%proc.
End Process.
