(* ===== verification/TensorLaunchProofs.v ===== *)
(** * The tensor command is safe and reports what its ranks generated

    A tensor launch releases what it holds on every path, returns once every
    container has ended, and its report has the tokens and the text of the ranks'
    common run. *)
From S2P Require Import Prelude Sorting Text Rank Packet Tcp World Tensor Collective Registry Memory Shard Protocol.
From S2P Require Import Report Cache Kernels Llama LlamaStage Artifacts Generation Launch Docker LaunchRun Collect CollectProofs.
From S2P Require Import Pipeline Shapes GenerationProofs RingExchange PipelineLaunch PipelineLaunchProofs.
From S2P Require Import Parallel TensorLlama TensorShapes TensorWorld TensorRun TensorProofs TensorLaunch.

(** ** Nothing is left behind *)
Section Launch.
Context {HO : HostSystem} {RT : Runtime}.
Context (path_of : string -> PathBuf) (canonicalize : PathBuf -> lresult PathBuf) (display : PathBuf -> string).
Context (docker : list command -> command -> option Output) (parse_info : string -> option DockerInfoJson)
  (write_manifest : TensorParallelManifest -> lresult PathBuf) (print_report : TensorParallelReport -> lresult unit).

Lemma attempt_ok_bind {A B} (a : A) (f : A -> docking B) : attempt (Ok a) ≫= f = f a.
Proof. done. Qed.

(** The two checks of a container's identifier are one. *)
Lemma identifier_checked {A} c rank (m : docking A) s :
  (output ← docker_checked docker c;
   id ← attempt (id ← ok_or (from_utf8 (stdout output)) NonUtf8ContainerId;
                 _ ← reject_if (String.eqb (trim id) "") (EmptyContainerId rank); Ok id);
   m) s =
  (output ← docker_checked docker c;
   id ← attempt (ok_or (from_utf8 (stdout output)) NonUtf8ContainerId);
   _ ← attempt (reject_if (String.eqb (trim id) "") (EmptyContainerId rank)); m) s.
Proof.
  unfold mbind, docking_bind. destruct (docker_checked docker c s) as [[o|e] s']; [|done].
  destruct (from_utf8 (stdout o)) as [id|]; [|done]. unfold attempt, ok_or. cbn.
  by destruct (String.eqb (trim id) "").
Qed.

Lemma start_tensor_guards k arguments run_id ranks :
  (forall rank name, acquires (arguments rank name) = Some (Container name)) ->
  guards docker k (start_tensor_ranks docker arguments run_id ranks).
Proof.
  intros Ha. induction ranks as [|rank ranks IH]; cbn [start_tensor_ranks]; [auto with docker|].
  intros s Hs Hk.
  pose proof (acquire_guards docker k (arguments rank (container_name run_id rank)) (container_name run_id rank)
    (fun output => id ← ok_or (from_utf8 (stdout output)) NonUtf8ContainerId;
                   _ ← reject_if (String.eqb (trim id) "") (EmptyContainerId rank); Ok id)
    (fun _ => start_tensor_ranks docker arguments run_id ranks)) as H.
  rewrite <- identifier_checked. apply H; [|apply Ha|done|done|done].
  intros o Ho. unfold unnamed in Ho. destruct (from_utf8 (stdout o)) as [id|]; [|done]. exists id.
  cbn. by rewrite Ho.
Qed.

Lemma returns_start_tensor arguments run_id ranks : returns (start_tensor_ranks docker arguments run_id ranks).
Proof.
  induction ranks as [|rank ranks IH]; cbn [start_tensor_ranks]; [done|].
  apply returns_bind; [apply returns_checked|]. intros o.
  apply returns_bind; [apply returns_attempt|]. intros id.
  apply returns_bind; [apply returns_attempt|]. intros _. by apply returns_bind.
Qed.

Lemma tensor_scope_guards request p request_id partition engine resources mp w arrivals dashboard :
  guards docker (tl_keep_containers request)
    (tensor_scope canonicalize display docker print_report request p request_id partition engine resources mp w arrivals dashboard).
Proof.
  unfold tensor_scope. apply guards_bind; [auto with docker|]. intros mounts.
  apply guards_bind; [auto with docker|]. intros self.
  apply guards_bind; [by apply start_tensor_guards|]. intros _.
  apply guards_bind; [auto with docker|]. intros self'.
  apply guards_bind; [apply neutral_guards, neutral_dashboard|]. intros _.
  apply guards_bind; [apply neutral_guards, neutral_tensor_collect|]. intros collected.
  apply guards_bind; [auto with docker|]. intros _.
  apply guards_bind; [|intros _; by auto with docker].
  destruct (tl_keep_containers request); [by auto with docker|apply cleanup_guards].
Qed.

Lemma tensor_scope_returns request p request_id partition engine resources mp w arrivals dashboard :
  tensor_comes_to_end (tl_tp request) arrivals ->
  returns (tensor_scope canonicalize display docker print_report request p request_id partition engine resources mp w arrivals dashboard).
Proof.
  intros He. unfold tensor_scope. apply returns_bind; [apply returns_attempt|]. intros mounts.
  apply returns_bind; [done|]. intros self. apply returns_bind; [apply returns_start_tensor|]. intros _.
  apply returns_bind; [done|]. intros self'. apply returns_bind.
  { destruct (tl_tui request); [apply returns_attempt|done]. }
  intros _. apply returns_bind; [intros s; by apply tensor_collect_returns|]. intros c.
  apply returns_bind; [apply returns_attempt|]. intros _.
  apply returns_bind; [|done]. destruct (tl_keep_containers request); [done|apply returns_cleanup].
Qed.

(** C17: a tensor command releases what it holds on every path.  Whatever the
    daemon, the hub, the file system and the terminal answer, whatever the ranks
    print and in whatever order, when the command returns nothing of its containers
    and network may remain but what is [lost], as for the plain launch.  As long as
    each docker command itself returns, it returns once as many streams have ended
    and exits are known as there are ranks. *)
Theorem tensor_leaves_nothing request terminal new_run_id request_id handler dockerfile arrivals dashboard i :
  let '(res, s) := run_tensor path_of canonicalize display docker parse_info write_manifest print_report request terminal
    new_run_id request_id handler dockerfile arrivals dashboard
    (mkSession [] i (Docker.mkResources "" [] (tl_keep_containers request))) in
  (res <> Err Blocked -> released docker (tl_keep_containers request) s) /\
  (tensor_comes_to_end (tl_tp request) arrivals -> res <> Err Blocked).
Proof.
  destruct (run_tensor _ _ _ _ _ _ _ _ _ _ _ _ _ _ _ _) as [res s] eqn:E. split.
  - intros Hne. revert E. unfold run_tensor.
    assert (fresh docker (tl_keep_containers request)
      (mkSession [] i (Docker.mkResources "" [] (tl_keep_containers request)))) as Hf by done.
    revert Hf. generalize (mkSession [] i (Docker.mkResources "" [] (tl_keep_containers request))). intros s0 Hf.
    do 9 (eapply fresh_bind; [auto using neutral_engine_info, neutral_ensure_image with docker|exact Hf|];
      clear s0 Hf; intros ? s0 Hf).
    intros H. eapply scope_releases; [apply tensor_scope_guards|exact Hf|exact H|exact Hne].
  - intros He. replace res with (run_tensor path_of canonicalize display docker parse_info write_manifest print_report request
      terminal new_run_id request_id handler dockerfile arrivals dashboard
      (mkSession [] i (Docker.mkResources "" [] (tl_keep_containers request)))).1 by (by rewrite E).
    unfold run_tensor.
    do 9 (apply returns_bind; [solve [done|auto using returns_attempt, returns_engine_info, returns_ensure_image]|intros ?]).
    apply returns_bind; [apply returns_checked|]. intros o s0. apply with_resources_returns.
    by apply tensor_scope_returns.
Qed.
End Launch.

(** ** The ranks of a launch *)

(** What a resolved prompt leaves room for. *)
Lemma resolve_prompt_Ok {HO : HostSystem} {RT : Runtime} model spec prompt max_new_tokens a :
  spec_of model = Some spec -> resolve_prompt spec prompt max_new_tokens = Ok a -> max_new_tokens <> 0%N ->
  rp_tokens a <> [] /\ (0 < rp_effective a)%N /\ rp_capacity a = (lenN (rp_tokens a) + rp_effective a)%N.
Proof.
  intros Hspec H Hmax. pose proof (context_small _ _ Hspec) as Hsmall. unfold resolve_prompt in H.
  do 5 apply bind_Ok in H as (? & _ & H). apply bind_Ok in H as (tokens & _ & H).
  apply bind_Ok in H as (? & Hfit%reject_if_Ok & [= <-]). bool_prop.
  cbn [rp_tokens rp_effective rp_capacity]. unfold lenN. rewrite add64_small by lia.
  split; [|split; [lia|done]]. intros ->. cbn in *. lia.
Qed.

Section Ranks.
Context {FO : FloatOps} {KE : Kernels} {KL : KernelLaws KE} {HO : HostSystem} {RT : Runtime} {SR : ShardedRuntime}.
Context {JC : JsonCodec TokenDecision} {JL : JsonCodecLaws JC token_decision_wf}.
Context (path_of : string -> PathBuf).

(** What a launcher needs before it starts a rank. *)
Record tensor_launchable (request : TensorLaunchRequest) (terminal : bool) (new_run_id : string)
  (p : TensorPrepared) (engine : DockerEngineReport) (resources : ResourcePlan)
  (partition : TensorParallelPartition) (weights : PathBuf) : Prop := mkTensorLaunchable
  { tla_prompt : prepare_tensor request terminal new_run_id = Ok p;
    tla_engine : (engine_cpu_millis engine * 100000 < U64)%N /\ (engine_memory_bytes engine < U64)%N;
    tla_resources : plan_resources (tl_tp request) (tl_total_cpus request) (tl_memory p) engine = Ok resources;
    tla_partition : tensor_partition request p resources = Ok partition;
    tla_weights : resolve_weights (rp_repository (tl_resolved p)) (tl_spec p) = Ok weights;
    tla_image : blank (tl_image request) = false /\ tl_rebuild request = false }.

(** What the containers' paths show: a valid checkpoint that stores the registered
    tensors, of which every rank loads its part, and a tokenizer that decodes; the
    prompt's tokens are in the vocabulary. *)
Record tensor_mounted (p : TensorPrepared) (manifest : TensorParallelManifest) (n : nat)
  (tokenizer : Tokenizer) (m : nat -> TensorParallelLlama) (kv : nat -> KvCache) : Prop := mkTensorMounted
  { tmo_checkpoint : validate_checkpoint (tl_spec p) (path_of CONTAINER_CHECKPOINT) = Ok tt;
    tmo_shards : exists file, sharded_file (path_of CONTAINER_CHECKPOINT) = Ok file /\ registered_file (tl_spec p) file;
    tmo_loads : forall i, i < n -> load_tensor_rank (mkRank i n) manifest (tl_spec p) = Ok (m i, kv i);
    tmo_tokenizer : tokenizer_from_file (path_of CONTAINER_TOKENIZER) = Ok tokenizer;
    tmo_decodes : forall ids, exists text, tokenizer_decode tokenizer ids = Ok text;
    tmo_vocabulary : Forall (fun id => id < vocab_size (config (tl_spec p)))%N (rp_tokens (tl_resolved p)) }.

Lemma prepare_tensor_Ok request terminal new_run_id p : prepare_tensor request terminal new_run_id = Ok p ->
  tl_dtype request = PF32 /\ spec_of (tl_model request) = Some (tl_spec p) /\ tl_max_new_tokens request <> 0%N /\
  resolve_prompt (tl_spec p) (tl_prompt request) (tl_max_new_tokens request) = Ok (tl_resolved p).
Proof.
  unfold prepare_tensor. intros H. apply bind_Ok in H as (? & _ & H).
  apply bind_Ok in H as (? & Hreq%reject_if_Ok & H). apply bind_Ok in H as (? & Hdt%reject_if_Ok & H).
  apply bind_Ok in H as (spec & Hspec%ok_or_Ok & H). do 3 apply bind_Ok in H as (? & _ & H).
  apply bind_Ok in H as (a & Ha & [= <-]). bool_prop.
  split_and!; try done. 
Qed.

Lemma tensor_processes_together n manifest spec run_id p read read_after peers elapsed reports :
  0 < n -> spec_of (tm_model manifest) = Some spec ->
  validate_checkpoint spec (tm_checkpoint_path manifest) = Ok tt ->
  (forall i, i < n ->
     verify_resources (observe_cgroup_resources (read i)) (Some (per_rank_cpu_millis p)) (Some (per_rank_memory_bytes p)) = Ok Passed /\
     verify_resources (observe_cgroup_resources (read_after i)) (Some (per_rank_cpu_millis p)) (Some (per_rank_memory_bytes p)) = Ok Passed) ->
  together n (fun i => run_tensor_parallel_rank (mkRank i n) manifest (peers i) (snapshot (read i)) (elapsed i))
    (fun i => Ok (reports i)) ->
  together n (fun i => run_tensor_rank_process (launch_request run_id n p i) (Ok manifest) (read i) (read_after i)
      (peers i) (elapsed i))
    (fun i => Ok (tensor_report_resources (snapshot (read_after i)) (reports i))).
Proof.
  intros Hn Hspec Hck Hv Ht. unfold run_tensor_rank_process.
  apply (together_lift n _ (fun i => (manifest, mkRank i n, snapshot (read i)))).
  { intros i Hi. destruct (Hv i Hi) as [Hv1 _]. unfold admit_tensor_process. rewrite Ok_bind, Hspec. cbn [ok_or].
    rewrite Ok_bind, Hck. cbn [map_err]. rewrite Ok_bind.
    cbn [launch_request request_rank request_world_size request_cpu_millis request_memory_bytes].
    rewrite Hv1, Ok_bind, Ranks.rank_new_ok by done. done. }
  apply (together_try n _ reports); [by apply together_err|].
  apply (together_lift n _ (fun _ => Passed)); [intros i Hi; by apply Hv|]. by apply together_ret.
Qed.

(** The rank processes of a launch generate together. *)
Lemma launched_tensor_ranks request terminal new_run_id request_id p engine resources partition weights
  tokenizer m kv read read_after peers elapsed :
  let n := tl_tp request in
  let manifest := tensor_manifest_of path_of request p request_id partition resources in
  let cfg := config (tl_spec p) in
  tensor_launchable request terminal new_run_id p engine resources partition weights ->
  tensor_mounted p manifest n tokenizer m kv ->
  enforced_for n resources read -> enforced_for n resources read_after ->
  exists reason tokens kv' text (reports : nat -> TensorParallelRankReport),
    sharded_greedy n (tl_all_reduce request) m (eos_token_id cfg) (tl_max_new_tokens request)
      (rp_effective (tl_resolved p)) (rp_tokens (tl_resolved p)) 0 kv [] reason tokens kv' /\
    (lenN tokens <= rp_effective (tl_resolved p))%N /\ tokenizer_decode tokenizer tokens = Ok text /\
    together n (fun i => run_tensor_rank_process (launch_request (tl_resolved_id p) n resources i) (Ok manifest)
      (read i) (read_after i) (peers i) (elapsed i)) (fun i => Ok (reports i)) /\
    forall i, i < n -> tp_report_rank (reports i) = i /\ tp_success (reports i) = true /\
      tp_stop_reason (reports i) = reason /\ tp_generated_tokens (reports i) = tokens /\
      tp_completion (reports i) = (if Nat.eqb i 0 then text else "").
Proof.
  intros n manifest cfg [Hprep Hengine Hplan Hpart _ _] [Hck (file & Hfile & Hreg) Hload Htk Hdec Hvoc] Hcg Hcg'.
  destruct (prepare_tensor_Ok _ _ _ _ Hprep) as (Hdt & Hspec & Hmax & Ha).
  destruct (resolve_prompt_Ok _ _ _ _ _ Hspec Ha Hmax) as (Hne & Heff & Hcap).
  destruct (plan_resources_bounds _ _ _ _ _ Hplan) as [_ Hn].
  unfold tensor_partition in Hpart. apply bind_Ok in Hpart as (part & Hpl%map_err_Ok & Hpart).
  apply bind_Ok in Hpart as (? & _ & [= ->]).
  destruct (tensor_world n manifest (tl_spec p) _ peers (fun i => snapshot (read i)) elapsed file tokenizer m kv
    eq_refl Hdt eq_refl Hspec Hpl Hfile Hreg Hload Htk Hdec Hne Hvoc Heff)
    as (reason & tokens & kv' & text & reports & Hg & Hl & Ht & Htog & Hr); [cbn; lia|].
  exists reason, tokens, kv', text, (fun i => tensor_report_resources (snapshot (read_after i)) (reports i)).
  split; [done|]. split; [done|]. split; [done|]. split.
  - apply (tensor_processes_together n manifest (tl_spec p)); [done|done|done| |done].
    intros i Hi. split; eapply plan_limits; eauto.
  - intros i Hi. destruct (Hr i Hi) as (H1 & H2 & H3 & H4 & H5 & _). by split_and!.
Qed.
End Ranks.

(** ** The whole command *)
Section Whole.
Context {FO : FloatOps} {KE : Kernels} {KL : KernelLaws KE} {HO : HostSystem} {RT : Runtime} {SR : ShardedRuntime}.
Context {JC : JsonCodec TokenDecision} {JL : JsonCodecLaws JC token_decision_wf}.
Context (path_of : string -> PathBuf) (canonicalize : PathBuf -> lresult PathBuf) (display : PathBuf -> string).
Context (docker : list command -> command -> option Output) (parse_info : string -> option DockerInfoJson)
  (write_manifest : TensorParallelManifest -> lresult PathBuf) (print_report : TensorParallelReport -> lresult unit).
(** Docker prints container identifiers as text, and prints one. *)
Hypothesis Htext : forall past c o, docker past c = Some o -> from_utf8 (stdout o) = Some (stdout o).
Hypothesis Hid : forall past c o name, docker past c = Some o -> acquires c = Some (Container name) ->
  status_success o = true -> trim (stdout o) <> "".
Hypothesis Hserves : serves docker.

Lemma start_tensor_serves arguments run_id ranks s :
  (forall rank name, acquires (arguments rank name) = Some (Container name)) ->
  exists s', start_tensor_ranks docker arguments run_id ranks s = (Ok tt, s') /\ interrupted s' = interrupted s.
Proof.
  intros Ha. revert s. induction ranks as [|rank ranks IH]; intros s; cbn [start_tensor_ranks]; [by exists s|].
  destruct (checked_serves docker (arguments rank (container_name run_id rank)) s Hserves) as (o & E & Es & Hc).
  erewrite bind_ok by exact Hc. rewrite (Htext _ _ _ E). cbn [ok_or]. rewrite attempt_ok_bind.
  pose proof (Hid _ _ _ _ E (Ha _ _) Es) as Hne. apply String.eqb_neq in Hne. rewrite Hne. cbn [reject_if].
  rewrite attempt_ok_bind. unfold push_container, get_held, set_held, mbind, docking_bind.
  match goal with |- context [start_tensor_ranks docker arguments run_id ranks ?x] => destruct (IH x) as (s' & -> & H) end.
  by exists s'.
Qed.

Lemma tensor_report_success request p request_id partition engine resources reports evs :
  let n := tl_tp request in
  0 < n -> (forall i, i < n -> tp_report_rank (reports i) = i /\ tp_success (reports i) = true) ->
  let r := tensor_report request p request_id partition engine resources (gathered n reports evs) in
  tr_success r = true /\ tr_ranks r = map reports (seq 0 n) /\
  tr_generated_tokens r = tp_generated_tokens (reports 0) /\ tr_completion r = tp_completion (reports 0) /\
  tr_stop_reason r = tp_stop_reason (reports 0).
Proof.
  intros n Hn Hs r. assert (omap Datatypes.id (map (fun i => Some (reports i)) (seq 0 n)) = map reports (seq 0 n)) as E.
  { induction (seq 0 n); cbn; congruence. }
  assert (sort_reports (map reports (seq 0 n)) = map reports (seq 0 n)) as Esort.
  { apply (sort_by_key_ordered _ _ 0). rewrite length_map, length_seq, map_map.
    transitivity (map (fun i => i) (seq 0 n)); [|apply map_id]. apply map_ext_in. intros i Hi%in_seq. apply Hs. lia. }
  assert (List.find (fun r => tp_report_rank r =? 0) (map reports (seq 0 n)) = Some (reports 0)) as Hz.
  { destruct n as [|k]; [lia|]. cbn. by rewrite (proj1 (Hs 0 Hn)). }
  subst r. unfold tensor_report. cbn [gathered collected_ranks collected_exit_codes collected_events failures
    tr_success tr_ranks tr_generated_tokens tr_completion tr_stop_reason]. rewrite E, Esort, Hz.
  split_and!; try done. rewrite bool_decide_eq_true_2 by done. rewrite length_map, length_seq, Nat.eqb_refl. cbn [andb].
  apply andb_true_iff. split; apply forallb_forall.
  - intros x (i & <- & Hi%in_seq)%in_map_iff. apply Hs. lia.
  - intros x Hx%list_elem_of_In%elem_of_replicate_inv. by apply bool_decide_eq_true_2.
Qed.

(** The host's file system takes the manifest and resolves paths, and the report
    is printed. *)
Definition tensor_files_work : Prop :=
  (forall manifest, exists path, write_manifest manifest = Ok path) /\ (forall path, exists p, canonicalize path = Ok p) /\
  forall report, print_report report = Ok tt.

Lemma tensor_mounts_exist mp metadata w : tensor_files_work ->
  exists mounts, tensor_mounts canonicalize display mp metadata w = Ok mounts.
Proof.
  intros (_ & Hc & _). unfold tensor_mounts.
  destruct (Hc mp) as [? ->], (Hc w) as [? ->], (Hc (tokenizer_path metadata)) as [? ->]. rewrite !Ok_bind. by eexists.
Qed.

Lemma tensor_scope_collects request p request_id partition engine resources mp w arrivals reports events_of s :
  let n := tl_tp request in
  tensor_files_work -> 0 < n -> (forall i, i < n -> tp_report_rank (reports i) = i) ->
  (forall i, i < n -> numbered i (events_of i)) ->
  Forall undisturbed arrivals -> orderly n reports events_of (messages arrivals) ->
  exists evs s', tensor_scope canonicalize display docker print_report request p request_id partition engine resources mp w
      arrivals (Ok tt) s
    = (Ok (tensor_report request p request_id partition engine resources (gathered n reports evs)), s').
Proof.
  intros n Hf Hn Hr Hnum Hu Ho. unfold tensor_scope.
  destruct (tensor_mounts_exist mp (rp_metadata (tl_resolved p)) w Hf) as [mounts Hm].
  erewrite bind_ok by (by apply attempt_ok). erewrite bind_ok by reflexivity.
  match goal with |- context [start_tensor_ranks docker ?a ?r ?l] =>
    destruct (start_tensor_serves a r l s) as (s1 & Hstart & _); [done|] end.
  erewrite bind_ok by exact Hstart. erewrite bind_ok by reflexivity.
  erewrite bind_ok by (by destruct (tl_tui request)).
  destruct (tensor_collect_orderly tp_report_rank docker (containers (held s1)) n reports events_of Hr Hnum arrivals s1)
    as (evs & Hc & _); [done..|].
  erewrite bind_ok by exact Hc. erewrite bind_ok by (apply attempt_ok, Hf).
  assert (exists s2, (if tl_keep_containers request then mret tt else cleanup docker) s1 = (Ok tt, s2)) as [s2 H2].
  { destruct (tl_keep_containers request); [by exists s1|apply cleanup_ok]. }
  erewrite bind_ok by exact H2. by exists evs, s2.
Qed.

(** The command up to the scope of the guard. *)
Lemma run_tensor_starts request terminal new_run_id request_id p info engine resources partition weights dockerfile
  arrivals dashboard s :
  tensor_launchable request terminal new_run_id p engine resources partition weights ->
  (forall past o, docker past ["info"; "--format"; "{{json .}}"] = Some o -> parse_info (stdout o) = Some info) ->
  engine_of_info info = Ok engine -> tensor_files_work ->
  exists mp s', interrupted s' = false /\
    run_tensor path_of canonicalize display docker parse_info write_manifest print_report request terminal new_run_id request_id
      (Ok tt) dockerfile arrivals dashboard s =
    with_resources docker (Docker.mkResources (network_name (tl_resolved_id p)) [] (tl_keep_containers request))
      (tensor_scope canonicalize display docker print_report request p request_id partition engine resources mp weights arrivals dashboard) s'.
Proof.
  intros [Hprep _ Hplan Hpart Hweights [Hblank Hrebuild]] Hinfo Hengine (Hw & _ & _).
  destruct (Hw (tensor_manifest_of path_of request p request_id partition resources)) as [mp Hmp].
  unfold run_tensor. erewrite bind_ok by (by apply attempt_ok).
  destruct (engine_info_serves docker parse_info info engine s Hserves Hinfo Hengine) as [s1 H1].
  erewrite bind_ok by exact H1. do 5 erewrite bind_ok by (by apply attempt_ok).
  erewrite bind_ok by reflexivity. rewrite Hrebuild.
  destruct (ensure_image_serves docker (tl_image request) (tl_build_context request) dockerfile
    (mkSession (issued s1) false (held s1)) Hserves Hblank) as (s2 & H2 & Hi2).
  erewrite bind_ok by exact H2. unfold create_network.
  match goal with |- context [docker_checked docker ?c] =>
    destruct (checked_serves docker c s2 Hserves) as (o & _ & _ & Hc) end.
  erewrite bind_ok by exact Hc. eexists mp, _. split; [|reflexivity]. exact Hi2.
Qed.

(** C2: the tensor command reports what its ranks generate together.  Take a
    request the launcher accepts, whose resources fit the engine and whose shards
    fit the ranks, and containers whose paths show a valid checkpoint that stores
    the registered tensors, whose parts every rank loads, and whose cgroups enforce
    what Docker derives from the arguments.  Then the rank processes all end with a
    report under every schedule, with the tokens of one greedy run of passes in lock
    step; and however the lines of the containers interleave, the command returns a
    successful report with these reports in rank order, those tokens and their text.
    The sharded reader is the program's: the rank's part of what the file stores,
    whatever shape is asked for. *)
Theorem tensor_launch_generates request terminal new_run_id request_id p info engine resources partition weights
  tokenizer m kv read read_after peers elapsed dockerfile i :
  let n := tl_tp request in
  let manifest := tensor_manifest_of path_of request p request_id partition resources in
  tensor_launchable request terminal new_run_id p engine resources partition weights ->
  tensor_mounted path_of p manifest n tokenizer m kv ->
  enforced_for n resources read -> enforced_for n resources read_after ->
  (forall past o, docker past ["info"; "--format"; "{{json .}}"] = Some o -> parse_info (stdout o) = Some info) ->
  engine_of_info info = Ok engine -> tensor_files_work ->
  exists reason tokens kv' text (reports : nat -> TensorParallelRankReport),
    sharded_greedy n (tl_all_reduce request) m (eos_token_id (config (tl_spec p))) (tl_max_new_tokens request)
      (rp_effective (tl_resolved p)) (rp_tokens (tl_resolved p)) 0 kv [] reason tokens kv' /\
    (lenN tokens <= tl_max_new_tokens request)%N /\ tokenizer_decode tokenizer tokens = Ok text /\
    always_returns
      (world_of n (fun i => run_tensor_rank_process (launch_request (tl_resolved_id p) n resources i) (Ok manifest)
         (read i) (read_after i) (peers i) (elapsed i)))
      (map (fun i => Ok (reports i)) (seq 0 n)) /\
    forall events_of arrivals,
      (forall i, i < n -> numbered i (events_of i)) -> Forall undisturbed arrivals ->
      orderly n reports events_of (messages arrivals) ->
      exists r s', run_tensor path_of canonicalize display docker parse_info write_manifest print_report request terminal
          new_run_id request_id (Ok tt) dockerfile arrivals (Ok tt)
          (mkSession [] i (Docker.mkResources "" [] (tl_keep_containers request))) = (Ok r, s') /\
        tensor_exit r = Ok tt /\ tr_ranks r = map reports (seq 0 n) /\
        tr_generated_tokens r = tokens /\ tr_completion r = text /\ tr_stop_reason r = reason.
Proof.
  intros n manifest Hl Hm Hcg Hcg' Hinfo Hengine Hfiles.
  destruct (launched_tensor_ranks path_of request terminal new_run_id request_id p engine resources partition weights
    tokenizer m kv read read_after peers elapsed Hl Hm Hcg Hcg')
    as (reason & tokens & kv' & text & reports & Hg & Hlen & Ht & Htog & Hr). fold n manifest in Htog, Hr.
  destruct (plan_resources_bounds _ _ _ _ _ (tla_resources _ _ _ _ _ _ _ _ Hl)) as [_ Hn]. fold n in Hn.
  exists reason, tokens, kv', text, reports. split; [done|]. split.
  { destruct (prepare_tensor_Ok _ _ _ _ (tla_prompt _ _ _ _ _ _ _ _ Hl)) as (_ & _ & _ & Ha).
    unfold resolve_prompt in Ha. do 6 apply bind_Ok in Ha as (? & _ & Ha). apply bind_Ok in Ha as (? & _ & [= Ha]).
    rewrite <- Ha in Hlen. cbn [rp_effective] in Hlen. lia. }
  split; [done|]. split; [by apply together_returns|]. intros events_of arrivals Hnum Hu Ho.
  destruct (run_tensor_starts request terminal new_run_id request_id p info engine resources partition weights
    dockerfile arrivals (Ok tt) (mkSession [] i (Docker.mkResources "" [] (tl_keep_containers request)))
    Hl Hinfo Hengine Hfiles) as (mp & s' & _ & ->). unfold with_resources.
  match goal with |- context [tensor_scope _ _ _ _ _ _ _ _ _ _ _ _ _ _ ?s] =>
    destruct (tensor_scope_collects request p request_id partition engine resources mp weights arrivals reports
      events_of s Hfiles Hn (fun i Hi => proj1 (Hr i Hi)) Hnum Hu Ho) as (evs & s2 & ->) end.
  destruct (tensor_report_success request p request_id partition engine resources reports evs Hn)
    as (Hs & Hranks & H1 & H2 & H3).
  { intros j Hj. destruct (Hr j Hj) as (? & ? & _). done. }
  destruct (Hr 0 Hn) as (_ & _ & E1 & E2 & E3).
  eexists _, _. split; [reflexivity|]. split; [unfold tensor_exit; by rewrite Hs|].
  split; [exact Hranks|]. rewrite H1, H2, H3, E1, E2, E3. done.
Qed.
End Whole.
