(* ===== verification/TensorLaunchExamples.v ===== *)
(** * A concrete tensor launch

    Three ranks of SmolLM2 over a file of zeros on the Docker daemon of
    [LaunchExamples.v]. *)
From S2P Require Import Prelude Text Rank Packet Tcp World Tensor Collective Registry Memory Shard Protocol.
From S2P Require Import Report Cache Kernels Llama LlamaStage Artifacts Generation Launch Docker LaunchRun Collect CollectProofs.
From S2P Require Import Pipeline Shapes GenerationProofs RingExchange PipelineLaunch PipelineLaunchProofs LaunchExamples.
From S2P Require Import PipelineExamples PipelineLaunchExamples.
From S2P Require Import Parallel TensorLlama TensorShapes TensorWorld TensorRun TensorProofs TensorExamples.
From S2P Require Import TensorLaunch TensorLaunchProofs.

#[local] Existing Instances flat_floats flat_kernels flat_laws decision_codec decision_codec_laws say_host zero_runtime.
#[local] Instance say_shards : ShardedRuntime := {| sharded_file _ := Ok smol_file |}.

Definition tensor_request : TensorLaunchRequest :=
  mkTensorLaunch SmolLm2_135MInstruct 3 PF32 "Hello" 1 (mkCpuAmount 1500) "3GiB" CentralizedAllReduce false
    "dlir:test" "." false (Some "demo") 30000000000 30000000000 false.
Definition tensor_prepared : TensorPrepared :=
  mkTensorPrepared SMOLLM2 (3 * 1024 * MIB) "demo" (pp_resolved (say_prepared 1)).
Definition tensor_resources : ResourcePlan :=
  match plan_resources 3 (mkCpuAmount 1500) (3 * 1024 * MIB) duo_engine with Ok p => p | Err _ => duo_plan end.
Definition tensor_plan : TensorParallelPartition :=
  match tensor_partition tensor_request tensor_prepared tensor_resources with
  | Ok p => p
  | Err _ => trio_partition
  end.
Definition tensor_weights : PathBuf := say_path "model.safetensors".

Lemma tensor_resolves : resolve_weights (rp_repository (tl_resolved tensor_prepared)) SMOLLM2 = Ok tensor_weights.
Proof.
  unfold resolve_weights. change (download_weights (HO := say_host) _ SMOLLM2) with (Ok tensor_weights : dresult PathBuf).
  cbn [map_err]. rewrite Ok_bind.
  assert (validate_checkpoint SMOLLM2 tensor_weights = Ok tt) as -> by exact (proj2_sig valid_manifest). done.
Qed.

Lemma tensor_ready : tensor_launchable tensor_request false "" tensor_prepared duo_engine tensor_resources
  tensor_plan tensor_weights.
Proof.
  split; [vm_compute; reflexivity|by vm_compute|vm_compute; reflexivity|vm_compute; reflexivity| |by vm_compute].
  exact tensor_resolves.
Qed.

Lemma tensor_shown model kv :
  (forall i, i < 3 -> load_sharded (sharded_get smol_file) F32 (config SMOLLM2) (mkContext (N.of_nat i) 3 0 1 0 1) 2
     CentralizedAllReduce = Ok (model i)) ->
  new_tensor_parallel (config SMOLLM2) 3 2 F32 Cpu = Ok kv ->
  tensor_mounted say_path tensor_prepared
    (tensor_manifest_of say_path tensor_request tensor_prepared "request" tensor_plan tensor_resources) 3
    zero_tokenizer model (fun _ => kv).
Proof.
  intros Hm Hk. split.
  - exact (proj2_sig valid_manifest).
  - exists smol_file. split; [done|exact smol_registered].
  - intros i Hi. unfold load_tensor_rank. cbn [tensor_manifest_of tm_checkpoint_path tm_tensor_parallel tm_all_reduce tm_capacity].
    change (tcandle (sharded_var_builder (say_path CONTAINER_CHECKPOINT)))
      with (Ok (sharded_get smol_file) : tresult ShardedVarBuilder). rewrite Ok_bind. cbn [global_rank].
    assert (N.of_nat i < 3)%N as Hlt by lia. change (N.of_nat (tl_tp tensor_request)) with 3%N.
    rewrite (proj2 (tensor_parallel_Ok (N.of_nat i) 3 _) (conj Hlt eq_refl)). cbn [truntime map_err].
    rewrite Ok_bind. change (N.to_nat (rp_capacity (tl_resolved tensor_prepared))) with 2.
    change (tl_all_reduce tensor_request) with CentralizedAllReduce. change (tl_spec tensor_prepared) with SMOLLM2.
    rewrite (Hm i Hi). cbn [truntime map_err]. by rewrite Ok_bind, Hk.
  - reflexivity.
  - intros [|t ids]; by eexists.
  - constructor; [|constructor]. vm_compute. reflexivity.
Qed.

Definition trio_cgroup (path : string) : option string :=
  if String.eqb path "/sys/fs/cgroup/cpu.max" then Some (line "50000 100000")
  else if String.eqb path "/sys/fs/cgroup/memory.max" then Some (line "1073741824") else None.

Definition trio_arrivals (reports : nat -> TensorParallelRankReport) : list Arrival :=
  map Message [Record_ 2 (ResultRecord (reports 2)); Record_ 0 (ResultRecord (reports 0)); ContainerExit 2 0;
               StreamEnded 2; Record_ 1 (ResultRecord (reports 1)); StreamEnded 1; ContainerExit 1 0;
               StreamEnded 0; ContainerExit 0 0].

Lemma trio_orderly reports : orderly 3 reports (fun _ => []) (messages (trio_arrivals reports)).
Proof.
  split.
  - intros m Hm. apply list_elem_of_In in Hm. revert m Hm.
    apply (List.Forall_forall (fun m => message_rank m < 3)). repeat constructor.
  - intros i Hi. by repeat (destruct i as [|i]; [reflexivity|]; try lia).
  - intros i Hi. by repeat (destruct i as [|i]; [reflexivity|]; try lia).
  - intros r line Hin. cbn in Hin. repeat (apply elem_of_cons in Hin as [Hin|Hin]; [discriminate|]).
    by apply elem_of_nil in Hin.
Qed.

Definition tensor_write (manifest : TensorParallelManifest) : lresult PathBuf := Ok (say_path "/tmp/tensor.json").
Definition tensor_print (report : TensorParallelReport) : lresult unit := Ok tt.

Lemma duo_id past c o name : duo_docker past c = Some o -> acquires c = Some (Container name) ->
  status_success o = true -> trim (stdout o) <> "".
Proof. unfold duo_docker. intros [= <-] _ _. cbn [stdout]. repeat case_bool_decide; by vm_compute. Qed.

Lemma tensor_launch_generates_witness : exists (reports : nat -> TensorParallelRankReport) r s',
  always_returns
    (world_of 3 (fun i => run_tensor_rank_process (launch_request "demo" 3 tensor_resources i)
       (Ok (tensor_manifest_of say_path tensor_request tensor_prepared "request" tensor_plan tensor_resources))
       trio_cgroup trio_cgroup [] (fun _ => 0%N)))
    (map (fun i => Ok (reports i)) (seq 0 3)) /\
  run_tensor say_path say_file say_text duo_docker (fun _ => Some duo_info) tensor_write tensor_print
    tensor_request false "" "request" (Ok tt) false (trio_arrivals reports) (Ok tt) (start_session false) = (Ok r, s') /\
  tensor_exit r = Ok tt /\ (lenN (tr_generated_tokens r) <= 1)%N.
Proof.
  destruct (ok_choice 3 _ ltac:(lia) trio_model) as [model Hmodel]. destruct trio_cache as [kv Hkv].
  destruct (tensor_launch_generates say_path say_file say_text duo_docker (fun _ => Some duo_info) tensor_write tensor_print
    duo_text duo_id (fun past c => ex_intro _ _ (conj eq_refl eq_refl))
    tensor_request false "" "request" tensor_prepared duo_info duo_engine tensor_resources tensor_plan tensor_weights
    zero_tokenizer model (fun _ => kv) (fun _ => trio_cgroup) (fun _ => trio_cgroup) (fun _ => []) (fun _ _ => 0%N)
    false false tensor_ready (tensor_shown model kv Hmodel Hkv))
    as (reason & tokens & kv' & text & reports & _ & Hlen & _ & Hret & Hrun).
  - intros i _. by apply enforced_v2; vm_compute.
  - intros i _. by apply enforced_v2; vm_compute.
  - reflexivity.
  - vm_compute. reflexivity.
  - split; [|split]; intros; [by eexists..|done].
  - destruct (Hrun (fun _ => []) (trio_arrivals reports)) as (r & s' & Hr & Hexit & _ & Hg & _).
    + intros i _. by split.
    + repeat constructor.
    + apply trio_orderly.
    + exists reports, r, s'. split; [exact Hret|]. split; [exact Hr|]. split; [exact Hexit|]. rewrite Hg. exact Hlen.
Defined.

(** The second container does not start: what the daemon refuses to remove, or may
    have created, is what may remain. *)
Definition no_tensor_report : list (@Arrival TensorParallelRankReport) :=
  map Message [ContainerExit 1 1; StreamEnded 1; StreamEnded 0; ContainerExit 0 1; ContainerExit 2 1; StreamEnded 2].
Lemma tensor_leaves_nothing_witness :
  let '(res, s) := run_tensor say_path say_file say_text broken_docker (fun _ => Some duo_info) tensor_write tensor_print
    tensor_request false "" "request" (Ok tt) false no_tensor_report (Ok tt) (start_session false) in
  res <> Err Blocked /\ released broken_docker false s.
Proof.
  pose proof (tensor_leaves_nothing say_path say_file say_text broken_docker (fun _ => Some duo_info) tensor_write tensor_print
    tensor_request false "" "request" (Ok tt) false no_tensor_report (Ok tt) false) as H.
  change (start_session false) with (mkSession [] false (Docker.mkResources "" [] (tl_keep_containers tensor_request))).
  destruct (run_tensor _ _ _ _ _ _ _ _ _ _ _ _ _ _ _ _) as [res s]. destruct H as [H1 H2].
  assert (res <> Err Blocked) as Hne; [|by split; [|apply H1]]. apply H2. split; [cbn; lia|]. right. by split.
Defined.
