(* ===== verification/Format.v ===== *)
(** * Numbers as text

    What the command line prints of numbers: [grouped] of [crates/cli/src/main.rs],
    [format_bytes] of [crates/runtime/src/memory.rs], both formats of
    [crates/tui/src/lib.rs], and [build_timings] of
    [crates/runtime/src/generation.rs], whose times they print.  An [f64] is its
    [spec_float]; [{:.d}] rounds its exact value to the nearest decimal, ties to even. *)
From Stdlib Require Import ZArith SpecFloat Strings.Ascii.
From S2P Require Import Prelude Text Rank Packet World Tensor Collective RingExchange Benchmark.

(** ** Groups of digits *)

(** The loop of [grouped] over the digits, from position [index] of [length]. *)
Fixpoint group_digits (length index : nat) (digits : string) : string :=
  match digits with
  | EmptyString => EmptyString
  | String byte digits =>
      let rest := String byte (group_digits length (S index) digits) in
      if (0 <? index) && ((length - index) mod 3 =? 0) then String "," rest else rest
  end.

(** [grouped]. *)
Definition grouped (value : N) : string := let digits := pretty value in group_digits (String.length digits) 0 digits.

Fixpoint without_commas (s : string) : string :=
  match s with
  | EmptyString => EmptyString
  | String c s => if Ascii.eqb c "," then without_commas s else String c (without_commas s)
  end.

Lemma digits_no_comma d : all_digits d = true -> without_commas d = d.
Proof.
  induction d as [|c d IH]; [done|]. cbn [all_digits without_commas]. intros [Hc Hd]%andb_true_iff.
  destruct (Ascii.eqb_spec c ",") as [->|_]; [done|]. by rewrite IH.
Qed.

Lemma group_digits_same n i d : all_digits d = true -> without_commas (group_digits n i d) = d.
Proof.
  revert i. induction d as [|c d IH]; intros i H; [done|]. cbn [all_digits] in H. apply andb_true_iff in H as [Hc Hd].
  assert (Ascii.eqb c "," = false) as E by (destruct (Ascii.eqb_spec c ",") as [->|]; done).
  cbn [group_digits]. destruct ((0 <? i) && _); cbn [without_commas Ascii.eqb]; cbn; rewrite ?E, IH by done; done.
Qed.

(** Past the first digit a group ends where a multiple of three digits is left. *)
Lemma group_digits_groups n i d : 0 < i -> i + String.length d = n -> all_digits d = true ->
  exists g gs, split_on "," (group_digits n i d) = g :: gs /\ String.length g = String.length d mod 3 /\
    Forall (fun g => String.length g = 3) gs.
Proof.
  intros Hi Hn Hd. revert i Hi Hn. induction d as [|c d IH]; intros i Hi Hn.
  { exists "", []. by split_and!. }
  cbn [all_digits] in Hd. apply andb_true_iff in Hd as [Hc Hd]. cbn [String.length] in *.
  destruct (IH Hd (S i)) as (g & gs & Hs & Hg & Hgs); [lia..|].
  assert (split_on "," (String c (group_digits n (S i) d)) = String c g :: gs) as Hsc.
  { cbn [split_on]. destruct (Ascii.eqb_spec c ",") as [->|_]; [done|]. by rewrite Hs. }
  cbn [group_digits]. rewrite (proj2 (Nat.ltb_lt 0 i)) by done. replace (n - i) with (S (String.length d)) by lia.
  pose proof (Nat.div_mod_eq (String.length d) 3). pose proof (Nat.div_mod_eq (S (String.length d)) 3).
  pose proof (Nat.mod_upper_bound (String.length d) 3). pose proof (Nat.mod_upper_bound (S (String.length d)) 3).
  destruct (Nat.eqb_spec (S (String.length d) mod 3) 0) as [E|E]; cbn [andb].
  - exists "", (String c g :: gs). split; [|split; [by rewrite E|constructor; [cbn; lia|done]]].
    transitivity ("" :: split_on "," (String c (group_digits n (S i) d))); [done|by rewrite Hsc].
  - exists (String c g), gs. split_and!; [done| |done]. cbn [String.length]. lia.
Qed.

(** The grouped number has the digits of the number, in groups of three after a
    first one of one to three: it reads back as the number. *)
Lemma grouped_correct n : exists first groups,
  split_on "," (grouped n) = first :: groups /\ 1 <= String.length first <= 3 /\
  Forall (fun g => String.length g = 3) groups /\
  without_commas (grouped n) = pretty n /\ decimal (without_commas (grouped n)) = n.
Proof.
  destruct (pretty_digits n) as (Hd & Hv & Hne). unfold grouped.
  rewrite group_digits_same by done. destruct (pretty n) as [|c d] eqn:E; [done|].
  cbn [all_digits] in Hd. apply andb_true_iff in Hd as [Hc Hd].
  destruct (group_digits_groups (S (String.length d)) 1 d) as (g & gs & Hs & Hg & Hgs); [lia..|done|].
  exists (String c g), gs. pose proof (Nat.mod_upper_bound (String.length d) 3). split_and!; try done; cbn [String.length]; try lia.
  cbn [group_digits Nat.ltb Nat.leb andb split_on String.length].
  destruct (Ascii.eqb_spec c ",") as [->|_]; [done|]. by rewrite Hs.
Qed.

Example grouped_examples : map grouped [0; 7; 999; 1000; 134515008; 18446744073709551615]%N =
  ["0"; "7"; "999"; "1,000"; "134,515,008"; "18,446,744,073,709,551,615"].
Proof. by vm_compute. Qed.

(** ** Decimals of an [f64] *)
Definition round_half_even (num den : N) : N :=
  let q := (num / den)%N in
  let twice := (2 * (num mod den))%N in
  if (den <? twice)%N || ((den =? twice)%N && N.odd q) then (q + 1)%N else q.

(** [q] units of the [d]-th decimal, and [{:.d}]. *)
Definition padded (d : nat) (n : N) : string := let s := pretty n in zeros (d - String.length s) +:+ s.
Definition decimals (d : nat) (q : N) : string :=
  let unit := (10 ^ N.of_nat d)%N in
  match d with O => pretty q | _ => pretty (q / unit)%N +:+ "." +:+ padded d (q mod unit)%N end.
Definition fixed (d : nat) (x : f64) : string :=
  let sign (s : bool) := if s then "-" else "" in
  match x with
  | S754_nan => "NaN"
  | S754_infinity s => sign s +:+ "inf"
  | S754_zero s => sign s +:+ decimals d 0
  | S754_finite s m e =>
      let scaled := (Npos m * 10 ^ N.of_nat d)%N in
      sign s +:+ decimals d (match e with Zneg p => round_half_even scaled (2 ^ Npos p) | _ => scaled * 2 ^ Z.to_N e end)%N
  end.
Definition f64_div (a b : f64) : f64 := SFdiv 53 1024 a b.
Definition f64_leb (a b : f64) : bool := SFleb a b.
Definition f64_ltb (a b : f64) : bool := SFltb a b.

(** [format_bytes] of the runtime. *)
Definition format_bytes (bytes : N) : string :=
  let GIB := as_f64 (N.shiftl 1 30) in
  let MIB := as_f64 (N.shiftl 1 20) in
  let KIB := as_f64 (N.shiftl 1 10) in
  let bytes_f := as_f64 bytes in
  if f64_leb GIB bytes_f then fixed 2 (f64_div bytes_f GIB) +:+ " GiB"
  else if f64_leb MIB bytes_f then fixed 1 (f64_div bytes_f MIB) +:+ " MiB"
  else if f64_leb KIB bytes_f then fixed 1 (f64_div bytes_f KIB) +:+ " KiB"
  else pretty bytes +:+ " B".

Example format_bytes_examples :
  map format_bytes [0; 1023; 1024; 1280; 1408; 269030016; 1073741823; 1073741824; 4401093504; 18446744073709551615]%N =
  ["0 B"; "1023 B"; "1.0 KiB"; "1.2 KiB"; "1.4 KiB"; "256.6 MiB"; "1024.0 MiB"; "1.00 GiB"; "4.10 GiB"; "17179869184.00 GiB"].
Proof. by vm_compute. Qed.

(** [format_bytes] and [format_duration] of the dashboard. *)
Definition tui_format_bytes (bytes : N) : string :=
  if (N.shiftl 1 30 <=? bytes)%N then fixed 2 (f64_div (as_f64 bytes) (as_f64 (N.shiftl 1 30))) +:+ "GiB"
  else if (N.shiftl 1 20 <=? bytes)%N then fixed 1 (f64_div (as_f64 bytes) (as_f64 (N.shiftl 1 20))) +:+ "MiB"
  else if (N.shiftl 1 10 <=? bytes)%N then fixed 1 (f64_div (as_f64 bytes) (as_f64 (N.shiftl 1 10))) +:+ "KiB"
  else pretty bytes +:+ "B".
Definition format_duration (duration : option N) : string :=
  match duration with
  | None => "-"
  | Some ns =>
      if (1000000 <=? ns)%N then fixed 2 (f64_div (as_f64 ns) (as_f64 1000000)) +:+ "ms"
      else if (1000 <=? ns)%N then fixed 2 (f64_div (as_f64 ns) (as_f64 1000)) +:+ "us"
      else pretty ns +:+ "ns"
  end.

Example tui_examples :
  (map tui_format_bytes [9216; 1073741824]%N, map format_duration [None; Some 60; Some 1500; Some 2345678]%N) =
  (["9.0KiB"; "1.00GiB"], ["-"; "60ns"; "1.50us"; "2.35ms"]).
Proof. by vm_compute. Qed.

(** ** Times of a generation *)

(** [struct TimingReport]. *)
Record TimingReport : Type := mkTimings
  { artifact_resolution_ns : N; model_load_ns : N; tokenization_ns : N; prefill_ns : N; time_to_first_token_ns : N;
    decode_total_ns : N; decode_forwards : N; mean_decode_ns : option N; prefill_tokens_per_second : f64;
    decode_tokens_per_second : option f64; generation_total_ns : N; cold_start_total_ns : N }.

(** [duration_ns], [Duration::as_secs_f64]. *)
Definition duration_ns (d : Duration) : N := N.min d U64_MAX.
Definition as_secs_f64 (d : Duration) : f64 :=
  SFadd 53 1024 (as_f64 (d / 1000000000)) (f64_div (as_f64 (d mod 1000000000)) (as_f64 1000000000)).

(** [build_timings]. *)
Definition build_timings (artifact model_load tokenization prefill ttft decode : Duration)
  (decode_forwards prompt_tokens : N) (generation cold_start : Duration) : TimingReport :=
  let decode_seconds := as_secs_f64 decode in
  mkTimings (duration_ns artifact) (duration_ns model_load) (duration_ns tokenization) (duration_ns prefill)
    (duration_ns ttft) (duration_ns decode) decode_forwards
    (if (0 <? decode_forwards)%N then Some (duration_ns decode / decode_forwards)%N else None)
    (f64_div (as_f64 prompt_tokens) (as_secs_f64 prefill))
    (if (0 <? decode_forwards)%N && f64_ltb (S754_zero false) decode_seconds
     then Some (f64_div (as_f64 decode_forwards) decode_seconds) else None)
    (duration_ns generation) (duration_ns cold_start).

(** [ns_millis], [ns_seconds]. *)
Definition ns_millis (ns : N) : f64 := f64_div (as_f64 ns) (as_f64 1000000).
Definition ns_seconds (ns : N) : f64 := f64_div (as_f64 ns) (as_f64 1000000000).
