(* ===== verification/CommandLine.v ===== *)
(** * The command line

    Models the commands of [crates/cli/src/main.rs] and what [main] makes of them,
    with the arguments of a rank as the launchers of [Launch], [PipelineLaunch],
    [TensorLaunch] and [BenchmarkLaunch] pass them to a container.  The argument
    parser is the interface [Clap]; the options, their types, defaults and
    requirements are those the source declares. *)
From Stdlib Require Import Strings.Ascii.
From S2P Require Import Prelude Text Rank Packet Tensor Registry Memory Collective Launch Docker LaunchRun.
From S2P Require Import Report Artifacts Generation RingExchange PipelineLaunch TensorLaunch Benchmark BenchmarkLaunch.

(** ** Arguments *)

(** [Duration::from_secs]. *)
Definition from_secs (seconds : N) : Duration := (seconds * 1000000000)%N.

(** [enum OutputFormat], [enum RankWorkloadArg], [enum AllReduceArg], [enum AllReduceSelection]. *)
Inductive OutputFormat : Type := TextFormat | JsonFormat.
Inductive RankWorkloadArg : Type := TopologyWorkload | PipelineWorkload | TensorWorkload | CollectiveBenchmarkWorkload.
Inductive AllReduceArg : Type := CentralizedArg | RingArg.
Inductive AllReduceSelection : Type := SelectCentralized | SelectRing | SelectBoth.

(** [Command::Rank]. *)
Record RankOptions : Type := mkRankOptions
  { ro_workload : RankWorkloadArg; ro_pipeline_manifest : option string; ro_tensor_manifest : option string;
    ro_benchmark_manifest : option string; ro_rank : nat; ro_world_size : nat; ro_run_id : string;
    ro_rendezvous_addr : string; ro_rendezvous_bind_addr : option string; ro_listen_addr : string;
    ro_advertise_addr : string; ro_startup_timeout_seconds : N; ro_operation_timeout_seconds : N;
    ro_expected_cpu_millis : option N; ro_expected_memory_bytes : option N }.

(** Options every launching command has. *)
Record LaunchOptions : Type := mkLaunchOptions
  { lo_total_cpus : CpuAmount; lo_total_memory : string; lo_image : string; lo_build_context : string;
    lo_rebuild : bool; lo_run_id : option string; lo_startup_timeout_seconds : N;
    lo_operation_timeout_seconds : N; lo_keep_containers : bool }.

(** [enum Command] with [enum CollectivesCommand]; [device] has one value. *)
Inductive Command : Type :=
| CollectivesCheck (world_size : nat) (format : OutputFormat) (output : option string)
| CollectivesBench (nproc : nat) (all_reduce : AllReduceSelection) (sizes : string) (warmup iterations : nat)
    (format : OutputFormat) (output : option string) (launch : LaunchOptions)
| TensorCommand (model : SupportedModelId) (tp : nat) (dtype : PlanDType) (prompt : string) (max_new_tokens : N)
    (all_reduce : AllReduceArg) (tui : bool) (report : option string) (launch : LaunchOptions)
| PipelineCommand (model : SupportedModelId) (dtype : PlanDType) (prompt : string) (max_new_tokens : N)
    (nproc : nat) (tui : bool) (report : option string) (launch : LaunchOptions)
| LaunchCommand (nproc : nat) (format : OutputFormat) (launch : LaunchOptions)
| RankCommand (options : RankOptions)
| P2pCommand (world_size : nat) (format : OutputFormat)
| ModelsCommand (format : OutputFormat)
| InspectCommand (model : SupportedModelId) (dtype : PlanDType) (context_length : N)
    (device_memory_budget : option MemoryBudget) (format : OutputFormat) (output : option string)
| GenerateCommand (model : SupportedModelId) (dtype : PlanDType) (prompt : string) (max_new_tokens : N)
    (device_memory_budget : option MemoryBudget) (report : option string).

(** ** [main] *)

(** The part of [struct RankRequest] [RingExchange.RankRequest] leaves to the
    transport. *)
Record RankTransport : Type := mkRankTransport
  { rt_rendezvous_addr : string; rt_rendezvous_bind_addr : option string; rt_listen_addr : string;
    rt_advertise_addr : string; rt_startup_timeout : Duration; rt_operation_timeout : Duration }.

(** The function a command ends in, and its arguments. *)
Inductive Call : Type :=
| RunCollectivesCheck (world_size : nat) (format : OutputFormat) (output : option string)
| RunCollectiveBench (request : CollectiveBenchRequest) (json : bool) (output : option string)
| RunTensor (request : TensorLaunchRequest) (report : option string)
| RunPipeline (request : PipelineLaunchRequest) (report : option string)
| RunLaunch (request : LaunchRequest) (json : bool)
| RunRank (request : RankRequest) (transport : RankTransport)
| RunPipelineRank (request : RankRequest) (transport : RankTransport) (manifest : string)
| RunTensorRank (request : RankRequest) (transport : RankTransport) (manifest : string)
| RunBenchmarkRank (request : RankRequest) (transport : RankTransport) (manifest : string)
| RunP2p (world_size : nat) (format : OutputFormat)
| PrintModels (format : OutputFormat)
| RunInspect (request : InspectionRequest) (format : OutputFormat) (output : option string)
| RunGenerate (request : GenerationRequest) (report : option string).

(** [From<AllReduceArg> for AllReduceAlgorithm]; [AllReduceSelection]'s algorithms. *)
Definition all_reduce_into (value : AllReduceArg) : AllReduceAlgorithm :=
  match value with CentralizedArg => CentralizedAllReduce | RingArg => RingAllReduce end.
Definition selected (all_reduce : AllReduceSelection) : list AllReduceAlgorithm :=
  match all_reduce with
  | SelectCentralized => [CentralizedAllReduce]
  | SelectRing => [RingAllReduce]
  | SelectBoth => [CentralizedAllReduce; RingAllReduce]
  end.
Definition is_json (format : OutputFormat) : bool := match format with JsonFormat => true | TextFormat => false end.

(** The arm of [Command::Rank]. *)
Definition rank_call (o : RankOptions) : result string Call :=
  let request := mkRequest (ro_rank o) (ro_world_size o) (ro_run_id o) (ro_expected_cpu_millis o)
                   (ro_expected_memory_bytes o) in
  let transport := mkRankTransport (ro_rendezvous_addr o) (ro_rendezvous_bind_addr o) (ro_listen_addr o)
    (ro_advertise_addr o) (from_secs (ro_startup_timeout_seconds o)) (from_secs (ro_operation_timeout_seconds o)) in
  match ro_workload o with
  | TopologyWorkload => Ok (RunRank request transport)
  | PipelineWorkload =>
      manifest ← ok_or (ro_pipeline_manifest o) "--pipeline-manifest is required for pipeline ranks";
      Ok (RunPipelineRank request transport manifest)
  | TensorWorkload =>
      manifest ← ok_or (ro_tensor_manifest o) "--tensor-manifest is required for tensor ranks";
      Ok (RunTensorRank request transport manifest)
  | CollectiveBenchmarkWorkload =>
      manifest ← ok_or (ro_benchmark_manifest o) "--benchmark-manifest is required for collective benchmark ranks";
      Ok (RunBenchmarkRank request transport manifest)
  end.

(** [main], after [Cli::parse]. *)
Definition main_call (command : Command) : result string Call :=
  match command with
  | CollectivesCheck world_size format output => Ok (RunCollectivesCheck world_size format output)
  | CollectivesBench nproc all_reduce sizes warmup iterations format output l =>
      Ok (RunCollectiveBench
        (mkBenchRequest nproc (lo_total_cpus l) (lo_total_memory l) (selected all_reduce) sizes warmup iterations
           (lo_image l) (lo_build_context l) (lo_rebuild l) (lo_run_id l) (from_secs (lo_startup_timeout_seconds l))
           (from_secs (lo_operation_timeout_seconds l)) (lo_keep_containers l)) (is_json format) output)
  | TensorCommand model tp dtype prompt max_new_tokens all_reduce tui report l =>
      Ok (RunTensor
        (mkTensorLaunch model tp dtype prompt max_new_tokens (lo_total_cpus l) (lo_total_memory l)
           (all_reduce_into all_reduce) tui (lo_image l) (lo_build_context l) (lo_rebuild l) (lo_run_id l)
           (from_secs (lo_startup_timeout_seconds l)) (from_secs (lo_operation_timeout_seconds l))
           (lo_keep_containers l)) report)
  | PipelineCommand model dtype prompt max_new_tokens nproc tui report l =>
      Ok (RunPipeline
        (mkPipelineLaunch model dtype prompt max_new_tokens nproc (lo_total_cpus l) (lo_total_memory l) (lo_image l)
           (lo_build_context l) (lo_rebuild l) (lo_run_id l) (from_secs (lo_startup_timeout_seconds l))
           (from_secs (lo_operation_timeout_seconds l)) tui (lo_keep_containers l)) report)
  | LaunchCommand nproc format l =>
      Ok (RunLaunch
        (mkLaunch nproc (lo_total_cpus l) (lo_total_memory l) (lo_image l) (lo_build_context l) (lo_rebuild l)
           (lo_run_id l) (from_secs (lo_startup_timeout_seconds l)) (from_secs (lo_operation_timeout_seconds l))
           (lo_keep_containers l)) (is_json format))
  | RankCommand options => rank_call options
  | P2pCommand world_size format => Ok (RunP2p world_size format)
  | ModelsCommand format => Ok (PrintModels format)
  | InspectCommand model dtype context_length budget format output =>
      Ok (RunInspect (mkInspection model dtype context_length budget) format output)
  | GenerateCommand model dtype prompt max_new_tokens budget report =>
      Ok (RunGenerate (Generation.mkRequest model dtype prompt max_new_tokens budget) report)
  end.

(** ** The arguments of a rank *)

(** The parser splits arguments into declared long options and their values. *)
Class Clap : Type := clap_long : list string -> list string -> result string (list (string * string)).

(** What the launchers rely on: options given as [--name value], each once, are
    these options, if no value looks like an option. *)
Definition hyphen (value : string) : bool := match value with String "-" _ => true | _ => false end.
Definition long_arguments (options : list (string * string)) : list string :=
  flat_map (fun '(name, value) => ["--" +:+ name; value]) options.
Class ClapLaws `{CL : Clap} : Prop :=
  clap_long_options declared options :
    NoDup (map fst options) -> Forall (fun o => o.1 ∈ declared /\ hyphen o.2 = false) options ->
    clap_long declared (long_arguments options) = Ok options.

Definition RANK_OPTIONS : list string :=
  ["workload"; "pipeline-manifest"; "tensor-manifest"; "benchmark-manifest"; "rank"; "world-size"; "run-id";
   "rendezvous-addr"; "rendezvous-bind-addr"; "listen-addr"; "advertise-addr"; "startup-timeout-seconds";
   "operation-timeout-seconds"; "expected-cpu-millis"; "expected-memory-bytes"].

(** The value of an option, of a required one, of one with a default, and a number. *)
Definition value_of (options : list (string * string)) (name : string) : option string :=
  snd <$> find (fun o => String.eqb o.1 name) options.
Definition required (options : list (string * string)) (name : string) : result string string :=
  ok_or (value_of options name) ("missing --" +:+ name).
Definition read_number (value : string) : result string N := ok_or (parse_u64 value) ("invalid value " +:+ value).
Definition number_or (options : list (string * string)) (name : string) (value : N) : result string N :=
  match value_of options name with Some value => read_number value | None => Ok value end.
Definition optional_number (options : list (string * string)) (name : string) : result string (option N) :=
  match value_of options name with Some value => Some <$> read_number value | None => Ok None end.

(** [ValueEnum for RankWorkloadArg], and its default. *)
Definition parse_workload (value : option string) : result string RankWorkloadArg :=
  match value with
  | None => Ok TopologyWorkload
  | Some value =>
      if String.eqb value "topology" then Ok TopologyWorkload
      else if String.eqb value "pipeline" then Ok PipelineWorkload
      else if String.eqb value "tensor" then Ok TensorWorkload
      else if String.eqb value "collective-benchmark" then Ok CollectiveBenchmarkWorkload
      else Err ("invalid value " +:+ value)
  end.

(** The [requires] and [required_if_eq] of the options. *)
Definition both {A B} (a : option A) (b : option B) : bool :=
  match a, b with Some _, Some _ | None, None => true | _, _ => false end.
Definition manifest_given (o : RankOptions) : bool :=
  match ro_workload o with
  | TopologyWorkload => true
  | PipelineWorkload => bool_decide (is_Some (ro_pipeline_manifest o))
  | TensorWorkload => bool_decide (is_Some (ro_tensor_manifest o))
  | CollectiveBenchmarkWorkload => bool_decide (is_Some (ro_benchmark_manifest o))
  end.

(** The fields of [Command::Rank]. *)
Definition parse_rank (options : list (string * string)) : result string RankOptions :=
  workload ← parse_workload (value_of options "workload");
  rank ← (required options "rank" ≫= read_number);
  world_size ← (required options "world-size" ≫= read_number);
  run_id ← required options "run-id";
  rendezvous_addr ← required options "rendezvous-addr";
  listen_addr ← required options "listen-addr";
  advertise_addr ← required options "advertise-addr";
  startup ← number_or options "startup-timeout-seconds" 30;
  operation ← number_or options "operation-timeout-seconds" 10;
  cpu ← optional_number options "expected-cpu-millis";
  memory ← optional_number options "expected-memory-bytes";
  let o := mkRankOptions workload (value_of options "pipeline-manifest") (value_of options "tensor-manifest")
    (value_of options "benchmark-manifest") (N.to_nat rank) (N.to_nat world_size) run_id rendezvous_addr
    (value_of options "rendezvous-bind-addr") listen_addr advertise_addr startup operation cpu memory in
  if both cpu memory && manifest_given o then Ok o else Err "missing required arguments".

(** [dlir] in a container, whose entry point is the program. *)
Definition container_main `{Clap} (arguments : list string) : result string Call :=
  match arguments with
  | subcommand :: arguments =>
      if String.eqb subcommand "rank"
      then options ← clap_long RANK_OPTIONS arguments; options ← parse_rank options; main_call (RankCommand options)
      else Err ("unrecognized subcommand " +:+ subcommand)
  | [] => Err "missing subcommand"
  end.

(** ** What the launchers pass *)

(** The options a launcher gives a rank, after those of its workload. *)
Definition rank_options (run_id : string) (rank world_size : nat) (resources : ResourcePlan)
  (startup operation : Duration) : list (string * string) :=
  let rank_text := pretty (N.of_nat rank) in
  [("rank", rank_text); ("world-size", pretty (N.of_nat world_size)); ("run-id", run_id);
   ("rendezvous-addr", "rank-0:" +:+ pretty RENDEZVOUS_PORT); ("listen-addr", "0.0.0.0:" +:+ pretty PEER_PORT);
   ("advertise-addr", "rank-" +:+ rank_text +:+ ":" +:+ pretty PEER_PORT);
   ("startup-timeout-seconds", seconds startup); ("operation-timeout-seconds", seconds operation);
   ("expected-cpu-millis", pretty (per_rank_cpu_millis resources));
   ("expected-memory-bytes", pretty (per_rank_memory_bytes resources))]
  ++ (if Nat.eqb rank 0 then [("rendezvous-bind-addr", "0.0.0.0:" +:+ pretty RENDEZVOUS_PORT)] else []).

Definition workload_options (workload : RankWorkloadArg) : list (string * string) :=
  match workload with
  | TopologyWorkload => []
  | PipelineWorkload => [("workload", "pipeline"); ("pipeline-manifest", CONTAINER_MANIFEST)]
  | TensorWorkload => [("workload", "tensor"); ("tensor-manifest", TENSOR_CONTAINER_MANIFEST)]
  | CollectiveBenchmarkWorkload => [("workload", "collective-benchmark"); ("benchmark-manifest", BENCHMARK_MANIFEST)]
  end.

(** The options of [docker run] before its image; [mounts] are the bind mounts. *)
Definition docker_options (network name run_id : string) (rank : nat) (resources : ResourcePlan)
  (mounts : list string) : list string :=
  ["run"; "--detach"; "--name"; name; "--network"; network; "--network-alias"; "rank-" +:+ pretty (N.of_nat rank);
   "--label"; RUN_LABEL +:+ "=" +:+ run_id; "--cpus"; format_cpu (per_rank_cpu_millis resources);
   "--memory"; pretty (per_rank_memory_bytes resources) +:+ "b";
   "--memory-swap"; pretty (per_rank_memory_bytes resources) +:+ "b"] ++ mounts.

(** The mounts of a tensor rank. *)
Definition tensor_mount_arguments (mounts : TensorMounts) : list string :=
  flat_map (fun '(source, target) =>
      ["--mount"; "type=bind,source=" +:+ source +:+ ",target=" +:+ target +:+ ",readonly"])
    [(tmount_manifest mounts, TENSOR_CONTAINER_MANIFEST); (tmount_checkpoint mounts, CONTAINER_CHECKPOINT);
     (tmount_tokenizer mounts, CONTAINER_TOKENIZER)].

(** The request the rank is meant to serve. *)
Definition whole_seconds (d : Duration) : Duration := from_secs (d / 1000000000).
Definition launched_transport (rank : nat) (startup operation : Duration) : RankTransport :=
  mkRankTransport "rank-0:29500" (if Nat.eqb rank 0 then Some "0.0.0.0:29500" else None) "0.0.0.0:29501"
    ("rank-" +:+ pretty (N.of_nat rank) +:+ ":29501") (whole_seconds startup) (whole_seconds operation).

Definition launched_call (workload : RankWorkloadArg) (run_id : string) (rank world_size : nat)
  (resources : ResourcePlan) (startup operation : Duration) : Call :=
  let request := launch_request run_id world_size resources rank in
  let transport := launched_transport rank startup operation in
  match workload with
  | TopologyWorkload => RunRank request transport
  | PipelineWorkload => RunPipelineRank request transport CONTAINER_MANIFEST
  | TensorWorkload => RunTensorRank request transport TENSOR_CONTAINER_MANIFEST
  | CollectiveBenchmarkWorkload => RunBenchmarkRank request transport BENCHMARK_MANIFEST
  end.

Lemma number_pretty n : (n < U64)%N -> read_number (pretty n) = Ok n.
Proof. intros Hn. unfold read_number. by rewrite parse_u64_pretty. Qed.

Lemma hyphen_pretty (n : N) : hyphen (pretty n) = false.
Proof.
  destruct (pretty_digits n) as (Hd & _ & _). destruct (pretty n) as [|c t]; [done|].
  cbn in Hd |- *. apply andb_true_iff in Hd as [Hc _]. by destruct c as [[] [] [] [] [] [] [] []].
Qed.

(** A run whose numbers fit 64 bits and whose identifier does not look like an option. *)
Record passable (run_id : string) (rank world_size : nat) (resources : ResourcePlan) (startup operation : Duration)
  : Prop := mkPassable
  { pa_rank : rank < world_size; pa_world : (N.of_nat world_size < U64)%N; pa_run_id : hyphen run_id = false;
    pa_cpu : (per_rank_cpu_millis resources < U64)%N; pa_memory : (per_rank_memory_bytes resources < U64)%N;
    pa_startup : (startup / 1000000000 < U64)%N; pa_operation : (operation / 1000000000 < U64)%N }.

Section Launched.
Context {CL : Clap} {LA : ClapLaws}.
Context (run_id : string) (rank world_size : nat) (resources : ResourcePlan) (startup operation : Duration).
Hypothesis Hp : passable run_id rank world_size resources startup operation.

Lemma rank_options_parsed workload :
  (o ← parse_rank (workload_options workload ++ rank_options run_id rank world_size resources startup operation);
   main_call (RankCommand o)) = Ok (launched_call workload run_id rank world_size resources startup operation).
Proof.
  destruct Hp as [Hr Hw Hi Hc Hm Hs Ho].
  assert ((N.of_nat rank < U64)%N) as Hr' by lia.
  assert (pretty RENDEZVOUS_PORT = "29500") as Hz by done.
  assert (pretty PEER_PORT = "29501") as Hpeer by done.
  unfold launched_call, launch_request, launched_transport, whole_seconds, parse_rank, required, number_or, optional_number, rank_options, seconds.
  destruct workload, (Nat.eqb rank 0); cbn -[pretty read_number N.div];
    rewrite !number_pretty by done; cbn -[pretty read_number N.div]; rewrite ?Nat2N.id, ?Hz, ?Hpeer; done.
Qed.

Lemma rank_options_wellformed workload :
  let options := workload_options workload ++ rank_options run_id rank world_size resources startup operation in
  NoDup (map fst options) /\ Forall (fun o => o.1 ∈ RANK_OPTIONS /\ hyphen o.2 = false) options.
Proof.
  destruct Hp as [_ _ Hi _ _ _ _]. split.
  - unfold rank_options. destruct workload, (Nat.eqb rank 0); apply (bool_decide_unpack _); by vm_compute.
  - assert (forall l, forallb (fun o => bool_decide (o.1 ∈ RANK_OPTIONS)) l = true -> Forall (fun o : string * string => hyphen o.2 = false) l ->
      Forall (fun o => o.1 ∈ RANK_OPTIONS /\ hyphen o.2 = false) l) as Hl.
    { intros l H1 H2. apply List.Forall_forall. intros o Ho.
      rewrite List.Forall_forall in H2. rewrite List.forallb_forall in H1. split; [|by apply H2].
      by apply (bool_decide_unpack _), Is_true_true, H1. }
    apply Hl; [destruct workload; unfold rank_options; destruct (Nat.eqb rank 0); by vm_compute|].
    unfold rank_options, seconds. destruct workload, (Nat.eqb rank 0); cbn -[pretty hyphen];
      repeat (constructor; [try done; try apply hyphen_pretty|]); done.
Qed.

Lemma container_reads workload :
  container_main ("rank" :: long_arguments
    (workload_options workload ++ rank_options run_id rank world_size resources startup operation)) =
  Ok (launched_call workload run_id rank world_size resources startup operation).
Proof.
  unfold container_main. cbn [String.eqb]. destruct (rank_options_wellformed workload) as [H1 H2].
  rewrite clap_long_options by done. exact (rank_options_parsed workload).
Qed.
End Launched.

Lemma whole_seconds_from_secs n : whole_seconds (from_secs n) = from_secs n.
Proof. unfold whole_seconds, from_secs. by rewrite N.div_mul. Qed.

(** C20: Every launcher passes a rank what the rank needs: the container's command is
    [docker run]'s options and the image, then arguments the program reads back as
    the call for this workload, with the rank, the world, the run, the limits the
    container has, the addresses - the rendezvous bound on rank 0 only - and the
    time-outs of the user's command, which come in whole seconds. *)
Theorem launched_ranks_read_their_request {CL : Clap} {LA : ClapLaws} image network name run_id rank world_size
    resources startup operation mounts tensor_mounts manifest :
  passable run_id rank world_size resources startup operation ->
  let docker := docker_options network name run_id rank resources in
  let arguments workload := "rank" :: long_arguments
    (workload_options workload ++ rank_options run_id rank world_size resources startup operation) in
  (container_arguments image network name run_id rank world_size resources startup operation =
     docker [] ++ image :: arguments TopologyWorkload /\
   pipeline_container_arguments image network name run_id rank world_size resources startup operation mounts =
     docker (mount_arguments mounts) ++ image :: arguments PipelineWorkload /\
   tensor_container_arguments image network name run_id rank world_size resources startup operation tensor_mounts =
     docker (tensor_mount_arguments tensor_mounts) ++ image :: arguments TensorWorkload /\
   bench_container_arguments image network name run_id rank world_size resources startup operation manifest =
     docker ["--mount"; "type=bind,source=" +:+ manifest +:+ ",target=" +:+ BENCHMARK_MANIFEST +:+ ",readonly"]
     ++ image :: arguments CollectiveBenchmarkWorkload) /\
  (forall workload, container_main (arguments workload) =
     Ok (launched_call workload run_id rank world_size resources startup operation)) /\
  (forall n, startup = from_secs n -> rt_startup_timeout (launched_transport rank startup operation) = startup).
Proof.
  intros Hp docker arguments. split; [|split].
  - subst docker arguments. unfold container_arguments, pipeline_container_arguments, tensor_container_arguments,
      bench_container_arguments, docker_options, rank_options, long_arguments, mount_arguments.
    destruct (Nat.eqb rank 0); split_and!; reflexivity.
  - intros workload. by apply container_reads.
  - intros n ->. apply whole_seconds_from_secs.
Qed.

(** ** A parser with this behaviour *)
Fixpoint read_pairs (declared arguments : list string) : result string (list (string * string)) :=
  match arguments with
  | [] => Ok []
  | String "-" (String "-" name) :: value :: arguments =>
      options ← read_pairs declared arguments;
      if bool_decide (name ∈ declared) && negb (hyphen value) && negb (bool_decide (name ∈ map fst options))
      then Ok ((name, value) :: options) else Err ("unexpected argument " +:+ name)
  | argument :: _ => Err ("unexpected argument " +:+ argument)
  end.
#[local] Instance pair_clap : Clap := read_pairs.
#[local] Instance pair_clap_laws : ClapLaws.
Proof.
  intros declared options. induction options as [|[name value] options IH]; [done|].
  intros [Hnew Hnd]%list.NoDup_cons [[Hin Hv] Hall]%List.Forall_cons_iff.
  specialize (IH Hnd Hall). unfold clap_long, pair_clap in *. cbn in Hin, Hv, Hnew.
  change (long_arguments ((name, value) :: options)) with (String "-" (String "-" name) :: value :: long_arguments options).
  cbn [read_pairs]. rewrite IH. cbn [mbind result_bind]. rewrite bool_decide_true by done.
  by rewrite Hv, bool_decide_false by done.
Qed.

Definition demo_resources : ResourcePlan := mkResourcePlan 3000 805306368 1500 402653184 3000 805306368 0 0 0 0.
Lemma launched_ranks_read_their_request_witness :
  container_main ["rank"; "--workload"; "tensor"; "--tensor-manifest"; "/opt/dlir/request/tensor.json"; "--rank"; "1";
    "--world-size"; "2"; "--run-id"; "run-7"; "--rendezvous-addr"; "rank-0:29500"; "--listen-addr"; "0.0.0.0:29501";
    "--advertise-addr"; "rank-1:29501"; "--startup-timeout-seconds"; "30"; "--operation-timeout-seconds"; "10";
    "--expected-cpu-millis"; "1500"; "--expected-memory-bytes"; "402653184"] =
  Ok (launched_call TensorWorkload "run-7" 1 2 demo_resources (from_secs 30) (from_secs 10)).
Proof.
  destruct (launched_ranks_read_their_request "dlir:v0.5-tensor" "dlir-run-7" "dlir-run-7-rank-1" "run-7" 1 2
    demo_resources (from_secs 30) (from_secs 10) (mkMounts "a" "b" "c" "d" "e") (mkTensorMounts "a" "b" "c") "m")
    as (_ & H & _); [split; first [reflexivity | lia]|exact (H TensorWorkload)].
Defined.

(** A run identifier may begin with a hyphen, which the rank's parser takes for an option. *)
Example hyphen_run_id : validate_run_id "-x" = Ok tt /\ hyphen "-x" = true /\
  container_main ("rank" :: long_arguments (rank_options "-x" 1 2 demo_resources (from_secs 30) (from_secs 10))) =
  Err "unexpected argument run-id".
Proof. by vm_compute. Qed.
