(* ===== verification/Cli.v ===== *)
(** * The commands without containers

    Models the rest of [crates/cli/src/main.rs]: the commands that check the
    collectives, exchange tensors, list and inspect models and generate, with what
    they write to the terminal and to files, and the observer that streams a
    generation.  The terminal is the list of what was written to it. *)
From Stdlib Require Import ZArith SpecFloat Strings.Ascii.
From S2P Require Import Prelude Text Rank Packet InMemory World Tensor Float Collective Registry Memory.
From S2P Require Import RingExchange CollectiveCheck Benchmark Protocol Report Cache Kernels Llama Artifacts Generation Format CommandLine.

(** ** The terminal *)

(** Writes to the streams and to files. *)
Inductive Written : Type := ToStdout (text : string) | ToStderr (text : string) | ToFile (path contents : string).

(** [anyhow::Error]. *)
Inductive CliError : Type :=
| CliMessage (message : string) | CliDlir (e : DlirError) | CliCollectives (e : CollectivesError)
| CliWrite (context message : string) | CliJson (message : string) | CliIo (message : string).

Definition cli (A : Type) : Type := list Written -> result CliError A * list Written.
#[global] Instance cli_ret : MRet cli := fun A a w => (Ok a, w).
#[global] Instance cli_bind : MBind cli := fun A B f m w =>
  match m w with (Ok a, w) => f a w | (Err e, w) => (Err e, w) end.
Definition attempt_cli {A} (r : result CliError A) : cli A := fun w => (r, w).
Definition print (text : string) : cli unit := fun w => (Ok tt, w ++ [ToStdout text]).
Definition eprint (text : string) : cli unit := fun w => (Ok tt, w ++ [ToStderr text]).
Definition println (text : string) : cli unit := print (text +:+ newline).
Definition eprintln (text : string) : cli unit := eprint (text +:+ newline).

(** What stands on the streams in the end. *)
Definition stdout_of (w : list Written) : string :=
  foldr (fun x s => match x with ToStdout t => t +:+ s | _ => s end) "" w.
Definition bail {A} (message : string) : cli A := attempt_cli (Err (CliMessage message)).

Section Commands.
(** [fs::write]: what the file system answers. *)
Variable write_answer : string -> result string unit.
Definition write_file (path contents : string) (context : string) : cli unit := fun w =>
  match write_answer path with
  | Ok _ => (Ok tt, w ++ [ToFile path contents])
  | Err message => (Err (CliWrite context message), w)
  end.

(** [serde_json::to_string_pretty] of a report. *)
Definition to_json {A} (json : A -> result string string) (report : A) : cli string :=
  attempt_cli (map_err CliJson (json report)).

(** ** [dlir collectives check] *)
Definition P2P_RECEIVE_TIMEOUT : Duration := from_secs 5.

Definition pass_fail (b : bool) : string := if b then "PASS" else "FAIL".
Definition concat_map {A} (f : A -> string) (l : list A) : string := foldr (fun a s => f a +:+ s) "" l.

(** [collective_check_text]. *)
Definition operation_line (operation : CollectiveCheckOperation) : string :=
  let algorithm := match check_algorithm operation with
                   | Some value => "/" +:+ algorithm_debug value
                   | None => ""
                   end in
  "  " +:+ kind_debug (check_kind operation) +:+ algorithm +:+ ": " +:+ pass_fail (passed operation) +:+ newline.
Definition collective_check_text (report : CollectiveCheckReport) : string :=
  "NATIVE COLLECTIVE CHECK" +:+ newline +:+ "Backend:    " +:+ check_collective_backend report +:+ "/"
  +:+ check_backend report +:+ newline +:+ "World size: " +:+ pretty (N.of_nat (check_world_size report))
  +:+ newline +:+ newline
  +:+ concat_map (fun rank => "rank " +:+ pretty (N.of_nat (check_rank rank)) +:+ newline
                              +:+ concat_map operation_line (operations rank)) (check_ranks report)
  +:+ newline +:+ "Result: " +:+ pass_fail (check_success report) +:+ newline.

(** Written to [output] or to the terminal. *)
Definition output_or_print (output : option string) (rendered context : string) : cli unit :=
  match output with Some path => write_file path rendered context | None => print rendered end.

(** [run_collectives_check], given the outcome of each worker thread. *)
Definition run_collectives_check (json : CollectiveCheckReport -> result string string) (world_size : nat)
  (format : OutputFormat) (output : option string) (outcome : nat -> Join CollectiveCheckRankReport) : cli unit :=
  if world_size <? 2 then bail "collective correctness checks require at least two ranks" else
  report ← attempt_cli (map_err CliCollectives (run_collective_check world_size P2P_RECEIVE_TIMEOUT outcome));
  rendered ← match format with
             | TextFormat => mret (collective_check_text report)
             | JsonFormat => text ← to_json json report; mret (text +:+ newline)
             end;
  _ ← output_or_print output rendered "";
  if negb (check_success report) then bail "native collective correctness check failed" else mret tt.

(** ** [dlir p2p] *)

(** [value.fract() == 0.0], and [{value:.0}] of such a value. *)
Definition integral (value : f32) : option N :=
  match decode_f32 value with
  | S754_zero _ => Some 0%N
  | S754_finite _ m (Zneg p) => if (Npos m mod 2 ^ Npos p =? 0)%N then Some (Npos m / 2 ^ Npos p)%N else None
  | S754_finite _ m e => Some (Npos m * 2 ^ Z.to_N e)%N
  | _ => None
  end.
Definition negative (value : f32) : bool := N.testbit value 31.
(** [f32]'s [Display]: the shortest decimal that reads back as the value. *)
Variable display_f32 : f32 -> string.
Definition value_text (value : f32) : string :=
  match integral value with
  | Some n => (if negative value then "-" else "") +:+ pretty n
  | None => display_f32 value
  end.
Fixpoint join (separator : string) (l : list string) : string :=
  match l with [] => "" | [s] => s | s :: l => s +:+ separator +:+ join separator l end.

(** [tensor_values], [p2p_text]. *)
Definition tensor_values (values : list f32) : string := "[" +:+ join ", " (map value_text values) +:+ "]".
Definition exchange_text (r : RankExchangeReport) : string :=
  let rank := "rank " +:+ pretty (N.of_nat (exchange_rank r)) in
  newline +:+ rank +:+ " sent " +:+ tensor_values (summary_values (sent r)) +:+ " to rank "
  +:+ pretty (N.of_nat (sent_to r)) +:+ newline
  +:+ rank +:+ " received " +:+ tensor_values (summary_values (received r)) +:+ " from rank "
  +:+ pretty (N.of_nat (received_from r)) +:+ newline
  +:+ rank +:+ " verification: " +:+ pass_fail (matches_expected r) +:+ newline.
Definition p2p_text (report : P2pReport) : string :=
  "P2P TENSOR EXCHANGE" +:+ newline +:+ "Backend:    " +:+ p2p_backend report +:+ newline
  +:+ "Pattern:    " +:+ p2p_pattern report +:+ newline
  +:+ "World size: " +:+ pretty (N.of_nat (p2p_world_size report)) +:+ newline
  +:+ concat_map exchange_text (p2p_ranks report)
  +:+ newline +:+ "Result: " +:+ pass_fail (p2p_success report) +:+ newline.

(** [run_p2p]. *)
Definition run_p2p (json : P2pReport -> result string string) (world_size : nat) (format : OutputFormat)
  (outcome : nat -> Join RankExchangeReport) : cli unit :=
  report ← attempt_cli (map_err CliCollectives (run_p2p_ring world_size P2P_RECEIVE_TIMEOUT outcome));
  _ ← match format with
      | TextFormat => print (p2p_text report)
      | JsonFormat => text ← to_json json report; println text
      end;
  if negb (p2p_success report) then bail "point-to-point tensor verification failed" else mret tt.

(** ** [dlir models] *)

(** [print_models]; [json] is the serialised list of [model_json]. *)
Definition model_lines (spec : ModelSpec) : list string :=
  [newline +:+ as_str (id spec); "  repository:       " +:+ repository spec; "  revision:         " +:+ revision spec;
   "  parameters:       " +:+ grouped (expected_parameters spec);
   "  max context:      " +:+ pretty (max_position_embeddings (config spec));
   "  CPU/F32:          validated"; "  CUDA:             unsupported";
   "  chat template:    " +:+ template_name (prompt_template spec)].
Fixpoint println_all (lines : list string) : cli unit :=
  match lines with [] => mret tt | line :: lines => _ ← println line; println_all lines end.
Definition print_models (json : list ModelSpec -> result string string) (format : OutputFormat) : cli unit :=
  match format with
  | TextFormat => println_all ("SUPPORTED MODELS" :: flat_map model_lines SUPPORTED_MODELS)
  | JsonFormat => text ← to_json json SUPPORTED_MODELS; println text
  end.

(** ** [dlir inspect] *)

(** [Display for PlacementVerdict]. *)
Definition placement_display (v : PlacementVerdict) : string :=
  match v with
  | FitsPersistentEstimate => "PASSES PERSISTENT-STATE ESTIMATE"
  | DoesNotFit => "FAILED"
  | NotEvaluated => "NOT EVALUATED"
  end.

(** [inspection_text]. *)
Definition text_line (label text : string) : string := label +:+ text +:+ newline.
Definition bytes_line (label : string) (bytes : N) : string :=
  text_line label (format_bytes bytes +:+ " (" +:+ pretty bytes +:+ ")").
Definition inspection_text (report : InspectionReport) : string :=
  let cfg := ir_config report in
  let memory := ir_memory report in
  "MODEL INSPECTION" +:+ newline
  +:+ text_line "Model:              " (as_str (ir_model report))
  +:+ text_line "Repository:         " (ir_repository report)
  +:+ text_line "Revision:           " (ir_revision report)
  +:+ text_line "Parameters:         " (grouped (parameter_count memory))
  +:+ text_line "Layers:             " (pretty (num_hidden_layers cfg))
  +:+ text_line "Attention heads:    " (pretty (num_attention_heads cfg))
  +:+ text_line "KV heads:           " (pretty (num_key_value_heads cfg))
  +:+ text_line "Hidden dimension:   " (pretty (hidden_size cfg))
  +:+ text_line "Head dimension:     " (pretty (hidden_size cfg / num_attention_heads cfg)%N)
  +:+ text_line "Maximum context:    " (pretty (max_position_embeddings cfg))
  +:+ text_line "Planned context:    " (pretty (context_length memory))
  +:+ text_line "Dtype:              " (dtype_display (plan_dtype memory))
  +:+ bytes_line "Logical weights:    " (weight_bytes memory)
  +:+ bytes_line "KV cache capacity:  " (kv_cache_capacity_bytes memory)
  +:+ bytes_line "Persistent minimum: " (persistent_bytes memory)
  +:+ match plan_budget memory with
      | Some budget =>
          bytes_line "Device budget:      " (budget_bytes budget)
          +:+ text_line "Budget semantics:   " "host, per-rank, user-declared, not OS-enforced"
      | None => ""
      end
  +:+ text_line "Placement:          " (placement_display (placement memory))
  +:+ text_line "Note: " (ir_caveat report).

(** [run_inspect]. *)
Definition run_inspect (json : InspectionReport -> result string string) (request : InspectionRequest)
  (format : OutputFormat) (output : option string) : cli unit :=
  report ← attempt_cli (map_err CliDlir (inspect request));
  rendered ← match format with
             | TextFormat => mret (inspection_text report)
             | JsonFormat => text ← to_json json report; mret (text +:+ newline)
             end;
  output_or_print output rendered ("failed to write inspection to " +:+ default "" output).

(** ** [dlir generate] *)

(** [struct CliObserver], and [on_event]. *)
Record CliObserver : Type := mkObserver { artifact_phase : nat; observed_text : string }.
Definition new_observer : CliObserver := mkObserver 0 "".
Definition on_event (event : RunEventKind) (o : CliObserver) : cli CliObserver :=
  match event with
  | ArtifactResolutionStarted =>
      let o := mkObserver (S (artifact_phase o)) (observed_text o) in
      _ ← eprintln (if artifact_phase o =? 1 then "resolving configuration and tokenizer..."
                    else "resolving checkpoint weights...");
      mret o
  | ModelLoadStarted => _ ← eprintln "loading model on CPU..."; mret o
  | PrefillStarted prompt_tokens => _ ← eprintln ("prefill: " +:+ pretty prompt_tokens +:+ " prompt tokens"); mret o
  | TokenGenerated _ text => _ ← print text; mret (mkObserver (artifact_phase o) (observed_text o +:+ text))
  | _ => mret o
  end.
Fixpoint observe (events : list RunEvent) (o : CliObserver) : cli CliObserver :=
  match events with
  | [] => mret o
  | event :: events => o ← on_event (event_kind event) o; observe events o
  end.

(** [str::strip_prefix], and [CliObserver::finish]; [flush] is what flushing the
    standard output answers. *)
Fixpoint strip_prefix (prefix s : string) : option string :=
  match prefix, s with
  | EmptyString, s => Some s
  | String a prefix, String b s => if Ascii.eqb a b then strip_prefix prefix s else None
  | String _ _, EmptyString => None
  end.
Definition observer_finish (flush : result string unit) (completion : string) (o : CliObserver) : cli unit :=
  _ ← match strip_prefix (observed_text o) completion with Some suffix => print suffix | None => mret tt end;
  _ ← println "";
  attempt_cli (map_err CliIo flush).

(** [generation_summary]; the times are an argument, as the report has none. *)
Definition optional_text {A} (text : A -> string) (value : option A) : string :=
  match value with Some value => text value | None => "n/a" end.
Definition generation_summary (report : GenerationReport) (timings : TimingReport) : string :=
  let memory := report_memory report in
  newline +:+ text_line "RUN SUMMARY" ""
  +:+ text_line "prompt tokens:       " (pretty (report_prompt_tokens report))
  +:+ text_line "generated tokens:    " (pretty (lenN (generated_tokens report)))
  +:+ text_line "stop reason:         " (stop_reason_display (stop_reason report))
  +:+ text_line "logical weights:     " (format_bytes (weight_bytes memory))
  +:+ text_line "KV capacity:         " (format_bytes (kv_cache_capacity_bytes memory) +:+ " for "
                                    +:+ pretty (context_length memory) +:+ " tokens")
  +:+ text_line "final KV used:       " (format_bytes (final_kv_cache_bytes report))
  +:+ text_line "placement:           " (placement_display (placement memory))
  +:+ text_line "artifacts:           " (fixed 3 (ns_seconds (artifact_resolution_ns timings)) +:+ " s")
  +:+ text_line "model load:          " (fixed 3 (ns_seconds (model_load_ns timings)) +:+ " s")
  +:+ text_line "tokenization:        " (fixed 3 (ns_millis (tokenization_ns timings)) +:+ " ms")
  +:+ text_line "prefill:             " (fixed 3 (ns_millis (prefill_ns timings)) +:+ " ms ("
                                    +:+ fixed 2 (prefill_tokens_per_second timings) +:+ " tok/s)")
  +:+ text_line "TTFT:                " (fixed 3 (ns_millis (time_to_first_token_ns timings)) +:+ " ms")
  +:+ text_line "decode forwards:     " (pretty (decode_forwards timings))
  +:+ text_line "mean decode latency: " (optional_text (fun ns => fixed 3 (ns_millis ns) +:+ " ms") (mean_decode_ns timings))
  +:+ text_line "decode throughput:   " (optional_text (fun rate => fixed 2 rate +:+ " tok/s") (decode_tokens_per_second timings))
  +:+ text_line "generation total:    " (fixed 3 (ns_seconds (generation_total_ns timings)) +:+ " s")
  +:+ text_line "cold start total:    " (fixed 3 (ns_seconds (cold_start_total_ns timings)) +:+ " s").

Section Generate.
Context {FO : FloatOps} {KE : Kernels} {HO : HostSystem} {RT : Runtime}.

(** [run_generate].  The observer is told each event as it is recorded: those of
    the report, or [before_failure] when there is none. *)
Definition run_generate (json : GenerationReport * TimingReport -> result string string) (timings : TimingReport)
  (flush : result string unit) (before_failure : list RunEvent) (request : GenerationRequest) (report_path : option string) : option (cli unit) :=
  outcome ← generate request;
  spec ← spec_of (request_model request);
  Some (
    _ ← eprint (text_line "model: " (as_str (request_model request) +:+ " (" +:+ repository spec +:+ ")")
                +:+ text_line "revision: " (revision spec)
                +:+ text_line "checkpoint: " (weight_file spec +:+ " (known download size "
                                         +:+ format_bytes (expected_checkpoint_bytes spec) +:+ ")"));
    match outcome with
    | Err e => _ ← observe before_failure new_observer; attempt_cli (Err (CliDlir e))
    | Ok report =>
        o ← observe (report_events report) new_observer;
        _ ← observer_finish flush (completion report) o;
        _ ← match report_path with
            | Some path =>
                text ← to_json json (report, timings);
                _ ← write_file path text ("failed to write run report to " +:+ path);
                eprintln ("report: " +:+ path)
            | None => mret tt
            end;
        eprint (generation_summary report timings)
    end).
End Generate.
End Commands.
