(* ===== verification/CliProofs.v ===== *)
(** * What the commands print

    A generation streams its tokens' texts and adds what of the completion goes
    beyond them; the checks print their report before they fail.  The witness
    generates with the runtime of [ModelExamples]. *)
From Stdlib Require Import Strings.Ascii.
From S2P Require Import Prelude Text Rank Packet InMemory World Tensor Float FloatExact Collective Registry Memory.
From S2P Require Import RingExchange CollectiveCheck CheckProofs Protocol Report Cache Kernels Llama Artifacts.
From S2P Require Import Generation GenerationProofs ModelExamples Format CommandLine Cli.

(** ** The texts of an event stream *)
Definition text_of (event : RunEventKind) : string := match event with TokenGenerated _ text => text | _ => "" end.
Definition texts (events : list RunEvent) : string := concat_map (fun e => text_of (event_kind e)) events.

Lemma concat_map_app {A} (f : A -> string) l k : concat_map f (l ++ k) = concat_map f l +:+ concat_map f k.
Proof. induction l as [|a l IH]; [done|]. cbn [app concat_map foldr]. fold (concat_map f (l ++ k)). by rewrite IH, str_app_assoc. Qed.
Lemma texts_emit kind self : texts (events (emit kind self)) = texts (events self) +:+ text_of kind.
Proof. unfold texts, emit. cbn [events]. rewrite concat_map_app. cbn. by rewrite str_app_nil. Qed.
Lemma announced_nothing evs : announced evs = [] -> texts evs = "".
Proof.
  induction evs as [|e evs IH]; [done|]. unfold announced. cbn [omap list_omap].
  change (omap _ evs) with (announced evs). unfold texts. cbn [concat_map foldr]. intros H.
  destruct (event_kind e); cbn [text_of]; try (by apply IH). done.
Qed.

(** What the decode stream made of tokens, one after the other. *)
Inductive streamed_as (tokenizer : Tokenizer) : list N -> string -> Prop :=
| streamed_nothing : streamed_as tokenizer [] ""
| streamed_token ids text token piece :
    streamed_as tokenizer ids text -> tokenizer_step tokenizer ids token = Ok piece ->
    streamed_as tokenizer (ids ++ [token]) (text +:+ default "" piece).

Section Stream.
Context {FO : FloatOps} {KE : Kernels}.
Context (model : Llama) (tokenizer : Tokenizer) (eos requested effective : N).

(** The loop keeps the stream and the tokens together. *)
Record streams (s : Generating) : Prop := mkStreams
  { st_same : streamed s = generated s;
    st_texts : streamed_as tokenizer (generated s) (texts (events (recorder s))) }.

Lemma accept_streams s token s' : accept_token tokenizer s token = Ok s' -> streams s -> streams s'.
Proof.
  unfold accept_token. intros (piece & Hp & [= <-])%bind_Ok [H1 H2]. split; cbn [streamed generated recorder].
  - cbn. by rewrite H1.
  - cbn [emit_token fst snd]. rewrite texts_emit. cbn [text_of]. apply streamed_token; [done|].
    rewrite <- H1. unfold tokenizer_error in Hp. by destruct (tokenizer_step _ _ _); [injection Hp as ->|].
Qed.

Definition streams_either (r : (StopReason * Generating) + Generating) : Prop :=
  match r with inl (_, s) => streams s | inr s => streams s end.

Lemma choice_streams s token r :
  (if (token =? eos)%N then Ok (inl (Eos, s)) else inr <$> accept_token tokenizer s token) = Ok r ->
  streams s -> streams_either r.
Proof.
  destruct (token =? eos)%N; [by intros [= <-]|]. intros H Hs.
  destruct (accept_token tokenizer s token) as [s'|] eqn:E; [|done]. injection H as <-. by eapply accept_streams.
Qed.

Lemma round_streams s r : decode_round model tokenizer eos requested effective s = Ok r -> streams s -> streams_either r.
Proof.
  unfold decode_round. destruct (_ <=? _)%N; [by intros [= <-]|]. cbv zeta.
  intros ([logits kv] & _ & (token & _ & H)%bind_Ok)%bind_Ok [H1 H2].
  eapply choice_streams; [exact H|]. split; [done|]. cbn [recorder generated].
  rewrite !texts_emit. cbn [text_of]. by rewrite !str_app_nil.
Qed.

Lemma loop_streams fuel s reason s' :
  decode_loop model tokenizer eos requested effective fuel s = Some (Ok (reason, s')) -> streams s -> streams s'.
Proof.
  revert s. induction fuel as [|fuel IH]; intros s; [done|]. cbn [decode_loop]. intros H Hs.
  destruct (decode_round _ _ _ _ _ s) as [[[reason0 s0]|s0]|e] eqn:E; [| |done].
  - injection H as <- <-. by apply (round_streams _ _ E).
  - apply (IH _ H). by apply (round_streams _ _ E).
Qed.

Lemma tokens_streams fuel prompt_tokens kv evs reason s :
  generate_tokens model tokenizer eos requested effective fuel prompt_tokens kv evs = Some (Ok (reason, s)) ->
  texts (events evs) = "" -> streams s.
Proof.
  unfold generate_tokens. cbv zeta. intros H Hev.
  match type of H with context [match ?m with Ok _ => _ | Err _ => _ end] =>
    assert (forall r, m = Ok r -> streams_either r) as Hr end.
  { intros r ([logits kv'] & _ & (token & _ & Hc)%bind_Ok)%bind_Ok. eapply choice_streams; [exact Hc|].
    split; [done|]. cbn [recorder generated]. rewrite !texts_emit, Hev. constructor. }
  match type of H with context [match ?m with Ok _ => _ | Err _ => _ end] => destruct m as [[[reason0 s0]|s0]|e] end.
  - injection H as <- <-. exact (Hr _ eq_refl).
  - eapply loop_streams; [exact H|]. exact (Hr _ eq_refl).
  - done.
Qed.
End Stream.

Section Generation.
Context {FO : FloatOps} {KE : Kernels} {HO : HostSystem} {RT : Runtime}.

Lemma generate_streams request rep : generate request = Some (Ok rep) ->
  exists path tokenizer, tokenizer_from_file path = Ok tokenizer /\
    streamed_as tokenizer (generated_tokens rep) (texts (report_events rep)) /\
    (generated_tokens rep = [] -> completion rep = "") /\
    (generated_tokens rep <> [] -> tokenizer_decode tokenizer (generated_tokens rep) = Ok (completion rep)).
Proof.
  unfold generate. destruct (prepare request recorder_new) as [[[[[[[spec repository] tk] prompt] effective] memory] evs]|e] eqn:Hp; [|done].
  pose proof (prep_events _ _ _ _ _ _ (prepare_Ok _ _ _ _ _ _ _ _ Hp)) as Hev.
  destruct (load _ _ _ _ _) as [[[model kv] evs']|e] eqn:Hl; [|done]. apply load_Ok in Hl as (_ & _ & Hev' & _).
  destruct (generate_tokens _ _ _ _ _ _ _ _ _) as [[[reason s]|e]|] eqn:Hg; [|done..]. cbn [mbind option_bind].
  intros [= H]. apply tokens_streams in Hg as [H1 H2]; [|apply announced_nothing; congruence].
  cbn [mbind result_bind] in H. unfold finish_report in H.
  apply bind_Ok in H as (text & Ht & (bytes & _ & [= <-])%bind_Ok). cbn [generated_tokens report_events completion].
  unfold prepare in Hp. do 3 apply bind_Ok in Hp as (? & _ & Hp). do 4 apply bind_Ok in Hp as (? & _ & Hp).
  apply bind_Ok in Hp as (? & _ & Hp). apply bind_Ok in Hp as (tk' & Htk & Hp).
  do 3 apply bind_Ok in Hp as (? & _ & Hp). apply bind_Ok in Hp as ([eff mem] & _ & Hp).
  apply bind_Ok in Hp as (? & _ & [= _ _ -> _ _ _ _]).
  unfold tokenizer_error in Htk. destruct (tokenizer_from_file _) as [tk0|] eqn:Hf; [injection Htk as ->|done].
  eexists _, tk. split; [exact Hf|]. split.
  - unfold texts. rewrite concat_map_app. cbn [concat_map foldr text_of event_kind]. by rewrite !str_app_nil.
  - destruct (Generation.generated s) as [|t l]; [by injection Ht as <-|]. split; [done|]. intros _.
    unfold tokenizer_error in Ht. by destruct (tokenizer_decode _ _); [injection Ht as ->|].
Qed.
End Generation.

(** ** What reaches the terminal *)
Lemma stdout_of_app w w' : stdout_of (w ++ w') = stdout_of w +:+ stdout_of w'.
Proof.
  induction w as [|x w IH]; [done|]. cbn [app stdout_of foldr]. fold (stdout_of (w ++ w')).
  destruct x; rewrite IH; [by rewrite str_app_assoc|done..].
Qed.

Lemma observe_run events o w : exists phase w',
  observe events o w = (Ok (mkObserver phase (observed_text o +:+ texts events)), w ++ w') /\
  stdout_of w' = texts events /\ forall p t, ToFile p t ∉ w'.
Proof.
  revert o w. induction events as [|e events IH]; intros o w.
  { exists (artifact_phase o), []. unfold texts. cbn. rewrite str_app_nil, app_nil_r. destruct o. split_and!; [done..|]. set_solver. }
  assert (exists phase w1, on_event (event_kind e) o w = (Ok (mkObserver phase (observed_text o +:+ text_of (event_kind e))), w ++ w1)
    /\ stdout_of w1 = text_of (event_kind e) /\ forall p t, ToFile p t ∉ w1) as (phase & w1 & H1 & H2 & F1).
  { destruct o as [phase text]. destruct (event_kind e); cbn; rewrite ?str_app_nil;
      try (exists phase, []; rewrite app_nil_r; split_and!; [done..|set_solver]); eexists _, [_];
      (split; [reflexivity|]); (split; [|set_solver]); cbn; by rewrite ?str_app_nil. }
  cbn [observe]. unfold mbind at 1, cli_bind at 1. rewrite H1.
  destruct (IH (mkObserver phase (observed_text o +:+ text_of (event_kind e))) (w ++ w1)) as (phase' & w2 & H3 & H4 & F2).
  exists phase', (w1 ++ w2). rewrite H3, stdout_of_app, H2, H4. cbn [observed_text]. rewrite str_app_assoc, app_assoc.
  split_and!; [done..|]. set_solver.
Qed.

Lemma strip_prefix_spec p s t : strip_prefix p s = Some t <-> s = p +:+ t.
Proof.
  split.
  - revert s. induction p as [|c p IH]; intros s; [by intros [= ->]|]. destruct s as [|c' s]; [done|].
    cbn [strip_prefix]. destruct (Ascii.eqb_spec c c') as [->|]; [|done]. intros H. by rewrite str_cons_app, <- (IH _ H).
  - intros ->. induction p as [|c p IH]; [done|]. rewrite str_cons_app. cbn [strip_prefix]. by rewrite Ascii.eqb_refl.
Qed.

(** What stands on the standard output in the end: the streamed text, and the rest of
    the completion when it begins with this text. *)
Definition standing (text completion output : string) : Prop :=
  (forall rest, completion = text +:+ rest -> output = completion +:+ newline) /\
  ((forall rest, completion <> text +:+ rest) -> output = text +:+ newline).

Lemma finish_run flush text completion phase w : exists w' shown,
  observer_finish flush completion (mkObserver phase text) w = (map_err CliIo flush, w ++ w') /\
  stdout_of w' = shown +:+ newline /\ (forall p t, ToFile p t ∉ w') /\ standing text completion (text +:+ shown +:+ newline).
Proof.
  unfold observer_finish. cbn [observed_text]. destruct (strip_prefix text completion) as [rest|] eqn:E.
  - exists [ToStdout rest; ToStdout newline], rest. unfold mbind, cli_bind, println, print, attempt_cli.
    rewrite <- app_assoc. split; [by destruct flush|]. split; [done|]. split; [set_solver|].
    apply strip_prefix_spec in E as ->. split; [by intros _ _; rewrite str_app_assoc|]. intros H. by destruct (H rest).
  - exists [ToStdout newline], "". unfold mbind, cli_bind, println, print, attempt_cli.
    split; [by destruct flush|]. split; [done|]. split; [set_solver|]. split; [|done].
    intros rest ->. by rewrite (proj2 (strip_prefix_spec _ _ _) eq_refl) in E.
Qed.

Section Printed.
Context {FO : FloatOps} {KE : Kernels} {HO : HostSystem} {RT : Runtime}.

(** C21: [dlir generate] streams the pieces the decode stream makes of the tokens and
    then adds the rest of the completion, so that the standard output holds exactly
    the completion of the report and a newline - unless the completion does not begin
    with the pieces, as a decoder that replaces incomplete characters may have it:
    then the pieces stand there alone.  The report is written where asked, but not
    after the standard output could not be flushed; that error is returned.  When
    the generation fails, what was streamed stands there and the error is returned. *)
Theorem generate_prints_completion write json timings flush before_failure request path outcome :
  generate request = Some outcome ->
  exists run, run_generate write json timings flush before_failure request path = Some run /\
  match outcome with
  | Err e => (run []).1 = Err (CliDlir e) /\ stdout_of (run []).2 = texts before_failure
  | Ok rep =>
      (exists file tokenizer, tokenizer_from_file file = Ok tokenizer /\
         streamed_as tokenizer (generated_tokens rep) (texts (report_events rep)) /\
         (generated_tokens rep <> [] -> tokenizer_decode tokenizer (generated_tokens rep) = Ok (completion rep))) /\
      standing (texts (report_events rep)) (completion rep) (stdout_of (run []).2) /\
      match flush with
      | Err message => (run []).1 = Err (CliIo message) /\ forall p text, ToFile p text ∉ (run []).2
      | Ok _ =>
          match path with
          | None => (run []).1 = Ok tt
          | Some p => forall text, json (rep, timings) = Ok text -> write p = Ok tt ->
              (run []).1 = Ok tt /\ ToFile p text ∈ (run []).2
          end
      end
  end.
Proof.
  intros Hg. unfold run_generate. rewrite Hg. cbn [mbind option_bind].
  destruct (spec_of (request_model request)) as [spec|] eqn:Hs; [|by destruct (request_model request)].
  eexists. split; [reflexivity|]. set (head := text_line _ _ +:+ _).
  assert (eprint head [] = (Ok tt, [ToStderr head])) as He by done.
  destruct outcome as [rep|e].
  - pose proof (generate_streams request rep Hg) as (file & tk & Hf & Hst & _ & Hdec). split; [by exists file, tk|].
    destruct (observe_run (report_events rep) new_observer [ToStderr head]) as (phase & w & Ho & Hw & Hnofile).
    cbn [observed_text new_observer] in Ho. change ("" +:+ ?t) with t in Ho.
    destruct (finish_run flush (texts (report_events rep)) (completion rep) phase ([ToStderr head] ++ w))
      as (w' & shown & Hfin & Hw' & Hnofile' & Hstand).
    unfold mbind, cli_bind. rewrite He, Ho, Hfin. cbn [app].
    assert (stdout_of w +:+ stdout_of w' = texts (report_events rep) +:+ shown +:+ newline) as Hout by (by rewrite Hw, Hw').
    rewrite <- Hout in Hstand. destruct flush as [[]|message]; cbn [map_err].
    2:{ split; [cbn; by rewrite stdout_of_app|]. split; [done|]. set_solver. }
    destruct path as [p|]; cbn; unfold to_json, attempt_cli, write_file.
    + destruct (json (rep, timings)) as [text|] eqn:Ej; cbn; [destruct (write p) as [[]|] eqn:Ew; cbn|];
        (split; [rewrite ?stdout_of_app; cbn; by rewrite ?str_app_nil|]); try done.
      intros text' [= ->] _. split; [done|]. set_solver.
    + split; [|done]. rewrite !stdout_of_app. cbn. by rewrite str_app_nil.
  - destruct (observe_run before_failure new_observer [ToStderr head]) as (phase & w & Ho & Hw & _).
    unfold mbind, cli_bind. rewrite He, Ho. split; [done|exact Hw].
Qed.
End Printed.

(** ** A decode stream that is one token late *)
#[local] Existing Instances zero_floats zero_kernels smol_host.
Definition spelled (ids : list N) : string := concat_map (fun _ => "x") ids.
Definition late_tokenizer : Tokenizer :=
  mkTokenizer (fun _ => Ok [5]%N) (fun ids => Ok (spelled ids))
    (fun seen _ => Ok (match seen with [] => None | _ => Some "x" end)).
#[local] Instance late_runtime : Runtime :=
  {| tokenizer_from_file _ := Ok late_tokenizer; from_mmaped_safetensors _ _ := Ok any_weights |}.

Definition no_timings : TimingReport := build_timings 0 0 0 0 0 0 0 0 0 0.
Definition say_two : GenerationRequest := Generation.mkRequest SmolLm2_135MInstruct PF32 "Hello" 2 None.
Definition says_two (request : GenerationRequest) : bool :=
  match generate request with
  | Some (Ok rep) => String.eqb (completion rep) "xx" && String.eqb (texts (report_events rep)) "x"
  | _ => false
  end.

Lemma generate_prints_completion_witness : exists run,
  run_generate (fun _ => Ok tt) (fun _ => Ok "{}") no_timings (Ok tt) [] say_two (Some "report.json") = Some run /\
  stdout_of (run []).2 = "xx" +:+ newline /\ (run []).1 = Ok tt /\ ToFile "report.json" "{}" ∈ (run []).2.
Proof.
  assert (says_two say_two = true) as Hs by (vm_compute; reflexivity). unfold says_two in Hs.
  destruct (generate say_two) as [[rep|]|] eqn:Hg; [|discriminate Hs..].
  apply andb_true_iff in Hs as [Hc%String.eqb_eq Ht%String.eqb_eq].
  destruct (generate_prints_completion (fun _ => Ok tt) (fun _ => Ok "{}") no_timings (Ok tt) [] say_two (Some "report.json")
    (Ok rep) Hg) as (run & Hr & _ & [Hout _] & Hfile).
  exists run. split; [exact Hr|]. rewrite Hc, Ht in Hout. split; [exact (Hout "x" eq_refl)|]. exact (Hfile "{}" eq_refl eq_refl).
Defined.

(** ** A decoder that replaces incomplete characters

    One piece is streamed before the second token turns both into replacement
    characters: the pieces stand on the standard output, not the completion. *)
Definition replacing_tokenizer : Tokenizer :=
  mkTokenizer (fun _ => Ok [5]%N) (fun ids => Ok (concat_map (fun _ => "?") ids))
    (fun seen _ => Ok (match seen with [] => Some "A" | _ => None end)).
Example replaced_completion :
  let runtime := {| tokenizer_from_file _ := Ok replacing_tokenizer; from_mmaped_safetensors _ _ := Ok any_weights |} in
  match generate (RT := runtime) say_two,
        run_generate (RT := runtime) (fun _ => Ok tt) (fun _ => Ok "{}") no_timings (Ok tt) [] say_two None with
  | Some (Ok rep), Some run => completion rep = "??" /\ stdout_of (run []).2 = "A" +:+ newline /\ (run []).1 = Ok tt
  | _, _ => False
  end.
Proof. vm_compute. by split_and!. Qed.

(** ** The checks *)

(** [dlir collectives check] writes its report, whatever it found, before it fails. *)
Lemma check_writes_first write json n output outcome report :
  2 <= n -> run_collective_check n P2P_RECEIVE_TIMEOUT outcome = Ok report ->
  match output with Some path => write path = Ok tt | None => True end ->
  run_collectives_check write json n TextFormat output outcome [] =
  (if check_success report then Ok tt else Err (CliMessage "native collective correctness check failed"),
   [match output with Some path => ToFile path (collective_check_text report)
    | None => ToStdout (collective_check_text report) end]).
Proof.
  intros Hn Hr Hw. unfold run_collectives_check. destruct (Nat.ltb_spec n 2); [lia|].
  rewrite Hr. unfold mbind, cli_bind, attempt_cli, output_or_print, write_file. cbn.
  destruct output as [path|]; cbn; [rewrite Hw|]; cbn; by destruct (check_success report).
Qed.

(** [dlir collectives check] on two to 257 ranks: every schedule of the workers ends,
    every operation of every rank passed, and the command prints the report that
    says so and succeeds; with fewer ranks it is refused before any worker starts,
    and when a check fails the report is written all the same. *)
Theorem check_command_passes {FO : FloatOps} {EI : ExactIntegers} write json n elapsed :
  (2 <= n <= 257 ->
   let report i := mkCheckRank i (check_operations n i) in
   let summary := mkCheckReport 1 "in_memory" "native" n (map report (seq 0 n)) true in
   always_returns (world_of n (fun i => check_worker (elapsed i) i n)) (map (fun i => Ok (report i)) (seq 0 n)) /\
   (forall i, Forall (fun operation => passed operation = true) (operations (report i)) /\
              map check_kind (operations (report i)) =
              [Broadcast; Reduce; AllGather; AllReduce; AllReduce; ReduceScatter; AllToAll]) /\
   run_collectives_check write json n TextFormat None (fun i => JoinOk (report i)) [] =
   (Ok tt, [ToStdout (collective_check_text summary)])) /\
  (n < 2 -> forall format output outcome, run_collectives_check write json n format output outcome [] =
   (Err (CliMessage "collective correctness checks require at least two ranks"), [])) /\
  (forall outcome report, 2 <= n -> run_collective_check n P2P_RECEIVE_TIMEOUT outcome = Ok report ->
   run_collectives_check write json n TextFormat None outcome [] =
   (if check_success report then Ok tt else Err (CliMessage "native collective correctness check failed"),
    [ToStdout (collective_check_text report)])).
Proof.
  split; [|split].
  - intros Hn report summary.
    destruct (collective_check_passes n P2P_RECEIVE_TIMEOUT elapsed) as (H1 & H2 & H3). destruct (Nat.eqb_spec n 0); [lia|].
    split; [apply H1; lia|]. split; [exact H2|]. exact (check_writes_first write json n None _ _ ltac:(lia) H3 I).
  - intros Hn format output outcome. unfold run_collectives_check. by destruct (Nat.ltb_spec n 2); [|lia].
  - intros outcome report Hn Hr. by rewrite (check_writes_first write json n None _ _ Hn Hr I).
Qed.

(** Two ranks with binary32 addition. *)
#[local] Existing Instance binary32.
Lemma check_command_passes_witness :
  (run_collectives_check (fun _ => Ok tt) (fun _ => Ok "") 2 TextFormat None
     (fun i => JoinOk (mkCheckRank i (check_operations 2 i))) []).1 = Ok tt.
Proof.
  destruct (check_command_passes (fun _ => Ok tt) (fun _ => Ok "") 2 (fun _ _ => 0%N)) as [H _].
  destruct (H ltac:(lia)) as (_ & _ & E). exact (f_equal fst E).
Defined.

(** ** The acceptance texts *)
Fixpoint text_lines (l : list string) : string := match l with [] => "" | s :: l => s +:+ newline +:+ text_lines l end.

Example p2p_text_of_two :
  (p2p_text (fun _ => "") <$> match run_p2p_ring 2 5%N (fun i => JoinOk (exchanged 2 i)) with Ok r => Some r | Err _ => None end) =
  Some (text_lines ["P2P TENSOR EXCHANGE"; "Backend:    in_memory"; "Pattern:    ring"; "World size: 2"; "";
    "rank 0 sent [1, 2, 3, 4] to rank 1"; "rank 0 received [5, 6, 7, 8] from rank 1"; "rank 0 verification: PASS"; "";
    "rank 1 sent [5, 6, 7, 8] to rank 0"; "rank 1 received [1, 2, 3, 4] from rank 0"; "rank 1 verification: PASS"; "";
    "Result: PASS"]).
Proof. by vm_compute. Qed.

Example inspection_text_baseline :
  (run_inspect (fun _ => Ok tt) (fun _ => Ok "") (mkInspection SmolLm2_135MInstruct PF32 512 (Some (user_declared 524288000)))
     TextFormat None []) =
  (Ok tt, [ToStdout (text_lines ["MODEL INSPECTION"; "Model:              smollm2-135m-instruct";
    "Repository:         HuggingFaceTB/SmolLM2-135M-Instruct"; "Revision:           " +:+ revision SMOLLM2;
    "Parameters:         134,515,008"; "Layers:             30"; "Attention heads:    9"; "KV heads:           3";
    "Hidden dimension:   576"; "Head dimension:     64"; "Maximum context:    8192"; "Planned context:    512";
    "Dtype:              f32"; "Logical weights:    513.1 MiB (538060032)"; "KV cache capacity:  22.5 MiB (23592960)";
    "Persistent minimum: 535.6 MiB (561652992)"; "Device budget:      500.0 MiB (524288000)";
    "Budget semantics:   host, per-rank, user-declared, not OS-enforced"; "Placement:          FAILED";
    "Note: Activations, workspaces, allocator fragmentation, and runtime memory are excluded."])]).
Proof. by vm_compute. Qed.

(** [dlir p2p] on two or more ranks prints the exchange of the workers and succeeds. *)
Lemma p2p_command_succeeds display json n : 2 <= n -> (N.of_nat n * 4 + 5 < U64)%N ->
  run_p2p display json n TextFormat (fun i => JoinOk (exchanged n i)) [] =
  (Ok tt, [ToStdout (p2p_text display (mkP2p 1 "in_memory" "ring" n (map (exchanged n) (seq 0 n)) true))]).
Proof.
  intros Hn Hmax. unfold run_p2p. rewrite (proj2 (proj1 (p2p_ring_succeeds n P2P_RECEIVE_TIMEOUT) Hn Hmax)). reflexivity.
Qed.
