(* ===== verification/Progress.v ===== *)
(** * What a launch prints

    The texts of [crates/cli/src/launch.rs], [pipeline.rs] and [tensor.rs]: the
    report of a topology launch, the progress lines printed when there is no
    dashboard, and the summaries.  The theorems say what a reader may conclude from
    them. *)
From Stdlib Require Import ZArith Strings.Ascii.
From S2P Require Import Prelude Text Rank Packet InMemory Tcp World Tensor Float Collective Registry Memory Partition Shard Protocol.
From S2P Require Import Report Cache Kernels Llama Artifacts Generation Launch Docker LaunchRun RingExchange CollectiveCheck Benchmark Collect CollectProofs.
From S2P Require Import Pipeline PipelineLaunch Parallel TensorLlama TensorRun TensorLaunch Format CommandLine Cli.
From S2P Require Import Observe PipelineEvents Transcript TensorEvents TensorTranscript.

(** ** The topology *)
Section Topology.
(** [f32]'s [Debug]. *)
Variable debug_f32 : f32 -> string.

(** [launch_text]: the part of one rank, and the whole. *)
Definition rank_launch_text (rank : ContainerRankReport) : string :=
  let name := "rank " +:+ pretty (N.of_nat (container_rank rank)) in
  let values s := "[" +:+ join ", " (map debug_f32 (summary_values s)) +:+ "]" in
  match container_report rank with
  | Some report =>
      let exchange := process_exchange report in
      newline +:+ name +:+ " peers: " +:+ pretty (lenN (process_peers report)) +:+ newline
      +:+ name +:+ " resources: "
      +:+ match process_verification report with Passed => "PASS" | NotVerified => "NOT EVALUATED" end +:+ newline
      +:+ name +:+ " sent " +:+ values (RingExchange.sent exchange) +:+ " to rank " +:+ pretty (N.of_nat (RingExchange.sent_to exchange)) +:+ newline
      +:+ name +:+ " received " +:+ values (RingExchange.received exchange) +:+ " from rank "
      +:+ pretty (N.of_nat (RingExchange.received_from exchange)) +:+ newline
      +:+ name +:+ " barriers: " +:+ pass_fail (startup_barrier report && completion_barrier report) +:+ newline
      +:+ name +:+ " verification: " +:+ pass_fail (process_success report) +:+ newline
  | None =>
      newline +:+ name +:+ ": FAIL (" +:+ default "missing rank report" (container_error rank) +:+ ")" +:+ newline
  end.
Definition launch_text (report : DockerLaunchReport) : string :=
  let engine := launch_engine report in
  let resources := launch_resources report in
  "TCP DOCKER TOPOLOGY" +:+ newline
  +:+ text_line "Run ID:         " (report_run_id report)
  +:+ text_line "Backend:        " (launch_backend report)
  +:+ text_line "Pattern:        " (launch_pattern report)
  +:+ text_line "World size:     " (pretty (N.of_nat (launch_world_size report)))
  +:+ text_line "Docker engine:  " (format_cpu (engine_cpu_millis engine) +:+ " CPU, "
                                    +:+ format_bytes (engine_memory_bytes engine))
  +:+ text_line "Requested:      " (format_cpu (requested_cpu_millis resources) +:+ " CPU, "
                                    +:+ format_bytes (requested_memory_bytes resources))
  +:+ text_line "Per rank:       " (format_cpu (per_rank_cpu_millis resources) +:+ " CPU, "
                                    +:+ format_bytes (per_rank_memory_bytes resources))
  +:+ concat_map rank_launch_text (launch_ranks report)
  +:+ newline +:+ "Result: " +:+ pass_fail (launch_success report) +:+ newline.
End Topology.

(** ** Progress *)

(** [print_text_event] of the pipeline and of the tensor launch: the line it
    prints, if any. *)
Definition of_rank (event : PipelineEvent) (text : string) : string :=
  "[rank " +:+ pretty (N.of_nat (event_rank (published_event event))) +:+ "] " +:+ text.
Definition pipeline_event_line (event : PipelineEvent) : option string :=
  match event_kind (published_event event) with
  | ModelLoadStarted => Some (of_rank event "loading stage...")
  | ModelLoadFinished => Some (of_rank event "stage ready")
  | _ => None
  end.
Definition tensor_event_line (event : PipelineEvent) : option string :=
  match event_kind (published_event event) with
  | ModelLoadStarted => Some (of_rank event "loading tensor shard...")
  | TokenGenerated token_id _ => Some ("[rank 0] generated token " +:+ pretty token_id)
  | GenerationFinished stop_reason => Some (of_rank event ("finished: " +:+ stop_reason_display stop_reason))
  | _ => None
  end.

(** The calls of the collector, for the events it received. *)
Fixpoint show_progress (line : PipelineEvent -> option string) (events : list ReceivedPipelineEvent) : cli unit :=
  match events with
  | [] => mret tt
  | event :: events =>
      _ ← match line (published event) with Some text => eprintln text | None => mret tt end;
      show_progress line events
  end.

(** ** Summaries *)

(** [struct PipelineTimingReport], and the times of [PipelineRankTimings] that
    are printed. *)
Record PipelineTimingReport : Type := mkPipelineTimings
  { pt_artifact_resolution_ns : N; pt_prefill_ns : N; pt_time_to_first_token_ns : N; pt_decode_total_ns : N;
    pt_decode_forward_count : N; pt_mean_decode_ns : option N; pt_cold_start_total_ns : N }.

(** [print_pipeline_summary]; [load] and [layers] are the measured times of a rank. *)
Definition pipeline_rank_text (load layers : nat -> N) (rank : PipelineRankReport) : string :=
  let cgroup value := match value with Some bytes => format_bytes bytes | None => "unknown" end in
  "rank " +:+ pretty (N.of_nat (pr_rank rank)) +:+ " layers " +:+ pretty (Partition.layer_start (pr_assignment rank))
  +:+ ".." +:+ pretty (layer_end (pr_assignment rank)) +:+ ": weights " +:+ format_bytes (sp_weight_bytes (pr_memory rank))
  +:+ ", KV " +:+ format_bytes (pr_final_kv_cache_bytes rank) +:+ "/"
  +:+ format_bytes (sp_kv_cache_capacity_bytes (pr_memory rank)) +:+ " used, cgroup "
  +:+ cgroup (memory_current_bytes (pr_resources rank)) +:+ "/" +:+ cgroup (memory_limit_bytes (pr_resources rank))
  +:+ ", load " +:+ fixed 3 (ns_seconds (load (pr_rank rank))) +:+ " s, layers "
  +:+ fixed 3 (ns_millis (layers (pr_rank rank))) +:+ " ms, comm "
  +:+ format_bytes (add64 (tensor_bytes_sent (pr_communication rank)) (control_bytes_sent (pr_communication rank))).
Definition pipeline_summary_text (report : PipelineReport) (timings : PipelineTimingReport) : string :=
  newline +:+ newline +:+ text_line "PIPELINE RUN SUMMARY" ""
  +:+ text_line "world size / PP:    " (pretty (N.of_nat (rep_world_size report)))
  +:+ text_line "prompt tokens:      " (pretty (rep_prompt_tokens report))
  +:+ text_line "generated tokens:   " (pretty (lenN (rep_generated_tokens report)))
  +:+ text_line "stop reason:        " (stop_reason_display (rep_stop_reason report))
  +:+ text_line "model parameters:   " (pretty (rep_model_parameters report))
  +:+ text_line "materialized:       " (pretty (rep_materialized_parameters report) +:+ " ("
                                        +:+ pretty (rep_duplicated_parameters report) +:+ " duplicated)")
  +:+ text_line "communication:      " (format_bytes (rep_communication_bytes report))
  +:+ text_line "prefill:            " (fixed 3 (ns_millis (pt_prefill_ns timings)) +:+ " ms")
  +:+ text_line "TTFT:               " (fixed 3 (ns_millis (pt_time_to_first_token_ns timings)) +:+ " ms")
  +:+ text_line "mean decode:        "
        (optional_text (fun ns => fixed 3 (ns_millis ns) +:+ " ms") (pt_mean_decode_ns timings))
  +:+ "cold start:         " +:+ fixed 3 (ns_seconds (pt_cold_start_total_ns timings)) +:+ " s".
Fixpoint eprintln_all (lines : list string) : cli unit :=
  match lines with [] => mret tt | line :: lines => _ ← eprintln line; eprintln_all lines end.
Definition print_pipeline_summary (report : PipelineReport) (timings : PipelineTimingReport) (load layers : nat -> N)
  : cli unit :=
  _ ← eprintln (pipeline_summary_text report timings);
  _ ← eprintln_all (map (pipeline_rank_text load layers) (rep_ranks report));
  eprintln ("result:             " +:+ pass_fail (rep_success report)).

(** The end of the tensor launch. *)
Definition tensor_summary_text (report : TensorParallelReport) : string :=
  newline +:+ text_line "TENSOR PARALLEL SUMMARY" ""
  +:+ text_line "TP=" (pretty (N.of_nat (tr_tensor_parallel report)) +:+ " PP=1 EP=1")
  +:+ text_line "all-reduce: " (algorithm_debug (tr_all_reduce report))
  +:+ text_line "generated tokens: " (pretty (lenN (tr_generated_tokens report)))
  +:+ text_line "communication: " (format_bytes (tr_communication_bytes report))
  +:+ "result: " +:+ pass_fail (tr_success report).

(** The completion goes to standard output, everything else to standard error. *)
Definition print_pipeline_outcome (report : PipelineReport) (timings : PipelineTimingReport) (load layers : nat -> N)
  : cli unit :=
  _ ← println (rep_completion report); print_pipeline_summary report timings load layers.
Definition print_tensor_outcome (report : TensorParallelReport) : cli unit :=
  _ ← println (tr_completion report); eprintln (tensor_summary_text report).

(** ** What they show *)

(** Texts that end alike. *)
Lemma str_length_app a b : String.length (a +:+ b) = String.length a + String.length b.
Proof. induction a as [|c a IH]; [done|]. rewrite str_cons_app. cbn [String.length]. by rewrite IH. Qed.
Lemma same_tail (a b x y : string) : String.length x = String.length y -> a +:+ x = b +:+ y -> x = y.
Proof.
  intros Hl H. assert (String.length a = String.length b) as Hab.
  { apply (f_equal String.length) in H. rewrite !str_length_app in H. lia. }
  revert b Hab H. induction a as [|c a IH]; intros [|d b] Hab H; try done.
  rewrite !str_cons_app in H. injection H as _ H. apply (IH b); [by injection Hab|done].
Qed.

(** A report's text ends in PASS exactly when the report succeeded. *)
Lemma launch_text_verdict debug_f32 report :
  (exists before, launch_text debug_f32 report = before +:+ "PASS" +:+ newline) <-> launch_success report = true.
Proof.
  assert (exists head, launch_text debug_f32 report = head +:+ pass_fail (launch_success report) +:+ newline) as [head ->].
  { unfold launch_text, text_line. rewrite <- !str_app_assoc, (str_app_assoc _ (pass_fail _) newline). by eexists. }
  split; [|intros ->; by exists head]. intros [before H]. destruct (launch_success report); [done|].
  apply (same_tail _ _ (pass_fail false +:+ newline) ("PASS" +:+ newline)) in H; [discriminate|done].
Qed.

(** The progress goes to standard error, line by line. *)
Lemma show_progress_written line events w :
  show_progress line events w
  = (Ok tt, w ++ map (fun text => ToStderr (text +:+ newline)) (omap line (map published events))).
Proof.
  revert w. induction events as [|e events IH]; intros w; [cbn; by rewrite app_nil_r|].
  cbn [show_progress map omap list_omap]. destruct (line (published e)) as [text|].
  - etrans; [apply (IH (w ++ [ToStderr (text +:+ newline)]))|]. by rewrite <- app_assoc.
  - apply (IH w).
Qed.

(** Lines by kind, when all events are of one rank. *)
Definition pipeline_kind_line (rank : nat) (kind : RunEventKind) : option string :=
  pipeline_event_line (mkPipelineEvent 1 "" "" (mkEvent 0 rank kind)).
Definition tensor_kind_line (rank : nat) (kind : RunEventKind) : option string :=
  tensor_event_line (mkPipelineEvent 1 "" "" (mkEvent 0 rank kind)).
Lemma lines_by_kind (line : PipelineEvent -> option string) (kind_line : RunEventKind -> option string) i es :
  (forall e, event_rank (published_event e) = i -> line e = kind_line (event_kind (published_event e))) ->
  (forall k e, es !! k = Some e -> event_rank (published_event e) = i) ->
  omap line es = omap kind_line (map (fun e => event_kind (published_event e)) es).
Proof.
  intros Hline. induction es as [|e es IH]; intros H; [done|]. cbn [omap list_omap map].
  rewrite (Hline e (H 0 e eq_refl)), IH; [done|]. intros k e' Hk. exact (H (S k) e' Hk).
Qed.

Lemma omap_map_none {A B C} (f : B -> option C) (g : A -> B) l : (forall a, f (g a) = None) -> omap f (map g l) = [].
Proof. intros H. induction l as [|a l IH]; [done|]. cbn [omap list_omap map]. by rewrite H. Qed.
Lemma omap_over_app {A B} (f : A -> option B) l k : omap f (l ++ k) = omap f l ++ omap f k.
Proof. induction l as [|a l IH]; [done|]. cbn [omap list_omap app]. rewrite IH. by destruct (f a). Qed.

Section Shown.
Context {FO : FloatOps} {KE : Kernels} {HO : HostSystem} {RT : Runtime}.

Section Pipeline.
Context {JC : JsonCodec PipelineControl}.

Lemma quiet_layers rank start count phase step : omap (pipeline_kind_line rank) (layer_events start count phase step) = [].
Proof. revert start. induction count as [|count IH]; intros start; [done|]. exact (IH (S start)). Qed.
Lemma quiet_rounds rank manifest assignment resources step rounds :
  omap (pipeline_kind_line rank) (rounds_events manifest assignment resources step rounds) = [].
Proof.
  revert step. induction rounds as [|facts rounds IH]; intros step; [done|]. cbn [rounds_events].
  rewrite omap_over_app, IH. unfold pipeline_round_events. cbn [omap list_omap].
  rewrite !omap_over_app, quiet_layers. unfold step_begins, step_ends, arrival_events, hand_over_events, agreement_events, announcement.
  destruct (phase_of step), (Nat.eqb _ 0), (Nat.ltb _ _), (said facts) as [[token piece]|]; cbn [omap list_omap app pipeline_kind_line pipeline_event_line event_kind published_event];
    rewrite ?omap_over_app; cbn; by rewrite ?omap_map_none.
Qed.

(** A pipeline rank's progress: it loads its stage, once. *)
Lemma pipeline_progress rank manifest resources report recorder :
  recorded_run rank manifest resources report recorder -> (N.of_nat (length (kinds_of recorder)) < U64)%N ->
  omap pipeline_event_line (recorded recorder)
  = ["[rank " +:+ pretty (N.of_nat (global_rank rank)) +:+ "] loading stage...";
     "[rank " +:+ pretty (N.of_nat (global_rank rank)) +:+ "] stage ready"].
Proof.
  intros (rounds & Hk & Hn & _) Hlen. destruct (Hn Hlen) as [_ Hrank].
  rewrite (lines_by_kind _ (pipeline_kind_line (global_rank rank)) (global_rank rank)).
  - fold (kinds_of recorder). rewrite Hk. unfold transcript. rewrite !omap_over_app, quiet_rounds. done.
  - intros e He. unfold pipeline_kind_line, pipeline_event_line, of_rank. cbn. by rewrite He.
  - intros k e Hke. by apply (Hrank k e Hke).
Qed.
End Pipeline.

Section Tensor.
Context {JC : JsonCodec TokenDecision}.

Lemma quiet_layered rank phase step layer l : omap (tensor_kind_line rank) (layered_events phase step layer l) = [].
Proof. revert layer. induction l as [|p l IH]; intros layer; [done|]. cbn. apply IH. Qed.
Lemma token_lines_rounds rank size prompt step rounds :
  omap (tensor_kind_line rank) (tensor_rounds_events rank size prompt step rounds)
  = if Nat.eqb rank 0 then map (fun token => "[rank 0] generated token " +:+ pretty token) (flat_map tokens_of rounds) else [].
Proof.
  revert step. induction rounds as [|facts rounds IH]; intros step; [by destruct (Nat.eqb rank 0)|].
  cbn [tensor_rounds_events flat_map]. rewrite omap_over_app, IH. unfold tensor_round_events, pass_events, trace_events, decision_events, token_events, tokens_of.
  cbn [omap list_omap]. rewrite !omap_over_app, quiet_layered. unfold tensor_step_begins, tensor_step_ends, tensor_kind_line.
  destruct (step =? 0)%N, (td_emit (decided facts)), (Nat.eqb rank 0); cbn; by rewrite ?omap_map_none.
Qed.

(** A tensor rank's progress: it loads its shard, the tokens of its report when it
    is rank 0, and why it finished. *)
Lemma tensor_progress rank manifest resources report recorder :
  recorded_tensor_run rank manifest resources report recorder -> (N.of_nat (length (kinds_of recorder)) < U64)%N ->
  omap tensor_event_line (recorded recorder)
  = ("[rank " +:+ pretty (N.of_nat (global_rank rank)) +:+ "] loading tensor shard...") ::
    (if Nat.eqb (global_rank rank) 0
     then map (fun token => "[rank 0] generated token " +:+ pretty token) (tp_generated_tokens report) else []) ++
    ["[rank " +:+ pretty (N.of_nat (global_rank rank)) +:+ "] finished: " +:+ stop_reason_display (tp_stop_reason report)].
Proof.
  intros (rounds & layers & Hk & Hn & _ & _ & _ & _ & _ & _ & Htokens & _) Hlen. destruct (Hn Hlen) as [_ Hrank].
  rewrite (lines_by_kind _ (tensor_kind_line (global_rank rank)) (global_rank rank)).
  - fold (kinds_of recorder). rewrite Hk, Htokens. unfold tensor_transcript. rewrite !omap_over_app.
    cbn [omap list_omap]. rewrite token_lines_rounds. done.
  - intros e He. unfold tensor_kind_line, tensor_event_line, of_rank. cbn. by rewrite He.
  - intros k e Hke. by apply (Hrank k e Hke).
Qed.
End Tensor.

(** A launch without a dashboard prints what its ranks did.  Let the events the
    collector received be, rank by rank, those of tensor ranks that ran.  Standard
    error receives one line for each event that has one, in the order received;
    those of rank [i] are: that it loads, for rank 0 the tokens of its report one
    after the other, and the reason for which the report stopped. *)
Theorem tensor_progress_true {JC : JsonCodec TokenDecision} n manifest resources reports recorders events w :
  (forall i, i < n ->
     recorded_tensor_run (mkRank i n) manifest (resources i) (reports i) (recorders i) /\
     (N.of_nat (length (kinds_of (recorders i))) < U64)%N /\
     filter (fun e => event_rank (published_event e) = i) (map published events) = recorded (recorders i)) ->
  show_progress tensor_event_line events w
    = (Ok tt, w ++ map (fun text => ToStderr (text +:+ newline)) (omap tensor_event_line (map published events))) /\
  forall i, i < n ->
    omap tensor_event_line (filter (fun e => event_rank (published_event e) = i) (map published events))
    = ("[rank " +:+ pretty (N.of_nat i) +:+ "] loading tensor shard...") ::
      (if Nat.eqb i 0
       then map (fun token => "[rank 0] generated token " +:+ pretty token) (tp_generated_tokens (reports i)) else []) ++
      ["[rank " +:+ pretty (N.of_nat i) +:+ "] finished: " +:+ stop_reason_display (tp_stop_reason (reports i))].
Proof.
  intros H. split; [apply show_progress_written|]. intros i Hi. destruct (H i Hi) as (Hrun & Hlen & ->).
  exact (tensor_progress _ _ _ _ _ Hrun Hlen).
Qed.
End Shown.
